(* ===== verification/_CoqProject ===== *)
-Q . S2P
Prelude.v
CInt.v
Buffer.v
Bits.v
Bitmap.v
Types.v
CString.v
Float.v
Metadata.v
Schema.v
SchemaView.v
ArrayView.v
ArrayViewSafety.v
Array.v
ArrayBuild.v
Stream.v
Decimal.v
Cpp.v
Double.v
Convert.v
ConvertSpec.v
Conversions.v
ConvertTable.v
PyConverters.v
PyRows.v
ChunkIterator.v
TableRows.v
FlatBuffers.v
Message.v
IpcSchema.v
IpcSchemaSpec.v
IpcShared.v
IpcDecoder.v
IpcFields.v
IpcBody.v
IpcSwap.v
IpcBatch.v
IpcSession.v
IpcStream.v
IpcReader.v
Loader.v
Iterators.v
Device.v
Unique.v
ErrorText.v
SchemaString.v
