(* ===== verification/Prelude.v ===== *)
(** * Verification of the Arrow core of the Snowflake Python connector

    ** The program

    The connector receives query results in chunks, which are Arrow IPC streams.
    Its C and C++ core, under
    [src/src/snowflake/connector/nanoarrow_cpp/ArrowIterator/], decodes them and
    hands them to Python as rows or as a table:

    - [nanoarrow.h] and [nanoarrow.c] hold the Arrow data structures: growable
      buffers, bitmaps, key-value metadata, schemas and their format strings,
      array views with their validation, the array builder, array streams and
      decimals;
    - [flatcc.c] and the generated first part of [nanoarrow_ipc.c] read and
      verify FlatBuffers messages;
    - the last part of [nanoarrow_ipc.c] is the IPC decoder: it frames and
      verifies a message, decodes a schema message into an [ArrowSchema], and a
      record batch message with its body into an [ArrowArray]; the array stream
      reader runs it over an input stream;
    - [CArrowIterator.cpp] reads a chunk with the stream reader into arrays and
      views; [CArrowTableIterator.cpp] converts the columns of the Snowflake types
      that Arrow does not have in place; [CArrowChunkIterator.cpp] and the
      [...Converter.cpp] files make Python objects of the rows.

    A stream flows through the parts in this order: the reader
    ([ArrowIpcArrayStreamReaderGetNext]) takes bytes from an input stream into an
    [ArrowBuffer]; [ArrowIpcDecoderVerifyHeader] calls the FlatBuffers verifier;
    [ArrowIpcDecoderDecodeSchema] reads the message with the generated accessors
    and writes a schema with the [ArrowSchemaSet...] functions;
    [ArrowIpcDecoderSetSchema] parses that schema with [ArrowSchemaViewInit] and
    lays out an array and an array view; [ArrowIpcDecoderDecodeArray...] walks the
    view, cuts the body into buffers, which are copied or shared, and validates
    the result with [ArrowArrayViewValidate].  The constructor of [CArrowIterator]
    keeps the schema, all the arrays and a view of each; [CArrowTableIterator::next]
    replaces the columns of every batch, whose types it finds in the metadata of the
    schema, by columns it builds with the array builder;
    [CArrowChunkIterator::next] makes one converter for each column at the start of
    a batch and then one tuple or dictionary for each row.

    ** How it is modelled

    A C function on a structure [S] is a function [S → outcome S A] ([M S A],
    below): [Ok] with a result and the new structure, [Err] with the [errno] value
    and the structure as the error path leaves it, [UB] when the execution is not
    defined by the C standard: an access outside an object, a NULL dereference, a
    second free.  That a function is safe is that its outcome is not [UB].
    Integers are [Z] with the wrap-around of their width written out ([i8], [i32],
    [i64], [u32], ... of [CInt]).  Memory is a list of bytes, a pointer into it a
    position, NULL is [None].  Structures are records, trees of structures are
    inductive types.  A part of a function that is a definition of its own is
    named after what it does, the others keep the names of the source.

    Code outside of the sources is a parameter.  The allocator is a class:
    [Libc] of [Buffer] gives [malloc] and [realloc] with their contents, and
    [Malloc] of [Schema] tells whether the next call succeeds; both are
    quantified in the theorems, so that every allocation may fail, and the
    witnesses instantiate them ([libc_limited], [malloc_budget]).
    A [FILE] is the data left to read and the outcomes of its next calls.  The
    targets are little endian.

    A C++ function is [CM S A] of [Cpp]: besides a result it can return early with
    the Python error set ([Return]), throw ([Throw]) or be undefined.  The
    operations on columns run on the pair of the schema and the array that the
    pointers of the source refer to, which the view, a third tree, is read beside.
    Python is the class of [PyConverters]: the call of an object with arguments,
    the check of UTF-8 and the insertion into a dictionary; the objects that the
    code builds itself are data.  Doubles are their 64 bits, with
    correctly rounded division and parsing in [Double].  Logging and reference
    counts are left out.

    ** The files

    - [Prelude]: errors, outcomes, the state-error monad, tactics, lemmas on lists;
      [CInt]: machine integers and their bytes; [CString]: [strtol], ["%d"],
      [strcmp]; [Float]: floating-point conversions on their representations.
    - [Buffer], [Bits], [Bitmap] ([nanoarrow.h]): buffers, packed bits, bitmaps.
    - [Types] ([nanoarrow.h], [ArrowLayoutInit]): enumerations and layouts.
    - [Metadata], [Schema], [SchemaView] ([nanoarrow.c]): the key-value encoding,
      the construction of schemas, the parser of format strings.
    - [ArrayView], [ArrayViewSafety]: views of arrays, validation, accessors; the
      safety of validation and of what was validated.
    - [Array], [ArrayBuild]: the array builder; its refinement of a list.
    - [Stream], [Decimal]: [ArrowBasicArrayStream]; [ArrowDecimal].
    - [ErrorText], [SchemaString] ([nanoarrow.c]): [ArrowErrorSet] and the messages of
      the schema parser; [ArrowSchemaToString].
    - [Device] ([nanoarrow_device.c]): device arrays and their streams;
      [Unique] ([nanoarrow.hpp]): owners of C structures, streams as C++ classes.
    - [Cpp] ([SnowflakeType], [Util/time]): outcomes of C++ functions, the logical
      types, times; [Double]: [convertScaledFixedNumberToDouble].
    - [Convert] ([CArrowTableIterator.cpp]): the conversions of columns and the
      iterator over a table; [ConvertSpec], [Conversions]: what a conversion makes
      of the rows of a column; [ConvertTable]: which conversion is chosen, and the
      iterator.
    - [PyConverters], [PyRows] (the [...Converter.cpp] files and
      [getConverterFromSchema]): the converters of rows; the objects they make.
      [ChunkIterator] ([CArrowChunkIterator.cpp]): the iterator over rows.
      [TableRows] joins them: the rows Python gets of the cells that are stored.
    - [FlatBuffers] ([flatcc.c], the macros of [nanoarrow_ipc.c]): accessors and
      verifier on the bytes of a message; [Message]: the generated accessors and
      verifiers of the Arrow tables.
    - [IpcSchema], [IpcSchemaSpec]: decoding of schema messages; the schema a
      message describes, and that it is the one decoded.
    - [IpcShared]: reference-counted buffers and the threads that use them.
    - [IpcDecoder], [IpcFields]: [ArrowIpcDecoder] and its private data, headers,
      [ArrowIpcDecoderSetSchema]; the agreement of the count of the fields with
      the walk that fills them.
    - [IpcBody], [IpcSwap], [IpcBatch]: record batches: the definitions; the bytes
      of a buffer and the byte order; the columns a message describes, and that
      they are the ones decoded.  [IpcSession] joins the parts of the decoder: an
      invariant that setting a schema establishes and that later calls keep.
    - [IpcStream], [IpcReader]: input streams and the array stream reader; what a
      call consumes, and when a stream ends.
    - [Loader] ([CArrowIterator.cpp]), [Iterators]: the constructor that reads a
      chunk, and the constructors of the iterators, with runs from the bytes of a
      chunk to its rows and its table.

    ** What the theorems show

    - Buffers and bits (C1, C2, C4 to C6): a buffer refines a list of bytes under
      any sequence of operations; setting, counting and unpacking of bits agree
      with the bit by bit definitions; bitmaps append what they are given.
    - Metadata and schemas (C9, C10, C12, C13): the builder refines a list of pairs,
      read back by lookup; a deep copy equals its source; what the type setters
      write, the parser reads.
    - Arrays (C15, C17, C18, C21, C22, C40): on sane nodes validation never reads outside
      of a buffer and what it accepts can be read; the builder refines a list of elements,
      read back through a view; streams give each array once; decimals; the copy of an
      array between devices has its bytes, its children and its dictionaries.
    - Owners (C16): a program of C++ owners loses no resource and releases none twice,
      whichever of the six structures they own; the theorem is proved against an
      interface ([Managed], [Holds]) that the structures implement.
    - Printing (C26): a schema printed piece by piece is its text cut at the end of the
      memory.
    - Messages (C24, C25, C29): the verifier is safe on every input and what it
      accepts the accessors can read; a decoded schema is the one the message
      describes.
    - Shared buffers (C27, C28): under every interleaving the counts are right,
      nothing is used after it was freed, and release ends and leaves nothing.
    - The decoder and the reader (C31, C33, C34, C36, C38, C39): the fields of a
      schema are counted and filled in the same order; in every state of a decoder
      after its schema was set, a record batch decodes to the columns it
      describes; a call of the reader consumes one message once the schema was read, and
      streams without negative body lengths end.
    - Tables (C3, C11, C14, C19, C20, C35): the conversion of a column is that of
      its logical type; times, numbers and timestamps keep their values in the
      new unit, with the nulls, the name and the nullability, and an error leaves
      the column as it was; the first call converts every column of every batch, once.
    - Rows (C7, C8, C23, C30, C32): the rows of all batches come in order and once, a
      row that raises as its exception; a table whose columns have no columns inside
      comes out as the schema and the stored cells say, from the metadata to the
      tuples or dictionaries; lists, times and timestamps become the objects they
      stand for.
    - Chunks (C37): the constructor that reads a chunk returns.

    Beside them are theorems on the inputs where the code does something
    else than it means to ([bits_set_to_empty_range], [bitmap_append_int8_overread],
    [union_type_ids_overflow], [append_bits_overrun], [verify_header_overrun],
    [set_schema_double_free], [make_buffer_overflow], [no_memory_is_end],
    [last_second_overflows], [zoned_milliseconds_wrong], [forced_microseconds_wrong],
    [nanoseconds_dropped], [interval_of_int64_is_zero], [no_type_undefined],
    [next_hides_errors], [scaled_double_rounds_twice], [empty_batch_read],
    [next_after_error], [last_row_takes_the_rest], [reader_error_undefined],
    [validate_overflow], [validate_short_offsets], [union_index_wraps],
    [decode_verified_absent], [stream_never_ends], [moved_not_supported]), which the
    hypotheses of the others exclude or their conclusions allow for.

    ** Bounds and fuel

    Loops are recursion on the list or the tree they run over where there is one.
    The loops over key-value metadata have the announced number of pairs as fuel,
    the parser of union type ids the length of its string, their comparison with the
    indices 130 (the index is an [int8_t], which wraps to -128 after 128 turns, where
    nothing can be read), the printer of integers the number of digits an [int64_t]
    can have.  The verifier counts down from the
    limit of a hundred levels that flatcc has, so its fuel is the limit itself and
    running out is the error the source returns.  The decoder of schemas has no limit; its fuel
    [decode_fuel] is a hundred plus the length of the message, and the
    theorems on verified messages (C24, C25, C29) show that a hundred levels are
    enough: running out of fuel is [UB], which they exclude.  The loop that reads a
    chunk has fuel too; C37 shows that one turn for every 8 bytes is enough.  Sizes of
    messages are bounded by [INT32_MAX], sizes of bodies in C33 and C36 by 2^60,
    below which no sum of the code overflows; the other bounds are stated as
    hypotheses where the code does not check them, beside the theorem that shows
    what happens without.

    ** Not modelled

    - Texts of error messages other than those of the schema parser: nothing reads
      them.  [snprintf] is given the text that its format and arguments make.
    - The builder, the emitter and the JSON parts of flatcc, and the generated
      builder functions: the connector only reads messages.
    - [ArrowDeviceCheckRuntime], which compares version strings.
    - Reference counts, the interpreter lock, logging, and the Python side: the
      objects called, the connector with its network and database protocol.

    ** Further work

    The release of schemas and arrays with an account of every block; the copy of
    a decoded view into the array of the caller ([ArrowIpcDecoderDecodeArray]) as a
    call of [IpcSession], which joins the theorems on the decoder with those on
    the reader from its initialisation on; batches decoded out of a shared body;
    columns of structured types in
    [TableRows], and the cells that the views of decoded batches show, which would
    give the rows of a chunk in terms of its bytes. *)

From stdpp Require Import base numbers list option strings.
From stdpp Require Export tactics.

(** ** Error codes

    The [errno] values the C sources return; [NANOARROW_OK] is not among them,
    success is the constructor [Ok] of [outcome]. *)
Inductive errno : Set :=
  | EINVAL | ENOMEM | EEXIST | ERANGE | EOVERFLOW | ENOTSUP | ESPIPE | ENODATA | EIO.

#[global] Instance errno_eq_dec : EqDecision errno.
Proof. solve_decision. Defined.

(** ** Outcomes and the state-error monad

    A C function that works on a structure [S] through a pointer and returns
    either a value or an error code is a function [S → outcome S A].  The state
    is also part of an error outcome, because the C functions leave the
    structure modified on some error paths.  [UB] is an execution the C
    standard does not define: an access outside an object, a NULL
    dereference. *)
Inductive outcome (S A : Type) : Type :=
  | Ok (a : A) (s : S)
  | Err (e : errno) (s : S)
  | UB.
Arguments Ok {S A} a s.
Arguments Err {S A} e s.
Arguments UB {S A}.

Definition M (S A : Type) : Type := S → outcome S A.

Definition mret_ {S A} (a : A) : M S A := λ s, Ok a s.
Definition mbind_ {S A B} (m : M S A) (k : A → M S B) : M S B := λ s,
  match m s with
  | Ok a s' => k a s'
  | Err e s' => Err e s'
  | UB => UB
  end.
Definition mfail {S A} (e : errno) : M S A := λ s, Err e s.
Definition mundef {S A} : M S A := λ _, UB.
Definition mget {S A} (f : S → A) : M S A := λ s, Ok (f s) s.
Definition mmod {S} (f : S → S) : M S unit := λ s, Ok tt (f s).

(** [deref p]: use a pointer (or the result of an access); [None] is UB. *)
Definition deref {S A} (o : option A) : M S A :=
  match o with Some a => mret_ a | None => mundef end.

(** [check b e]: [if (!b) return e;] *)
Definition check {S} (b : bool) (e : errno) : M S unit :=
  if b then mret_ tt else mfail e.

(** [on_error m f]: [int result = m; if (result != NANOARROW_OK) { f; return result; }] *)
Definition on_error {S A} (m : M S A) (f : S → S) : M S A := λ s,
  match m s with
  | Ok a s' => Ok a s'
  | Err e s' => Err e (f s')
  | UB => UB
  end.

(** [zoom get set m]: run [m] on a member of the structure. *)
Definition zoom {S T A} (get : S → T) (set : T → S → S) (m : M T A) : M S A := λ s,
  match m (get s) with
  | Ok a t => Ok a (set t s)
  | Err e t => Err e (set t s)
  | UB => UB
  end.

(** [mfor l body]: a counted loop, [body] run on the indices of [l] in order. *)
Fixpoint mfor {S I} (l : list I) (body : I → M S unit) : M S unit :=
  match l with
  | [] => mret_ tt
  | i :: l' => mbind_ (body i) (λ _, mfor l' body)
  end.

Declare Scope c_scope.
Delimit Scope c_scope with c.
Notation "'let*' x ':=' m 'in' k" := (mbind_ m (λ x, k))
  (at level 10, x name, m at level 100, k at level 200) : c_scope.
Notation "m ';;;' k" := (mbind_ m (λ _, k))
  (at level 100, k at level 200, right associativity) : c_scope.

(** ** Weakest preconditions

    [wp m s Q E]: from [s], [m] does not reach undefined behaviour, [Q] holds
    of its value and final state when it succeeds and [E] of its code and final
    state when it fails. *)
Definition wp {S A} (m : M S A) (s : S) (Q : A → S → Prop) (E : errno → S → Prop) : Prop :=
  match m s with
  | Ok a s' => Q a s'
  | Err e s' => E e s'
  | UB => False
  end.

Section wp_rules.
Context {S : Type}.
Implicit Types (s : S).

Lemma wp_ret {A} (a : A) s Q E : Q a s → wp (mret_ a) s Q E.
Proof. done. Qed.
Lemma wp_fail {A} e s (Q : A → S → Prop) E : E e s → wp (mfail e) s Q E.
Proof. done. Qed.
Lemma wp_get {A} (f : S → A) s Q E : Q (f s) s → wp (mget f) s Q E.
Proof. done. Qed.
Lemma wp_mod f s (Q : unit → S → Prop) E : Q tt (f s) → wp (mmod f) s Q E.
Proof. done. Qed.
Lemma wp_bind {A B} (m : M S A) (k : A → M S B) s Q E :
  wp m s (λ a s', wp (k a) s' Q E) E → wp (mbind_ m k) s Q E.
Proof. unfold wp, mbind_. by destruct (m s). Qed.
Lemma wp_bind_inv {A B} (m : M S A) (k : A → M S B) s Q E :
  wp (mbind_ m k) s Q E → wp m s (λ a s', wp (k a) s' Q E) E.
Proof. unfold wp, mbind_. by destruct (m s). Qed.
Lemma wp_assoc {A B C} (m : M S A) (k : A → M S B) (k' : B → M S C) s Q E :
  wp (mbind_ (mbind_ m k) k') s Q E → wp (mbind_ m (λ x, mbind_ (k x) k')) s Q E.
Proof. unfold wp, mbind_. by destruct (m s). Qed.
Lemma wp_mono {A} (m : M S A) s (Q Q' : A → S → Prop) (E E' : errno → S → Prop) :
  wp m s Q E → (∀ a s', Q a s' → Q' a s') → (∀ e s', E e s' → E' e s') →
  wp m s Q' E'.
Proof. unfold wp. destruct (m s); auto. Qed.
Lemma wp_deref {A} (o : option A) s Q E :
  (∃ a, o = Some a ∧ Q a s) → wp (deref o) s Q E.
Proof. by intros (a & -> & ?). Qed.
Lemma wp_check (b : bool) e s (Q : unit → S → Prop) E :
  (b = true → Q tt s) → (b = false → E e s) → wp (check b e) s Q E.
Proof. destruct b; cbn; auto. Qed.
Lemma wp_if {A} (b : bool) (m1 m2 : M S A) s Q E :
  (b = true → wp m1 s Q E) → (b = false → wp m2 s Q E) →
  wp (if b then m1 else m2) s Q E.
Proof. destruct b; auto. Qed.
Lemma wp_zoom {T A} (g : S → T) (p : T → S → S) (m : M T A) s Q E :
  wp m (g s) (λ a t, Q a (p t s)) (λ e t, E e (p t s)) → wp (zoom g p m) s Q E.
Proof. unfold wp, zoom. by destruct (m (g s)). Qed.
Lemma wp_on_error {A} (m : M S A) f s Q E :
  wp m s Q (λ e s', E e (f s')) → wp (on_error m f) s Q E.
Proof. unfold wp, on_error. by destruct (m s). Qed.
(** The loop rule: [P done s] relates the indices already run to the state. *)
Lemma wp_for {I} (P : list I → S → Prop) (l : list I) body s E :
  P [] s →
  (∀ pre i post s', l = pre ++ i :: post → P pre s' →
    wp (body i) s' (λ _ s'', P (pre ++ [i]) s'') E) →
  wp (mfor l body) s (λ _ s', P l s') E.
Proof.
  intros HP Hstep.
  enough (∀ post pre s', l = pre ++ post → P pre s' →
    wp (mfor post body) s' (λ _ s'', P l s'') E) as H by (by apply (H l [])).
  induction post as [|i post IH]; intros pre s' Hl HP'; simpl.
  { apply wp_ret. by rewrite Hl, app_nil_r. }
  apply wp_bind. eapply wp_mono; [by eapply Hstep| |done].
  intros [] s'' HP''. apply (IH (pre ++ [i])); [by rewrite <-app_assoc|done].
Qed.
End wp_rules.

(** What a successful or failing run says once [wp] is known. *)
Lemma wp_Ok {S A} (m : M S A) s Q E a s' : wp m s Q E → m s = Ok a s' → Q a s'.
Proof. unfold wp. intros H Heq. by rewrite Heq in H. Qed.
Lemma wp_Err {S A} (m : M S A) s Q E e s' : wp m s Q E → m s = Err e s' → E e s'.
Proof. unfold wp. intros H Heq. by rewrite Heq in H. Qed.
Lemma wp_not_UB {S A} (m : M S A) s Q E : wp m s Q E → m s ≠ UB.
Proof. unfold wp. intros H Heq. by rewrite Heq in H. Qed.

Lemma wp_run {S A} (m : M S A) s Q E :
  wp m s Q E → match m s with Ok _ _ => true | _ => false end = true → ∃ a s', m s = Ok a s' ∧ Q a s'.
Proof. unfold wp. destruct (m s); eauto; done. Qed.

(** ** Executions that return

    What holds when a function succeeds, whether or not it can also be undefined;
    used where the absence of undefined behaviour needs more than the claim. *)
Definition returns {S A} (m : M S A) (s : S) (Q : A → S → Prop) : Prop := ∀ x s', m s = Ok x s' → Q x s'.
Lemma returns_bind {S A B} (m : M S A) (k : A → M S B) s Q :
  returns m s (λ x s', returns (k x) s' Q) → returns (mbind_ m k) s Q.
Proof. unfold returns, mbind_. intros Hm x s'. destruct (m s) as [y t|e t|]; [|done|done]. by apply Hm. Qed.
Lemma returns_mono {S A} (m : M S A) s (Q Q' : A → S → Prop) :
  returns m s Q → (∀ x s', Q x s' → Q' x s') → returns m s Q'.
Proof. unfold returns. eauto. Qed.
Lemma returns_ret {S A} (a : A) (s : S) (Q : A → S → Prop) : Q a s → returns (mret_ a) s Q.
Proof. by intros ? ?? [= <- <-]. Qed.
Lemma returns_on_error {S A} (m : M S A) f s Q : returns m s Q → returns (on_error m f) s Q.
Proof. unfold returns, on_error. intros Hm x s'. destruct (m s); [|done..]. apply Hm. Qed.
Lemma returns_deref {S A} (o : option A) (s : S) Q : (∀ a, o = Some a → Q a s) → returns (deref o) s Q.
Proof. intros Ho x s'. destruct o; [|done]. intros [= <- <-]. by apply Ho. Qed.
Lemma wp_returns {S A} (m : M S A) s Q E : wp m s Q E → returns m s Q.
Proof. unfold wp. intros Hw x s' Heq. by rewrite Heq in Hw. Qed.
Lemma returns_wp {S A} (m : M S A) s Q : returns m s Q → m s ≠ UB → wp m s Q (λ _ _, True).
Proof. unfold returns, wp. intros Hr Hub. destruct (m s); [by apply Hr|done|done]. Qed.
Lemma returns_assoc {S A B C} (m : M S A) (k : A → M S B) (k' : B → M S C) s Q :
  returns (mbind_ (mbind_ m k) k') s Q → returns (mbind_ m (λ a, mbind_ (k a) k')) s Q.
Proof. unfold returns, mbind_. by destruct (m s). Qed.
Lemma returns_zoom {S T A} (g : S → T) (p : T → S → S) (m : M T A) s Q :
  returns m (g s) (λ a t, Q a (p t s)) → returns (zoom g p m) s Q.
Proof. unfold returns, zoom. intros Hm x s'. destruct (m (g s)); [|done..]. intros [= <- <-]. by apply Hm. Qed.
Lemma returns_get {S A} (f : S → A) s Q : Q (f s) s → returns (mget f) s Q.
Proof. by intros ? ?? [= <- <-]. Qed.
Lemma returns_mod {S} (f : S → S) s (Q : unit → S → Prop) : Q tt (f s) → returns (mmod f) s Q.
Proof. by intros ? ?? [= <- <-]. Qed.
Lemma returns_check {S} b e (s : S) (Q : unit → S → Prop) : (b = true → Q tt s) → returns (check b e) s Q.
Proof. destruct b; [intros HQ|by intros _ ? ?]. intros ? ? [= <- <-]. by apply HQ. Qed.
Lemma returns_fail {S A} e (s : S) (Q : A → S → Prop) : returns (mfail e) s Q.
Proof. by intros ? ?. Qed.
Lemma returns_if {S A} (b : bool) (m1 m2 : M S A) s Q :
  (b = true → returns m1 s Q) → (b = false → returns m2 s Q) → returns (if b then m1 else m2) s Q.
Proof. destruct b; auto. Qed.
Lemma returns_for {S I} (P : list I → S → Prop) (l : list I) body s :
  P [] s →
  (∀ pre i post s', l = pre ++ i :: post → P pre s' → returns (body i) s' (λ _ s'', P (pre ++ [i]) s'')) →
  returns (mfor l body) s (λ _ s', P l s').
Proof.
  intros HP Hstep. enough (∀ post pre s', l = pre ++ post → P pre s' →
    returns (mfor post body) s' (λ _ s'', P l s'')) as Hgo by (by apply (Hgo l [])).
  induction post as [|i post IH]; intros pre s' Hl HP'; simpl.
  { apply returns_ret. by rewrite Hl, app_nil_r. }
  apply returns_bind. eapply returns_mono; [by eapply Hstep|].
  intros [] s'' HP''. apply (IH (pre ++ [i])); [by rewrite <-app_assoc|done].
Qed.

#[global] Instance wp_proper {S A} (m : M S A) (s : S) :
  Proper (pointwise_relation A (pointwise_relation S impl) ==>
          pointwise_relation errno (pointwise_relation S impl) ==> impl) (wp m s).
Proof. intros Q Q' HQ E E' HE H. eapply wp_mono; [done|apply HQ|apply HE]. Qed.

(** ** Booleans of integer comparisons as propositions *)
Ltac zbool :=
  repeat match goal with
  | H : Z.leb _ _ = true |- _ => apply Z.leb_le in H
  | H : Z.leb _ _ = false |- _ => apply Z.leb_gt in H
  | H : Z.ltb _ _ = true |- _ => apply Z.ltb_lt in H
  | H : Z.ltb _ _ = false |- _ => apply Z.ltb_ge in H
  | H : Z.eqb _ _ = true |- _ => apply Z.eqb_eq in H
  | H : Z.eqb _ _ = false |- _ => apply Z.eqb_neq in H
  | H : andb _ _ = true |- _ => apply andb_true_iff in H as [? ?]
  | H : orb _ _ = false |- _ => apply orb_false_iff in H as [? ?]
  | H : negb _ = true |- _ => apply negb_true_iff in H
  | H : negb _ = false |- _ => apply negb_false_iff in H
  end.

#[local] Open Scope Z_scope.

(** ** Lists indexed by C integers *)
Section zlist.
Context {A : Type}.
Implicit Types (l : list A) (i n : Z).

Definition zlen l : Z := Z.of_nat (length l).
(** [l[i]]: no value when [i] is outside the object. *)
Definition znth l i : option A := if i <? 0 then None else l !! Z.to_nat i.
(** [l[i] = x]: no result when [i] is outside the object. *)
Definition zset l i (x : A) : option (list A) :=
  if (0 <=? i) && (i <? zlen l) then Some (<[Z.to_nat i := x]> l) else None.
(** [memcpy (l + i, d, size of d)] *)
Definition zwrite l i (d : list A) : option (list A) :=
  if (0 <=? i) && (i + zlen d <=? zlen l)
  then Some (take (Z.to_nat i) l ++ d ++ drop (Z.to_nat i + length d) l) else None.
(** the [n] elements starting at [l + i] *)
Definition zslice l i n : option (list A) :=
  if (0 <=? i) && (0 <=? n) && (i + n <=? zlen l)
  then Some (take (Z.to_nat n) (drop (Z.to_nat i) l)) else None.

Lemma zlen_nonneg l : 0 <= zlen l.
Proof. unfold zlen. lia. Qed.
Lemma zlen_nil : zlen (@nil A) = 0.
Proof. done. Qed.
Lemma zlen_cons x l : zlen (x :: l) = 1 + zlen l.
Proof. unfold zlen. simpl. lia. Qed.
Lemma zlen_app l1 l2 : zlen (l1 ++ l2) = zlen l1 + zlen l2.
Proof. unfold zlen. rewrite length_app. lia. Qed.
Lemma zlen_replicate n (x : A) : 0 <= n → zlen (replicate (Z.to_nat n) x) = n.
Proof. intros. unfold zlen. rewrite length_replicate. lia. Qed.
Lemma zlen_take n l : 0 <= n <= zlen l → zlen (take (Z.to_nat n) l) = n.
Proof. unfold zlen. intros. rewrite length_take. lia. Qed.
Lemma zlen_drop n l : 0 <= n <= zlen l → zlen (drop (Z.to_nat n) l) = zlen l - n.
Proof. unfold zlen. intros. rewrite length_drop. lia. Qed.

Lemma znth_in l i : 0 <= i < zlen l → ∃ x, znth l i = Some x.
Proof.
  unfold zlen, znth. intros Hi. destruct (Z.ltb_spec i 0) as [|_]; [lia|].
  destruct (lookup_lt_is_Some_2 l (Z.to_nat i)) as [x ?]; [lia|]. by exists x.
Qed.
Lemma znth_Some l i x : znth l i = Some x → 0 <= i < zlen l.
Proof.
  unfold zlen, znth. destruct (Z.ltb_spec i 0) as [|Hi]; [done|].
  intros ?%lookup_lt_Some. lia.
Qed.
Lemma znth_None l i : ¬ (0 <= i < zlen l) → znth l i = None.
Proof.
  unfold zlen, znth. intros Hi. destruct (Z.ltb_spec i 0) as [|Hi0]; [done|].
  apply lookup_ge_None_2. lia.
Qed.
Lemma znth_lookup l i : 0 <= i → znth l i = l !! Z.to_nat i.
Proof. unfold znth. intros. destruct (Z.ltb_spec i 0); [lia|done]. Qed.
Lemma znth_of_nat l (n : nat) : znth l (Z.of_nat n) = l !! n.
Proof. by rewrite znth_lookup, Nat2Z.id by lia. Qed.
Lemma znth_app l1 l2 i :
  0 <= i → znth (l1 ++ l2) i = if i <? zlen l1 then znth l1 i else znth l2 (i - zlen l1).
Proof.
  intros Hi. unfold zlen. destruct (Z.ltb_spec i (Z.of_nat (length l1))).
  - rewrite !znth_lookup by lia. apply lookup_app_l. lia.
  - rewrite !znth_lookup by lia. rewrite lookup_app_r by lia. f_equal. lia.
Qed.
Lemma znth_replicate n (x : A) i : 0 <= i < n → znth (replicate (Z.to_nat n) x) i = Some x.
Proof.
  intros Hi. rewrite znth_lookup by lia. apply lookup_replicate_2. lia.
Qed.
Lemma znth_take l i n : 0 <= i < n → znth (take (Z.to_nat n) l) i = znth l i.
Proof.
  intros. rewrite !znth_lookup by lia. rewrite lookup_take. case_decide; [done|lia].
Qed.
Lemma znth_drop l i n : 0 <= i → 0 <= n → znth (drop (Z.to_nat n) l) i = znth l (n + i).
Proof.
  intros. rewrite !znth_lookup by lia. rewrite lookup_drop. f_equal. lia.
Qed.
Lemma znth_ext l1 l2 :
  zlen l1 = zlen l2 → (∀ i, 0 <= i < zlen l1 → znth l1 i = znth l2 i) → l1 = l2.
Proof.
  unfold zlen. intros Hlen H. apply list_eq_same_length with (length l1); [lia..|].
  intros i x y Hi Hx Hy. specialize (H (Z.of_nat i)).
  rewrite !znth_lookup, !Nat2Z.id in H by lia.
  rewrite Hx, Hy in H. enough (Some x = Some y) by congruence. apply H. lia.
Qed.

Lemma zset_in l i x : 0 <= i < zlen l → zset l i x = Some (<[Z.to_nat i := x]> l).
Proof.
  intros. unfold zset. destruct (Z.leb_spec 0 i), (Z.ltb_spec i (zlen l)); cbn; done || lia.
Qed.
Lemma zset_Some l i x l' :
  zset l i x = Some l' → 0 <= i < zlen l ∧ l' = <[Z.to_nat i := x]> l.
Proof.
  unfold zset. destruct (Z.leb_spec 0 i), (Z.ltb_spec i (zlen l)); naive_solver.
Qed.
Lemma znth_insert l i j x :
  0 <= i < zlen l → 0 <= j →
  znth (<[Z.to_nat i := x]> l) j = if j =? i then Some x else znth l j.
Proof.
  unfold zlen. intros. rewrite !znth_lookup by lia. destruct (Z.eqb_spec j i) as [->|].
  - apply list_lookup_insert_eq. lia.
  - apply list_lookup_insert_ne. lia.
Qed.
Lemma zlen_insert l (i : nat) x : zlen (<[i := x]> l) = zlen l.
Proof. unfold zlen. by rewrite length_insert. Qed.

Lemma zwrite_in l i d :
  0 <= i → i + zlen d <= zlen l →
  zwrite l i d = Some (take (Z.to_nat i) l ++ d ++ drop (Z.to_nat i + length d) l).
Proof.
  intros. unfold zwrite. destruct (Z.leb_spec 0 i), (Z.leb_spec (i + zlen d) (zlen l));
    cbn; done || lia.
Qed.
Lemma zwrite_zlen l i d l' : zwrite l i d = Some l' → zlen l' = zlen l.
Proof.
  unfold zwrite. destruct (Z.leb_spec 0 i), (Z.leb_spec (i + zlen d) (zlen l));
    intros [= <-]. unfold zlen in *.
  rewrite !length_app, length_take, length_drop. lia.
Qed.
Lemma zslice_in l i n :
  0 <= i → 0 <= n → i + n <= zlen l → zslice l i n = Some (take (Z.to_nat n) (drop (Z.to_nat i) l)).
Proof.
  intros. unfold zslice. destruct (Z.leb_spec 0 i), (Z.leb_spec 0 n),
    (Z.leb_spec (i + n) (zlen l)); cbn; done || lia.
Qed.
Lemma zslice_Some l i n l' :
  zslice l i n = Some l' →
  0 <= i ∧ 0 <= n ∧ i + n <= zlen l ∧ l' = take (Z.to_nat n) (drop (Z.to_nat i) l).
Proof.
  unfold zslice. destruct (Z.leb_spec 0 i), (Z.leb_spec 0 n),
    (Z.leb_spec (i + n) (zlen l)); naive_solver.
Qed.
Lemma zslice_zlen l i n l' : zslice l i n = Some l' → zlen l' = n.
Proof.
  intros (? & ? & ? & ->)%zslice_Some. unfold zlen in *.
  rewrite length_take, length_drop. lia.
Qed.
End zlist.

(** [0, 1, ..., n-1], the indices of [for (int64_t i = 0; i < n; i++)] *)
Definition zseq (n : Z) : list Z := Z.of_nat <$> seq 0 (Z.to_nat n).

Lemma zlen_zseq n : 0 <= n → zlen (zseq n) = n.
Proof. intros. unfold zlen, zseq. rewrite length_fmap, length_seq. lia. Qed.
Lemma elem_of_zseq n i : i ∈ zseq n ↔ 0 <= i < n.
Proof.
  unfold zseq. rewrite list_elem_of_fmap. split.
  - intros (k & -> & Hk%elem_of_seq). lia.
  - intros Hi. exists (Z.to_nat i). rewrite elem_of_seq. lia.
Qed.
Lemma zseq_succ n : 0 <= n → zseq (n + 1) = zseq n ++ [n].
Proof.
  intros. unfold zseq. replace (Z.to_nat (n + 1)) with (Z.to_nat n + 1)%nat by lia.
  rewrite seq_app, fmap_app. simpl. by rewrite Z2Nat.id by lia.
Qed.
(** An index met by the loop is the number of indices before it. *)
Lemma zseq_split n pre i post :
  zseq n = pre ++ i :: post → i = zlen pre ∧ 0 <= i < n ∧ pre = zseq i.
Proof.
  intros H. unfold zseq in H. apply fmap_app_inv in H as (k1 & k2 & Hpre & Hpost & Hs).
  symmetry in Hpost. destruct k2 as [|j k2]; [done|]. simpl in Hpost. injection Hpost as Hi _.
  assert (j = length k1) as ->.
  { assert (seq 0 (Z.to_nat n) !! length k1 = Some j) as Hj
      by (rewrite Hs, lookup_app_r, Nat.sub_diag by lia; done).
    apply lookup_seq in Hj. lia. }
  assert (length k1 < Z.to_nat n)%nat as Hlt.
  { rewrite <-(length_seq (Z.to_nat n) 0), Hs, length_app. simpl. lia. }
  subst i pre. unfold zlen. rewrite length_fmap. split; [done|]. split; [lia|].
  unfold zseq. rewrite Nat2Z.id. f_equal.
  transitivity (take (length k1) (seq 0 (Z.to_nat n))).
  - by rewrite Hs, take_app_length.
  - rewrite take_seq. f_equal. lia.
Qed.

(** ** Lists of lists, lists of results *)
Lemma zslice_middle {A} (pre b post : list A) i : i = zlen pre → zslice (pre ++ b ++ post) i (zlen b) = Some b.
Proof.
  intros ->. pose proof (zlen_nonneg pre). pose proof (zlen_nonneg b). pose proof (zlen_nonneg post).
  rewrite zslice_in by (rewrite ?zlen_app; lia). unfold zlen. by rewrite !Nat2Z.id, drop_app_length, take_app_length.
Qed.
Lemma length_concat_ne {A} (ls : list (list A)) :
  Forall (λ l, l ≠ []) ls → (length ls <= length (concat ls))%nat.
Proof.
  induction 1 as [|l ls Hl _ IH]; [done|]. cbn [concat length]. rewrite length_app. destruct l; [done|]. simpl. lia.
Qed.
Lemma mapM_concat {A B} (f : A → option B) (ls : list (list A)) bs :
  mapM f (concat ls) = Some bs → ∃ bss, concat bss = bs ∧ Forall2 (λ l bs', mapM f l = Some bs') ls bss.
Proof.
  rewrite mapM_Some. revert bs. induction ls as [|l ls IH]; intros bs Hall.
  { apply Forall2_nil_inv_l in Hall as ->. exists []. by split. }
  apply Forall2_app_inv_l in Hall as (bs1 & bs2 & H1 & H2 & ->). destruct (IH _ H2) as (bss & <- & Hbss).
  exists (bs1 :: bss). split; [done|]. constructor; [by apply mapM_Some|done].
Qed.
(** Every position has a value with the property: a list of them. *)
Lemma choose_list {A B} (P : nat → A → B → Prop) (l : list A) :
  (∀ j a, l !! j = Some a → ∃ b, P j a b) →
  ∃ bs, length bs = length l ∧ ∀ j a, l !! j = Some a → ∃ b, bs !! j = Some b ∧ P j a b.
Proof.
  revert P. induction l as [|a l IH]; intros P Hall; [by exists []|].
  destruct (Hall 0%nat a eq_refl) as [b Hb].
  destruct (IH (λ j, P (S j)) (λ j, Hall (S j))) as (bs & Hlen & Hbs).
  exists (b :: bs). split; [by simpl; f_equal|]. intros [|j] a' Ha'; [|by apply Hbs]. injection Ha' as <-. by exists b.
Qed.

Create HintDb arrow discriminated.
