(* ===== verification/CInt.v ===== *)
(** * Machine integers and their representation in memory

    Integers of a fixed width are [Z] values with the wrap-around written out,
    bytes are [Z] values between 0 and 255, and memory is little endian: the
    sources are compiled for little-endian targets, where
    [_ArrowIsLittleEndian] returns 1.  The file holds the width conversions, the
    little-endian encoding used for every [memcpy] of an integer, and the
    lemmas on bits of a byte the bitmap component needs. *)

From stdpp Require Import base numbers list option.
From S2P Require Import Prelude.
#[local] Open Scope Z_scope.

(** ** Widths *)
Definition uwrap (w z : Z) : Z := z mod 2 ^ w.
Definition swrap (w z : Z) : Z := (z + 2 ^ (w - 1)) mod 2 ^ w - 2 ^ (w - 1).

Definition u8 : Z → Z := uwrap 8.
Definition u16 : Z → Z := uwrap 16.
Definition u32 : Z → Z := uwrap 32.
Definition u64 : Z → Z := uwrap 64.
Definition i8 : Z → Z := swrap 8.
Definition i16 : Z → Z := swrap 16.
Definition i32 : Z → Z := swrap 32.
Definition i64 : Z → Z := swrap 64.

Definition INT8_MIN : Z := -128.
Definition INT8_MAX : Z := 127.
Definition UINT8_MAX : Z := 255.
Definition INT16_MIN : Z := -32768.
Definition INT16_MAX : Z := 32767.
Definition UINT16_MAX : Z := 65535.
Definition INT32_MIN : Z := -2147483648.
Definition INT32_MAX : Z := 2147483647.
Definition UINT32_MAX : Z := 4294967295.
Definition INT64_MIN : Z := -9223372036854775808.
Definition INT64_MAX : Z := 9223372036854775807.
Definition UINT64_MAX : Z := 18446744073709551615.

Lemma swrap_small w z : 0 < w → - 2 ^ (w - 1) <= z < 2 ^ (w - 1) → swrap w z = z.
Proof.
  intros Hw Hz. unfold swrap.
  assert (2 ^ w = 2 * 2 ^ (w - 1)) by (rewrite <-Z.pow_succ_r by lia; f_equal; lia).
  rewrite Z.mod_small by lia. lia.
Qed.
Lemma swrap_range w z : 0 < w → - 2 ^ (w - 1) <= swrap w z < 2 ^ (w - 1).
Proof.
  intros Hw. unfold swrap.
  assert (2 ^ w = 2 * 2 ^ (w - 1)) by (rewrite <-Z.pow_succ_r by lia; f_equal; lia).
  pose proof (Z.mod_pos_bound (z + 2 ^ (w - 1)) (2 ^ w)). lia.
Qed.
Lemma swrap_mod w z : 0 < w → swrap w (z mod 2 ^ w) = swrap w z.
Proof.
  intros Hw. unfold swrap. f_equal. by rewrite Zplus_mod_idemp_l.
Qed.
Lemma uwrap_small w z : 0 <= z < 2 ^ w → uwrap w z = z.
Proof. apply Z.mod_small. Qed.

Lemma i64_small z : INT64_MIN <= z <= INT64_MAX → i64 z = z.
Proof. intros. apply swrap_small; [lia|]. unfold INT64_MIN, INT64_MAX in *. lia. Qed.
Lemma i32_small z : INT32_MIN <= z <= INT32_MAX → i32 z = z.
Proof. intros. apply swrap_small; [lia|]. unfold INT32_MIN, INT32_MAX in *. lia. Qed.
Lemma i8_small z : INT8_MIN <= z <= INT8_MAX → i8 z = z.
Proof. intros. apply swrap_small; [lia|]. unfold INT8_MIN, INT8_MAX in *. lia. Qed.

(** Solves the range side conditions of the lemmas above. *)
Ltac width :=
  unfold INT8_MIN, INT8_MAX, UINT8_MAX, INT16_MIN, INT16_MAX, UINT16_MAX, INT32_MIN,
    INT32_MAX, UINT32_MAX, INT64_MIN, INT64_MAX, UINT64_MAX in *; lia.

(** ** Bytes and little-endian integers *)
Definition byte_ok (b : Z) : Prop := 0 <= b < 256.
Definition bytes_ok (l : list Z) : Prop := Forall byte_ok l.

#[global] Instance byte_ok_dec b : Decision (byte_ok b).
Proof. unfold byte_ok. apply _. Defined.
#[global] Instance bytes_ok_dec l : Decision (bytes_ok l).
Proof. unfold bytes_ok. apply _. Defined.

Fixpoint le_bytes (n : nat) (z : Z) : list Z :=
  match n with
  | O => []
  | S n' => z mod 256 :: le_bytes n' (z / 256)
  end.
Fixpoint le_val (l : list Z) : Z :=
  match l with
  | [] => 0
  | b :: l' => b + 256 * le_val l'
  end.

Lemma length_le_bytes n z : length (le_bytes n z) = n.
Proof. revert z. induction n; simpl; auto. Qed.
Lemma zlen_le_bytes n z : zlen (le_bytes n z) = Z.of_nat n.
Proof. unfold zlen. by rewrite length_le_bytes. Qed.
Lemma le_bytes_ok n z : bytes_ok (le_bytes n z).
Proof.
  revert z. induction n as [|n IH]; intros z; simpl; [by constructor|].
  constructor; [|apply IH].
  unfold byte_ok. pose proof (Z.mod_pos_bound z 256). lia.
Qed.
Lemma pow256_succ n : 256 ^ Z.of_nat (S n) = 256 * 256 ^ Z.of_nat n.
Proof. rewrite Nat2Z.inj_succ, Z.pow_succ_r; lia. Qed.
Lemma le_val_le_bytes n z : le_val (le_bytes n z) = z mod 256 ^ Z.of_nat n.
Proof.
  revert z. induction n as [|n IH]; intros z; simpl le_bytes; simpl le_val.
  { by rewrite Z.mod_1_r. }
  rewrite IH, pow256_succ. assert (0 < 256 ^ Z.of_nat n) by lia.
  by rewrite Z.rem_mul_r by lia.
Qed.
Lemma le_val_bound l : bytes_ok l → 0 <= le_val l < 256 ^ zlen l.
Proof.
  induction 1 as [|b l Hb _ IH]; simpl; [by vm_compute|].
  unfold zlen in *. simpl length. rewrite pow256_succ. unfold byte_ok in Hb. lia.
Qed.
Lemma le_bytes_le_val l : bytes_ok l → le_bytes (length l) (le_val l) = l.
Proof.
  induction 1 as [|b l Hb _ IH]; simpl; [done|]. unfold byte_ok in Hb.
  assert ((b + 256 * le_val l) mod 256 = b) as ->
    by (rewrite (Z.mul_comm 256), Z.mod_add by lia; apply Z.mod_small; lia).
  assert ((b + 256 * le_val l) / 256 = le_val l) as ->
    by (rewrite (Z.mul_comm 256), Z.div_add by lia; rewrite Z.div_small; lia).
  by rewrite IH.
Qed.

(** [load_u n l off], [load_i n l off]: [memcpy] of [n] bytes at [l + off] into an
    unsigned or signed integer of that size; no value outside the object. *)
Definition load_u (n : nat) (l : list Z) (off : Z) : option Z :=
  le_val <$> zslice l off (Z.of_nat n).
Definition load_i (n : nat) (l : list Z) (off : Z) : option Z :=
  swrap (8 * Z.of_nat n) <$> load_u n l off.

Lemma pow256_pow2 n : 256 ^ n = 2 ^ (8 * n).
Proof. change 256 with (2 ^ 8). destruct (Z.le_gt_cases 0 n).
  - by rewrite <-Z.pow_mul_r by lia.
  - rewrite !Z.pow_neg_r; lia.
Qed.
Lemma load_u_in n l off :
  0 <= off → off + Z.of_nat n <= zlen l → is_Some (load_u n l off).
Proof. intros. unfold load_u. rewrite zslice_in by lia. eauto. Qed.
Lemma load_u_Some n l off v :
  load_u n l off = Some v → 0 <= off ∧ off + Z.of_nat n <= zlen l.
Proof.
  unfold load_u. intros (d & (? & ? & ? & ?)%zslice_Some & ->)%fmap_Some. lia.
Qed.
Lemma load_i_Some n l off v :
  load_i n l off = Some v → 0 <= off ∧ off + Z.of_nat n <= zlen l.
Proof. unfold load_i. intros (d & Hd & _)%fmap_Some. by eapply load_u_Some. Qed.
Lemma load_i_in n l off :
  0 <= off → off + Z.of_nat n <= zlen l → is_Some (load_i n l off).
Proof.
  intros Ho Hn. unfold load_i. destruct (load_u_in n l off Ho Hn) as [v ->]. eauto.
Qed.
(** Reading back an integer that was stored between [pre] and [post]. *)
Lemma load_u_app n pre post z :
  load_u n (pre ++ le_bytes n z ++ post) (zlen pre) = Some (z mod 2 ^ (8 * Z.of_nat n)).
Proof.
  unfold load_u. rewrite zslice_in; [|apply zlen_nonneg|lia|].
  2:{ rewrite !zlen_app, zlen_le_bytes. pose proof (zlen_nonneg post). lia. }
  unfold zlen. rewrite !Nat2Z.id, drop_app_length. simpl.
  rewrite <-(length_le_bytes n z) at 1.
  rewrite take_app_length, le_val_le_bytes, pow256_pow2. done.
Qed.
Lemma load_i_app n pre post z :
  0 < Z.of_nat n →
  - 2 ^ (8 * Z.of_nat n - 1) <= z < 2 ^ (8 * Z.of_nat n - 1) →
  load_i n (pre ++ le_bytes n z ++ post) (zlen pre) = Some z.
Proof.
  intros Hn Hz. unfold load_i. rewrite load_u_app. simpl. f_equal.
  rewrite swrap_mod by lia. apply swrap_small; lia.
Qed.

(** ** Bits of a byte *)
Lemma byte_testbit_high b i : byte_ok b → 8 <= i → Z.testbit b i = false.
Proof.
  unfold byte_ok. intros Hb Hi. rewrite <-(Z.mod_small b (2 ^ 8)) by lia.
  apply Z.mod_pow2_bits_high. lia.
Qed.
Lemma byte_ext a b :
  byte_ok a → byte_ok b → (∀ i, 0 <= i < 8 → Z.testbit a i = Z.testbit b i) → a = b.
Proof.
  intros Ha Hb H. apply Z.bits_inj'. intros i Hi. destruct (Z.lt_ge_cases i 8).
  - by apply H.
  - by rewrite !byte_testbit_high.
Qed.
Lemma byte_ok_bits b : (∀ i, 8 <= i → Z.testbit b i = false) → 0 <= b → byte_ok b.
Proof.
  intros H Hb. unfold byte_ok. split; [done|].
  assert (b = b mod 2 ^ 8) as ->.
  { apply Z.bits_inj'. intros i Hi. destruct (Z.lt_ge_cases i 8).
    - by rewrite Z.mod_pow2_bits_low by lia.
    - rewrite Z.mod_pow2_bits_high by lia. by apply H. }
  pose proof (Z.mod_pos_bound b (2 ^ 8)). lia.
Qed.
Lemma byte_ok_land a b : byte_ok a → 0 <= b → byte_ok (Z.land a b).
Proof.
  intros Ha Hb. apply byte_ok_bits.
  - intros i Hi. by rewrite Z.land_spec, byte_testbit_high.
  - apply Z.land_nonneg. auto.
Qed.
Lemma byte_ok_lor a b : byte_ok a → byte_ok b → byte_ok (Z.lor a b).
Proof.
  intros Ha Hb. apply byte_ok_bits.
  - intros i Hi. by rewrite Z.lor_spec, !byte_testbit_high.
  - unfold byte_ok in *. apply Z.lor_nonneg. lia.
Qed.
Lemma byte_ok_lxor a b : byte_ok a → byte_ok b → byte_ok (Z.lxor a b).
Proof.
  intros Ha Hb. apply byte_ok_bits.
  - intros i Hi. by rewrite Z.lxor_spec, !byte_testbit_high.
  - unfold byte_ok in *. apply Z.lxor_nonneg. lia.
Qed.
Lemma byte_ok_u8 z : byte_ok (u8 z).
Proof. unfold byte_ok, u8, uwrap. pose proof (Z.mod_pos_bound z (2 ^ 8)). lia. Qed.
#[export] Hint Resolve byte_ok_land byte_ok_lor byte_ok_lxor byte_ok_u8 : arrow.

(** Eight cases for a bit position inside a byte. *)
Lemma bit_cases (P : Z → Prop) :
  P 0 → P 1 → P 2 → P 3 → P 4 → P 5 → P 6 → P 7 → ∀ i, 0 <= i < 8 → P i.
Proof.
  intros ???????? i Hi.
  assert (i = 0 ∨ i = 1 ∨ i = 2 ∨ i = 3 ∨ i = 4 ∨ i = 5 ∨ i = 6 ∨ i = 7) as Hcases by lia.
  repeat destruct Hcases as [->|Hcases]; by subst.
Qed.

#[global] Arguments le_bytes : simpl never.
