(* ===== verification/Buffer.v ===== *)
(** * Growable buffers (nanoarrow.h, "Owning, growable buffers")

    [ArrowBuffer] with its allocator, and every operation of buffer_inline.h.  A
    buffer's memory is [None] for a NULL pointer or the list of the bytes of the
    block it points to, so that the block's size and the members [size_bytes] and
    [capacity_bytes] are separate things, tied together by [buffer_wf].

    The C library's allocation functions are the class [Libc]: what the sources
    rely on is stated as its laws, and [libc_limited] is a concrete instance. *)

From stdpp Require Import base numbers list option.
From S2P Require Import Prelude CInt.
#[local] Open Scope Z_scope.
#[local] Open Scope c_scope.

(** ** The allocation functions of the C library

    [libc_malloc n] tells whether [malloc(n)] returns a block (the contents of a
    fresh block are never read before they are written).  [libc_realloc p n] is
    the block [realloc(p, n)] returns, if any: it has [n] bytes, and keeps the
    bytes of the old block up to the smaller of the two sizes. *)
Class Libc := {
  libc_malloc : Z → bool;
  libc_realloc : option (list Z) → Z → option (list Z);
  libc_realloc_zlen p n b : 0 <= n → libc_realloc p n = Some b → zlen b = n;
  libc_realloc_keep old n b :
    libc_realloc (Some old) n = Some b →
    take (Z.to_nat (n `min` zlen old)) b = take (Z.to_nat (n `min` zlen old)) old;
  libc_realloc_bytes p n b :
    (∀ old, p = Some old → bytes_ok old) → libc_realloc p n = Some b → bytes_ok b;
}.

(** A library whose allocations of at most [limit] bytes succeed, with fresh
    memory zeroed. *)
Definition limited_realloc (limit : Z) (p : option (list Z)) (n : Z) : option (list Z) :=
  if (0 <=? n) && (n <=? limit) then
    Some (resize (Z.to_nat n) 0 (default [] p))
  else None.

Program Definition libc_limited (limit : Z) : Libc := {|
  libc_malloc n := n <=? limit;
  libc_realloc := limited_realloc limit;
|}.
Next Obligation.
  unfold limited_realloc. intros limit p n b Hn. case_match; intros [= <-].
  unfold zlen. rewrite length_resize. lia.
Qed.
Next Obligation.
  unfold limited_realloc, zlen. intros limit old n b. case_match; intros [= <-]. zbool. simpl.
  destruct (Z.le_gt_cases n (Z.of_nat (length old))).
  - rewrite Z.min_l by lia. rewrite resize_le by lia. by rewrite take_take, Nat.min_id.
  - rewrite Z.min_r, Nat2Z.id by lia. rewrite resize_ge by lia. by rewrite take_app_length, firstn_all.
Qed.
Next Obligation.
  unfold limited_realloc. intros limit p n b Hp. case_match; intros [= <-].
  apply Forall_resize; [unfold byte_ok; lia|]. destruct p; simpl; [by apply Hp|constructor].
Qed.

(** ** Allocators and buffers *)
Inductive reallocate_fn : Set :=
  | ArrowBufferAllocatorMallocReallocate
  | ArrowBufferAllocatorNeverReallocate.
Inductive free_fn : Set :=
  | ArrowBufferAllocatorMallocFree
  | CustomFree (f : positive).

Record ArrowBufferAllocator : Set := {
  reallocate : reallocate_fn;
  free : free_fn;
  private_data : option positive;
}.

Definition ArrowBufferAllocatorDefault : ArrowBufferAllocator :=
  {| reallocate := ArrowBufferAllocatorMallocReallocate;
     free := ArrowBufferAllocatorMallocFree; private_data := None |}.

Definition ArrowBufferDeallocator (custom_free : positive) (private_data : option positive) :
    ArrowBufferAllocator :=
  {| reallocate := ArrowBufferAllocatorNeverReallocate;
     free := CustomFree custom_free; private_data := private_data |}.

Record ArrowBuffer : Set := MkBuffer {
  data : option (list Z);
  size_bytes : Z;
  capacity_bytes : Z;
  allocator : ArrowBufferAllocator;
}.

(** The bytes the buffer holds. *)
Definition contents (b : ArrowBuffer) : list Z :=
  take (Z.to_nat (size_bytes b)) (default [] (data b)).

(** What holds of a buffer this code allocates. *)
Record buffer_wf (b : ArrowBuffer) : Prop := {
  buffer_size : 0 <= size_bytes b <= capacity_bytes b;
  buffer_block : match data b with
                 | None => capacity_bytes b = 0
                 | Some d => zlen d = capacity_bytes b ∧ bytes_ok d
                 end;
}.

(** An update of the bytes [buffer->data] points to. *)
Definition upd_data (f : list Z → option (list Z)) : M ArrowBuffer unit := λ b,
  match data b with
  | None => UB
  | Some d => match f d with
              | None => UB
              | Some d' => Ok tt (MkBuffer (Some d') (size_bytes b) (capacity_bytes b) (allocator b))
              end
  end.
Definition set_size_bytes (n : Z) : M ArrowBuffer unit :=
  mmod (λ b, MkBuffer (data b) n (capacity_bytes b) (allocator b)).

Section buffer_ops.
Context `{!Libc}.

Definition call_reallocate (a : ArrowBufferAllocator) (ptr : option (list Z))
    (old_size new_size : Z) : option (list Z) :=
  match reallocate a with
  | ArrowBufferAllocatorMallocReallocate => libc_realloc ptr new_size
  | ArrowBufferAllocatorNeverReallocate => None
  end.

Definition _ArrowGrowByFactor (current_capacity new_capacity : Z) : Z :=
  let doubled_capacity := i64 (current_capacity * 2) in
  if new_capacity <? doubled_capacity then doubled_capacity else new_capacity.

Definition ArrowBufferInit : ArrowBuffer :=
  MkBuffer None 0 0 ArrowBufferAllocatorDefault.

Definition ArrowBufferSetAllocator (a : ArrowBufferAllocator) : M ArrowBuffer unit := λ b,
  match data b with
  | None => Ok tt (MkBuffer None (size_bytes b) (capacity_bytes b) a)
  | Some _ => Err EINVAL b
  end.

(** The call of [allocator.free] that [ArrowBufferReset] makes, if any. *)
Definition ArrowBufferReset_frees (b : ArrowBuffer) : option (free_fn * Z) :=
  match data b with
  | Some _ => Some (free (allocator b), capacity_bytes b)
  | None => None
  end.
Definition ArrowBufferReset (b : ArrowBuffer) : ArrowBuffer :=
  MkBuffer None 0 0 (allocator b).

(** [ArrowBufferMove(src, dst)]: (dst, src) afterwards. *)
Definition ArrowBufferMove (src : ArrowBuffer) : ArrowBuffer * ArrowBuffer :=
  (src, ArrowBufferReset (MkBuffer None (size_bytes src) (capacity_bytes src) (allocator src))).

Definition ArrowBufferResize (new_capacity_bytes : Z) (shrink_to_fit : bool) :
    M ArrowBuffer unit := λ b,
  if new_capacity_bytes <? 0 then Err EINVAL b
  else
    let clamp b := MkBuffer (data b)
      (if new_capacity_bytes <? size_bytes b then new_capacity_bytes else size_bytes b)
      (capacity_bytes b) (allocator b) in
    if (capacity_bytes b <? new_capacity_bytes) || shrink_to_fit then
      let p := call_reallocate (allocator b) (data b) (capacity_bytes b) new_capacity_bytes in
      match p, 0 <? new_capacity_bytes with
      | None, true => Err ENOMEM (MkBuffer None 0 0 (allocator b))
      | _, _ => Ok tt (clamp (MkBuffer p (size_bytes b) new_capacity_bytes (allocator b)))
      end
    else Ok tt (clamp b).

Definition ArrowBufferReserve (additional_size_bytes : Z) : M ArrowBuffer unit := λ b,
  let min_capacity_bytes := i64 (size_bytes b + additional_size_bytes) in
  if min_capacity_bytes <=? capacity_bytes b then Ok tt b
  else ArrowBufferResize (_ArrowGrowByFactor (capacity_bytes b) min_capacity_bytes) false b.

(** [memcpy(buffer->data + buffer->size_bytes, src, n)] and the size update *)
Definition write_at_end (d : list Z) : M ArrowBuffer unit := λ b,
  match data b with
  | None => UB
  | Some m =>
      match zwrite m (size_bytes b) d with
      | None => UB
      | Some m' => Ok tt (MkBuffer (Some m') (i64 (size_bytes b + zlen d))
                            (capacity_bytes b) (allocator b))
      end
  end.

Definition ArrowBufferAppendUnsafe (src : option (list Z)) (n : Z) : M ArrowBuffer unit :=
  if 0 <? n then
    let* s := deref src in
    let* d := deref (zslice s 0 n) in
    write_at_end d
  else mret_ tt.

Definition ArrowBufferAppend (src : option (list Z)) (n : Z) : M ArrowBuffer unit :=
  ArrowBufferReserve n ;;;
  ArrowBufferAppendUnsafe src n.

Definition append_int (width : nat) (value : Z) : M ArrowBuffer unit :=
  ArrowBufferAppend (Some (le_bytes width value)) (Z.of_nat width).
Definition ArrowBufferAppendInt8 : Z → M ArrowBuffer unit := append_int 1.
Definition ArrowBufferAppendUInt8 : Z → M ArrowBuffer unit := append_int 1.
Definition ArrowBufferAppendInt16 : Z → M ArrowBuffer unit := append_int 2.
Definition ArrowBufferAppendUInt16 : Z → M ArrowBuffer unit := append_int 2.
Definition ArrowBufferAppendInt32 : Z → M ArrowBuffer unit := append_int 4.
Definition ArrowBufferAppendUInt32 : Z → M ArrowBuffer unit := append_int 4.
Definition ArrowBufferAppendInt64 : Z → M ArrowBuffer unit := append_int 8.
Definition ArrowBufferAppendUInt64 : Z → M ArrowBuffer unit := append_int 8.
(** A [double] or [float] is given by its object representation. *)
Definition ArrowBufferAppendDouble (bits : Z) : M ArrowBuffer unit := append_int 8 bits.
Definition ArrowBufferAppendFloat (bits : Z) : M ArrowBuffer unit := append_int 4 bits.

(** [ArrowStringView] and [ArrowBufferView]: a pointer with a size. *)
Record ArrowView : Set := MkView { view_data : option (list Z); view_size : Z }.
Definition ArrowBufferAppendStringView (v : ArrowView) : M ArrowBuffer unit :=
  ArrowBufferAppend (view_data v) (view_size v).
Definition ArrowBufferAppendBufferView (v : ArrowView) : M ArrowBuffer unit :=
  ArrowBufferAppend (view_data v) (view_size v).

Definition ArrowBufferAppendFill (value n : Z) : M ArrowBuffer unit :=
  ArrowBufferReserve n ;;;
  if n <? 0 then mundef
  else if n =? 0 then mret_ tt
  else write_at_end (replicate (Z.to_nat n) value).
End buffer_ops.

(** ** Lemmas *)
Section buffer_lemmas.
Context `{!Libc}.
Implicit Types (b : ArrowBuffer).

(** Room for [n] more bytes without reaching the limit of [int64_t]. *)
Definition fits b (n : Z) : Prop :=
  capacity_bytes b * 2 <= INT64_MAX ∧ size_bytes b + n <= INT64_MAX.

Lemma buffer_wf_init : buffer_wf ArrowBufferInit.
Proof. by split. Qed.
Lemma buffer_wf_reset b : buffer_wf (ArrowBufferReset b).
Proof. by split. Qed.
Lemma contents_reset b : contents (ArrowBufferReset b) = [].
Proof. done. Qed.

Lemma zlen_contents b : buffer_wf b → zlen (contents b) = size_bytes b.
Proof.
  intros [Hs Hb]. unfold contents, zlen. destruct (data b); simpl.
  - destruct Hb. unfold zlen in *. rewrite length_take. lia.
  - rewrite take_nil. simpl. lia.
Qed.
Lemma contents_bytes_ok b : buffer_wf b → bytes_ok (contents b).
Proof.
  intros [Hs Hb]. unfold contents. destruct (data b); simpl.
  - apply Forall_take, Hb.
  - rewrite take_nil. constructor.
Qed.

Lemma grow_lower c n : n <= _ArrowGrowByFactor c n.
Proof. unfold _ArrowGrowByFactor. case_match; zbool; lia. Qed.

(** Growing keeps the bytes held; on failure the buffer is emptied. *)
Lemma resize_grow_wp b n :
  buffer_wf b → size_bytes b <= n → capacity_bytes b < n →
  wp (ArrowBufferResize n false) b
    (λ _ b', buffer_wf b' ∧ contents b' = contents b ∧ capacity_bytes b' = n ∧
             size_bytes b' = size_bytes b ∧ allocator b' = allocator b)
    (λ e b', e = ENOMEM ∧ buffer_wf b' ∧ contents b' = [] ∧ size_bytes b' = 0 ∧
             allocator b' = allocator b).
Proof.
  intros [Hs Hb] Hn Hc. unfold wp, ArrowBufferResize.
  destruct (Z.ltb_spec n 0); [lia|]. destruct (Z.ltb_spec (capacity_bytes b) n); [|lia].
  simpl. destruct (Z.ltb_spec 0 n); [|lia]. destruct (Z.ltb_spec n (size_bytes b)); [lia|].
  unfold call_reallocate. destruct (reallocate (allocator b)); [|repeat split; done].
  destruct (libc_realloc (data b) n) as [d|] eqn:Hd; simpl; [|repeat split; done].
  assert (zlen d = n) as Hlen by (eapply libc_realloc_zlen; eauto; lia).
  split; [split; simpl; [lia|split; [lia|]]|].
  { eapply libc_realloc_bytes; [|done]. intros old Hold. rewrite Hold in Hb. apply Hb. }
  split; [|done]. unfold contents. simpl. destruct (data b) as [old|] eqn:Hold; simpl.
  - destruct Hb as [Hb ?]. apply libc_realloc_keep in Hd.
    rewrite Z.min_r in Hd by lia.
    apply (f_equal (take (Z.to_nat (size_bytes b)))) in Hd.
    rewrite !take_take, !Nat.min_l in Hd by lia. done.
  - assert (size_bytes b = 0) as -> by lia. done.
Qed.

Lemma reserve_wp b n :
  buffer_wf b → 0 <= n → fits b n →
  wp (ArrowBufferReserve n) b
    (λ _ b', buffer_wf b' ∧ contents b' = contents b ∧ size_bytes b' = size_bytes b ∧
             size_bytes b + n <= capacity_bytes b' ∧ allocator b' = allocator b ∧
             capacity_bytes b' <= capacity_bytes b `max` (2 * (size_bytes b + n)) ∧
             (size_bytes b + n <= capacity_bytes b → b' = b))
    (λ e b', e = ENOMEM ∧ buffer_wf b' ∧ contents b' = [] ∧ size_bytes b' = 0 ∧
             allocator b' = allocator b).
Proof.
  intros Hwf Hn [Hf1 Hf2]. pose proof (buffer_size _ Hwf) as Hs.
  unfold wp, ArrowBufferReserve. rewrite i64_small by width.
  destruct (Z.leb_spec (size_bytes b + n) (capacity_bytes b)) as [?|Hgt].
  { split_and!; try done; lia. }
  pose proof (grow_lower (capacity_bytes b) (size_bytes b + n)) as Hg.
  assert (_ArrowGrowByFactor (capacity_bytes b) (size_bytes b + n) <= 2 * (size_bytes b + n)).
  { unfold _ArrowGrowByFactor. rewrite i64_small by width. case_match; lia. }
  eapply wp_mono; [apply resize_grow_wp; [done|lia..]| |done].
  simpl. intros ? b' (Hwf' & Hct & Hcap & Hsz & Hal).
  repeat split; try apply Hwf'; try done; lia.
Qed.

Lemma write_at_end_wp b d :
  buffer_wf b → bytes_ok d → d ≠ [] → size_bytes b + zlen d <= INT64_MAX →
  size_bytes b + zlen d <= capacity_bytes b →
  wp (write_at_end d) b
    (λ _ b', buffer_wf b' ∧ contents b' = contents b ++ d ∧
             size_bytes b' = size_bytes b + zlen d ∧
             capacity_bytes b' = capacity_bytes b ∧ allocator b' = allocator b)
    (λ _ _, False).
Proof.
  intros Hwf Hd Hne Hf2 Hroom. pose proof (buffer_size _ Hwf) as Hs.
  pose proof (zlen_nonneg d) as Hdpos.
  unfold wp, write_at_end. pose proof (buffer_block _ Hwf) as Hb.
  destruct (data b) as [m|] eqn:Hm.
  2:{ destruct d as [|x d]; [done|]. rewrite zlen_cons in Hroom.
      pose proof (zlen_nonneg d). lia. }
  destruct Hb as [Hlen Hok]. rewrite zwrite_in by lia. simpl.
  rewrite i64_small by width. split; [split; simpl; [lia|split]|split]; [..|done].
  - unfold zlen in *. rewrite !length_app, length_take, length_drop. lia.
  - apply Forall_app; split; [by apply Forall_take|]. apply Forall_app; split; [done|].
    by apply Forall_drop.
  - unfold contents. simpl. rewrite Hm. simpl. unfold zlen in *.
    rewrite app_assoc, take_app_le; [|rewrite length_app, length_take; lia].
    rewrite take_ge; [done|]. rewrite length_app, length_take. lia.
Qed.

(** [src] points to at least [n] bytes, the first of which are [d]. *)
Definition source_of (src : option (list Z)) (n : Z) (d : list Z) : Prop :=
  n = 0 ∧ d = [] ∨ 0 < n ∧ ∃ s, src = Some s ∧ zslice s 0 n = Some d.

Lemma append_unsafe_wp b src n d :
  buffer_wf b → 0 <= n → bytes_ok d → size_bytes b + n <= INT64_MAX →
  size_bytes b + n <= capacity_bytes b → source_of src n d →
  wp (ArrowBufferAppendUnsafe src n) b
    (λ _ b', buffer_wf b' ∧ contents b' = contents b ++ d ∧ size_bytes b' = size_bytes b + n ∧
             capacity_bytes b' = capacity_bytes b ∧ allocator b' = allocator b)
    (λ _ _, False).
Proof.
  intros Hwf Hn Hd Hmax Hroom Hsrc. unfold ArrowBufferAppendUnsafe.
  destruct (Z.ltb_spec 0 n) as [Hpos|?].
  - destruct Hsrc as [?|(_ & s & -> & Hs)]; [lia|]. cbn [deref].
    apply wp_bind, wp_ret, wp_bind. rewrite Hs. apply wp_ret.
    apply zslice_zlen in Hs as Hlen.
    assert (d ≠ []) by (intros ->; rewrite zlen_nil in Hlen; lia).
    eapply wp_mono; [apply write_at_end_wp; try done; lia| |done].
    intros ? b' (? & ? & ? & ? & ?). split_and!; try done. lia.
  - destruct Hsrc as [[-> ->]|?]; [|lia]. apply wp_ret. rewrite app_nil_r. split_and!; try done. lia.
Qed.

(** Appending [d]: the contents grow by [d], or the call fails with [ENOMEM]
    and the buffer is empty. *)
Definition appended b (d : list Z) (b' : ArrowBuffer) : Prop :=
  buffer_wf b' ∧ contents b' = contents b ++ d ∧ size_bytes b' = size_bytes b + zlen d ∧
  allocator b' = allocator b ∧
  capacity_bytes b' <= capacity_bytes b `max` (2 * (size_bytes b + zlen d)) ∧
  (size_bytes b + zlen d <= capacity_bytes b → capacity_bytes b' = capacity_bytes b).
Definition append_failed b (e : errno) (b' : ArrowBuffer) : Prop :=
  e = ENOMEM ∧ buffer_wf b' ∧ contents b' = [] ∧ size_bytes b' = 0 ∧ allocator b' = allocator b.

Lemma append_wp b src n d :
  buffer_wf b → fits b n → 0 <= n → bytes_ok d → source_of src n d →
  wp (ArrowBufferAppend src n) b (λ _, appended b d) (append_failed b).
Proof.
  intros Hwf Hf Hn Hd Hsrc. unfold ArrowBufferAppend. apply wp_bind.
  eapply wp_mono; [by apply reserve_wp| |done].
  simpl. intros _ b1 (Hwf1 & Hct & Hsz & Hcap & Hal & Hmax & Hsame).
  eapply wp_mono; [apply append_unsafe_wp; try done; destruct Hf; lia| |done].
  intros ? b' (Hwf' & Hct' & Hsz' & Hcap' & Hal').
  assert (zlen d = n) as Hlen.
  { destruct Hsrc as [[-> ->]|(_ & s & -> & Hs)]; [done|by apply zslice_zlen in Hs]. }
  unfold appended. rewrite Hct', Hct, Hsz', Hcap', Hlen. split_and!; try done; [lia|congruence|].
  intros. rewrite Hsame; [done|lia].
Qed.

Lemma source_of_app d post : source_of (Some (d ++ post)) (zlen d) d.
Proof.
  unfold source_of. pose proof (zlen_nonneg d). destruct (Z.eq_dec (zlen d) 0) as [Hz|].
  - left. split; [done|]. destruct d; [done|]. rewrite zlen_cons in Hz.
    pose proof (zlen_nonneg d). lia.
  - right. split; [lia|]. eexists. split; [done|]. pose proof (zlen_nonneg post).
    rewrite zslice_in by (rewrite ?zlen_app; lia).
    unfold zlen. by rewrite Nat2Z.id, drop_0, take_app_length.
Qed.
Lemma append_bytes_wp b d :
  buffer_wf b → fits b (zlen d) → bytes_ok d →
  wp (ArrowBufferAppend (Some d) (zlen d)) b (λ _, appended b d) (append_failed b).
Proof.
  intros Hwf Hf Hd. apply append_wp; auto using zlen_nonneg.
  pose proof (source_of_app d []) as Hs. by rewrite app_nil_r in Hs.
Qed.
Lemma append_int_wp b w v :
  buffer_wf b → fits b (Z.of_nat w) →
  wp (append_int w v) b (λ _, appended b (le_bytes w v)) (append_failed b).
Proof.
  intros. unfold append_int. rewrite <-(zlen_le_bytes w v) in *.
  apply append_bytes_wp; auto using le_bytes_ok.
Qed.
Lemma append_fill_wp b v n :
  buffer_wf b → fits b n → 0 <= n → byte_ok v →
  wp (ArrowBufferAppendFill v n) b (λ _, appended b (replicate (Z.to_nat n) v)) (append_failed b).
Proof.
  intros Hwf Hf Hn Hv. unfold ArrowBufferAppendFill. apply wp_bind.
  eapply wp_mono; [by apply reserve_wp| |done].
  simpl. intros _ b1 (Hwf1 & Hct & Hsz & Hcap & Hal & Hmax & Hsame).
  destruct (Z.ltb_spec n 0); [lia|]. destruct (Z.eqb_spec n 0) as [->|Hne].
  - apply wp_ret. unfold appended. simpl. rewrite app_nil_r, zlen_nil.
    split_and!; try done; [lia|]. intros. rewrite Hsame; [done|lia].
  - eapply wp_mono; [apply write_at_end_wp; try done| |done].
    + by apply Forall_replicate.
    + destruct (Z.to_nat n) eqn:E; [lia|done].
    + rewrite zlen_replicate by lia. destruct Hf. lia.
    + rewrite zlen_replicate by lia. lia.
    + rewrite zlen_replicate by lia.
      intros ? b' (Hwf' & Hct' & Hsz' & Hcap' & Hal'). unfold appended.
      rewrite zlen_replicate by lia.
      rewrite Hct', Hct, Hsz', Hcap'. split_and!; try done; [lia|congruence|].
      intros. rewrite Hsame; [done|lia].
Qed.
(** The block of a buffer starts with the bytes it holds. *)
Lemma data_contents b :
  buffer_wf b → capacity_bytes b ≠ 0 → ∃ post, data b = Some (contents b ++ post).
Proof.
  intros [Hs Hb] Hc. unfold contents. destruct (data b) as [d|]; [|done]. simpl.
  exists (drop (Z.to_nat (size_bytes b)) d). by rewrite take_drop.
Qed.
(** Overwriting the first bytes. *)
Lemma overwrite_wp b x old rest :
  buffer_wf b → bytes_ok x → contents b = old ++ rest → zlen old = zlen x → 0 < zlen x →
  wp (upd_data (λ d, zwrite d 0 x)) b
    (λ _ b', buffer_wf b' ∧ contents b' = x ++ rest ∧ size_bytes b' = size_bytes b ∧
             capacity_bytes b' = capacity_bytes b ∧ allocator b' = allocator b)
    (λ _ _, False).
Proof.
  intros Hwf Hx Hct Hold Hpos. pose proof (zlen_contents b Hwf) as Hlen.
  pose proof Hwf as [Hs Hb]. rewrite Hct, zlen_app in Hlen. pose proof (zlen_nonneg rest).
  destruct (data_contents b) as [post Hd]; [done|lia|]. rewrite Hd in Hb. destruct Hb as [Hb Hok].
  pose proof (zlen_nonneg post). unfold wp, upd_data. rewrite Hd.
  rewrite zwrite_in by lia. rewrite Hct in *.
  assert (take (Z.to_nat 0) ((old ++ rest) ++ post) ++ x ++
    drop (Z.to_nat 0 + length x) ((old ++ rest) ++ post) = x ++ rest ++ post) as ->.
  { simpl. f_equal. rewrite <-app_assoc. unfold zlen in Hold. apply Nat2Z.inj in Hold.
    rewrite <-Hold. by rewrite drop_app_length. }
  rewrite !zlen_app in Hb.
  split_and!; try done; [split; simpl; [lia|split]|].
  - rewrite !zlen_app. lia.
  - unfold bytes_ok in Hok |- *. rewrite !Forall_app in Hok |- *. by destruct Hok as [[??]?].
  - unfold contents. simpl. rewrite app_assoc. rewrite take_app_le.
    + apply take_ge. rewrite length_app. unfold zlen in *. lia.
    + rewrite length_app. unfold zlen in *. lia.
Qed.
Lemma shrink_wp b :
  buffer_wf b →
  wp (ArrowBufferResize (size_bytes b) true) b
    (λ _ b', buffer_wf b' ∧ contents b' = contents b ∧ capacity_bytes b' = size_bytes b ∧
             size_bytes b' = size_bytes b ∧ allocator b' = allocator b)
    (append_failed b).
Proof.
  intros [Hs Hb]. unfold wp, ArrowBufferResize.
  destruct (Z.ltb_spec (size_bytes b) 0); [lia|]. rewrite orb_true_r.
  rewrite Z.ltb_irrefl.
  destruct (call_reallocate _ _ _ _) as [d|] eqn:Hd; cycle 1.
  { destruct (Z.ltb_spec 0 (size_bytes b)); [by repeat split|].
    assert (size_bytes b = 0) as Hz by lia.
    unfold contents. simpl. rewrite Hz. repeat split; simpl; try done; lia. }
  unfold call_reallocate in Hd. destruct (reallocate (allocator b)); [|done].
  assert (zlen d = size_bytes b) as Hlen by (eapply libc_realloc_zlen; [|exact Hd]; lia).
  split; [split; simpl; [lia|split; [done|]]|].
  { eapply libc_realloc_bytes; [|done]. intros old Hold. rewrite Hold in Hb. apply Hb. }
  split; [|done]. unfold contents. simpl. destruct (data b) as [old|] eqn:Hold; simpl.
  - destruct Hb as [Hb ?]. apply libc_realloc_keep in Hd. by rewrite Z.min_l in Hd by lia.
  - assert (size_bytes b = 0) as -> by lia. done.
Qed.
End buffer_lemmas.

(** ** The abstract buffer

    The clients of [ArrowBuffer] see a list of bytes; these are their operations
    and what each does to the list. *)
Inductive buffer_op : Set :=
  | OpAppend (d : list Z)
  | OpAppendInt (width : nat) (value : Z)
  | OpAppendFill (value n : Z)
  | OpReserve (n : Z)
  | OpShrinkToFit
  | OpReset.

Definition op_ok (op : buffer_op) : Prop :=
  match op with
  | OpAppend d => bytes_ok d
  | OpAppendInt _ _ | OpShrinkToFit | OpReset => True
  | OpAppendFill v n => byte_ok v ∧ 0 <= n
  | OpReserve n => 0 <= n
  end.
(** The number of bytes an operation may ask room for. *)
Definition op_room (op : buffer_op) : Z :=
  match op with
  | OpAppend d => zlen d
  | OpAppendInt w _ => Z.of_nat w
  | OpAppendFill _ n | OpReserve n => n
  | OpShrinkToFit | OpReset => 0
  end.
Definition spec_op (op : buffer_op) (l : list Z) : list Z :=
  match op with
  | OpAppend d => l ++ d
  | OpAppendInt w v => l ++ le_bytes w v
  | OpAppendFill v n => l ++ replicate (Z.to_nat n) v
  | OpReserve _ | OpShrinkToFit => l
  | OpReset => []
  end.
Definition run_op `{!Libc} (op : buffer_op) : M ArrowBuffer unit :=
  match op with
  | OpAppend d => ArrowBufferAppend (Some d) (zlen d)
  | OpAppendInt w v => append_int w v
  | OpAppendFill v n => ArrowBufferAppendFill v n
  | OpReserve n => ArrowBufferReserve n
  | OpShrinkToFit => λ b, ArrowBufferResize (size_bytes b) true b
  | OpReset => mmod ArrowBufferReset
  end.
Definition spec_ops (ops : list buffer_op) (l : list Z) : list Z :=
  foldl (λ l op, spec_op op l) l ops.
Definition total_room (ops : list buffer_op) : Z := foldr (λ op n, op_room op + n) 0 ops.

Section refinement.
Context `{!Libc}.

(** The simulation relation, with [p] the number of bytes asked for so far. *)
Definition refines (p : Z) (b : ArrowBuffer) (l : list Z) : Prop :=
  buffer_wf b ∧ contents b = l ∧ size_bytes b <= p ∧ capacity_bytes b <= 2 * p.

Lemma refines_step p op b l :
  refines p b l → op_ok op → 4 * (p + op_room op) <= INT64_MAX →
  wp (run_op op) b (λ _ b', refines (p + op_room op) b' (spec_op op l))
    (λ e b', e = ENOMEM ∧ buffer_wf b' ∧ contents b' = []).
Proof.
  intros (Hwf & Hct & Hs & Hc) Hop Hp. pose proof (buffer_size _ Hwf) as Hsz.
  assert (∀ d b', zlen d = op_room op → appended b d b' →
    refines (p + op_room op) b' (contents b ++ d)) as Happ.
  { intros d b' Hd (? & ? & ? & ? & ? & ?). pose proof (zlen_nonneg d). unfold refines. split_and!; try done; lia. }
  assert (∀ e b', append_failed b e b' → e = ENOMEM ∧ buffer_wf b' ∧ contents b' = []) as Hfail.
  { intros e b' (? & ? & ? & ?). auto. }
  subst l. destruct op as [d|w v|v n|n| |]; simpl in *.
  - eapply wp_mono; [apply append_bytes_wp|intros ? b'; by apply Happ|apply Hfail]; try done.
    pose proof (zlen_nonneg d). split; lia.
  - eapply wp_mono; [apply append_int_wp| |apply Hfail]; try done.
    { split; lia. } intros ? b'. apply Happ, zlen_le_bytes.
  - destruct Hop. eapply wp_mono; [apply append_fill_wp| |apply Hfail]; try done.
    { split; lia. } intros ? b'. apply Happ, zlen_replicate. lia.
  - eapply wp_mono; [apply reserve_wp; [done|done|split; lia]| |].
    + intros ? b' (? & ? & ? & ? & ? & ? & ?). unfold refines. split_and!; try done; lia.
    + intros e b' (? & ? & ? & ? & ?). auto.
  - eapply wp_mono; [by apply shrink_wp| |apply Hfail].
    intros ? b' (? & ? & ? & ? & ?). unfold refines. split_and!; try done; lia.
  - apply wp_mod. unfold refines. split_and!; simpl; try done; lia.
Qed.

Lemma op_room_nonneg op : op_ok op → 0 <= op_room op.
Proof. destruct op; simpl; intros; try lia. apply zlen_nonneg. Qed.
Lemma total_room_nonneg ops : Forall op_ok ops → 0 <= total_room ops.
Proof. induction 1 as [|op ops Hop _ IH]; simpl; [lia|]. apply op_room_nonneg in Hop. lia. Qed.

End refinement.

(** C1: any sequence of operations on a fresh [ArrowBuffer] behaves as the same
    operations on a list of bytes, for an allocator that may answer differently
    at every operation.  The run never leaves the buffer's memory; either it
    succeeds with exactly the bytes of the abstract list in the buffer, a
    well-formed buffer and a capacity of at most twice the number of bytes asked
    for, or it stops with [ENOMEM] and an empty well-formed buffer. *)
Theorem buffer_refinement (ops : list (Libc * buffer_op)) (Hops : Forall op_ok ops.*2)
    (Hroom : 4 * total_room ops.*2 <= INT64_MAX) :
  wp (mfor ops (λ '(libc, op), @run_op libc op)) ArrowBufferInit
    (λ _ b', refines (total_room ops.*2) b' (spec_ops ops.*2 []))
    (λ e b', e = ENOMEM ∧ buffer_wf b' ∧ contents b' = []).
Proof.
  enough (∀ p b l, refines p b l → 4 * (p + total_room ops.*2) <= INT64_MAX →
    wp (mfor ops (λ '(libc, op), @run_op libc op)) b
      (λ _ b', refines (p + total_room ops.*2) b' (spec_ops ops.*2 l))
      (λ e b', e = ENOMEM ∧ buffer_wf b' ∧ contents b' = [])) as Hgen.
  { apply (Hgen 0); [|done]. repeat split; simpl; lia. }
  clear Hroom. induction ops as [|[libc op] ops IH]; intros p b l Hr Hp; cbn [mfor].
  { change (total_room [].*2) with 0. by rewrite Z.add_0_r. }
  rewrite fmap_cons in *. cbn [snd total_room foldr] in *. fold (total_room ops.*2) in *.
  apply Forall_cons_1 in Hops as [Hop Hops].
  pose proof (op_room_nonneg op Hop). pose proof (total_room_nonneg _ Hops).
  apply wp_bind. eapply wp_mono; [apply refines_step; [done..|lia]| |done].
  intros ? b' Hr'. rewrite Z.add_assoc. apply IH; [done..|lia].
Qed.

Definition example_ops : list (Libc * buffer_op) :=
  [(libc_limited 100, OpAppend [1; 2; 3]); (libc_limited 50, OpAppendInt 4 7);
   (libc_limited 50, OpShrinkToFit); (libc_limited 12, OpAppendFill 255 2)].
Lemma buffer_refinement_witness :
  wp (mfor example_ops (λ '(libc, op), @run_op libc op)) ArrowBufferInit
    (λ _ b', refines 9 b' [1; 2; 3; 7; 0; 0; 0; 255; 255])
    (λ e b', e = ENOMEM ∧ buffer_wf b' ∧ contents b' = []).
Proof.
  apply (buffer_refinement example_ops).
  - repeat constructor; simpl; unfold byte_ok; lia.
  - vm_compute. discriminate.
Defined.
