(* ===== verification/Bits.v ===== *)
(** * Bit operations on packed bitmaps (nanoarrow.h, buffer_inline.h)

    The functions that read and write ranges of bits in a byte array.  A byte
    array is the list of its bytes; [None] is an access outside of it.  [bitf] is
    the abstract view: the array as a function from bit positions to booleans. *)

From stdpp Require Import base numbers list option.
From S2P Require Import Prelude CInt.
#[local] Open Scope Z_scope.

(** ** Masks and rounding *)
Definition _ArrowkBitmask : list Z := [1; 2; 4; 8; 16; 32; 64; 128].
Definition _ArrowkFlippedBitmask : list Z := [254; 253; 251; 247; 239; 223; 191; 127].
Definition _ArrowkPrecedingBitmask : list Z := [0; 1; 3; 7; 15; 31; 63; 127].
Definition _ArrowkTrailingBitmask : list Z := [255; 254; 252; 248; 240; 224; 192; 128].
Definition _ArrowkBytePopcount : list Z := [
    0; 1; 1; 2; 1; 2; 2; 3; 1; 2; 2; 3; 2; 3; 3; 4; 1; 2; 2; 3; 2; 3; 3; 4;
    2; 3; 3; 4; 3; 4; 4; 5; 1; 2; 2; 3; 2; 3; 3; 4; 2; 3; 3; 4; 3; 4; 4; 5;
    2; 3; 3; 4; 3; 4; 4; 5; 3; 4; 4; 5; 4; 5; 5; 6; 1; 2; 2; 3; 2; 3; 3; 4;
    2; 3; 3; 4; 3; 4; 4; 5; 2; 3; 3; 4; 3; 4; 4; 5; 3; 4; 4; 5; 4; 5; 5; 6;
    2; 3; 3; 4; 3; 4; 4; 5; 3; 4; 4; 5; 4; 5; 5; 6; 3; 4; 4; 5; 4; 5; 5; 6;
    4; 5; 5; 6; 5; 6; 6; 7; 1; 2; 2; 3; 2; 3; 3; 4; 2; 3; 3; 4; 3; 4; 4; 5;
    2; 3; 3; 4; 3; 4; 4; 5; 3; 4; 4; 5; 4; 5; 5; 6; 2; 3; 3; 4; 3; 4; 4; 5;
    3; 4; 4; 5; 4; 5; 5; 6; 3; 4; 4; 5; 4; 5; 5; 6; 4; 5; 5; 6; 5; 6; 6; 7;
    2; 3; 3; 4; 3; 4; 4; 5; 3; 4; 4; 5; 4; 5; 5; 6; 3; 4; 4; 5; 4; 5; 5; 6;
    4; 5; 5; 6; 5; 6; 6; 7; 3; 4; 4; 5; 4; 5; 5; 6; 4; 5; 5; 6; 5; 6; 6; 7;
    4; 5; 5; 6; 5; 6; 6; 7; 5; 6; 6; 7; 6; 7; 7; 8].

Definition _ArrowRoundUpToMultipleOf8 (value : Z) : Z := i64 (Z.land (i64 (value + 7)) (Z.lnot 7)).
Definition _ArrowRoundDownToMultipleOf8 (value : Z) : Z := Z.quot value 8 * 8.
Definition _ArrowBytesForBits (bits : Z) : Z :=
  Z.shiftr bits 3 + (if Z.land bits 7 =? 0 then 0 else 1).

(** ** Single bits *)
Definition ArrowBitGet (bits : list Z) (i : Z) : option Z :=
  b ← znth bits (Z.shiftr i 3);
  Some (Z.land (Z.shiftr b (Z.land i 7)) 1).

Definition ArrowBitSet (bits : list Z) (i : Z) : option (list Z) :=
  b ← znth bits (Z.quot i 8);
  m ← znth _ArrowkBitmask (Z.rem i 8);
  zset bits (Z.quot i 8) (Z.lor b m).

Definition ArrowBitClear (bits : list Z) (i : Z) : option (list Z) :=
  b ← znth bits (Z.quot i 8);
  m ← znth _ArrowkFlippedBitmask (Z.rem i 8);
  zset bits (Z.quot i 8) (Z.land b m).

Definition ArrowBitSetTo (bits : list Z) (i : Z) (bit_is_set : Z) : option (list Z) :=
  b ← znth bits (Z.quot i 8);
  m ← znth _ArrowkBitmask (Z.rem i 8);
  zset bits (Z.quot i 8)
    (Z.lxor b (Z.land (u8 (Z.lxor (- (if bit_is_set =? 0 then 0 else 1)) b)) m)).

(** ** Ranges of bits *)

(** [bits[i] &= mask; bits[i] |= (uint8_t)(fill_byte & ~mask);] *)
Definition mask_byte (bits : list Z) (i mask fill_byte : Z) : option (list Z) :=
  b ← znth bits i;
  zset bits i (Z.lor (Z.land b mask) (u8 (Z.land fill_byte (Z.lnot mask)))).

Definition ArrowBitsSetTo (bits : list Z) (start_offset length bits_are_set : Z) :
    option (list Z) :=
  let i_begin := start_offset in
  let i_end := start_offset + length in
  let fill_byte := u8 (- bits_are_set) in
  let bytes_begin := Z.quot i_begin 8 in
  let bytes_end := Z.quot i_end 8 + 1 in
  first_byte_mask ← znth _ArrowkPrecedingBitmask (Z.rem i_begin 8);
  last_byte_mask ← znth _ArrowkTrailingBitmask (Z.rem i_end 8);
  if bytes_end =? bytes_begin + 1 then
    let only_byte_mask :=
      if Z.rem i_end 8 =? 0 then first_byte_mask
      else Z.lor first_byte_mask last_byte_mask in
    mask_byte bits bytes_begin only_byte_mask fill_byte
  else
    bits ← mask_byte bits bytes_begin first_byte_mask fill_byte;
    bits ← (if 2 <? bytes_end - bytes_begin then
              zwrite bits (bytes_begin + 1)
                (replicate (Z.to_nat (bytes_end - bytes_begin - 2)) fill_byte)
            else Some bits);
    if Z.rem i_end 8 =? 0 then Some bits
    else mask_byte bits (bytes_end - 1) last_byte_mask fill_byte.

Definition popcount (b : Z) : option Z := znth _ArrowkBytePopcount b.

(** [count += _ArrowkBytePopcount[bits[i]]] for [i] in the list *)
Fixpoint popcount_bytes (bits : list Z) (idx : list Z) (count : Z) : option Z :=
  match idx with
  | [] => Some count
  | i :: idx' =>
      b ← znth bits i;
      n ← popcount b;
      popcount_bytes bits idx' (count + n)
  end.

Definition ArrowBitCountSet (bits : list Z) (start_offset length : Z) : option Z :=
  if length =? 0 then Some 0
  else
    let i_begin := start_offset in
    let i_end := start_offset + length in
    let i_last_valid := i_end - 1 in
    let bytes_begin := Z.quot i_begin 8 in
    let bytes_last_valid := Z.quot i_last_valid 8 in
    if bytes_begin =? bytes_last_valid then
      first_byte_mask ← znth _ArrowkPrecedingBitmask (Z.rem i_end 8);
      last_byte_mask ← znth _ArrowkTrailingBitmask (Z.rem i_begin 8);
      let only_byte_mask :=
        if Z.rem i_end 8 =? 0 then last_byte_mask
        else Z.land first_byte_mask last_byte_mask in
      b ← znth bits bytes_begin;
      popcount (Z.land b only_byte_mask)
    else
      first_byte_mask ← znth _ArrowkPrecedingBitmask (Z.rem i_begin 8);
      last_byte_mask ←
        (if Z.rem i_end 8 =? 0 then Some 0 else znth _ArrowkTrailingBitmask (Z.rem i_end 8));
      b ← znth bits bytes_begin;
      n_first ← popcount (Z.land b (Z.lnot first_byte_mask));
      count ← popcount_bytes bits
        (Z.add (bytes_begin + 1) <$> zseq (bytes_last_valid - (bytes_begin + 1))) n_first;
      b ← znth bits bytes_last_valid;
      n_last ← popcount (Z.land b (Z.lnot last_byte_mask));
      Some (count + n_last).

(** ** Unpacking and packing *)
Definition _ArrowBitsUnpackInt8 (word : Z) : list Z :=
  (λ k, Z.land (Z.shiftr word k) 1) <$> [0; 1; 2; 3; 4; 5; 6; 7].
Definition _ArrowBitsUnpackInt32 (word : Z) : list Z :=
  (λ k, Z.land (Z.shiftr word k) 1) <$> [0; 1; 2; 3; 4; 5; 6; 7].

(** [unpack_bits unpack_byte bits start length]: the values stored to [out]. *)
Definition unpack_bits (unpack_byte : Z → list Z) (bits : list Z) (start_offset length : Z) :
    option (list Z) :=
  if length =? 0 then Some []
  else
    let i_begin := start_offset in
    let i_end := start_offset + length in
    let i_last_valid := i_end - 1 in
    let bytes_begin := Z.quot i_begin 8 in
    let bytes_last_valid := Z.quot i_last_valid 8 in
    if bytes_begin =? bytes_last_valid then
      mapM (λ i, ArrowBitGet (drop (Z.to_nat bytes_begin) bits) (i + Z.rem i_begin 8))
        (zseq length)
    else
      out_first ← mapM (λ i, ArrowBitGet (drop (Z.to_nat bytes_begin) bits) (i + Z.rem i_begin 8))
        (zseq (8 - Z.rem i_begin 8));
      out_middle ← mapM (λ i, unpack_byte <$> znth bits i)
        (Z.add (bytes_begin + 1) <$> zseq (bytes_last_valid - (bytes_begin + 1)));
      let bits_remaining := if Z.rem i_end 8 =? 0 then 8 else Z.rem i_end 8 in
      out_last ← mapM (λ i, ArrowBitGet (drop (Z.to_nat bytes_last_valid) bits) i)
        (zseq bits_remaining);
      Some (out_first ++ concat out_middle ++ out_last).
Definition ArrowBitsUnpackInt8 : list Z → Z → Z → option (list Z) := unpack_bits _ArrowBitsUnpackInt8.
Definition ArrowBitsUnpackInt32 : list Z → Z → Z → option (list Z) := unpack_bits _ArrowBitsUnpackInt32.

(** [*out = values[0] | values[1] << 1 | ... | values[7] << 7] *)
Definition pack_byte (values : list Z) : option Z :=
  vs ← mapM (znth values) [0; 1; 2; 3; 4; 5; 6; 7];
  Some (u8 (foldr (λ '(k, v) acc, Z.lor (Z.shiftl v k) acc) 0 (zip [0; 1; 2; 3; 4; 5; 6; 7] vs))).
Definition _ArrowBitmapPackInt8 : list Z → option Z := pack_byte.
Definition _ArrowBitmapPackInt32 : list Z → option Z := pack_byte.

(** ** The abstract view *)
Definition bitf (bits : list Z) (j : Z) : bool :=
  Z.testbit (default 0 (znth bits (j / 8))) (j mod 8).

(** [Σ_{k < n} f (start + k)] *)
Fixpoint sum_bits (f : Z → bool) (start : Z) (n : nat) : Z :=
  match n with
  | O => 0
  | S n' => Z.b2z (f start) + sum_bits f (start + 1) n'
  end.

(** ** Arithmetic of positions *)
Lemma BytesForBits_spec n : 0 <= n → _ArrowBytesForBits n = (n + 7) / 8.
Proof.
  intros. unfold _ArrowBytesForBits. rewrite Z.shiftr_div_pow2 by lia.
  change 7 with (Z.ones 3) at 1. rewrite Z.land_ones by lia. change (2 ^ 3) with 8.
  pose proof (Z.div_mod n 8). pose proof (Z.mod_pos_bound n 8).
  destruct (Z.eqb_spec (n mod 8) 0).
  - apply Z.div_unique with 7; lia.
  - apply Z.div_unique with (n mod 8 - 1); lia.
Qed.
Lemma RoundUp_spec n : 0 <= n <= INT64_MAX - 7 → _ArrowRoundUpToMultipleOf8 n = (n + 7) / 8 * 8.
Proof.
  intros. unfold _ArrowRoundUpToMultipleOf8. rewrite (i64_small (n + 7)) by width.
  change (Z.lnot 7) with (Z.lnot (Z.ones 3)). rewrite <-Z.ldiff_land.
  rewrite Z.ldiff_ones_r by lia. rewrite Z.shiftl_mul_pow2, Z.shiftr_div_pow2 by lia.
  change (2 ^ 3) with 8. pose proof (Z.div_mod (n + 7) 8). pose proof (Z.mod_pos_bound (n + 7) 8).
  apply i64_small. width.
Qed.

(** The value of a table of masks, bit by bit. *)
Lemma preceding_mask k :
  0 <= k < 8 → ∃ m, znth _ArrowkPrecedingBitmask k = Some m ∧ byte_ok m ∧
    ∀ j, 0 <= j < 8 → Z.testbit m j = (j <? k).
Proof.
  revert k. apply bit_cases; (eexists; split; [reflexivity|split; [by vm_compute|]]);
    by apply bit_cases.
Qed.
Lemma trailing_mask k :
  0 <= k < 8 → ∃ m, znth _ArrowkTrailingBitmask k = Some m ∧ byte_ok m ∧
    ∀ j, 0 <= j < 8 → Z.testbit m j = (k <=? j).
Proof.
  revert k. apply bit_cases; (eexists; split; [reflexivity|split; [by vm_compute|]]);
    by apply bit_cases.
Qed.
Lemma bit_mask k :
  0 <= k < 8 → ∃ m, znth _ArrowkBitmask k = Some m ∧ byte_ok m ∧
    ∀ j, 0 <= j < 8 → Z.testbit m j = (j =? k).
Proof.
  revert k. apply bit_cases; (eexists; split; [reflexivity|split; [by vm_compute|]]);
    by apply bit_cases.
Qed.
Lemma flipped_mask k :
  0 <= k < 8 → ∃ m, znth _ArrowkFlippedBitmask k = Some m ∧ byte_ok m ∧
    ∀ j, 0 <= j < 8 → Z.testbit m j = negb (j =? k).
Proof.
  revert k. apply bit_cases; (eexists; split; [reflexivity|split; [by vm_compute|]]);
    by apply bit_cases.
Qed.
Lemma fill_byte_bits (v : bool) j :
  0 <= j < 8 → Z.testbit (u8 (- Z.b2z v)) j = v.
Proof. revert j. destruct v; by apply bit_cases. Qed.
Lemma u8_testbit z j : 0 <= j < 8 → Z.testbit (u8 z) j = Z.testbit z j.
Proof. intros. unfold u8, uwrap. apply Z.mod_pow2_bits_low. lia. Qed.

(** ** Effect of the writers on the bits *)
Lemma bitf_insert bits i x j :
  0 <= i < zlen bits → 0 <= j →
  bitf (<[Z.to_nat i := x]> bits) j =
    if j / 8 =? i then Z.testbit x (j mod 8) else bitf bits j.
Proof.
  intros Hi Hj. unfold bitf. assert (0 <= j / 8) by (apply Z.div_pos; lia).
  rewrite znth_insert by lia. by destruct (j / 8 =? i).
Qed.
Lemma bytes_ok_znth bits i b : bytes_ok bits → znth bits i = Some b → byte_ok b.
Proof.
  intros Hok Hi. apply znth_Some in Hi as Hr. rewrite znth_lookup in Hi by lia.
  by eapply (Forall_lookup_1 byte_ok).
Qed.

(** [sets bits bits' P v]: exactly the positions in [P] have been set to [v]. *)
Definition sets (bits bits' : list Z) (P : Z → bool) (v : bool) : Prop :=
  zlen bits' = zlen bits ∧ bytes_ok bits' ∧
  ∀ j, 0 <= j → bitf bits' j = if P j then v else bitf bits j.

Lemma sets_comp bits bits1 bits2 P1 P2 v :
  sets bits bits1 P1 v → sets bits1 bits2 P2 v → sets bits bits2 (λ j, P1 j || P2 j) v.
Proof.
  intros (Hl1 & Hb1 & H1) (Hl2 & Hb2 & H2). unfold sets. split_and!; [lia|done|].
  intros j Hj. rewrite H2, H1 by done. by destruct (P1 j), (P2 j).
Qed.
Lemma sets_ext bits bits' P P' v :
  sets bits bits' P v → (∀ j, 0 <= j → P j = P' j) → sets bits bits' P' v.
Proof. intros (? & ? & H) HP. unfold sets. split_and!; try done. intros. by rewrite H, HP. Qed.
Lemma sets_id bits v : bytes_ok bits → sets bits bits (λ _, false) v.
Proof. intros. unfold sets. by split_and!. Qed.

Lemma mask_byte_sets bits i mask v :
  bytes_ok bits → 0 <= i < zlen bits → byte_ok mask →
  ∃ bits', mask_byte bits i mask (u8 (- Z.b2z v)) = Some bits' ∧
    sets bits bits' (λ j, (j / 8 =? i) && negb (Z.testbit mask (j mod 8))) v.
Proof.
  intros Hok Hi Hm. unfold mask_byte. destruct (znth_in bits i Hi) as [b Hb].
  rewrite Hb. cbn [mbind option_bind]. rewrite zset_in by done.
  assert (byte_ok b) by (by eapply bytes_ok_znth).
  eexists. split; [done|]. unfold sets. split_and!.
  - apply zlen_insert.
  - apply Forall_insert; [done|]. apply byte_ok_lor; [|apply byte_ok_u8].
    apply byte_ok_land; [done|]. unfold byte_ok in Hm. lia.
  - intros j Hj. rewrite bitf_insert by done. destruct (Z.eqb_spec (j / 8) i) as [<-|]; [|done].
    assert (0 <= j mod 8 < 8) by (apply Z.mod_pos_bound; lia). simpl.
    rewrite Z.lor_spec, Z.land_spec, u8_testbit, Z.land_spec, fill_byte_bits by done.
    rewrite Z.lnot_spec by lia. unfold bitf. rewrite Hb. simpl.
    by destruct (Z.testbit mask (j mod 8)), v, (Z.testbit b (j mod 8)).
Qed.

Lemma fill_bytes_sets bits i n v :
  bytes_ok bits → 0 <= i → 0 <= n → i + n <= zlen bits →
  ∃ bits', zwrite bits i (replicate (Z.to_nat n) (u8 (- Z.b2z v))) = Some bits' ∧
    sets bits bits' (λ j, (i <=? j / 8) && (j / 8 <? i + n)) v.
Proof.
  intros Hok Hi Hn Hlen. rewrite zwrite_in; [|done|rewrite zlen_replicate by lia; lia].
  eexists. split; [done|]. rewrite length_replicate. unfold sets. split_and!.
  - unfold zlen in *. rewrite !length_app, length_take, length_replicate, length_drop. lia.
  - apply Forall_app; split; [by apply Forall_take|].
    apply Forall_app; split; [|by apply Forall_drop]. apply Forall_replicate, byte_ok_u8.
  - intros j Hj. unfold bitf.
    assert (0 <= j / 8) by (apply Z.div_pos; lia).
    assert (0 <= j mod 8 < 8) by (apply Z.mod_pos_bound; lia).
    rewrite znth_app, zlen_take by lia.
    destruct (Z.ltb_spec (j / 8) i) as [Hlt|Hge].
    { rewrite znth_take by lia. destruct (Z.leb_spec i (j / 8)); [lia|done]. }
    destruct (Z.leb_spec i (j / 8)); [|lia]. simpl.
    rewrite znth_app, zlen_replicate by lia.
    destruct (Z.ltb_spec (j / 8 - i) n), (Z.ltb_spec (j / 8) (i + n)); try lia.
    + rewrite znth_replicate by lia. by apply fill_byte_bits.
    + replace (Z.to_nat i + Z.to_nat n)%nat with (Z.to_nat (i + n)) by lia.
      rewrite znth_drop by lia. do 3 f_equal. lia.
Qed.

(** The [memset] over the whole bytes between byte [i] and byte [j]. *)
Lemma middle_bytes_sets bits i j v :
  bytes_ok bits → 0 <= i → i < j → j <= zlen bits →
  ∃ bits', (if 2 <? j + 1 - i
            then zwrite bits (i + 1) (replicate (Z.to_nat (j + 1 - i - 2)) (u8 (- Z.b2z v)))
            else Some bits) = Some bits' ∧
    sets bits bits' (λ k, (i + 1 <=? k / 8) && (k / 8 <? j)) v.
Proof.
  intros Hok Hi Hij Hj. destruct (Z.ltb_spec 2 (j + 1 - i)).
  - destruct (fill_bytes_sets bits (i + 1) (j + 1 - i - 2) v Hok) as (bits' & -> & Hb); [lia..|].
    exists bits'. split; [done|]. eapply sets_ext; [done|]. intros k Hk. simpl. do 2 f_equal. lia.
  - exists bits. split; [done|]. eapply sets_ext; [by apply sets_id|]. intros k Hk. simpl.
    destruct (Z.leb_spec (i + 1) (k / 8)), (Z.ltb_spec (k / 8) j); simpl; done || lia.
Qed.

(** [ArrowBitsSetTo] on a non-empty range inside the array. *)
Lemma ArrowBitsSetTo_sets bits start len v :
  bytes_ok bits → 0 <= start → 0 < len → start + len <= 8 * zlen bits →
  ∃ bits', ArrowBitsSetTo bits start len (Z.b2z v) = Some bits' ∧
    sets bits bits' (λ j, (start <=? j) && (j <? start + len)) v.
Proof.
  intros Hok Hs Hl Hlen. unfold ArrowBitsSetTo.
  set (e := start + len) in *.
  rewrite !Z.quot_div_nonneg, !Z.rem_mod_nonneg by lia.
  assert (0 <= start mod 8 < 8) as Hsm by (apply Z.mod_pos_bound; lia).
  assert (0 <= e mod 8 < 8) as Hem by (apply Z.mod_pos_bound; lia).
  assert (start / 8 <= e / 8) by (apply Z.div_le_mono; lia).
  destruct (preceding_mask _ Hsm) as (fm & -> & Hfm & Hfmb).
  destruct (trailing_mask _ Hem) as (lm & -> & Hlm & Hlmb). cbn [mbind option_bind].
  assert (∀ j, 0 <= j → 0 <= j mod 8 < 8) as Hj8 by (intros; apply Z.mod_pos_bound; lia).
  pose proof (Z.div_mod start 8) as Ds. pose proof (Z.div_mod e 8) as De.
  assert (∀ j : Z, j = 8 * (j / 8) + j mod 8) as Dj by (intros; apply Z.div_mod; lia).
  destruct (Z.eqb_spec (e / 8 + 1) (start / 8 + 1)) as [Hone|Hmany].
  - (* within one byte *)
    destruct (Z.eqb_spec (e mod 8) 0) as [|Hem0]; [lia|].
    destruct (mask_byte_sets bits (start / 8) (Z.lor fm lm) v Hok) as (bits' & -> & Hb');
      [lia|by apply byte_ok_lor|].
    exists bits'. split; [done|]. eapply sets_ext; [done|]. intros j Hj. simpl.
    specialize (Hj8 j Hj). specialize (Dj j).
    rewrite Z.lor_spec, Hfmb, Hlmb by done.
    destruct (Z.eqb_spec (j / 8) (start / 8)), (Z.ltb_spec (j mod 8) (start mod 8)),
      (Z.leb_spec (e mod 8) (j mod 8)), (Z.leb_spec start j), (Z.ltb_spec j e); simpl; done || lia.
  - (* several bytes *)
    destruct (mask_byte_sets bits (start / 8) fm v Hok) as (bits1 & -> & Hb1); [lia|done|].
    cbn [mbind option_bind].
    destruct (middle_bytes_sets bits1 (start / 8) (e / 8) v) as (bits2 & -> & Hb2);
      [apply Hb1|lia|lia|destruct Hb1; lia|].
    pose proof (sets_comp _ _ _ _ _ _ Hb1 Hb2) as Hb12. cbn [mbind option_bind].
    destruct (Z.eqb_spec (e mod 8) 0) as [Hem0|Hem0].
    + exists bits2. split; [done|]. eapply sets_ext; [done|]. intros j Hj. simpl.
      specialize (Hj8 j Hj). specialize (Dj j). rewrite Hfmb by done.
      destruct (Z.eqb_spec (j / 8) (start / 8)), (Z.ltb_spec (j mod 8) (start mod 8)),
        (Z.leb_spec (start / 8 + 1) (j / 8)), (Z.ltb_spec (j / 8) (e / 8)),
        (Z.leb_spec start j), (Z.ltb_spec j e); simpl; done || lia.
    + destruct Hb12 as (Hl2 & Hok2 & Hb12').
      destruct (mask_byte_sets bits2 (e / 8 + 1 - 1) lm v Hok2) as (bits3 & -> & Hb3); [lia|done|].
      exists bits3. split; [done|].
      eapply sets_ext; [eapply sets_comp; [exact (conj Hl2 (conj Hok2 Hb12'))|exact Hb3]|]. intros j Hj. simpl.
      specialize (Hj8 j Hj). specialize (Dj j). rewrite Hfmb, Hlmb by done.
      destruct (Z.eqb_spec (j / 8) (start / 8)), (Z.ltb_spec (j mod 8) (start mod 8)),
        (Z.leb_spec (start / 8 + 1) (j / 8)), (Z.ltb_spec (j / 8) (e / 8)),
        (Z.eqb_spec (j / 8) (e / 8 + 1 - 1)), (Z.leb_spec (e mod 8) (j mod 8)),
        (Z.leb_spec start j), (Z.ltb_spec j e); simpl; done || lia.
Qed.

(** ** Reading bits *)
Lemma land_1_b2z z k : 0 <= k → Z.land (Z.shiftr z k) 1 = Z.b2z (Z.testbit z k).
Proof.
  intros. change 1 with (Z.ones 1) at 1. rewrite Z.land_ones by lia.
  rewrite Z.shiftr_div_pow2, Z.testbit_spec' by lia. done.
Qed.
Lemma shiftr_3 i : Z.shiftr i 3 = i / 8.
Proof. by rewrite Z.shiftr_div_pow2. Qed.
Lemma land_7 i : Z.land i 7 = i mod 8.
Proof. change 7 with (Z.ones 3). by rewrite Z.land_ones. Qed.
Lemma byte_index i n : 0 <= i < 8 * n → 0 <= i / 8 < n.
Proof. intros. split; [apply Z.div_pos; lia|apply Z.div_lt_upper_bound; lia]. Qed.

Lemma ArrowBitGet_bitf bits i :
  0 <= i < 8 * zlen bits → ArrowBitGet bits i = Some (Z.b2z (bitf bits i)).
Proof.
  intros Hi. unfold ArrowBitGet, bitf. rewrite shiftr_3, land_7.
  destruct (znth_in bits (i / 8)) as [b ->]; [by apply byte_index|]. simpl.
  rewrite land_1_b2z by (apply Z.mod_pos_bound; lia). done.
Qed.
Lemma ArrowBitGet_Some bits i v : ArrowBitGet bits i = Some v → 0 <= i < 8 * zlen bits.
Proof.
  unfold ArrowBitGet. rewrite shiftr_3. destruct (znth bits (i / 8)) eqn:E; [|done].
  intros _. apply znth_Some in E. pose proof (Z.div_mod i 8). pose proof (Z.mod_pos_bound i 8). lia.
Qed.

Lemma ArrowBitSetTo_sets bits i x :
  bytes_ok bits → 0 <= i < 8 * zlen bits →
  ∃ bits', ArrowBitSetTo bits i x = Some bits' ∧
    sets bits bits' (λ j, j =? i) (negb (x =? 0)).
Proof.
  intros Hok Hi. unfold ArrowBitSetTo. rewrite !Z.quot_div_nonneg, !Z.rem_mod_nonneg by lia.
  apply byte_index in Hi as Hi8. assert (0 <= i mod 8 < 8) as Him by (apply Z.mod_pos_bound; lia).
  destruct (znth_in bits (i / 8)) as [b Hb]; [done|]. rewrite Hb.
  destruct (bit_mask _ Him) as (m & -> & Hm & Hmb). cbn [mbind option_bind].
  rewrite zset_in by done. assert (byte_ok b) by (by eapply bytes_ok_znth).
  eexists. split; [done|]. unfold sets. split_and!.
  - apply zlen_insert.
  - apply Forall_insert; [done|]. apply byte_ok_lxor; [done|].
    apply byte_ok_land; [apply byte_ok_u8|]. unfold byte_ok in Hm. lia.
  - intros j Hj. rewrite bitf_insert by done. assert (0 <= j mod 8 < 8) by (apply Z.mod_pos_bound; lia).
    pose proof (Z.div_mod j 8). pose proof (Z.div_mod i 8).
    destruct (Z.eqb_spec (j / 8) (i / 8)) as [Hji|].
    2:{ destruct (Z.eqb_spec j i); [congruence|done]. }
    rewrite Z.lxor_spec, Z.land_spec, u8_testbit, Z.lxor_spec, Hmb by done.
    unfold bitf. rewrite Hji, Hb. simpl.
    destruct (Z.eqb_spec j i), (Z.eqb_spec (j mod 8) (i mod 8)); try lia.
    + destruct (x =? 0).
      * rewrite Z.opp_0, Z.testbit_0_l. by destruct (Z.testbit b (j mod 8)).
      * change (- (1)) with (-1). rewrite Z.bits_m1 by lia. by destruct (Z.testbit b (j mod 8)).
    + by rewrite andb_false_r, xorb_false_r.
Qed.

(** ** Counting bits *)
Lemma sum_bits_ext f g s n :
  (∀ j, s <= j < s + Z.of_nat n → f j = g j) → sum_bits f s n = sum_bits g s n.
Proof.
  revert s. induction n as [|n IH]; intros s H; [done|]. simpl. f_equal.
  - by rewrite H by lia.
  - apply IH. intros. apply H. lia.
Qed.
Lemma sum_bits_app f s n m :
  sum_bits f s (n + m) = sum_bits f s n + sum_bits f (s + Z.of_nat n) m.
Proof.
  revert s. induction n as [|n IH]; intros s; simpl.
  - by rewrite Z.add_0_r.
  - rewrite IH. replace (s + 1 + Z.of_nat n) with (s + Z.of_nat (S n)) by lia. lia.
Qed.
Lemma sum_bits_zero f s n : (∀ j, s <= j < s + Z.of_nat n → f j = false) → sum_bits f s n = 0.
Proof.
  revert s. induction n as [|n IH]; intros s H; [done|]. simpl.
  rewrite H by lia. rewrite IH; [done|]. intros. apply H. lia.
Qed.
Lemma sum_bits_shift f g s d n :
  (∀ j, s <= j < s + Z.of_nat n → g (d + j) = f j) → sum_bits g (d + s) n = sum_bits f s n.
Proof.
  revert s. induction n as [|n IH]; intros s H; [done|]. simpl. rewrite H by lia. f_equal.
  rewrite <-Z.add_assoc. apply IH. intros. apply H. lia.
Qed.
(** A sum over a window of the byte, the rest masked out. *)
Lemma sum_bits_window f lo hi :
  0 <= lo <= hi → hi <= 8 →
  sum_bits (λ j, f j && ((lo <=? j) && (j <? hi))) 0 8 = sum_bits f lo (Z.to_nat (hi - lo)).
Proof.
  intros Hlo Hhi.
  replace 8%nat with (Z.to_nat lo + (Z.to_nat (hi - lo) + Z.to_nat (8 - hi)))%nat by lia.
  set (F := λ j, f j && ((lo <=? j) && (j <? hi))). rewrite !sum_bits_app, !Z2Nat.id by lia.
  rewrite (sum_bits_zero F 0), (sum_bits_zero F (0 + lo + (hi - lo))); unfold F.
  - rewrite Z.add_0_r, !Z.add_0_l. apply sum_bits_ext. intros j Hj.
    destruct (Z.leb_spec lo j), (Z.ltb_spec j hi); try lia. by rewrite !andb_true_r.
  - intros j Hj. destruct (Z.ltb_spec j hi); [lia|]. by rewrite !andb_false_r.
  - intros j Hj. destruct (Z.leb_spec lo j); [lia|]. by rewrite !andb_false_r.
Qed.

Lemma popcount_table :
  forallb (λ b, bool_decide (popcount b = Some (sum_bits (Z.testbit b) 0 8))) (zseq 256) = true.
Proof. by vm_compute. Qed.
Lemma popcount_spec b : byte_ok b → popcount b = Some (sum_bits (Z.testbit b) 0 8).
Proof.
  intros Hb. pose proof popcount_table as Ht. rewrite forallb_forall in Ht.
  specialize (Ht b). rewrite bool_decide_eq_true in Ht. apply Ht.
  apply list_elem_of_In, elem_of_zseq. apply Hb.
Qed.
(** The number of set bits of a byte in a window given by a mask. *)
Lemma popcount_masked bits i b m lo hi :
  bytes_ok bits → znth bits i = Some b → 0 <= lo <= hi → hi <= 8 → byte_ok (Z.land b m) →
  (∀ j, 0 <= j < 8 → Z.testbit m j = (lo <=? j) && (j <? hi)) →
  popcount (Z.land b m) = Some (sum_bits (bitf bits) (8 * i + lo) (Z.to_nat (hi - lo))).
Proof.
  intros Hok Hb Hlo Hhi Hbm Hm. apply znth_Some in Hb as Hi.
  rewrite popcount_spec by done. f_equal.
  rewrite (sum_bits_shift (Z.testbit b)).
  - rewrite <-sum_bits_window by done. apply sum_bits_ext. intros j Hj.
    by rewrite Z.land_spec, Hm by lia.
  - intros j Hj. unfold bitf.
    rewrite <-(Z.div_unique (8 * i + j) 8 i j), <-(Z.mod_unique (8 * i + j) 8 i j) by lia.
    by rewrite Hb.
Qed.
Lemma popcount_bytes_spec bits s n c :
  bytes_ok bits → 0 <= s → 0 <= n → s + n <= zlen bits →
  popcount_bytes bits (Z.add s <$> zseq n) c =
    Some (c + sum_bits (bitf bits) (8 * s) (Z.to_nat (8 * n))).
Proof.
  intros Hok Hs Hn Hlen.
  enough (∀ (k : nat) s c, 0 <= s → s + Z.of_nat k <= zlen bits →
    popcount_bytes bits (Z.add s <$> (Z.of_nat <$> seq 0 k)) c =
      Some (c + sum_bits (bitf bits) (8 * s) (8 * k))) as H.
  { unfold zseq. rewrite H by lia. do 3 f_equal. lia. }
  clear s n c Hs Hn Hlen. induction k as [|k IH]; intros s c Hs Hlen.
  { simpl. by rewrite Z.add_0_r. }
  change (seq 0 (S k)) with (0%nat :: seq 1 k). rewrite <-fmap_S_seq, !fmap_cons.
  cbn [popcount_bytes]. change (Z.of_nat 0) with 0. rewrite Z.add_0_r.
  destruct (znth_in bits s) as [b Hb]; [lia|]. rewrite Hb. cbn [mbind option_bind].
  assert (byte_ok b) by (by eapply bytes_ok_znth).
  assert (Z.land b 255 = b) as Hb255.
  { apply byte_ext; [apply byte_ok_land; [done|lia]|done|].
    intros j Hj. rewrite Z.land_spec. assert (Z.testbit 255 j = true) as -> by (revert j Hj; by apply bit_cases).
    by rewrite andb_true_r. }
  assert (popcount b = Some (sum_bits (bitf bits) (8 * s + 0) (Z.to_nat (8 - 0)))) as ->.
  { rewrite <-Hb255. apply (popcount_masked bits s b 255); [done|done|lia|lia|by rewrite Hb255|].
    by apply bit_cases. }
  cbn [mbind option_bind].
  assert (Z.add s <$> (Z.of_nat <$> (S <$> seq 0 k)) = Z.add (s + 1) <$> (Z.of_nat <$> seq 0 k)) as ->.
  { rewrite <-!list_fmap_compose. apply list_fmap_ext. intros ? x _. simpl. lia. }
  rewrite IH by lia. f_equal.
  replace (8 * S k)%nat with (Z.to_nat (8 - 0) + 8 * k)%nat by lia.
  rewrite sum_bits_app, Z.add_0_r, Z.add_assoc. do 2 f_equal. lia.
Qed.

Lemma lnot_mask m j : 0 <= j → Z.testbit (Z.lnot m) j = negb (Z.testbit m j).
Proof. intros. by apply Z.lnot_spec. Qed.
Lemma byte_ok_land_lnot b m : byte_ok b → byte_ok (Z.land b (Z.lnot m)).
Proof.
  intros Hb. apply byte_ok_bits.
  - intros i Hi. by rewrite Z.land_spec, byte_testbit_high.
  - apply Z.land_nonneg. left. apply Hb.
Qed.
(** A non-empty range that starts in byte [bs] and ends in byte [bl]. *)
Lemma range_bytes start len n :
  0 <= start → 0 < len → start + len <= 8 * n →
  start / 8 <= (start + len - 1) / 8 < n ∧ 0 <= start / 8 ∧
  0 <= start mod 8 < 8 ∧ 0 <= (start + len) mod 8 < 8 ∧
  start = 8 * (start / 8) + start mod 8 ∧
  (if (start + len) mod 8 =? 0
   then start + len = 8 * ((start + len - 1) / 8) + 8
   else start + len = 8 * ((start + len - 1) / 8) + (start + len) mod 8).
Proof.
  intros. split_and!; try (apply Z.mod_pos_bound; lia); try (apply Z.div_pos; lia).
  - apply Z.div_le_mono; lia.
  - apply Z.div_lt_upper_bound; lia.
  - apply Z.div_mod. lia.
  - pose proof (Z.div_mod (start + len) 8). pose proof (Z.mod_pos_bound (start + len) 8).
    destruct (Z.eqb_spec ((start + len) mod 8) 0) as [He|He].
    + rewrite <-(Z.div_unique (start + len - 1) 8 ((start + len) / 8 - 1) 7); lia.
    + rewrite <-(Z.div_unique (start + len - 1) 8 ((start + len) / 8) ((start + len) mod 8 - 1)); lia.
Qed.

(** The mask of the last byte of a range that ends before bit [e] of it. *)
Lemma last_mask e :
  0 <= e < 8 →
  ∃ lm, (if e =? 0 then Some 0 else znth _ArrowkTrailingBitmask e) = Some lm ∧
    ∀ j, 0 <= j < 8 → Z.testbit (Z.lnot lm) j = (0 <=? j) && (j <? if e =? 0 then 8 else e).
Proof.
  intros He. destruct (trailing_mask _ He) as (tm & Htm & _ & Btm). destruct (Z.eqb_spec e 0).
  - exists 0. split; [done|]. intros j Hj. rewrite lnot_mask, Z.testbit_0_l by lia.
    destruct (Z.leb_spec 0 j), (Z.ltb_spec j 8); done || lia.
  - exists tm. split; [done|]. intros j Hj. rewrite lnot_mask, Btm by lia.
    destruct (Z.leb_spec 0 j), (Z.ltb_spec j e), (Z.leb_spec e j); done || lia.
Qed.

Lemma ArrowBitCountSet_sum bits start len :
  bytes_ok bits → 0 <= start → 0 <= len → start + len <= 8 * zlen bits →
  ArrowBitCountSet bits start len = Some (sum_bits (bitf bits) start (Z.to_nat len)).
Proof.
  intros Hok Hs Hl Hlen. unfold ArrowBitCountSet.
  destruct (Z.eqb_spec len 0) as [->|Hne]; [done|].
  destruct (range_bytes start len (zlen bits)) as (Hbb & Hb0 & Hsm & Hem & Ds & De); [lia..|].
  rewrite !Z.quot_div_nonneg, !Z.rem_mod_nonneg by lia.
  set (e := start + len) in *. set (bs := start / 8) in *. set (bl := (e - 1) / 8) in *.
  destruct (preceding_mask _ Hsm) as (pms & Hpms & ? & Bpms).
  destruct (trailing_mask _ Hsm) as (tms & Htms & Oktms & Btms).
  destruct (preceding_mask _ Hem) as (pme & Hpme & Okpme & Bpme).
  destruct (znth_in bits bs) as [b1 Hb1]; [lia|]. destruct (znth_in bits bl) as [b2 Hb2]; [lia|].
  assert (byte_ok b1) by (by eapply bytes_ok_znth). assert (byte_ok b2) by (by eapply bytes_ok_znth).
  destruct (Z.eqb_spec bs bl) as [Hbb1|Hbb1].
  - rewrite Hpme, Htms, Hb1. cbn [mbind option_bind].
    set (hi := if e mod 8 =? 0 then 8 else e mod 8).
    rewrite (popcount_masked bits bs b1 _ (start mod 8) hi); subst hi; try done.
    + f_equal. destruct (Z.eqb_spec (e mod 8) 0); f_equal; lia.
    + destruct (Z.eqb_spec (e mod 8) 0); lia.
    + destruct (Z.eqb_spec (e mod 8) 0); lia.
    + apply byte_ok_land; [done|]. unfold byte_ok in *.
      destruct (Z.eqb_spec (e mod 8) 0); [lia|]. apply Z.land_nonneg. lia.
    + intros j Hj. destruct (Z.eqb_spec (e mod 8) 0).
      * rewrite Btms by done. destruct (Z.ltb_spec j 8); [|lia]. by rewrite andb_true_r.
      * rewrite Z.land_spec, Bpme, Btms by done. apply andb_comm.
  - rewrite Hpms, Hb1. cbn [mbind option_bind].
    destruct (last_mask _ Hem) as (lm & -> & Blm). cbn [mbind option_bind].
    rewrite (popcount_masked bits bs b1 _ (start mod 8) 8); try done; try lia;
      [|by apply byte_ok_land_lnot|].
    2:{ intros j Hj. rewrite lnot_mask, Bpms by lia.
        destruct (Z.leb_spec (start mod 8) j), (Z.ltb_spec j (start mod 8)), (Z.ltb_spec j 8); done || lia. }
    cbn [mbind option_bind]. rewrite popcount_bytes_spec by (done || lia). cbn [mbind option_bind].
    rewrite Hb2. cbn [mbind option_bind].
    rewrite (popcount_masked bits bl b2 _ 0 (if e mod 8 =? 0 then 8 else e mod 8)); try done;
      [|destruct (Z.eqb_spec (e mod 8) 0); lia..|by apply byte_ok_land_lnot].
    cbn [mbind option_bind]. f_equal.
    set (hi := if e mod 8 =? 0 then 8 else e mod 8) in *.
    assert (Z.to_nat len = Z.to_nat (8 - start mod 8) +
      (Z.to_nat (8 * (bl - (bs + 1))) + Z.to_nat (hi - 0)))%nat as ->.
    { subst hi. destruct (Z.eqb_spec (e mod 8) 0); lia. }
    rewrite !sum_bits_app, !Z2Nat.id by lia. rewrite Z.add_assoc.
    assert (8 * bs + start mod 8 = start) as -> by lia.
    assert (8 * (bs + 1) = start + (8 - start mod 8)) as -> by lia.
    do 2 f_equal. lia.
Qed.

(** ** Unpacking *)
Lemma mapM_Some_fmap {A B} (f : A → option B) (g : A → B) (l : list A) :
  (∀ x, x ∈ l → f x = Some (g x)) → mapM f l = Some (g <$> l).
Proof.
  induction l as [|x l IH]; intros H; [done|]. rewrite fmap_cons. simpl.
  rewrite H by (by left). simpl. rewrite IH; [done|]. intros. apply H. by right.
Qed.
Definition unpacked (bits : list Z) (start n : Z) : list Z :=
  (λ k, Z.b2z (bitf bits (start + k))) <$> zseq n.
Lemma zseq_app n m : 0 <= n → 0 <= m → zseq (n + m) = zseq n ++ (Z.add n <$> zseq m).
Proof.
  intros. unfold zseq. rewrite Z2Nat.inj_add, seq_app, fmap_app by lia. f_equal.
  rewrite Nat.add_0_l, <-(Nat.add_0_r (Z.to_nat n)), <-fmap_add_seq.
  rewrite <-!list_fmap_compose. apply list_fmap_ext. intros ? x _. simpl. lia.
Qed.
Lemma unpacked_app bits s n m :
  0 <= n → 0 <= m → unpacked bits s (n + m) = unpacked bits s n ++ unpacked bits (s + n) m.
Proof.
  intros. unfold unpacked. rewrite zseq_app, fmap_app by done. f_equal.
  rewrite <-list_fmap_compose. apply list_fmap_ext. intros ? x _. simpl. do 2 f_equal. lia.
Qed.
(** One byte's share of the output, read through a pointer to that byte. *)
Lemma unpack_in_byte bits i lo n :
  0 <= i < zlen bits → 0 <= lo → lo + n <= 8 →
  mapM (λ k, ArrowBitGet (drop (Z.to_nat i) bits) (k + lo)) (zseq n) =
    Some (unpacked bits (8 * i + lo) n).
Proof.
  intros Hi Hlo Hn. apply mapM_Some_fmap. intros k Hk%elem_of_zseq.
  rewrite ArrowBitGet_bitf by (rewrite zlen_drop by lia; lia). do 2 f_equal. unfold bitf.
  rewrite (Z.div_small (k + lo)), (Z.mod_small (k + lo)) by lia. rewrite znth_drop by lia.
  rewrite <-(Z.div_unique (8 * i + lo + k) 8 i (lo + k)), <-(Z.mod_unique (8 * i + lo + k) 8 i (lo + k)) by lia.
  by rewrite Z.add_0_r, Z.add_comm.
Qed.
Lemma unpack_middle bits s n :
  0 <= s → 0 <= n → s + n <= zlen bits →
  ∃ out, mapM (λ i, _ArrowBitsUnpackInt8 <$> znth bits i) (Z.add s <$> zseq n) = Some out ∧
    concat out = unpacked bits (8 * s) (8 * n).
Proof.
  intros Hs Hn Hlen.
  eexists. split.
  { apply mapM_Some_fmap with (g := λ i, unpacked bits (8 * i) 8). intros i (k & -> & Hk%elem_of_zseq)%list_elem_of_fmap.
    destruct (znth_in bits (s + k)) as [b Hb]; [lia|]. rewrite Hb. simpl. f_equal.
    unfold unpacked, _ArrowBitsUnpackInt8.
    change (zseq 8) with [0; 1; 2; 3; 4; 5; 6; 7]. apply list_fmap_ext. intros p j Hp.
    assert (0 <= j < 8) by (apply (elem_of_zseq 8), list_elem_of_lookup; by exists p).
    rewrite land_1_b2z by lia. unfold bitf.
    rewrite <-(Z.div_unique (8 * (s + k) + j) 8 (s + k) j), <-(Z.mod_unique (8 * (s + k) + j) 8 (s + k) j) by lia.
    by rewrite Hb. }
  rewrite <-list_fmap_compose. clear Hlen. unfold zseq.
  assert (∃ m : nat, n = Z.of_nat m) as [m ->] by (exists (Z.to_nat n); lia).
  rewrite Nat2Z.id. clear Hn. induction m as [|m IH]; [done|].
  replace (S m) with (m + 1)%nat by lia. rewrite seq_app, !fmap_app, concat_app, IH.
  replace (8 * Z.of_nat (m + 1)) with (8 * Z.of_nat m + 8) by lia.
  rewrite unpacked_app by lia. f_equal.
  change (seq (0 + m) 1) with [m]. rewrite !fmap_cons, !fmap_nil. unfold compose. cbn [concat].
  rewrite app_nil_r. by replace (8 * s + 8 * Z.of_nat m) with (8 * (s + Z.of_nat m)) by lia.
Qed.

Lemma unpack_bits_spec bits start len :
  0 <= start → 0 <= len → start + len <= 8 * zlen bits →
  unpack_bits _ArrowBitsUnpackInt8 bits start len = Some (unpacked bits start len).
Proof.
  intros Hs Hl Hlen. unfold unpack_bits. destruct (Z.eqb_spec len 0) as [->|Hne]; [done|].
  destruct (range_bytes start len (zlen bits)) as (Hbb & Hb0 & Hsm & Hem & Ds & De); [lia..|].
  rewrite !Z.quot_div_nonneg, !Z.rem_mod_nonneg by lia.
  set (e := start + len) in *. set (bs := start / 8) in *. set (bl := (e - 1) / 8) in *.
  assert (0 < (if e mod 8 =? 0 then 8 else e mod 8) <= 8) as Hhi
    by (destruct (Z.eqb_spec (e mod 8) 0); lia).
  assert (e = 8 * bl + (if e mod 8 =? 0 then 8 else e mod 8)) as De'
    by (by destruct (Z.eqb_spec (e mod 8) 0)).
  set (hi := if e mod 8 =? 0 then 8 else e mod 8) in *. clearbody hi.
  destruct (Z.eqb_spec bs bl).
  - rewrite unpack_in_byte by lia. do 2 f_equal. lia.
  - rewrite (unpack_in_byte bits bs (start mod 8)) by lia. cbn [mbind option_bind].
    destruct (unpack_middle bits (bs + 1) (bl - (bs + 1))) as (out & -> & Hout); [lia..|].
    cbn [mbind option_bind].
    assert (mapM (λ i, ArrowBitGet (drop (Z.to_nat bl) bits) i) (zseq hi) =
      Some (unpacked bits (8 * bl + 0) hi)) as ->.
    { rewrite <-unpack_in_byte by lia. apply mapM_ext. intros i. by rewrite Z.add_0_r. }
    cbn [mbind option_bind]. rewrite Hout. f_equal.
    replace len with (8 - start mod 8 + (8 * (bl - (bs + 1)) + hi)) by lia.
    rewrite !unpacked_app by lia. rewrite <-Ds. do 2 f_equal; f_equal; lia.
Qed.

(** * Properties *)

(** C2: [ArrowBitsSetTo] on a non-empty range inside the array stays inside the
    array, keeps its size, sets every bit of the range to the given value and
    leaves every other bit of the array as it was. *)
Theorem bits_set_to_range (bits : list Z) (start len : Z) (v : bool) (Hok : bytes_ok bits)
    (Hstart : 0 <= start) (Hlen : 0 < len) (Hend : start + len <= 8 * zlen bits) :
  ∃ bits', ArrowBitsSetTo bits start len (Z.b2z v) = Some bits' ∧
    zlen bits' = zlen bits ∧ bytes_ok bits' ∧
    ∀ j, 0 <= j < 8 * zlen bits →
      bitf bits' j = (if (start <=? j) && (j <? start + len) then v else bitf bits j).
Proof.
  destruct (ArrowBitsSetTo_sets bits start len v) as (bits' & Hset & Hl & Hb & Hbits); try done.
  exists bits'. split_and!; try done. intros j Hj. apply Hbits. lia.
Qed.
Lemma bits_set_to_range_witness :
  ∃ bits', ArrowBitsSetTo [0; 0; 255] 5 13 (Z.b2z true) = Some bits' ∧
    zlen bits' = zlen [0; 0; 255] ∧ bytes_ok bits' ∧
    ∀ j, 0 <= j < 8 * zlen [0; 0; 255] →
      bitf bits' j = (if (5 <=? j) && (j <? 5 + 13) then true else bitf [0; 0; 255] j).
Proof.
  apply (bits_set_to_range [0; 0; 255] 5 13 true); [|by vm_compute..].
  repeat constructor; by vm_compute.
Defined.

(** Called with an empty range at a byte boundary, [ArrowBitsSetTo] does not
    leave the array alone: it overwrites the eight bits that follow the (empty)
    range. *)
Theorem bits_set_to_empty_range (bits : list Z) (start : Z) (v : bool) (Hok : bytes_ok bits)
    (Hstart : 0 <= start < 8 * zlen bits) (Hbyte : start mod 8 = 0) :
  ∃ bits', ArrowBitsSetTo bits start 0 (Z.b2z v) = Some bits' ∧
    ∀ j, 0 <= j < 8 * zlen bits →
      bitf bits' j = (if (start <=? j) && (j <? start + 8) then v else bitf bits j).
Proof.
  unfold ArrowBitsSetTo. rewrite Z.add_0_r.
  rewrite !Z.quot_div_nonneg, !Z.rem_mod_nonneg, Hbyte by lia. cbn [mbind option_bind].
  rewrite Z.eqb_refl. simpl.
  destruct (mask_byte_sets bits (start / 8) 0 v Hok) as (bits' & -> & Hl & Hb & Hbits);
    [by apply byte_index|by vm_compute|].
  exists bits'. split; [done|]. intros j Hj. rewrite Hbits, Z.testbit_0_l, andb_true_r by lia.
  pose proof (Z.div_mod j 8). pose proof (Z.mod_pos_bound j 8). pose proof (Z.div_mod start 8).
  destruct (Z.eqb_spec (j / 8) (start / 8)), (Z.leb_spec start j), (Z.ltb_spec j (start + 8));
    simpl; done || lia.
Qed.
Lemma bits_set_to_empty_range_witness :
  ∃ bits', ArrowBitsSetTo [0; 0] 8 0 (Z.b2z true) = Some bits' ∧
    ∀ j, 0 <= j < 8 * zlen [0; 0] →
      bitf bits' j = (if (8 <=? j) && (j <? 8 + 8) then true else bitf [0; 0] j).
Proof.
  apply (bits_set_to_empty_range [0; 0] 8 true); [|by vm_compute..].
  repeat constructor; by vm_compute.
Defined.

(** C4: [ArrowBitCountSet], which masks the two end bytes and looks the others up
    in a table, returns the number of set bits of the range, and reads no byte
    outside the array. *)
Theorem bit_count_set_correct (bits : list Z) (start len : Z) (Hok : bytes_ok bits)
    (Hstart : 0 <= start) (Hlen : 0 <= len) (Hend : start + len <= 8 * zlen bits) :
  ArrowBitCountSet bits start len = Some (sum_bits (bitf bits) start (Z.to_nat len)).
Proof. by apply ArrowBitCountSet_sum. Qed.
Lemma bit_count_set_correct_witness : ArrowBitCountSet [255; 15; 255] 6 15 = Some 11.
Proof.
  rewrite (bit_count_set_correct [255; 15; 255] 6 15); [by vm_compute| |by vm_compute..].
  repeat constructor; by vm_compute.
Defined.

(** C5: [ArrowBitsUnpackInt8] and [ArrowBitsUnpackInt32], which unpack whole bytes eight
    values at a time, write the bits of the range one value each, in order. *)
Theorem bits_unpack_correct (bits : list Z) (start len : Z)
    (Hstart : 0 <= start) (Hlen : 0 <= len) (Hend : start + len <= 8 * zlen bits) :
  ArrowBitsUnpackInt8 bits start len =
    Some ((λ k, Z.b2z (bitf bits (start + k))) <$> zseq len) ∧
  ArrowBitsUnpackInt32 bits start len =
    Some ((λ k, Z.b2z (bitf bits (start + k))) <$> zseq len).
Proof. split; by apply unpack_bits_spec. Qed.
Lemma bits_unpack_correct_witness :
  ArrowBitsUnpackInt8 [129; 1; 3] 7 11 = Some [1; 1; 0; 0; 0; 0; 0; 0; 0; 1; 1] ∧
  ArrowBitsUnpackInt32 [129; 1; 3] 7 11 = Some [1; 1; 0; 0; 0; 0; 0; 0; 0; 1; 1].
Proof.
  destruct (bits_unpack_correct [129; 1; 3] 7 11) as [H8 H32]; [by vm_compute..|].
  split; [rewrite H8|rewrite H32]; by vm_compute.
Defined.
