(* ===== verification/Bitmap.v ===== *)
(** * Growable bitmaps (nanoarrow.h, "Bitmap utilities")

    [ArrowBitmap]: an [ArrowBuffer] with a count of bits.  The abstract view of a
    bitmap is the list of its bits, [bitmap_bits]. *)

From stdpp Require Import base numbers list option.
From S2P Require Import Prelude CInt Buffer Bits.
#[local] Open Scope Z_scope.
#[local] Open Scope c_scope.

Record ArrowBitmap : Set := MkBitmap { buffer : ArrowBuffer; size_bits : Z }.

(** Run an operation on [bitmap->buffer]. *)
Definition on_buffer {A} (m : M ArrowBuffer A) : M ArrowBitmap A :=
  zoom buffer (λ b bm, MkBitmap b (size_bits bm)) m.
(** A loop over indices that may leave the array. *)
Fixpoint ofold {S} (f : Z → S → option S) (l : list Z) (s : S) : option S :=
  match l with
  | [] => Some s
  | i :: l' => s' ← f i s; ofold f l' s'
  end.

Section bitmap_ops.
Context `{!Libc}.

Definition ArrowBitmapInit : ArrowBitmap := MkBitmap ArrowBufferInit 0.

(** [ArrowBitmapMove(src, dst)]: (dst, src) afterwards. *)
Definition ArrowBitmapMove (src : ArrowBitmap) : ArrowBitmap * ArrowBitmap :=
  let '(dst_buffer, src_buffer) := ArrowBufferMove (buffer src) in
  (MkBitmap dst_buffer (size_bits src), MkBitmap src_buffer 0).

Definition ArrowBitmapReserve (additional_size_bits : Z) : M ArrowBitmap unit := λ bm,
  let min_capacity_bits := i64 (size_bits bm + additional_size_bits) in
  if min_capacity_bits <=? i64 (capacity_bytes (buffer bm) * 8) then Ok tt bm
  else
    on_buffer (
      ArrowBufferReserve (_ArrowBytesForBits additional_size_bits) ;;;
      let* cap := mget capacity_bytes in
      upd_data (λ d, zset d (cap - 1) 0)) bm.

Definition ArrowBitmapResize (new_capacity_bits : Z) (shrink_to_fit : bool) :
    M ArrowBitmap unit :=
  if new_capacity_bits <? 0 then mfail EINVAL
  else
    on_buffer (ArrowBufferResize (_ArrowBytesForBits new_capacity_bits) shrink_to_fit) ;;;
    mmod (λ bm, MkBitmap (buffer bm)
      (if new_capacity_bits <? size_bits bm then new_capacity_bits else size_bits bm)).

Definition ArrowBitmapAppendUnsafe (bits_are_set length : Z) : M ArrowBitmap unit := λ bm,
  (on_buffer (upd_data (λ d, ArrowBitsSetTo d (size_bits bm) length bits_are_set)) ;;;
   mmod (λ bm, MkBitmap (buffer bm) (i64 (size_bits bm + length))) ;;;
   let* n := mget size_bits in
   on_buffer (set_size_bytes (_ArrowBytesForBits n))) bm.

Definition ArrowBitmapAppend (bits_are_set length : Z) : M ArrowBitmap unit :=
  ArrowBitmapReserve length ;;;
  ArrowBitmapAppendUnsafe bits_are_set length.

(** [ArrowBitSetTo(data, out_i + i, values[off + i])] for [i < n]; the parameter is a
    [uint8_t], to which the [int8_t] or [int32_t] value is converted. *)
Definition set_each (values : list Z) (off out_i n : Z) (d : list Z) : option (list Z) :=
  ofold (λ i d, v ← znth values (off + i); ArrowBitSetTo d (out_i + i) (u8 v)) (zseq n) d.
(** [pack(values + off + 8 * i, data + out_c + i)] for [i < n] *)
Definition pack_each (pack : list Z → option Z) (values : list Z) (off out_c n : Z)
    (d : list Z) : option (list Z) :=
  ofold (λ i d, b ← pack (drop (Z.to_nat (off + 8 * i)) values); zset d (out_c + i) b)
    (zseq n) d.

(** "Middle bytes" and "Last byte": from value [off] on, at byte [out_c]. *)
Definition append_aligned (pack : list Z → option Z) (values : list Z)
    (off n_remaining out_i out_c : Z) (d : list Z) : option (list Z * Z) :=
  let n_full_bytes := Z.quot n_remaining 8 in
  d ← pack_each pack values off out_c n_full_bytes d;
  let off := off + 8 * (n_full_bytes `max` 0) in
  let out_c := out_c + n_full_bytes `max` 0 in
  let out_i := out_i + n_full_bytes * 8 in
  let n_remaining := n_remaining - n_full_bytes * 8 in
  if 0 <? n_remaining then
    d ← zset d out_c 0;
    d ← set_each values off out_i n_remaining d;
    Some (d, out_c + 1)
  else Some (d, out_c).

(** The body shared by the two functions below: the new bytes and the final
    position of [out_cursor] relative to [data]. *)
Definition append_values (pack : list Z → option Z) (values : list Z) (n_values size : Z)
    (d : list Z) : option (list Z * Z) :=
  if Z.rem size 8 =? 0 then append_aligned pack values 0 n_values size (Z.quot size 8) d
  else
    let n_partial_bits := _ArrowRoundUpToMultipleOf8 size - size in
    d ← set_each values 0 size n_partial_bits d;
    append_aligned pack values n_partial_bits (n_values - n_partial_bits)
      (size + n_partial_bits) (Z.quot size 8 + 1) d.

Definition append_values_unsafe (pack : list Z → option Z) (values : list Z) (n_values : Z) :
    M ArrowBitmap unit := λ bm,
  if n_values =? 0 then Ok tt bm
  else
    match data (buffer bm) with
    | None => UB
    | Some d =>
        match append_values pack values n_values (size_bits bm) d with
        | None => UB
        | Some (d', out_c) =>
            Ok tt (MkBitmap (MkBuffer (Some d') out_c (capacity_bytes (buffer bm))
                               (allocator (buffer bm)))
                     (size_bits bm + n_values))
        end
    end.
Definition ArrowBitmapAppendInt8Unsafe : list Z → Z → M ArrowBitmap unit :=
  append_values_unsafe _ArrowBitmapPackInt8.
Definition ArrowBitmapAppendInt32Unsafe : list Z → Z → M ArrowBitmap unit :=
  append_values_unsafe _ArrowBitmapPackInt32.

Definition ArrowBitmapReset (bm : ArrowBitmap) : ArrowBitmap :=
  MkBitmap (ArrowBufferReset (buffer bm)) 0.
End bitmap_ops.

(** ** The abstract view *)
Record bitmap_wf (bm : ArrowBitmap) : Prop := {
  bitmap_buffer : buffer_wf (buffer bm);
  bitmap_size : 0 <= size_bits bm;
  bitmap_bytes : size_bytes (buffer bm) = _ArrowBytesForBits (size_bits bm);
}.
Definition bitmap_bits (bm : ArrowBitmap) : list bool :=
  bitf (default [] (data (buffer bm))) <$> zseq (size_bits bm).

Section bitmap_lemmas.
Context `{!Libc}.
Implicit Types (bm : ArrowBitmap).

Lemma bitmap_room bm :
  bitmap_wf bm → 0 <= size_bits bm <= 8 * capacity_bytes (buffer bm).
Proof.
  intros [Hb Hs Hn]. pose proof (buffer_size _ Hb). rewrite BytesForBits_spec in Hn by done.
  pose proof (Z.div_mod (size_bits bm + 7) 8). pose proof (Z.mod_pos_bound (size_bits bm + 7) 8).
  lia.
Qed.

(** The bits held only depend on the bytes held. *)
Lemma bitf_take d n j : 0 <= j < 8 * n → bitf (take (Z.to_nat n) d) j = bitf d j.
Proof.
  intros Hj. unfold bitf. rewrite znth_take; [done|]. by apply byte_index.
Qed.
Lemma bitmap_bits_contents bm :
  bitmap_wf bm → bitmap_bits bm = bitf (contents (buffer bm)) <$> zseq (size_bits bm).
Proof.
  intros [Hb Hs Hn]. unfold bitmap_bits, contents. apply list_fmap_ext. intros i j Hj.
  rewrite bitf_take; [done|]. apply list_elem_of_lookup_2, elem_of_zseq in Hj.
  rewrite Hn, BytesForBits_spec by done.
  pose proof (Z.div_mod (size_bits bm + 7) 8). pose proof (Z.mod_pos_bound (size_bits bm + 7) 8).
  lia.
Qed.

(** Room for [n] more bits without reaching the limit of [int64_t]. *)
Definition bits_fit bm (n : Z) : Prop :=
  capacity_bytes (buffer bm) * 8 <= INT64_MAX ∧ size_bits bm + n + 8 <= INT64_MAX.

Lemma bitmap_reserve_wp bm n :
  bitmap_wf bm → 0 <= n → bits_fit bm n →
  wp (ArrowBitmapReserve n) bm
    (λ _ bm', bitmap_wf bm' ∧ bitmap_bits bm' = bitmap_bits bm ∧
              size_bits bm' = size_bits bm ∧
              size_bits bm + n <= 8 * capacity_bytes (buffer bm') ∧
              capacity_bytes (buffer bm') <= capacity_bytes (buffer bm)
                `max` (2 * (size_bytes (buffer bm) + _ArrowBytesForBits n)))
    (λ e bm', e = ENOMEM).
Proof.
  intros Hwf Hn [Hf1 Hf2]. pose proof Hwf as [Hb Hs Hsz]. pose proof (bitmap_room _ Hwf).
  pose proof (buffer_size _ Hb).
  unfold wp, ArrowBitmapReserve. rewrite !i64_small by width.
  destruct (Z.leb_spec (size_bits bm + n) (capacity_bytes (buffer bm) * 8)) as [?|Hgt].
  { split_and!; try done; lia. }
  rewrite BytesForBits_spec in Hsz by done.
  assert (0 <= _ArrowBytesForBits n ∧ n <= 8 * _ArrowBytesForBits n ∧
    8 * (size_bytes (buffer bm) + _ArrowBytesForBits n) <= size_bits bm + n + 14 ∧
    size_bits bm <= 8 * size_bytes (buffer bm)) as (Hk0 & Hk & Hk2 & Hk3).
  { rewrite BytesForBits_spec, Hsz by done.
    pose proof (Z.div_mod (n + 7) 8). pose proof (Z.mod_pos_bound (n + 7) 8).
    pose proof (Z.div_mod (size_bits bm + 7) 8). pose proof (Z.mod_pos_bound (size_bits bm + 7) 8).
    lia. }
  eapply wp_zoom, wp_bind. eapply wp_mono.
  { apply reserve_wp; [done|done|]. split; width. }
  2:{ by intros e b' (-> & _). }
  intros ? b' (Hwf' & Hct & Hsz' & Hcap & Hal & Hmax & _).
  apply wp_bind, wp_get. unfold wp, upd_data.
  pose proof (buffer_block _ Hwf') as Hblk. destruct (data b') as [d|] eqn:Hd; [|lia].
  destruct Hblk as [Hlen Hok]. rewrite zset_in by lia. simpl.
  assert (bitmap_wf (MkBitmap (MkBuffer (Some (<[Z.to_nat (capacity_bytes b' - 1):=0]> d))
    (size_bytes b') (capacity_bytes b') (allocator b')) (size_bits bm))) as Hwf2.
  { split; simpl; [split; simpl|done|].
    - apply (buffer_size _ Hwf').
    - rewrite zlen_insert. split; [done|]. apply Forall_insert; [done|by vm_compute].
    - by rewrite Hsz', BytesForBits_spec. }
  split; [done|]. split_and!; [|done|lia|done].
  rewrite !bitmap_bits_contents by done. simpl. apply list_fmap_ext. intros i j Hj.
  apply list_elem_of_lookup_2, elem_of_zseq in Hj. rewrite <-Hct. unfold contents. simpl.
  rewrite Hd. simpl. rewrite !bitf_take by lia. rewrite bitf_insert by lia.
  destruct (Z.eqb_spec (j / 8) (capacity_bytes b' - 1)) as [E|]; [|done].
  pose proof (Z.div_mod j 8). pose proof (Z.mod_pos_bound j 8). lia.
Qed.

Lemma bitmap_append_unsafe_wp bm v n :
  bitmap_wf bm → 0 < n → size_bits bm + n <= 8 * capacity_bytes (buffer bm) →
  size_bits bm + n <= INT64_MAX →
  wp (ArrowBitmapAppendUnsafe (Z.b2z v) n) bm
    (λ _ bm', bitmap_wf bm' ∧ bitmap_bits bm' = bitmap_bits bm ++ replicate (Z.to_nat n) v ∧
              size_bits bm' = size_bits bm + n ∧ is_Some (data (buffer bm')) ∧
              capacity_bytes (buffer bm') = capacity_bytes (buffer bm))
    (λ _ _, False).
Proof.
  intros Hwf Hn Hroom Hmax. pose proof Hwf as [Hb Hs Hsz]. pose proof (buffer_block _ Hb) as Hblk.
  pose proof (buffer_size _ Hb) as Hbs.
  unfold wp, ArrowBitmapAppendUnsafe, on_buffer, mbind_, zoom, upd_data.
  destruct (data (buffer bm)) as [d|] eqn:Hd; [|lia]. destruct Hblk as [Hlen Hok].
  destruct (ArrowBitsSetTo_sets d (size_bits bm) n v) as (d' & -> & Hl' & Hok' & Hbits);
    [done|done|done|lia|].
  simpl. rewrite i64_small by width. split_and!; [| |done|by eexists|done].
  - split; simpl; [split; simpl|lia|done].
    + rewrite BytesForBits_spec by lia.
      pose proof (Z.div_mod (size_bits bm + n + 7) 8).
      pose proof (Z.mod_pos_bound (size_bits bm + n + 7) 8). lia.
    + split; [lia|done].
  - unfold bitmap_bits. simpl. rewrite Hd. simpl.
    rewrite zseq_app, fmap_app by lia. f_equal.
    + apply list_fmap_ext. intros i j Hj. apply list_elem_of_lookup_2, elem_of_zseq in Hj.
      rewrite Hbits by lia. destruct (Z.leb_spec (size_bits bm) j); [lia|done].
    + rewrite <-list_fmap_compose. apply list_eq. intros i.
      rewrite list_lookup_fmap. unfold zseq. rewrite list_lookup_fmap.
      destruct (Nat.lt_ge_cases i (Z.to_nat n)) as [Hi|Hi].
      * rewrite lookup_seq_lt, lookup_replicate_2 by done. simpl. f_equal.
        rewrite Hbits by lia.
        destruct (Z.leb_spec (size_bits bm) (size_bits bm + Z.of_nat i)),
          (Z.ltb_spec (size_bits bm + Z.of_nat i) (size_bits bm + n)); done || lia.
      * rewrite lookup_seq_ge by done. symmetry. apply lookup_replicate_None. lia.
Qed.
(** [ArrowBitmapAppend]: the bits grow, and the capacity stays within twice the
    size. *)
Lemma bitmap_append_wp bm v n :
  bitmap_wf bm → 0 < n → bits_fit bm n →
  wp (ArrowBitmapAppend (Z.b2z v) n) bm
    (λ _ bm', bitmap_wf bm' ∧ bitmap_bits bm' = bitmap_bits bm ++ replicate (Z.to_nat n) v ∧
              size_bits bm' = size_bits bm + n ∧ is_Some (data (buffer bm')) ∧
              capacity_bytes (buffer bm') <= capacity_bytes (buffer bm)
                `max` (2 * (size_bytes (buffer bm) + _ArrowBytesForBits n)))
    (λ e _, e = ENOMEM).
Proof.
  intros Hwf Hn Hfit. unfold ArrowBitmapAppend. apply wp_bind.
  eapply wp_mono; [apply bitmap_reserve_wp; [done|lia|done]| |done].
  intros ? bm1 (Hwf1 & Hb1 & Hs1 & Hr1 & Hc1). destruct Hfit as [? Hf].
  eapply wp_mono; [apply bitmap_append_unsafe_wp; [done|done|lia|width]| |done].
  intros ? bm2 (Hwf2 & Hb2 & Hs2 & Hd2 & Hc2). rewrite Hb2, Hb1, Hs2, Hs1, Hc2.
  by split_and!.
Qed.
(** Appending no bits to an empty bitmap writes its first byte and keeps it
    empty. *)
Lemma bitmap_append_none_wp bm v :
  bitmap_wf bm → size_bits bm = 0 → 0 < capacity_bytes (buffer bm) →
  wp (ArrowBitmapAppendUnsafe (Z.b2z v) 0) bm
    (λ _ bm', bitmap_wf bm' ∧ bitmap_bits bm' = [] ∧ size_bits bm' = 0 ∧
              capacity_bytes (buffer bm') = capacity_bytes (buffer bm) ∧
              size_bytes (buffer bm') = 0)
    (λ _ _, False).
Proof.
  intros [Hb Hs Hsz] Hz Hcap. pose proof (buffer_block _ Hb) as Hblk.
  unfold wp, ArrowBitmapAppendUnsafe, on_buffer, mbind_, zoom, upd_data. rewrite Hz in *.
  destruct (data (buffer bm)) as [[|x d]|] eqn:Hd; [destruct Hblk as [Hl _]; rewrite zlen_nil in Hl; lia| |lia].
  destruct Hblk as [Hlen Hok]. apply Forall_cons_1 in Hok as [Hx Hok].
  assert (∃ y, ArrowBitsSetTo (x :: d) 0 0 (Z.b2z v) = Some (y :: d) ∧ byte_ok y) as (y & -> & Hy).
  { destruct v; eexists; (split; [reflexivity|]); simpl.
    all: rewrite Z.land_0_r, Z.lor_0_l; apply byte_ok_u8. }
  simpl. split_and!; try done. split; simpl; [split; simpl|done|done].
  - split; [done|]. by apply Z.lt_le_incl.
  - split; [done|]. by constructor.
Qed.
End bitmap_lemmas.

(** ** Appending one value per bit *)

(** [writes d d' s n g]: the [n] bits from [s] on are those of [g], the bits before
    [s] are unchanged (the bits after the range may change). *)
Definition writes (d d' : list Z) (s n : Z) (g : Z → bool) : Prop :=
  zlen d' = zlen d ∧ bytes_ok d' ∧
  ∀ j, 0 <= j < s + n → bitf d' j = if s <=? j then g j else bitf d j.

Lemma writes_comp d d1 d2 s n1 n2 g :
  0 <= n1 → 0 <= n2 → writes d d1 s n1 g → writes d1 d2 (s + n1) n2 g → writes d d2 s (n1 + n2) g.
Proof.
  intros Hn1 Hn2 (Hl1 & Hok1 & H1) (Hl2 & Hok2 & H2). unfold writes. split_and!; [lia|done|].
  intros j Hj. rewrite H2 by lia. destruct (Z.leb_spec (s + n1) j), (Z.leb_spec s j); try lia; try done.
  - rewrite H1 by lia. destruct (Z.leb_spec s j); [done|lia].
  - rewrite H1 by lia. destruct (Z.leb_spec s j); [lia|done].
Qed.
Lemma writes_nil d s g : bytes_ok d → 0 <= s → writes d d s 0 g.
Proof.
  intros. unfold writes. split_and!; try done. intros j Hj. destruct (Z.leb_spec s j); [lia|done].
Qed.

(** The bit that position [j] gets when [values] are appended from bit [size] on. *)
Definition value_bit (values : list Z) (size j : Z) : bool :=
  negb (default 0 (znth values (j - size)) =? 0).

(** A loop with an index whose iteration has no result has none. *)
Lemma ofold_stuck {S} (f : Z → S → option S) l1 i l2 s :
  (∀ s', f i s' = None) → ofold f (l1 ++ i :: l2) s = None.
Proof.
  intros Hi. revert s. induction l1 as [|j l1 IH]; intros s; cbn; [by rewrite Hi|].
  destruct (f j s); [apply IH|done].
Qed.

(** A loop that writes [w] bits per index. *)
Lemma ofold_writes (f : Z → list Z → option (list Z)) (s w n : Z) g d :
  bytes_ok d → 0 <= s → 0 <= w → 0 <= n →
  (∀ i d1, 0 <= i < n → bytes_ok d1 → zlen d1 = zlen d →
    ∃ d2, f i d1 = Some d2 ∧ writes d1 d2 (s + w * i) w g) →
  ∃ d', ofold f (zseq n) d = Some d' ∧ writes d d' s (w * n) g.
Proof.
  intros Hok Hs Hw Hn Hf.
  enough (∀ (k : nat) m d1, 0 <= m → m + Z.of_nat k = n → bytes_ok d1 → zlen d1 = zlen d →
    writes d d1 s (w * m) g →
    ∃ d', ofold f (Z.add m <$> zseq (Z.of_nat k)) d1 = Some d' ∧ writes d d' s (w * n) g) as H.
  { destruct (H (Z.to_nat n) 0 d) as (d' & Hd' & ?); [lia|lia|done|done| |].
    - rewrite Z.mul_0_r. by apply writes_nil.
    - exists d'. split; [|done]. rewrite <-Hd', Z2Nat.id by lia. f_equal.
      rewrite (list_fmap_ext _ id), list_fmap_id; [done|]. intros ? x _. unfold id. lia. }
  induction k as [|k IH]; intros m d1 Hm Hk Hok1 Hl1 HW.
  { exists d1. split; [done|]. by replace n with m by lia. }
  destruct (Hf m d1) as (d2 & Hd2 & HW2); [lia|done|done|].
  unfold zseq. rewrite Nat2Z.id. change (seq 0 (S k)) with (0%nat :: seq 1 k).
  rewrite <-fmap_S_seq, !fmap_cons. cbn [ofold]. change (Z.of_nat 0) with 0.
  rewrite Z.add_0_r, Hd2. cbn [mbind option_bind].
  assert (Z.add m <$> (Z.of_nat <$> (S <$> seq 0 k)) = Z.add (m + 1) <$> zseq (Z.of_nat k)) as ->.
  { unfold zseq. rewrite Nat2Z.id, <-!list_fmap_compose. apply list_fmap_ext. intros ? x _. simpl. lia. }
  destruct HW2 as (Hl2 & Hok2 & HW2'). apply IH; [lia|lia|done|lia|].
  rewrite Z.mul_add_distr_l, Z.mul_1_r. apply writes_comp with d1; try done; lia.
Qed.

Lemma set_each_writes values off size out_i n d :
  bytes_ok d → 0 <= off → 0 <= out_i → 0 <= n → out_i + n <= 8 * zlen d → off + n <= zlen values →
  Forall (λ v, v = 0 ∨ v = 1) values → out_i = size + off →
  ∃ d', set_each values off out_i n d = Some d' ∧ writes d d' out_i n (value_bit values size).
Proof.
  intros Hok Hoff Hi Hn Hd Hv H01 ->. unfold set_each.
  destruct (ofold_writes (λ i d, v ← znth values (off + i); ArrowBitSetTo d (size + off + i) (u8 v))
    (size + off) 1 n (value_bit values size) d) as (d' & -> & HW); try done; try lia.
  2:{ exists d'. by rewrite Z.mul_1_l in HW. }
  intros i d1 Hi1 Hok1 Hl1. destruct (znth_in values (off + i)) as [v Hvi]; [lia|]. rewrite Hvi.
  cbn [mbind option_bind].
  assert (u8 v = v) as -> by (rewrite Forall_lookup in H01; rewrite znth_lookup in Hvi by lia;
    by destruct (H01 _ _ Hvi) as [-> | ->]).
  destruct (ArrowBitSetTo_sets d1 (size + off + i) v) as (d2 & -> & Hl2 & Hok2 & Hb2); [done|lia|].
  exists d2. split; [done|]. unfold writes. split_and!; try done. intros j Hj. rewrite Hb2 by lia.
  destruct (Z.eqb_spec j (size + off + i)) as [->|], (Z.leb_spec (size + off + 1 * i) (size + off + i));
    try lia; cycle 1.
  { destruct (Z.leb_spec (size + off + 1 * i) j); [lia|done]. }
  unfold value_bit. replace (size + off + i - size) with (off + i) by lia. rewrite Hvi.
  destruct (Z.leb_spec (size + off + 1 * i) (size + off + i)); [done|lia].
Qed.

(** Eight values, each 0 or 1, packed into a byte. *)
Lemma pack_byte_bits values :
  Forall (λ v, v = 0 ∨ v = 1) values → 8 <= zlen values →
  ∃ b, pack_byte values = Some b ∧ byte_ok b ∧
    ∀ k, 0 <= k < 8 → Z.testbit b k = negb (default 0 (znth values k) =? 0).
Proof.
  intros Hv Hlen.
  do 8 (destruct values as [|? values]; [rewrite ?zlen_cons, zlen_nil in Hlen; lia|]).
  repeat match goal with H : Forall _ (_ :: _) |- _ => apply Forall_cons_1 in H as [? ?] end.
  unfold pack_byte. cbn. eexists. split; [done|]. split; [apply byte_ok_u8|].
  repeat match goal with H : _ = 0 ∨ _ = 1 |- _ => destruct H; subst end; by apply bit_cases.
Qed.

Lemma pack_each_writes values off size out_c n d :
  bytes_ok d → Forall (λ v, v = 0 ∨ v = 1) values → 0 <= off → 0 <= out_c → 0 <= n →
  out_c + n <= zlen d → off + 8 * n <= zlen values → 8 * out_c = size + off →
  ∃ d', pack_each pack_byte values off out_c n d = Some d' ∧
    writes d d' (8 * out_c) (8 * n) (value_bit values size).
Proof.
  intros Hok Hv01 Hoff Hc Hn Hd Hv Heq. unfold pack_each.
  apply ofold_writes; try done; try lia. intros i d1 Hi Hok1 Hl1.
  destruct (pack_byte_bits (drop (Z.to_nat (off + 8 * i)) values)) as (b & -> & Hb & Hbits).
  { by apply Forall_drop. } { rewrite zlen_drop; lia. }
  cbn [mbind option_bind]. rewrite zset_in by lia. eexists. split; [done|].
  unfold writes. rewrite zlen_insert. split_and!; [done|by apply Forall_insert|].
  intros j Hj. rewrite bitf_insert by lia.
  pose proof (Z.div_mod j 8). pose proof (Z.mod_pos_bound j 8).
  destruct (Z.eqb_spec (j / 8) (out_c + i)), (Z.leb_spec (8 * out_c + 8 * i) j); try lia; try done.
  rewrite Hbits, znth_drop by lia. unfold value_bit. do 4 f_equal. lia.
Qed.

Lemma append_aligned_writes values off size out_c d :
  bytes_ok d → Forall (λ v, v = 0 ∨ v = 1) values → 0 <= off <= zlen values → 0 <= size →
  size + zlen values <= 8 * zlen d → 8 * out_c = size + off →
  ∃ d', append_aligned pack_byte values off (zlen values - off) (size + off) out_c d =
      Some (d', _ArrowBytesForBits (size + zlen values)) ∧
    writes d d' (size + off) (zlen values - off) (value_bit values size).
Proof.
  intros Hok H01 Hoff Hs Hroom Hc. unfold append_aligned.
  rewrite Z.quot_div_nonneg by lia. set (n := zlen values - off) in *.
  pose proof (Z.div_mod n 8) as Dn. pose proof (Z.mod_pos_bound n 8) as Dm.
  rewrite Z.max_l by lia. rewrite BytesForBits_spec by lia.
  destruct (pack_each_writes values off size out_c (n / 8) d) as (d1 & -> & HW1); try done; try lia.
  cbn [mbind option_bind]. destruct HW1 as (Hl1 & Hok1 & HW1').
  destruct (Z.ltb_spec 0 (n - n / 8 * 8)) as [Hr|Hr].
  - rewrite zset_in by lia. cbn [mbind option_bind].
    set (d2 := <[Z.to_nat (out_c + n / 8) := 0]> d1).
    assert (writes d d2 (size + off) (8 * (n / 8)) (value_bit values size)) as HW2.
    { unfold writes, d2. rewrite zlen_insert. split_and!; [done|by apply Forall_insert|].
      intros j Hj. rewrite bitf_insert by lia.
      pose proof (Z.div_mod j 8). pose proof (Z.mod_pos_bound j 8).
      destruct (Z.eqb_spec (j / 8) (out_c + n / 8)); [lia|]. rewrite HW1' by lia. by rewrite Hc. }
    pose proof HW2 as (Hl2 & Hok2 & _).
    destruct (set_each_writes values (off + 8 * (n / 8)) size (size + off + n / 8 * 8)
      (n - n / 8 * 8) d2) as (d3 & -> & HW3); try done; try lia.
    cbn [mbind option_bind]. exists d3. split.
    { do 2 f_equal. apply (Z.div_unique _ _ _ (n mod 8 - 1)); lia. }
    enough (writes d d3 (size + off) (8 * (n / 8) + (n - n / 8 * 8)) (value_bit values size)) as HW
      by (by replace (8 * (n / 8) + (n - n / 8 * 8)) with n in HW by lia).
    apply writes_comp with d2; [lia|lia|done|].
    by replace (size + off + 8 * (n / 8)) with (size + off + n / 8 * 8) by lia.
  - exists d1. split.
    { do 2 f_equal. apply (Z.div_unique _ _ _ 7); lia. }
    unfold writes. split_and!; try done. intros j Hj. rewrite HW1' by lia. by rewrite Hc.
Qed.

Lemma append_values_writes values size d :
  bytes_ok d → Forall (λ v, v = 0 ∨ v = 1) values → 0 <= size <= INT64_MAX - 7 →
  size + zlen values <= 8 * zlen d → (size + 7) / 8 * 8 <= size + zlen values →
  ∃ d', append_values pack_byte values (zlen values) size d =
      Some (d', _ArrowBytesForBits (size + zlen values)) ∧
    writes d d' size (zlen values) (value_bit values size).
Proof.
  intros Hok H01 Hs Hroom Hpart. unfold append_values.
  rewrite Z.quot_div_nonneg, Z.rem_mod_nonneg by lia. pose proof (zlen_nonneg values).
  pose proof (Z.div_mod size 8) as Ds. pose proof (Z.mod_pos_bound size 8).
  destruct (Z.eqb_spec (size mod 8) 0) as [Ha|Ha].
  - destruct (append_aligned_writes values 0 size (size / 8) d) as (d' & Hd' & HW);
      try done; try lia.
    rewrite Z.add_0_r, Z.sub_0_r in *. eauto.
  - rewrite RoundUp_spec by lia. set (k := (size + 7) / 8 * 8 - size).
    assert ((size + 7) / 8 = size / 8 + 1) as Hdiv
      by (symmetry; apply (Z.div_unique _ _ _ (size mod 8 - 1)); lia).
    destruct (set_each_writes values 0 size size k d) as (d1 & -> & HW1); try done; try lia.
    cbn [mbind option_bind]. pose proof HW1 as (Hl1 & Hok1 & _).
    destruct (append_aligned_writes values k size (size / 8 + 1) d1) as (d2 & Hd2 & HW2);
      try done; try lia.
    exists d2. split; [done|].
    enough (writes d d2 size (k + (zlen values - k)) (value_bit values size)) as HW
      by (by replace (k + (zlen values - k)) with (zlen values) in HW by lia).
    apply writes_comp with d1; [lia|lia|done|done].
Qed.

Section append_values.
Context `{!Libc}.

(** C6: [ArrowBitmapAppend] of a positive number of bits keeps the bits of the
    bitmap and adds that many copies of the given one, whatever the alignment
    of the current end; the bitmap stays well formed, its memory is not left,
    and the only error is [ENOMEM]. *)
Theorem bitmap_append_correct (bm : ArrowBitmap) (v : bool) (n : Z) (Hwf : bitmap_wf bm)
    (Hn : 0 < n) (Hfit : bits_fit bm n) :
  wp (ArrowBitmapAppend (Z.b2z v) n) bm
    (λ _ bm', bitmap_wf bm' ∧ bitmap_bits bm' = bitmap_bits bm ++ replicate (Z.to_nat n) v)
    (λ e _, e = ENOMEM).
Proof.
  eapply wp_mono; [by apply bitmap_append_wp| |done]. intros ? bm' (? & ? & _). done.
Qed.

(** [ArrowBitmapAppendInt8Unsafe], which finishes the current byte bit by
    bit, packs eight values at a time and then the rest, appends the bits of
    the values in order, provided the bitmap has room for them and there are at
    least as many values as bits missing in its last byte. *)
Theorem bitmap_append_int8_correct (bm : ArrowBitmap) (d values : list Z)
    (Hwf : bitmap_wf bm) (Hdata : data (buffer bm) = Some d)
    (Hv01 : Forall (λ v, v = 0 ∨ v = 1) values)
    (Hroom : size_bits bm + zlen values <= 8 * zlen d)
    (Hpartial : (size_bits bm + 7) / 8 * 8 <= size_bits bm + zlen values)
    (Hmax : size_bits bm <= INT64_MAX - 7) :
  ∃ bm', ArrowBitmapAppendInt8Unsafe values (zlen values) bm = Ok tt bm' ∧ bitmap_wf bm' ∧
    bitmap_bits bm' = bitmap_bits bm ++ ((λ v, negb (v =? 0)) <$> values).
Proof.
  pose proof Hwf as [Hb Hs Hsz]. pose proof (buffer_block _ Hb) as Hblk. rewrite Hdata in Hblk.
  destruct Hblk as [Hlen Hok]. pose proof (zlen_nonneg values) as Hvpos.
  unfold ArrowBitmapAppendInt8Unsafe, append_values_unsafe, _ArrowBitmapPackInt8.
  destruct (Z.eqb_spec (zlen values) 0) as [Hz|Hz].
  { exists bm. destruct values; [|rewrite zlen_cons in Hz; pose proof (zlen_nonneg values); lia].
    by rewrite app_nil_r. }
  rewrite Hdata.
  destruct (append_values_writes values (size_bits bm) d) as (d' & -> & Hl' & Hok' & HW);
    try done; try lia.
  eexists. split; [done|]. split.
  - split; simpl; [split; simpl|lia|done].
    + rewrite BytesForBits_spec by lia.
      pose proof (Z.div_mod (size_bits bm + zlen values + 7) 8).
      pose proof (Z.mod_pos_bound (size_bits bm + zlen values + 7) 8). lia.
    + split; [lia|done].
  - unfold bitmap_bits. simpl. rewrite Hdata. simpl. rewrite zseq_app, fmap_app by lia. f_equal.
    + apply list_fmap_ext. intros i j Hj. apply list_elem_of_lookup_2, elem_of_zseq in Hj.
      rewrite HW by lia. destruct (Z.leb_spec (size_bits bm) j); [lia|done].
    + rewrite <-list_fmap_compose. apply list_eq. intros i.
      rewrite !list_lookup_fmap. unfold zseq. rewrite list_lookup_fmap. unfold zlen. rewrite Nat2Z.id.
      destruct (values !! i) as [v|] eqn:Hi.
      * apply lookup_lt_Some in Hi as Hlt. rewrite lookup_seq_lt by done. simpl. f_equal.
        rewrite HW by (unfold zlen; lia). unfold value_bit.
        destruct (Z.leb_spec (size_bits bm) (size_bits bm + Z.of_nat i)); [|lia].
        rewrite znth_lookup by lia. replace (Z.to_nat _) with i by lia. by rewrite Hi.
      * apply lookup_ge_None in Hi. by rewrite lookup_seq_ge by done.
Qed.

(** Without that proviso [ArrowBitmapAppendInt8Unsafe] reads past the end of
    the array of values: it always completes the last byte of the bitmap, even
    when there are fewer values than missing bits. *)
Theorem bitmap_append_int8_overread (bm : ArrowBitmap) (d values : list Z)
    (Hwf : bitmap_wf bm) (Hdata : data (buffer bm) = Some d)
    (Hne : 0 < zlen values) (Hmax : size_bits bm <= INT64_MAX - 7)
    (Hpartial : size_bits bm + zlen values < (size_bits bm + 7) / 8 * 8) :
  ArrowBitmapAppendInt8Unsafe values (zlen values) bm = UB.
Proof.
  pose proof Hwf as [Hb Hs Hsz]. unfold ArrowBitmapAppendInt8Unsafe, append_values_unsafe.
  destruct (Z.eqb_spec (zlen values) 0); [lia|]. rewrite Hdata. unfold append_values.
  rewrite Z.rem_mod_nonneg by lia.
  pose proof (Z.div_mod (size_bits bm) 8) as Ds. pose proof (Z.mod_pos_bound (size_bits bm) 8).
  destruct (Z.eqb_spec (size_bits bm mod 8) 0) as [Ha|Ha].
  { rewrite <-(Z.div_unique (size_bits bm + 7) 8 (size_bits bm / 8) 7) in Hpartial; lia. }
  rewrite RoundUp_spec by lia.
  set (k := (size_bits bm + 7) / 8 * 8 - size_bits bm).
  enough (set_each values 0 (size_bits bm) k d = None) as -> by done. unfold set_each.
  assert (zseq k = zseq (zlen values) ++ zlen values :: (Z.add (zlen values + 1) <$> zseq (k - zlen values - 1))) as ->.
  { replace k with (zlen values + (1 + (k - zlen values - 1))) at 1 by lia.
    rewrite zseq_app, zseq_app by lia. f_equal. rewrite fmap_app.
    change (Z.add (zlen values) <$> zseq 1) with [zlen values + 0]. rewrite Z.add_0_r.
    simpl. f_equal. rewrite <-list_fmap_compose. apply list_fmap_ext. intros ? x _. simpl. lia. }
  apply ofold_stuck. intros d1. by rewrite (znth_None values) by lia.
Qed.
End append_values.

(** A bitmap with the bits 1, 0, 1 in a buffer of two bytes. *)
Definition example_bitmap : ArrowBitmap :=
  MkBitmap (MkBuffer (Some [5; 0]) 1 2 ArrowBufferAllocatorDefault) 3.
Lemma example_bitmap_wf : bitmap_wf example_bitmap.
Proof.
  split; [split|vm_compute; done|reflexivity]; simpl; [lia|].
  split; [reflexivity|]. repeat constructor; unfold byte_ok; lia.
Qed.

Lemma bitmap_append_correct_witness :
  wp (@ArrowBitmapAppend (libc_limited 100) (Z.b2z true) 2) example_bitmap
    (λ _ bm', bitmap_wf bm' ∧ bitmap_bits bm' = [true; false; true; true; true])
    (λ e _, e = ENOMEM).
Proof.
  apply (@bitmap_append_correct (libc_limited 100) example_bitmap true 2); [exact example_bitmap_wf|lia|].
  split; vm_compute; discriminate.
Defined.

Lemma bitmap_append_int8_correct_witness :
  ∃ bm', ArrowBitmapAppendInt8Unsafe [1; 1; 0; 0; 1; 0; 1] 7 example_bitmap = Ok tt bm' ∧
    bitmap_wf bm' ∧
    bitmap_bits bm' = [true; false; true; true; true; false; false; true; false; true].
Proof.
  apply (bitmap_append_int8_correct example_bitmap [5; 0] [1; 1; 0; 0; 1; 0; 1]);
    [exact example_bitmap_wf|reflexivity|repeat constructor; auto| | |]; vm_compute; discriminate.
Defined.

Lemma bitmap_append_int8_overread_witness :
  ArrowBitmapAppendInt8Unsafe [1; 1; 0; 0] 4 example_bitmap = UB.
Proof.
  apply (bitmap_append_int8_overread example_bitmap [5; 0] [1; 1; 0; 0]);
    [exact example_bitmap_wf|reflexivity|vm_compute; reflexivity|vm_compute; discriminate|
     vm_compute; reflexivity].
Defined.
