(* ===== verification/Types.v ===== *)
(** * Types and layouts (nanoarrow.h enums, ArrowLayoutInit)

    The enumerations of the data types, time units and buffer roles with the
    source's constructors, and the physical layout of each type: for each of the
    up to three buffers of an array its role, the type of its elements and
    their size in bits. *)

From stdpp Require Import base numbers list option strings.
From S2P Require Import Prelude CInt.
#[local] Open Scope Z_scope.

Inductive ArrowType : Set :=
  | NANOARROW_TYPE_UNINITIALIZED
  | NANOARROW_TYPE_NA
  | NANOARROW_TYPE_BOOL
  | NANOARROW_TYPE_UINT8
  | NANOARROW_TYPE_INT8
  | NANOARROW_TYPE_UINT16
  | NANOARROW_TYPE_INT16
  | NANOARROW_TYPE_UINT32
  | NANOARROW_TYPE_INT32
  | NANOARROW_TYPE_UINT64
  | NANOARROW_TYPE_INT64
  | NANOARROW_TYPE_HALF_FLOAT
  | NANOARROW_TYPE_FLOAT
  | NANOARROW_TYPE_DOUBLE
  | NANOARROW_TYPE_STRING
  | NANOARROW_TYPE_BINARY
  | NANOARROW_TYPE_FIXED_SIZE_BINARY
  | NANOARROW_TYPE_DATE32
  | NANOARROW_TYPE_DATE64
  | NANOARROW_TYPE_TIMESTAMP
  | NANOARROW_TYPE_TIME32
  | NANOARROW_TYPE_TIME64
  | NANOARROW_TYPE_INTERVAL_MONTHS
  | NANOARROW_TYPE_INTERVAL_DAY_TIME
  | NANOARROW_TYPE_DECIMAL128
  | NANOARROW_TYPE_DECIMAL256
  | NANOARROW_TYPE_LIST
  | NANOARROW_TYPE_STRUCT
  | NANOARROW_TYPE_SPARSE_UNION
  | NANOARROW_TYPE_DENSE_UNION
  | NANOARROW_TYPE_DICTIONARY
  | NANOARROW_TYPE_MAP
  | NANOARROW_TYPE_EXTENSION
  | NANOARROW_TYPE_FIXED_SIZE_LIST
  | NANOARROW_TYPE_DURATION
  | NANOARROW_TYPE_LARGE_STRING
  | NANOARROW_TYPE_LARGE_BINARY
  | NANOARROW_TYPE_LARGE_LIST
  | NANOARROW_TYPE_INTERVAL_MONTH_DAY_NANO.

Inductive ArrowTimeUnit : Set :=
  | NANOARROW_TIME_UNIT_SECOND
  | NANOARROW_TIME_UNIT_MILLI
  | NANOARROW_TIME_UNIT_MICRO
  | NANOARROW_TIME_UNIT_NANO.

Inductive ArrowValidationLevel : Set :=
  | NANOARROW_VALIDATION_LEVEL_NONE
  | NANOARROW_VALIDATION_LEVEL_MINIMAL
  | NANOARROW_VALIDATION_LEVEL_DEFAULT
  | NANOARROW_VALIDATION_LEVEL_FULL.

Inductive ArrowBufferType : Set :=
  | NANOARROW_BUFFER_TYPE_NONE
  | NANOARROW_BUFFER_TYPE_VALIDITY
  | NANOARROW_BUFFER_TYPE_TYPE_ID
  | NANOARROW_BUFFER_TYPE_UNION_OFFSET
  | NANOARROW_BUFFER_TYPE_DATA_OFFSET
  | NANOARROW_BUFFER_TYPE_DATA.

#[global] Instance ArrowType_eq_dec : EqDecision ArrowType.
Proof. solve_decision. Defined.
#[global] Instance ArrowTimeUnit_eq_dec : EqDecision ArrowTimeUnit.
Proof. solve_decision. Defined.
#[global] Instance ArrowBufferType_eq_dec : EqDecision ArrowBufferType.
Proof. solve_decision. Defined.

(** The name of a type; [None] is the NULL pointer. *)
Definition ArrowTypeString (type : ArrowType) : option string :=
  match type with
  | NANOARROW_TYPE_NA => Some "na"
  | NANOARROW_TYPE_BOOL => Some "bool"
  | NANOARROW_TYPE_UINT8 => Some "uint8"
  | NANOARROW_TYPE_INT8 => Some "int8"
  | NANOARROW_TYPE_UINT16 => Some "uint16"
  | NANOARROW_TYPE_INT16 => Some "int16"
  | NANOARROW_TYPE_UINT32 => Some "uint32"
  | NANOARROW_TYPE_INT32 => Some "int32"
  | NANOARROW_TYPE_UINT64 => Some "uint64"
  | NANOARROW_TYPE_INT64 => Some "int64"
  | NANOARROW_TYPE_HALF_FLOAT => Some "half_float"
  | NANOARROW_TYPE_FLOAT => Some "float"
  | NANOARROW_TYPE_DOUBLE => Some "double"
  | NANOARROW_TYPE_STRING => Some "string"
  | NANOARROW_TYPE_BINARY => Some "binary"
  | NANOARROW_TYPE_FIXED_SIZE_BINARY => Some "fixed_size_binary"
  | NANOARROW_TYPE_DATE32 => Some "date32"
  | NANOARROW_TYPE_DATE64 => Some "date64"
  | NANOARROW_TYPE_TIMESTAMP => Some "timestamp"
  | NANOARROW_TYPE_TIME32 => Some "time32"
  | NANOARROW_TYPE_TIME64 => Some "time64"
  | NANOARROW_TYPE_INTERVAL_MONTHS => Some "interval_months"
  | NANOARROW_TYPE_INTERVAL_DAY_TIME => Some "interval_day_time"
  | NANOARROW_TYPE_DECIMAL128 => Some "decimal128"
  | NANOARROW_TYPE_DECIMAL256 => Some "decimal256"
  | NANOARROW_TYPE_LIST => Some "list"
  | NANOARROW_TYPE_STRUCT => Some "struct"
  | NANOARROW_TYPE_SPARSE_UNION => Some "sparse_union"
  | NANOARROW_TYPE_DENSE_UNION => Some "dense_union"
  | NANOARROW_TYPE_DICTIONARY => Some "dictionary"
  | NANOARROW_TYPE_MAP => Some "map"
  | NANOARROW_TYPE_EXTENSION => Some "extension"
  | NANOARROW_TYPE_FIXED_SIZE_LIST => Some "fixed_size_list"
  | NANOARROW_TYPE_DURATION => Some "duration"
  | NANOARROW_TYPE_LARGE_STRING => Some "large_string"
  | NANOARROW_TYPE_LARGE_BINARY => Some "large_binary"
  | NANOARROW_TYPE_LARGE_LIST => Some "large_list"
  | NANOARROW_TYPE_INTERVAL_MONTH_DAY_NANO => Some "interval_month_day_nano"
  | NANOARROW_TYPE_UNINITIALIZED => None
  end%string.

Definition ArrowTimeUnitString (time_unit : ArrowTimeUnit) : string :=
  match time_unit with
  | NANOARROW_TIME_UNIT_SECOND => "s"
  | NANOARROW_TIME_UNIT_MILLI => "ms"
  | NANOARROW_TIME_UNIT_MICRO => "us"
  | NANOARROW_TIME_UNIT_NANO => "ns"
  end%string.

(** ** Layouts

    The three arrays of the C structure are lists of three elements. *)
Record ArrowLayout : Set := MkLayout {
  buffer_type : list ArrowBufferType;
  buffer_data_type : list ArrowType;
  element_size_bits : list Z;
  child_size_elements : Z;
}.

(** [layout->buffer_type[i] = t; layout->buffer_data_type[i] = d;
    layout->element_size_bits[i] = n;] *)
Definition set_layout_buffer (i : nat) (t : ArrowBufferType) (d : ArrowType) (n : Z)
    (l : ArrowLayout) : ArrowLayout :=
  MkLayout (<[i := t]> (buffer_type l)) (<[i := d]> (buffer_data_type l))
    (<[i := n]> (element_size_bits l)) (child_size_elements l).
Definition set_element_size (i : nat) (n : Z) (l : ArrowLayout) : ArrowLayout :=
  MkLayout (buffer_type l) (buffer_data_type l) (<[i := n]> (element_size_bits l))
    (child_size_elements l).

Definition ArrowLayoutInit (storage_type : ArrowType) : ArrowLayout :=
  let layout := MkLayout
    [NANOARROW_BUFFER_TYPE_VALIDITY; NANOARROW_BUFFER_TYPE_DATA; NANOARROW_BUFFER_TYPE_NONE]
    [NANOARROW_TYPE_BOOL; storage_type; NANOARROW_TYPE_UNINITIALIZED]
    [1; 0; 0] 0 in
  let none i n := set_layout_buffer i NANOARROW_BUFFER_TYPE_NONE NANOARROW_TYPE_UNINITIALIZED n in
  let offset32 := set_layout_buffer 1 NANOARROW_BUFFER_TYPE_DATA_OFFSET NANOARROW_TYPE_INT32 32 in
  let offset64 := set_layout_buffer 1 NANOARROW_BUFFER_TYPE_DATA_OFFSET NANOARROW_TYPE_INT64 64 in
  let data2 t := set_layout_buffer 2 NANOARROW_BUFFER_TYPE_DATA t 0 in
  let type_id := set_layout_buffer 0 NANOARROW_BUFFER_TYPE_TYPE_ID NANOARROW_TYPE_INT8 8 in
  match storage_type with
  | NANOARROW_TYPE_UNINITIALIZED | NANOARROW_TYPE_NA => none 1%nat 0 (none 0%nat 0 layout)
  | NANOARROW_TYPE_LIST | NANOARROW_TYPE_MAP => offset32 layout
  | NANOARROW_TYPE_LARGE_LIST => offset64 layout
  | NANOARROW_TYPE_STRUCT | NANOARROW_TYPE_FIXED_SIZE_LIST => none 1%nat 0 layout
  | NANOARROW_TYPE_BOOL => set_element_size 1 1 layout
  | NANOARROW_TYPE_UINT8 | NANOARROW_TYPE_INT8 => set_element_size 1 8 layout
  | NANOARROW_TYPE_UINT16 | NANOARROW_TYPE_INT16 | NANOARROW_TYPE_HALF_FLOAT =>
      set_element_size 1 16 layout
  | NANOARROW_TYPE_UINT32 | NANOARROW_TYPE_INT32 | NANOARROW_TYPE_FLOAT =>
      set_element_size 1 32 layout
  | NANOARROW_TYPE_INTERVAL_MONTHS =>
      set_layout_buffer 1 NANOARROW_BUFFER_TYPE_DATA NANOARROW_TYPE_INT32 32 layout
  | NANOARROW_TYPE_UINT64 | NANOARROW_TYPE_INT64 | NANOARROW_TYPE_DOUBLE
  | NANOARROW_TYPE_INTERVAL_DAY_TIME => set_element_size 1 64 layout
  | NANOARROW_TYPE_DECIMAL128 | NANOARROW_TYPE_INTERVAL_MONTH_DAY_NANO =>
      set_element_size 1 128 layout
  | NANOARROW_TYPE_DECIMAL256 => set_element_size 1 256 layout
  | NANOARROW_TYPE_FIXED_SIZE_BINARY =>
      set_layout_buffer 1 NANOARROW_BUFFER_TYPE_DATA NANOARROW_TYPE_BINARY 0 layout
  | NANOARROW_TYPE_DENSE_UNION =>
      set_layout_buffer 1 NANOARROW_BUFFER_TYPE_UNION_OFFSET NANOARROW_TYPE_INT32 32
        (type_id layout)
  | NANOARROW_TYPE_SPARSE_UNION => none 1%nat 0 (type_id layout)
  | NANOARROW_TYPE_STRING | NANOARROW_TYPE_BINARY => data2 storage_type (offset32 layout)
  | NANOARROW_TYPE_LARGE_STRING => data2 NANOARROW_TYPE_STRING (offset64 layout)
  | NANOARROW_TYPE_LARGE_BINARY => data2 NANOARROW_TYPE_BINARY (offset64 layout)
  | NANOARROW_TYPE_DATE32 | NANOARROW_TYPE_DATE64 | NANOARROW_TYPE_TIMESTAMP
  | NANOARROW_TYPE_TIME32 | NANOARROW_TYPE_TIME64 | NANOARROW_TYPE_DICTIONARY
  | NANOARROW_TYPE_EXTENSION | NANOARROW_TYPE_DURATION => layout
  end.

(** Every layout has three buffers, and a buffer without a role has no size. *)
Record layout_wf (l : ArrowLayout) : Prop := {
  layout_types : length (buffer_type l) = 3%nat;
  layout_data_types : length (buffer_data_type l) = 3%nat;
  layout_sizes : length (element_size_bits l) = 3%nat;
  layout_sizes_nonneg : Forall (λ n, 0 <= n) (element_size_bits l);
}.
Lemma layout_init_wf t : layout_wf (ArrowLayoutInit t).
Proof. destruct t; split; try reflexivity; repeat constructor; lia. Qed.

(** A layout a buffer of an array can be read with: three buffers, and decimals of
    one to five words. *)
Definition decimal_ok (type : ArrowType) (bits : Z) : Prop :=
  type = NANOARROW_TYPE_DECIMAL128 ∨ type = NANOARROW_TYPE_DECIMAL256 → 64 <= bits < 320.
Definition layout_ready (lay : ArrowLayout) : Prop :=
  length (buffer_type lay) = 3%nat ∧ length (buffer_data_type lay) = 3%nat ∧ length (element_size_bits lay) = 3%nat ∧
  Forall (λ s, decimal_ok s.1 s.2) (zip (buffer_data_type lay) (element_size_bits lay)).
Lemma layout_init_ready t : layout_ready (ArrowLayoutInit t).
Proof.
  destruct t; (do 3 (split; [done|])); repeat (constructor; [by intros [|] || (intros _; cbn; lia)|]); constructor.
Qed.
(** The layout of a view of storage type [st]. *)
Definition type_layout (st : ArrowType) (lay : ArrowLayout) : Prop :=
  layout_ready lay ∧ (st = NANOARROW_TYPE_STRUCT → lay = ArrowLayoutInit NANOARROW_TYPE_STRUCT).
