(* ===== verification/CString.v ===== *)
(** * Strings of the C library

    A C string is the [string] of its characters before the terminating NUL.
    The file models the library functions the sources use on format strings:
    [strtol] in base 10, the ["%d"] conversion of [snprintf], [strcmp] and
    [strncmp]; and proves that [strtol] reads back what ["%d"] prints. *)

From Stdlib Require Import Ascii.
From stdpp Require Import base numbers list option strings.
From S2P Require Import Prelude CInt.
#[local] Open Scope Z_scope.

(** ** strtol *)
Definition is_space (c : ascii) : bool :=
  let n := Z.of_N (Ascii.N_of_ascii c) in (n =? 32) || ((9 <=? n) && (n <=? 13)).
Definition digit_val (c : ascii) : option Z :=
  let n := Z.of_N (Ascii.N_of_ascii c) in
  if (48 <=? n) && (n <=? 57) then Some (n - 48) else None.

Fixpoint skip_spaces (s : string) : string :=
  match s with
  | String c s' => if is_space c then skip_spaces s' else s
  | EmptyString => s
  end.
(** The value of the digits at the start of [s], continuing [acc], and what
    follows them. *)
Fixpoint read_digits (acc : Z) (s : string) : Z * string :=
  match s with
  | String c s' =>
      match digit_val c with
      | Some d => read_digits (10 * acc + d) s'
      | None => (acc, s)
      end
  | EmptyString => (acc, s)
  end.
Definition starts_with_digit (s : string) : bool :=
  match s with
  | String c _ => match digit_val c with Some _ => true | None => false end
  | EmptyString => false
  end.

(** [strtol(s, &end, 10)]: the value, clamped to [long], and the string at [end];
    with no digits the result is 0 and [end] is [s]. *)
Definition strtol (s : string) : Z * string :=
  let t := skip_spaces s in
  let '(neg, t) := match t with
                   | String "-" t' => (true, t')
                   | String "+" t' => (false, t')
                   | _ => (false, t)
                   end%char in
  if starts_with_digit t then
    let '(v, rest) := read_digits 0 t in
    let v := if neg : bool then - v else v in
    (INT64_MIN `max` (INT64_MAX `min` v), rest)
  else (0, s).

(** ** The "%d" conversion *)
Definition digit_char (d : Z) : ascii := Ascii.ascii_of_N (Z.to_N (48 + d)).
(** [print_digits fuel n acc]: the decimal digits of [n] before [acc]. *)
Fixpoint print_digits (fuel : nat) (n : Z) (acc : string) : string :=
  match fuel with
  | O => acc
  | S fuel' =>
      let acc := String (digit_char (n mod 10)) acc in
      if n <? 10 then acc else print_digits fuel' (n / 10) acc
  end.
(** Twenty digits are enough for any 64-bit integer. *)
Definition print_int (z : Z) : string :=
  if z <? 0 then String "-" (print_digits 20 (- z) "") else print_digits 20 z "".

Definition zstrlen (s : string) : Z := Z.of_nat (String.length s).

(** ** Comparison of memory as strings *)

(** [strncmp(a, b, n) == 0] for two pointers to memory, [None] when an access
    leaves it. *)
Fixpoint strncmp_eq (n : nat) (a b : list Z) : option bool :=
  match n with
  | O => Some true
  | S n' =>
      match a, b with
      | x :: a', y :: b' =>
          if x =? y then if x =? 0 then Some true else strncmp_eq n' a' b' else Some false
      | _, _ => None
      end
  end.

(** The bytes of a string. *)
Definition bytes_of_string (s : string) : list Z :=
  (λ c, Z.of_N (Ascii.N_of_ascii c)) <$> String.list_ascii_of_string s.

(** ** Lemmas *)
Lemma digit_val_char d : 0 <= d < 10 → digit_val (digit_char d) = Some d.
Proof.
  intros Hd. assert (d = 0 ∨ d = 1 ∨ d = 2 ∨ d = 3 ∨ d = 4 ∨ d = 5 ∨ d = 6 ∨ d = 7 ∨ d = 8 ∨ d = 9)
    as Hc by lia. by repeat destruct Hc as [->|Hc]; subst.
Qed.
(** No character class of [strtol] but the digits contains a digit. *)
Lemma digit_not_special c d :
  digit_val c = Some d → is_space c = false ∧ c ≠ "-"%char ∧ c ≠ "+"%char.
Proof. destruct c as [[] [] [] [] [] [] [] []]; vm_compute; naive_solver. Qed.

Lemma zstrlen_app s t : zstrlen (s +:+ t) = zstrlen s + zstrlen t.
Proof.
  unfold zstrlen. induction s as [|c s IH]; [done|].
  change (String c s +:+ t) with (String c (s +:+ t)). cbn [String.length]. lia.
Qed.
Lemma read_digits_stop acc s : starts_with_digit s = false → read_digits acc s = (acc, s).
Proof. destruct s as [|c s]; simpl; [done|]. by destruct (digit_val c). Qed.
Lemma print_digits_app fuel n t s : print_digits fuel n (t +:+ s) = print_digits fuel n t +:+ s.
Proof.
  revert n t. induction fuel as [|fuel IH]; intros n t; simpl; [done|].
  change (String (digit_char (n mod 10)) (t +:+ s)) with (String (digit_char (n mod 10)) t +:+ s).
  case_match; [done|apply IH].
Qed.
Lemma read_print_digits fuel n acc s :
  0 <= n < 10 ^ Z.of_nat fuel → (0 < fuel)%nat →
  read_digits acc (print_digits fuel n s) =
    read_digits (acc * 10 ^ (zstrlen (print_digits fuel n "")) + n) s.
Proof.
  revert n acc s. induction fuel as [|fuel IH]; intros n acc s Hn Hf; [lia|]. simpl.
  pose proof (Z.mod_pos_bound n 10). pose proof (Z.div_mod n 10).
  rewrite Nat2Z.inj_succ, Z.pow_succ_r in Hn by lia.
  destruct (Z.ltb_spec n 10) as [Hlt|Hge].
  - cbn [read_digits]. rewrite digit_val_char by lia.
    change (zstrlen (String _ "")) with 1. rewrite Z.pow_1_r, (Z.mod_small n) by lia. f_equal. lia.
  - assert (0 < n / 10) by (apply Z.div_str_pos; lia).
    assert (n / 10 < 10 ^ Z.of_nat fuel) by (apply Z.div_lt_upper_bound; lia).
    destruct fuel as [|fuel]; [simpl in *; lia|].
    rewrite IH by lia. cbn [read_digits]. rewrite digit_val_char by lia. f_equal.
    pose proof (print_digits_app (S fuel) (n / 10) "" (String (digit_char (n mod 10)) "")) as E.
    change ("" +:+ String (digit_char (n mod 10)) "") with (String (digit_char (n mod 10)) "") in E.
    rewrite E, zstrlen_app. change (zstrlen (String _ "")) with 1.
    rewrite Z.pow_add_r, Z.pow_1_r by (unfold zstrlen; lia). lia.
Qed.

Lemma print_digits_starts fuel n s :
  0 <= n → (0 < fuel)%nat → ∃ c d t, print_digits fuel n s = String c t ∧ digit_val c = Some d.
Proof.
  revert n s. induction fuel as [|fuel IH]; intros n s Hn Hf; [lia|]. cbn [print_digits].
  pose proof (Z.mod_pos_bound n 10).
  assert (∃ c d t, String (digit_char (n mod 10)) s = String c t ∧ digit_val c = Some d) as Hc.
  { eexists _, _, _. split; [done|]. by apply digit_val_char; lia. }
  case_match; [done|]. destruct fuel as [|fuel]; [done|].
  apply IH; [apply Z.div_pos; lia|lia].
Qed.
Lemma print_int_app z s :
  print_int z +:+ s =
    if z <? 0 then String "-" (print_digits 20 (- z) s) else print_digits 20 z s.
Proof.
  unfold print_int. case_match; [|by rewrite <-print_digits_app].
  change (String "-" (print_digits 20 (- z) "") +:+ s)
    with (String "-" (print_digits 20 (- z) "" +:+ s)). by rewrite <-print_digits_app.
Qed.

(** [strtol] reads back what ["%d"] prints and stops at the first character that
    is not a digit. *)
Lemma strtol_print_int z s :
  INT32_MIN <= z <= INT32_MAX → starts_with_digit s = false →
  strtol (print_int z +:+ s) = (z, s).
Proof.
  intros Hz Hs. rewrite print_int_app. unfold strtol.
  assert (∀ n, 0 <= n <= 2147483648 → ∀ c d t, print_digits 20 n s = String c t →
    digit_val c = Some d →
    starts_with_digit (print_digits 20 n s) = true ∧
    read_digits 0 (print_digits 20 n s) = (n, s)) as Hdigits.
  { intros n Hn c d t Hc Hd. split; [by rewrite Hc; simpl; rewrite Hd|].
    rewrite read_print_digits by lia. rewrite read_digits_stop by done. f_equal; lia. }
  destruct (Z.ltb_spec z 0).
  - change (skip_spaces (String "-" (print_digits 20 (- z) s)))
      with (String "-" (print_digits 20 (- z) s)).
    destruct (print_digits_starts 20 (- z) s) as (c & d & t & Hc & Hd); [lia|lia|].
    cbv iota beta. destruct (Hdigits (- z) ltac:(width) c d t Hc Hd) as [-> ->].
    f_equal. width.
  - destruct (print_digits_starts 20 z s) as (c & d & t & Hc & Hd); [lia|lia|].
    destruct (Hdigits z ltac:(width) c d t Hc Hd) as [H1 H2].
    destruct (digit_not_special c d Hd) as (Hsp & Hm & Hp).
    assert (skip_spaces (print_digits 20 z s) = print_digits 20 z s) as ->
      by (rewrite Hc; simpl; by rewrite Hsp).
    assert ((match print_digits 20 z s with
       | String "-" t' => (true, t') | String "+" t' => (false, t')
       | _ => (false, print_digits 20 z s) end%char) = (false, print_digits 20 z s)) as ->.
    { rewrite Hc. clear -Hm Hp. destruct c as [[] [] [] [] [] [] [] []]; done. }
    rewrite H1, H2. f_equal. width.
Qed.

Lemma print_digits_len fuel n (k : nat) :
  0 <= n < 10 ^ Z.of_nat (S k) → zstrlen (print_digits fuel n "") <= Z.of_nat (S k).
Proof.
  revert n k. induction fuel as [|fuel IH]; intros n k Hn; cbn [print_digits]; [unfold zstrlen; simpl; lia|].
  destruct (Z.ltb_spec n 10); [change (zstrlen (String _ "")) with 1; lia|].
  change (String (digit_char (n mod 10)) "") with ("" +:+ String (digit_char (n mod 10)) "").
  rewrite print_digits_app, zstrlen_app. change (zstrlen (String _ "")) with 1.
  rewrite Nat2Z.inj_succ, Z.pow_succ_r in Hn by lia. destruct k as [|k]; [simpl in Hn; lia|].
  specialize (IH (n / 10) k). pose proof (Z.div_pos n 10).
  assert (n / 10 < 10 ^ Z.of_nat (S k)) by (apply Z.div_lt_upper_bound; lia). lia.
Qed.
Lemma print_int_len z : INT32_MIN <= z <= INT32_MAX → zstrlen (print_int z) <= 11.
Proof.
  intros Hz. unfold print_int. destruct (Z.ltb_spec z 0).
  - change (String "-" (print_digits 20 (- z) "")) with ("-" +:+ print_digits 20 (- z) "").
    rewrite zstrlen_app. change (zstrlen "-") with 1.
    pose proof (print_digits_len 20 (- z) 9). change (10 ^ Z.of_nat 10) with 10000000000 in *. width.
  - pose proof (print_digits_len 20 z 9). change (10 ^ Z.of_nat 10) with 10000000000 in *. width.
Qed.
