(* ===== verification/Float.v ===== *)
(** * Floating-point conversions

    [double] and [float] values are kept as their object representations (IEEE
    754 binary64 and binary32, as unsigned integers), and the conversions the C
    code performs are written out: integer to floating point and between the two
    formats round to nearest, ties to even; floating point to integer truncates
    and is undefined when the result does not fit. *)

From stdpp Require Import base numbers list option.
From S2P Require Import Prelude CInt.
#[local] Open Scope Z_scope.

(** Widths of the stored significand and of the exponent. *)
Record float_format : Set := MkFormat { mbits : Z; ebits : Z }.
Definition binary64 : float_format := MkFormat 52 11.
Definition binary32 : float_format := MkFormat 23 8.

Definition bias (f : float_format) : Z := 2 ^ (ebits f - 1) - 1.
(** The exponent of the last place of the smallest numbers. *)
Definition emin (f : float_format) : Z := 1 - bias f - mbits f.

Inductive fval : Set :=
  | FFinite (neg : bool) (m e : Z)   (* m * 2^e *)
  | FInf (neg : bool)
  | FNaN (neg : bool) (payload : Z).

Definition decode (f : float_format) (bits : Z) : fval :=
  let neg := Z.testbit bits (mbits f + ebits f) in
  let e := Z.shiftr bits (mbits f) mod 2 ^ ebits f in
  let m := bits mod 2 ^ mbits f in
  if e =? 2 ^ ebits f - 1 then if m =? 0 then FInf neg else FNaN neg m
  else if e =? 0 then FFinite neg m (emin f)
  else FFinite neg (m + 2 ^ mbits f) (emin f + e - 1).

Definition sign_bit (f : float_format) (neg : bool) : Z :=
  if neg then 2 ^ (mbits f + ebits f) else 0.
Definition inf_bits (f : float_format) : Z := (2 ^ ebits f - 1) * 2 ^ mbits f.

(** [m / 2^n] rounded to nearest, ties to even. *)
Definition round_shift (m n : Z) : Z :=
  if n <=? 0 then m * 2 ^ (- n)
  else
    let q := m / 2 ^ n in
    let r := m mod 2 ^ n in
    let half := 2 ^ (n - 1) in
    if (half <? r) || ((r =? half) && Z.odd q) then q + 1 else q.
(** The number [m * 2^e] rounded to the format.  Adding the significand with its
    leading bit to the exponent field lets a carry move to the next exponent. *)
Definition round (f : float_format) (neg : bool) (m e : Z) : Z :=
  sign_bit f neg +
  (if m =? 0 then 0
   else
     let e' := (e + Z.log2 m - mbits f) `max` emin f in
     ((e' - emin f) * 2 ^ mbits f + round_shift m (e' - e)) `min` inf_bits f).

Definition float_of_Z (f : float_format) (z : Z) : Z := round f (z <? 0) (Z.abs z) 0.
Definition float_convert (f g : float_format) (bits : Z) : Z :=
  match decode f bits with
  | FFinite neg m e => round g neg m e
  | FInf neg => sign_bit g neg + inf_bits g
  | FNaN neg p =>
      sign_bit g neg + inf_bits g +
      Z.lor (2 ^ (mbits g - 1)) (Z.shiftr (p * 2 ^ mbits g) (mbits f))
  end.
(** Truncation; no value for an infinity or a NaN. *)
Definition float_trunc (f : float_format) (bits : Z) : option Z :=
  match decode f bits with
  | FFinite neg m e =>
      let z := if 0 <=? e then m * 2 ^ e else m / 2 ^ (- e) in
      Some (if neg then - z else z)
  | _ => None
  end.
Definition in_range (lo hi : Z) (z : Z) : option Z :=
  if (lo <=? z) && (z <=? hi) then Some z else None.
Definition float_to_int64 (f : float_format) (bits : Z) : option Z :=
  z ← float_trunc f bits; in_range INT64_MIN INT64_MAX z.
Definition float_to_uint64 (f : float_format) (bits : Z) : option Z :=
  z ← float_trunc f bits; in_range 0 UINT64_MAX z.

(** ** Integers below 2^53 are exact *)
Lemma round_exact f neg m :
  0 < mbits f → 1 < ebits f → 0 < m < 2 ^ (mbits f + 1) → mbits f <= bias f →
  round f neg m 0 = sign_bit f neg + ((Z.log2 m + bias f - 1) * 2 ^ mbits f + m * 2 ^ (mbits f - Z.log2 m)) `min` inf_bits f.
Proof.
  intros Hf He Hm Hb. unfold round. destruct (Z.eqb_spec m 0); [lia|].
  assert (Z.log2 m < mbits f + 1) as Hlog by (apply Z.log2_lt_pow2; lia).
  pose proof (Z.log2_nonneg m). rewrite Z.max_l by (unfold emin; lia).
  unfold round_shift. destruct (Z.leb_spec (0 + Z.log2 m - mbits f - 0) 0); [|lia].
  unfold emin. do 2 f_equal. f_equal; [f_equal; lia|]. do 2 f_equal. lia.
Qed.

(** Decoding of the representation with sign [neg], exponent field [x] and
    mantissa field [m]. *)
Lemma decode_normal neg x m :
  0 < x < 2047 → 0 <= m < 2 ^ 52 →
  decode binary64 (Z.b2z neg * 2 ^ 63 + (x * 2 ^ 52 + m)) = FFinite neg (m + 2 ^ 52) (x - 1075).
Proof.
  intros Hx Hm. set (bits := Z.b2z neg * 2 ^ 63 + (x * 2 ^ 52 + m)).
  assert (0 <= Z.b2z neg <= 1) by by destruct neg.
  assert (bits = (Z.b2z neg * 2 ^ 11 + x) * 2 ^ 52 + m) as Hbits
    by (unfold bits; change (2 ^ 63) with (2 ^ 11 * 2 ^ 52); lia).
  unfold decode. change (mbits binary64) with 52. change (ebits binary64) with 11.
  assert (bits / 2 ^ 52 = Z.b2z neg * 2 ^ 11 + x) as Hq by (symmetry; apply (Z.div_unique_pos _ _ _ m); lia).
  assert (bits mod 2 ^ 52 = m) as Hr
    by (symmetry; apply (Z.mod_unique_pos _ _ (Z.b2z neg * 2 ^ 11 + x)); lia).
  rewrite Z.shiftr_div_pow2, Hq, Hr by lia.
  assert ((Z.b2z neg * 2 ^ 11 + x) mod 2 ^ 11 = x) as ->
    by (symmetry; apply (Z.mod_unique_pos _ _ (Z.b2z neg)); lia).
  destruct (Z.eqb_spec x (2 ^ 11 - 1)); [lia|]. destruct (Z.eqb_spec x 0); [lia|].
  assert (Z.testbit bits (52 + 11) = neg) as ->.
  { rewrite Z.testbit_eqb by lia. change (52 + 11) with 63.
    assert (bits / 2 ^ 63 = Z.b2z neg) as ->.
    { symmetry. apply (Z.div_unique_pos _ _ _ (x * 2 ^ 52 + m));
        change (2 ^ 63) with (2 ^ 11 * 2 ^ 52); lia. }
    by destruct neg. }
  change (emin binary64) with (-1074). f_equal; lia.
Qed.

(** A [double] holds every integer of magnitude below 2^53 exactly: its
    significand is the integer moved to 53 bits. *)
Lemma decode_float_of_Z z :
  0 < Z.abs z < 2 ^ 53 →
  decode binary64 (float_of_Z binary64 z) =
    FFinite (z <? 0) (Z.abs z * 2 ^ (52 - Z.log2 (Z.abs z))) (Z.log2 (Z.abs z) - 52).
Proof.
  unfold float_of_Z. set (m := Z.abs z). intros Hm.
  rewrite round_exact; [|reflexivity|reflexivity|exact Hm|vm_compute; discriminate].
  change (mbits binary64) with 52. change (bias binary64) with 1023.
  change (inf_bits binary64) with (2047 * 2 ^ 52).
  set (l := Z.log2 m).
  assert (0 <= l < 53) as Hl by (split; [apply Z.log2_nonneg|apply Z.log2_lt_pow2; lia]).
  destruct (Z.log2_spec m) as [Hlo Hhi]; [lia|]. fold l in Hlo, Hhi.
  assert (2 ^ 52 = 2 ^ l * 2 ^ (52 - l)) as Hp by (rewrite <-Z.pow_add_r by lia; f_equal; lia).
  assert (2 ^ Z.succ l = 2 * 2 ^ l) as Hs by (rewrite Z.pow_succ_r; lia).
  assert (0 < 2 ^ (52 - l)) as Hpos by lia.
  set (M := m * 2 ^ (52 - l)).
  assert (2 ^ 52 <= M < 2 * 2 ^ 52) as HM by (unfold M; nia).
  rewrite Z.min_l by lia.
  assert ((l + 1023 - 1) * 2 ^ 52 + M = (l + 1023) * 2 ^ 52 + (M - 2 ^ 52)) as -> by lia.
  assert (sign_bit binary64 (z <? 0) = Z.b2z (z <? 0) * 2 ^ 63) as -> by by destruct (z <? 0).
  rewrite decode_normal by lia. f_equal; lia.
Qed.
Lemma double_of_Z_trunc z :
  Z.abs z < 2 ^ 53 → float_to_int64 binary64 (float_of_Z binary64 z) = Some z.
Proof.
  intros Hz. destruct (Z.eq_dec z 0) as [->|Hne]; [by vm_compute|].
  unfold float_to_int64, float_trunc. rewrite decode_float_of_Z by lia. cbn [mbind option_bind].
  set (m := Z.abs z). set (l := Z.log2 m).
  assert (0 <= l < 53) as Hl by (split; [apply Z.log2_nonneg|apply Z.log2_lt_pow2; lia]).
  assert ((if 0 <=? l - 52 then m * 2 ^ (52 - l) * 2 ^ (l - 52) else m * 2 ^ (52 - l) / 2 ^ (- (l - 52))) = m) as ->.
  { destruct (Z.leb_spec 0 (l - 52)) as [Hle|Hlt].
    - assert (l = 52) as -> by lia. change (52 - 52) with 0. lia.
    - replace (- (l - 52)) with (52 - l) by lia. by apply Z.div_mul; lia. }
  assert ((if z <? 0 then - m else m) = z) as -> by (unfold m; destruct (Z.ltb_spec z 0); lia).
  unfold in_range. destruct (Z.leb_spec INT64_MIN z), (Z.leb_spec z INT64_MAX); try done; width.
Qed.
