(* ===== verification/Metadata.v ===== *)
(** * Key-value metadata (nanoarrow.c, metadata.c part)

    The binary encoding of a schema's metadata: a 32-bit count followed, for
    each pair, by the size of the key, the key, the size of the value and the
    value.  The file models the reader and the builder, gives the encoding a
    specification as a list of pairs, and proves that the builder's operations
    are operations on that list, read back by the reader.

    The views passed to the builder point to memory other than the builder's
    buffer. *)

From stdpp Require Import base numbers list option.
From S2P Require Import Prelude CInt CString Buffer.
#[local] Open Scope Z_scope.
#[local] Open Scope c_scope.

Record ArrowMetadataReader : Set := MkReader {
  metadata : option (list Z);
  offset : Z;
  remaining_keys : Z;
}.

(** [p + off] for a pointer into the object [l]. *)
Definition ptr_add (l : list Z) (off : Z) : option (list Z) :=
  if (0 <=? off) && (off <=? zlen l) then Some (drop (Z.to_nat off) l) else None.

Definition ArrowMetadataReaderInit (m : option (list Z)) : option ArrowMetadataReader :=
  match m with
  | None => Some (MkReader None 0 0)
  | Some d => n ← load_i 4 d 0; Some (MkReader m 4 n)
  end.

(** The two views a read returns, and the reader after it. *)
Definition read_pair (r : ArrowMetadataReader) (m : list Z) :
    option ((ArrowView * ArrowView) * ArrowMetadataReader) :=
  key_size ← load_i 4 m (offset r);
  key_data ← ptr_add m (offset r + 4);
  value_size ← load_i 4 m (offset r + 4 + key_size);
  value_data ← ptr_add m (offset r + 4 + key_size + 4);
  let pos := 4 + key_size + 4 + value_size in
  Some ((MkView (Some key_data) key_size, MkView (Some value_data) value_size),
        MkReader (metadata r) (offset r + pos) (remaining_keys r - 1)).

Definition ArrowMetadataReaderRead : M ArrowMetadataReader (ArrowView * ArrowView) := λ r,
  if remaining_keys r <=? 0 then Err EINVAL r
  else
    match metadata r with
    | None => UB
    | Some m => match read_pair r m with
                | Some (kv, r') => Ok kv r'
                | None => UB
                end
    end.

(** The loops [while (ArrowMetadataReaderRead(...) == NANOARROW_OK)] are bounded by
    [remaining_keys]: each successful read decrements it and a read at 0 fails. *)
Fixpoint size_loop (fuel : nat) (r : ArrowMetadataReader) (size : Z) : option Z :=
  match fuel with
  | O => Some size
  | S fuel' =>
      match ArrowMetadataReaderRead r with
      | Ok (key, value) r' =>
          size_loop fuel' r' (size + 4 + view_size key + 4 + view_size value)
      | Err _ _ => Some size
      | UB => None
      end
  end.
Definition ArrowMetadataSizeOf (m : option (list Z)) : option Z :=
  match m with
  | None => Some 0
  | Some _ =>
      r ← ArrowMetadataReaderInit m;
      size_loop (Z.to_nat (remaining_keys r)) r 4
  end.

(** [key->size_bytes == existing->size_bytes &&
     strncmp(key->data, existing->data, existing->size_bytes) == 0]; a negative
    size is a huge [size_t], and the comparison runs to the end of memory. *)
Definition key_equal (key existing : ArrowView) : option bool :=
  if view_size key =? view_size existing then
    a ← view_data key;
    b ← view_data existing;
    strncmp_eq (if view_size existing <? 0 then S (length a) else Z.to_nat (view_size existing)) a b
  else Some false.

Fixpoint get_loop (fuel : nat) (r : ArrowMetadataReader) (key value_out : ArrowView) :
    option ArrowView :=
  match fuel with
  | O => Some value_out
  | S fuel' =>
      match ArrowMetadataReaderRead r with
      | Ok (existing_key, existing_value) r' =>
          eq ← key_equal key existing_key;
          if eq : bool then Some existing_value else get_loop fuel' r' key value_out
      | Err _ _ => Some value_out
      | UB => None
      end
  end.
(** The value of [*value_out] after the call. *)
Definition ArrowMetadataGetValueInternal (m : option (list Z)) (key value_out : ArrowView) :
    option ArrowView :=
  r ← ArrowMetadataReaderInit m;
  get_loop (Z.to_nat (remaining_keys r)) r key value_out.
(** The caller passes a non-NULL [value_out]. *)
Definition ArrowMetadataGetValue (m : option (list Z)) (key value_out : ArrowView) :
    option ArrowView := ArrowMetadataGetValueInternal m key value_out.
Definition ArrowMetadataHasKey (m : option (list Z)) (key : ArrowView) : option bool :=
  v ← ArrowMetadataGetValue m key (MkView None 0);
  Some (match view_data v with Some _ => true | None => false end).

Section builder.
Context `{!Libc}.

Definition ArrowMetadataBuilderInit (m : option (list Z)) : M ArrowBuffer unit := λ _,
  match ArrowMetadataSizeOf m with
  | None => UB
  | Some n => ArrowBufferAppend m n ArrowBufferInit
  end.

Definition ArrowMetadataBuilderAppendInternal (key : ArrowView) (value : option ArrowView) :
    M ArrowBuffer unit :=
  match value with
  | None => mret_ tt
  | Some value =>
      let* cap := mget capacity_bytes in
      (if cap =? 0 then ArrowBufferAppendInt32 0 else mret_ tt) ;;;
      let* cap := mget capacity_bytes in
      check (4 <=? u64 cap) EINVAL ;;;
      let* d := mget data in
      let* d := deref d in
      let* n_keys := deref (load_i 4 d 0) in
      let key_size := i32 (view_size key) in
      let value_size := i32 (view_size value) in
      ArrowBufferReserve (i64 (u64 (4 + key_size + 4 + value_size))) ;;;
      ArrowBufferAppendUnsafe (Some (le_bytes 4 key_size)) 4 ;;;
      ArrowBufferAppendUnsafe (view_data key) key_size ;;;
      ArrowBufferAppendUnsafe (Some (le_bytes 4 value_size)) 4 ;;;
      ArrowBufferAppendUnsafe (view_data value) value_size ;;;
      upd_data (λ d, zwrite d 0 (le_bytes 4 (i32 (n_keys + 1))))
  end.

(** The loop over the existing pairs, writing to the new buffer. *)
Fixpoint set_loop (fuel : nat) (r : ArrowMetadataReader) (key : ArrowView)
    (value : option ArrowView) : M ArrowBuffer unit :=
  match fuel with
  | O => mret_ tt
  | S fuel' =>
      match ArrowMetadataReaderRead r with
      | UB => mundef
      | Err e _ => mfail e
      | Ok (existing_key, existing_value) r' =>
          let* eq := deref (key_equal key existing_key) in
          if eq : bool then
            ArrowMetadataBuilderAppendInternal key value ;;;
            set_loop fuel' r' key None
          else
            ArrowMetadataBuilderAppendInternal existing_key (Some existing_value) ;;;
            set_loop fuel' r' key value
      end
  end.

Definition ArrowMetadataBuilderSetInternal (key : ArrowView) (value : option ArrowView) :
    M ArrowBuffer unit := λ b,
  match ArrowMetadataGetValueInternal (data b) key (MkView None 0) with
  | None => UB
  | Some current_value =>
      match value, view_data current_value with
      | None, None => Ok tt b
      | Some _, None => ArrowMetadataBuilderAppendInternal key value b
      | _, Some _ =>
          match ArrowMetadataReaderInit (data b) with
          | None => UB
          | Some r =>
              match (ArrowMetadataBuilderInit None ;;;
                     set_loop (Z.to_nat (remaining_keys r)) r key value) ArrowBufferInit with
              | Ok _ new_buffer => Ok tt (ArrowBufferMove new_buffer).1
              | Err e _ => Err e b
              | UB => UB
              end
          end
      end
  end.

Definition ArrowMetadataBuilderAppend (key value : ArrowView) : M ArrowBuffer unit :=
  ArrowMetadataBuilderAppendInternal key (Some value).
Definition ArrowMetadataBuilderSet (key value : ArrowView) : M ArrowBuffer unit :=
  ArrowMetadataBuilderSetInternal key (Some value).
Definition ArrowMetadataBuilderRemove (key : ArrowView) : M ArrowBuffer unit :=
  ArrowMetadataBuilderSetInternal key None.
End builder.

(** ** The encoding *)
Definition kv : Type := list Z * list Z.
Definition encode_pair (p : kv) : list Z :=
  le_bytes 4 (zlen p.1) ++ p.1 ++ le_bytes 4 (zlen p.2) ++ p.2.
Definition encode_pairs (l : list kv) : list Z := concat (encode_pair <$> l).
Definition encode (l : list kv) : list Z := le_bytes 4 (zlen l) ++ encode_pairs l.

Definition kv_ok (p : kv) : Prop :=
  bytes_ok p.1 ∧ bytes_ok p.2 ∧ zlen p.1 <= INT32_MAX ∧ zlen p.2 <= INT32_MAX.
Definition kvs_ok (l : list kv) : Prop := Forall kv_ok l ∧ zlen l <= INT32_MAX.

(** [metadata] points to memory that starts with the encoding of [l]; a NULL
    pointer stands for no pairs. *)
Definition represents (m : option (list Z)) (l : list kv) : Prop :=
  kvs_ok l ∧ match m with None => l = [] | Some d => ∃ post, d = encode l ++ post end.
Definition view_is (v : ArrowView) (d : list Z) : Prop :=
  ∃ post, view_data v = Some (d ++ post) ∧ view_size v = zlen d.

(** ** Reading *)
Lemma zlen_encode_pair p : zlen (encode_pair p) = 8 + zlen p.1 + zlen p.2.
Proof. unfold encode_pair. rewrite !zlen_app, !zlen_le_bytes. lia. Qed.
Lemma encode_pairs_app l1 l2 : encode_pairs (l1 ++ l2) = encode_pairs l1 ++ encode_pairs l2.
Proof. unfold encode_pairs. by rewrite fmap_app, concat_app. Qed.
Lemma encode_pairs_cons p l : encode_pairs (p :: l) = encode_pair p ++ encode_pairs l.
Proof. done. Qed.
Lemma encode_pair_ok p : kv_ok p → bytes_ok (encode_pair p).
Proof.
  intros (? & ? & _). unfold encode_pair, bytes_ok.
  rewrite !Forall_app. split_and!; try done; apply le_bytes_ok.
Qed.
Lemma encode_pairs_ok l : Forall kv_ok l → bytes_ok (encode_pairs l).
Proof.
  induction 1; [constructor|]. rewrite encode_pairs_cons. apply Forall_app.
  split; [by apply encode_pair_ok|done].
Qed.
Lemma zlen_encode l : zlen (encode l) = 4 + zlen (encode_pairs l).
Proof. unfold encode. by rewrite zlen_app, zlen_le_bytes. Qed.

Lemma ptr_add_app pre post : ptr_add (pre ++ post) (zlen pre) = Some post.
Proof.
  unfold ptr_add. pose proof (zlen_nonneg pre). pose proof (zlen_nonneg post).
  rewrite zlen_app. destruct (Z.leb_spec 0 (zlen pre)), (Z.leb_spec (zlen pre) (zlen pre + zlen post));
    try lia. simpl. unfold zlen. by rewrite Nat2Z.id, drop_app_length.
Qed.
Lemma load_i32_app pre post z :
  0 <= z <= INT32_MAX → load_i 4 (pre ++ le_bytes 4 z ++ post) (zlen pre) = Some z.
Proof. intros. apply load_i_app; simpl; width. Qed.

Definition pair_views (p : kv) (post : list Z) : ArrowView * ArrowView :=
  (MkView (Some (p.1 ++ le_bytes 4 (zlen p.2) ++ p.2 ++ post)) (zlen p.1),
   MkView (Some (p.2 ++ post)) (zlen p.2)).
Lemma pair_views_fst p post : view_is (pair_views p post).1 p.1.
Proof. by eexists. Qed.
Lemma pair_views_snd p post : view_is (pair_views p post).2 p.2.
Proof. by eexists. Qed.

(** A reader that stands before the pairs [l]. *)
Definition reader_at (r : ArrowMetadataReader) (l : list kv) : Prop :=
  remaining_keys r = zlen l ∧ Forall kv_ok l ∧
  (l ≠ [] → ∃ pre post, metadata r = Some (pre ++ encode_pairs l ++ post) ∧ offset r = zlen pre).

Lemma read_nil r : reader_at r [] → ArrowMetadataReaderRead r = Err EINVAL r.
Proof. intros (Hr & _). unfold ArrowMetadataReaderRead. by rewrite Hr. Qed.
Lemma read_cons r p l :
  reader_at r (p :: l) →
  ∃ post r', ArrowMetadataReaderRead r = Ok (pair_views p post) r' ∧ reader_at r' l.
Proof.
  intros (Hr & Hok & Hm). apply Forall_cons_1 in Hok as [Hp Hl].
  destruct Hm as (pre & post & Hm & Ho); [done|].
  destruct Hp as (Hk & Hv & Hks & Hvs).
  pose proof (zlen_nonneg p.1). pose proof (zlen_nonneg p.2). pose proof (zlen_nonneg l).
  exists (encode_pairs l ++ post).
  eexists (MkReader (metadata r) (offset r + (4 + zlen p.1 + 4 + zlen p.2)) (remaining_keys r - 1)).
  rewrite zlen_cons in Hr. split.
  - unfold ArrowMetadataReaderRead. rewrite Hr.
    destruct (Z.leb_spec (1 + zlen l) 0); [lia|]. rewrite Hm. unfold read_pair.
    rewrite encode_pairs_cons, <-!app_assoc. unfold encode_pair. rewrite <-!app_assoc, Ho.
    rewrite load_i32_app by lia. cbn [mbind option_bind].
    assert (ptr_add (pre ++ le_bytes 4 (zlen p.1) ++ p.1 ++ le_bytes 4 (zlen p.2) ++ p.2 ++
      encode_pairs l ++ post) (zlen pre + 4) =
      Some (p.1 ++ le_bytes 4 (zlen p.2) ++ p.2 ++ encode_pairs l ++ post)) as ->.
    { rewrite app_assoc. replace (zlen pre + 4) with (zlen (pre ++ le_bytes 4 (zlen p.1)))
        by (rewrite zlen_app, zlen_le_bytes; lia). apply ptr_add_app. }
    cbn [mbind option_bind].
    assert (load_i 4 (pre ++ le_bytes 4 (zlen p.1) ++ p.1 ++ le_bytes 4 (zlen p.2) ++ p.2 ++
      encode_pairs l ++ post) (zlen pre + 4 + zlen p.1) = Some (zlen p.2)) as ->.
    { rewrite (app_assoc (le_bytes 4 (zlen p.1))), app_assoc.
      replace (zlen pre + 4 + zlen p.1) with (zlen (pre ++ le_bytes 4 (zlen p.1) ++ p.1))
        by (rewrite !zlen_app, zlen_le_bytes; lia). apply load_i32_app. lia. }
    cbn [mbind option_bind].
    assert (ptr_add (pre ++ le_bytes 4 (zlen p.1) ++ p.1 ++ le_bytes 4 (zlen p.2) ++ p.2 ++
      encode_pairs l ++ post) (zlen pre + 4 + zlen p.1 + 4) =
      Some (p.2 ++ encode_pairs l ++ post)) as ->.
    { rewrite (app_assoc p.1), (app_assoc (le_bytes 4 (zlen p.1))), app_assoc.
      replace (zlen pre + 4 + zlen p.1 + 4)
        with (zlen (pre ++ le_bytes 4 (zlen p.1) ++ p.1 ++ le_bytes 4 (zlen p.2)))
        by (rewrite !zlen_app, !zlen_le_bytes; lia). apply ptr_add_app. }
    cbn [mbind option_bind]. rewrite Hm, Hr, encode_pairs_cons. unfold encode_pair.
    by rewrite <-!app_assoc.
  - split_and!; simpl; [lia|done|]. intros _. exists (pre ++ encode_pair p), post. split.
    + by rewrite Hm, encode_pairs_cons, <-!app_assoc.
    + rewrite zlen_app, zlen_encode_pair. lia.
Qed.
Lemma reader_init m l :
  represents m l → ∃ r, ArrowMetadataReaderInit m = Some r ∧ reader_at r l.
Proof.
  intros [[Hok Hn] Hm]. pose proof (zlen_nonneg l).
  destruct m as [d|]; unfold ArrowMetadataReaderInit.
  - destruct Hm as [post ->]. unfold encode. rewrite <-app_assoc.
    pose proof (load_i32_app [] (encode_pairs l ++ post) (zlen l)) as Hload.
    change (zlen (@nil Z)) with 0 in Hload. cbn [app] in Hload. rewrite Hload by lia.
    cbn [mbind option_bind]. eexists. split; [done|]. split_and!; [done|done|]. intros _.
    exists (le_bytes 4 (zlen l)), post. split; [done|]. by rewrite zlen_le_bytes.
  - subst l. eexists. split; [done|]. by split_and!.
Qed.
Lemma reader_fuel r l : reader_at r l → Z.to_nat (remaining_keys r) = length l.
Proof. intros (-> & _). unfold zlen. lia. Qed.

(** ** Sizes and lookups *)
Lemma size_loop_spec l : ∀ r size,
  reader_at r l → size_loop (length l) r size = Some (size + zlen (encode_pairs l)).
Proof.
  induction l as [|p l IH]; intros r size Hr; cbn [length size_loop].
  { f_equal. change (zlen (encode_pairs [])) with 0. lia. }
  destruct (read_cons _ _ _ Hr) as (post & r' & -> & Hr'). unfold pair_views.
  rewrite IH by done. f_equal. rewrite encode_pairs_cons, zlen_app, zlen_encode_pair. simpl. lia.
Qed.

(** The pair [strncmp] on keys of equal size selects. *)
Definition no_nul (k : list Z) : Prop := Forall (λ b, b ≠ 0) k.
Lemma strncmp_eq_spec k k' post post' :
  no_nul k → zlen k = zlen k' →
  strncmp_eq (length k') (k ++ post) (k' ++ post') = Some (bool_decide (k = k')).
Proof.
  intros Hk. revert k'. induction Hk as [|x k Hx Hk IH]; intros [|y k'] Hlen;
    rewrite ?zlen_cons, ?zlen_nil in Hlen; try (pose proof (zlen_nonneg k)); try (pose proof (zlen_nonneg k'));
    try lia; [done|]. cbn [strncmp_eq length app].
  destruct (Z.eqb_spec x y) as [->|Hne].
  - destruct (Z.eqb_spec y 0); [done|]. rewrite IH by lia. f_equal. apply bool_decide_ext. naive_solver.
  - f_equal. symmetry. apply bool_decide_eq_false. naive_solver.
Qed.
Lemma key_equal_spec v v' k k' :
  view_is v k → view_is v' k' → no_nul k → key_equal v v' = Some (bool_decide (k = k')).
Proof.
  intros (post & Hd & Hs) (post' & Hd' & Hs') Hk. unfold key_equal. rewrite Hd, Hs, Hd', Hs'.
  pose proof (zlen_nonneg k'). destruct (Z.eqb_spec (zlen k) (zlen k')) as [Heq|Hne].
  - cbn [mbind option_bind]. destruct (Z.ltb_spec (zlen k') 0); [lia|].
    unfold zlen at 1. rewrite Nat2Z.id. by apply strncmp_eq_spec.
  - f_equal. symmetry. apply bool_decide_eq_false. naive_solver.
Qed.

(** The first value under a key. *)
Fixpoint lookup_key (k : list Z) (l : list kv) : option (list Z) :=
  match l with
  | [] => None
  | p :: l' => if decide (k = p.1) then Some p.2 else lookup_key k l'
  end.

Lemma get_loop_spec key k l : ∀ r out,
  reader_at r l → view_is key k → no_nul k →
  ∃ v, get_loop (length l) r key out = Some v ∧
    match lookup_key k l with Some d => view_is v d | None => v = out end.
Proof.
  induction l as [|p l IH]; intros r out Hr Hkey Hk; cbn [length get_loop lookup_key]; [eauto|].
  destruct (read_cons _ _ _ Hr) as (post & r' & -> & Hr').
  pose proof (pair_views_fst p post). pose proof (pair_views_snd p post).
  destruct (pair_views p post) as [ek ev]; simpl in *.
  erewrite key_equal_spec by done. cbn [mbind option_bind].
  destruct (decide (k = p.1)) as [->|Hne].
  - rewrite bool_decide_true by done. eauto.
  - rewrite bool_decide_false by done. by apply IH.
Qed.

(** ** Building *)
Section building.
Context `{!Libc}.
Implicit Types (b : ArrowBuffer) (l : list kv).

(** The buffer of a builder that holds the pairs [l].  Before the first pair it
    may have no memory at all. *)
Record builds b l : Prop := {
  builds_wf : buffer_wf b;
  builds_ok : kvs_ok l;
  builds_capacity : capacity_bytes b <= 2 * size_bytes b;
  builds_contents : contents b = encode l ∨ data b = None ∧ l = [];
}.
Definition build_failed (e : errno) b : Prop := e = ENOMEM ∧ buffer_wf b.

Lemma builds_init : builds ArrowBufferInit [].
Proof. split; [apply buffer_wf_init| |done|by right]. split; [constructor|by vm_compute]. Qed.
Lemma builds_represents b l : builds b l → represents (data b) l.
Proof.
  intros [Hwf Hok Hc [Hct|[Hz ->]]]; split; try done.
  - pose proof (zlen_contents b Hwf) as Hlen. rewrite Hct, zlen_encode in Hlen.
    pose proof (zlen_nonneg (encode_pairs l)).
    destruct (data_contents b) as [post ->]; [done|pose proof (buffer_size _ Hwf); lia|].
    rewrite Hct. eauto.
  - by rewrite Hz.
Qed.

(** The four unchecked writes of a pair. *)
Lemma append_fields_wp {A} b k v pk pv (m : M ArrowBuffer A) Q E :
  buffer_wf b → kv_ok (k, v) → size_bytes b + zlen (encode_pair (k, v)) <= capacity_bytes b →
  capacity_bytes b <= INT64_MAX →
  (∀ b', buffer_wf b' → contents b' = contents b ++ encode_pair (k, v) →
    size_bytes b' = size_bytes b + zlen (encode_pair (k, v)) →
    capacity_bytes b' = capacity_bytes b → wp m b' Q E) →
  wp (ArrowBufferAppendUnsafe (Some (le_bytes 4 (zlen k))) 4 ;;;
      ArrowBufferAppendUnsafe (Some (k ++ pk)) (zlen k) ;;;
      ArrowBufferAppendUnsafe (Some (le_bytes 4 (zlen v))) 4 ;;;
      ArrowBufferAppendUnsafe (Some (v ++ pv)) (zlen v) ;;; m) b Q E.
Proof.
  intros Hwf (Hk & Hv & _) Hroom Hcap Hm. rewrite zlen_encode_pair in *. simpl in *.
  pose proof (zlen_nonneg k). pose proof (zlen_nonneg v).
  assert (∀ z, source_of (Some (le_bytes 4 z)) 4 (le_bytes 4 z)) as Hsrc.
  { intros z. pose proof (source_of_app (le_bytes 4 z) []) as Hs.
    by rewrite app_nil_r, zlen_le_bytes in Hs. }
  apply wp_bind. eapply wp_mono; [apply (append_unsafe_wp b _ _ (le_bytes 4 (zlen k)));
    try done; try lia; first [apply le_bytes_ok|apply Hsrc]| |done].
  intros ? b1 (Hwf1 & Hct1 & Hsz1 & Hcap1 & _).
  apply wp_bind. eapply wp_mono; [apply (append_unsafe_wp b1 _ _ k);
    try done; try lia; apply source_of_app| |done].
  intros ? b2 (Hwf2 & Hct2 & Hsz2 & Hcap2 & _).
  apply wp_bind. eapply wp_mono; [apply (append_unsafe_wp b2 _ _ (le_bytes 4 (zlen v)));
    try done; try lia; first [apply le_bytes_ok|apply Hsrc]| |done].
  intros ? b3 (Hwf3 & Hct3 & Hsz3 & Hcap3 & _).
  apply wp_bind. eapply wp_mono; [apply (append_unsafe_wp b3 _ _ v);
    try done; try lia; apply source_of_app| |done].
  intros ? b4 (Hwf4 & Hct4 & Hsz4 & Hcap4 & _). apply Hm; [done| |lia|lia].
  rewrite Hct4, Hct3, Hct2, Hct1. unfold encode_pair. by rewrite <-!app_assoc.
Qed.

(** Step 1 of an append: the count is there. *)
Lemma builder_count_wp b l :
  builds b l → 4 * (zlen (encode l) + 8) <= INT64_MAX →
  wp (let* cap := mget capacity_bytes in
      if cap =? 0 then ArrowBufferAppendInt32 0 else mret_ tt) b
    (λ _ b', builds b' l ∧ contents b' = encode l)
    build_failed.
Proof.
  intros Hb Hmax. pose proof Hb as [Hwf Hok Hc Hct]. pose proof (buffer_size _ Hwf) as Hs.
  pose proof (zlen_contents b Hwf) as Hlen. pose proof (zlen_nonneg (encode_pairs l)).
  rewrite zlen_encode in Hmax. apply wp_bind, wp_get.
  destruct (Z.eqb_spec (capacity_bytes b) 0) as [Hz|Hnz].
  - destruct Hct as [Hct|[_ ->]]; [rewrite Hct, zlen_encode in Hlen; lia|].
    eapply wp_mono; [apply append_int_wp; [done|split; width]| |].
    + intros ? b' (Hwf' & Hct' & Hsz' & _ & Hcap' & _). change (zlen (le_bytes 4 0)) with 4 in *.
      assert (contents b = []) as Hnil.
      { apply nil_length_inv. unfold zlen in Hlen. lia. }
      rewrite Hnil in Hct'. split; [|done]. split; try done; [lia|by left].
    + intros e b' (? & ? & _). by split.
  - apply wp_ret. destruct Hct as [Hct|[Hd _]]; [done|].
    pose proof (buffer_block _ Hwf) as Hblk. by rewrite Hd in Hblk.
Qed.

Lemma append_internal_wp b l key value k v :
  builds b l → view_is key k → view_is value v → kv_ok (k, v) → zlen l < INT32_MAX →
  4 * (zlen (encode l) + zlen (encode_pair (k, v))) <= INT64_MAX →
  wp (ArrowMetadataBuilderAppendInternal key (Some value)) b
    (λ _ b', builds b' (l ++ [(k, v)])) build_failed.
Proof.
  intros Hb (pk & Hkd & Hks) (pv & Hvd & Hvs) Hkv Hl Hmax. pose proof Hkv as (Hkok & Hvok & Hkz & Hvz).
  pose proof (zlen_nonneg k). pose proof (zlen_nonneg v). pose proof (zlen_nonneg l). simpl in Hkz, Hvz.
  rewrite zlen_encode_pair in Hmax. simpl in Hmax.
  unfold ArrowMetadataBuilderAppendInternal. rewrite Hkd, Hks, Hvd, Hvs, !i32_small by width.
  apply (wp_bind (let* cap := mget capacity_bytes in
      if cap =? 0 then ArrowBufferAppendInt32 0 else mret_ tt)).
  eapply wp_mono; [by apply builder_count_wp; try done; width| |done].
  intros ? b1 [Hb1 Hct1]. pose proof Hb1 as [Hwf1 Hok1 Hc1 _].
  pose proof (zlen_contents b1 Hwf1) as Hlen1. rewrite Hct1 in Hlen1.
  rewrite zlen_encode in *. pose proof (zlen_nonneg (encode_pairs l)). pose proof (buffer_size _ Hwf1).
  apply wp_bind, wp_get. apply wp_bind, wp_check.
  2:{ intros Hcap. unfold u64 in Hcap. rewrite uwrap_small in Hcap by width. zbool. lia. }
  intros _. apply wp_bind, wp_get. destruct (data_contents b1) as [post ->]; [done|lia|].
  apply wp_bind, wp_ret. rewrite Hct1. unfold encode. rewrite <-app_assoc.
  pose proof (load_i32_app [] (encode_pairs l ++ post) (zlen l)) as Hload.
  change (zlen (@nil Z)) with 0 in Hload. cbn [app] in Hload. rewrite Hload by lia.
  apply wp_bind, wp_ret. unfold u64. rewrite uwrap_small, i64_small by width.
  (* room for the pair *)
  apply wp_bind. eapply wp_mono; [apply reserve_wp; [done|lia|split; width]| |].
  2:{ intros e b' (? & ? & _). by split. }
  intros ? b2 (Hwf2 & Hct2 & Hsz2 & Hroom2 & _ & Hcap2 & _).
  apply append_fields_wp; try done; rewrite ?zlen_encode_pair; simpl; [lia|width|].
  intros b3 Hwf3 Hct3 Hsz3 Hcap3.
  rewrite Hct2, Hct1 in Hct3. unfold encode in Hct3. rewrite <-app_assoc in Hct3.
  eapply wp_mono; [eapply overwrite_wp; [done|apply le_bytes_ok|exact Hct3|done|done]| |done].
  intros ? b4 (Hwf4 & Hct4 & Hsz4 & Hcap4 & _). rewrite i32_small in Hct4 by width.
  split; [done| |lia|left].
  - destruct Hok1 as [Hall _]. split; [apply Forall_app; by repeat constructor|].
    rewrite zlen_app, zlen_cons, zlen_nil. lia.
  - rewrite Hct4. unfold encode. rewrite encode_pairs_app, zlen_app, zlen_cons, zlen_nil.
    unfold encode_pairs at 3. simpl. by rewrite app_nil_r.
Qed.


(** What replacing the value under [k] does to the pairs: the first pair with
    that key gets the new value and the later ones disappear; with no value all
    of them disappear. *)
Fixpoint set_pairs (k : list Z) (v : option (list Z)) (l : list kv) : list kv :=
  match l with
  | [] => []
  | p :: l' =>
      if decide (k = p.1) then
        (match v with Some d => [(k, d)] | None => [] end) ++ set_pairs k None l'
      else p :: set_pairs k v l'
  end.
Definition value_is (value : option ArrowView) (v : option (list Z)) : Prop :=
  match value, v with
  | Some w, Some d => view_is w d
  | None, None => True
  | _, _ => False
  end.

Lemma zlen_encode_app l1 l2 : zlen (encode (l1 ++ l2)) = zlen (encode l1) + zlen (encode_pairs l2).
Proof. rewrite !zlen_encode, encode_pairs_app, zlen_app. lia. Qed.

Lemma zlen_encode_snoc l p : zlen (encode (l ++ [p])) = zlen (encode l) + zlen (encode_pair p).
Proof. rewrite zlen_encode_app, encode_pairs_cons, zlen_app. change (zlen (encode_pairs [])) with 0. lia. Qed.

Lemma set_loop_wp key k l : ∀ r value v b acc,
  reader_at r l → view_is key k → no_nul k → value_is value v →
  (∀ d, v = Some d → kv_ok (k, d)) → builds b acc →
  zlen (acc ++ set_pairs k v l) <= INT32_MAX →
  4 * zlen (encode (acc ++ set_pairs k v l)) <= INT64_MAX →
  wp (set_loop (length l) r key value) b (λ _ b', builds b' (acc ++ set_pairs k v l)) build_failed.
Proof.
  induction l as [|[pk pv] l IH]; intros r value v b acc Hr Hkey Hk Hval Hv Hb Hn Hsz; cbn [length set_loop].
  { apply wp_ret. by rewrite app_nil_r. }
  destruct (read_cons _ _ _ Hr) as (post & r' & -> & Hr').
  pose proof (pair_views_fst (pk, pv) post) as Hp1. pose proof (pair_views_snd (pk, pv) post) as Hp2.
  destruct Hr as (_ & Hok & _). apply Forall_cons_1 in Hok as [Hp _].
  destruct (pair_views (pk, pv) post) as [ek ev]; simpl in Hp1, Hp2.
  apply wp_bind. erewrite key_equal_spec by done. apply wp_ret.
  cbn [set_pairs fst] in *. destruct (decide (k = pk)) as [Heq|Hne].
  - rewrite bool_decide_true by done. destruct value as [w|], v as [d|]; try done.
    + rewrite (app_assoc acc) in *.
      pose proof (zlen_nonneg (set_pairs k None l)).
      pose proof (zlen_nonneg (encode_pairs (set_pairs k None l))).
      rewrite zlen_encode_app, zlen_encode_snoc in Hsz.
      rewrite !zlen_app, zlen_cons, zlen_nil in Hn.
      apply wp_bind. eapply wp_mono; [apply append_internal_wp; eauto; lia| |done].
      intros ? b' Hb'. apply (IH r' None None); try done.
      * rewrite !zlen_app, zlen_cons, zlen_nil. lia.
      * rewrite zlen_encode_app, zlen_encode_snoc. lia.
    + apply wp_bind, wp_ret. by apply (IH r' None None).
  - rewrite bool_decide_false by done. rewrite cons_middle, (app_assoc acc) in *.
    pose proof (zlen_nonneg (set_pairs k v l)).
    pose proof (zlen_nonneg (encode_pairs (set_pairs k v l))).
    rewrite zlen_app, zlen_app, zlen_cons, zlen_nil in Hn. rewrite zlen_encode_app, zlen_encode_snoc in Hsz.
    apply wp_bind. eapply wp_mono; [apply append_internal_wp; eauto; lia| |done].
    intros ? b' Hb'. apply (IH r' value v); try done.
    + rewrite !zlen_app, zlen_cons, zlen_nil. lia.
    + rewrite zlen_encode_app, zlen_encode_snoc. lia.
Qed.

Definition set_spec (k : list Z) (v : option (list Z)) (l : list kv) : list kv :=
  match lookup_key k l, v with
  | None, None => l
  | None, Some d => l ++ [(k, d)]
  | Some _, _ => set_pairs k v l
  end.
Definition encodable l : Prop := zlen l <= INT32_MAX ∧ 4 * zlen (encode l) <= INT64_MAX.

Lemma set_internal_wp b l key k value v :
  builds b l → view_is key k → no_nul k → value_is value v →
  (∀ d, v = Some d → kv_ok (k, d)) → encodable (set_spec k v l) →
  wp (ArrowMetadataBuilderSetInternal key value) b (λ _ b', builds b' (set_spec k v l)) build_failed.
Proof.
  intros Hb Hkey Hk Hval Hv [Hn Hsz].
  destruct (reader_init _ _ (builds_represents _ _ Hb)) as (r & Hinit & Hr).
  unfold wp, ArrowMetadataBuilderSetInternal, ArrowMetadataGetValueInternal.
  rewrite Hinit. cbn [mbind option_bind]. rewrite (reader_fuel _ _ Hr).
  destruct (get_loop_spec key k l r (MkView None 0)) as (cur & -> & Hcur); try done.
  unfold set_spec in *. destruct (lookup_key k l) as [d0|].
  - destruct Hcur as (post & -> & _).
    pose proof (set_loop_wp key k l r value v ArrowBufferInit [] Hr Hkey Hk Hval Hv builds_init Hn Hsz)
      as Hloop. unfold wp in Hloop.
    change ((ArrowMetadataBuilderInit None ;;; set_loop (length l) r key value) ArrowBufferInit)
      with (set_loop (length l) r key value ArrowBufferInit).
    destruct value, (set_loop (length l) r key _ ArrowBufferInit); try done;
      destruct Hloop as [-> _]; split; [done|apply Hb|done|apply Hb].
  - subst cur. simpl. destruct value as [w|], v as [d|]; try done.
    rewrite zlen_app, zlen_cons, zlen_nil in Hn. rewrite zlen_encode_snoc in Hsz.
    apply append_internal_wp; eauto; lia.
Qed.
End building.

(** ** The builder as operations on pairs *)
Inductive meta_op : Set :=
  | MetaAppend (k v : list Z)
  | MetaSet (k v : list Z)
  | MetaRemove (k : list Z).
Definition meta_op_ok (op : meta_op) : Prop :=
  match op with
  | MetaAppend k v => kv_ok (k, v)
  | MetaSet k v => kv_ok (k, v) ∧ no_nul k
  | MetaRemove k => no_nul k
  end.
Definition meta_spec (op : meta_op) (l : list kv) : list kv :=
  match op with
  | MetaAppend k v => l ++ [(k, v)]
  | MetaSet k v => set_spec k (Some v) l
  | MetaRemove k => set_spec k None l
  end.
Definition view_of (d : list Z) : ArrowView := MkView (Some d) (zlen d).
Definition run_meta `{!Libc} (op : meta_op) : M ArrowBuffer unit :=
  match op with
  | MetaAppend k v => ArrowMetadataBuilderAppend (view_of k) (view_of v)
  | MetaSet k v => ArrowMetadataBuilderSet (view_of k) (view_of v)
  | MetaRemove k => ArrowMetadataBuilderRemove (view_of k)
  end.
Definition meta_specs (ops : list meta_op) (l : list kv) : list kv :=
  foldl (λ l op, meta_spec op l) l ops.
(** Every list of pairs on the way has an encoding. *)
Fixpoint meta_encodable (ops : list meta_op) (l : list kv) : Prop :=
  match ops with
  | [] => True
  | op :: ops' => encodable (meta_spec op l) ∧ meta_encodable ops' (meta_spec op l)
  end.

Lemma view_of_is d : view_is (view_of d) d.
Proof. exists []. by rewrite app_nil_r. Qed.

Lemma run_meta_wp `{!Libc} op b l :
  builds b l → meta_op_ok op → encodable (meta_spec op l) →
  wp (run_meta op) b (λ _ b', builds b' (meta_spec op l)) build_failed.
Proof.
  intros Hb Hop [Hn Hsz]. destruct op as [k v|k v|k]; simpl in *.
  - rewrite zlen_app, zlen_cons, zlen_nil in Hn. rewrite zlen_encode_snoc in Hsz.
    apply append_internal_wp; auto using view_of_is; lia.
  - destruct Hop. apply set_internal_wp; try done; try apply view_of_is. naive_solver.
  - apply set_internal_wp; try done. apply view_of_is.
Qed.

(** C9: a sequence of appends, replacements and removals on a fresh metadata
    builder is the same sequence on a list of key-value pairs, whose binary
    encoding the buffer holds; memory is never left, and the only error is
    [ENOMEM].  A replacement keeps the position of the first pair with the key
    and drops the later ones.  The keys of replacements and removals have no NUL
    byte, since [strncmp] stops there; appended and replaced pairs have lengths of
    an [int32_t], and every list on the way has an encoding: an [int32_t] counts its
    pairs and four times its size fits an [int64_t]. *)
Theorem metadata_builder_refinement (ops : list (Libc * meta_op))
    (Hops : Forall meta_op_ok ops.*2) (Hfit : meta_encodable ops.*2 []) :
  wp (mfor ops (λ '(libc, op), @run_meta libc op)) ArrowBufferInit
    (λ _ b', builds b' (meta_specs ops.*2 []))
    (λ e b', e = ENOMEM ∧ buffer_wf b').
Proof.
  enough (∀ b l, builds b l → meta_encodable ops.*2 l →
    wp (mfor ops (λ '(libc, op), @run_meta libc op)) b
      (λ _ b', builds b' (meta_specs ops.*2 l)) build_failed) as Hgen
    by (by apply Hgen; [apply builds_init|]).
  clear Hfit. induction ops as [|[libc op] ops IH]; intros b l Hb Hfit; cbn [mfor]; [done|].
  rewrite fmap_cons in *. apply Forall_cons_1 in Hops as [Hop Hops]. destruct Hfit as [Hfit Hrest].
  apply wp_bind. eapply wp_mono; [by apply run_meta_wp| |done].
  intros ? b' Hb'. by apply IH.
Qed.

Definition example_meta_ops : list (Libc * meta_op) :=
  [(libc_limited 100, MetaAppend [107] [1; 2]); (libc_limited 90, MetaAppend [110] [3]);
   (libc_limited 80, MetaAppend [107] []); (libc_limited 70, MetaSet [107] [9]);
   (libc_limited 70, MetaRemove [110])].
Lemma metadata_builder_refinement_witness :
  wp (mfor example_meta_ops (λ '(libc, op), @run_meta libc op)) ArrowBufferInit
    (λ _ b', builds b' [([107], [9])])
    (λ e b', e = ENOMEM ∧ buffer_wf b').
Proof.
  apply (metadata_builder_refinement example_meta_ops).
  - repeat constructor; simpl; unfold byte_ok; try lia; by vm_compute.
  - repeat split; vm_compute; discriminate.
Defined.

(** C10: on memory that starts with the encoding of a list of pairs,
    [ArrowMetadataGetValue] with a key without NUL bytes returns a view of the
    first value under that key, or leaves the output alone when there is none,
    and [ArrowMetadataHasKey] tells which. *)
Theorem metadata_lookup (m : option (list Z)) (l : list kv) (key out : ArrowView) (k : list Z)
    (Hm : represents m l) (Hkey : view_is key k) (Hk : no_nul k) :
  (∃ v, ArrowMetadataGetValue m key out = Some v ∧
     match lookup_key k l with Some d => view_is v d | None => v = out end) ∧
  ArrowMetadataHasKey m key = Some (bool_decide (is_Some (lookup_key k l))).
Proof.
  destruct (reader_init _ _ Hm) as (r & Hinit & Hr).
  unfold ArrowMetadataHasKey, ArrowMetadataGetValue, ArrowMetadataGetValueInternal.
  rewrite Hinit. cbn [mbind option_bind]. rewrite (reader_fuel _ _ Hr).
  split; [by apply get_loop_spec|].
  destruct (get_loop_spec key k l r (MkView None 0)) as (v & -> & Hv); try done.
  cbn [mbind option_bind]. f_equal. destruct (lookup_key k l) as [d|].
  - destruct Hv as (post & -> & _). by rewrite bool_decide_true.
  - subst v. rewrite bool_decide_false; [done|]. by intros [? ?].
Qed.
Lemma metadata_lookup_witness :
  (∃ v, ArrowMetadataGetValue (Some (encode [([107], [1; 2]); ([110], [3])]))
          (view_of [110]) (MkView None 0) = Some v ∧ view_is v [3]) ∧
  ArrowMetadataHasKey (Some (encode [([107], [1; 2]); ([110], [3])])) (view_of [110]) = Some true.
Proof.
  apply (metadata_lookup (Some (encode [([107], [1; 2]); ([110], [3])]))
    [([107], [1; 2]); ([110], [3])] (view_of [110]) (MkView None 0) [110]).
  - split; [split|].
    + repeat constructor; simpl; unfold byte_ok; try lia; by vm_compute.
    + by vm_compute.
    + exists []. by rewrite app_nil_r.
  - exact (view_of_is [110]).
  - repeat constructor. discriminate.
Defined.

Lemma metadata_size_of d l :
  represents (Some d) l → ArrowMetadataSizeOf (Some d) = Some (zlen (encode l)).
Proof.
  intros Hm. destruct (reader_init _ _ Hm) as (r & Hinit & Hr).
  unfold ArrowMetadataSizeOf. rewrite Hinit. cbn [mbind option_bind].
  rewrite (reader_fuel _ _ Hr), size_loop_spec by done. by rewrite zlen_encode.
Qed.

(** [ArrowMetadataSizeOf] returns the length of the encoding, and a builder
    initialised from existing metadata holds the same pairs. *)
Theorem metadata_copy (libc : Libc) (d : list Z) (l : list kv)
    (Hm : represents (Some d) l) (Hfit : encodable l) :
  ArrowMetadataSizeOf (Some d) = Some (zlen (encode l)) ∧
  wp (ArrowMetadataBuilderInit (Some d)) ArrowBufferInit (λ _ b', builds b' l)
    (λ e b', e = ENOMEM ∧ buffer_wf b').
Proof.
  pose proof (metadata_size_of _ _ Hm) as Hsize. split; [done|]. destruct Hm as [Hok [post ->]]. destruct Hfit as [Hn Hsz].
  unfold wp, ArrowMetadataBuilderInit. rewrite Hsize. rewrite zlen_encode in *.
  pose proof (zlen_nonneg (encode_pairs l)).
  eapply wp_mono; [apply append_wp|..].
  - apply buffer_wf_init.
  - split; simpl; width.
  - lia.
  - apply Forall_app. split; [apply le_bytes_ok|by apply encode_pairs_ok, Hok].
  - rewrite <-zlen_encode. apply source_of_app.
  - intros ? b' (Hwf & Hct & Hs & _ & Hcap & _). fold (encode l) in *.
    rewrite zlen_encode in *. split; try done; [simpl in *; lia|by left].
  - intros e b' (? & ? & _). done.
Qed.
Lemma metadata_copy_witness :
  ArrowMetadataSizeOf (Some (encode [([107], [1; 2])] ++ [0])) = Some 15 ∧
  wp (@ArrowMetadataBuilderInit (libc_limited 100) (Some (encode [([107], [1; 2])] ++ [0])))
    ArrowBufferInit (λ _ b', builds b' [([107], [1; 2])]) (λ e b', e = ENOMEM ∧ buffer_wf b').
Proof.
  apply (metadata_copy (libc_limited 100) (encode [([107], [1; 2])] ++ [0]) [([107], [1; 2])]).
  - split; [split|by eexists].
    + repeat constructor; simpl; unfold byte_ok; try lia; by vm_compute.
    + by vm_compute.
  - split; vm_compute; discriminate.
Defined.
