(* ===== verification/Schema.v ===== *)
(** * Building schemas (nanoarrow.c, schema.c part)

    [struct ArrowSchema] as a tree.  A schema whose [release] callback is NULL
    has no other readable member ([SchemaReleased]): that is the state of a
    child just allocated and of a schema after its release.  Strings are the
    characters before the terminating NUL; [None] is a NULL pointer.

    Allocation is a state of its own: [malloc_step] tells whether the next
    request succeeds and how the allocator goes on, so that every pattern of
    failures is covered. *)

From Stdlib Require Import Ascii.
From stdpp Require Import base numbers list option strings.
From S2P Require Import Prelude CInt CString Buffer Types Metadata.
#[local] Open Scope Z_scope.
#[local] Open Scope c_scope.

Definition ARROW_FLAG_DICTIONARY_ORDERED : Z := 1.
Definition ARROW_FLAG_NULLABLE : Z := 2.
Definition ARROW_FLAG_MAP_KEYS_SORTED : Z := 4.

(** The members of a schema, over the type [S] of the schemas it points to. *)
Record schema_members (S : Set) : Set := MkMembers {
  format : option string;
  name : option string;
  schema_metadata : option (list Z);
  flags : Z;
  n_children : Z;
  children : option (list (option S));
  dictionary : option S;
}.
Arguments MkMembers {S}.
Arguments format {S}.
Arguments name {S}.
Arguments schema_metadata {S}.
Arguments flags {S}.
Arguments n_children {S}.
Arguments children {S}.
Arguments dictionary {S}.

#[local] Set Warnings "-register-all".
Inductive ArrowSchema : Set :=
  | SchemaReleased
  | SchemaLive (m : schema_members ArrowSchema).
Abbreviation members := (schema_members ArrowSchema).

(** Updates of one member. *)
Definition set_format (f : option string) (s : members) : members :=
  MkMembers f (name s) (schema_metadata s) (flags s) (n_children s) (children s) (dictionary s).
Definition set_name (n : option string) (s : members) : members :=
  MkMembers (format s) n (schema_metadata s) (flags s) (n_children s) (children s) (dictionary s).
Definition set_metadata (m : option (list Z)) (s : members) : members :=
  MkMembers (format s) (name s) m (flags s) (n_children s) (children s) (dictionary s).
Definition set_flags (f : Z) (s : members) : members :=
  MkMembers (format s) (name s) (schema_metadata s) f (n_children s) (children s) (dictionary s).
Definition set_children (n : Z) (c : option (list (option ArrowSchema))) (s : members) : members :=
  MkMembers (format s) (name s) (schema_metadata s) (flags s) n c (dictionary s).
Definition set_dictionary (d : option ArrowSchema) (s : members) : members :=
  MkMembers (format s) (name s) (schema_metadata s) (flags s) (n_children s) (children s) d.

Definition ArrowSchemaInit : members := MkMembers None None None ARROW_FLAG_NULLABLE 0 None None.

(** The allocator as a state machine. *)
Class Malloc := {
  mstate : Type;
  malloc_step : Z → mstate → bool * mstate;
}.

Definition sizeof_pointer : Z := 8.
Definition sizeof_ArrowSchema : Z := 72.

Section schema_ops.
Context `{!Malloc}.

(** Operations on the members of a schema, or on a schema as a whole. *)
Abbreviation SM := (M (mstate * members)).

Definition ArrowMalloc {S} (n : Z) : M (mstate * S) bool := λ '(a, s),
  let '(ok, a') := malloc_step n a in Ok ok (a', s).
Definition modify {S} (f : S → S) : M (mstate * S) unit := mmod (λ '(a, s), (a, f s)).
Definition get {S A} (f : S → A) : M (mstate * S) A := mget (λ '(a, s), f s).

(** Run an operation on the schema a pointer leads to. *)
Definition on_child {A} (i : Z) (m : M (mstate * ArrowSchema) A) : SM A := λ '(a, s),
  match children s with
  | None => UB
  | Some l =>
      match znth l i with
      | Some (Some c) =>
          let put c' := set_children (n_children s) (Some (<[Z.to_nat i := Some c']> l)) s in
          match m (a, c) with
          | Ok x (a', c') => Ok x (a', put c')
          | Err e (a', c') => Err e (a', put c')
          | UB => UB
          end
      | _ => UB
      end
  end.
Definition on_dictionary {A} (m : M (mstate * ArrowSchema) A) : SM A := λ '(a, s),
  match dictionary s with
  | None => UB
  | Some c =>
      match m (a, c) with
      | Ok x (a', c') => Ok x (a', set_dictionary (Some c') s)
      | Err e (a', c') => Err e (a', set_dictionary (Some c') s)
      | UB => UB
      end
  end.
(** An operation on members, on a schema that must not be released. *)
Definition live {A} (m : SM A) : M (mstate * ArrowSchema) A := λ '(a, s),
  match s with
  | SchemaReleased => UB
  | SchemaLive c =>
      match m (a, c) with
      | Ok x (a', c') => Ok x (a', SchemaLive c')
      | Err e (a', c') => Err e (a', SchemaLive c')
      | UB => UB
      end
  end.
(** [ArrowSchemaInit(schema); result = m(schema); if (result != NANOARROW_OK)
    { schema->release(schema); return result; }] *)
Definition init_or_release {A} (m : SM A) : M (mstate * ArrowSchema) A := λ '(a, _),
  match m (a, ArrowSchemaInit) with
  | Ok x (a', c') => Ok x (a', SchemaLive c')
  | Err e (a', _) => Err e (a', SchemaReleased)
  | UB => UB
  end.

Definition ArrowSchemaSetFormat (f : option string) : SM unit :=
  match f with
  | None => modify (set_format None)
  | Some s =>
      let* ok := ArrowMalloc (zstrlen s + 1) in
      if ok : bool then modify (set_format (Some s))
      else modify (set_format None) ;;; mfail ENOMEM
  end.
Definition ArrowSchemaSetName (n : option string) : SM unit :=
  match n with
  | None => modify (set_name None)
  | Some s =>
      let* ok := ArrowMalloc (zstrlen s + 1) in
      if ok : bool then modify (set_name (Some s))
      else modify (set_name None) ;;; mfail ENOMEM
  end.
Definition ArrowSchemaSetMetadata (m : option (list Z)) : SM unit :=
  match m with
  | None => modify (set_metadata None)
  | Some d =>
      let* metadata_size := deref (ArrowMetadataSizeOf m) in
      let* ok := ArrowMalloc metadata_size in
      if ok : bool then
        let* copy := deref (zslice d 0 metadata_size) in
        modify (set_metadata (Some copy))
      else modify (set_metadata None) ;;; mfail ENOMEM
  end.

Definition ArrowSchemaAllocateChildren (n : Z) : SM unit :=
  let* c := get children in
  match c with
  | Some _ => mfail EEXIST
  | None =>
      if 0 <? n then
        let* ok := ArrowMalloc (i64 (n * sizeof_pointer)) in
        if ok : bool then
          (* a size that wrapped around: the stores below leave the block *)
          (if INT64_MAX <? n * sizeof_pointer then mundef else mret_ tt) ;;;
          modify (set_children n (Some (replicate (Z.to_nat n) None))) ;;;
          mfor (zseq n) (λ i,
            let* ok := ArrowMalloc sizeof_ArrowSchema in
            if ok : bool then
              modify (λ s, set_children (n_children s)
                ((λ l, <[Z.to_nat i := Some SchemaReleased]> l) <$> children s) s)
            else mfail ENOMEM)
        else mfail ENOMEM
      else mret_ tt
  end.

Definition ArrowSchemaAllocateDictionary : SM unit :=
  let* d := get dictionary in
  match d with
  | Some _ => mfail EEXIST
  | None =>
      let* ok := ArrowMalloc sizeof_ArrowSchema in
      if ok : bool then modify (set_dictionary (Some SchemaReleased)) else mfail ENOMEM
  end.

Definition ArrowSchemaFormatTemplate (type : ArrowType) : option string :=
  match type with
  | NANOARROW_TYPE_UNINITIALIZED => None
  | NANOARROW_TYPE_NA => Some "n"
  | NANOARROW_TYPE_BOOL => Some "b"
  | NANOARROW_TYPE_UINT8 => Some "C"
  | NANOARROW_TYPE_INT8 => Some "c"
  | NANOARROW_TYPE_UINT16 => Some "S"
  | NANOARROW_TYPE_INT16 => Some "s"
  | NANOARROW_TYPE_UINT32 => Some "I"
  | NANOARROW_TYPE_INT32 => Some "i"
  | NANOARROW_TYPE_UINT64 => Some "L"
  | NANOARROW_TYPE_INT64 => Some "l"
  | NANOARROW_TYPE_HALF_FLOAT => Some "e"
  | NANOARROW_TYPE_FLOAT => Some "f"
  | NANOARROW_TYPE_DOUBLE => Some "g"
  | NANOARROW_TYPE_STRING => Some "u"
  | NANOARROW_TYPE_LARGE_STRING => Some "U"
  | NANOARROW_TYPE_BINARY => Some "z"
  | NANOARROW_TYPE_LARGE_BINARY => Some "Z"
  | NANOARROW_TYPE_DATE32 => Some "tdD"
  | NANOARROW_TYPE_DATE64 => Some "tdm"
  | NANOARROW_TYPE_INTERVAL_MONTHS => Some "tiM"
  | NANOARROW_TYPE_INTERVAL_DAY_TIME => Some "tiD"
  | NANOARROW_TYPE_INTERVAL_MONTH_DAY_NANO => Some "tin"
  | NANOARROW_TYPE_LIST => Some "+l"
  | NANOARROW_TYPE_LARGE_LIST => Some "+L"
  | NANOARROW_TYPE_STRUCT => Some "+s"
  | NANOARROW_TYPE_MAP => Some "+m"
  | _ => None
  end%string.

(** [ArrowSchemaInit(schema->children[i])] *)
Definition init_child (i : Z) : SM unit :=
  on_child i (modify (λ _, SchemaLive ArrowSchemaInit)).
(** [flags &= ~ARROW_FLAG_NULLABLE] *)
Definition clear_nullable : SM unit :=
  modify (λ s, set_flags (Z.land (flags s) (Z.lnot ARROW_FLAG_NULLABLE)) s).

(** [ArrowSchemaInitFromType(schema->children[0], NANOARROW_TYPE_STRUCT)] inside
    [ArrowSchemaInitChildrenIfNeeded]; a struct has no children of its own yet,
    so that the recursion of the C functions ends there. *)
Definition init_struct : M (mstate * ArrowSchema) unit :=
  init_or_release (ArrowSchemaSetFormat (ArrowSchemaFormatTemplate NANOARROW_TYPE_STRUCT)).

Definition ArrowSchemaInitChildrenIfNeeded (type : ArrowType) : SM unit :=
  match type with
  | NANOARROW_TYPE_LIST | NANOARROW_TYPE_LARGE_LIST | NANOARROW_TYPE_FIXED_SIZE_LIST =>
      ArrowSchemaAllocateChildren 1 ;;;
      init_child 0 ;;;
      on_child 0 (live (ArrowSchemaSetName (Some "item"%string)))
  | NANOARROW_TYPE_MAP =>
      ArrowSchemaAllocateChildren 1 ;;;
      on_child 0 init_struct ;;;
      on_child 0 (live (
        ArrowSchemaSetName (Some "entries"%string) ;;;
        clear_nullable ;;;
        ArrowSchemaAllocateChildren 2 ;;;
        init_child 0 ;;;
        init_child 1 ;;;
        on_child 0 (live (ArrowSchemaSetName (Some "key"%string) ;;; clear_nullable)) ;;;
        on_child 1 (live (ArrowSchemaSetName (Some "value"%string)))))
  | _ => mret_ tt
  end.

Definition ArrowSchemaSetType (type : ArrowType) : SM unit :=
  match ArrowSchemaFormatTemplate type with
  | None =>
      if decide (type = NANOARROW_TYPE_UNINITIALIZED) then
        ArrowSchemaSetFormat None ;;; ArrowSchemaInitChildrenIfNeeded type
      else mfail EINVAL
  | Some template_format =>
      ArrowSchemaSetFormat (Some template_format) ;;;
      ArrowSchemaInitChildrenIfNeeded type
  end.

Definition ArrowSchemaSetTypeStruct (n : Z) : SM unit :=
  ArrowSchemaSetType NANOARROW_TYPE_STRUCT ;;;
  ArrowSchemaAllocateChildren n ;;;
  mfor (zseq n) init_child.

Definition ArrowSchemaInitFromType (type : ArrowType) : M (mstate * ArrowSchema) unit :=
  init_or_release (ArrowSchemaSetType type).

(** [n_chars = snprintf(buffer, size, ...); buffer[n_chars] = '\0'], then the
    string in [buffer]: the last store is outside when the text does not fit. *)
Definition print_to (size : Z) (text : string) : SM string :=
  if zstrlen text <? size then mret_ text else mundef.

Definition ArrowSchemaSetTypeFixedSize (type : ArrowType) (fixed_size : Z) : SM unit :=
  if fixed_size <=? 0 then mfail EINVAL
  else
    match type with
    | NANOARROW_TYPE_FIXED_SIZE_BINARY =>
        let* buffer := print_to 64 ("w:" +:+ print_int fixed_size) in
        ArrowSchemaSetFormat (Some buffer)
    | NANOARROW_TYPE_FIXED_SIZE_LIST =>
        let* buffer := print_to 64 ("+w:" +:+ print_int fixed_size) in
        ArrowSchemaSetFormat (Some buffer) ;;;
        ArrowSchemaInitChildrenIfNeeded type
    | _ => mfail EINVAL
    end.

Definition ArrowSchemaSetTypeDecimal (type : ArrowType) (precision scale : Z) : SM unit :=
  if precision <=? 0 then mfail EINVAL
  else
    match type with
    | NANOARROW_TYPE_DECIMAL128 =>
        let* buffer := print_to 64 ("d:" +:+ print_int precision +:+ "," +:+ print_int scale) in
        ArrowSchemaSetFormat (Some buffer)
    | NANOARROW_TYPE_DECIMAL256 =>
        let* buffer := print_to 64
          ("d:" +:+ print_int precision +:+ "," +:+ print_int scale +:+ ",256") in
        ArrowSchemaSetFormat (Some buffer)
    | _ => mfail EINVAL
    end.

Definition ArrowTimeUnitFormatString (time_unit : ArrowTimeUnit) : string :=
  match time_unit with
  | NANOARROW_TIME_UNIT_SECOND => "s"
  | NANOARROW_TIME_UNIT_MILLI => "m"
  | NANOARROW_TIME_UNIT_MICRO => "u"
  | NANOARROW_TIME_UNIT_NANO => "n"
  end%string.

Definition ArrowSchemaSetTypeDateTime (type : ArrowType) (time_unit : ArrowTimeUnit)
    (timezone : option string) : SM unit :=
  let unit_str := ArrowTimeUnitFormatString time_unit in
  let finish text :=
    if 128 <=? zstrlen text then mfail ERANGE else ArrowSchemaSetFormat (Some text) in
  match type, timezone with
  | (NANOARROW_TYPE_TIME32 | NANOARROW_TYPE_TIME64), None => finish ("tt" +:+ unit_str)
  | (NANOARROW_TYPE_TIME32 | NANOARROW_TYPE_TIME64), Some _ => mfail EINVAL
  | NANOARROW_TYPE_TIMESTAMP, _ =>
      finish ("ts" +:+ unit_str +:+ ":" +:+ default ""%string timezone)
  | NANOARROW_TYPE_DURATION, None => finish ("tD" +:+ unit_str)
  | NANOARROW_TYPE_DURATION, Some _ => mfail EINVAL
  | _, _ => mfail EINVAL
  end%string.

(** The text the successive [snprintf] calls leave in [format_out], after
    ["0"]: [",1,2,..."]. *)
Definition union_ids (n : Z) : string :=
  String.concat "" ((λ i, "," +:+ print_int (1 + i)) <$> zseq (n - 1)).

Definition ArrowSchemaSetTypeUnion (type : ArrowType) (n : Z) : SM unit :=
  if (n <? 0) || (127 <? n) then mfail EINVAL
  else
    let finish prefix :=
      let* format_out := print_to 512
        (prefix +:+ if 0 <? n then "0" +:+ union_ids n else ""%string) in
      ArrowSchemaSetFormat (Some format_out) ;;;
      ArrowSchemaAllocateChildren n ;;;
      mfor (zseq n) init_child in
    match type with
    | NANOARROW_TYPE_SPARSE_UNION => finish "+us:"%string
    | NANOARROW_TYPE_DENSE_UNION => finish "+ud:"%string
    | _ => mfail EINVAL
    end.

(** The loop over the children: [copy] is the recursive call. *)
Definition copy_list (copy : ArrowSchema → M (mstate * ArrowSchema) unit) (nc : Z) :
    list (option ArrowSchema) → Z → SM unit :=
  fix go l i :=
    if i <? nc then
      match l with
      | Some c :: l' => on_child i (copy c) ;;; go l' (i + 1)
      | _ => mundef
      end
    else mret_ tt.

(** The body after [ArrowSchemaInit(schema_out)]. *)
Definition copy_members (s : members) (copy_children : SM unit) (copy_dictionary : option (M (mstate * ArrowSchema) unit)) : SM unit :=
  ArrowSchemaSetFormat (format s) ;;;
  modify (set_flags (flags s)) ;;;
  ArrowSchemaSetName (name s) ;;;
  ArrowSchemaSetMetadata (schema_metadata s) ;;;
  ArrowSchemaAllocateChildren (n_children s) ;;;
  copy_children ;;;
  match copy_dictionary with
  | None => mret_ tt
  | Some copy => ArrowSchemaAllocateDictionary ;;; on_dictionary copy
  end.

(** [ArrowSchemaDeepCopy(schema, schema_out)], on the state of [schema_out]. *)
Fixpoint ArrowSchemaDeepCopy (schema : ArrowSchema) : M (mstate * ArrowSchema) unit :=
  match schema with
  | SchemaReleased => mundef
  | SchemaLive (MkMembers f n m fl nc ch d as s) =>
      let copy_children :=
        match ch with
        | None => if 0 <? nc then mundef else mret_ tt
        | Some l => copy_list ArrowSchemaDeepCopy nc l 0
        end in
      let copy_dictionary :=
        match d with None => None | Some c => Some (ArrowSchemaDeepCopy c) end in
      init_or_release (copy_members s copy_children copy_dictionary)
  end.
End schema_ops.

(** ** Copies *)

(** A schema that is complete: it owns what its members say, down to the leaves,
    and its metadata is exactly one encoding. *)
Definition metadata_valid (m : option (list Z)) : bool :=
  match m with
  | None => true
  | Some d => match ArrowMetadataSizeOf m with Some n => n =? zlen d | None => false end
  end.
Fixpoint schema_valid (schema : ArrowSchema) : bool :=
  match schema with
  | SchemaReleased => false
  | SchemaLive (MkMembers f n m fl nc ch d) =>
      metadata_valid m &&
      match ch with
      | None => nc =? 0
      | Some l =>
          (0 <? nc) && (nc =? zlen l) && (nc * sizeof_pointer <=? INT64_MAX) &&
          forallb (λ c, match c with Some c => schema_valid c | None => false end) l
      end &&
      match d with None => true | Some c => schema_valid c end
  end.

Definition pointee (P : ArrowSchema → Prop) (c : option ArrowSchema) : Prop :=
  match c with Some s => P s | None => True end.
Lemma ArrowSchema_nested_ind (P : ArrowSchema → Prop) :
  P SchemaReleased →
  (∀ f n m fl nc ch d,
    match ch with Some l => Forall (pointee P) l | None => True end → pointee P d →
    P (SchemaLive (MkMembers f n m fl nc ch d))) →
  ∀ s, P s.
Proof.
  intros HR HL. fix IH 1. intros [|[f n m fl nc ch d]]; [exact HR|]. apply HL.
  - destruct ch as [l|]; [|exact I]. induction l as [|[c|] l IHl]; constructor;
      [apply IH|exact IHl|exact I|exact IHl].
  - destruct d as [c|]; [apply IH|exact I].
Qed.

Section copy.
Context `{!Malloc}.
Implicit Types (a : mstate) (s : members).

Definition oom {S} (e : errno) (p : mstate * S) : Prop := e = ENOMEM.

Lemma malloc_wp {S A} n (k : bool → M (mstate * S) A) a (s : S) Q E :
  (∀ a', wp (k true) (a', s) Q E) → (∀ a', wp (k false) (a', s) Q E) →
  wp (mbind_ (ArrowMalloc n) k) (a, s) Q E.
Proof.
  intros Ht Hf. apply wp_bind. unfold ArrowMalloc, wp at 1. destruct (malloc_step n a) as [[] a']; auto.
Qed.
Lemma modify_wp {S} (f : S → S) a (s : S) Q E : Q tt (a, f s) → wp (modify f) (a, s) Q E.
Proof. done. Qed.

Lemma set_format_wp f a s :
  wp (ArrowSchemaSetFormat f) (a, s) (λ _ p, p.2 = set_format f s) oom.
Proof. destruct f as [t|]; [|done]. by apply malloc_wp; intros a'. Qed.
Lemma set_name_wp f a s : wp (ArrowSchemaSetName f) (a, s) (λ _ p, p.2 = set_name f s) oom.
Proof. destruct f as [t|]; [|done]. by apply malloc_wp; intros a'. Qed.
Lemma set_metadata_wp m a s :
  metadata_valid m = true →
  wp (ArrowSchemaSetMetadata m) (a, s) (λ _ p, p.2 = set_metadata m s) oom.
Proof.
  unfold ArrowSchemaSetMetadata, metadata_valid. destruct m as [d|]; [|done]. intros Hm.
  destruct (ArrowMetadataSizeOf (Some d)) as [n|]; [|done]. zbool. subst n.
  apply wp_bind, wp_ret. apply malloc_wp; intros a'; [|done].
  pose proof (zlen_nonneg d). rewrite zslice_in by lia. simpl.
  unfold zlen. by rewrite Nat2Z.id, drop_0, take_ge.
Qed.

Lemma allocate_children_wp n a s :
  children s = None → 0 < n → n * sizeof_pointer <= INT64_MAX →
  wp (ArrowSchemaAllocateChildren n) (a, s)
    (λ _ p, p.2 = set_children n (Some (replicate (Z.to_nat n) (Some SchemaReleased))) s) oom.
Proof.
  intros Hc Hn Hmax. unfold ArrowSchemaAllocateChildren. apply wp_bind, wp_get. rewrite Hc.
  destruct (Z.ltb_spec 0 n); [|lia]. apply malloc_wp; intros a1; [|done].
  destruct (Z.ltb_spec INT64_MAX (n * sizeof_pointer)); [lia|]. apply wp_bind, wp_ret, wp_bind, modify_wp.
  eapply (wp_mono _ _ _ _ oom); [apply (wp_for (λ done p, p.2 = set_children n (Some
    (replicate (length done) (Some SchemaReleased) ++ replicate (Z.to_nat n - length done) None)) s))| |].
  - simpl. by rewrite Nat.sub_0_r.
  - intros pre i post [a2 s2] Hsplit Hs2. apply zseq_split in Hsplit as (Hi & Hlt & Hpre). simpl in Hs2.
    apply malloc_wp; intros a3; [|done]. apply modify_wp. subst s2. cbn [snd].
    unfold set_children at 1. cbn [children n_children fmap option_fmap option_map].
    rewrite length_app. simpl. f_equal. f_equal. unfold zlen in Hi.
    replace (Z.to_nat i) with (length (replicate (length pre) (Some SchemaReleased)) + 0)%nat
      by (rewrite length_replicate; lia).
    rewrite insert_app_r. replace (Z.to_nat n - length pre)%nat with (S (Z.to_nat n - (length pre + 1))) by lia.
    simpl. by rewrite replicate_add, <-app_assoc.
  - intros ? p Hp. rewrite Hp. assert (length (zseq n) = Z.to_nat n) as ->.
    { unfold zseq. by rewrite length_fmap, length_seq. }
    by rewrite Nat.sub_diag, app_nil_r.
  - done.
Qed.

Definition copies (s : ArrowSchema) : Prop :=
  schema_valid s = true → ∀ a out,
    wp (ArrowSchemaDeepCopy s) (a, out) (λ _ p, p.2 = s)
      (λ e p, e = ENOMEM ∧ p.2 = SchemaReleased).

(** One pass of the loop: the children copied so far, then the others. *)
Lemma copy_list_wp s nc l : ∀ copied a,
  Forall (pointee copies) l →
  forallb (λ c, match c with Some c => schema_valid c | None => false end) l = true →
  nc = zlen copied + zlen l →
  wp (copy_list ArrowSchemaDeepCopy nc l (zlen copied))
    (a, set_children nc (Some (copied ++ replicate (length l) (Some SchemaReleased))) s)
    (λ _ p, p.2 = set_children nc (Some (copied ++ l)) s) oom.
Proof.
  induction l as [|c l IH]; intros copied a Hl Hv Hnc; cbn [copy_list].
  { rewrite zlen_nil in Hnc. destruct (Z.ltb_spec (zlen copied) nc); [lia|done]. }
  rewrite zlen_cons in Hnc. pose proof (zlen_nonneg l).
  destruct (Z.ltb_spec (zlen copied) nc); [|lia].
  apply Forall_cons_1 in Hl as [Hc Hl]. cbn [forallb] in Hv. apply andb_true_iff in Hv as [Hcv Hv].
  destruct c as [c|]; [|done]. apply wp_bind. unfold wp at 1, on_child. cbn [children set_children].
  rewrite znth_app, Z.ltb_irrefl, Z.sub_diag by apply zlen_nonneg.
  change (znth (replicate (length (Some c :: l)) (Some SchemaReleased)) 0) with (Some (Some SchemaReleased)).
  cbv iota beta.
  pose proof (Hc Hcv a SchemaReleased) as Hcopy. unfold wp in Hcopy.
  destruct (ArrowSchemaDeepCopy c (a, SchemaReleased)) as [[] [a' c']|e [a' c']|]; [|by destruct Hcopy|done].
  simpl in Hcopy. subst c'.
  assert (<[Z.to_nat (zlen copied) := Some c]> (copied ++ replicate (length (Some c :: l)) (Some SchemaReleased))
    = (copied ++ [Some c]) ++ replicate (length l) (Some SchemaReleased)) as ->.
  { unfold zlen. rewrite Nat2Z.id. replace (length copied) with (length copied + 0)%nat by lia.
    rewrite insert_app_r. simpl. by rewrite <-app_assoc. }
  replace (zlen copied + 1) with (zlen (copied ++ [Some c])) by (rewrite zlen_app, zlen_cons, zlen_nil; lia).
  replace (copied ++ Some c :: l) with ((copied ++ [Some c]) ++ l) by (by rewrite <-app_assoc).
  apply (IH (copied ++ [Some c])); try done.
  rewrite zlen_app, zlen_cons, zlen_nil. lia.
Qed.

Lemma allocate_dictionary_wp a s :
  dictionary s = None →
  wp ArrowSchemaAllocateDictionary (a, s) (λ _ p, p.2 = set_dictionary (Some SchemaReleased) s) oom.
Proof.
  intros Hd. unfold ArrowSchemaAllocateDictionary. apply wp_bind, wp_get. rewrite Hd.
  by apply malloc_wp; intros a'.
Qed.

(** The pieces of a copy in order, from an initialised schema. *)
Lemma copy_members_wp f n m fl nc ch d a :
  metadata_valid m = true →
  match ch with
  | None => nc = 0
  | Some l => 0 < nc ∧ nc = zlen l ∧ nc * sizeof_pointer <= INT64_MAX ∧ Forall (pointee copies) l ∧
      forallb (λ c, match c with Some c => schema_valid c | None => false end) l = true
  end →
  match d with None => True | Some c => copies c ∧ schema_valid c = true end →
  wp (copy_members (MkMembers f n m fl nc ch d)
        (match ch with
         | None => if 0 <? nc then mundef else mret_ tt
         | Some l => copy_list ArrowSchemaDeepCopy nc l 0
         end)
        (match d with None => None | Some c => Some (ArrowSchemaDeepCopy c) end))
    (a, ArrowSchemaInit) (λ _ p, p.2 = MkMembers f n m fl nc ch d) oom.
Proof.
  intros Hm Hch Hd. unfold copy_members. simpl.
  apply wp_bind. eapply wp_mono; [apply set_format_wp| |done]. intros [] [a1 s1] Hs1; simpl in Hs1.
  apply wp_bind, modify_wp. apply wp_bind. eapply wp_mono; [apply set_name_wp| |done].
  intros [] [a2 s2] Hs2; simpl in Hs2.
  apply wp_bind. eapply wp_mono; [by apply set_metadata_wp| |done]. intros [] [a3 s3] Hs3; simpl in Hs3.
  set (t := MkMembers f n m fl 0 None None : members).
  assert (s3 = t) as -> by (subst; done). clear Hs1 Hs2 Hs3 s1 s2.
  apply wp_bind. eapply (wp_mono _ _ (λ _ p, p.2 = MkMembers f n m fl nc
    ((λ l, replicate (length l) (Some SchemaReleased)) <$> ch) None) _ oom); [| |done].
  { destruct ch as [l|].
    - destruct Hch as (Hpos & -> & Hmax & _). eapply wp_mono; [by apply allocate_children_wp| |done].
      intros ? p ->. unfold zlen. rewrite Nat2Z.id. done.
    - subst nc. done. }
  intros [] [a4 s4] Hs4. simpl in Hs4. subst s4.
  apply wp_bind. eapply (wp_mono _ _ (λ _ p, p.2 = MkMembers f n m fl nc ch None) _ oom); [| |done].
  { destruct ch as [l|].
    - destruct Hch as (Hpos & Hnc & Hmax & Hl & Hv).
      eapply wp_mono; [apply (copy_list_wp t nc l []); try done|done|done].
    - subst nc. done. }
  intros [] [a5 s5] Hs5. simpl in Hs5. subst s5. destruct d as [c|]; [|done].
  destruct Hd as [Hc Hv]. apply wp_bind.
  eapply wp_mono; [by apply allocate_dictionary_wp| |done].
  intros [] [a6 s6] Hs6. simpl in Hs6. subst s6. unfold wp, on_dictionary. simpl.
  pose proof (Hc Hv a6 SchemaReleased) as Hcopy. unfold wp in Hcopy.
  destruct (ArrowSchemaDeepCopy c (a6, SchemaReleased)) as [[] [a' c']|e [a' c']|]; simpl in *; try done.
  - by subst c'.
  - by destruct Hcopy.
Qed.

(** A valid schema is copied as it is. *)
Lemma deep_copy_copies (s : ArrowSchema) : copies s.
Proof.
  induction s as [|f n m fl nc ch d Hch Hd] using ArrowSchema_nested_ind.
  { by intros ?. }
  intros Hv a out. simpl in Hv. apply andb_true_iff in Hv as [Hv Hdv]. apply andb_true_iff in Hv as [Hm Hcv].
  unfold wp, ArrowSchemaDeepCopy. fold ArrowSchemaDeepCopy.
  epose proof (copy_members_wp f n m fl nc ch d a Hm _ _) as Hcopy.
  unfold wp in Hcopy. unfold init_or_release.
  destruct (copy_members _ _ _ _) as [[] [a' c']|e [a' c']|]; simpl in *; [by subst c'|done|done].
  Unshelve.
  - destruct ch as [l|]; zbool; [|done]. split_and!; done.
  - destruct d as [c|]; [|done]. by split.
Qed.
End copy.

(** C12: a deep copy of a complete schema is equal to it, down to the children,
    the dictionary and the metadata bytes; the only error is [ENOMEM], and then
    the output is released.  This holds for every behaviour of the allocator,
    and the copy leaves no memory. *)
Theorem schema_deep_copy (malloc : Malloc) (a : mstate) (s out : ArrowSchema)
    (Hs : schema_valid s = true) :
  wp (ArrowSchemaDeepCopy s) (a, out) (λ _ p, p.2 = s) (λ e p, e = ENOMEM ∧ p.2 = SchemaReleased).
Proof. by apply deep_copy_copies. Qed.

(** An allocator whose first [k] requests succeed. *)
Definition malloc_budget : Malloc := {|
  mstate := nat;
  malloc_step _ k := match k with O => (false, O) | S k' => (true, k') end;
|}.
Definition example_schema : ArrowSchema :=
  let leaf f n d := SchemaLive (MkMembers (Some f) (Some n) None 2 0 None d) in
  SchemaLive (MkMembers (Some "+s"%string) None (Some (encode [([107], [118; 118])])) 0 2
    (Some [Some (leaf "i"%string "a"%string None);
           Some (leaf "c"%string "b"%string (Some (leaf "u"%string ""%string None)))]) None).
Lemma schema_deep_copy_witness :
  wp (@ArrowSchemaDeepCopy malloc_budget example_schema) (9%nat, SchemaReleased)
    (λ _ p, p.2 = example_schema) (λ e p, e = ENOMEM ∧ p.2 = SchemaReleased).
Proof. apply (schema_deep_copy malloc_budget 9%nat example_schema SchemaReleased). by vm_compute. Defined.
