(* ===== verification/SchemaView.v ===== *)
(** * Parsing schemas (nanoarrow.c, ArrowSchemaView)

    [ArrowSchemaViewInit] parses the format string of a schema and validates it
    against the children.  The view is a record with the members of
    [struct ArrowSchemaView]; the pointer [format_end_out] is the string that
    starts there.  The texts of error messages are in [ErrorText]. *)

From Stdlib Require Import Ascii.
From stdpp Require Import base numbers list option strings.
From S2P Require Import Prelude CInt CString Buffer Types Metadata Schema.
#[local] Open Scope Z_scope.
#[local] Open Scope c_scope.

Record ArrowSchemaView : Set := MkSchemaView {
  view_type : ArrowType;
  storage_type : ArrowType;
  layout : ArrowLayout;
  extension_name : ArrowView;
  extension_metadata : ArrowView;
  fixed_size : Z;
  decimal_bitwidth : Z;
  decimal_precision : Z;
  decimal_scale : Z;
  time_unit : ArrowTimeUnit;
  timezone : string;
  union_type_ids : string;
}.

Definition set_types (t st : ArrowType) (v : ArrowSchemaView) : ArrowSchemaView :=
  MkSchemaView t st (layout v) (extension_name v) (extension_metadata v) (fixed_size v)
    (decimal_bitwidth v) (decimal_precision v) (decimal_scale v) (time_unit v) (timezone v)
    (union_type_ids v).
Definition set_layout (l : ArrowLayout) (v : ArrowSchemaView) : ArrowSchemaView :=
  MkSchemaView (view_type v) (storage_type v) l (extension_name v) (extension_metadata v)
    (fixed_size v) (decimal_bitwidth v) (decimal_precision v) (decimal_scale v) (time_unit v)
    (timezone v) (union_type_ids v).
Definition set_extension (n m : ArrowView) (v : ArrowSchemaView) : ArrowSchemaView :=
  MkSchemaView (view_type v) (storage_type v) (layout v) n m (fixed_size v) (decimal_bitwidth v)
    (decimal_precision v) (decimal_scale v) (time_unit v) (timezone v) (union_type_ids v).
Definition set_fixed_size (n : Z) (v : ArrowSchemaView) : ArrowSchemaView :=
  MkSchemaView (view_type v) (storage_type v) (layout v) (extension_name v) (extension_metadata v)
    n (decimal_bitwidth v) (decimal_precision v) (decimal_scale v) (time_unit v) (timezone v)
    (union_type_ids v).
Definition set_decimal (bw p s : Z) (v : ArrowSchemaView) : ArrowSchemaView :=
  MkSchemaView (view_type v) (storage_type v) (layout v) (extension_name v) (extension_metadata v)
    (fixed_size v) bw p s (time_unit v) (timezone v) (union_type_ids v).
Definition set_time (u : ArrowTimeUnit) (v : ArrowSchemaView) : ArrowSchemaView :=
  MkSchemaView (view_type v) (storage_type v) (layout v) (extension_name v) (extension_metadata v)
    (fixed_size v) (decimal_bitwidth v) (decimal_precision v) (decimal_scale v) u (timezone v)
    (union_type_ids v).
Definition set_timezone (z : string) (v : ArrowSchemaView) : ArrowSchemaView :=
  MkSchemaView (view_type v) (storage_type v) (layout v) (extension_name v) (extension_metadata v)
    (fixed_size v) (decimal_bitwidth v) (decimal_precision v) (decimal_scale v) (time_unit v) z
    (union_type_ids v).
Definition set_union_type_ids (ids : string) (v : ArrowSchemaView) : ArrowSchemaView :=
  MkSchemaView (view_type v) (storage_type v) (layout v) (extension_name v) (extension_metadata v)
    (fixed_size v) (decimal_bitwidth v) (decimal_precision v) (decimal_scale v) (time_unit v)
    (timezone v) ids.

Abbreviation VM := (M ArrowSchemaView).

Definition ArrowSchemaViewSetPrimitive (type : ArrowType) : VM unit := mmod (set_types type type).

(** ** Union type ids *)

(** [out]: the array the ids are stored to, if any; the result is the number of
    ids as an [int8_t], -1 on a syntax error, and the array; no result when a store
    leaves the array.  Every id takes at least one character, so that the
    length of the string bounds the number of iterations. *)
Fixpoint parse_type_ids (fuel : nat) (type_ids : string) (out : option (list Z)) (i : Z) :
    option (Z * option (list Z)) :=
  match fuel with
  | O => Some (-1, out)
  | S fuel' =>
      let '(type_id, rest) := strtol type_ids in
      if bool_decide (rest = type_ids) || (type_id <? 0) || (127 <? type_id) then Some (-1, out)
      else
        out' ← match out with
               | None => Some None
               | Some l => l' ← zset l i type_id; Some (Some l')
               end;
        match rest with
        | EmptyString => Some (i8 (i + 1), out')
        | String "," rest' => parse_type_ids fuel' rest' out' (i + 1)
        | String _ _ => Some (-1, out')
        end%char
  end.
Definition _ArrowParseUnionTypeIds (type_ids : string) (out : option (list Z)) :
    option (Z * option (list Z)) :=
  match type_ids with
  | EmptyString => Some (0, out)
  | _ => parse_type_ids (S (String.length type_ids)) type_ids out 0
  end.

(** [for (int8_t i = 0; i < n; i++)]: the index is an [int8_t], so that the one after 127
    is -128, at which nothing can be read; 129 iterations are therefore enough. *)
Fixpoint ids_equal_indices (fuel : nat) (type_ids : list Z) (n i : Z) : option bool :=
  match fuel with
  | O => None
  | S fuel' =>
      if i <? n then
        id ← znth type_ids i;
        if id =? i then ids_equal_indices fuel' type_ids n (i8 (i + 1)) else Some false
      else Some true
  end.
Definition _ArrowParsedUnionTypeIdsWillEqualChildIndices (type_ids : list Z)
    (n_type_ids n_children : Z) : option bool :=
  if n_type_ids =? n_children then ids_equal_indices 130 type_ids n_type_ids 0
  else Some false.
(** [int8_t type_ids[128]] holds indeterminate values before the parse. *)
Definition _ArrowUnionTypeIdsWillEqualChildIndices (type_id_str : string) (n_children : Z) :
    option bool :=
  r ← _ArrowParseUnionTypeIds type_id_str (Some (replicate 128 0));
  _ArrowParsedUnionTypeIdsWillEqualChildIndices (default [] r.2) r.1 n_children.

(** ** The parser *)

(** [case 'd'], on the string after the letter. *)
Definition parse_decimal (r : string) : VM string :=
  match r with
  | String ":" (String _ _ as start) =>
      let '(v, rest) := strtol start in
      let* p := mret_ (i32 v) in
      mmod (λ w, set_decimal (decimal_bitwidth w) p (decimal_scale w) w) ;;;
      match bool_decide (rest = start), rest with
      | false, String "," start =>
          let '(v, rest) := strtol start in
          mmod (λ w, set_decimal (decimal_bitwidth w) (decimal_precision w) (i32 v) w) ;;;
          if bool_decide (rest = start) then mfail EINVAL
          else
            let* rest' :=
              match rest with
              | String "," start =>
                  let '(v, rest) := strtol start in
                  mmod (λ w, set_decimal (i32 v) (decimal_precision w) (decimal_scale w) w) ;;;
                  if bool_decide (rest = start) then mfail EINVAL else mret_ rest
              | _ =>
                  mmod (λ w, set_decimal 128 (decimal_precision w) (decimal_scale w) w) ;;;
                  mret_ rest
              end in
            let* bw := mget decimal_bitwidth in
            if (bw =? 128)%Z then ArrowSchemaViewSetPrimitive NANOARROW_TYPE_DECIMAL128 ;;; mret_ rest'
            else if (bw =? 256)%Z then
              ArrowSchemaViewSetPrimitive NANOARROW_TYPE_DECIMAL256 ;;; mret_ rest'
            else mfail EINVAL
      | _, _ => mfail EINVAL
      end
  | _ => mfail EINVAL
  end%char.

(** [case 'w'] *)
Definition parse_fixed_size_binary (r : string) : VM string :=
  ArrowSchemaViewSetPrimitive NANOARROW_TYPE_FIXED_SIZE_BINARY ;;;
  match r with
  | String ":" (String _ _ as start) =>
      let '(v, rest) := strtol start in
      mmod (set_fixed_size (i32 v)) ;;; mret_ rest
  | _ => mfail EINVAL
  end%char.

(** The type ids of ["+ud:"] and ["+us:"], after the colon. *)
Definition parse_union (n_children : Z) (r : string) : VM string :=
  match r with
  | String ":" ids =>
      mmod (set_union_type_ids ids) ;;;
      let* n_type_ids := deref (fst <$> _ArrowParseUnionTypeIds ids None) in
      if (n_type_ids =? n_children)%Z then mret_ EmptyString else mfail EINVAL
  | _ => mfail EINVAL
  end%char.

(** [case '+'] *)
Definition parse_nested (n_children : Z) (r : string) : VM string :=
  match r with
  | String "l" r' => ArrowSchemaViewSetPrimitive NANOARROW_TYPE_LIST ;;; mret_ r'
  | String "L" r' => ArrowSchemaViewSetPrimitive NANOARROW_TYPE_LARGE_LIST ;;; mret_ r'
  | String "w" (String ":" (String _ _ as start)) =>
      ArrowSchemaViewSetPrimitive NANOARROW_TYPE_FIXED_SIZE_LIST ;;;
      let '(v, rest) := strtol start in
      mmod (set_fixed_size (i32 v)) ;;; mret_ rest
  | String "s" r' => ArrowSchemaViewSetPrimitive NANOARROW_TYPE_STRUCT ;;; mret_ r'
  | String "m" r' => ArrowSchemaViewSetPrimitive NANOARROW_TYPE_MAP ;;; mret_ r'
  | String "u" (String "d" r') =>
      ArrowSchemaViewSetPrimitive NANOARROW_TYPE_DENSE_UNION ;;; parse_union n_children r'
  | String "u" (String "s" r') =>
      ArrowSchemaViewSetPrimitive NANOARROW_TYPE_SPARSE_UNION ;;; parse_union n_children r'
  | _ => mfail EINVAL
  end%char.

(** The unit letter of times, timestamps and durations. *)
Definition parse_unit (c : ascii) : option ArrowTimeUnit :=
  match c with
  | "s" => Some NANOARROW_TIME_UNIT_SECOND
  | "m" => Some NANOARROW_TIME_UNIT_MILLI
  | "u" => Some NANOARROW_TIME_UNIT_MICRO
  | "n" => Some NANOARROW_TIME_UNIT_NANO
  | _ => None
  end%char.
(** A type and its storage type, with a unit. *)
Definition set_timed (t st : ArrowType) (u : ArrowTimeUnit) : VM unit :=
  mmod (λ v, set_time u (set_types t st v)).

(** [case 't'] *)
Definition parse_datetime (r : string) : VM string :=
  match r with
  | String "d" (String "D" r') =>
      mmod (set_types NANOARROW_TYPE_DATE32 NANOARROW_TYPE_INT32) ;;; mret_ r'
  | String "d" (String "m" r') =>
      mmod (set_types NANOARROW_TYPE_DATE64 NANOARROW_TYPE_INT64) ;;; mret_ r'
  | String "t" (String c r') =>
      match parse_unit c with
      | Some ((NANOARROW_TIME_UNIT_SECOND | NANOARROW_TIME_UNIT_MILLI) as u) =>
          set_timed NANOARROW_TYPE_TIME32 NANOARROW_TYPE_INT32 u ;;; mret_ r'
      | Some u => set_timed NANOARROW_TYPE_TIME64 NANOARROW_TYPE_INT64 u ;;; mret_ r'
      | None => mfail EINVAL
      end
  | String "s" (String c r') =>
      match parse_unit c with
      | Some u =>
          set_timed NANOARROW_TYPE_TIMESTAMP NANOARROW_TYPE_INT64 u ;;;
          match r' with
          | String ":" tz => mmod (set_timezone tz) ;;; mret_ EmptyString
          | _ => mfail EINVAL
          end
      | None => mfail EINVAL
      end
  | String "D" (String c r') =>
      match parse_unit c with
      | Some u => set_timed NANOARROW_TYPE_DURATION NANOARROW_TYPE_INT64 u ;;; mret_ r'
      | None => mfail EINVAL
      end
  | String "i" (String "M" r') =>
      ArrowSchemaViewSetPrimitive NANOARROW_TYPE_INTERVAL_MONTHS ;;; mret_ r'
  | String "i" (String "D" r') =>
      ArrowSchemaViewSetPrimitive NANOARROW_TYPE_INTERVAL_DAY_TIME ;;; mret_ r'
  | String "i" (String "n" r') =>
      ArrowSchemaViewSetPrimitive NANOARROW_TYPE_INTERVAL_MONTH_DAY_NANO ;;; mret_ r'
  | _ => mfail EINVAL
  end%char.

(** The types with a format of one letter. *)
Definition parse_letter (c : ascii) : option ArrowType :=
  match c with
  | "n" => Some NANOARROW_TYPE_NA
  | "b" => Some NANOARROW_TYPE_BOOL
  | "c" => Some NANOARROW_TYPE_INT8
  | "C" => Some NANOARROW_TYPE_UINT8
  | "s" => Some NANOARROW_TYPE_INT16
  | "S" => Some NANOARROW_TYPE_UINT16
  | "i" => Some NANOARROW_TYPE_INT32
  | "I" => Some NANOARROW_TYPE_UINT32
  | "l" => Some NANOARROW_TYPE_INT64
  | "L" => Some NANOARROW_TYPE_UINT64
  | "e" => Some NANOARROW_TYPE_HALF_FLOAT
  | "f" => Some NANOARROW_TYPE_FLOAT
  | "g" => Some NANOARROW_TYPE_DOUBLE
  | "z" => Some NANOARROW_TYPE_BINARY
  | "u" => Some NANOARROW_TYPE_STRING
  | "Z" => Some NANOARROW_TYPE_LARGE_BINARY
  | "U" => Some NANOARROW_TYPE_LARGE_STRING
  | _ => None
  end%char.

Definition ArrowSchemaViewParse (n_children : Z) (format : string) : VM string :=
  match format with
  | String "d" r => parse_decimal r
  | String "w" r => parse_fixed_size_binary r
  | String "+" r => parse_nested n_children r
  | String "t" r => parse_datetime r
  | String c r =>
      match parse_letter c with
      | Some t => ArrowSchemaViewSetPrimitive t ;;; mret_ r
      | None => mfail EINVAL
      end
  | EmptyString => mfail EINVAL
  end%char.

(** ** Validation *)

Definition ArrowSchemaViewValidateNChildren (s : members) (n : Z) : VM unit :=
  if negb (n =? -1) && negb (n_children s =? n) then mfail EINVAL
  else
    mfor (zseq (n_children s)) (λ i,
      let* l := deref (children s) in
      let* child := deref (znth l i) in
      match child with
      | None => mfail EINVAL
      | Some SchemaReleased => mfail EINVAL
      | Some (SchemaLive _) => mret_ tt
      end).

Definition ArrowSchemaViewValidateUnion (s : members) : VM unit :=
  ArrowSchemaViewValidateNChildren s (-1).

(** The members of [s->children[i]]: no value when the pointer is not there, is
    NULL or leads to a released schema. *)
Definition child_members (s : members) (i : Z) : option members :=
  l ← children s;
  c ← znth l i;
  match c with Some (SchemaLive m) => Some m | _ => None end.

Definition ArrowSchemaViewValidateMap (s : members) : VM unit :=
  ArrowSchemaViewValidateNChildren s 1 ;;;
  let* entries := deref (child_members s 0) in
  check (n_children entries =? 2) EINVAL ;;;
  let* f := deref (format entries) in
  check (bool_decide (f = "+s"%string)) EINVAL ;;;
  check (Z.land (flags entries) ARROW_FLAG_NULLABLE =? 0) EINVAL ;;;
  let* key := deref (child_members entries 0) in
  check (Z.land (flags key) ARROW_FLAG_NULLABLE =? 0) EINVAL.

(** [dict]: the outcome of [ArrowSchemaViewInit] on the dictionary. *)
Definition ArrowSchemaViewValidateDictionary (dict : VM unit) : VM unit :=
  let* st := mget storage_type in
  match st with
  | NANOARROW_TYPE_UINT8 | NANOARROW_TYPE_INT8 | NANOARROW_TYPE_UINT16 | NANOARROW_TYPE_INT16
  | NANOARROW_TYPE_UINT32 | NANOARROW_TYPE_INT32 | NANOARROW_TYPE_UINT64 | NANOARROW_TYPE_INT64 =>
      dict
  | _ => mfail EINVAL
  end.

Definition ArrowSchemaViewValidate (s : members) (dict : VM unit) (type : ArrowType) : VM unit :=
  match type with
  | NANOARROW_TYPE_NA | NANOARROW_TYPE_BOOL | NANOARROW_TYPE_UINT8 | NANOARROW_TYPE_INT8
  | NANOARROW_TYPE_UINT16 | NANOARROW_TYPE_INT16 | NANOARROW_TYPE_UINT32 | NANOARROW_TYPE_INT32
  | NANOARROW_TYPE_UINT64 | NANOARROW_TYPE_INT64 | NANOARROW_TYPE_HALF_FLOAT
  | NANOARROW_TYPE_FLOAT | NANOARROW_TYPE_DOUBLE | NANOARROW_TYPE_DECIMAL128
  | NANOARROW_TYPE_DECIMAL256 | NANOARROW_TYPE_STRING | NANOARROW_TYPE_LARGE_STRING
  | NANOARROW_TYPE_BINARY | NANOARROW_TYPE_LARGE_BINARY | NANOARROW_TYPE_DATE32
  | NANOARROW_TYPE_DATE64 | NANOARROW_TYPE_INTERVAL_MONTHS | NANOARROW_TYPE_INTERVAL_DAY_TIME
  | NANOARROW_TYPE_INTERVAL_MONTH_DAY_NANO | NANOARROW_TYPE_TIMESTAMP | NANOARROW_TYPE_TIME32
  | NANOARROW_TYPE_TIME64 | NANOARROW_TYPE_DURATION => ArrowSchemaViewValidateNChildren s 0
  | NANOARROW_TYPE_FIXED_SIZE_BINARY =>
      let* n := mget fixed_size in
      check (0 <? n) EINVAL ;;;
      ArrowSchemaViewValidateNChildren s 0
  | NANOARROW_TYPE_LIST | NANOARROW_TYPE_LARGE_LIST | NANOARROW_TYPE_FIXED_SIZE_LIST =>
      ArrowSchemaViewValidateNChildren s 1
  | NANOARROW_TYPE_STRUCT => ArrowSchemaViewValidateNChildren s (-1)
  | NANOARROW_TYPE_SPARSE_UNION | NANOARROW_TYPE_DENSE_UNION => ArrowSchemaViewValidateUnion s
  | NANOARROW_TYPE_MAP => ArrowSchemaViewValidateMap s
  | NANOARROW_TYPE_DICTIONARY => ArrowSchemaViewValidateDictionary dict
  | NANOARROW_TYPE_UNINITIALIZED | NANOARROW_TYPE_EXTENSION => mfail EINVAL
  end.

(** [ArrowCharView(s)] for a literal and for NULL *)
Definition ArrowCharView (s : option string) : ArrowView :=
  match s with
  | None => MkView None 0
  | Some s => MkView (Some (bytes_of_string s ++ [0])) (zstrlen s)
  end.

(** The layout of the storage type with the fixed size filled in; the product
    is computed in [int32_t] and must not overflow. *)
Definition init_layout : VM unit :=
  let* st := mget storage_type in
  let* n := mget fixed_size in
  let l := ArrowLayoutInit st in
  match st with
  | NANOARROW_TYPE_FIXED_SIZE_BINARY =>
      if INT32_MAX <? n * 8 then mundef else mmod (set_layout (set_element_size 1 (n * 8) l))
  | NANOARROW_TYPE_FIXED_SIZE_LIST =>
      mmod (set_layout (MkLayout (buffer_type l) (buffer_data_type l) (element_size_bits l) n))
  | _ => mmod (set_layout l)
  end.

Definition init_extension (m : option (list Z)) : VM unit :=
  let* n := deref (ArrowMetadataGetValue m (ArrowCharView (Some "ARROW:extension:name"%string))
                     (ArrowCharView None)) in
  let* e := deref (ArrowMetadataGetValue m (ArrowCharView (Some "ARROW:extension:metadata"%string))
                     (ArrowCharView None)) in
  mmod (set_extension n e).

(** The contents of a view that was not initialised. *)
Definition view_uninit : ArrowSchemaView :=
  MkSchemaView NANOARROW_TYPE_UNINITIALIZED NANOARROW_TYPE_UNINITIALIZED
    (MkLayout [] [] [] 0) (MkView None 0) (MkView None 0) 0 0 0 0 NANOARROW_TIME_UNIT_SECOND "" "".

(** The steps of [ArrowSchemaViewInit] once the schema is known to be there. *)
Definition view_init_members (s : members) (dict : VM unit) : VM unit :=
  match format s with
  | None | Some EmptyString => mfail EINVAL
  | Some f =>
      let* format_end := ArrowSchemaViewParse (n_children s) f in
      check (bool_decide (format_end = EmptyString)) EINVAL ;;;
      (match dictionary s with
       | Some _ => mmod (λ v, set_types NANOARROW_TYPE_DICTIONARY (storage_type v) v)
       | None => mret_ tt
       end) ;;;
      let* st := mget storage_type in
      ArrowSchemaViewValidate s dict st ;;;
      let* t := mget view_type in
      (if decide (st = t) then mret_ tt else ArrowSchemaViewValidate s dict t) ;;;
      init_layout ;;;
      init_extension (schema_metadata s)
  end.

(** Run an operation on a local view and keep only its result code. *)
Definition on_local_view (m : VM unit) : VM unit := λ v,
  match m view_uninit with
  | Ok _ _ => Ok tt v
  | Err e _ => Err e v
  | UB => UB
  end.

Fixpoint view_init (schema : ArrowSchema) : VM unit :=
  match schema with
  | SchemaReleased => mfail EINVAL
  | SchemaLive (MkMembers f n m fl nc ch d as s) =>
      view_init_members s
        (match d with
         | None => mfail EINVAL
         | Some c => on_local_view (view_init c)
         end)
  end.
Definition ArrowSchemaViewInit (schema : option ArrowSchema) : VM unit :=
  match schema with
  | None => mfail EINVAL
  | Some s => view_init s
  end.

(** A view that was initialised has a layout for its storage type. *)
Lemma init_layout_for v : returns init_layout v (λ _ v', type_layout (storage_type v') (layout v')).
Proof.
  unfold init_layout. apply returns_bind, returns_get, returns_bind, returns_get.
  pose proof (layout_init_ready (storage_type v)) as Hready.
  destruct (storage_type v) eqn:Hst; try (apply returns_mod; cbn [storage_type layout set_layout]; rewrite Hst; by split).
  - case_match; [by intros ? ?|]. apply returns_mod. cbn [storage_type layout set_layout]. rewrite Hst. split; [|done].
    destruct Hready as (? & ? & ? & _). do 3 (split; [done|]). repeat (constructor; [by intros [|]|]). constructor.
Qed.
Lemma view_init_layout schema v :
  returns (ArrowSchemaViewInit schema) v (λ _ v', type_layout (storage_type v') (layout v')).
Proof.
  destruct schema as [[|[f n m fl nc ch d]]|]; [apply returns_fail| |apply returns_fail].
  cbn [ArrowSchemaViewInit view_init]. unfold view_init_members. cbn [format].
  destruct f as [[|c f]|]; try apply returns_fail. unfold init_extension.
  do 7 (apply returns_bind; intros ? ? _). apply returns_bind.
  eapply returns_mono; [apply init_layout_for|]. intros [] v' Hv'.
  do 2 (apply returns_bind, returns_deref; intros ? _). by apply returns_mod.
Qed.

(** ** Round trip: what the setters write the parser reads *)

Inductive schema_kind : Set :=
  | KType (t : ArrowType)
  | KStruct (n : Z)
  | KFixed (t : ArrowType) (n : Z)
  | KDecimal (t : ArrowType) (precision scale : Z)
  | KDateTime (t : ArrowType) (u : ArrowTimeUnit) (tz : option string)
  | KUnion (t : ArrowType) (n : Z).

(** The setter for a kind of type. *)
Definition set_kind `{!Malloc} (k : schema_kind) : M (mstate * members) unit :=
  match k with
  | KType t => ArrowSchemaSetType t
  | KStruct n => ArrowSchemaSetTypeStruct n
  | KFixed t n => ArrowSchemaSetTypeFixedSize t n
  | KDecimal t p s => ArrowSchemaSetTypeDecimal t p s
  | KDateTime t u tz => ArrowSchemaSetTypeDateTime t u tz
  | KUnion t n => ArrowSchemaSetTypeUnion t n
  end.

(** The arguments a setter is meant for. *)
Definition kind_ok (k : schema_kind) : Prop :=
  match k with
  | KType t => is_Some (ArrowSchemaFormatTemplate t)
  | KStruct n => 0 <= n ∧ n * sizeof_pointer <= INT64_MAX
  | KFixed NANOARROW_TYPE_FIXED_SIZE_BINARY n => 0 < n ∧ n * 8 <= INT32_MAX
  | KFixed NANOARROW_TYPE_FIXED_SIZE_LIST n => 0 < n <= INT32_MAX
  | KDecimal (NANOARROW_TYPE_DECIMAL128 | NANOARROW_TYPE_DECIMAL256) p s =>
      0 < p <= INT32_MAX ∧ INT32_MIN <= s <= INT32_MAX
  | KDateTime NANOARROW_TYPE_TIME32 (NANOARROW_TIME_UNIT_SECOND | NANOARROW_TIME_UNIT_MILLI) None
  | KDateTime NANOARROW_TYPE_TIME64 (NANOARROW_TIME_UNIT_MICRO | NANOARROW_TIME_UNIT_NANO) None
  | KDateTime NANOARROW_TYPE_DURATION _ None => True
  | KDateTime NANOARROW_TYPE_TIMESTAMP _ tz => zstrlen (default ""%string tz) < 124
  | KUnion (NANOARROW_TYPE_SPARSE_UNION | NANOARROW_TYPE_DENSE_UNION) n => 0 <= n <= 127
  | _ => False
  end.

(** What the view of the schema must say. *)
Definition kind_view (k : schema_kind) (v : ArrowSchemaView) : Prop :=
  match k with
  | KType t => view_type v = t
  | KStruct _ => view_type v = NANOARROW_TYPE_STRUCT
  | KFixed t n => view_type v = t ∧ fixed_size v = n
  | KDecimal t p s =>
      view_type v = t ∧ decimal_precision v = p ∧ decimal_scale v = s ∧
      decimal_bitwidth v = (if decide (t = NANOARROW_TYPE_DECIMAL128) then 128 else 256)
  | KDateTime t u tz =>
      view_type v = t ∧ time_unit v = u ∧
      (t = NANOARROW_TYPE_TIMESTAMP → timezone v = default ""%string tz)
  | KUnion t n =>
      view_type v = t ∧ _ArrowUnionTypeIdsWillEqualChildIndices (union_type_ids v) n = Some true
  end.

(** The members each setter leaves in an initialised schema. *)
Definition fresh_children (n : Z) : option (list (option ArrowSchema)) :=
  if 0 <? n then Some (replicate (Z.to_nat n) (Some (SchemaLive ArrowSchemaInit))) else None.
Definition named (n : string) (fl : Z) : option ArrowSchema :=
  Some (SchemaLive (MkMembers None (Some n) None fl 0 None None)).
Definition kind_children (t : ArrowType) : Z * option (list (option ArrowSchema)) :=
  match t with
  | NANOARROW_TYPE_LIST | NANOARROW_TYPE_LARGE_LIST | NANOARROW_TYPE_FIXED_SIZE_LIST =>
      (1, Some [named "item" 2])
  | NANOARROW_TYPE_MAP =>
      (1, Some [Some (SchemaLive (MkMembers (Some "+s"%string) (Some "entries"%string) None 0 2
        (Some [named "key" 0; named "value" 2]) None))])
  | _ => (0, None)
  end.
Definition union_text (n : Z) : string := if 0 <? n then "0" +:+ union_ids n else ""%string.
Definition datetime_text (t : ArrowType) (u : ArrowTimeUnit) (tz : option string) : string :=
  match t with
  | NANOARROW_TYPE_TIMESTAMP => "ts" +:+ ArrowTimeUnitFormatString u +:+ ":" +:+ default "" tz
  | NANOARROW_TYPE_DURATION => "tD" +:+ ArrowTimeUnitFormatString u
  | _ => "tt" +:+ ArrowTimeUnitFormatString u
  end%string.
Definition kind_members (k : schema_kind) : members :=
  let mk f '(n, c) := MkMembers (Some f) None None 2 n c None in
  match k with
  | KType t => mk (default "" (ArrowSchemaFormatTemplate t)) (kind_children t)
  | KStruct n => mk "+s" (0 `max` n, fresh_children n)
  | KFixed NANOARROW_TYPE_FIXED_SIZE_LIST n =>
      mk ("+w:" +:+ print_int n) (kind_children NANOARROW_TYPE_FIXED_SIZE_LIST)
  | KFixed _ n => mk ("w:" +:+ print_int n) (0, None)
  | KDecimal t p s =>
      mk (if decide (t = NANOARROW_TYPE_DECIMAL128)
          then "d:" +:+ print_int p +:+ "," +:+ print_int s
          else "d:" +:+ print_int p +:+ "," +:+ print_int s +:+ ",256") (0, None)
  | KDateTime t u tz => mk (datetime_text t u tz) (0, None)
  | KUnion t n =>
      mk ((if decide (t = NANOARROW_TYPE_SPARSE_UNION) then "+us:" else "+ud:") +:+ union_text n)
        (n, fresh_children n)
  end%string.

Section setters.
Context `{!Malloc}.
Implicit Types (a : mstate) (s : members).

(** Runs a setter symbolically: each allocation succeeds or fails. *)
Ltac run_setter :=
  repeat (cbv -[malloc_step print_int zstrlen String.append oom]; try done;
    match goal with |- context [malloc_step ?n ?a] => destruct (malloc_step n a) as [[] ?] end).

Lemma set_type_wp t a :
  is_Some (ArrowSchemaFormatTemplate t) →
  wp (ArrowSchemaSetType t) (a, ArrowSchemaInit) (λ _ p, p.2 = kind_members (KType t)) oom.
Proof. intros [f Hf]. destruct t; try done; clear f Hf; run_setter. Qed.

(** Allocating and initialising [n] children. *)
Lemma init_children_wp n a s :
  children s = None → n_children s = 0 → 0 <= n → n * sizeof_pointer <= INT64_MAX →
  wp (ArrowSchemaAllocateChildren n ;;; mfor (zseq n) init_child) (a, s)
    (λ _ p, p.2 = set_children n (fresh_children n) s) oom.
Proof.
  intros Hc Hnc Hn Hmax. unfold fresh_children. destruct (Z.ltb_spec 0 n) as [Hpos|Hz].
  2:{ assert (n = 0) as -> by lia. apply wp_bind. unfold ArrowSchemaAllocateChildren.
      apply wp_bind, wp_get. rewrite Hc. simpl. apply wp_ret, wp_ret. simpl.
      destruct s; simpl in *; by subst. }
  apply wp_bind. eapply wp_mono; [by apply allocate_children_wp| |done].
  intros [] [a1 s1] Hs1. simpl in Hs1. subst s1.
  eapply (wp_mono _ _ _ _ oom); [apply (wp_for (λ l p, p.2 = set_children n (Some
    (replicate (length l) (Some (SchemaLive ArrowSchemaInit)) ++
     replicate (Z.to_nat n - length l) (Some SchemaReleased))) s))| |done].
  - simpl. by rewrite Nat.sub_0_r.
  - intros pre i post [a2 s2] Hsplit Hs2. apply zseq_split in Hsplit as (Hi & Hlt & _).
    simpl in Hs2. subst s2. unfold wp, init_child, on_child. cbn [children set_children].
    unfold zlen in Hi.
    replace (Z.to_nat n - length pre)%nat with (S (Z.to_nat n - (length pre + 1))) by lia.
    set (inits := replicate (length pre) (Some (SchemaLive ArrowSchemaInit))).
    assert (length inits = length pre) as Hlen by apply length_replicate.
    replace i with (zlen inits) by (unfold zlen; lia). cbn [replicate].
    rewrite znth_app, Z.ltb_irrefl, Z.sub_diag by apply zlen_nonneg. cbn [znth Z.ltb Z.compare lookup].
    change (znth (?x :: ?l) 0) with (Some x). cbv iota beta.
    assert (<[Z.to_nat (zlen inits) := Some (SchemaLive ArrowSchemaInit)]>
      (inits ++ Some SchemaReleased :: replicate (Z.to_nat n - (length pre + 1)) (Some SchemaReleased))
      = replicate (length (pre ++ [zlen inits])) (Some (SchemaLive ArrowSchemaInit)) ++
        replicate (Z.to_nat n - length (pre ++ [zlen inits])) (Some SchemaReleased)) as <-; [|done].
    unfold zlen at 1. rewrite Nat2Z.id. replace (length inits) with (length inits + 0)%nat at 1 by lia.
    rewrite insert_app_r. cbn. rewrite length_app, replicate_add, <-app_assoc. done.
  - intros [] p Hp. rewrite Hp. assert (length (zseq n) = Z.to_nat n) as ->.
    { unfold zseq. by rewrite length_fmap, length_seq. }
    by rewrite Nat.sub_diag, app_nil_r.
Qed.

Lemma print_to_wp {A} size text (k : string → M (mstate * members) A) p Q E :
  zstrlen text < size → wp (k text) p Q E → wp (mbind_ (print_to size text) k) p Q E.
Proof.
  intros Hlen Hk. apply wp_bind. unfold print_to. destruct (Z.ltb_spec (zstrlen text) size); [done|lia].
Qed.

(** The text of the type ids fits its array, for every number of children. *)
Lemma union_text_len n : 0 <= n <= 127 → zstrlen (union_text n) < 508.
Proof.
  intros Hn. apply Z.ltb_lt.
  assert (forallb (λ n, zstrlen (union_text n) <? 508) (zseq 128) = true) as Hall by by vm_compute.
  rewrite forallb_forall in Hall. apply Hall, list_elem_of_In, elem_of_zseq. lia.
Qed.

Lemma set_datetime_wp t u tz a :
  kind_ok (KDateTime t u tz) →
  wp (ArrowSchemaSetTypeDateTime t u tz) (a, ArrowSchemaInit) (λ _ p, p.2 = kind_members (KDateTime t u tz)) oom.
Proof.
  intros Hok. unfold ArrowSchemaSetTypeDateTime. destruct t; try done.
  - assert (zstrlen (datetime_text NANOARROW_TYPE_TIMESTAMP u tz) < 128) as Hlen.
    { unfold datetime_text. rewrite !zstrlen_app. change (zstrlen "ts") with 2.
      change (zstrlen ":") with 1. simpl in Hok.
      assert (zstrlen (ArrowTimeUnitFormatString u) = 1) as -> by by destruct u. lia. }
    unfold datetime_text in Hlen. destruct (Z.leb_spec 128 (zstrlen ("ts" +:+
      ArrowTimeUnitFormatString u +:+ ":" +:+ default ""%string tz))); [lia|].
    eapply wp_mono; [apply set_format_wp| |done]. by intros [] p ->.
  - destruct u, tz; try done; (eapply wp_mono; [apply set_format_wp| |done]; by intros [] p ->).
  - destruct u, tz; try done; (eapply wp_mono; [apply set_format_wp| |done]; by intros [] p ->).
  - destruct tz; try done. destruct u; (eapply wp_mono; [apply set_format_wp| |done]; by intros [] p ->).
Qed.

Lemma set_kind_wp k a :
  kind_ok k → wp (set_kind k) (a, ArrowSchemaInit) (λ _ p, p.2 = kind_members k) oom.
Proof.
  destruct k as [t|n|t n|t p s|t u tz|t n]; simpl set_kind; intros Hok.
  - by apply set_type_wp.
  - destruct Hok. unfold ArrowSchemaSetTypeStruct. apply wp_bind.
    eapply wp_mono; [by apply set_type_wp| |done]. intros [] [a1 s1] Hs1. simpl in Hs1. subst s1.
    eapply wp_mono; [by apply init_children_wp| |done]. intros [] p Hp. rewrite Hp. simpl.
    by rewrite Z.max_r by lia.
  - assert (0 < n <= INT32_MAX) as Hn by (destruct t; try done; simpl in Hok; width).
    pose proof (print_int_len n). unfold ArrowSchemaSetTypeFixedSize.
    destruct (Z.leb_spec n 0); [lia|]. destruct t; try done.
    + apply print_to_wp; [rewrite zstrlen_app; change (zstrlen "w:") with 2; width|]. run_setter.
    + apply print_to_wp; [rewrite zstrlen_app; change (zstrlen "+w:") with 3; width|]. run_setter.
  - assert (0 < p <= INT32_MAX ∧ INT32_MIN <= s <= INT32_MAX) as [Hp Hs] by (destruct t; done).
    pose proof (print_int_len p). pose proof (print_int_len s). unfold ArrowSchemaSetTypeDecimal.
    destruct (Z.leb_spec p 0); [lia|]. destruct t; try done.
    + apply print_to_wp; [rewrite !zstrlen_app; change (zstrlen "d:") with 2; change (zstrlen ",") with 1; width|].
      run_setter.
    + apply print_to_wp; [rewrite !zstrlen_app; change (zstrlen "d:") with 2; change (zstrlen ",") with 1;
        change (zstrlen ",256") with 4; width|]. run_setter.
  - by apply set_datetime_wp.
  - assert (0 <= n <= 127) as Hn by (destruct t; done). pose proof (union_text_len n Hn) as Hlen.
    assert (∀ prefix, zstrlen prefix = 4 →
      wp (let* format_out := print_to 512 (prefix +:+ union_text n) in
          ArrowSchemaSetFormat (Some format_out) ;;; ArrowSchemaAllocateChildren n ;;;
          mfor (zseq n) init_child) (a, ArrowSchemaInit)
        (λ _ p, p.2 = MkMembers (Some (prefix +:+ union_text n)) None None 2 n (fresh_children n) None) oom)
      as Hrun.
    { intros prefix Hp. apply print_to_wp; [rewrite zstrlen_app; lia|].
      apply wp_bind. eapply wp_mono; [apply set_format_wp| |done]. intros [] [a1 s1] Hs1.
      simpl in Hs1. subst s1. eapply wp_mono; [apply init_children_wp; try done; try lia; unfold sizeof_pointer; width| |done].
      by intros [] p ->. }
    unfold ArrowSchemaSetTypeUnion. destruct (Z.ltb_spec n 0); [lia|].
    destruct (Z.ltb_spec 127 n); [lia|]. cbn [orb]. destruct t; try done; by apply Hrun.
Qed.
End setters.

(** The steps after the parser, for a schema without dictionary and metadata. *)
Lemma view_init_spec s v v1 v2 f :
  format s = Some f → f ≠ ""%string → dictionary s = None → schema_metadata s = None →
  ArrowSchemaViewParse (n_children s) f v = Ok ""%string v1 →
  ArrowSchemaViewValidate s (mfail EINVAL) (storage_type v1) v1 = Ok tt v1 →
  (storage_type v1 ≠ view_type v1 →
    ArrowSchemaViewValidate s (mfail EINVAL) (view_type v1) v1 = Ok tt v1) →
  init_layout v1 = Ok tt v2 →
  view_init (SchemaLive s) v = Ok tt (set_extension (MkView None 0) (MkView None 0) v2).
Proof.
  intros Hf Hne Hd Hm Hp Hv1 Hv2 Hl. destruct s as [f0 n m fl nc ch d]. simpl in *. subst.
  unfold view_init_members. cbn [format dictionary n_children schema_metadata].
  destruct f as [|c f]; [done|]. unfold mbind_ at 1. rewrite Hp. cbn [check bool_decide].
  rewrite bool_decide_true by done. cbn [check]. unfold mbind_, mret_, mget.
  rewrite Hv1. destruct (decide (storage_type v1 = view_type v1)); rewrite ?Hv2, Hl by done; done.
Qed.

Lemma validate_children_ok s n v :
  children s = fresh_children (n_children s) → n = -1 ∨ n = n_children s →
  ArrowSchemaViewValidateNChildren s n v = Ok tt v.
Proof.
  intros Hc Hn. unfold ArrowSchemaViewValidateNChildren.
  assert (negb (n =? -1) && negb (n_children s =? n) = false) as ->.
  { destruct Hn as [->| ->]; [done|]. rewrite Z.eqb_refl. apply andb_false_r. }
  assert (∀ l, Forall (λ i, 0 <= i < n_children s) l →
    mfor l (λ i,
      let* l := deref (children s) in
      let* child := deref (znth l i) in
      match child with
      | Some (SchemaLive _) => mret_ tt
      | _ => mfail EINVAL
      end) v = Ok tt v) as Hfor.
  { induction 1 as [|i l Hi _ IH]; [done|]. cbn [mfor]. unfold mbind_ at 1. rewrite Hc.
    unfold fresh_children at 1. destruct (Z.ltb_spec 0 (n_children s)); [|lia].
    cbn [deref]. unfold mbind_, mret_. rewrite znth_replicate by lia. cbn. rewrite Hc in IH. apply IH. }
  apply Hfor. apply Forall_forall. intros i. by rewrite <-list_elem_of_In, elem_of_zseq.
Qed.

(** The parser on the texts with numbers. *)
Lemma starts_comma s : starts_with_digit (String "," s) = false.
Proof. done. Qed.
Lemma print_int_cons z : ∃ c t, print_int z = String c t.
Proof.
  unfold print_int. destruct (Z.ltb_spec z 0); [by eexists _, _|].
  destruct (print_digits_starts 20 z "") as (c & d & t & -> & _); [done|lia|by eexists _, _].
Qed.
Lemma string_app_ne s1 c s2 t : String c s2 = s1 +:+ t → zstrlen s1 ≠ 0 → t ≠ String c s2.
Proof.
  intros Heq Hne ->. apply (f_equal zstrlen) in Heq. rewrite zstrlen_app in Heq. lia.
Qed.
(** [strtol] after a printed number: the value, and an end that moved. *)
Lemma strtol_moves z s :
  INT32_MIN <= z <= INT32_MAX → starts_with_digit s = false →
  ∃ c t, print_int z +:+ s = String c t ∧ strtol (String c t) = (z, s) ∧ s ≠ String c t.
Proof.
  intros Hz Hs. destruct (print_int_cons z) as (c & t & Hc). exists c, (t +:+ s).
  assert (print_int z +:+ s = String c (t +:+ s)) as Heq by by rewrite Hc.
  split; [done|]. rewrite <-Heq. split; [by apply strtol_print_int|].
  rewrite Heq. apply (string_app_ne (print_int z)); [done|]. rewrite Hc. unfold zstrlen.
  cbn [String.length]. lia.
Qed.
Lemma string_app_nil s : s +:+ "" = s.
Proof. induction s as [|c s IH]; [done|]. change (String c (s +:+ "") = String c s). by rewrite IH. Qed.

Lemma parse_fixed n v :
  0 < n <= INT32_MAX →
  ArrowSchemaViewParse 0 ("w:" +:+ print_int n) v =
    Ok ""%string (set_fixed_size n (set_types NANOARROW_TYPE_FIXED_SIZE_BINARY
                                 NANOARROW_TYPE_FIXED_SIZE_BINARY v)).
Proof.
  intros Hn. destruct (strtol_moves n "") as (c & t & Heq & Hs & _); [width|done|].
  rewrite string_app_nil in Heq. rewrite Heq.
  change (ArrowSchemaViewParse 0 ("w:" +:+ String c t)) with
    (parse_fixed_size_binary (String ":" (String c t))).
  unfold parse_fixed_size_binary. rewrite Hs, i32_small by width. done.
Qed.
Lemma parse_fixed_list n v :
  0 < n <= INT32_MAX →
  ArrowSchemaViewParse 1 ("+w:" +:+ print_int n) v =
    Ok ""%string (set_fixed_size n (set_types NANOARROW_TYPE_FIXED_SIZE_LIST
                                 NANOARROW_TYPE_FIXED_SIZE_LIST v)).
Proof.
  intros Hn. destruct (strtol_moves n "") as (c & t & Heq & Hs & _); [width|done|].
  rewrite string_app_nil in Heq. rewrite Heq.
  change (ArrowSchemaViewParse 1 ("+w:" +:+ String c t)) with
    (parse_nested 1 (String "w" (String ":" (String c t)))).
  unfold parse_nested. rewrite Hs, i32_small by width. done.
Qed.
Lemma parse_decimal_text p s v :
  0 < p <= INT32_MAX → INT32_MIN <= s <= INT32_MAX →
  ArrowSchemaViewParse 0 ("d:" +:+ print_int p +:+ "," +:+ print_int s) v =
    Ok ""%string (set_types NANOARROW_TYPE_DECIMAL128 NANOARROW_TYPE_DECIMAL128 (set_decimal 128 p s v)) ∧
  ArrowSchemaViewParse 0 ("d:" +:+ print_int p +:+ "," +:+ print_int s +:+ ",256") v =
    Ok ""%string (set_types NANOARROW_TYPE_DECIMAL256 NANOARROW_TYPE_DECIMAL256 (set_decimal 256 p s v)).
Proof.
  intros Hp Hs.
  assert (∀ tail v1 rest, starts_with_digit tail = false →
    (∀ c t, print_int s +:+ tail = String c t → strtol (String c t) = (s, tail) → tail ≠ String c t →
      parse_decimal (String ":" (print_int p +:+ "," +:+ print_int s +:+ tail)) v = Ok rest v1) →
    ArrowSchemaViewParse 0 ("d:" +:+ print_int p +:+ "," +:+ print_int s +:+ tail) v = Ok rest v1) as Hred.
  { intros tail v1 rest Htail H. destruct (strtol_moves s tail) as (c & t & ? & ? & ?); [done|done|].
    by apply (H c t). }
  split.
  - rewrite <-(string_app_nil (print_int s)) at 1. apply Hred; [done|]. intros c t Heq Hst Hne.
    destruct (strtol_moves p ("," +:+ print_int s +:+ "")) as (c1 & t1 & Heq1 & Hst1 & Hne1); [width|done|].
    rewrite Heq1. unfold parse_decimal. rewrite Hst1. rewrite bool_decide_false by done.
    change ("," +:+ print_int s +:+ "") with (String "," (print_int s +:+ "")).
    rewrite Heq, Hst. unfold mbind_, mret_, mmod. rewrite bool_decide_false by done.
    rewrite !i32_small by width. done.
  - apply Hred; [done|]. intros c t Heq Hst Hne.
    destruct (strtol_moves p ("," +:+ print_int s +:+ ",256")) as (c1 & t1 & Heq1 & Hst1 & Hne1); [width|done|].
    rewrite Heq1. unfold parse_decimal. rewrite Hst1. rewrite bool_decide_false by done.
    change ("," +:+ print_int s +:+ ",256") with (String "," (print_int s +:+ ",256")).
    rewrite Heq, Hst. unfold mbind_, mret_, mmod. rewrite bool_decide_false by done.
    rewrite !i32_small by width. done.
Qed.

(** The type ids the union setter writes are the child indices. *)
Definition union_text_ok (n : Z) : bool :=
  match _ArrowParseUnionTypeIds (union_text n) None,
        _ArrowUnionTypeIdsWillEqualChildIndices (union_text n) n with
  | Some (k, None), Some true => k =? n
  | _, _ => false
  end.
Lemma union_text_spec n :
  0 <= n <= 127 →
  _ArrowParseUnionTypeIds (union_text n) None = Some (n, None) ∧
  _ArrowUnionTypeIdsWillEqualChildIndices (union_text n) n = Some true.
Proof.
  intros Hn. assert (forallb union_text_ok (zseq 128) = true) as Hall by by vm_compute.
  rewrite forallb_forall in Hall.
  assert (union_text_ok n = true) as Hok by (apply Hall, list_elem_of_In, elem_of_zseq; lia).
  unfold union_text_ok in Hok. destruct (_ArrowParseUnionTypeIds _ _) as [[k [|]]|]; try done.
  destruct (_ArrowUnionTypeIdsWillEqualChildIndices _ _) as [[]|]; try done. zbool. by subst.
Qed.

(** The same with the layout left to be found. *)
Lemma view_init_parsed s v v1 L f :
  format s = Some f → f ≠ ""%string → dictionary s = None → schema_metadata s = None →
  ArrowSchemaViewParse (n_children s) f v = Ok ""%string v1 →
  ArrowSchemaViewValidate s (mfail EINVAL) (storage_type v1) v1 = Ok tt v1 →
  (storage_type v1 ≠ view_type v1 →
    ArrowSchemaViewValidate s (mfail EINVAL) (view_type v1) v1 = Ok tt v1) →
  init_layout v1 = Ok tt (set_layout L v1) →
  ∃ v', view_init (SchemaLive s) v = Ok tt v' ∧
    v' = set_extension (MkView None 0) (MkView None 0) (set_layout L v1).
Proof. intros. eexists. split; [|done]. by eapply view_init_spec. Qed.

Lemma init_layout_plain v :
  storage_type v ≠ NANOARROW_TYPE_FIXED_SIZE_BINARY →
  storage_type v ≠ NANOARROW_TYPE_FIXED_SIZE_LIST →
  init_layout v = Ok tt (set_layout (ArrowLayoutInit (storage_type v)) v).
Proof. unfold init_layout, mbind_, mget. by destruct (storage_type v). Qed.

Lemma view_init_kind k v :
  kind_ok k → ∃ v', view_init (SchemaLive (kind_members k)) v = Ok tt v' ∧ kind_view k v'.
Proof.
  destruct k as [t|n|t n|t p s|t u tz|t n]; intros Hok.
  - destruct Hok as [f Hf]. destruct t; try done; by eexists.
  - destruct Hok as [Hn _].
    edestruct (view_init_parsed (kind_members (KStruct n)) v
      (set_types NANOARROW_TYPE_STRUCT NANOARROW_TYPE_STRUCT v)) as (v' & Hv & ->);
      [reflexivity|done|done|done|done| |done|cbv; reflexivity|by eexists].
    apply (validate_children_ok _ (-1)); [|by left]. cbn. by rewrite Z.max_r by lia.
  - destruct t; try done; simpl in Hok.
    + edestruct (view_init_parsed (kind_members (KFixed NANOARROW_TYPE_FIXED_SIZE_BINARY n)) v)
        as (v' & Hv & ->); [reflexivity|done|done|done|apply parse_fixed; width| |done| |by eexists].
      * cbn. unfold mbind_, mget. cbn. destruct (Z.ltb_spec 0 n); [done|lia].
      * cbn. unfold init_layout, mbind_, mget. cbn. destruct (Z.ltb_spec INT32_MAX (n * 8)); [width|reflexivity].
    + edestruct (view_init_parsed (kind_members (KFixed NANOARROW_TYPE_FIXED_SIZE_LIST n)) v)
        as (v' & Hv & ->); [reflexivity|done|done|done|by apply parse_fixed_list|done|done|cbv; reflexivity|by eexists].
  - assert (0 < p <= INT32_MAX ∧ INT32_MIN <= s <= INT32_MAX) as [Hp Hs] by (destruct t; done).
    destruct (parse_decimal_text p s v Hp Hs) as [H128 H256]. destruct t; try done.
    + edestruct (view_init_parsed (kind_members (KDecimal NANOARROW_TYPE_DECIMAL128 p s)) v)
        as (v' & Hv & ->); [reflexivity|done|done|done|exact H128|done|done|cbv; reflexivity|by eexists].
    + edestruct (view_init_parsed (kind_members (KDecimal NANOARROW_TYPE_DECIMAL256 p s)) v)
        as (v' & Hv & ->); [reflexivity|done|done|done|exact H256|done|done|cbv; reflexivity|by eexists].
  - destruct t; try done.
    + edestruct (view_init_parsed (kind_members (KDateTime NANOARROW_TYPE_TIMESTAMP u tz)) v
        (set_timezone (default ""%string tz) (set_time u (set_types NANOARROW_TYPE_TIMESTAMP NANOARROW_TYPE_INT64 v))))
        as (v' & Hv & ->); [reflexivity|by destruct u|done|done|by destruct u|done|done|cbv; reflexivity|by eexists].
    + destruct u, tz; try done; by eexists.
    + destruct u, tz; try done; by eexists.
    + destruct tz; try done. destruct u; by eexists.
  - assert (0 <= n <= 127) as Hn by (destruct t; done). destruct (union_text_spec n Hn) as [Hp Hids].
    assert (∀ t, parse_union n (String ":" (union_text n)) (set_types t t v) =
      Ok ""%string (set_union_type_ids (union_text n) (set_types t t v))) as Hparse.
    { intros t'. unfold parse_union, mbind_, mmod. rewrite Hp. cbn. by rewrite Z.eqb_refl. }
    destruct t; try done.
    + edestruct (view_init_parsed (kind_members (KUnion NANOARROW_TYPE_SPARSE_UNION n)) v)
        as (v' & Hv & ->); [reflexivity|done|done|done|apply Hparse| |done|by apply init_layout_plain|by eexists].
      apply (validate_children_ok _ (-1)); [done|by left].
    + edestruct (view_init_parsed (kind_members (KUnion NANOARROW_TYPE_DENSE_UNION n)) v)
        as (v' & Hv & ->); [reflexivity|done|done|done|apply Hparse| |done|by apply init_layout_plain|by eexists].
      apply (validate_children_ok _ (-1)); [done|by left].
Qed.

(** C13: round trip.  For every type a setter can describe, the schema it leaves
    parses, and the view has the type and the parameters that were set; the type
    ids of a union are its child indices.  A setter fails only with
    [ENOMEM]. *)
Theorem schema_view_roundtrip (malloc : Malloc) (k : schema_kind) (a : mstate)
    (v : ArrowSchemaView) (Hk : kind_ok k) :
  wp (set_kind k) (a, ArrowSchemaInit)
    (λ _ p, wp (ArrowSchemaViewInit (Some (SchemaLive p.2))) v
              (λ _ v', kind_view k v') (λ _ _, False))
    (λ e _, e = ENOMEM).
Proof.
  eapply wp_mono; [by apply set_kind_wp| |done]. intros [] p ->.
  destruct (view_init_kind k v Hk) as (v' & Hv & Hview). unfold wp, ArrowSchemaViewInit. by rewrite Hv.
Qed.
Lemma schema_view_roundtrip_witness :
  wp (@set_kind malloc_budget (KDecimal NANOARROW_TYPE_DECIMAL256 38 (-2))) (5%nat, ArrowSchemaInit)
    (λ _ p, wp (ArrowSchemaViewInit (Some (SchemaLive p.2))) view_uninit
              (λ _ v', kind_view (KDecimal NANOARROW_TYPE_DECIMAL256 38 (-2)) v') (λ _ _, False))
    (λ e _, e = ENOMEM).
Proof.
  apply (schema_view_roundtrip malloc_budget (KDecimal NANOARROW_TYPE_DECIMAL256 38 (-2)) 5%nat view_uninit).
  simpl. width.
Defined.

(** ** Type ids beyond the array

    The number of ids is narrowed to [int8_t]: a format with 260 ids passes for a
    union of four children, and does not fit the arrays of 128 ids the callers
    of the parser use. *)
Fixpoint many_ids (n : nat) : string :=
  match n with
  | O => "0"
  | S n' => String "0" (String "," (many_ids n'))
  end.
Lemma strtol_zero s : starts_with_digit s = false → strtol (String "0" s) = (0, s).
Proof. intros Hs. apply (strtol_print_int 0 s); [width|done]. Qed.
Lemma many_ids_step fuel n out i :
  parse_type_ids (S fuel) (many_ids (S n)) out i =
    (out' ← match out with None => Some None | Some l => l' ← zset l i 0; Some (Some l') end;
     parse_type_ids fuel (many_ids n) out' (i + 1)).
Proof.
  cbn [many_ids]. unfold parse_type_ids at 1. fold parse_type_ids. rewrite strtol_zero by done.
  rewrite bool_decide_false by (intros Heq; apply (f_equal zstrlen) in Heq; unfold zstrlen in Heq;
    cbn [String.length] in Heq; lia). done.
Qed.
Lemma many_ids_count n : ∀ fuel i,
  (n < fuel)%nat → parse_type_ids fuel (many_ids n) None i = Some (i8 (i + Z.of_nat (S n)), None).
Proof.
  induction n as [|n IH]; intros [|fuel] i Hf; try lia.
  - reflexivity.
  - rewrite many_ids_step. cbn [mbind option_bind]. rewrite IH by lia. do 3 f_equal. lia.
Qed.
Lemma many_ids_overflow n : ∀ fuel i l,
  (n < fuel)%nat → zlen l = 128 → 0 <= i <= 128 → 128 < i + Z.of_nat (S n) →
  parse_type_ids fuel (many_ids n) (Some l) i = None.
Proof.
  assert (∀ (l : list Z) i, zlen l = 128 → i = 128 → zset l i 0 = None) as Hout.
  { intros l i Hl ->. unfold zset. by rewrite Hl. }
  induction n as [|n IH]; intros [|fuel] i l Hf Hl Hi Hn; try lia.
  - unfold parse_type_ids. cbn [many_ids]. rewrite strtol_zero by done. cbn.
    by rewrite Hout by (done || lia).
  - rewrite many_ids_step. destruct (Z.eq_dec i 128) as [->|Hne]; [by rewrite Hout|].
    rewrite zset_in by lia. cbn [mbind option_bind]. apply IH; rewrite ?zlen_insert; lia.
Qed.
Lemma many_ids_length n : (n < S (String.length (many_ids n)))%nat.
Proof. induction n; simpl; lia. Qed.

(** A union with [n + 1] type ids, all 0, and as many children as that number
    narrowed to [int8_t]. *)
Definition union_many (n : nat) : members :=
  let c := i8 (Z.of_nat (S n)) in
  MkMembers (Some ("+us:" +:+ many_ids n)) None None 2 c (fresh_children c) None.

(** For every number of type ids above 128, [ArrowSchemaViewInit] accepts the
    union whose number of children is that number modulo 256, and parsing its
    type ids into an array of 128 writes outside of the array. *)
Theorem union_type_ids_overflow (n : nat) (v : ArrowSchemaView) (Hn : 128 < Z.of_nat (S n)) :
  (∃ v', ArrowSchemaViewInit (Some (SchemaLive (union_many n))) v = Ok tt v') ∧
  _ArrowUnionTypeIdsWillEqualChildIndices (many_ids n) (n_children (union_many n)) = None.
Proof.
  assert (∀ out, _ArrowParseUnionTypeIds (many_ids n) out =
    parse_type_ids (S (String.length (many_ids n))) (many_ids n) out 0) as Hparse.
  { intros out. by destruct n. }
  split.
  - edestruct (view_init_parsed (union_many n) v
      (set_union_type_ids (many_ids n) (set_types NANOARROW_TYPE_SPARSE_UNION NANOARROW_TYPE_SPARSE_UNION v)))
      as (v' & Hv & _); [done|done|done|done| | |done|by apply init_layout_plain|by eexists].
    + change (parse_union (i8 (Z.of_nat (S n))) (String ":" (many_ids n))
        (set_types NANOARROW_TYPE_SPARSE_UNION NANOARROW_TYPE_SPARSE_UNION v) =
        Ok ""%string (set_union_type_ids (many_ids n)
          (set_types NANOARROW_TYPE_SPARSE_UNION NANOARROW_TYPE_SPARSE_UNION v))).
      unfold parse_union, mbind_, mmod. rewrite Hparse, many_ids_count by apply many_ids_length.
      rewrite Z.add_0_l. cbn. by rewrite Z.eqb_refl.
    + apply (validate_children_ok _ (-1)); [done|by left].
  - unfold _ArrowUnionTypeIdsWillEqualChildIndices. rewrite Hparse.
    rewrite many_ids_overflow; try done. apply many_ids_length.
Qed.
Lemma union_type_ids_overflow_witness :
  (∃ v', ArrowSchemaViewInit (Some (SchemaLive (union_many 259))) view_uninit = Ok tt v') ∧
  _ArrowUnionTypeIdsWillEqualChildIndices (many_ids 259) 4 = None.
Proof. apply (union_type_ids_overflow 259 view_uninit). lia. Defined.
