(* ===== verification/ArrayView.v ===== *)
(** * Arrays and views of arrays (nanoarrow.h, nanoarrow.c, array.c part)

    [struct ArrowArray] and [struct ArrowArrayView] as trees.  A buffer is the
    list of the bytes of the memory its pointer leads to, [None] a NULL pointer,
    so that an access beyond the memory is visible.  The file models the
    initialisation of a view from a schema, the extraction of an array into a
    view, the three levels of validation and the functions that read elements. *)

From Stdlib Require Import Ascii.
From stdpp Require Import base numbers list option strings.
From S2P Require Import Prelude CInt CString Float Buffer Bits Bitmap Types Metadata Schema SchemaView.
#[local] Open Scope Z_scope.
#[local] Open Scope c_scope.
#[local] Set Warnings "-register-all".

(** ** Arrays *)

(** What an array built by this library keeps: the validity bitmap, the other
    two buffers, the storage type with its layout, and whether the type ids of a
    union are its child indices. *)
Record ArrowArrayPrivateData : Set := MkPrivate {
  bitmap : ArrowBitmap;
  buffers : list ArrowBuffer;
  private_storage_type : ArrowType;
  private_layout : ArrowLayout;
  union_type_id_is_child_index : Z;
}.

(** The members of an array; [array_buffers] holds the memory the pointers in
    [array->buffers] lead to. *)
Record array_members (S : Set) : Set := MkArray {
  array_length : Z;
  null_count : Z;
  array_offset : Z;
  n_buffers : Z;
  array_n_children : Z;
  array_buffers : list (option (list Z));
  array_children : option (list (option S));
  array_dictionary : option S;
  array_private : option ArrowArrayPrivateData;
}.
Arguments MkArray {S}.
Arguments array_length {S}.
Arguments null_count {S}.
Arguments array_offset {S}.
Arguments n_buffers {S}.
Arguments array_n_children {S}.
Arguments array_buffers {S}.
Arguments array_children {S}.
Arguments array_dictionary {S}.
Arguments array_private {S}.

Inductive ArrowArray : Set :=
  | ArrayReleased
  | ArrayLive (m : array_members ArrowArray).
Abbreviation array := (array_members ArrowArray).

(** ** Views *)
Inductive ArrowArrayView : Set := MkArrayView {
  offset : Z;
  length : Z;
  view_null_count : Z;
  view_storage_type : ArrowType;
  view_layout : ArrowLayout;
  buffer_views : list ArrowView;
  view_n_children : Z;
  view_children : option (list (option ArrowArrayView));
  view_dictionary : option ArrowArrayView;
  union_type_id_map : option (list Z);
}.

Definition set_buffer_views (b : list ArrowView) (v : ArrowArrayView) : ArrowArrayView :=
  MkArrayView (offset v) (length v) (view_null_count v) (view_storage_type v) (view_layout v) b
    (view_n_children v) (view_children v) (view_dictionary v) (union_type_id_map v).
Definition set_view_children (n : Z) (c : option (list (option ArrowArrayView)))
    (v : ArrowArrayView) : ArrowArrayView :=
  MkArrayView (offset v) (length v) (view_null_count v) (view_storage_type v) (view_layout v)
    (buffer_views v) n c (view_dictionary v) (union_type_id_map v).
Definition set_view_dictionary (d : option ArrowArrayView) (v : ArrowArrayView) : ArrowArrayView :=
  MkArrayView (offset v) (length v) (view_null_count v) (view_storage_type v) (view_layout v)
    (buffer_views v) (view_n_children v) (view_children v) d (union_type_id_map v).
Definition set_view_layout (l : ArrowLayout) (v : ArrowArrayView) : ArrowArrayView :=
  MkArrayView (offset v) (length v) (view_null_count v) (view_storage_type v) l
    (buffer_views v) (view_n_children v) (view_children v) (view_dictionary v) (union_type_id_map v).
Definition set_type_id_map (m : option (list Z)) (v : ArrowArrayView) : ArrowArrayView :=
  MkArrayView (offset v) (length v) (view_null_count v) (view_storage_type v) (view_layout v)
    (buffer_views v) (view_n_children v) (view_children v) (view_dictionary v) m.
Definition set_extent (o l n : Z) (v : ArrowArrayView) : ArrowArrayView :=
  MkArrayView o l n (view_storage_type v) (view_layout v) (buffer_views v) (view_n_children v)
    (view_children v) (view_dictionary v) (union_type_id_map v).

(** [memset(array_view, 0, ...)] and the layout *)
Definition ArrowArrayViewInitFromType (storage_type : ArrowType) : ArrowArrayView :=
  MkArrayView 0 0 0 storage_type (ArrowLayoutInit storage_type) (replicate 3 (MkView None 0))
    0 None None None.
Definition ArrowArrayViewReset (v : ArrowArrayView) : ArrowArrayView :=
  ArrowArrayViewInitFromType NANOARROW_TYPE_UNINITIALIZED.
(** [ArrowArrayViewMove(src, dst)]: (dst, src) afterwards. *)
Definition ArrowArrayViewMove (src : ArrowArrayView) : ArrowArrayView * ArrowArrayView :=
  (src, ArrowArrayViewInitFromType NANOARROW_TYPE_UNINITIALIZED).

(** ** Loops over children *)

(** [for (i = 0; i < n; i++) f(children[i])] on children that may be changed. *)
Definition walk_list {V : Type} (f : Z → V → outcome V unit) (n : Z) :
    list (option V) → Z → outcome (list (option V)) unit :=
  fix go l i :=
    if i <? n then
      match l with
      | Some c :: l' =>
          match f i c with
          | Ok _ c' =>
              match go l' (i + 1) with
              | Ok _ l'' => Ok tt (Some c' :: l'')
              | Err e l'' => Err e (Some c' :: l'')
              | UB => UB
              end
          | Err e c' => Err e (Some c' :: l')
          | UB => UB
          end
      | _ => UB
      end
    else Ok tt l.
(** The loop on a children pointer, NULL or not. *)
Definition walk_children {V : Type} (f : Z → V → outcome V unit) (n : Z)
    (c : option (list (option V))) : outcome (option (list (option V))) unit :=
  match c with
  | None => if 0 <? n then UB else Ok tt None
  | Some l =>
      match walk_list f n l 0 with
      | Ok _ l' => Ok tt (Some l')
      | Err e l' => Err e (Some l')
      | UB => UB
      end
  end.
(** The same on a pointer to one child, NULL or not. *)
Definition walk_pointer {V : Type} (f : V → outcome V unit) (c : option V) :
    outcome (option V) unit :=
  match c with
  | None => Ok tt None
  | Some c =>
      match f c with
      | Ok _ c' => Ok tt (Some c')
      | Err e c' => Err e (Some c')
      | UB => UB
      end
  end.
(** Run on the children, then on the dictionary, and put the results back. *)
Definition recurse (f : ArrowArrayView → outcome ArrowArrayView unit) (n : Z)
    (ch : option (list (option ArrowArrayView))) (d : option ArrowArrayView)
    (v : ArrowArrayView) : outcome ArrowArrayView unit :=
  match walk_children (λ _, f) n ch with
  | UB => UB
  | Err e ch' => Err e (set_view_children n ch' v)
  | Ok _ ch' =>
      match walk_pointer f d with
      | UB => UB
      | Err e d' => Err e (set_view_dictionary d' (set_view_children n ch' v))
      | Ok _ d' => Ok tt (set_view_dictionary d' (set_view_children n ch' v))
      end
  end.

(** ** Initialisation from a schema *)
Definition sizeof_ArrowArrayView : Z := 232.

Section init.
Context `{!Malloc}.

Definition ArrowArrayViewAllocateChildren (n : Z) : M (mstate * ArrowArrayView) unit :=
  let* c := get view_children in
  match c with
  | Some _ => mfail EINVAL
  | None =>
      let* ok := ArrowMalloc (i64 (n * sizeof_pointer)) in
      if ok : bool then
        (if INT64_MAX <? n * sizeof_pointer then mundef else mret_ tt) ;;;
        modify (set_view_children n (Some (replicate (Z.to_nat n) None))) ;;;
        mfor (zseq n) (λ i,
          let* ok := ArrowMalloc sizeof_ArrowArrayView in
          if ok : bool then
            modify (λ v, set_view_children (view_n_children v)
              ((λ l, <[Z.to_nat i :=
                         Some (ArrowArrayViewInitFromType NANOARROW_TYPE_UNINITIALIZED)]> l)
                 <$> view_children v) v)
          else mfail ENOMEM)
      else mfail ENOMEM
  end.
Definition ArrowArrayViewAllocateDictionary : M (mstate * ArrowArrayView) unit :=
  let* d := get view_dictionary in
  match d with
  | Some _ => mfail EINVAL
  | None =>
      let* ok := ArrowMalloc sizeof_ArrowArrayView in
      if ok : bool then
        modify (set_view_dictionary (Some (ArrowArrayViewInitFromType NANOARROW_TYPE_UNINITIALIZED)))
      else mfail ENOMEM
  end.

(** [if (result != NANOARROW_OK) { ArrowArrayViewReset(array_view); return result; }] *)
Definition or_reset {A} (m : M (mstate * ArrowArrayView) A) : M (mstate * ArrowArrayView) A :=
  on_error m (λ '(a, v), (a, ArrowArrayViewReset v)).

Definition on_view_child (i : Z) (m : M (mstate * ArrowArrayView) unit) :
    M (mstate * ArrowArrayView) unit := λ '(a, v),
  match view_children v with
  | None => UB
  | Some l =>
      match znth l i with
      | Some (Some c) =>
          let put c' := set_view_children (view_n_children v)
                          (Some (<[Z.to_nat i := Some c']> l)) v in
          match m (a, c) with
          | Ok x (a', c') => Ok x (a', put c')
          | Err e (a', c') => Err e (a', put c')
          | UB => UB
          end
      | _ => UB
      end
  end.
Definition on_view_dictionary (m : M (mstate * ArrowArrayView) unit) :
    M (mstate * ArrowArrayView) unit := λ '(a, v),
  match view_dictionary v with
  | None => UB
  | Some c =>
      match m (a, c) with
      | Ok x (a', c') => Ok x (a', set_view_dictionary (Some c') v)
      | Err e (a', c') => Err e (a', set_view_dictionary (Some c') v)
      | UB => UB
      end
  end.

(** The map between type ids and child indices of a union: the child index of
    type id [t] at [t], the type id of child [c] at [128 + c]. *)
Fixpoint fill_type_id_map (idx : list Z) (m : list Z) : option (list Z) :=
  match idx with
  | [] => Some m
  | child_index :: idx' =>
      type_id ← znth m (128 + child_index);
      m' ← zset m type_id child_index;
      fill_type_id_map idx' m'
  end.
Definition init_type_id_map (ids : string) : option (list Z) :=
  r ← _ArrowParseUnionTypeIds ids (Some (replicate 128 (-1)));
  fill_type_id_map (zseq r.1) (replicate 128 (-1) ++ default [] r.2).

(** The part of [ArrowArrayViewInitFromSchema] after the schema is parsed;
    [init_children] and [init_dictionary] are the recursive calls. *)
Definition init_from_view (sv : ArrowSchemaView) (nc : Z)
    (init_children : M (mstate * ArrowArrayView) unit)
    (init_dictionary : option (M (mstate * ArrowArrayView) unit)) :
    M (mstate * ArrowArrayView) unit :=
  modify (λ _, set_view_layout (SchemaView.layout sv)
    (ArrowArrayViewInitFromType (SchemaView.storage_type sv))) ;;;
  or_reset (
    ArrowArrayViewAllocateChildren nc ;;;
    init_children ;;;
    match init_dictionary with
    | None => mret_ tt
    | Some m => ArrowArrayViewAllocateDictionary ;;; on_view_dictionary m
    end) ;;;
  match SchemaView.storage_type sv with
  | NANOARROW_TYPE_SPARSE_UNION | NANOARROW_TYPE_DENSE_UNION =>
      let* ok := ArrowMalloc 256 in
      if ok : bool then
        let* m := deref (init_type_id_map (union_type_ids sv)) in
        modify (set_type_id_map (Some m))
      else mfail ENOMEM
  | _ => mret_ tt
  end.

(** The loop over the children of the schema. *)
Definition init_list (init : ArrowSchema → M (mstate * ArrowArrayView) unit) (nc : Z) :
    list (option ArrowSchema) → Z → M (mstate * ArrowArrayView) unit :=
  fix go l i :=
    if i <? nc then
      match l with
      | Some c :: l' => on_view_child i (init c) ;;; go l' (i + 1)
      | None :: _ => mfail EINVAL
      | [] => mundef
      end
    else mret_ tt.

Fixpoint ArrowArrayViewInitFromSchema (schema : ArrowSchema) : M (mstate * ArrowArrayView) unit :=
  match schema with
  | SchemaReleased => mfail EINVAL
  | SchemaLive (MkMembers f n m fl nc ch d as s) =>
      λ st,
        match ArrowSchemaViewInit (Some schema) view_uninit with
        | UB => UB
        | Err e _ => Err e st
        | Ok _ sv =>
            init_from_view sv nc
              (match ch with
               | None => if 0 <? nc then mundef else mret_ tt
               | Some l => init_list ArrowArrayViewInitFromSchema nc l 0
               end)
              (match d with None => None | Some c => Some (ArrowArrayViewInitFromSchema c) end) st
        end
  end.
End init.

(** ** Buffer sizes for a length *)
Definition set_length_size (t : ArrowBufferType) (element_size_bits length : Z) : Z :=
  let element_size_bytes := Z.quot element_size_bits 8 in
  match t with
  | NANOARROW_BUFFER_TYPE_VALIDITY => _ArrowBytesForBits length
  | NANOARROW_BUFFER_TYPE_DATA_OFFSET =>
      if length =? 0 then 0 else i64 (element_size_bytes * (length + 1))
  | NANOARROW_BUFFER_TYPE_DATA =>
      Z.quot (_ArrowRoundUpToMultipleOf8 (i64 (element_size_bits * length))) 8
  | NANOARROW_BUFFER_TYPE_TYPE_ID | NANOARROW_BUFFER_TYPE_UNION_OFFSET =>
      i64 (element_size_bytes * length)
  | NANOARROW_BUFFER_TYPE_NONE => 0
  end.
Definition set_length_buffers (v : ArrowArrayView) (len : Z) : ArrowArrayView :=
  set_buffer_views
    (zip_with (λ '(t, bits) b, MkView (view_data b) (set_length_size t bits len))
       (zip (buffer_type (view_layout v)) (element_size_bits (view_layout v))) (buffer_views v)) v.
(** No result: a child pointer that is not there. *)
Fixpoint ArrowArrayViewSetLength (v : ArrowArrayView) (len : Z) : option ArrowArrayView :=
  match v with
  | MkArrayView o l n st lay b nc ch d m =>
      let v' := set_length_buffers v len in
      match st with
      | NANOARROW_TYPE_STRUCT | NANOARROW_TYPE_SPARSE_UNION =>
          match walk_children (λ _ c, match ArrowArrayViewSetLength c len with
                                      | Some c' => Ok tt c' | None => UB end) nc ch with
          | Ok _ ch' => Some (set_view_children nc ch' v')
          | _ => None
          end
      | NANOARROW_TYPE_FIXED_SIZE_LIST =>
          if 1 <=? nc then
            match walk_children
                    (λ _ c, match ArrowArrayViewSetLength c (i64 (len * child_size_elements lay)) with
                            | Some c' => Ok tt c' | None => UB end) 1 ch with
            | Ok _ ch' => Some (set_view_children nc ch' v')
            | _ => None
            end
          else Some v'
      | _ => Some v'
      end
  end.

(** ** Extraction of an array into a view *)

(** The loop over [layout.buffer_type]: the number of buffers required and the
    views, with size 0 for a NULL buffer and -1 (unknown) for the others.  No
    result when [array->buffers] has no entry [i]. *)
Fixpoint set_array_buffers (types : list ArrowBufferType) (mem : list (option (list Z))) (i : Z)
    (views : list ArrowView) : option (Z * list ArrowView) :=
  match types, views with
  | [], _ | NANOARROW_BUFFER_TYPE_NONE :: _, _ => Some (0, views)
  | _ :: types', _ :: views' =>
      p ← znth mem i;
      r ← set_array_buffers types' mem (i + 1) views';
      Some (1 + r.1, MkView p (match p with None => 0 | Some _ => -1 end) :: r.2)
  | _ :: _, [] => None
  end.

(** What [ArrowArrayViewSetArrayInternal] does before it recurses. *)
Definition set_array_node (a : array) : M ArrowArrayView unit :=
  check (0 <=? array_offset a) EINVAL ;;;
  check (0 <=? array_length a) EINVAL ;;;
  mmod (set_extent (array_offset a) (array_length a) (null_count a)) ;;;
  let* v := mget id in
  let* r := deref (set_array_buffers (buffer_type (view_layout v)) (array_buffers a) 0
                     (buffer_views v)) in
  mmod (set_buffer_views r.2) ;;;
  check (r.1 =? n_buffers a) EINVAL ;;;
  check (view_n_children v =? array_n_children a) EINVAL.

Fixpoint ArrowArrayViewSetArrayInternal (v : ArrowArrayView) (arr : ArrowArray) :
    outcome ArrowArrayView unit :=
  match v, arr with
  | _, ArrayReleased => UB
  | MkArrayView _ _ _ _ _ _ nc ch d _, ArrayLive a =>
      match set_array_node a v with
      | UB => UB
      | Err e v1 => Err e v1
      | Ok _ v1 =>
          match walk_children (λ i c,
                  match array_children a ≫= λ l, znth l i with
                  | Some (Some x) => ArrowArrayViewSetArrayInternal c x
                  | _ => UB
                  end) nc ch with
          | UB => UB
          | Err e ch' => Err e (set_view_children nc ch' v1)
          | Ok _ ch' =>
              let v2 := set_view_children nc ch' v1 in
              match array_dictionary a, d with
              | None, None => Ok tt v2
              | None, Some _ | Some _, None => Err EINVAL v2
              | Some x, Some c =>
                  match ArrowArrayViewSetArrayInternal c x with
                  | UB => UB
                  | Err e c' => Err e (set_view_dictionary (Some c') v2)
                  | Ok _ c' => Ok tt (set_view_dictionary (Some c') v2)
                  end
              end
          end
      end
  end.

(** ** Validation *)

(** The size a buffer must have at least, or [None] when it is not checked. *)
Definition min_buffer_size (t : ArrowBufferType) (element_size_bits offset_plus_length null_count
    size_bytes : Z) : option Z :=
  let element_size_bytes := Z.quot element_size_bits 8 in
  match t with
  | NANOARROW_BUFFER_TYPE_VALIDITY =>
      if (null_count =? 0) && (size_bytes =? 0) then None
      else Some (_ArrowBytesForBits offset_plus_length)
  | NANOARROW_BUFFER_TYPE_DATA_OFFSET =>
      Some (if offset_plus_length =? 0 then 0
            else i64 (element_size_bytes * (offset_plus_length + 1)))
  | NANOARROW_BUFFER_TYPE_DATA =>
      Some (Z.quot (_ArrowRoundUpToMultipleOf8 (i64 (element_size_bits * offset_plus_length))) 8)
  | NANOARROW_BUFFER_TYPE_TYPE_ID | NANOARROW_BUFFER_TYPE_UNION_OFFSET =>
      Some (i64 (element_size_bytes * offset_plus_length))
  | NANOARROW_BUFFER_TYPE_NONE => None
  end.
(** [array_view->offset + array_view->length] *)
Definition offset_plus_length (v : ArrowArrayView) : Z := i64 (offset v + length v).

(** One pass of the loop over the first two buffers. *)
Definition minimal_buffer (i : nat) : M ArrowArrayView unit := λ v,
  match buffer_type (view_layout v) !! i, element_size_bits (view_layout v) !! i,
        buffer_views v !! i with
  | Some t, Some bits, Some b =>
      match min_buffer_size t bits (offset_plus_length v) (view_null_count v) (view_size b) with
      | None => Ok tt v
      | Some n =>
          if view_size b =? -1 then
            Ok tt (set_buffer_views (<[i := MkView (view_data b) n]> (buffer_views v)) v)
          else if view_size b <? n then Err EINVAL v
          else Ok tt v
      end
  | _, _, _ => UB
  end.
(** The view [array_view->children[i]] *)
Definition view_child (v : ArrowArrayView) (i : Z) : option ArrowArrayView :=
  l ← view_children v;
  c ← znth l i;
  c.
(** [array_view->children[i]->length < n] is an error. *)
Definition child_at_least (i n : Z) : M ArrowArrayView unit :=
  let* v := mget id in
  let* c := deref (view_child v i) in
  check (n <=? length c) EINVAL.
Definition children_at_least (n : Z) : M ArrowArrayView unit :=
  let* nc := mget view_n_children in
  mfor (zseq nc) (λ i, child_at_least i n).

(** The checks of [ArrowArrayViewValidateMinimal] before it recurses. *)
Definition minimal_node : M ArrowArrayView unit :=
  minimal_buffer 0 ;;;
  minimal_buffer 1 ;;;
  let* v := mget id in
  (match view_storage_type v with
   | NANOARROW_TYPE_LIST | NANOARROW_TYPE_LARGE_LIST | NANOARROW_TYPE_FIXED_SIZE_LIST
   | NANOARROW_TYPE_MAP => check (view_n_children v =? 1) EINVAL
   | _ => mret_ tt
   end) ;;;
  match view_storage_type v with
  | NANOARROW_TYPE_SPARSE_UNION | NANOARROW_TYPE_STRUCT =>
      children_at_least (i64 (offset v + length v))
  | NANOARROW_TYPE_FIXED_SIZE_LIST =>
      child_at_least 0 (i64 ((offset v + length v) * child_size_elements (view_layout v)))
  | _ => mret_ tt
  end.
Fixpoint ArrowArrayViewValidateMinimal (v : ArrowArrayView) : outcome ArrowArrayView unit :=
  match v with
  | MkArrayView _ _ _ _ _ _ nc ch d _ =>
      match minimal_node v with
      | UB => UB
      | Err e v1 => Err e v1
      | Ok _ v1 => recurse ArrowArrayViewValidateMinimal nc ch d v1
      end
  end.

(** The offsets [as_int32[0]] or [as_int64[0]] and the one after the last
    element, of [w] bytes each. *)
Definition first_last_offset (w : nat) (v : ArrowArrayView) : option (Z * Z) :=
  b ← buffer_views v !! 1%nat;
  d ← view_data b;
  first ← load_i w d 0;
  last ← load_i w d (Z.of_nat w * offset_plus_length v);
  Some (first, last).
(** The data buffer of strings: assign or check its size. *)
Definition default_data_size (w : nat) : M ArrowArrayView unit :=
  let* v := mget id in
  let* b1 := deref (buffer_views v !! 1%nat) in
  let* b2 := deref (buffer_views v !! 2%nat) in
  if view_size b1 =? 0 then mret_ tt
  else
    let* o := deref (first_last_offset w v) in
    check (0 <=? o.1) EINVAL ;;;
    if view_size b2 =? -1 then
      mmod (set_buffer_views (<[2%nat := MkView (view_data b2) o.2]> (buffer_views v)))
    else check (o.2 <=? view_size b2) EINVAL.
(** The child of lists. *)
Definition default_list_child (w : nat) : M ArrowArrayView unit :=
  let* v := mget id in
  let* b1 := deref (buffer_views v !! 1%nat) in
  if view_size b1 =? 0 then mret_ tt
  else
    let* o := deref (first_last_offset w v) in
    check (0 <=? o.1) EINVAL ;;;
    child_at_least 0 o.2.
Definition default_node : M ArrowArrayView unit :=
  let* v := mget id in
  match view_storage_type v with
  | NANOARROW_TYPE_STRING | NANOARROW_TYPE_BINARY => default_data_size 4
  | NANOARROW_TYPE_LARGE_STRING | NANOARROW_TYPE_LARGE_BINARY => default_data_size 8
  | NANOARROW_TYPE_STRUCT => children_at_least (offset_plus_length v)
  | NANOARROW_TYPE_LIST | NANOARROW_TYPE_MAP => default_list_child 4
  | NANOARROW_TYPE_LARGE_LIST => default_list_child 8
  | _ => mret_ tt
  end.
(** The validation of the whole tree changes the children before the recursion
    reaches them, so that the recursion is on the depth of the tree; a run that
    used it up would be [UB], and none is (see [validate_default_checks]). *)
Fixpoint validate_default (fuel : nat) (v : ArrowArrayView) : outcome ArrowArrayView unit :=
  match fuel with
  | O => UB
  | S fuel' =>
      match ArrowArrayViewValidateMinimal v with
      | UB => UB
      | Err e v1 => Err e v1
      | Ok _ v1 =>
          match default_node v1 with
          | UB => UB
          | Err e v2 => Err e v2
          | Ok _ v2 =>
              recurse (validate_default fuel') (view_n_children v2) (view_children v2)
                (view_dictionary v2) v2
          end
      end
  end.
Fixpoint view_depth (v : ArrowArrayView) : nat :=
  match v with
  | MkArrayView _ _ _ _ _ _ _ ch d _ =>
      S ((match ch with
          | None => 0
          | Some l => foldr (λ c n, max (match c with Some c => view_depth c | None => 0 end) n) 0 l
          end) `max` (match d with None => 0 | Some c => view_depth c end))
  end%nat.
Definition ArrowArrayViewValidateDefault (v : ArrowArrayView) : outcome ArrowArrayView unit :=
  validate_default (view_depth v) v.

Definition ArrowArrayViewSetArray (v : ArrowArrayView) (arr : ArrowArray) :
    outcome ArrowArrayView unit :=
  match ArrowArrayViewSetArrayInternal v arr with
  | Ok _ v' => ArrowArrayViewValidateDefault v'
  | Err e v' => Err e v'
  | UB => UB
  end.
Definition ArrowArrayViewSetArrayMinimal (v : ArrowArrayView) (arr : ArrowArray) :
    outcome ArrowArrayView unit :=
  match ArrowArrayViewSetArrayInternal v arr with
  | Ok _ v' => ArrowArrayViewValidateMinimal v'
  | Err e v' => Err e v'
  | UB => UB
  end.

(** ** Reading elements

    The functions return no value when they read outside the memory of a
    buffer. *)

(** [buffer_views[k].data.as_intN[i]] and [as_uintN[i]], of [w] bytes *)
Definition buffer_data (v : ArrowArrayView) (k : nat) : option (list Z) :=
  b ← buffer_views v !! k; view_data b.
Definition as_int (w k : nat) (v : ArrowArrayView) (i : Z) : option Z :=
  d ← buffer_data v k; load_i w d (Z.of_nat w * i).
Definition as_uint (w k : nat) (v : ArrowArrayView) (i : Z) : option Z :=
  d ← buffer_data v k; load_u w d (Z.of_nat w * i).

Definition ArrowArrayViewIsNull (v : ArrowArrayView) (i : Z) : option bool :=
  let i := i64 (i + offset v) in
  match view_storage_type v with
  | NANOARROW_TYPE_NA => Some true
  | NANOARROW_TYPE_DENSE_UNION | NANOARROW_TYPE_SPARSE_UNION => Some false
  | _ =>
      match buffer_data v 0 with
      | None => Some false
      | Some d => bit ← ArrowBitGet d i; Some (bit =? 0)
      end
  end.
Definition ArrowArrayViewUnionTypeId (v : ArrowArrayView) (i : Z) : option Z :=
  match view_storage_type v with
  | NANOARROW_TYPE_DENSE_UNION | NANOARROW_TYPE_SPARSE_UNION => as_int 1 0 v i
  | _ => Some (-1)
  end.
Definition ArrowArrayViewUnionChildIndex (v : ArrowArrayView) (i : Z) : option Z :=
  type_id ← ArrowArrayViewUnionTypeId v i;
  match union_type_id_map v with
  | None => Some type_id
  | Some m => znth m type_id
  end.
Definition ArrowArrayViewUnionChildOffset (v : ArrowArrayView) (i : Z) : option Z :=
  match view_storage_type v with
  | NANOARROW_TYPE_DENSE_UNION => as_int 4 1 v i
  | NANOARROW_TYPE_SPARSE_UNION => Some i
  | _ => Some (-1)
  end.
Definition ArrowArrayViewListChildOffset (v : ArrowArrayView) (i : Z) : option Z :=
  match view_storage_type v with
  | NANOARROW_TYPE_LIST => as_int 4 1 v i
  | NANOARROW_TYPE_LARGE_LIST => as_int 8 1 v i
  | _ => Some (-1)
  end.
Definition ArrowArrayViewGetIntUnsafe (v : ArrowArrayView) (i : Z) : option Z :=
  let i := i64 (i + offset v) in
  match view_storage_type v with
  | NANOARROW_TYPE_INT64 => as_int 8 1 v i
  | NANOARROW_TYPE_UINT64 => i64 <$> as_uint 8 1 v i
  | NANOARROW_TYPE_INT32 => as_int 4 1 v i
  | NANOARROW_TYPE_UINT32 => as_uint 4 1 v i
  | NANOARROW_TYPE_INT16 => as_int 2 1 v i
  | NANOARROW_TYPE_UINT16 => as_uint 2 1 v i
  | NANOARROW_TYPE_INT8 => as_int 1 1 v i
  | NANOARROW_TYPE_UINT8 => as_uint 1 1 v i
  | NANOARROW_TYPE_DOUBLE => x ← as_uint 8 1 v i; float_to_int64 binary64 x
  | NANOARROW_TYPE_FLOAT => x ← as_uint 4 1 v i; float_to_int64 binary32 x
  | NANOARROW_TYPE_BOOL => d ← buffer_data v 1; ArrowBitGet d i
  | _ => Some INT64_MAX
  end.
Definition ArrowArrayViewGetUIntUnsafe (v : ArrowArrayView) (i : Z) : option Z :=
  let i := i64 (i + offset v) in
  match view_storage_type v with
  | NANOARROW_TYPE_INT64 => u64 <$> as_int 8 1 v i
  | NANOARROW_TYPE_UINT64 => as_uint 8 1 v i
  | NANOARROW_TYPE_INT32 => u64 <$> as_int 4 1 v i
  | NANOARROW_TYPE_UINT32 => as_uint 4 1 v i
  | NANOARROW_TYPE_INT16 => u64 <$> as_int 2 1 v i
  | NANOARROW_TYPE_UINT16 => as_uint 2 1 v i
  | NANOARROW_TYPE_INT8 => u64 <$> as_int 1 1 v i
  | NANOARROW_TYPE_UINT8 => as_uint 1 1 v i
  | NANOARROW_TYPE_DOUBLE => x ← as_uint 8 1 v i; float_to_uint64 binary64 x
  | NANOARROW_TYPE_FLOAT => x ← as_uint 4 1 v i; float_to_uint64 binary32 x
  | NANOARROW_TYPE_BOOL => d ← buffer_data v 1; ArrowBitGet d i
  | _ => Some UINT64_MAX
  end.
(** The result is the representation of a [double]; the default is [DBL_MAX]. *)
Definition ArrowArrayViewGetDoubleUnsafe (v : ArrowArrayView) (i : Z) : option Z :=
  let i := i64 (i + offset v) in
  match view_storage_type v with
  | NANOARROW_TYPE_INT64 => float_of_Z binary64 <$> as_int 8 1 v i
  | NANOARROW_TYPE_UINT64 => float_of_Z binary64 <$> as_uint 8 1 v i
  | NANOARROW_TYPE_INT32 => float_of_Z binary64 <$> as_int 4 1 v i
  | NANOARROW_TYPE_UINT32 => float_of_Z binary64 <$> as_uint 4 1 v i
  | NANOARROW_TYPE_INT16 => float_of_Z binary64 <$> as_int 2 1 v i
  | NANOARROW_TYPE_UINT16 => float_of_Z binary64 <$> as_uint 2 1 v i
  | NANOARROW_TYPE_INT8 => float_of_Z binary64 <$> as_int 1 1 v i
  | NANOARROW_TYPE_UINT8 => float_of_Z binary64 <$> as_uint 1 1 v i
  | NANOARROW_TYPE_DOUBLE => as_uint 8 1 v i
  | NANOARROW_TYPE_FLOAT => float_convert binary32 binary64 <$> as_uint 4 1 v i
  | NANOARROW_TYPE_BOOL => d ← buffer_data v 1; float_of_Z binary64 <$> ArrowBitGet d i
  | _ => Some (inf_bits binary64 - 1)
  end.
(** [data + off] for a pointer that may be NULL *)
Definition pointer_at (d : option (list Z)) (off : Z) : option (option (list Z)) :=
  match d with
  | None => if off =? 0 then Some None else None
  | Some d => Some <$> ptr_add d off
  end.
Definition ArrowArrayViewGetStringUnsafe (v : ArrowArrayView) (i : Z) : option ArrowView :=
  let i := i64 (i + offset v) in
  let by_offsets w :=
    o ← as_int w 1 v i;
    o' ← as_int w 1 v (i + 1);
    p ← pointer_at (buffer_data v 2) o;
    Some (MkView p (o' - o)) in
  match view_storage_type v with
  | NANOARROW_TYPE_STRING | NANOARROW_TYPE_BINARY => by_offsets 4%nat
  | NANOARROW_TYPE_LARGE_STRING | NANOARROW_TYPE_LARGE_BINARY => by_offsets 8%nat
  | NANOARROW_TYPE_FIXED_SIZE_BINARY =>
      bits ← element_size_bits (view_layout v) !! 1%nat;
      let size := Z.quot bits 8 in
      p ← pointer_at (buffer_data v 1) (i * size);
      Some (MkView p size)
  | _ => Some (MkView None 0)
  end.
Definition ArrowArrayViewGetBytesUnsafe : ArrowArrayView → Z → option ArrowView :=
  ArrowArrayViewGetStringUnsafe.

Record ArrowInterval : Set := MkInterval {
  interval_type : ArrowType; months : Z; days : Z; ms : Z; ns : Z
}.
Definition ArrowIntervalInit (type : ArrowType) : ArrowInterval := MkInterval type 0 0 0 0.
Definition ArrowArrayViewGetIntervalUnsafe (v : ArrowArrayView) (i : Z) (out : ArrowInterval) :
    option ArrowInterval :=
  match view_storage_type v with
  | NANOARROW_TYPE_INTERVAL_MONTHS =>
      d ← buffer_data v 1;
      m ← load_i 4 d (i * 4);
      Some (MkInterval (interval_type out) m (days out) (ms out) (ns out))
  | NANOARROW_TYPE_INTERVAL_DAY_TIME =>
      d ← buffer_data v 1;
      dd ← load_i 4 d (i * 8);
      m ← load_i 4 d (i * 8 + 4);
      Some (MkInterval (interval_type out) (months out) dd m (ns out))
  | NANOARROW_TYPE_INTERVAL_MONTH_DAY_NANO =>
      d ← buffer_data v 1;
      m ← load_i 4 d (i * 16);
      dd ← load_i 4 d (i * 16 + 4);
      n ← load_i 8 d (i * 16 + 8);
      Some (MkInterval (interval_type out) m dd (ms out) n)
  | _ => Some out
  end.

(** ** Full validation *)

(** The elements [0 .. n-1] of [w]-byte integers do not decrease. *)
Definition ArrowAssertIncreasing (w : nat) (b : ArrowView) : M ArrowArrayView unit :=
  if view_size b <=? Z.of_nat w then mret_ tt
  else
    mfor (Z.add 1 <$> zseq (Z.quot (view_size b) (Z.of_nat w) - 1)) (λ i,
      let* d := deref (view_data b) in
      let* x := deref (load_i w d (Z.of_nat w * i)) in
      let* y := deref (load_i w d (Z.of_nat w * (i - 1))) in
      check (y <=? x) EINVAL).
Definition ArrowAssertIncreasingInt32 : ArrowView → M ArrowArrayView unit := ArrowAssertIncreasing 4.
Definition ArrowAssertIncreasingInt64 : ArrowView → M ArrowArrayView unit := ArrowAssertIncreasing 8.
Definition ArrowAssertRangeInt8 (b : ArrowView) (min_value max_value : Z) : M ArrowArrayView unit :=
  mfor (zseq (view_size b)) (λ i,
    let* d := deref (view_data b) in
    let* x := deref (load_i 1 d i) in
    check ((min_value <=? x) && (x <=? max_value)) EINVAL).
(** [values] may be longer than the [n_values] elements that are looked at. *)
Definition ArrowAssertInt8In (b : ArrowView) (values : list Z) (n_values : Z) :
    M ArrowArrayView unit :=
  mfor (zseq (view_size b)) (λ i,
    let* d := deref (view_data b) in
    let* x := deref (load_i 1 d i) in
    let* l := deref (zslice values 0 (0 `max` n_values)) in
    check (existsb (Z.eqb x) l) EINVAL).

Definition full_offsets (i : nat) : M ArrowArrayView unit :=
  let* v := mget id in
  let* t := deref (buffer_type (view_layout v) !! i) in
  let* bits := deref (element_size_bits (view_layout v) !! i) in
  let* b := deref (buffer_views v !! i) in
  match t with
  | NANOARROW_BUFFER_TYPE_DATA_OFFSET =>
      if bits =? 32 then ArrowAssertIncreasingInt32 b else ArrowAssertIncreasingInt64 b
  | _ => mret_ tt
  end.
Definition full_union_ids : M ArrowArrayView unit :=
  let* v := mget id in
  match view_storage_type v with
  | NANOARROW_TYPE_DENSE_UNION | NANOARROW_TYPE_SPARSE_UNION =>
      match union_type_id_map v with
      | None => mfail EINVAL
      | Some m =>
          let* b := deref (buffer_views v !! 0%nat) in
          let* same := deref (_ArrowParsedUnionTypeIdsWillEqualChildIndices m (view_n_children v)
                                (view_n_children v)) in
          if same : bool then ArrowAssertRangeInt8 b 0 (i8 (view_n_children v - 1))
          else ArrowAssertInt8In b (drop 128 m) (view_n_children v)
      end
  | _ => mret_ tt
  end.
Definition full_union_offsets : M ArrowArrayView unit :=
  let* v := mget id in
  match view_storage_type v, union_type_id_map v with
  | NANOARROW_TYPE_DENSE_UNION, Some _ =>
      mfor (zseq (length v)) (λ i,
        let* child_id := deref (ArrowArrayViewUnionChildIndex v i) in
        let* off := deref (ArrowArrayViewUnionChildOffset v i) in
        let* c := deref (view_child v child_id) in
        check ((0 <=? off) && (off <=? length c)) EINVAL)
  | _, _ => mret_ tt
  end.
Definition full_node : M ArrowArrayView unit :=
  full_offsets 0 ;;; full_offsets 1 ;;; full_offsets 2 ;;;
  full_union_ids ;;;
  full_union_offsets.
Fixpoint ArrowArrayViewValidateFull (v : ArrowArrayView) : outcome ArrowArrayView unit :=
  match v with
  | MkArrayView _ _ _ _ _ _ nc ch d _ =>
      match full_node v with
      | UB => UB
      | Err e v1 => Err e v1
      | Ok _ v1 =>
          match walk_children (λ _, ArrowArrayViewValidateFull) nc ch with
          | UB => UB
          | Err e ch' => Err e (set_view_children nc ch' v1)
          | Ok _ ch' =>
              match d with
              | None => Ok tt (set_view_children nc ch' v1)
              | Some _ => Err ENOTSUP (set_view_children nc ch' v1)
              end
          end
      end
  end.

Definition ArrowArrayViewValidate (validation_level : ArrowValidationLevel) (v : ArrowArrayView) :
    outcome ArrowArrayView unit :=
  match validation_level with
  | NANOARROW_VALIDATION_LEVEL_NONE => Ok tt v
  | NANOARROW_VALIDATION_LEVEL_MINIMAL => ArrowArrayViewValidateMinimal v
  | NANOARROW_VALIDATION_LEVEL_DEFAULT => ArrowArrayViewValidateDefault v
  | NANOARROW_VALIDATION_LEVEL_FULL =>
      match ArrowArrayViewValidateDefault v with
      | Ok _ v' => ArrowArrayViewValidateFull v'
      | Err e v' => Err e v'
      | UB => UB
      end
  end.

(** Induction on trees of views, with hypotheses for the children and the dictionary *)
Lemma ArrowArrayView_nested_ind (P : ArrowArrayView → Prop) :
  (∀ o l n st lay b nc ch d m,
    match ch with
    | Some cs => Forall (λ c, match c with Some c => P c | None => True end) cs
    | None => True
    end →
    match d with Some c => P c | None => True end →
    P (MkArrayView o l n st lay b nc ch d m)) →
  ∀ v, P v.
Proof.
  intros HL. fix IH 1. intros [o l n st lay b nc ch d m]. apply HL.
  - destruct ch as [cs|]; [|exact I]. induction cs as [|[c|] cs IHl]; constructor;
      [apply IH|exact IHl|exact I|exact IHl].
  - destruct d as [c|]; [apply IH|exact I].
Qed.
