(* ===== verification/ArrayViewSafety.v ===== *)
(** * Validated views can be read (safety of nanoarrow.c's validation)

    The bytes of an array come from the network.  The theorems say that
    validation itself never reads outside of the memory of a buffer, whatever
    the bytes are, and that after a successful full validation every element of
    every array of the tree can be read.  The sizes of the buffers are known
    and true ([memory_ok]); the extents are small enough for the sizes in bits
    not to overflow ([extent_ok]), which the code does not check
    ([validate_overflow]), and a union has at most 127 children ([union_index_wraps]). *)

From stdpp Require Import base numbers list option.
From S2P Require Import Prelude CInt CString Float Buffer Bits Bitmap Types Metadata Schema.
From S2P Require Import SchemaView ArrayView.
#[local] Open Scope Z_scope.
#[local] Open Scope c_scope.

(** ** Sane nodes *)

(** The layout of a storage type, with the parameter of the fixed-size types. *)
Definition layout_for (st : ArrowType) (lay : ArrowLayout) : Prop :=
  match st with
  | NANOARROW_TYPE_FIXED_SIZE_BINARY =>
      ∃ n, 0 < n ∧ lay = set_element_size 1 (n * 8) (ArrowLayoutInit st)
  | NANOARROW_TYPE_FIXED_SIZE_LIST =>
      ∃ n, let l := ArrowLayoutInit st in
           lay = MkLayout (buffer_type l) (buffer_data_type l) (element_size_bits l) n
  | _ => lay = ArrowLayoutInit st
  end.
(** A buffer view with a true size. *)
Definition buffer_ok (b : ArrowView) : Prop :=
  match view_data b with
  | None => view_size b = 0
  | Some d => 0 <= view_size b <= zlen d
  end.
Definition extent_ok (v : ArrowArrayView) : Prop :=
  0 <= offset v ∧ 0 <= length v ∧ offset v + length v + 8 <= INT64_MAX ∧
  Forall (λ bits, bits * (offset v + length v + 1) + 8 <= INT64_MAX)
    (element_size_bits (view_layout v)).
(** The map of a union of at most 127 children ([union_index_wraps]): child indices are
    below the number of children, and the type ids of the children are in the map. *)
Definition map_ok (n : Z) (m : list Z) : Prop :=
  zlen m = 256 ∧ 0 <= n <= 127 ∧
  ∀ c, 0 <= c < n → ∃ t k, znth m (128 + c) = Some t ∧ znth m t = Some k ∧ 0 <= k < n.

Record node_ok (v : ArrowArrayView) : Prop := {
  node_layout : layout_for (view_storage_type v) (view_layout v);
  node_buffers : List.length (buffer_views v) = 3%nat;
  node_memory : Forall buffer_ok (buffer_views v);
  node_extent : extent_ok v;
  (* an empty validity buffer is NULL *)
  node_validity : ∀ b, buffer_views v !! 0%nat = Some b → view_size b = 0 → view_data b = None;
  (* an offsets buffer holds at least one offset, or nothing *)
  node_offsets : ∀ i bits b, buffer_type (view_layout v) !! i = Some NANOARROW_BUFFER_TYPE_DATA_OFFSET →
    element_size_bits (view_layout v) !! i = Some bits → buffer_views v !! i = Some b →
    view_size b = 0 ∨ Z.quot bits 8 <= view_size b;
  node_map : match union_type_id_map v with Some m => map_ok (view_n_children v) m | None => True end;
}.

(** A property of every node of a tree whose child pointers are all there. *)
Fixpoint all_views (P : ArrowArrayView → Prop) (v : ArrowArrayView) : Prop :=
  match v with
  | MkArrayView _ _ _ _ _ _ nc ch d _ =>
      P v ∧
      match ch with
      | None => nc = 0
      | Some l =>
          nc = zlen l ∧
          foldr (λ c Q, (match c with Some c => all_views P c | None => False end) ∧ Q) True l
      end ∧
      match d with None => True | Some c => all_views P c end
  end.

Definition child_is (P : ArrowArrayView → Prop) (c : option ArrowArrayView) : Prop :=
  match c with Some c => P c | None => False end.
Lemma foldr_Forall (P : ArrowArrayView → Prop) l :
  foldr (λ c Q, (match c with Some c => P c | None => False end) ∧ Q) True l ↔ Forall (child_is P) l.
Proof.
  induction l as [|c l IH]; simpl; [split; [constructor|done]|]. rewrite IH. split.
  - intros [??]. by constructor.
  - intros [??]%Forall_cons_1. done.
Qed.

(** ** Checks: operations that only accept or reject *)
Definition rejects (e : errno) : Prop := e = EINVAL ∨ e = ENOTSUP.
Definition checks {V} (r : outcome V unit) (v : V) (P : Prop) : Prop :=
  match r with
  | Ok _ v' => v' = v ∧ P
  | Err e v' => rejects e ∧ v' = v
  | UB => False
  end.

Section checks.
Context {V : Type}.
Implicit Types (v : V).

Lemma checks_ret v (P : Prop) : P → checks (mret_ tt v) v P.
Proof. done. Qed.
Lemma checks_fail v (P : Prop) : checks (mfail EINVAL v) v P.
Proof. split; [by left|done]. Qed.
Lemma checks_check (b : bool) v : checks (check b EINVAL v) v (b = true).
Proof. destruct b; simpl; [done|split; [by left|done]]. Qed.
Lemma checks_mono r v (P Q : Prop) : checks r v P → (P → Q) → checks r v Q.
Proof. destruct r; simpl; [|done|done]. intros [??] ?. auto. Qed.
Lemma checks_seq (m1 m2 : M V unit) v (P Q : Prop) :
  checks (m1 v) v P → (P → checks (m2 v) v Q) → checks ((m1 ;;; m2) v) v (P ∧ Q).
Proof.
  unfold mbind_. destruct (m1 v) as [[] v'|e v'|]; simpl; [|done|done].
  intros [-> HP] H2. eapply checks_mono; [by apply H2|done].
Qed.
Lemma checks_get {A} (f : V → A) (k : A → M V unit) v P :
  checks (k (f v) v) v P → checks ((let* x := mget f in k x) v) v P.
Proof. done. Qed.
Lemma checks_deref {A} (o : option A) (k : A → M V unit) v P x :
  o = Some x → checks (k x v) v P → checks ((let* y := deref o in k y) v) v P.
Proof. by intros ->. Qed.
Lemma checks_for {I} (l : list I) (body : I → M V unit) v (Q : I → Prop) :
  (∀ i, i ∈ l → checks (body i v) v (Q i)) → checks (mfor l body v) v (Forall Q l).
Proof.
  induction l as [|i l IH]; intros Hb; cbn [mfor].
  { apply checks_ret. constructor. }
  eapply checks_mono; [apply checks_seq|].
  - apply Hb. left.
  - intros _. apply IH. intros j Hj. apply Hb. by right.
  - intros [??]. by constructor.
Qed.

Lemma checks_walk_list (f : V → outcome V unit) (Q : V → Prop) l : ∀ n i,
  n = i + zlen l →
  Forall (λ c, match c with Some c => checks (f c) c (Q c) | None => False end) l →
  checks (walk_list (λ _, f) n l i) l (Forall (λ c, match c with Some c => Q c | None => False end) l).
Proof.
  induction l as [|c l IH]; intros n i Hn Hl; cbn [walk_list].
  { rewrite zlen_nil in Hn. destruct (Z.ltb_spec i n); [lia|]. split; [done|constructor]. }
  rewrite zlen_cons in Hn. pose proof (zlen_nonneg l). destruct (Z.ltb_spec i n); [|lia].
  apply Forall_cons_1 in Hl as [Hc Hl]. destruct c as [c|]; [|done].
  destruct (f c) as [[] c'|e c'|]; [|destruct Hc as [? ->]; by split|done].
  destruct Hc as [-> HQ]. specialize (IH n (i + 1) ltac:(lia) Hl).
  destruct (walk_list _ n l (i + 1)) as [[] l'|e l'|]; simpl in *; [|by destruct IH as [? ->]|done].
  destruct IH as [-> ?]. split; [done|]. by constructor.
Qed.
Lemma checks_walk_children (f : V → outcome V unit) (Q : V → Prop) n ch :
  match ch with
  | None => n = 0
  | Some l => n = zlen l ∧
      Forall (λ c, match c with Some c => checks (f c) c (Q c) | None => False end) l
  end →
  checks (walk_children (λ _, f) n ch) ch
    (match ch with
     | None => True
     | Some l => Forall (λ c, match c with Some c => Q c | None => False end) l
     end).
Proof.
  destruct ch as [l|]; cbn [walk_children]; [|by intros ->].
  intros [Hn Hl]. pose proof (checks_walk_list f Q l n 0 ltac:(lia) Hl) as H.
  destruct (walk_list _ n l 0) as [[] l'|e l'|]; simpl in *; [|by destruct H as [? ->]|done].
  by destruct H as [-> ?].
Qed.
End checks.

Lemma checks_recurse f (Q : ArrowArrayView → Prop) v :
  match view_children v with
  | None => view_n_children v = 0
  | Some l => view_n_children v = zlen l ∧
      Forall (λ c, match c with Some c => checks (f c) c (Q c) | None => False end) l
  end →
  match view_dictionary v with None => True | Some c => checks (f c) c (Q c) end →
  checks (recurse f (view_n_children v) (view_children v) (view_dictionary v) v) v
    (match view_children v with None => True | Some l => Forall (child_is Q) l end ∧
     match view_dictionary v with None => True | Some c => Q c end).
Proof.
  intros Hch Hd. unfold recurse. pose proof (checks_walk_children f Q _ _ Hch) as H.
  destruct (walk_children _ _ _) as [[] ch'|e ch'|]; simpl in H; [| |done].
  - destruct H as [-> HQ]. destruct (view_dictionary v) as [c|] eqn:Ed; simpl.
    + destruct (f c) as [[] c'|e c'|]; simpl in Hd; [| |done].
      * destruct Hd as [-> ?]. rewrite <-Ed. by destruct v.
      * destruct Hd as [? ->]. split; [done|]. rewrite <-Ed. by destruct v.
    + rewrite <-Ed. by destruct v.
  - destruct H as [? ->]. split; [done|]. by destruct v.
Qed.

(** ** Lookups in a sane node *)
Lemma layout_for_wf st lay : layout_for st lay → layout_wf lay.
Proof.
  intros H. pose proof (layout_init_wf st) as [H1 H2 H3 H4].
  assert (lay = ArrowLayoutInit st → layout_wf lay) as Hplain by (intros ->; by split).
  destruct st; simpl in H; auto.
  - destruct H as (n & Hn & ->). split; try done; simpl. repeat constructor; lia.
  - destruct H as (n & ->). split; done.
Qed.
Lemma node_lookup v i :
  node_ok v → (i < 3)%nat →
  ∃ t bits b, buffer_type (view_layout v) !! i = Some t ∧
    element_size_bits (view_layout v) !! i = Some bits ∧ buffer_views v !! i = Some b ∧
    0 <= bits ∧ bits * (offset v + length v + 1) + 8 <= INT64_MAX ∧ buffer_ok b.
Proof.
  intros [Hlay Hb Hm He _ _ _] Hi. apply layout_for_wf in Hlay as [H1 H2 H3 H4].
  destruct (lookup_lt_is_Some_2 (buffer_type (view_layout v)) i) as [t Ht]; [lia|].
  destruct (lookup_lt_is_Some_2 (element_size_bits (view_layout v)) i) as [bits Hbits]; [lia|].
  destruct (lookup_lt_is_Some_2 (buffer_views v) i) as [b Hbv]; [lia|].
  exists t, bits, b. destruct He as (_ & _ & _ & He).
  rewrite Forall_lookup in H4. rewrite Forall_lookup in Hm. rewrite Forall_lookup in He.
  split_and!; eauto.
Qed.
Lemma buffer_ok_size b : buffer_ok b → 0 <= view_size b.
Proof. unfold buffer_ok. destruct (view_data b); lia. Qed.
Lemma opl_ok v : node_ok v → offset_plus_length v = offset v + length v.
Proof.
  intros H. destruct (node_extent _ H) as (? & ? & ? & _). unfold offset_plus_length.
  apply i64_small. width.
Qed.

(** ** Minimal validation *)

(** The size of buffer [i] is at least what its role requires. *)
Definition min_ok (v : ArrowArrayView) (i : nat) : Prop :=
  ∀ t bits b n, buffer_type (view_layout v) !! i = Some t →
    element_size_bits (view_layout v) !! i = Some bits → buffer_views v !! i = Some b →
    min_buffer_size t bits (offset v + length v) (view_null_count v) (view_size b) = Some n →
    n <= view_size b.
Lemma minimal_buffer_checks v i :
  node_ok v → (i < 3)%nat → checks (minimal_buffer i v) v (min_ok v i).
Proof.
  intros Hv Hi. destruct (node_lookup v i Hv Hi) as (t & bits & b & Ht & Hbits & Hb & _ & _ & Hok).
  unfold minimal_buffer. rewrite Ht, Hbits, Hb, opl_ok by done. apply buffer_ok_size in Hok.
  destruct (min_buffer_size _ _ _ _ _) as [n|] eqn:En.
  - destruct (Z.eqb_spec (view_size b) (-1)); [lia|]. destruct (Z.ltb_spec (view_size b) n).
    + split; [by left|done].
    + split; [done|]. intros t' bits' b' n' ????. simplify_eq. lia.
  - split; [done|]. intros t' bits' b' n' ????. simplify_eq.
Qed.

(** The children and the dictionary of a view are there. *)
Definition has_children (v : ArrowArrayView) : Prop :=
  match view_children v with
  | None => view_n_children v = 0
  | Some l => view_n_children v = zlen l ∧ Forall (child_is (λ _, True)) l
  end.
Lemma view_child_Some v i :
  has_children v → 0 <= i < view_n_children v → ∃ c, view_child v i = Some c.
Proof.
  unfold has_children, view_child. destruct (view_children v) as [l|]; [|lia].
  intros [Hn Hl] Hi. cbn [mbind option_bind]. destruct (znth_in l i) as [c Hc]; [lia|].
  rewrite Hc. cbn [mbind option_bind]. rewrite znth_lookup in Hc by lia.
  rewrite Forall_lookup in Hl. apply Hl in Hc. destruct c as [c|]; [eauto|done].
Qed.
Lemma child_at_least_checks v i n :
  has_children v → 0 <= i < view_n_children v → checks (child_at_least i n v) v True.
Proof.
  intros Hc Hi. destruct (view_child_Some v i Hc Hi) as [c Hcv].
  unfold child_at_least. apply checks_get. eapply checks_deref; [done|].
  eapply checks_mono; [apply checks_check|done].
Qed.
Lemma children_at_least_checks v n : has_children v → checks (children_at_least n v) v True.
Proof.
  intros Hc. unfold children_at_least. apply checks_get.
  eapply checks_mono; [apply (checks_for _ _ _ (λ _, True))|done].
  intros i Hi%elem_of_zseq. by apply child_at_least_checks.
Qed.

Definition one_child (st : ArrowType) : bool :=
  match st with
  | NANOARROW_TYPE_LIST | NANOARROW_TYPE_LARGE_LIST | NANOARROW_TYPE_FIXED_SIZE_LIST
  | NANOARROW_TYPE_MAP => true
  | _ => false
  end.
(** What minimal validation establishes of a node. *)
Definition minimal_ok (v : ArrowArrayView) : Prop :=
  min_ok v 0 ∧ min_ok v 1 ∧ (one_child (view_storage_type v) = true → view_n_children v = 1).

Lemma minimal_node_checks v :
  node_ok v → has_children v → checks (minimal_node v) v (minimal_ok v).
Proof.
  intros Hv Hc. unfold minimal_node, minimal_ok.
  apply (checks_seq _ _ _ (min_ok v 0)); [apply minimal_buffer_checks; [done|lia]|].
  intros _. apply (checks_seq _ _ _ (min_ok v 1)); [apply minimal_buffer_checks; [done|lia]|].
  intros _. apply checks_get. cbn [id].
  eapply checks_mono; [apply (checks_seq _ _ _
    (one_child (view_storage_type v) = true → view_n_children v = 1) True)|by intros [??]].
  - assert (checks (check (view_n_children v =? 1) EINVAL v) v
      (one_child (view_storage_type v) = true → view_n_children v = 1)) as Hcheck.
    { eapply checks_mono; [apply checks_check|]. intros; zbool; done. }
    destruct (view_storage_type v); try done; by apply checks_ret.
  - intros Hn. destruct (view_storage_type v); try (by apply checks_ret); try by apply children_at_least_checks.
    apply child_at_least_checks; [done|]. rewrite Hn by done. lia.
Qed.

Lemma all_views_children P v :
  all_views P v →
  P v ∧ has_children v ∧
  match view_children v with None => True | Some l => Forall (child_is (all_views P)) l end ∧
  match view_dictionary v with None => True | Some c => all_views P c end.
Proof.
  destruct v as [o l n st lay b nc ch d m]; simpl. intros (HP & Hch & Hd).
  unfold has_children. simpl. destruct ch as [cs|]; [|by split_and!].
  destruct Hch as [-> Hcs]. apply foldr_Forall in Hcs. split_and!; try done.
  eapply Forall_impl; [|exact Hcs]. by intros [c|].
Qed.
Lemma all_views_intro P v :
  P v → has_children v →
  match view_children v with None => True | Some l => Forall (child_is (all_views P)) l end →
  match view_dictionary v with None => True | Some c => all_views P c end →
  all_views P v.
Proof.
  destruct v as [o l n st lay b nc ch d m]; unfold has_children; simpl. intros HP Hc Hch Hd.
  split_and!; try done. destruct ch as [cs|]; [|done]. destruct Hc as [-> _]. split; [done|].
  by apply foldr_Forall.
Qed.

Lemma validate_minimal_checks v :
  all_views node_ok v →
  checks (ArrowArrayViewValidateMinimal v) v (all_views minimal_ok v).
Proof.
  induction v as [o l n st lay b nc ch d m IHch IHd] using ArrowArrayView_nested_ind.
  intros Hall. apply all_views_children in Hall as (Hv & Hc & Hch & Hd).
  set (v := MkArrayView o l n st lay b nc ch d m) in *.
  change (ArrowArrayViewValidateMinimal v) with
    (match minimal_node v with
     | UB => UB | Err e v1 => Err e v1 | Ok _ v1 => recurse ArrowArrayViewValidateMinimal nc ch d v1 end).
  pose proof (minimal_node_checks v Hv Hc) as Hnode.
  destruct (minimal_node v) as [[] v1|e v1|]; simpl in Hnode; [|done|done].
  destruct Hnode as [-> Hmin].
  eapply checks_mono; [apply (checks_recurse _ (all_views minimal_ok) v)|].
  - unfold has_children in Hc. simpl in *. destruct ch as [cs|]; [|done]. destruct Hc as [Hn _].
    split; [done|]. rewrite Forall_lookup in Hch. rewrite Forall_lookup in IHch. apply Forall_lookup.
    intros i c Hi. specialize (Hch i c Hi). specialize (IHch i c Hi). destruct c as [c|]; [auto|done].
  - simpl in *. destruct d as [c|]; [auto|done].
  - intros [??]. by apply all_views_intro.
Qed.

(** ** Default validation *)

(** The width of the offsets of strings and of lists. *)
Definition string_width (st : ArrowType) : option nat :=
  match st with
  | NANOARROW_TYPE_STRING | NANOARROW_TYPE_BINARY => Some 4%nat
  | NANOARROW_TYPE_LARGE_STRING | NANOARROW_TYPE_LARGE_BINARY => Some 8%nat
  | _ => None
  end.
Definition list_width (st : ArrowType) : option nat :=
  match st with
  | NANOARROW_TYPE_LIST | NANOARROW_TYPE_MAP => Some 4%nat
  | NANOARROW_TYPE_LARGE_LIST => Some 8%nat
  | _ => None
  end.
Lemma offsets_layout v w :
  node_ok v → string_width (view_storage_type v) = Some w ∨ list_width (view_storage_type v) = Some w →
  buffer_type (view_layout v) !! 1%nat = Some NANOARROW_BUFFER_TYPE_DATA_OFFSET ∧
  element_size_bits (view_layout v) !! 1%nat = Some (8 * Z.of_nat w) ∧ (w = 4%nat ∨ w = 8%nat).
Proof.
  intros Hv. pose proof (node_layout _ Hv) as Hlay.
  destruct (view_storage_type v); intros [Hw|Hw]; try done; simpl in Hw, Hlay; rewrite Hlay;
    injection Hw as <-; split_and!; auto.
Qed.
(** The offsets up to the one after the last element are in memory. *)
Lemma offsets_memory v w b :
  node_ok v → min_ok v 1 →
  string_width (view_storage_type v) = Some w ∨ list_width (view_storage_type v) = Some w →
  buffer_views v !! 1%nat = Some b → view_size b ≠ 0 →
  ∃ d, view_data b = Some d ∧ view_size b <= zlen d ∧
    Z.of_nat w * (offset v + length v + 1) <= view_size b.
Proof.
  intros Hv Hmin Hw Hb Hne. destruct (offsets_layout v w Hv Hw) as (Ht & Hbits & Hww).
  destruct (node_extent _ Hv) as (Ho & Hl & Hmax & Hall).
  pose proof (node_memory _ Hv) as Hmem. rewrite Forall_lookup in Hmem. specialize (Hmem _ _ Hb).
  unfold buffer_ok in Hmem. destruct (view_data b) as [d|]; [|done]. exists d. split_and!; [done|lia|].
  assert (Z.quot (8 * Z.of_nat w) 8 = Z.of_nat w) as Hq by (rewrite Z.mul_comm; apply Z.quot_mul; lia).
  rewrite Forall_lookup in Hall. specialize (Hall _ _ Hbits).
  destruct (Z.eq_dec (offset v + length v) 0) as [Hz|Hnz].
  - pose proof (node_offsets _ Hv _ _ _ Ht Hbits Hb) as [?|Hsz]; [done|]. rewrite Hq in Hsz. lia.
  - eapply (Hmin _ _ _ _ Ht Hbits Hb). unfold min_buffer_size. rewrite Hq.
    destruct (Z.eqb_spec (offset v + length v) 0); [done|]. f_equal. apply i64_small. width.
Qed.
(** Loading an element that is inside the buffer. *)
Lemma load_i_elem w d n i : 0 <= i → Z.of_nat w * (i + 1) <= n → n <= zlen d →
  ∃ x, load_i w d (Z.of_nat w * i) = Some x.
Proof. intros. destruct (load_i_in w d (Z.of_nat w * i)) as [x ?]; [lia|lia|eauto]. Qed.

Definition offsets_bound (w : nat) (v : ArrowArrayView) (hi : Z) : Prop :=
  ∀ b1, buffer_views v !! 1%nat = Some b1 →
  view_size b1 = 0 ∨
  ∃ d first last, view_data b1 = Some d ∧ load_i w d 0 = Some first ∧
    load_i w d (Z.of_nat w * (offset v + length v)) = Some last ∧ 0 <= first ∧ last <= hi.
Lemma first_last_offset_Some v w b :
  node_ok v → min_ok v 1 →
  string_width (view_storage_type v) = Some w ∨ list_width (view_storage_type v) = Some w →
  buffer_views v !! 1%nat = Some b → view_size b ≠ 0 →
  ∃ d first last, view_data b = Some d ∧ load_i w d 0 = Some first ∧
    load_i w d (Z.of_nat w * (offset v + length v)) = Some last ∧
    first_last_offset w v = Some (first, last).
Proof.
  intros Hv Hmin Hw Hb Hne. destruct (offsets_memory v w b) as (d & Hd & Hsz & Hlen); try done.
  destruct (node_extent _ Hv) as (Ho & Hl & _).
  destruct (load_i_elem w d (view_size b) 0) as [first Hf]; [lia|lia|done|].
  destruct (load_i_elem w d (view_size b) (offset v + length v)) as [last Hlast]; [lia|lia|done|].
  rewrite Z.mul_0_r in Hf. exists d, first, last. split_and!; try done.
  unfold first_last_offset. rewrite Hb. cbn [mbind option_bind]. rewrite Hd. cbn [mbind option_bind].
  rewrite Hf. cbn [mbind option_bind]. by rewrite opl_ok, Hlast.
Qed.
Definition default_ok (v : ArrowArrayView) : Prop :=
  ∀ w b2, string_width (view_storage_type v) = Some w → buffer_views v !! 2%nat = Some b2 →
    offsets_bound w v (view_size b2).
Lemma default_data_checks v w :
  node_ok v → min_ok v 1 → string_width (view_storage_type v) = Some w →
  checks (default_data_size w v) v (default_ok v).
Proof.
  intros Hv Hmin Hw. unfold default_data_size. apply checks_get. cbn [id].
  destruct (node_lookup v 1 Hv) as (_ & _ & b1 & _ & _ & Hb1 & _); [lia|].
  destruct (node_lookup v 2 Hv) as (_ & _ & b2 & _ & _ & Hb2 & _ & _ & Hok2); [lia|].
  eapply checks_deref; [done|]. eapply checks_deref; [done|].
  destruct (Z.eqb_spec (view_size b1) 0) as [Hz|Hnz].
  { apply checks_ret. intros w' b2' _ _ b1' Hb1'. left. congruence. }
  destruct (first_last_offset_Some v w b1) as (d & first & last & Hd & Hf & Hl & Hfl); auto.
  eapply checks_deref; [done|]. cbn [fst snd].
  eapply checks_mono; [apply (checks_seq _ _ _ (0 <= first) (last <= view_size b2))|].
  - eapply checks_mono; [apply checks_check|]. intros; by zbool.
  - intros _. apply buffer_ok_size in Hok2. destruct (Z.eqb_spec (view_size b2) (-1)); [lia|].
    eapply checks_mono; [apply checks_check|]. intros; by zbool.
  - intros [Hfp Hlb] w' b2' Hw' Hb2' b1' Hb1'. simplify_eq. right. exists d, first, last.
    split_and!; try done.
Qed.
Lemma default_list_checks v w :
  node_ok v → min_ok v 1 → list_width (view_storage_type v) = Some w → has_children v →
  view_n_children v = 1 → checks (default_list_child w v) v True.
Proof.
  intros Hv Hmin Hw Hc Hn. unfold default_list_child. apply checks_get. cbn [id].
  destruct (node_lookup v 1 Hv) as (_ & _ & b1 & _ & _ & Hb1 & _); [lia|].
  eapply checks_deref; [done|]. destruct (Z.eqb_spec (view_size b1) 0) as [Hz|Hnz]; [by apply checks_ret|].
  destruct (first_last_offset_Some v w b1) as (d & first & last & Hd & Hf & Hl & Hfl); auto.
  eapply checks_deref; [done|].
  eapply checks_mono; [apply checks_seq; [apply checks_check|]|done].
  intros _. apply child_at_least_checks; [done|lia].
Qed.
Lemma default_node_checks v :
  node_ok v → has_children v → minimal_ok v → checks (default_node v) v (default_ok v).
Proof.
  intros Hv Hc (_ & Hmin & Hone). unfold default_node. apply checks_get. cbn [id].
  assert (string_width (view_storage_type v) = None → ∀ m, checks (m v) v True →
    checks (m v) v (default_ok v)) as Hno.
  { intros Hst m Hm. eapply checks_mono; [exact Hm|]. intros _ w b2 Hw. congruence. }
  destruct (view_storage_type v) eqn:Est;
    try (apply (Hno eq_refl (mret_ tt)); by apply checks_ret);
    try (apply default_data_checks; by rewrite ?Est);
    apply (Hno eq_refl).
  - apply (default_list_checks v 4); rewrite ?Est; auto.
  - by apply children_at_least_checks.
  - apply (default_list_checks v 4); rewrite ?Est; auto.
  - apply (default_list_checks v 8); rewrite ?Est; auto.
Qed.

Lemma view_depth_child v l i c :
  view_children v = Some l → l !! i = Some (Some c) → (view_depth c < view_depth v)%nat.
Proof.
  destruct v as [o ln n st lay b nc ch d m]; simpl. intros -> Hi.
  enough (view_depth c <= foldr (λ c n, max (match c with Some c => view_depth c | None => 0 end) n) 0 l)%nat
    by lia.
  revert i Hi. induction l as [|x l IH]; intros [|i] Hi; simplify_eq/=; [lia|]. specialize (IH i Hi). lia.
Qed.
Lemma view_depth_dictionary v c : view_dictionary v = Some c → (view_depth c < view_depth v)%nat.
Proof. destruct v as [o ln n st lay b nc ch d m]; simpl. intros ->. lia. Qed.


Definition valid_ok (v : ArrowArrayView) : Prop := node_ok v ∧ minimal_ok v ∧ default_ok v.
Lemma validate_default_checks fuel v :
  all_views node_ok v → (view_depth v <= fuel)%nat →
  checks (validate_default fuel v) v (all_views valid_ok v).
Proof.
  revert v. induction fuel as [|fuel IH]; intros v Hall Hf.
  { destruct v; simpl in Hf; lia. }
  cbn [validate_default]. pose proof (validate_minimal_checks v Hall) as Hmin.
  destruct (ArrowArrayViewValidateMinimal v) as [[] v1|e v1|]; simpl in Hmin; [|done|done].
  destruct Hmin as [-> Hmin]. apply all_views_children in Hall as (Hv & Hc & Hch & Hd).
  apply all_views_children in Hmin as (Hm & _). pose proof (default_node_checks v Hv Hc Hm) as Hdef.
  destruct (default_node v) as [[] v2|e v2|]; simpl in Hdef; [|done|done]. destruct Hdef as [-> Hdef].
  eapply checks_mono; [apply (checks_recurse _ (all_views valid_ok))|].
  - pose proof Hc as Hc'. unfold has_children in Hc'. destruct (view_children v) as [l|] eqn:El; [|done].
    destruct Hc' as [Hn _]. split; [done|]. apply Forall_lookup. intros i [c|] Hi.
    + rewrite Forall_lookup in Hch. apply IH; [exact (Hch i (Some c) Hi)|].
      pose proof (view_depth_child v l i c El Hi). lia.
    + rewrite Forall_lookup in Hch. exact (Hch i None Hi).
  - destruct (view_dictionary v) as [c|] eqn:Ed; [|done]. apply IH; [done|].
    pose proof (view_depth_dictionary v c Ed). lia.
  - intros [??]. apply all_views_intro; try done.
Qed.

(** ** Full validation *)
Definition increasing (w : nat) (b : ArrowView) : Prop :=
  ∀ d j, view_data b = Some d → 0 <= j → Z.of_nat w * (j + 2) <= view_size b →
    ∃ x y, load_i w d (Z.of_nat w * j) = Some x ∧ load_i w d (Z.of_nat w * (j + 1)) = Some y ∧ x <= y.
Lemma assert_increasing_checks w b v :
  (0 < w)%nat → buffer_ok b → checks (ArrowAssertIncreasing w b v) v (increasing w b).
Proof.
  intros Hw Hb. pose proof (buffer_ok_size b Hb) as Hs. unfold ArrowAssertIncreasing.
  destruct (Z.leb_spec (view_size b) (Z.of_nat w)) as [Hle|Hgt].
  { apply checks_ret. intros d j _ Hj Hsz. lia. }
  unfold buffer_ok in Hb. destruct (view_data b) as [d|] eqn:Ed; [|lia].
  rewrite Z.quot_div_nonneg by lia. set (n := view_size b / Z.of_nat w).
  pose proof (Z.div_mod (view_size b) (Z.of_nat w)) as Hdm.
  pose proof (Z.mod_pos_bound (view_size b) (Z.of_nat w)). fold n in Hdm.
  eapply checks_mono; [apply (checks_for _ _ _ (λ i, ∃ x y,
    load_i w d (Z.of_nat w * (i - 1)) = Some x ∧ load_i w d (Z.of_nat w * i) = Some y ∧ x <= y))|].
  - intros i Hi. apply list_elem_of_fmap in Hi as (k & -> & Hk%elem_of_zseq).
    destruct (load_i_elem w d (view_size b) k) as [x Hx]; [lia|nia|lia|].
    destruct (load_i_elem w d (view_size b) (1 + k)) as [y Hy]; [lia|nia|lia|].
    eapply checks_deref; [done|]. eapply checks_deref; [exact Hy|].
    replace (1 + k - 1) with k by lia. eapply checks_deref; [exact Hx|].
    eapply checks_mono; [apply checks_check|]. intros; zbool. eauto.
  - intros Hall d' j Hd' Hj Hsz. simplify_eq. rewrite Forall_lookup in Hall.
    assert (Z.of_nat w * (j + 2) < Z.of_nat w * (n + 1)) as Hlt by lia.
    apply Z.mul_lt_mono_pos_l in Hlt; [|lia].
    destruct (Hall (Z.to_nat j) (1 + j)) as (x & y & Hx & Hy & Hxy).
    + rewrite list_lookup_fmap. unfold zseq. rewrite list_lookup_fmap, lookup_seq_lt by lia.
      simpl. f_equal. lia.
    + exists x, y. replace (1 + j - 1) with j in Hx by lia. by rewrite (Z.add_comm 1 j) in Hy.
Qed.
Lemma full_offsets_checks v i :
  node_ok v → (i < 3)%nat →
  checks (full_offsets i v) v (∀ bits b,
    buffer_type (view_layout v) !! i = Some NANOARROW_BUFFER_TYPE_DATA_OFFSET →
    element_size_bits (view_layout v) !! i = Some bits → buffer_views v !! i = Some b →
    increasing (if bits =? 32 then 4 else 8) b).
Proof.
  intros Hv Hi. destruct (node_lookup v i Hv Hi) as (t & bits & b & Ht & Hbits & Hb & _ & _ & Hok).
  unfold full_offsets. apply checks_get. cbn [id].
  eapply checks_deref; [done|]. eapply checks_deref; [done|]. eapply checks_deref; [done|].
  destruct (decide (t = NANOARROW_BUFFER_TYPE_DATA_OFFSET)) as [->|Hne].
  - eapply (checks_mono _ _ (increasing (if bits =? 32 then 4 else 8) b)).
    + destruct (bits =? 32); apply assert_increasing_checks; try done; lia.
    + intros Hinc bits' b' ???. by simplify_eq.
  - eapply checks_mono; [|intros _ bits' b' ???; exfalso; congruence].
    instantiate (1 := True). by destruct t.
Qed.

(** Unions *)
Lemma ids_equal_indices_spec m n fuel : ∀ i,
  0 <= i <= n → n <= 127 → n <= zlen m → n - i < Z.of_nat fuel →
  ∃ b, ids_equal_indices fuel m n i = Some b ∧
    (b = true → ∀ j, i <= j < n → znth m j = Some j).
Proof.
  induction fuel as [|fuel IH]; intros i Hi Hn Hm Hf; [lia|]. cbn [ids_equal_indices].
  destruct (Z.ltb_spec i n); [|exists true; split; [done|]; intros _ j Hj; lia].
  destruct (znth_in m i) as [x Hx]; [lia|]. rewrite Hx. cbn [mbind option_bind].
  destruct (Z.eqb_spec x i) as [->|]; [|by exists false].
  rewrite i8_small by width. destruct (IH (i + 1)) as (b & -> & Hb); [lia..|].
  exists b. split; [done|]. intros Hbt j Hj. destruct (Z.eq_dec j i) as [->|]; [done|]. apply Hb; [done|lia].
Qed.
Lemma parsed_ids_spec m n :
  0 <= n <= 127 → n <= zlen m →
  ∃ b, _ArrowParsedUnionTypeIdsWillEqualChildIndices m n n = Some b ∧
    (b = true → ∀ i, 0 <= i < n → znth m i = Some i).
Proof.
  intros Hn Hm. unfold _ArrowParsedUnionTypeIdsWillEqualChildIndices. rewrite Z.eqb_refl.
  apply ids_equal_indices_spec; lia.
Qed.

Definition is_union (st : ArrowType) : bool :=
  match st with NANOARROW_TYPE_DENSE_UNION | NANOARROW_TYPE_SPARSE_UNION => true | _ => false end.
(** Every type id in the buffer leads to a child. *)
Definition type_ids_ok (v : ArrowArrayView) : Prop :=
  is_union (view_storage_type v) = true →
  ∃ m, union_type_id_map v = Some m ∧ ∀ b d j, buffer_views v !! 0%nat = Some b → view_data b = Some d →
    0 <= j < view_size b → ∃ t k, load_i 1 d j = Some t ∧ znth m t = Some k ∧ 0 <= k < view_n_children v.

Lemma ids_loop_checks v b m (P : Z → bool) (f : M ArrowArrayView unit) :
  buffer_ok b → union_type_id_map v = Some m → buffer_views v !! 0%nat = Some b →
  (∀ t, P t = true → ∃ k, znth m t = Some k ∧ 0 <= k < view_n_children v) →
  f v = mfor (zseq (view_size b)) (λ i,
    let* d := deref (view_data b) in
    let* x := deref (load_i 1 d i) in
    check (P x) EINVAL) v →
  checks (f v) v (type_ids_ok v).
Proof.
  intros Hok Hm Hb HP ->. pose proof (buffer_ok_size b Hok) as Hs.
  unfold buffer_ok in Hok. destruct (view_data b) as [d|] eqn:Ed.
  2:{ rewrite Hok. apply checks_ret. intros _. exists m. split; [done|]. intros b' d' j ???. congruence. }
  eapply checks_mono; [apply (checks_for _ _ _ (λ i, ∃ t, load_i 1 d i = Some t ∧ P t = true))|].
  - intros i Hi%elem_of_zseq. destruct (load_i_in 1 d i) as [x Hx]; [lia|lia|].
    eapply checks_deref; [done|]. eapply checks_deref; [exact Hx|].
    eapply checks_mono; [apply checks_check|]. eauto.
  - intros Hall _. exists m. split; [done|]. intros b' d' j Hb' Hd' Hj. simplify_eq.
    rewrite Forall_lookup in Hall. destruct (Hall (Z.to_nat j) j) as (t & Ht & HPt).
    { unfold zseq. rewrite list_lookup_fmap, lookup_seq_lt by lia. simpl. f_equal. lia. }
    destruct (HP t HPt) as (k & Hk & Hkn). eauto 8.
Qed.
Lemma full_union_ids_checks v : node_ok v → checks (full_union_ids v) v (type_ids_ok v).
Proof.
  intros Hv. unfold full_union_ids. apply checks_get. cbn [id].
  destruct (is_union (view_storage_type v)) eqn:Eu; cycle 1.
  { eapply (checks_mono _ _ True); [|intros _ Hu; congruence].
    destruct (view_storage_type v); try done; by apply checks_ret. }
  pose proof (node_map _ Hv) as Hmap.
  enough (checks ((match union_type_id_map v with
      | None => mfail EINVAL
      | Some m =>
          let* b := deref (buffer_views v !! 0%nat) in
          let* same := deref (_ArrowParsedUnionTypeIdsWillEqualChildIndices m (view_n_children v)
                                (view_n_children v)) in
          if same : bool then ArrowAssertRangeInt8 b 0 (i8 (view_n_children v - 1))
          else ArrowAssertInt8In b (drop 128 m) (view_n_children v)
      end) v) v (type_ids_ok v)) by (by destruct (view_storage_type v)).
  destruct (union_type_id_map v) as [m|] eqn:Em; [|apply checks_fail].
  destruct Hmap as (Hlen & Hn & Hmap).
  destruct (node_lookup v 0 Hv) as (_ & _ & b & _ & _ & Hb & _ & _ & Hok); [lia|].
  eapply checks_deref; [done|]. destruct (parsed_ids_spec m (view_n_children v)) as (same & Hsame & Hids); [lia|lia|].
  eapply checks_deref; [done|]. destruct same.
  - eapply (ids_loop_checks v b m (λ x, (0 <=? x) && (x <=? i8 (view_n_children v - 1)))); try done.
    intros t Ht. zbool. rewrite i8_small in * by width. exists t. split; [apply Hids; lia|lia].
  - assert (zslice (drop 128 m) 0 (0 `max` view_n_children v) =
      Some (take (Z.to_nat (view_n_children v)) (drop 128 m))) as Hslice.
    { rewrite Z.max_r by lia. rewrite zslice_in; [done|lia|lia|].
      unfold zlen in *. rewrite length_drop. lia. }
    eapply (ids_loop_checks v b m (λ x, existsb (Z.eqb x) (take (Z.to_nat (view_n_children v)) (drop 128 m)))); try done.
    + intros t (x & Hx & ->%Z.eqb_eq)%existsb_exists. apply list_elem_of_In, list_elem_of_lookup in Hx as [i Hi].
      apply lookup_take_Some in Hi as [Hi Hlt]. rewrite lookup_drop in Hi.
      destruct (Hmap (Z.of_nat i)) as (t & k & Ht & Hk & Hkn); [lia|].
      rewrite znth_lookup in Ht by lia. replace (Z.to_nat (128 + Z.of_nat i)) with (128 + i)%nat in Ht by lia.
      simplify_eq. eauto.
    + unfold ArrowAssertInt8In. by rewrite Hslice.
Qed.

(** A buffer of fixed-width elements is long enough. *)
Lemma fixed_memory v i t w b :
  node_ok v → min_ok v i → buffer_type (view_layout v) !! i = Some t →
  t = NANOARROW_BUFFER_TYPE_TYPE_ID ∨ t = NANOARROW_BUFFER_TYPE_UNION_OFFSET ∨
    t = NANOARROW_BUFFER_TYPE_DATA →
  element_size_bits (view_layout v) !! i = Some (8 * Z.of_nat w) → buffer_views v !! i = Some b →
  Z.of_nat w * (offset v + length v) <= view_size b.
Proof.
  intros Hv Hmin Ht Hcase Hbits Hb. destruct (node_extent _ Hv) as (Ho & Hl & Hmax & Hall).
  rewrite Forall_lookup in Hall. specialize (Hall _ _ Hbits).
  assert (Z.quot (8 * Z.of_nat w) 8 = Z.of_nat w) as Hq by (rewrite Z.mul_comm; apply Z.quot_mul; lia).
  eapply (Hmin _ _ _ _ Ht Hbits Hb). unfold min_buffer_size. rewrite Hq.
  destruct Hcase as [->|[->| ->]]; f_equal; [apply i64_small; width..|].
  rewrite i64_small by width. rewrite RoundUp_spec by width.
  rewrite <-Z.mul_assoc, (Z.mul_comm 8), (Z.div_add_l _ 8 7) by lia.
  change (7 / 8) with 0. rewrite Z.add_0_r. apply Z.quot_mul. lia.
Qed.
(** The memory of a buffer that is not empty. *)
Lemma buffer_memory v i b :
  node_ok v → buffer_views v !! i = Some b → 0 < view_size b →
  ∃ d, view_data b = Some d ∧ view_size b <= zlen d.
Proof.
  intros Hv Hb Hpos. pose proof (node_memory _ Hv) as Hmem. rewrite Forall_lookup in Hmem.
  specialize (Hmem _ _ Hb). unfold buffer_ok in Hmem. destruct (view_data b); [|lia].
  eexists. split; [done|lia].
Qed.
Lemma as_int_Some v k w b i :
  node_ok v → buffer_views v !! k = Some b → (0 < w)%nat → 0 <= i → Z.of_nat w * (i + 1) <= view_size b →
  ∃ d x, view_data b = Some d ∧ load_i w d (Z.of_nat w * i) = Some x ∧ as_int w k v i = Some x.
Proof.
  intros Hv Hb Hw Hi Hsz. destruct (buffer_memory v k b Hv Hb) as (d & Hd & Hlen); [nia|].
  destruct (load_i_elem w d (view_size b) i) as [x Hx]; [lia|lia|lia|].
  exists d, x. unfold as_int, buffer_data. rewrite Hb. cbn [mbind option_bind]. by rewrite Hd.
Qed.
Lemma as_uint_Some v k w b i :
  node_ok v → buffer_views v !! k = Some b → (0 < w)%nat → 0 <= i → Z.of_nat w * (i + 1) <= view_size b →
  is_Some (as_uint w k v i).
Proof.
  intros Hv Hb Hw Hi Hsz. destruct (buffer_memory v k b Hv Hb) as (d & Hd & Hlen); [nia|].
  unfold as_uint, buffer_data. rewrite Hb. cbn [mbind option_bind]. rewrite Hd. apply load_u_in; nia.
Qed.

(** The child of a union element is there. *)
Lemma union_child_Some v i :
  node_ok v → minimal_ok v → type_ids_ok v → is_union (view_storage_type v) = true →
  0 <= i < length v →
  ∃ k, ArrowArrayViewUnionChildIndex v i = Some k ∧ 0 <= k < view_n_children v.
Proof.
  intros Hv (H0 & _) Hids Hu Hi. destruct (Hids Hu) as (m & Hm & Hids').
  destruct (node_lookup v 0 Hv) as (_ & _ & b & _ & _ & Hb & _); [lia|].
  destruct (node_extent _ Hv) as (Ho & Hl & _).
  assert (Z.of_nat 1 * (offset v + length v) <= view_size b) as Hsz.
  { pose proof (node_layout _ Hv) as Hlay. destruct (view_storage_type v) eqn:Est; try done;
      simpl in Hlay; apply (fixed_memory v 0 NANOARROW_BUFFER_TYPE_TYPE_ID 1 b);
      auto; by rewrite Hlay. }
  destruct (as_int_Some v 0 1 b i) as (d & t & Hd & Ht & Has); [done..|lia|lia|lia|].
  destruct (Hids' b d i) as (t' & k & Ht' & Hk & Hkn); [done|done|lia|].
  replace (Z.of_nat 1 * i) with i in Ht by lia. simplify_eq. exists k. split; [|done].
  unfold ArrowArrayViewUnionChildIndex, ArrowArrayViewUnionTypeId.
  destruct (view_storage_type v); try done; rewrite Has; cbn [mbind option_bind]; by rewrite Hm.
Qed.
Lemma union_offset_Some v i :
  node_ok v → minimal_ok v → 0 <= i < length v → is_Some (ArrowArrayViewUnionChildOffset v i).
Proof.
  intros Hv (_ & H1 & _) Hi. unfold ArrowArrayViewUnionChildOffset.
  destruct (view_storage_type v) eqn:Est; eauto.
  destruct (node_lookup v 1 Hv) as (_ & _ & b & _ & _ & Hb & _); [lia|].
  destruct (node_extent _ Hv) as (Ho & Hl & _). pose proof (node_layout _ Hv) as Hlay.
  rewrite Est in Hlay. simpl in Hlay.
  destruct (as_int_Some v 1 4 b i) as (d & t & _ & _ & ->); [done..|lia|lia| |eauto].
  enough (Z.of_nat 4 * (offset v + length v) <= view_size b) by lia.
  apply (fixed_memory v 1 NANOARROW_BUFFER_TYPE_UNION_OFFSET 4 b); auto; by rewrite Hlay.
Qed.
Lemma full_union_offsets_checks v :
  node_ok v → has_children v → minimal_ok v → type_ids_ok v → checks (full_union_offsets v) v True.
Proof.
  intros Hv Hc Hmin Hids. unfold full_union_offsets. apply checks_get. cbn [id].
  destruct (view_storage_type v) eqn:Est; try by apply checks_ret.
  destruct (union_type_id_map v) as [m|]; [|by apply checks_ret].
  eapply checks_mono; [apply (checks_for _ _ _ (λ _, True))|done].
  intros i Hi%elem_of_zseq.
  destruct (union_child_Some v i) as (k & Hk & Hkn); [done..|by rewrite Est|done|].
  destruct (union_offset_Some v i Hv Hmin Hi) as [o Ho].
  destruct (view_child_Some v k Hc Hkn) as [c Hcv].
  eapply checks_deref; [exact Hk|]. eapply checks_deref; [exact Ho|]. eapply checks_deref; [exact Hcv|].
  eapply checks_mono; [apply checks_check|done].
Qed.

Definition full_ok (v : ArrowArrayView) : Prop :=
  (∀ bits b, buffer_type (view_layout v) !! 1%nat = Some NANOARROW_BUFFER_TYPE_DATA_OFFSET →
    element_size_bits (view_layout v) !! 1%nat = Some bits → buffer_views v !! 1%nat = Some b →
    increasing (if bits =? 32 then 4 else 8) b) ∧
  type_ids_ok v.
Lemma full_node_checks v :
  node_ok v → has_children v → minimal_ok v → checks (full_node v) v (full_ok v).
Proof.
  intros Hv Hc Hmin. unfold full_node, full_ok.
  eapply checks_mono; [apply checks_seq; [apply full_offsets_checks; [done|lia]|]|by intros [_ H]; exact H].
  intros _. apply checks_seq; [apply full_offsets_checks; [done|lia]|]. intros _.
  eapply checks_mono; [apply checks_seq; [apply full_offsets_checks; [done|lia]|]|by intros [_ H]; exact H].
  intros _. eapply checks_mono; [apply checks_seq; [by apply full_union_ids_checks|]|by intros [H _]; exact H].
  intros Hids. by apply full_union_offsets_checks.
Qed.

Definition readable_ok (v : ArrowArrayView) : Prop := valid_ok v ∧ full_ok v ∧ has_children v.
Lemma validate_full_checks v :
  all_views valid_ok v → checks (ArrowArrayViewValidateFull v) v (all_views readable_ok v).
Proof.
  induction v as [o l n st lay b nc ch d m IHch IHd] using ArrowArrayView_nested_ind.
  intros Hall. apply all_views_children in Hall as (Hv & Hc & Hch & Hd).
  set (v := MkArrayView o l n st lay b nc ch d m) in *. pose proof Hv as (Hnode & Hmin & _).
  change (ArrowArrayViewValidateFull v) with
    (match full_node v with
     | UB => UB
     | Err e v1 => Err e v1
     | Ok _ v1 =>
         match walk_children (λ _, ArrowArrayViewValidateFull) nc ch with
         | UB => UB
         | Err e ch' => Err e (set_view_children nc ch' v1)
         | Ok _ ch' =>
             match d with
             | None => Ok tt (set_view_children nc ch' v1)
             | Some _ => Err ENOTSUP (set_view_children nc ch' v1)
             end
         end
     end).
  pose proof (full_node_checks v Hnode Hc Hmin) as Hfull.
  destruct (full_node v) as [[] v1|e v1|]; simpl in Hfull; [|done|done]. destruct Hfull as [-> Hfull].
  epose proof (checks_walk_children ArrowArrayViewValidateFull (all_views readable_ok) nc ch _) as Hwalk.
  destruct (walk_children _ nc ch) as [[] ch'|e ch'|]; simpl in Hwalk; [| |done].
  - destruct Hwalk as [-> Hwalk]. destruct d as [c|].
    + split; [by right|done].
    + split; [done|]. apply all_views_intro; done.
  - destruct Hwalk as [? ->]. by split.
  Unshelve.
  unfold has_children in Hc. simpl in *. destruct ch as [cs|]; [|done]. destruct Hc as [Hn _].
  split; [done|]. rewrite Forall_lookup in Hch. rewrite Forall_lookup in IHch. apply Forall_lookup.
  intros i c Hi. specialize (Hch i c Hi). specialize (IHch i c Hi). destruct c as [c|]; [auto|done].
Qed.

(** ** What a validated view can be read with *)

(** The width in bytes of the elements that are integers or floating-point
    numbers of their own. *)
Definition number_width (st : ArrowType) : option nat :=
  match st with
  | NANOARROW_TYPE_INT64 | NANOARROW_TYPE_UINT64 | NANOARROW_TYPE_DOUBLE
  | NANOARROW_TYPE_INTERVAL_DAY_TIME => Some 8%nat
  | NANOARROW_TYPE_INT32 | NANOARROW_TYPE_UINT32 | NANOARROW_TYPE_FLOAT
  | NANOARROW_TYPE_INTERVAL_MONTHS => Some 4%nat
  | NANOARROW_TYPE_INT16 | NANOARROW_TYPE_UINT16 => Some 2%nat
  | NANOARROW_TYPE_INT8 | NANOARROW_TYPE_UINT8 => Some 1%nat
  | NANOARROW_TYPE_INTERVAL_MONTH_DAY_NANO => Some 16%nat
  | _ => None
  end.
Definition is_float (st : ArrowType) : bool :=
  match st with NANOARROW_TYPE_FLOAT | NANOARROW_TYPE_DOUBLE => true | _ => false end.
(** All the accessors are defined at [i].  A conversion of a floating-point
    number to an integer is only defined when the number is in range. *)
Record readable (v : ArrowArrayView) (i : Z) : Prop := {
  readable_null : view_storage_type v ≠ NANOARROW_TYPE_UNINITIALIZED →
    is_Some (ArrowArrayViewIsNull v i);
  readable_int : is_float (view_storage_type v) = false →
    is_Some (ArrowArrayViewGetIntUnsafe v i);
  readable_uint : is_float (view_storage_type v) = false →
    is_Some (ArrowArrayViewGetUIntUnsafe v i);
  readable_double : is_Some (ArrowArrayViewGetDoubleUnsafe v i);
  readable_string : ∃ s, ArrowArrayViewGetStringUnsafe v i = Some s ∧ buffer_ok s;
  readable_interval out : is_Some (ArrowArrayViewGetIntervalUnsafe v i out);
  readable_child : is_union (view_storage_type v) = true →
    ∃ k c, ArrowArrayViewUnionChildIndex v i = Some k ∧ view_child v k = Some c ∧
      is_Some (ArrowArrayViewUnionChildOffset v i);
  readable_list : is_Some (ArrowArrayViewListChildOffset v i);
}.

Section readable.
Context (v : ArrowArrayView) (i : Z).
Context (Hok : readable_ok v) (Hi : 0 <= i < length v).

Lemma readable_index : i64 (i + offset v) = i + offset v ∧ 0 <= offset v.
Proof.
  destruct Hok as ((Hv & _) & _). destruct (node_extent _ Hv) as (Ho & Hl & Hmax & _).
  split; [|lia]. apply i64_small. width.
Qed.
Lemma number_memory w :
  number_width (view_storage_type v) = Some w →
  ∃ b, buffer_views v !! 1%nat = Some b ∧ (0 < w)%nat ∧
    Z.of_nat w * (offset v + length v) <= view_size b.
Proof.
  destruct Hok as ((Hv & (_ & H1 & _) & _) & _). intros Hw.
  destruct (node_lookup v 1 Hv) as (_ & _ & b & _ & _ & Hb & _); [lia|].
  exists b. split; [done|]. pose proof (node_layout _ Hv) as Hlay.
  destruct (view_storage_type v); simpl in Hw; try discriminate Hw; injection Hw as <-;
    (split; [lia|]); simpl in Hlay; apply (fixed_memory v 1 NANOARROW_BUFFER_TYPE_DATA _ b Hv H1);
    auto; by rewrite Hlay.
Qed.
Lemma number_int w j :
  number_width (view_storage_type v) = Some w → 0 <= j < offset v + length v →
  is_Some (as_int w 1 v j) ∧ is_Some (as_uint w 1 v j).
Proof.
  intros Hw Hj. destruct (number_memory w Hw) as (b & Hb & Hpos & Hsz).
  destruct Hok as ((Hv & _) & _).
  split; [destruct (as_int_Some v 1 w b j) as (d & x & _ & _ & ->); eauto|apply (as_uint_Some v 1 w b j)];
    auto; nia.
Qed.
(** The bits of a validity bitmap or of booleans. *)
Lemma bit_memory k j t :
  buffer_type (view_layout v) !! k = Some t → element_size_bits (view_layout v) !! k = Some 1 →
  (t = NANOARROW_BUFFER_TYPE_VALIDITY ∨ t = NANOARROW_BUFFER_TYPE_DATA) → min_ok v k →
  (t = NANOARROW_BUFFER_TYPE_VALIDITY → ∀ b, buffer_views v !! k = Some b → view_size b ≠ 0) →
  (k < 3)%nat → 0 <= j < offset v + length v →
  ∃ d x, buffer_data v k = Some d ∧ ArrowBitGet d j = Some x.
Proof.
  intros Ht Hbits Hcase Hmin Hne Hk Hj. destruct Hok as ((Hv & _) & _).
  destruct (node_extent _ Hv) as (Ho & Hl & Hmax & _).
  destruct (node_lookup v k Hv Hk) as (_ & _ & b & _ & _ & Hb & _).
  assert (offset v + length v <= 8 * view_size b) as Hsz.
  { pose proof (Hmin t 1 b ((offset v + length v + 7) / 8) Ht Hbits Hb) as Hle.
    enough ((offset v + length v + 7) / 8 <= view_size b) as Hq.
    { pose proof (Z.div_mod (offset v + length v + 7) 8). pose proof (Z.mod_pos_bound (offset v + length v + 7) 8). lia. }
    apply Hle. unfold min_buffer_size. destruct Hcase as [-> | ->].
    - specialize (Hne eq_refl b Hb). destruct (Z.eqb_spec (view_size b) 0); [done|].
      rewrite andb_false_r. f_equal. apply BytesForBits_spec. width.
    - rewrite Z.mul_1_l, i64_small by width. f_equal. rewrite RoundUp_spec by width.
      apply Z.quot_mul. lia. }
  destruct (buffer_memory v k b Hv Hb) as (d & Hd & Hlen); [lia|].
  exists d. eexists. split.
  - unfold buffer_data. by rewrite Hb.
  - apply ArrowBitGet_bitf. lia.
Qed.

(** The offsets of strings grow from zero to the size of the data. *)
Lemma offsets_between w j k :
  string_width (view_storage_type v) = Some w → 0 <= j <= k → k <= offset v + length v →
  ∃ b2 x y, buffer_views v !! 2%nat = Some b2 ∧ as_int w 1 v j = Some x ∧ as_int w 1 v k = Some y ∧
    0 <= x <= y ∧ y <= view_size b2.
Proof.
  destruct Hok as ((Hv & (_ & Hmin & _) & Hdef) & (Hinc & _) & _). intros Hw Hj Hk.
  destruct (node_extent _ Hv) as (Ho & Hl & Hmax & Hall).
  destruct (node_lookup v 1 Hv) as (_ & _ & b & _ & _ & Hb & _); [lia|].
  destruct (node_lookup v 2 Hv) as (_ & _ & b2 & _ & _ & Hb2 & _); [lia|].
  destruct (offsets_layout v w Hv (or_introl Hw)) as (Ht & Hbits & Hww).
  assert (view_size b ≠ 0) as Hne.
  { intros Hz. pose proof (Hmin _ _ b _ Ht Hbits Hb eq_refl) as Hle.
    rewrite Forall_lookup in Hall. specialize (Hall _ _ Hbits).
    destruct (Z.eqb_spec (offset v + length v) 0); [lia|].
    replace (Z.quot (8 * Z.of_nat w) 8) with (Z.of_nat w) in Hle
      by (rewrite Z.mul_comm, Z.quot_mul; lia).
    rewrite i64_small in Hle by width. destruct Hww; subst; lia. }
  destruct (offsets_memory v w b) as (d & Hd & Hlen & Hsz); auto.
  destruct (Hdef w b2 Hw Hb2 b Hb) as [?|(d' & first & last & Hd' & Hfirst & Hlast & Hf0 & Hlb)]; [done|].
  simplify_eq. specialize (Hinc _ _ Ht Hbits Hb).
  replace (if 8 * Z.of_nat w =? 32 then 4%nat else 8%nat) with w in Hinc by (destruct Hww; by subst).
  assert (∀ n a x y, 0 <= a → a + Z.of_nat n <= offset v + length v →
    load_i w d (Z.of_nat w * a) = Some x → load_i w d (Z.of_nat w * (a + Z.of_nat n)) = Some y → x <= y) as Hmono.
  { induction n as [|n IH]; intros a x y Ha Hn Hx Hy.
    - rewrite Z.add_0_r in Hy. simplify_eq. lia.
    - destruct (Hinc d a Hd Ha) as (x' & y' & Hx' & Hy' & Hle); [destruct Hww; subst; lia|].
      simplify_eq. transitivity y'; [done|]. apply (IH (a + 1)); try lia; [done|].
      by replace (a + 1 + Z.of_nat n) with (a + Z.of_nat (S n)) by lia. }
  assert (0 < w)%nat by (destruct Hww; lia).
  destruct (as_int_Some v 1 w b j) as (d1 & x & Hd1 & Hx & Hasx); auto; [lia|nia|].
  destruct (as_int_Some v 1 w b k) as (d2 & y & Hd2 & Hy & Hasy); auto; [lia|nia|].
  simplify_eq. exists b2, x, y. split_and!; try done.
  - transitivity first; [done|]. apply (Hmono (Z.to_nat j) 0); try lia; [by rewrite Z.mul_0_r|].
    by replace (0 + Z.of_nat (Z.to_nat j)) with j by lia.
  - apply (Hmono (Z.to_nat (k - j)) j); try lia; [done|].
    by replace (j + Z.of_nat (Z.to_nat (k - j))) with k by lia.
  - transitivity last; [|done]. apply (Hmono (Z.to_nat (offset v + length v - k)) k); try lia; [done|].
    by replace (k + Z.of_nat (Z.to_nat (offset v + length v - k))) with (offset v + length v) by lia.
Qed.
(** A range of a buffer is a view with a true size. *)
Lemma pointer_at_ok k b off n :
  buffer_views v !! k = Some b → 0 <= off → 0 <= n → off + n <= view_size b →
  ∃ p, pointer_at (buffer_data v k) off = Some p ∧ buffer_ok (MkView p n).
Proof.
  destruct Hok as ((Hv & _) & _). intros Hb Hoff Hn Hsz. unfold buffer_data. rewrite Hb. cbn [mbind option_bind].
  pose proof (node_memory _ Hv) as Hmem. rewrite Forall_lookup in Hmem. specialize (Hmem _ _ Hb).
  unfold buffer_ok in Hmem. unfold pointer_at, ptr_add. destruct (view_data b) as [d|].
  - destruct (Z.leb_spec 0 off), (Z.leb_spec off (zlen d)); try lia. eexists. split; [done|].
    unfold buffer_ok; simpl. unfold zlen in *. rewrite length_drop. lia.
  - destruct (Z.eqb_spec off 0); [|lia]. eexists. split; [done|]. unfold buffer_ok; simpl. lia.
Qed.
Lemma string_readable : ∃ s, ArrowArrayViewGetStringUnsafe v i = Some s ∧ buffer_ok s.
Proof.
  destruct readable_index as [Hidx Hoff]. unfold ArrowArrayViewGetStringUnsafe. rewrite Hidx.
  assert (∀ w, string_width (view_storage_type v) = Some w → ∃ s,
    (o ← as_int w 1 v (i + offset v); o' ← as_int w 1 v (i + offset v + 1);
     p ← pointer_at (buffer_data v 2) o; Some (MkView p (o' - o))) = Some s ∧ buffer_ok s) as Hstr.
  { intros w Hw. destruct (offsets_between w (i + offset v) (i + offset v + 1) Hw)
      as (b2 & x & y & Hb2 & Hx & Hy & Hxy & Hyb); [lia|lia|].
    destruct (pointer_at_ok 2 b2 x (y - x)) as (p & Hp & Hpok); [done|lia|lia|lia|].
    rewrite Hx. cbn [mbind option_bind]. rewrite Hy. cbn [mbind option_bind]. rewrite Hp. eauto. }
  destruct (view_storage_type v) eqn:Est;
    try (eexists; split; [reflexivity|reflexivity]); try (apply Hstr; reflexivity).
  destruct Hok as ((Hv & (_ & H1 & _) & _) & _). pose proof (node_layout _ Hv) as Hlay.
  rewrite Est in Hlay. destruct Hlay as (n & Hn & Hlay). simpl in Hlay.
  destruct (node_lookup v 1 Hv) as (_ & _ & b & _ & _ & Hb & _); [lia|].
  assert (element_size_bits (view_layout v) !! 1%nat = Some (8 * Z.of_nat (Z.to_nat n))) as Hbits.
  { rewrite Hlay. simpl. f_equal. lia. }
  pose proof (fixed_memory v 1 NANOARROW_BUFFER_TYPE_DATA (Z.to_nat n) b Hv H1) as Hmem.
  rewrite Hbits. cbn [mbind option_bind]. rewrite (Z.mul_comm 8), Z.quot_mul by lia.
  destruct (pointer_at_ok 1 b ((i + offset v) * Z.of_nat (Z.to_nat n)) (Z.of_nat (Z.to_nat n)))
    as (p & -> & Hpok); [done|nia|lia| |eauto].
  transitivity (Z.of_nat (Z.to_nat n) * (offset v + length v)); [nia|].
  apply Hmem; auto. by rewrite Hlay.
Qed.

Lemma bool_readable :
  view_storage_type v = NANOARROW_TYPE_BOOL →
  ∃ d x, buffer_data v 1 = Some d ∧ ArrowBitGet d (i + offset v) = Some x.
Proof.
  intros Hst. destruct Hok as ((Hv & (_ & H1 & _) & _) & _). pose proof (node_layout _ Hv) as Hlay.
  rewrite Hst in Hlay. simpl in Hlay. destruct readable_index.
  apply (bit_memory 1 (i + offset v) NANOARROW_BUFFER_TYPE_DATA); auto; try (by rewrite Hlay); try done; lia.
Qed.
Lemma null_readable :
  view_storage_type v ≠ NANOARROW_TYPE_UNINITIALIZED → is_Some (ArrowArrayViewIsNull v i).
Proof.
  intros Hne. destruct readable_index as [Hidx Hoff]. unfold ArrowArrayViewIsNull. rewrite Hidx.
  destruct Hok as ((Hv & (H0 & _) & _) & _). pose proof (node_layout _ Hv) as Hlay.
  assert (buffer_type (view_layout v) !! 0%nat = Some NANOARROW_BUFFER_TYPE_VALIDITY →
    element_size_bits (view_layout v) !! 0%nat = Some 1 →
    is_Some (match buffer_data v 0 with
      | None => Some false
      | Some d => bit ← ArrowBitGet d (i + offset v); Some (bit =? 0)
      end)) as Hbit.
  { intros Ht Hbits. destruct (buffer_data v 0) as [d|] eqn:Ed; [|eauto].
    destruct (bit_memory 0 (i + offset v) NANOARROW_BUFFER_TYPE_VALIDITY) as (d' & x & Hd' & Hx); auto; try lia.
    - intros _ b Hb Hz. pose proof (node_validity _ Hv b Hb Hz) as Hnone.
      unfold buffer_data in Ed. rewrite Hb in Ed. cbn [mbind option_bind] in Ed. congruence.
    - simplify_eq. rewrite Hx. eauto. }
  destruct (view_storage_type v); try (eexists; reflexivity); try done; simpl in Hlay;
    try (destruct Hlay as (? & ? & Hlay)); try (destruct Hlay as (? & Hlay));
    apply Hbit; by rewrite Hlay.
Qed.
Lemma interval_readable out : is_Some (ArrowArrayViewGetIntervalUnsafe v i out).
Proof.
  unfold ArrowArrayViewGetIntervalUnsafe. destruct readable_index as [_ Hoff].
  assert (∀ w, number_width (view_storage_type v) = Some w → ∃ d,
    buffer_data v 1 = Some d ∧ Z.of_nat w * (i + 1) <= zlen d) as Hmem.
  { intros w Hw. destruct (number_memory w Hw) as (b & Hb & Hpos & Hsz).
    destruct Hok as ((Hv & _) & _). destruct (buffer_memory v 1 b Hv Hb) as (d & Hd & Hlen); [nia|].
    exists d. unfold buffer_data. rewrite Hb. split; [done|nia]. }
  assert (∀ d w off, 0 <= off → off + Z.of_nat w <= zlen d → ∃ x, load_i w d off = Some x) as Hload.
  { intros. destruct (load_i_in w d off) as [x ?]; eauto; lia. }
  destruct (view_storage_type v); try (eexists; reflexivity).
  - destruct (Hmem _ eq_refl) as (d & -> & Hlen). cbn [mbind option_bind].
    destruct (Hload d 4%nat (i * 4)) as [x ->]; [lia|lia|]. eauto.
  - destruct (Hmem _ eq_refl) as (d & -> & Hlen). cbn [mbind option_bind].
    destruct (Hload d 4%nat (i * 8)) as [x ->]; [lia|lia|]. cbn [mbind option_bind].
    destruct (Hload d 4%nat (i * 8 + 4)) as [y ->]; [lia|lia|]. eauto.
  - destruct (Hmem _ eq_refl) as (d & -> & Hlen). cbn [mbind option_bind].
    destruct (Hload d 4%nat (i * 16)) as [x ->]; [lia|lia|]. cbn [mbind option_bind].
    destruct (Hload d 4%nat (i * 16 + 4)) as [y ->]; [lia|lia|]. cbn [mbind option_bind].
    destruct (Hload d 8%nat (i * 16 + 8)) as [z ->]; [lia|lia|]. eauto.
Qed.
Lemma list_readable : is_Some (ArrowArrayViewListChildOffset v i).
Proof.
  unfold ArrowArrayViewListChildOffset. destruct readable_index as [_ Hoff].
  destruct Hok as ((Hv & (_ & Hmin & _) & _) & _).
  destruct (node_extent _ Hv) as (Ho & Hl & Hmax & Hall).
  destruct (node_lookup v 1 Hv) as (_ & _ & b & _ & _ & Hb & _); [lia|].
  assert (∀ w, list_width (view_storage_type v) = Some w → is_Some (as_int w 1 v i)) as Hlist.
  { intros w Hw. destruct (offsets_layout v w Hv (or_intror Hw)) as (Ht & Hbits & Hww).
    rewrite Forall_lookup in Hall. specialize (Hall _ _ Hbits).
    assert (Z.of_nat w * (offset v + length v + 1) <= view_size b) as Hsz.
    { apply (Hmin _ _ b _ Ht Hbits Hb). unfold min_buffer_size.
      destruct (Z.eqb_spec (offset v + length v) 0); [lia|]. f_equal.
      rewrite (Z.mul_comm 8), Z.quot_mul by lia. apply i64_small. width. }
    destruct (as_int_Some v 1 w b i) as (d & x & _ & _ & ->); [done|done|lia|lia|nia|eauto]. }
  destruct (view_storage_type v); try (eexists; reflexivity); apply Hlist; reflexivity.
Qed.
Lemma readable_all : readable v i.
Proof.
  destruct readable_index as [Hidx Hoff].
  pose proof (λ w Hw, number_int w (i + offset v) Hw ltac:(lia)) as Hnum.
  split.
  - apply null_readable.
  - unfold ArrowArrayViewGetIntUnsafe. rewrite Hidx. intros Hf.
    destruct (view_storage_type v) eqn:Est; try discriminate Hf; try (eexists; reflexivity);
      try (destruct (Hnum _ eq_refl) as [[x Hx] [y Hy]]; rewrite ?Hx, ?Hy; eexists; reflexivity).
    destruct (bool_readable Est) as (d & x & -> & Hx). eauto.
  - unfold ArrowArrayViewGetUIntUnsafe. rewrite Hidx. intros Hf.
    destruct (view_storage_type v) eqn:Est; try discriminate Hf; try (eexists; reflexivity);
      try (destruct (Hnum _ eq_refl) as [[x Hx] [y Hy]]; rewrite ?Hx, ?Hy; eexists; reflexivity).
    destruct (bool_readable Est) as (d & x & -> & Hx). eauto.
  - unfold ArrowArrayViewGetDoubleUnsafe. rewrite Hidx.
    destruct (view_storage_type v) eqn:Est; try (eexists; reflexivity);
      try (destruct (Hnum _ eq_refl) as [[x Hx] [y Hy]]; rewrite ?Hx, ?Hy; eexists; reflexivity).
    destruct (bool_readable Est) as (d & x & -> & Hx). cbn [mbind option_bind]. rewrite Hx. eexists; reflexivity.
  - apply string_readable.
  - apply interval_readable.
  - intros Hu. destruct Hok as ((Hv & Hmin & _) & (_ & Hids) & Hc).
    destruct (union_child_Some v i) as (k & Hk & Hkn); auto.
    destruct (view_child_Some v k Hc Hkn) as [c Hcv]. exists k, c. split_and!; auto.
    by apply union_offset_Some.
  - apply list_readable.
Qed.
End readable.

Lemma all_views_mono (P Q : ArrowArrayView → Prop) v :
  (∀ u, P u → Q u) → all_views P v → all_views Q v.
Proof.
  intros HPQ. induction v as [o l n st lay b nc ch d m IHch IHd] using ArrowArrayView_nested_ind.
  intros (Hv & Hc & Hch & Hd)%all_views_children. apply all_views_intro; simpl in *; auto.
  - destruct ch as [cs|]; [|done]. rewrite Forall_lookup in IHch. rewrite Forall_lookup in Hch.
    apply Forall_lookup. intros i c Hi. specialize (IHch i c Hi). specialize (Hch i c Hi).
    destruct c as [c|]; [|done]. by apply IHch.
  - destruct d as [c|]; [|done]. auto.
Qed.

(** C15.  On sane nodes ([node_ok]: the sizes of the buffers are true, the layouts are
    those of the types, the extents so small that sizes in bits do not overflow, an
    offsets buffer holds an offset or nothing, an empty validity buffer is NULL, and a
    union with a map of type ids has at most 127 children, which the map knows)
    validation at every level accepts or rejects with EINVAL or ENOTSUP,
    never reads outside of the memory of a buffer and leaves the view as it
    was; after a full validation that accepts, every accessor is defined for
    every element of every array of the tree, the strings lie within the memory
    of their buffer, and the elements of unions have a child.  What happens
    otherwise show [validate_overflow], [validate_short_offsets] and
    [union_index_wraps]. *)
Theorem validate_full_safe level v :
  all_views node_ok v →
  match ArrowArrayViewValidate level v with
  | Ok _ v' =>
      v' = v ∧ (level = NANOARROW_VALIDATION_LEVEL_FULL →
                all_views (λ u, ∀ i, 0 <= i < length u → readable u i) v)
  | Err e v' => (e = EINVAL ∨ e = ENOTSUP) ∧ v' = v
  | UB => False
  end.
Proof.
  intros Hv. pose proof (validate_default_checks (view_depth v) v Hv (le_n _)) as Hdef.
  fold (ArrowArrayViewValidateDefault v) in Hdef.
  destruct level; simpl; [done| | |].
  - pose proof (validate_minimal_checks v Hv) as Hmin.
    destruct (ArrowArrayViewValidateMinimal v) as [[] v'|e v'|]; [|done|done]. by destruct Hmin.
  - destruct (ArrowArrayViewValidateDefault v) as [[] v'|e v'|]; [|done|done]. by destruct Hdef.
  - destruct (ArrowArrayViewValidateDefault v) as [[] v'|e v'|]; [|done|done]. destruct Hdef as [-> Hdef].
    pose proof (validate_full_checks v Hdef) as Hfull.
    destruct (ArrowArrayViewValidateFull v) as [[] v'|e v'|]; [|done|done]. destruct Hfull as [-> Hfull].
    split; [done|]. intros _. eapply all_views_mono; [|exact Hfull]. intros u Hu i Hi. by apply readable_all.
Qed.

(** A sparse union of strings and of 8-bit integers: ["ab"], 7, [""]. *)
Definition no_view : ArrowView := MkView None 0.
Definition bytes_view (l : list Z) : ArrowView := MkView (Some l) (zlen l).
Definition example_strings : ArrowArrayView :=
  MkArrayView 0 3 0 NANOARROW_TYPE_STRING (ArrowLayoutInit NANOARROW_TYPE_STRING)
    [no_view; bytes_view [0;0;0;0; 2;0;0;0; 2;0;0;0; 2;0;0;0]; bytes_view [97; 98]] 0 None None None.
Definition example_int8 : ArrowArrayView :=
  MkArrayView 0 3 1 NANOARROW_TYPE_INT8 (ArrowLayoutInit NANOARROW_TYPE_INT8)
    [bytes_view [2]; bytes_view [0; 7; 0]; no_view] 0 None None None.
Definition example_map : list Z := [0; 1] ++ repeat (-1) 126 ++ [0; 1] ++ repeat (-1) 126.
Definition example_union : ArrowArrayView :=
  MkArrayView 0 3 0 NANOARROW_TYPE_SPARSE_UNION (ArrowLayoutInit NANOARROW_TYPE_SPARSE_UNION)
    [bytes_view [0; 1; 0]; no_view; no_view] 2 (Some [Some example_strings; Some example_int8])
    None (Some example_map).

(** Inequalities between numerals, alone or in a list. *)
Ltac solve_sizes :=
  repeat match goal with
  | |- Forall _ _ => constructor
  | |- _ ∧ _ => split
  | |- buffer_ok _ => hnf
  | |- _ <= _ => vm_compute; discriminate
  | |- _ = _ => reflexivity
  end.
Lemma example_node_ok v :
  In v [example_strings; example_int8; example_union] → node_ok v.
Proof.
  intros [<-|[<-|[<-|[]]]]; split; try reflexivity; try (hnf; solve_sizes; fail);
    try (intros b; simpl; intros; simplify_eq/=; done);
    try (intros [|[|[|i]]] bits b; simpl; intros; simplify_eq/=; auto; right; vm_compute; discriminate).
  split; [reflexivity|]. split; [simpl; lia|]. intros c Hc. assert (c = 0 ∨ c = 1) as [-> | ->] by (simpl in Hc; lia).
  - exists 0, 0. split_and!; try reflexivity; simpl; lia.
  - exists 1, 1. split_and!; try reflexivity; simpl; lia.
Qed.
Lemma validate_full_safe_witness :
  ArrowArrayViewValidate NANOARROW_VALIDATION_LEVEL_FULL example_union = Ok tt example_union ∧
  readable example_union 1 ∧ readable example_strings 2.
Proof.
  pose proof (validate_full_safe NANOARROW_VALIDATION_LEVEL_FULL example_union) as H.
  assert (ArrowArrayViewValidate NANOARROW_VALIDATION_LEVEL_FULL example_union = Ok tt example_union)
    as E by (vm_compute; reflexivity).
  rewrite E in H. destruct H as [_ H].
  - apply all_views_intro; simpl; auto; [apply example_node_ok; simpl; auto|split; [reflexivity|repeat constructor; eauto]|].
    constructor; [|constructor; [|constructor]];
      (split; [apply example_node_ok; simpl; auto|done]).
  - split; [exact E|]. destruct (H eq_refl) as (Hu & (_ & Hs & _) & _).
    split; [apply Hu; simpl; lia|]. apply Hs. simpl. lia.
Defined.

(** An array of 2^58 integers of 64 bits without a data buffer. *)
Definition huge_view : ArrowArrayView :=
  MkArrayView 0 (2 ^ 58) 0 NANOARROW_TYPE_INT64 (ArrowLayoutInit NANOARROW_TYPE_INT64)
    [no_view; no_view; no_view] 0 None None None.
(** The extents have to be bounded: 2^58 elements of 64 bits are 2^64 bits,
    the required size of the buffer wraps around to zero, an array without any
    data passes validation at every level, and none of its elements can be
    read. *)
Theorem validate_overflow level i :
  ArrowArrayViewValidate level huge_view = Ok tt huge_view ∧
  ArrowArrayViewGetIntUnsafe huge_view i = None.
Proof. split; [destruct level; vm_compute; reflexivity|reflexivity]. Qed.

(** An offsets buffer that is not empty but holds no offset: the default
    validation of an array without elements reads the first offset all the
    same. *)
Definition short_offsets (size : Z) : ArrowArrayView :=
  MkArrayView 0 0 0 NANOARROW_TYPE_STRING (ArrowLayoutInit NANOARROW_TYPE_STRING)
    [no_view; MkView (Some (repeat 0 (Z.to_nat size))) size; no_view] 0 None None None.
Theorem validate_short_offsets :
  Forall (λ size, ArrowArrayViewValidate NANOARROW_VALIDATION_LEVEL_MINIMAL (short_offsets size)
                    = Ok tt (short_offsets size) ∧
                  ArrowArrayViewValidate NANOARROW_VALIDATION_LEVEL_DEFAULT (short_offsets size) = UB)
    [1; 2; 3].
Proof. repeat constructor. Qed.

(** A union of 128 children whose type ids are their indices. *)
Definition identity_union (t : ArrowType) : ArrowArrayView :=
  MkArrayView 0 0 0 t (ArrowLayoutInit t) [no_view; no_view; no_view] 128
    (Some (repeat (Some example_int8) 128)) None (Some (zseq 128 ++ zseq 128)).
(** The index that runs over the type ids is an [int8_t]: after the 128th id, the last
    there can be, it is -128, still below the number of children, and the full
    validation reads in front of the map. *)
Theorem union_index_wraps :
  ArrowArrayViewValidate NANOARROW_VALIDATION_LEVEL_DEFAULT (identity_union NANOARROW_TYPE_SPARSE_UNION) =
    Ok tt (identity_union NANOARROW_TYPE_SPARSE_UNION) ∧
  ArrowArrayViewValidate NANOARROW_VALIDATION_LEVEL_FULL (identity_union NANOARROW_TYPE_SPARSE_UNION) = UB ∧
  ArrowArrayViewValidate NANOARROW_VALIDATION_LEVEL_FULL (identity_union NANOARROW_TYPE_DENSE_UNION) = UB.
Proof. split_and!; vm_compute; reflexivity. Qed.
