(* ===== verification/Array.v ===== *)
(** * Building arrays (nanoarrow.c, array.c part; nanoarrow.h, array inline part)

    The builder side of [struct ArrowArray]: initialisation from a storage type,
    a view or a schema, the append functions, and the functions that finish an
    array.  A builder works on the members of an array ([M array]); what
    recurses works on the tree.  An array built elsewhere has no private data of
    this library, and a released one no members: using either is [UB]. *)

From Stdlib Require Import Ascii.
From stdpp Require Import base numbers list option strings.
From S2P Require Import Prelude CInt CString Float Buffer Bits Bitmap Types Metadata Schema.
From S2P Require Import SchemaView ArrayView.
#[local] Open Scope Z_scope.
#[local] Open Scope c_scope.
#[local] Set Warnings "-register-all".

(** ** Members *)
Definition put_private (p : option ArrowArrayPrivateData) (a : array) : array :=
  MkArray (array_length a) (null_count a) (array_offset a) (n_buffers a) (array_n_children a)
    (array_buffers a) (array_children a) (array_dictionary a) p.
Definition put_length (n : Z) (a : array) : array :=
  MkArray n (null_count a) (array_offset a) (n_buffers a) (array_n_children a)
    (array_buffers a) (array_children a) (array_dictionary a) (array_private a).
Definition put_null_count (n : Z) (a : array) : array :=
  MkArray (array_length a) n (array_offset a) (n_buffers a) (array_n_children a)
    (array_buffers a) (array_children a) (array_dictionary a) (array_private a).
Definition put_n_buffers (n : Z) (a : array) : array :=
  MkArray (array_length a) (null_count a) (array_offset a) n (array_n_children a)
    (array_buffers a) (array_children a) (array_dictionary a) (array_private a).
Definition put_buffers (b : list (option (list Z))) (a : array) : array :=
  MkArray (array_length a) (null_count a) (array_offset a) (n_buffers a) (array_n_children a)
    b (array_children a) (array_dictionary a) (array_private a).
Definition put_children (n : Z) (c : option (list (option ArrowArray))) (a : array) : array :=
  MkArray (array_length a) (null_count a) (array_offset a) (n_buffers a) n
    (array_buffers a) c (array_dictionary a) (array_private a).
Definition put_dictionary (d : option ArrowArray) (a : array) : array :=
  MkArray (array_length a) (null_count a) (array_offset a) (n_buffers a) (array_n_children a)
    (array_buffers a) (array_children a) d (array_private a).

(** [private_data->bitmap], [private_data->buffers] and the other members *)
Definition put_bitmap (b : ArrowBitmap) (p : ArrowArrayPrivateData) : ArrowArrayPrivateData :=
  MkPrivate b (buffers p) (private_storage_type p) (private_layout p)
    (union_type_id_is_child_index p).
Definition put_private_buffers (b : list ArrowBuffer) (p : ArrowArrayPrivateData) :
    ArrowArrayPrivateData :=
  MkPrivate (bitmap p) b (private_storage_type p) (private_layout p)
    (union_type_id_is_child_index p).

(** [(struct ArrowArrayPrivateData* )array->private_data] *)
Definition get_private : M array ArrowArrayPrivateData :=
  let* p := mget array_private in deref p.
Definition on_private {A} (m : M ArrowArrayPrivateData A) : M array A := λ a,
  match array_private a with
  | None => UB
  | Some p => zoom (λ _, p) (λ p', put_private (Some p')) m a
  end.
Definition ArrowArrayValidityBitmap {A} (m : M ArrowBitmap A) : M array A :=
  on_private (zoom bitmap put_bitmap m).
(** An operation on the buffer [private_data->buffers + i]. *)
Definition on_private_buffer {A} (i : Z) (m : M ArrowBuffer A) : M ArrowArrayPrivateData A := λ p,
  match znth (buffers p) i with
  | None => UB
  | Some b =>
      zoom (λ _, b) (λ b' p, put_private_buffers (<[Z.to_nat i := b']> (buffers p)) p) m p
  end.
Definition ArrowArrayBuffer {A} (i : Z) (m : M ArrowBuffer A) : M array A :=
  if i =? 0 then ArrowArrayValidityBitmap (on_buffer m) else on_private (on_private_buffer (i - 1) m).
(** The data pointers of the three buffers. *)
Definition private_data_pointers (p : ArrowArrayPrivateData) : list (option (list Z)) :=
  data (buffer (bitmap p)) :: (data <$> buffers p).

(** [array->children[i]] *)
Definition array_child (a : array) (i : Z) : option array :=
  l ← array_children a;
  c ← znth l i;
  match c with Some (ArrayLive m) => Some m | _ => None end.

(** Run on the node, then on the children, then on the dictionary. *)
Definition on_live (m : M array unit) (a : array) : outcome ArrowArray unit :=
  match m a with
  | Ok _ a' => Ok tt (ArrayLive a')
  | Err e a' => Err e (ArrayLive a')
  | UB => UB
  end.
Definition each_array (node : M array unit) : ArrowArray → outcome ArrowArray unit :=
  fix go arr :=
    match arr with
    | ArrayReleased => UB
    | ArrayLive (MkArray _ _ _ _ nc _ ch d _ as a) =>
        match node a with
        | UB => UB
        | Err e a1 => Err e (ArrayLive a1)
        | Ok _ a1 =>
            match walk_children (λ _, go) nc ch with
            | UB => UB
            | Err e ch' => Err e (ArrayLive (put_children nc ch' a1))
            | Ok _ ch' =>
                match walk_pointer go d with
                | UB => UB
                | Err e d' => Err e (ArrayLive (put_dictionary d' (put_children nc ch' a1)))
                | Ok _ d' => Ok tt (ArrayLive (put_dictionary d' (put_children nc ch' a1)))
                end
            end
        end
    end.

(** ** Initialisation *)
Definition ArrowArrayMove (src : ArrowArray) : ArrowArray * ArrowArray := (src, ArrayReleased).

(** The number of buffers of a storage type. *)
Definition storage_n_buffers (storage_type : ArrowType) : option Z :=
  match storage_type with
  | NANOARROW_TYPE_UNINITIALIZED | NANOARROW_TYPE_NA => Some 0
  | NANOARROW_TYPE_FIXED_SIZE_LIST | NANOARROW_TYPE_STRUCT | NANOARROW_TYPE_SPARSE_UNION => Some 1
  | NANOARROW_TYPE_LIST | NANOARROW_TYPE_LARGE_LIST | NANOARROW_TYPE_MAP | NANOARROW_TYPE_BOOL
  | NANOARROW_TYPE_UINT8 | NANOARROW_TYPE_INT8 | NANOARROW_TYPE_UINT16 | NANOARROW_TYPE_INT16
  | NANOARROW_TYPE_UINT32 | NANOARROW_TYPE_INT32 | NANOARROW_TYPE_UINT64 | NANOARROW_TYPE_INT64
  | NANOARROW_TYPE_HALF_FLOAT | NANOARROW_TYPE_FLOAT | NANOARROW_TYPE_DOUBLE
  | NANOARROW_TYPE_DECIMAL128 | NANOARROW_TYPE_DECIMAL256 | NANOARROW_TYPE_INTERVAL_MONTHS
  | NANOARROW_TYPE_INTERVAL_DAY_TIME | NANOARROW_TYPE_INTERVAL_MONTH_DAY_NANO
  | NANOARROW_TYPE_FIXED_SIZE_BINARY | NANOARROW_TYPE_DENSE_UNION => Some 2
  | NANOARROW_TYPE_STRING | NANOARROW_TYPE_LARGE_STRING | NANOARROW_TYPE_BINARY
  | NANOARROW_TYPE_LARGE_BINARY => Some 3
  | _ => None
  end.
Definition ArrowArraySetStorageType (storage_type : ArrowType) : M array unit :=
  match storage_n_buffers storage_type with
  | None => mfail EINVAL
  | Some n =>
      mmod (put_n_buffers n) ;;;
      on_private (mmod (λ p, MkPrivate (bitmap p) (buffers p) storage_type (private_layout p)
                               (union_type_id_is_child_index p)))
  end.

Definition sizeof_ArrowArrayPrivateData : Z := 248.
Definition sizeof_ArrowArray : Z := 80.

Section init.
Context `{!Malloc}.
Abbreviation AM := (M (mstate * ArrowArray)).

(** The members before the private data is there. *)
Definition array_init : array := MkArray 0 0 0 0 0 [] None None None.
(** The private data with its buffers; the layout and the flag are set below. *)
Definition private_init : ArrowArrayPrivateData :=
  MkPrivate ArrowBitmapInit [ArrowBufferInit; ArrowBufferInit] NANOARROW_TYPE_UNINITIALIZED
    (ArrowLayoutInit NANOARROW_TYPE_UNINITIALIZED) 0.
Definition ArrowArrayInitFromType (storage_type : ArrowType) : AM unit :=
  let* ok := ArrowMalloc sizeof_ArrowArrayPrivateData in
  if ok : bool then
    let a := put_private (Some private_init) (put_buffers [None; None; None] array_init) in
    match ArrowArraySetStorageType storage_type a with
    | UB => mundef
    | Err e _ => modify (λ _, ArrayReleased) ;;; mfail e
    | Ok _ a' =>
        let* p := deref (array_private a') in
        modify (λ _, ArrayLive (put_private (Some (MkPrivate (bitmap p) (buffers p)
          (private_storage_type p) (ArrowLayoutInit storage_type) 1)) a'))
    end
  else modify (λ _, ArrayReleased) ;;; mfail ENOMEM.

(** An operation on the members, on an array that must not be released. *)
Definition live_array {A} (m : M (mstate * array) A) : AM A := λ '(s, arr),
  match arr with
  | ArrayReleased => UB
  | ArrayLive a =>
      match m (s, a) with
      | Ok x (s', a') => Ok x (s', ArrayLive a')
      | Err e (s', a') => Err e (s', ArrayLive a')
      | UB => UB
      end
  end.
Definition ArrowArrayAllocateChildren (n_children : Z) : AM unit := live_array (
  let* c := get array_children in
  match c with
  | Some _ => mfail EINVAL
  | None =>
      if n_children =? 0 then mret_ tt
      else
        let* ok := ArrowMalloc (i64 (n_children * sizeof_pointer)) in
        if ok : bool then
          (if INT64_MAX <? n_children * sizeof_pointer then mundef else mret_ tt) ;;;
          modify (λ a, put_children (array_n_children a)
            (Some (replicate (Z.to_nat n_children) None)) a) ;;;
          mfor (zseq n_children) (λ i,
            let* ok := ArrowMalloc sizeof_ArrowArray in
            if ok : bool then
              modify (λ a, put_children (array_n_children a)
                ((λ l, <[Z.to_nat i := Some ArrayReleased]> l) <$> array_children a) a)
            else mfail ENOMEM) ;;;
          modify (λ a, put_children n_children (array_children a) a)
        else mfail ENOMEM
  end).
Definition ArrowArrayAllocateDictionary : AM unit := live_array (
  let* d := get array_dictionary in
  match d with
  | Some _ => mfail EINVAL
  | None =>
      let* ok := ArrowMalloc sizeof_ArrowArray in
      if ok : bool then modify (put_dictionary (Some ArrayReleased)) else mfail ENOMEM
  end).

(** Run on the array a pointer leads to. *)
Definition on_array_child (i : Z) (m : AM unit) : AM unit := live_array (λ '(s, a),
  match array_children a with
  | None => UB
  | Some l =>
      match znth l i with
      | Some (Some c) =>
          let put c' := put_children (array_n_children a) (Some (<[Z.to_nat i := Some c']> l)) a in
          match m (s, c) with
          | Ok x (s', c') => Ok x (s', put c')
          | Err e (s', c') => Err e (s', put c')
          | UB => UB
          end
      | _ => UB
      end
  end).
Definition on_array_dictionary (m : AM unit) : AM unit := live_array (λ '(s, a),
  match array_dictionary a with
  | None => UB
  | Some c =>
      match m (s, c) with
      | Ok x (s', c') => Ok x (s', put_dictionary (Some c') a)
      | Err e (s', c') => Err e (s', put_dictionary (Some c') a)
      | UB => UB
      end
  end).
(** [if (result != NANOARROW_OK) { array->release(array); return result; }] *)
Definition or_release {A} (m : AM A) : AM A := on_error m (λ '(s, _), (s, ArrayReleased)).

(** The loop over the children of a view. *)
Definition init_view_list (init : ArrowArrayView → AM unit) (nc : Z) :
    list (option ArrowArrayView) → Z → AM unit :=
  fix go l i :=
    if i <? nc then
      match l with
      | Some c :: l' => on_array_child i (init c) ;;; go l' (i + 1)
      | _ => mundef
      end
    else mret_ tt.
Fixpoint ArrowArrayInitFromArrayView (v : ArrowArrayView) : AM unit :=
  match v with
  | MkArrayView _ _ _ st lay _ nc ch d _ =>
      ArrowArrayInitFromType st ;;;
      live_array (modify (λ a, put_private ((λ p, MkPrivate (bitmap p) (buffers p)
        (private_storage_type p) lay (union_type_id_is_child_index p)) <$> array_private a) a)) ;;;
      or_release (
        (if 0 <? nc then
           ArrowArrayAllocateChildren nc ;;;
           match ch with
           | None => mundef
           | Some l => init_view_list ArrowArrayInitFromArrayView nc l 0
           end
         else mret_ tt) ;;;
        match d with
        | None => mret_ tt
        | Some c => ArrowArrayAllocateDictionary ;;; on_array_dictionary (ArrowArrayInitFromArrayView c)
        end)
  end.

(** [schema->format + 4] *)
Definition union_ids_of (schema : ArrowSchema) : option (string * Z) :=
  match schema with
  | SchemaReleased => None
  | SchemaLive s => f ← format s; Some (String.substring 4 (String.length f - 4) f, n_children s)
  end.
Definition ArrowArrayInitFromSchema (schema : ArrowSchema) : AM unit := λ '(s, arr),
  match ArrowArrayViewInitFromSchema schema
          (s, ArrowArrayViewInitFromType NANOARROW_TYPE_UNINITIALIZED) with
  | UB => UB
  | Err e (s', _) => Err e (s', arr)
  | Ok _ (s', v) =>
      (ArrowArrayInitFromArrayView v ;;;
       match view_storage_type v with
       | NANOARROW_TYPE_DENSE_UNION | NANOARROW_TYPE_SPARSE_UNION =>
           let* ids := deref (union_ids_of schema) in
           let* same := deref (_ArrowUnionTypeIdsWillEqualChildIndices ids.1 ids.2) in
           live_array (modify (λ a, put_private ((λ p, MkPrivate (bitmap p) (buffers p)
             (private_storage_type p) (private_layout p) (Z.b2z same)) <$> array_private a) a))
       | _ => mret_ tt
       end) (s', arr)
  end.
End init.

(** ** Buffers given by the caller *)

(** The result is the caller's bitmap, or buffer, after its memory was moved. *)
Definition ArrowArraySetValidityBitmap (bm : ArrowBitmap) : M array ArrowBitmap :=
  let '(dst, src) := ArrowBufferMove (buffer bm) in
  on_private (mmod (put_bitmap (MkBitmap dst (size_bits bm)))) ;;;
  mmod (λ a, put_buffers (<[0%nat := data dst]> (array_buffers a)) a) ;;;
  mmod (put_null_count (-1)) ;;;
  mret_ (MkBitmap src 0).
Definition ArrowArraySetBuffer (i : Z) (b : ArrowBuffer) : M array ArrowBuffer :=
  let '(dst, src) := ArrowBufferMove b in
  let set_pointer := mmod (λ a, put_buffers (<[Z.to_nat i := data dst]> (array_buffers a)) a) in
  if (i =? 0) || (i =? 1) || (i =? 2) then
    ArrowArrayBuffer i (mmod (λ _, dst)) ;;; set_pointer ;;; mret_ src
  else mfail EINVAL.

(** ** Starting and finishing *)
Section finish.
Context `{!Libc}.

(** The layout of buffer [i]. *)
Definition layout_of (p : ArrowArrayPrivateData) (i : Z) : option (ArrowBufferType * Z) :=
  t ← znth (buffer_type (private_layout p)) i;
  bits ← znth (element_size_bits (private_layout p)) i;
  Some (t, bits).
Definition start_node : M array unit :=
  let* p := get_private in
  (match private_storage_type p with
   | NANOARROW_TYPE_UNINITIALIZED => mfail EINVAL
   | NANOARROW_TYPE_SPARSE_UNION | NANOARROW_TYPE_DENSE_UNION =>
       check (union_type_id_is_child_index p =? 1) EINVAL
   | _ => mret_ tt
   end) ;;;
  mfor (zseq 3) (λ i,
    let* lay := deref (layout_of p i) in
    match lay with
    | (NANOARROW_BUFFER_TYPE_DATA_OFFSET, bits) =>
        if bits =? 64 then ArrowArrayBuffer i (ArrowBufferAppendInt64 0)
        else if bits =? 32 then ArrowArrayBuffer i (ArrowBufferAppendInt32 0)
        else mret_ tt
    | _ => mret_ tt
    end).
Definition ArrowArrayStartAppending : ArrowArray → outcome ArrowArray unit := each_array start_node.

Definition ArrowArrayShrinkToFit : ArrowArray → outcome ArrowArray unit := each_array (
  mfor (zseq 3) (λ i, ArrowArrayBuffer i (
    let* n := mget size_bytes in ArrowBufferResize n true))).

(** [f(...);] with the result ignored *)
Definition ignore_error {S} (m : M S unit) : M S unit := λ s,
  match m s with
  | Ok _ s' | Err _ s' => Ok tt s'
  | UB => UB
  end.
Definition ArrowArrayFinalizeBuffers : ArrowArray → outcome ArrowArray unit := each_array (
  let* p := get_private in
  match private_storage_type p with
  | NANOARROW_TYPE_BINARY | NANOARROW_TYPE_STRING | NANOARROW_TYPE_LARGE_BINARY
  | NANOARROW_TYPE_LARGE_STRING =>
      ArrowArrayBuffer 2 (
        let* d := mget data in
        match d with
        | None => ignore_error (ArrowBufferAppendUInt8 0)
        | Some _ => mret_ tt
        end)
  | _ => mret_ tt
  end).
Definition ArrowArrayFlushInternalPointers : ArrowArray → outcome ArrowArray unit := each_array (
  let* p := get_private in mmod (put_buffers (private_data_pointers p))).

Context `{!Malloc}.

(** The view of the node: the buffers with their known sizes. *)
Definition view_of_buffer (b : ArrowBuffer) : ArrowView := MkView (data b) (size_bytes b).
Definition view_of_node (p : ArrowArrayPrivateData) (len nulls off : Z) : ArrowArrayView :=
  set_buffer_views (view_of_buffer (buffer (bitmap p)) :: (view_of_buffer <$> buffers p))
    (set_extent off len nulls
       (set_view_layout (private_layout p) (ArrowArrayViewInitFromType (private_storage_type p)))).
Definition init_array_list (init : ArrowArray → M (mstate * ArrowArrayView) unit) (nc : Z) :
    list (option ArrowArray) → Z → M (mstate * ArrowArrayView) unit :=
  fix go l i :=
    if i <? nc then
      match l with
      | Some c :: l' => on_view_child i (init c) ;;; go l' (i + 1)
      | _ => mundef
      end
    else mret_ tt.
Fixpoint ArrowArrayViewInitFromArray (arr : ArrowArray) : M (mstate * ArrowArrayView) unit :=
  match arr with
  | ArrayLive (MkArray len nulls off _ nc _ ch d (Some p)) =>
      modify (λ _, view_of_node p len nulls off) ;;;
      or_reset (
        ArrowArrayViewAllocateChildren nc ;;;
        (match ch with
         | None => if 0 <? nc then mundef else mret_ tt
         | Some l => init_array_list ArrowArrayViewInitFromArray nc l 0
         end) ;;;
        match d with
        | None => mret_ tt
        | Some c => ArrowArrayViewAllocateDictionary ;;;
                    on_view_dictionary (ArrowArrayViewInitFromArray c)
        end)
  | _ => mundef
  end.

(** A function on the tree as a step of a larger operation. *)
Definition on_tree (f : ArrowArray → outcome ArrowArray unit) : M (mstate * ArrowArray) unit :=
  λ '(s, arr),
    match f arr with
    | Ok _ arr' => Ok tt (s, arr')
    | Err e arr' => Err e (s, arr')
    | UB => UB
    end.
(** A step on a view of the array that is local to the function. *)
Definition with_local_view (k : ArrowArrayView → ArrowArray → outcome ArrowArray unit) :
    M (mstate * ArrowArray) unit := λ '(s, arr),
  match ArrowArrayViewInitFromArray arr
          (s, ArrowArrayViewInitFromType NANOARROW_TYPE_UNINITIALIZED) with
  | UB => UB
  | Err e (s', _) => Err e (s', arr)
  | Ok _ (s', v) => on_tree (k v) (s', arr)
  end.
Definition ArrowArrayFinishBuilding (validation_level : ArrowValidationLevel) :
    M (mstate * ArrowArray) unit :=
  (match validation_level with
   | NANOARROW_VALIDATION_LEVEL_DEFAULT | NANOARROW_VALIDATION_LEVEL_FULL =>
       on_tree ArrowArrayFinalizeBuffers
   | _ => mret_ tt
   end) ;;;
  on_tree ArrowArrayFlushInternalPointers ;;;
  match validation_level with
  | NANOARROW_VALIDATION_LEVEL_NONE => mret_ tt
  | _ =>
      with_local_view (λ v arr,
        match ArrowArrayViewValidate validation_level v with
        | Ok _ _ => Ok tt arr
        | Err e _ => Err e arr
        | UB => UB
        end)
  end.
Definition ArrowArrayFinishBuildingDefault : M (mstate * ArrowArray) unit :=
  ArrowArrayFinishBuilding NANOARROW_VALIDATION_LEVEL_DEFAULT.

(** ** Reserving *)
Definition reserve_node (v : ArrowArrayView) : M array unit :=
  let* n := mget n_buffers in
  mfor (zseq n) (λ i,
    let* t := deref (znth (buffer_type (view_layout v)) i) in
    let* b := ArrowArrayBuffer i (mget id) in
    if match t, data b with NANOARROW_BUFFER_TYPE_VALIDITY, None => true | _, _ => false end
    then mret_ tt
    else
      let* bv := deref (znth (buffer_views v) i) in
      let additional_size_bytes := i64 (view_size bv - size_bytes b) in
      if 0 <? additional_size_bytes
      then ArrowArrayBuffer i (ArrowBufferReserve additional_size_bytes)
      else mret_ tt).
Fixpoint ArrowArrayReserveInternal (arr : ArrowArray) (v : ArrowArrayView) {struct arr} :
    outcome ArrowArray unit :=
  match arr with
  | ArrayReleased => UB
  | ArrayLive (MkArray _ _ _ _ nc _ ch d _ as a) =>
      match reserve_node v a with
      | UB => UB
      | Err e a1 => Err e (ArrayLive a1)
      | Ok _ a1 =>
          match walk_children (λ i c,
                  match view_child v i with
                  | None => UB
                  | Some cv => ArrowArrayReserveInternal c cv
                  end) nc ch with
          | UB => UB
          | Err e ch' => Err e (ArrayLive (put_children nc ch' a1))
          | Ok _ ch' => Ok tt (ArrayLive (put_children nc ch' a1))
          end
      end
  end.
Definition ArrowArrayReserve (additional_size_elements : Z) : M (mstate * ArrowArray) unit :=
  with_local_view (λ v arr,
    match arr with
    | ArrayReleased => UB
    | ArrayLive a =>
        match ArrowArrayViewSetLength v (i64 (array_length a + additional_size_elements)) with
        | None => UB
        | Some v' => ArrowArrayReserveInternal arr v'
        end
    end).
End finish.

(** ** Appending *)
Section append.
Context `{!Libc}.

Definition _ArrowArrayUnionChildIndex (type_id : Z) : Z := type_id.
Definition _ArrowArrayUnionTypeId (child_index : Z) : Z := child_index.

Definition _ArrowArrayAppendBits (buffer_i value n : Z) : M array unit :=
  let* p := get_private in
  let* len := mget array_length in
  let* lay := deref (layout_of p buffer_i) in
  let bytes_required := Z.quot (_ArrowRoundUpToMultipleOf8 (i64 (lay.2 * (len + 1)))) 8 in
  ArrowArrayBuffer buffer_i (
    let* size := mget size_bytes in
    (if size <? bytes_required then ArrowBufferAppendFill 0 (bytes_required - size)
     else mret_ tt) ;;;
    upd_data (λ d, ArrowBitsSetTo d len n value)).

(** The loop over the buffers in [_ArrowArrayAppendEmptyInternal]: an offsets
    buffer is filled with its last offset and the data buffer after it is
    skipped, a data buffer is filled with zeros. *)
Definition repeat_offset (size_bytes len n : Z) : M ArrowBuffer unit :=
  ArrowBufferReserve (i64 (size_bytes * n)) ;;;
  mfor (zseq n) (λ j,
    let* d := mget data in
    let* d := deref d in
    let* src := deref (ptr_add d (size_bytes * (len + j))) in
    ArrowBufferAppendUnsafe (Some src) size_bytes).
Fixpoint fill_buffers (n : Z) (l : list Z) : M array unit :=
  match l with
  | [] => mret_ tt
  | i :: l' =>
      let* p := get_private in
      let* len := mget array_length in
      let* lay := deref (layout_of p i) in
      let size_bytes := Z.quot lay.2 8 in
      match lay.1 with
      | NANOARROW_BUFFER_TYPE_NONE | NANOARROW_BUFFER_TYPE_VALIDITY => fill_buffers n l'
      | NANOARROW_BUFFER_TYPE_DATA_OFFSET =>
          ArrowArrayBuffer i (repeat_offset size_bytes len n) ;;;
          match l' with [] => mret_ tt | _ :: l'' => fill_buffers n l'' end
      | NANOARROW_BUFFER_TYPE_DATA =>
          (if Z.rem lay.2 8 =? 0
           then ArrowArrayBuffer i (ArrowBufferAppendFill 0 (i64 (size_bytes * n)))
           else _ArrowArrayAppendBits i 0 n) ;;;
          fill_buffers n l'
      | NANOARROW_BUFFER_TYPE_TYPE_ID | NANOARROW_BUFFER_TYPE_UNION_OFFSET => mfail EINVAL
      end
  end.
(** The validity bits of [n] elements; the bitmap is allocated for the first
    null. *)
Definition append_validity (n is_valid : Z) : M array unit :=
  let* p := get_private in
  let* len := mget array_length in
  match data (buffer (bitmap p)) with
  | None =>
      if is_valid =? 0 then
        ArrowArrayValidityBitmap (
          ArrowBitmapReserve (i64 (len + n)) ;;;
          ArrowBitmapAppendUnsafe 1 len ;;;
          ArrowBitmapAppendUnsafe is_valid n)
      else mret_ tt
  | Some _ =>
      ArrowArrayValidityBitmap (
        ArrowBitmapReserve n ;;;
        ArrowBitmapAppendUnsafe is_valid n)
  end.
Definition add_length (n : Z) : M array unit := mmod (λ a, put_length (i64 (array_length a + n)) a).
Definition empty_node (n is_valid : Z) : M array unit :=
  append_validity n is_valid ;;;
  fill_buffers n (zseq 3) ;;;
  add_length n ;;;
  mmod (λ a, put_null_count (i64 (null_count a + n * (if is_valid =? 0 then 1 else 0))) a).
(** The references of [n] dense union elements to the last element of the first
    child. *)
Definition append_references (n : Z) : M array unit :=
  ArrowArrayBuffer 0 (ArrowBufferAppendFill (_ArrowArrayUnionTypeId 0) n) ;;;
  mfor (zseq n) (λ _,
    let* c := mget (λ a, array_child a 0) in
    let* c := deref c in
    ArrowArrayBuffer 1 (ArrowBufferAppendInt32 (i32 (i32 (array_length c) - 1)))) ;;;
  add_length n.
(** Children first, then the node. *)
Definition children_then (r : outcome (option (list (option ArrowArray))) unit) (a : array)
    (k : M array unit) : outcome ArrowArray unit :=
  match r with
  | UB => UB
  | Err e ch => Err e (ArrayLive (put_children (array_n_children a) ch a))
  | Ok _ ch => on_live k (put_children (array_n_children a) ch a)
  end.
Fixpoint _ArrowArrayAppendEmptyInternal (arr : ArrowArray) (n is_valid : Z) {struct arr} :
    outcome ArrowArray unit :=
  match arr with
  | ArrayReleased => UB
  | ArrayLive (MkArray len nulls off nb nc bs ch d p as a) =>
      match p with
      | None => UB
      | Some pd =>
          if n =? 0 then Ok tt arr
          else
            match private_storage_type pd with
            | NANOARROW_TYPE_NA =>
                on_live (mmod (put_null_count (i64 (nulls + n))) ;;; add_length n) a
            | NANOARROW_TYPE_DENSE_UNION =>
                children_then
                  (walk_children (λ _ c, _ArrowArrayAppendEmptyInternal c 1 is_valid) 1 ch) a
                  (append_references n)
            | NANOARROW_TYPE_SPARSE_UNION =>
                children_then
                  (walk_children (λ i c, _ArrowArrayAppendEmptyInternal c n
                                           (if i =? 0 then is_valid else 1)) (1 `max` nc) ch) a
                  (ArrowArrayBuffer 0 (ArrowBufferAppendFill (_ArrowArrayUnionTypeId 0) n) ;;;
                   add_length n)
            | NANOARROW_TYPE_FIXED_SIZE_LIST =>
                children_then
                  (walk_children (λ _ c, _ArrowArrayAppendEmptyInternal c
                     (i64 (n * child_size_elements (private_layout pd))) 1) 1 ch) a
                  (empty_node n is_valid)
            | NANOARROW_TYPE_STRUCT =>
                children_then
                  (walk_children (λ _ c, _ArrowArrayAppendEmptyInternal c n 1) nc ch) a
                  (empty_node n is_valid)
            | _ => on_live (empty_node n is_valid) a
            end
      end
  end.
Definition ArrowArrayAppendNull (n : Z) (arr : ArrowArray) : outcome ArrowArray unit :=
  _ArrowArrayAppendEmptyInternal arr n 0.
Definition ArrowArrayAppendEmpty (n : Z) (arr : ArrowArray) : outcome ArrowArray unit :=
  _ArrowArrayAppendEmptyInternal arr n 1.

(** The end of the append functions: a set validity bit if there is a bitmap. *)
Definition finish_append : M array unit :=
  let* p := get_private in
  (match data (buffer (bitmap p)) with
   | None => mret_ tt
   | Some _ => ArrowArrayValidityBitmap (ArrowBitmapAppend 1 1)
   end) ;;;
  add_length 1.
Definition _NANOARROW_CHECK_RANGE {S} (x min max : Z) : M S unit :=
  check ((min <=? x) && (x <=? max)) EINVAL.
Definition _NANOARROW_CHECK_UPPER_LIMIT {S} (x max : Z) : M S unit := check (x <=? max) EINVAL.

(** The two functions for integers call each other for the types of the other
    sign; the callee handles these types itself. *)
Definition append_int_with (append_uint : Z → M array unit) (value : Z) : M array unit :=
  let* p := get_private in
  let data_buffer := ArrowArrayBuffer 1 in
  match private_storage_type p with
  | NANOARROW_TYPE_INT64 => data_buffer (ArrowBufferAppend (Some (le_bytes 8 value)) 8) ;;; finish_append
  | NANOARROW_TYPE_INT32 =>
      _NANOARROW_CHECK_RANGE value INT32_MIN INT32_MAX ;;;
      data_buffer (ArrowBufferAppendInt32 (i32 value)) ;;; finish_append
  | NANOARROW_TYPE_INT16 =>
      _NANOARROW_CHECK_RANGE value INT16_MIN INT16_MAX ;;;
      data_buffer (ArrowBufferAppendInt16 (i16 value)) ;;; finish_append
  | NANOARROW_TYPE_INT8 =>
      _NANOARROW_CHECK_RANGE value INT8_MIN INT8_MAX ;;;
      data_buffer (ArrowBufferAppendInt8 (i8 value)) ;;; finish_append
  | NANOARROW_TYPE_UINT64 | NANOARROW_TYPE_UINT32 | NANOARROW_TYPE_UINT16 | NANOARROW_TYPE_UINT8 =>
      _NANOARROW_CHECK_RANGE value 0 INT64_MAX ;;;
      append_uint (u64 value)
  | NANOARROW_TYPE_DOUBLE =>
      data_buffer (ArrowBufferAppendDouble (float_of_Z binary64 value)) ;;; finish_append
  | NANOARROW_TYPE_FLOAT =>
      data_buffer (ArrowBufferAppendFloat (float_of_Z binary32 value)) ;;; finish_append
  | NANOARROW_TYPE_BOOL =>
      _ArrowArrayAppendBits 1 (if value =? 0 then 0 else 1) 1 ;;; finish_append
  | _ => mfail EINVAL
  end.
Definition append_uint_with (append_int : Z → M array unit) (value : Z) : M array unit :=
  let* p := get_private in
  let data_buffer := ArrowArrayBuffer 1 in
  match private_storage_type p with
  | NANOARROW_TYPE_UINT64 => data_buffer (ArrowBufferAppend (Some (le_bytes 8 value)) 8) ;;; finish_append
  | NANOARROW_TYPE_UINT32 =>
      _NANOARROW_CHECK_UPPER_LIMIT value UINT32_MAX ;;;
      data_buffer (ArrowBufferAppendUInt32 (u32 value)) ;;; finish_append
  | NANOARROW_TYPE_UINT16 =>
      _NANOARROW_CHECK_UPPER_LIMIT value UINT16_MAX ;;;
      data_buffer (ArrowBufferAppendUInt16 (u16 value)) ;;; finish_append
  | NANOARROW_TYPE_UINT8 =>
      _NANOARROW_CHECK_UPPER_LIMIT value UINT8_MAX ;;;
      data_buffer (ArrowBufferAppendUInt8 (u8 value)) ;;; finish_append
  | NANOARROW_TYPE_INT64 | NANOARROW_TYPE_INT32 | NANOARROW_TYPE_INT16 | NANOARROW_TYPE_INT8 =>
      _NANOARROW_CHECK_UPPER_LIMIT value INT64_MAX ;;;
      append_int (i64 value)
  | NANOARROW_TYPE_DOUBLE =>
      data_buffer (ArrowBufferAppendDouble (float_of_Z binary64 value)) ;;; finish_append
  | NANOARROW_TYPE_FLOAT =>
      data_buffer (ArrowBufferAppendFloat (float_of_Z binary32 value)) ;;; finish_append
  | NANOARROW_TYPE_BOOL =>
      _ArrowArrayAppendBits 1 (if value =? 0 then 0 else 1) 1 ;;; finish_append
  | _ => mfail EINVAL
  end.
Definition ArrowArrayAppendInt (value : Z) : M array unit :=
  append_int_with (append_uint_with (λ _, mundef)) value.
Definition ArrowArrayAppendUInt (value : Z) : M array unit :=
  append_uint_with (append_int_with (λ _, mundef)) value.
(** [value] is the representation of a [double]. *)
Definition ArrowArrayAppendDouble (value : Z) : M array unit :=
  let* p := get_private in
  match private_storage_type p with
  | NANOARROW_TYPE_DOUBLE =>
      ArrowArrayBuffer 1 (ArrowBufferAppend (Some (le_bytes 8 value)) 8) ;;; finish_append
  | NANOARROW_TYPE_FLOAT =>
      ArrowArrayBuffer 1 (ArrowBufferAppendFloat (float_convert binary64 binary32 value)) ;;;
      finish_append
  | _ => mfail EINVAL
  end.
(** [((intN_t* )offset_buffer->data)[array->length]] *)
Definition last_offset (w : nat) : M array Z :=
  let* len := mget array_length in
  ArrowArrayBuffer 1 (
    let* d := mget data in
    let* d := deref d in
    deref (load_i w d (Z.of_nat w * len))).
Definition ArrowArrayAppendBytes (value : ArrowView) : M array unit :=
  let* p := get_private in
  let append_data i := ArrowArrayBuffer i (ArrowBufferAppend (view_data value) (view_size value)) in
  match private_storage_type p with
  | NANOARROW_TYPE_STRING | NANOARROW_TYPE_BINARY =>
      let* offset := last_offset 4 in
      check (i64 (offset + view_size value) <=? INT32_MAX) EOVERFLOW ;;;
      ArrowArrayBuffer 1 (ArrowBufferAppend
        (Some (le_bytes 4 (i32 (offset + i32 (view_size value))))) 4) ;;;
      append_data 2 ;;;
      finish_append
  | NANOARROW_TYPE_LARGE_STRING | NANOARROW_TYPE_LARGE_BINARY =>
      let* large_offset := last_offset 8 in
      ArrowArrayBuffer 1 (ArrowBufferAppend
        (Some (le_bytes 8 (i64 (large_offset + view_size value)))) 8) ;;;
      append_data 2 ;;;
      finish_append
  | NANOARROW_TYPE_FIXED_SIZE_BINARY =>
      let* lay := deref (layout_of p 1) in
      check (view_size value =? Z.quot lay.2 8) EINVAL ;;;
      append_data 1 ;;;
      finish_append
  | _ => mfail EINVAL
  end.
Definition ArrowArrayAppendString (value : ArrowView) : M array unit :=
  let* p := get_private in
  match private_storage_type p with
  | NANOARROW_TYPE_STRING | NANOARROW_TYPE_LARGE_STRING | NANOARROW_TYPE_BINARY
  | NANOARROW_TYPE_LARGE_BINARY => ArrowArrayAppendBytes value
  | _ => mfail EINVAL
  end.
Definition ArrowArrayAppendInterval (value : ArrowInterval) : M array unit :=
  let* p := get_private in
  let data_buffer := ArrowArrayBuffer 1 in
  let typed (t : ArrowType) (m : M array unit) :=
    check (bool_decide (interval_type value = t)) EINVAL ;;; m ;;; add_length 1 in
  match private_storage_type p with
  | NANOARROW_TYPE_INTERVAL_MONTHS =>
      typed NANOARROW_TYPE_INTERVAL_MONTHS (data_buffer (ArrowBufferAppendInt32 (months value)))
  | NANOARROW_TYPE_INTERVAL_DAY_TIME =>
      typed NANOARROW_TYPE_INTERVAL_DAY_TIME (
        data_buffer (ArrowBufferAppendInt32 (days value)) ;;;
        data_buffer (ArrowBufferAppendInt32 (ms value)))
  | NANOARROW_TYPE_INTERVAL_MONTH_DAY_NANO =>
      typed NANOARROW_TYPE_INTERVAL_MONTH_DAY_NANO (
        data_buffer (ArrowBufferAppendInt32 (months value)) ;;;
        data_buffer (ArrowBufferAppendInt32 (days value)) ;;;
        data_buffer (ArrowBufferAppendInt64 (ns value)))
  | _ => mfail EINVAL
  end.
End append.

(** ** Elements of nested arrays *)
Section finish_element.
Context `{!Libc}.

Definition child_length (i : Z) : M array Z :=
  let* c := mget (λ a, array_child a i) in
  let* c := deref c in
  mret_ (array_length c).
Definition ArrowArrayFinishElement : M array unit :=
  let* p := get_private in
  let* len := mget array_length in
  (match private_storage_type p with
   | NANOARROW_TYPE_LIST | NANOARROW_TYPE_MAP =>
       let* n := child_length 0 in
       check (n <=? INT32_MAX) EOVERFLOW ;;;
       ArrowArrayBuffer 1 (ArrowBufferAppendInt32 (i32 n))
   | NANOARROW_TYPE_LARGE_LIST =>
       let* n := child_length 0 in
       ArrowArrayBuffer 1 (ArrowBufferAppendInt64 n)
   | NANOARROW_TYPE_FIXED_SIZE_LIST =>
       let* n := child_length 0 in
       check (n =? i64 ((len + 1) * child_size_elements (private_layout p))) EINVAL
   | NANOARROW_TYPE_STRUCT =>
       let* nc := mget array_n_children in
       mfor (zseq nc) (λ i,
         let* n := child_length i in
         check (n =? i64 (len + 1)) EINVAL)
   | _ => mfail EINVAL
   end) ;;;
  finish_append.

(** A step on [array->children[i]] as a tree. *)
Definition on_child_tree (i : Z) (f : ArrowArray → outcome ArrowArray unit) : M array unit := λ a,
  match array_children a with
  | None => UB
  | Some l =>
      match znth l i with
      | Some (Some c) =>
          let put c' := put_children (array_n_children a) (Some (<[Z.to_nat i := Some c']> l)) a in
          match f c with
          | Ok _ c' => Ok tt (put c')
          | Err e c' => Err e (put c')
          | UB => UB
          end
      | _ => UB
      end
  end.
Definition ArrowArrayFinishUnionElement (type_id : Z) : M array unit :=
  let* p := get_private in
  let* len := mget array_length in
  let* nc := mget array_n_children in
  let child_index := _ArrowArrayUnionChildIndex type_id in
  check (negb ((child_index <? 0) || (nc <=? child_index))) EINVAL ;;;
  (match private_storage_type p with
   | NANOARROW_TYPE_DENSE_UNION =>
       let* n := child_length child_index in
       _NANOARROW_CHECK_RANGE n 0 INT32_MAX ;;;
       ArrowArrayBuffer 1 (ArrowBufferAppendInt32 (i32 (i32 n - 1)))
   | NANOARROW_TYPE_SPARSE_UNION =>
       mfor (zseq nc) (λ i,
         if i =? child_index then mret_ tt
         else
           let* n := child_length i in
           if n =? i64 (len + 1) then mret_ tt
           else
             check (n =? len) EINVAL ;;;
             on_child_tree i (ArrowArrayAppendEmpty 1))
   | _ => mfail EINVAL
   end) ;;;
  ArrowArrayBuffer 0 (ArrowBufferAppendInt8 (i8 type_id)) ;;;
  add_length 1.
End finish_element.
