(* ===== verification/ArrayBuild.v ===== *)
(** * The builder of flat arrays refines a list of elements

    Abstractly a flat array under construction is a list of elements, each the
    bytes of a value or a null ([column]).  [repr] relates the array to the list:
    the validity bitmap, which only exists from the first null on, the data or
    the offsets and the data, and the counters.  Every append function extends
    the list by what its arguments say, or rejects, and the functions that read
    elements find them. *)

From stdpp Require Import base numbers list option.
From S2P Require Import Prelude CInt Float Buffer Bits Bitmap Types Metadata Schema SchemaView.
From S2P Require Import ArrayView Array.
#[local] Open Scope Z_scope.
#[local] Open Scope c_scope.

(** ** Columns *)
Abbreviation column := (list (option (list Z))).
(** Elements of a fixed width, elements with offsets of a width, single bits. *)
Inductive col_kind : Set := Fixed (w : nat) | Var (w : nat) | Bits.

Definition zero_block (k : col_kind) : list Z :=
  match k with Fixed w => replicate w 0 | Var _ => [] | Bits => [0] end.
(** The bytes stored for an element. *)
Definition block (k : col_kind) (o : option (list Z)) : list Z := default (zero_block k) o.
Definition blocks (k : col_kind) (l : column) : list (list Z) := block k <$> l.
Definition block_ok (k : col_kind) (b : list Z) : Prop :=
  bytes_ok b ∧
  match k with
  | Fixed w => List.length b = w
  | Var _ => True
  | Bits => b = [0] ∨ b = [1]
  end.
Definition kind_types (k : col_kind) : list ArrowBufferType :=
  match k with
  | Fixed _ | Bits =>
      [NANOARROW_BUFFER_TYPE_VALIDITY; NANOARROW_BUFFER_TYPE_DATA; NANOARROW_BUFFER_TYPE_NONE]
  | Var _ =>
      [NANOARROW_BUFFER_TYPE_VALIDITY; NANOARROW_BUFFER_TYPE_DATA_OFFSET; NANOARROW_BUFFER_TYPE_DATA]
  end.
Definition kind_sizes (k : col_kind) : list Z :=
  match k with Fixed w | Var w => [1; 8 * Z.of_nat w; 0] | Bits => [1; 1; 0] end.
Definition kind_width (k : col_kind) : Z := match k with Fixed w | Var w => Z.of_nat w | Bits => 1 end.
Definition kind_ok (k : col_kind) : Prop :=
  match k with Fixed w => (0 < w)%nat | Var w => w = 4%nat ∨ w = 8%nat | Bits => True end.

Definition total (k : col_kind) (l : column) : Z := zlen (concat (blocks k l)).
(** The offsets of variable-size elements: [zlen l + 1] of them. *)
Definition offsets (bs : list (list Z)) : list Z :=
  (λ i, zlen (concat (take i bs))) <$> seq 0 (S (List.length bs)).
(** The sizes in bytes and in bits stay away from the limit of [int64_t]. *)
Definition small (k : col_kind) (l : column) : Prop :=
  8 * kind_width k * (zlen l + 2) + 8 * total k l + 64 <= INT64_MAX.
Definition offset_max (w : nat) : Z := if (w =? 4)%nat then INT32_MAX else INT64_MAX.

Lemma blocks_app k l1 l2 : blocks k (l1 ++ l2) = blocks k l1 ++ blocks k l2.
Proof. apply fmap_app. Qed.
Lemma length_blocks k l : List.length (blocks k l) = List.length l.
Proof. apply length_fmap. Qed.
Lemma total_app k l1 l2 : total k (l1 ++ l2) = total k l1 + total k l2.
Proof. unfold total. by rewrite blocks_app, concat_app, zlen_app. Qed.
Lemma total_nonneg k l : 0 <= total k l.
Proof. apply zlen_nonneg. Qed.
Lemma kind_width_pos k : kind_ok k → 1 <= kind_width k.
Proof. destruct k; simpl; lia. Qed.
Lemma small_app k l1 l2 : kind_ok k → small k (l1 ++ l2) → small k l1.
Proof.
  intros Hk%kind_width_pos. unfold small. rewrite total_app, zlen_app.
  pose proof (total_nonneg k l2). pose proof (zlen_nonneg l1). pose proof (zlen_nonneg l2). nia.
Qed.
Lemma offsets_snoc bs b : offsets (bs ++ [b]) = offsets bs ++ [zlen (concat bs) + zlen b].
Proof.
  unfold offsets. rewrite length_app. simpl List.length. rewrite Nat.add_1_r, (seq_S (S _)), fmap_app.
  f_equal.
  - apply list_fmap_ext. intros i x Hx. apply lookup_seq in Hx as [-> Hx]. simpl.
    by rewrite take_app_le by lia.
  - simpl. rewrite take_ge by (rewrite length_app; simpl; lia).
    by rewrite concat_app, zlen_app; simpl; rewrite app_nil_r.
Qed.
Lemma zlen_concat_le w (l : list Z) : zlen (concat (le_bytes w <$> l)) = Z.of_nat w * zlen l.
Proof.
  induction l as [|x l IH]; [unfold zlen; simpl; lia|].
  rewrite fmap_cons. cbn [concat]. rewrite zlen_app, zlen_cons, IH, zlen_le_bytes. lia.
Qed.
Lemma zlen_offsets bs : zlen (offsets bs) = zlen bs + 1.
Proof. unfold offsets, zlen. rewrite length_fmap, length_seq. lia. Qed.
Lemma total_fixed w l :
  Forall (block_ok (Fixed w)) (blocks (Fixed w) l) → total (Fixed w) l = Z.of_nat w * zlen l.
Proof.
  unfold total. induction l as [|x l IH]; intros Hl; [unfold zlen; simpl; lia|].
  apply Forall_cons_1 in Hl as [[_ Hx] Hl]. unfold blocks. rewrite fmap_cons. cbn [concat].
  rewrite zlen_app, zlen_cons. change (block (Fixed w) <$> l) with (blocks (Fixed w) l).
  rewrite IH by done. unfold zlen at 1. simpl in Hx. rewrite Hx. lia.
Qed.

(** ** Buffers that hold bytes *)
Definition holds (b : ArrowBuffer) (d : list Z) : Prop :=
  buffer_wf b ∧ contents b = d ∧ capacity_bytes b <= 2 * size_bytes b.
Lemma holds_size b d : holds b d → size_bytes b = zlen d.
Proof. intros (Hwf & <- & _). symmetry. by apply zlen_contents. Qed.
Lemma holds_init : holds ArrowBufferInit [].
Proof. split_and!; [apply buffer_wf_init|done|done]. Qed.
Lemma holds_fits b d n : holds b d → 0 <= n → 4 * (zlen d + n) <= INT64_MAX → fits b n.
Proof.
  intros Hb Hn Hmax. pose proof (holds_size _ _ Hb) as Hs. destruct Hb as (Hwf & _ & Hcap).
  pose proof (zlen_nonneg d). split; lia.
Qed.
Lemma holds_appended b d x b' : holds b d → appended b x b' → holds b' (d ++ x).
Proof.
  intros (Hwf & Hd & Hcap) (Hwf' & Hd' & Hs' & _ & Hcap' & _). pose proof (buffer_size _ Hwf).
  pose proof (zlen_nonneg x). split_and!; [done|congruence|lia].
Qed.

Section build.
Context `{!Libc}.

Definition oom {S} (e : errno) (_ : S) : Prop := e = ENOMEM.
Lemma holds_append b d src n x :
  holds b d → source_of src n x → n = zlen x → bytes_ok x → 4 * (zlen d + n) <= INT64_MAX →
  wp (ArrowBufferAppend src n) b (λ _ b', holds b' (d ++ x)) oom.
Proof.
  intros Hb Hsrc -> Hx Hmax. pose proof (zlen_nonneg x). eapply wp_mono.
  - apply append_wp; [apply Hb|eapply holds_fits; eauto|lia|done|done].
  - intros ? b'. by apply holds_appended.
  - by intros e b' [He _].
Qed.
Lemma holds_append_int b d w v :
  holds b d → 4 * (zlen d + Z.of_nat w) <= INT64_MAX →
  wp (append_int w v) b (λ _ b', holds b' (d ++ le_bytes w v)) oom.
Proof.
  intros Hb Hmax. eapply wp_mono.
  - apply append_int_wp; [apply Hb|eapply holds_fits; eauto; lia].
  - intros ? b'. by apply holds_appended.
  - by intros e b' [He _].
Qed.
Lemma holds_fill b d n :
  holds b d → 0 <= n → 4 * (zlen d + n) <= INT64_MAX →
  wp (ArrowBufferAppendFill 0 n) b (λ _ b', holds b' (d ++ replicate (Z.to_nat n) 0)) oom.
Proof.
  intros Hb Hn Hmax. eapply wp_mono.
  - apply append_fill_wp; [apply Hb|eapply holds_fits; eauto|lia|by vm_compute].
  - intros ? b'. by apply holds_appended.
  - by intros e b' [He _].
Qed.
Lemma holds_reserve b d n :
  holds b d → 0 <= n → 4 * (zlen d + n) <= INT64_MAX →
  wp (ArrowBufferReserve n) b
    (λ _ b', buffer_wf b' ∧ contents b' = d ∧ zlen d + n <= capacity_bytes b' ∧
             capacity_bytes b' <= 2 * (zlen d + n)) oom.
Proof.
  intros Hb Hn Hmax. pose proof (holds_size _ _ Hb) as Hs. pose proof Hb as (Hwf & Hd & Hcap).
  eapply wp_mono; [apply reserve_wp; [done|done|eapply holds_fits; eauto]| |by intros e b' [He _]].
  intros ? b' (? & ? & ? & ? & ? & ? & _). split_and!; try done; [congruence|lia|lia].
Qed.

(** The loop that repeats the last offset. *)
Lemma repeat_offset_wp b pre x w len n :
  holds b (pre ++ x) → zlen x = w → zlen pre = w * len → 0 <= n → 0 < w → bytes_ok x →
  4 * (zlen (pre ++ x) + w * n) <= INT64_MAX →
  wp (repeat_offset w len n) b
    (λ _ b', holds b' (pre ++ x ++ concat (replicate (Z.to_nat n) x))) oom.
Proof.
  intros Hb Hx Hpre Hn Hw Hok Hmax. pose proof (zlen_nonneg (pre ++ x)). pose proof (zlen_nonneg pre).
  assert (0 <= w * n) by nia.
  unfold repeat_offset. rewrite i64_small by width. apply wp_bind.
  eapply wp_mono; [apply holds_reserve; [done|lia|lia]| |done].
  intros ? b1 (Hwf1 & Hd1 & Hlo & Hhi).
  set (Inv := λ (idx : list Z) b', buffer_wf b' ∧
    contents b' = pre ++ x ++ concat (replicate (List.length idx) x) ∧
    capacity_bytes b' = capacity_bytes b1).
  assert (∀ j, zlen (concat (replicate j x)) = Z.of_nat j * w) as Hrep.
  { induction j as [|j IHj]; [done|]. simpl. rewrite zlen_app, IHj. lia. }
  eapply wp_mono; [apply (wp_for Inv)| |done].
  - split_and!; [done|by rewrite Hd1; simpl; rewrite app_nil_r|done].
  - intros idx j post b' Hsplit (Hwf' & Hd' & Hcap'). apply zseq_split in Hsplit as (-> & Hj & _).
    pose proof (zlen_contents _ Hwf') as Hsz. rewrite Hd', !zlen_app, Hrep in Hsz.
    rewrite !zlen_app in *.
    destruct (data_contents b' Hwf') as [rest Hdata]; [lia|]. rewrite Hd' in Hdata.
    set (j := zlen idx) in *. assert (Z.of_nat (List.length idx) = j) as Hjn by done.
    assert (∃ pre', pre ++ x ++ concat (replicate (List.length idx) x) = pre' ++ x ∧
      zlen pre' = w * (len + j)) as (pre' & Hpre' & Hlen').
    { exists (pre ++ concat (replicate (List.length idx) x)). rewrite zlen_app, Hrep. split; [|lia].
      rewrite <-app_assoc. f_equal. clear. induction (List.length idx) as [|i IHi]; [by rewrite app_nil_r|].
      simpl. rewrite <-app_assoc, <-IHi. done. }
    apply wp_bind, wp_get, wp_bind, wp_deref. eexists. split; [exact Hdata|].
    apply wp_bind, wp_deref. exists (x ++ rest). split.
    { rewrite Hpre', <-app_assoc, <-Hlen'. apply ptr_add_app. }
    assert (Z.of_nat (List.length idx) * w + w <= w * n) by nia.
    eapply wp_mono; [apply append_unsafe_wp with (d := x)| |done]; try done; [lia|lia|lia| |].
    + rewrite <-Hx. apply source_of_app.
    + intros ? b'' (Hwf'' & Hd'' & _ & Hcap'' & _). split_and!; [done| |congruence].
      rewrite Hd'', Hd', length_app. simpl. rewrite Nat.add_1_r, <-!app_assoc. do 2 f_equal.
      clear. induction (List.length idx) as [|i IHi]; [simpl; by rewrite app_nil_r|].
      simpl. rewrite <-app_assoc, IHi. done.
  - intros ? b' (Hwf' & Hd' & Hcap').
    assert (List.length (zseq n) = Z.to_nat n) as Hln by (unfold zseq; by rewrite length_fmap, length_seq).
    rewrite Hln in Hd'. split_and!; [done|done|].
    pose proof (zlen_contents _ Hwf') as Hsz. rewrite Hd', !zlen_app, Hrep in Hsz.
    rewrite !zlen_app in *. lia.
Qed.

(** ** Validity bits *)

(** No bitmap as long as there is no null. *)
Definition holds_validity (bits : list bool) (bm : ArrowBitmap) : Prop :=
  match data (buffer bm) with
  | None => bm = ArrowBitmapInit ∧ Forall (eq true) bits
  | Some _ =>
      bitmap_wf bm ∧ bitmap_bits bm = bits ∧
      capacity_bytes (buffer bm) <= 2 * size_bytes (buffer bm) + 2
  end.
Lemma zlen_bitmap_bits bm : bitmap_wf bm → zlen (bitmap_bits bm) = size_bits bm.
Proof.
  intros Hwf. unfold bitmap_bits, zlen. rewrite length_fmap. apply zlen_zseq, (bitmap_size _ Hwf).
Qed.
Lemma bytes_for_bits n : 0 <= n → n <= 8 * _ArrowBytesForBits n <= n + 7.
Proof.
  intros. rewrite BytesForBits_spec by done.
  pose proof (Z.div_mod (n + 7) 8). pose proof (Z.mod_pos_bound (n + 7) 8). lia.
Qed.
(** A bitmap that is there: the bits are appended. *)
Lemma append_some_validity_wp bits bm v n :
  holds_validity bits bm → is_Some (data (buffer bm)) → 0 < n → 8 * (zlen bits + n) + 64 <= INT64_MAX →
  wp (ArrowBitmapAppend (Z.b2z v) n) bm
    (λ _, holds_validity (bits ++ replicate (Z.to_nat n) v)) oom.
Proof.
  intros Hv [d Hd] Hn Hmax. unfold holds_validity in Hv. rewrite Hd in Hv.
  destruct Hv as (Hwf & Hbits & Hcap). pose proof (zlen_bitmap_bits _ Hwf) as Hlen.
  rewrite Hbits in Hlen. pose proof (zlen_nonneg bits).
  pose proof (bytes_for_bits (size_bits bm) ltac:(lia)). pose proof (bytes_for_bits n ltac:(lia)).
  pose proof (bitmap_bytes _ Hwf) as Hsz.
  eapply wp_mono; [apply bitmap_append_wp; [done|done|split; lia]| |done].
  intros ? bm' (Hwf' & Hb' & Hs' & [d' Hd'] & Hcap'). unfold holds_validity. rewrite Hd'.
  split_and!; [done|congruence|].
  rewrite (bitmap_bytes _ Hwf'), Hs'. rewrite Hsz in *.
  pose proof (bytes_for_bits (size_bits bm + n) ltac:(lia)). lia.
Qed.
(** The bitmap is allocated for the first null. *)
Lemma append_first_null_wp bits n :
  Forall (eq true) bits → 0 < n → 8 * (zlen bits + n) + 64 <= INT64_MAX →
  wp (ArrowBitmapReserve (i64 (zlen bits + n)) ;;; ArrowBitmapAppendUnsafe 1 (zlen bits) ;;;
      ArrowBitmapAppendUnsafe 0 n) ArrowBitmapInit
    (λ _, holds_validity (bits ++ replicate (Z.to_nat n) false)) oom.
Proof.
  intros Hall Hn Hmax. pose proof (zlen_nonneg bits) as Hpos. rewrite i64_small by width.
  assert (bitmap_wf ArrowBitmapInit) as Hinit by (split; [apply buffer_wf_init|done|done]).
  pose proof (bytes_for_bits (zlen bits + n) ltac:(lia)) as Hbytes.
  apply wp_bind. eapply wp_mono; [apply bitmap_reserve_wp; [done|lia|split; simpl; lia]| |done].
  intros ? bm1 (Hwf1 & Hb1 & Hs1 & Hr1 & Hc1). simpl in Hs1, Hr1, Hc1.
  change (bitmap_bits ArrowBitmapInit) with (@nil bool) in Hb1.
  assert (bits = replicate (Z.to_nat (zlen bits)) true) as Hrep.
  { unfold zlen. rewrite Nat2Z.id. clear -Hall. induction bits as [|x bits IH]; [done|].
    apply Forall_cons_1 in Hall as [<- Hall]. simpl. by rewrite <-IH. }
  apply wp_bind. eapply (wp_mono _ _ (λ _ bm, bitmap_wf bm ∧ bitmap_bits bm = bits ∧ size_bits bm = zlen bits ∧
    capacity_bytes (buffer bm) = capacity_bytes (buffer bm1)) _ (λ _ _, False)); [| |done].
  - destruct (Z.eq_dec (zlen bits) 0) as [Hz|Hz].
    + rewrite Hz in *. eapply wp_mono; [apply (bitmap_append_none_wp bm1 true); [done|done|lia]| |done].
      intros ? bm2 (? & Hb2 & ? & ? & _). split_and!; try done. by rewrite Hb2, Hrep.
    + eapply wp_mono; [apply (bitmap_append_unsafe_wp bm1 true); [done|lia|lia|lia]| |done].
      intros ? bm2 (? & Hb2 & ? & _ & ?). split_and!; try done; [|lia]. rewrite Hb2, Hb1. by symmetry.
  - intros ? bm2 (Hwf2 & Hb2 & Hs2 & Hc2).
    eapply wp_mono; [apply (bitmap_append_unsafe_wp bm2 false); [done|done|lia|lia]| |done].
    intros ? bm3 (Hwf3 & Hb3 & Hs3 & [d3 Hd3] & Hc3). unfold holds_validity. rewrite Hd3.
    split_and!; [done|congruence|]. rewrite (bitmap_bytes _ Hwf3), Hs3, Hs2. lia.
Qed.

(** ** Boolean data *)
Definition holds_bits (bits : list bool) (b : ArrowBuffer) : Prop :=
  bitmap_wf (MkBitmap b (zlen bits)) ∧ bitmap_bits (MkBitmap b (zlen bits)) = bits ∧
  capacity_bytes b <= 2 * size_bytes b.

Lemma bitf_contents b j :
  0 <= j < 8 * size_bytes b → bitf (default [] (data b)) j = bitf (contents b) j.
Proof. intros. unfold contents. by rewrite bitf_take. Qed.
Lemma bitf_app l1 l2 j : 0 <= j < 8 * zlen l1 → bitf (l1 ++ l2) j = bitf l1 j.
Proof.
  intros. rewrite <-(bitf_take (l1 ++ l2) (zlen l1)) by done. f_equal.
  unfold zlen. by rewrite Nat2Z.id, take_app_length.
Qed.
Lemma bits_as_fmap bits : bits = (λ j, default false (znth bits j)) <$> zseq (zlen bits).
Proof.
  apply list_eq. intros i. rewrite list_lookup_fmap. unfold zseq. rewrite list_lookup_fmap.
  unfold zlen. rewrite Nat2Z.id. destruct (bits !! i) as [x|] eqn:Hi.
  - rewrite lookup_seq_lt by (by eapply lookup_lt_Some). simpl. rewrite znth_lookup, Nat2Z.id, Hi by lia. done.
  - by rewrite lookup_seq_ge by (by apply lookup_ge_None).
Qed.
Lemma set_bit_wp b len v (f : Z → bool) :
  buffer_wf b → 0 <= len → size_bytes b = _ArrowBytesForBits (len + 1) →
  (∀ j, 0 <= j < len → bitf (default [] (data b)) j = f j) →
  wp (upd_data (λ d, ArrowBitsSetTo d len 1 (Z.b2z v))) b
    (λ _ b', bitmap_wf (MkBitmap b' (len + 1)) ∧
             bitmap_bits (MkBitmap b' (len + 1)) = (f <$> zseq len) ++ [v] ∧
             capacity_bytes b' = capacity_bytes b ∧ size_bytes b' = size_bytes b)
    (λ _ _, False).
Proof.
  intros Hwf Hlen Hsz Hf. pose proof (buffer_block _ Hwf) as Hblk. pose proof (buffer_size _ Hwf) as Hs.
  pose proof (bytes_for_bits (len + 1) ltac:(lia)).
  unfold wp, upd_data. destruct (data b) as [d|] eqn:Hd; [|lia]. destruct Hblk as [Hl Hok].
  destruct (ArrowBitsSetTo_sets d len 1 v) as (d' & -> & Hl' & Hok' & Hbits); [done|done|lia|lia|].
  split_and!; [| |done|done].
  - split; simpl; [split; simpl|lia|done]; [lia|]. split; [congruence|done].
  - unfold bitmap_bits. simpl. rewrite zseq_succ, fmap_app by done. simpl in Hf. f_equal.
    + apply list_fmap_ext. intros i j Hj. apply list_elem_of_lookup_2, elem_of_zseq in Hj.
      rewrite Hbits by lia. destruct (Z.leb_spec len j); [lia|]. simpl. by apply Hf.
    + simpl. rewrite Hbits by lia. destruct (Z.leb_spec len len), (Z.ltb_spec len (len + 1)); done || lia.
Qed.
Lemma append_bit_wp bits b v :
  holds_bits bits b → 8 * (zlen bits + 2) + 64 <= INT64_MAX →
  wp (let* size := mget size_bytes in
      (if size <? _ArrowBytesForBits (zlen bits + 1)
       then ArrowBufferAppendFill 0 (_ArrowBytesForBits (zlen bits + 1) - size) else mret_ tt) ;;;
      upd_data (λ d, ArrowBitsSetTo d (zlen bits) 1 (Z.b2z v))) b
    (λ _, holds_bits (bits ++ [v])) oom.
Proof.
  intros ([Hwf Hs Hsz] & Hbits & Hcap) Hmax. simpl in Hs, Hsz, Hwf.
  pose proof (bytes_for_bits (zlen bits) Hs). pose proof (bytes_for_bits (zlen bits + 1) ltac:(lia)).
  apply wp_bind, wp_get, wp_bind.
  eapply (wp_mono _ _ (λ _ b', buffer_wf b' ∧ size_bytes b' = _ArrowBytesForBits (zlen bits + 1) ∧
    capacity_bytes b' <= 2 * size_bytes b' ∧
    ∀ j, 0 <= j < zlen bits → bitf (default [] (data b')) j = default false (znth bits j)) _ oom); [| |done].
  - assert (∀ j, 0 <= j < zlen bits → bitf (contents b) j = default false (znth bits j)) as Hold.
    { intros j Hj. rewrite <-bitf_contents by lia. rewrite <-Hbits at 1. unfold bitmap_bits. simpl.
      rewrite znth_lookup, list_lookup_fmap by lia. unfold zseq. rewrite list_lookup_fmap, lookup_seq_lt by lia.
      simpl. f_equal. lia. }
    destruct (Z.ltb_spec (size_bytes b) (_ArrowBytesForBits (zlen bits + 1))).
    + eapply wp_mono; [apply (holds_fill b (contents b)); [by split_and!|lia|]| |done].
      { rewrite zlen_contents by done. lia. }
      intros ? b' Hb'. pose proof (holds_size _ _ Hb') as Hsz'. destruct Hb' as (Hwf' & Hct' & Hcap').
      rewrite zlen_app, zlen_replicate, zlen_contents in Hsz' by (done || lia).
      split_and!; [done|lia|done|]. intros j Hj. rewrite bitf_contents, Hct' by lia.
      rewrite bitf_app by (rewrite zlen_contents by done; lia). by apply Hold.
    + apply wp_ret. split_and!; [done|lia|done|]. intros j Hj. rewrite bitf_contents by lia. by apply Hold.
  - intros ? b1 (Hwf1 & Hsz1 & Hcap1 & Hf1).
    eapply wp_mono; [by apply (set_bit_wp _ _ _ (λ j, default false (znth bits j)))| |done].
    intros ? b' (Hwf' & Hb' & Hc' & Hs').
    unfold holds_bits. rewrite zlen_app, zlen_cons, zlen_nil, Z.add_0_r. split_and!; [done| |congruence].
    rewrite Hb'. f_equal. symmetry. apply bits_as_fmap.
Qed.
End build.

(** ** Representation *)
Definition is_valid (o : option (list Z)) : bool := match o with Some _ => true | None => false end.
Definition nulls (l : column) : Z := zlen (List.filter (λ o, negb (is_valid o)) l).
Definition holds_data (k : col_kind) (l : column) (b1 b2 : ArrowBuffer) : Prop :=
  match k with
  | Fixed w => holds b1 (concat (blocks k l))
  | Var w =>
      holds b1 (concat (le_bytes w <$> offsets (blocks k l))) ∧ holds b2 (concat (blocks k l)) ∧
      total k l <= offset_max w
  | Bits => holds_bits ((λ b, bool_decide (b = [1])) <$> blocks k l) b1
  end.
(** An array without children: its members, private data included. *)
Definition flat (st : ArrowType) (lay : ArrowLayout) (flag nb : Z) (ptrs : list (option (list Z)))
    (len nulls : Z) (bm : ArrowBitmap) (b1 b2 : ArrowBuffer) : array :=
  MkArray len nulls 0 nb 0 ptrs None None (Some (MkPrivate bm [b1; b2] st lay flag)).
Inductive repr (st : ArrowType) (k : col_kind) (l : column) : array → Prop :=
  | repr_flat lay flag nb ptrs bm b1 b2 :
      buffer_type lay = kind_types k → element_size_bits lay = kind_sizes k →
      holds_validity (is_valid <$> l) bm → holds_data k l b1 b2 → Forall (block_ok k) (blocks k l) →
      repr st k l (flat st lay flag nb ptrs (zlen l) (nulls l) bm b1 b2).

(** The storage types and how their elements are stored. *)
Definition storage_kind (st : ArrowType) (k : col_kind) : Prop :=
  match st with
  | NANOARROW_TYPE_INT8 | NANOARROW_TYPE_UINT8 => k = Fixed 1
  | NANOARROW_TYPE_INT16 | NANOARROW_TYPE_UINT16 => k = Fixed 2
  | NANOARROW_TYPE_INT32 | NANOARROW_TYPE_UINT32 | NANOARROW_TYPE_FLOAT => k = Fixed 4
  | NANOARROW_TYPE_INT64 | NANOARROW_TYPE_UINT64 | NANOARROW_TYPE_DOUBLE => k = Fixed 8
  | NANOARROW_TYPE_DECIMAL128 => k = Fixed 16
  | NANOARROW_TYPE_DECIMAL256 => k = Fixed 32
  | NANOARROW_TYPE_FIXED_SIZE_BINARY => ∃ w, (0 < w)%nat ∧ k = Fixed w
  | NANOARROW_TYPE_STRING | NANOARROW_TYPE_BINARY => k = Var 4
  | NANOARROW_TYPE_LARGE_STRING | NANOARROW_TYPE_LARGE_BINARY => k = Var 8
  | NANOARROW_TYPE_BOOL => k = Bits
  | _ => False
  end.
Lemma storage_kind_ok st k : storage_kind st k → kind_ok k.
Proof. destruct st; simpl; try done; try (intros ->; simpl; lia). by intros (w & ? & ->). Qed.

(** ** What an append adds, or why it is rejected *)
Definition int_bounds (st : ArrowType) : option (Z * Z * nat) :=
  match st with
  | NANOARROW_TYPE_INT8 => Some (INT8_MIN, INT8_MAX, 1%nat)
  | NANOARROW_TYPE_INT16 => Some (INT16_MIN, INT16_MAX, 2%nat)
  | NANOARROW_TYPE_INT32 => Some (INT32_MIN, INT32_MAX, 4%nat)
  | NANOARROW_TYPE_INT64 => Some (INT64_MIN, INT64_MAX, 8%nat)
  | NANOARROW_TYPE_UINT8 => Some (0, UINT8_MAX, 1%nat)
  | NANOARROW_TYPE_UINT16 => Some (0, UINT16_MAX, 2%nat)
  | NANOARROW_TYPE_UINT32 => Some (0, UINT32_MAX, 4%nat)
  | NANOARROW_TYPE_UINT64 => Some (0, UINT64_MAX, 8%nat)
  | _ => None
  end.
Definition encode_int (st : ArrowType) (v : Z) : errno + list Z :=
  match int_bounds st with
  | Some (lo, hi, w) => if (lo <=? v) && (v <=? hi) then inr (le_bytes w v) else inl EINVAL
  | None =>
      match st with
      | NANOARROW_TYPE_DOUBLE => inr (le_bytes 8 (float_of_Z binary64 v))
      | NANOARROW_TYPE_FLOAT => inr (le_bytes 4 (float_of_Z binary32 v))
      | NANOARROW_TYPE_BOOL => inr [if v =? 0 then 0 else 1]
      | _ => inl EINVAL
      end
  end.
Definition encode_double (st : ArrowType) (v : Z) : errno + list Z :=
  match st with
  | NANOARROW_TYPE_DOUBLE => inr (le_bytes 8 v)
  | NANOARROW_TYPE_FLOAT => inr (le_bytes 4 (float_convert binary64 binary32 v))
  | _ => inl EINVAL
  end.
Definition encode_bytes (st : ArrowType) (k : col_kind) (l : column) (d : list Z) : errno + list Z :=
  match st, k with
  | NANOARROW_TYPE_FIXED_SIZE_BINARY, Fixed w => if zlen d =? Z.of_nat w then inr d else inl EINVAL
  | _, Var 4 => if total k l + zlen d <=? INT32_MAX then inr d else inl EOVERFLOW
  | _, Var _ => inr d
  | _, _ => inl EINVAL
  end.
Definition encode_string (st : ArrowType) (k : col_kind) (l : column) (d : list Z) : errno + list Z :=
  match k with Var _ => encode_bytes st k l d | _ => inl EINVAL end.

Inductive build_op : Set :=
  | BInt (v : Z) | BUInt (v : Z) | BDouble (v : Z) | BBytes (d : list Z) | BString (d : list Z)
  | BNull (n : Z) | BEmpty (n : Z).
(** The arguments have the types of the parameters; several nulls or empty
    values at once are not appended to booleans, see [append_bits_overrun]. *)
Definition build_op_ok (k : col_kind) (op : build_op) : Prop :=
  match op with
  | BInt v => INT64_MIN <= v <= INT64_MAX
  | BUInt v => 0 <= v <= UINT64_MAX
  | BDouble v => 0 <= v < 2 ^ 64
  | BBytes d | BString d => bytes_ok d
  | BNull n | BEmpty n => 0 <= n ∧ (k = Bits → n <= 1)
  end.
Definition one (r : errno + list Z) : errno + column :=
  match r with inl e => inl e | inr x => inr [Some x] end.
Definition build_spec (st : ArrowType) (k : col_kind) (l : column) (op : build_op) : errno + column :=
  match op with
  | BInt v | BUInt v => one (encode_int st v)
  | BDouble v => one (encode_double st v)
  | BBytes d => one (encode_bytes st k l d)
  | BString d => one (encode_string st k l d)
  | BNull n => inr (replicate (Z.to_nat n) None)
  | BEmpty n => inr (replicate (Z.to_nat n) (Some (zero_block k)))
  end.

Section ops.
Context `{!Libc}.
Context (st : ArrowType) (lay : ArrowLayout) (flag nb : Z) (ptrs : list (option (list Z))).
Context (k : col_kind).
Context (Htypes : buffer_type lay = kind_types k) (Hsizes : element_size_bits lay = kind_sizes k).
Context (Hkind : storage_kind st k).
Abbreviation arr := (flat st lay flag nb ptrs).

Lemma wp_buffer1 {A} len nl bm b1 b2 (m : M ArrowBuffer A) Q E :
  wp m b1 (λ x b', Q x (arr len nl bm b' b2)) (λ e b', E e (arr len nl bm b' b2)) →
  wp (ArrowArrayBuffer 1 m) (arr len nl bm b1 b2) Q E.
Proof. unfold wp. cbn. unfold zoom, on_private_buffer. cbn.
  change (znth [b1; b2] (1 - 1)) with (Some b1). unfold zoom. by destruct (m b1).
Qed.
Lemma wp_buffer2 {A} len nl bm b1 b2 (m : M ArrowBuffer A) Q E :
  wp m b2 (λ x b', Q x (arr len nl bm b1 b')) (λ e b', E e (arr len nl bm b1 b')) →
  wp (ArrowArrayBuffer 2 m) (arr len nl bm b1 b2) Q E.
Proof. unfold wp. cbn. unfold zoom, on_private_buffer. cbn.
  change (znth [b1; b2] (2 - 1)) with (Some b2). unfold zoom. by destruct (m b2).
Qed.
Lemma wp_bitmap {A} len nl bm b1 b2 (m : M ArrowBitmap A) Q E :
  wp m bm (λ x bm', Q x (arr len nl bm' b1 b2)) (λ e bm', E e (arr len nl bm' b1 b2)) →
  wp (ArrowArrayValidityBitmap m) (arr len nl bm b1 b2) Q E.
Proof. unfold wp. cbn. unfold zoom. simpl. by destruct (m bm). Qed.
Lemma wp_private {A} len nl bm b1 b2 (m : ArrowArrayPrivateData → M array A) Q E :
  wp (m (MkPrivate bm [b1; b2] st lay flag)) (arr len nl bm b1 b2) Q E →
  wp (let* p := get_private in m p) (arr len nl bm b1 b2) Q E.
Proof. done. Qed.

Lemma nulls_app l1 l2 : nulls (l1 ++ l2) = nulls l1 + nulls l2.
Proof. unfold nulls. by rewrite filter_app, zlen_app. Qed.
Lemma small_length l : small k l → 8 * (zlen l + 2) + 64 <= INT64_MAX.
Proof.
  intros Hs. pose proof (kind_width_pos k (storage_kind_ok _ _ Hkind)). unfold small in Hs.
  pose proof (total_nonneg k l). pose proof (zlen_nonneg l). nia.
Qed.
Lemma small_total l o :
  small k (l ++ [o]) → 4 * (total k l + zlen (block k o)) <= INT64_MAX.
Proof.
  intros Hs. pose proof (kind_width_pos k (storage_kind_ok _ _ Hkind)) as Hw. unfold small in Hs.
  rewrite total_app in Hs. pose proof (zlen_nonneg (l ++ [o])). pose proof (total_nonneg k l).
  assert (total k [o] = zlen (block k o)) as Ht by (unfold total; simpl; by rewrite app_nil_r).
  pose proof (zlen_nonneg (block k o)).
  assert (0 <= 8 * kind_width k * (zlen (l ++ [o]) + 2)) by nia. lia.
Qed.
(** The end of an append, once the data is there. *)
Lemma finish_append_wp l x bm b1 b2 :
  holds_validity (is_valid <$> l) bm → holds_data k (l ++ [Some x]) b1 b2 →
  Forall (block_ok k) (blocks k l) → block_ok k x → small k (l ++ [Some x]) →
  wp finish_append (arr (zlen l) (nulls l) bm b1 b2) (λ _, repr st k (l ++ [Some x])) oom.
Proof.
  intros Hv Hd Hl Hx Hs. apply small_length in Hs. rewrite zlen_app, zlen_cons, zlen_nil in Hs.
  pose proof (zlen_nonneg l).
  assert (∀ bm', holds_validity (is_valid <$> (l ++ [Some x])) bm' →
    repr st k (l ++ [Some x]) (arr (i64 (zlen l + 1)) (nulls l) bm' b1 b2)) as Hrepr.
  { intros bm' Hv'. rewrite i64_small by width.
    replace (zlen l + 1) with (zlen (l ++ [Some x])) by (by rewrite zlen_app).
    replace (nulls l) with (nulls (l ++ [Some x])) by (rewrite nulls_app; change (nulls [Some x]) with 0; lia).
    constructor; try done. rewrite blocks_app. apply Forall_app. split; [done|]. by constructor. }
  unfold finish_append. apply wp_private. cbn [bitmap].
  pose proof Hv as Hv0. unfold holds_validity in Hv. destruct (data (buffer bm)) as [d|] eqn:Ed.
  - apply wp_bind, wp_bitmap. eapply wp_mono.
    + apply (append_some_validity_wp (is_valid <$> l) bm true 1); [done|by eexists|lia|].
      unfold zlen. rewrite length_fmap. unfold zlen in Hs. lia.
    + intros ? bm' Hbm'. apply wp_mod. simpl. apply Hrepr. by rewrite fmap_app.
    + done.
  - destruct Hv as [-> Hall]. apply wp_bind, wp_ret, wp_mod. apply Hrepr.
    unfold holds_validity. simpl. split; [done|]. rewrite fmap_app. apply Forall_app. split; [done|by constructor].
Qed.

(** What holds of an array before an append. *)
Section step.
Context (l : column) (bm : ArrowBitmap) (b1 b2 : ArrowBuffer).
Context (Hv : holds_validity (is_valid <$> l) bm) (Hd : holds_data k l b1 b2).
Context (Hl : Forall (block_ok k) (blocks k l)).
Abbreviation a := (arr (zlen l) (nulls l) bm b1 b2).
Definition step_spec (m : M array unit) (r : errno + column) : Prop :=
  (∀ x, r = inr x → small k (l ++ x)) →
  wp m a (λ _ a', ∃ x, r = inr x ∧ repr st k (l ++ x) a') (λ e _, e = ENOMEM ∨ r = inl e).

Lemma step_ok m x : (small k (l ++ x) → wp m a (λ _, repr st k (l ++ x)) oom) → step_spec m (inr x).
Proof.
  intros Hm Hs. eapply wp_mono; [by apply Hm, Hs| |by left]. intros ? a' Ha. eauto.
Qed.
Lemma step_reject m e : (m a = Err e a) → step_spec m (inl e).
Proof. intros Hm _. unfold wp. rewrite Hm. by right. Qed.

(** Data of a fixed width. *)
Lemma fixed_data_wp (m : M ArrowBuffer unit) w x :
  k = Fixed w → block_ok k x →
  (∀ b d, holds b d → 4 * (zlen d + zlen x) <= INT64_MAX → wp m b (λ _ b', holds b' (d ++ x)) oom) →
  step_spec (ArrowArrayBuffer 1 m ;;; finish_append) (inr [Some x]).
Proof.
  intros Hk Hx Hm. apply step_ok. intros Hs. apply wp_bind, wp_buffer1.
  assert (holds b1 (concat (blocks k l))) as Hb1 by (by rewrite Hk in *).
  eapply wp_mono; [apply (Hm _ _ Hb1)| |done].
  - change (zlen (concat (blocks k l))) with (total k l). by apply (small_total l (Some x)).
  - intros ? b1' Hb1'. apply finish_append_wp; try done. rewrite Hk in *. simpl.
    rewrite blocks_app, concat_app. simpl. by rewrite app_nil_r.
Qed.
Lemma fixed_int_wp w v :
  k = Fixed w → step_spec (ArrowArrayBuffer 1 (append_int w v) ;;; finish_append) (inr [Some (le_bytes w v)]).
Proof.
  intros Hk. apply (fixed_data_wp _ w); [done| |].
  - rewrite Hk. split; [apply le_bytes_ok|apply length_le_bytes].
  - intros b d Hb Hmax. rewrite zlen_le_bytes in Hmax. by apply holds_append_int.
Qed.
Lemma step_check (b : bool) m r :
  (b = true → step_spec m r) → (b = false → r = inl EINVAL) → step_spec (check b EINVAL ;;; m) r.
Proof.
  intros Ht Hf. destruct b; [by apply Ht|]. rewrite Hf by done. by apply step_reject.
Qed.
Lemma bool_data_wp v :
  k = Bits → step_spec (_ArrowArrayAppendBits 1 (if v =? 0 then 0 else 1) 1 ;;; finish_append)
    (inr [Some [if v =? 0 then 0 else 1]]).
Proof.
  intros Hk. apply step_ok. intros Hs. pose proof (small_length _ Hs) as Hlen.
  rewrite zlen_app, zlen_cons, zlen_nil in Hlen. pose proof (zlen_nonneg l).
  set (x := [if v =? 0 then 0 else 1]) in *.
  set (bits := (λ b, bool_decide (b = [1])) <$> blocks k l).
  assert (zlen bits = zlen l) as Hbl by (unfold bits, zlen; by rewrite length_fmap, length_blocks).
  assert (holds_bits bits b1) as Hb1 by (unfold bits; clear -Hd Hk; rewrite Hk in *; exact Hd).
  apply wp_bind. unfold _ArrowArrayAppendBits. apply wp_private, wp_bind, wp_get.
  change (array_length a) with (zlen l).
  apply wp_bind, wp_deref. exists (NANOARROW_BUFFER_TYPE_DATA, 1). split.
  { unfold layout_of. simpl. by rewrite Htypes, Hsizes, Hk. }
  apply wp_buffer1. cbn [snd]. rewrite Z.mul_1_l, i64_small by width.
  rewrite RoundUp_spec by width. rewrite Z.quot_mul by lia.
  rewrite <-BytesForBits_spec by lia. rewrite <-Hbl.
  assert ((if v =? 0 then 0 else 1) = Z.b2z (bool_decide (x = [1]))) as ->
    by (unfold x; by destruct (v =? 0)).
  eapply wp_mono; [apply (append_bit_wp bits b1 (bool_decide (x = [1]))); [exact Hb1|lia]| |done].
  intros ? b1' Hb1'. rewrite Hbl. apply finish_append_wp; try done.
  - unfold bits in Hb1'. clear -Hb1' Hk. rewrite Hk in *. unfold holds_data.
    rewrite blocks_app, fmap_app. exact Hb1'.
  - rewrite Hk. split; [repeat constructor; destruct (v =? 0); by vm_compute|].
    unfold x. destruct (v =? 0); auto.
Qed.
End step.
End ops.

(** The array [flat st lay ..] represents [l]. *)
Record before (st : ArrowType) (lay : ArrowLayout) (k : col_kind) (l : column) (bm : ArrowBitmap)
    (b1 b2 : ArrowBuffer) : Prop := {
  before_types : buffer_type lay = kind_types k;
  before_sizes : element_size_bits lay = kind_sizes k;
  before_kind : storage_kind st k;
  before_validity : holds_validity (is_valid <$> l) bm;
  before_data : holds_data k l b1 b2;
  before_blocks : Forall (block_ok k) (blocks k l);
}.

Section int_ops.
Context `{!Libc}.
Context (lay : ArrowLayout) (flag nb : Z) (ptrs : list (option (list Z))).
Context (l : column) (bm : ArrowBitmap) (b1 b2 : ArrowBuffer).
Abbreviation steps st k := (step_spec st lay flag nb ptrs k l bm b1 b2).

Lemma step_private st k (m : ArrowArrayPrivateData → M array unit) r :
  steps st k (m (MkPrivate bm [b1; b2] st lay flag)) r → steps st k (let* p := get_private in m p) r.
Proof. done. Qed.
Lemma int_step st k w v :
  before st lay k l bm b1 b2 → k = Fixed w →
  steps st k (ArrowArrayBuffer 1 (append_int w v) ;;; finish_append) (inr [Some (le_bytes w v)]).
Proof. intros [] ?. by apply fixed_int_wp. Qed.
Lemma fixed_step st k (m : M ArrowBuffer unit) w x :
  before st lay k l bm b1 b2 → k = Fixed w → block_ok k x →
  (∀ b d, holds b d → 4 * (zlen d + zlen x) <= INT64_MAX → wp m b (λ _ b', holds b' (d ++ x)) oom) →
  steps st k (ArrowArrayBuffer 1 m ;;; finish_append) (inr [Some x]).
Proof. intros [] ???. by eapply fixed_data_wp. Qed.
(** A range check and the narrowing to the width of the type. *)
Lemma narrow_int_step st k w lo hi v v' :
  before st lay k l bm b1 b2 → k = Fixed w → (lo <= v <= hi → v' = v) →
  steps st k
    (_NANOARROW_CHECK_RANGE v lo hi ;;; ArrowArrayBuffer 1 (append_int w v') ;;; finish_append)
    (one (if (lo <=? v) && (v <=? hi) then inr (le_bytes w v) else inl EINVAL)).
Proof.
  intros Hb Hk Hv'. apply step_check; [|by intros ->].
  intros Hin. rewrite Hin. zbool. rewrite Hv' by lia. by apply int_step.
Qed.
Lemma narrow_uint_step st k w hi v v' :
  before st lay k l bm b1 b2 → k = Fixed w → 0 <= v → (v <= hi → v' = v) →
  steps st k
    (_NANOARROW_CHECK_UPPER_LIMIT v hi ;;; ArrowArrayBuffer 1 (append_int w v') ;;; finish_append)
    (one (if (0 <=? v) && (v <=? hi) then inr (le_bytes w v) else inl EINVAL)).
Proof.
  intros Hb Hk Hv Hv'. destruct (Z.leb_spec 0 v); [|lia]. apply step_check; [|by intros ->].
  intros Hin. rewrite Hin. zbool. rewrite Hv' by lia. by apply int_step.
Qed.
Lemma bool_step st k v :
  before st lay k l bm b1 b2 → k = Bits →
  steps st k (_ArrowArrayAppendBits 1 (if v =? 0 then 0 else 1) 1 ;;; finish_append)
    (inr [Some [if v =? 0 then 0 else 1]]).
Proof. intros [] ?. by apply bool_data_wp. Qed.

(** The two functions on the types they handle themselves, [rest] for the
    others. *)
Definition is_unsigned (st : ArrowType) : bool :=
  match st with
  | NANOARROW_TYPE_UINT8 | NANOARROW_TYPE_UINT16 | NANOARROW_TYPE_UINT32 | NANOARROW_TYPE_UINT64 => true
  | _ => false
  end.
Definition is_signed (st : ArrowType) : bool :=
  match st with
  | NANOARROW_TYPE_INT8 | NANOARROW_TYPE_INT16 | NANOARROW_TYPE_INT32 | NANOARROW_TYPE_INT64 => true
  | _ => false
  end.
Ltac solve_narrow := (unfold i8, i16, u8, u16, u32; intros; apply swrap_small || apply uwrap_small); width.
Lemma append_int_own_step st k v rest :
  before st lay k l bm b1 b2 → INT64_MIN <= v <= INT64_MAX → is_unsigned st = false →
  steps st k (append_int_with rest v) (one (encode_int st v)).
Proof.
  intros Hb Hv Hu. unfold append_int_with. apply step_private. pose proof (before_kind _ _ _ _ _ _ _ Hb) as Hk.
  destruct st; simpl in Hk, Hu; try done; try (by apply step_reject); cbn [private_storage_type].
  - by apply bool_step.
  - apply narrow_int_step; [done|done|]. solve_narrow.
  - apply narrow_int_step; [done|done|]. solve_narrow.
  - apply narrow_int_step; [done|done|]. apply i32_small.
  - unfold encode_int. simpl int_bounds. cbv iota beta.
    destruct (Z.leb_spec INT64_MIN v), (Z.leb_spec v INT64_MAX); try lia. by apply int_step.
  - by apply int_step.
  - by apply int_step.
Qed.
Lemma append_uint_own_step st k v rest :
  before st lay k l bm b1 b2 → 0 <= v <= UINT64_MAX → is_signed st = false →
  steps st k (append_uint_with rest v) (one (encode_int st v)).
Proof.
  intros Hb Hv Hu. unfold append_uint_with. apply step_private. pose proof (before_kind _ _ _ _ _ _ _ Hb) as Hk.
  destruct st; simpl in Hk, Hu; try done; try (by apply step_reject); cbn [private_storage_type].
  - by apply bool_step.
  - apply narrow_uint_step; [done|done|lia|]. solve_narrow.
  - apply narrow_uint_step; [done|done|lia|]. solve_narrow.
  - apply narrow_uint_step; [done|done|lia|]. solve_narrow.
  - unfold encode_int. simpl int_bounds. cbv iota beta.
    destruct (Z.leb_spec 0 v), (Z.leb_spec v UINT64_MAX); try lia. by apply int_step.
  - by apply int_step.
  - by apply int_step.
Qed.

Lemma append_int_step st k v :
  before st lay k l bm b1 b2 → INT64_MIN <= v <= INT64_MAX →
  steps st k (ArrowArrayAppendInt v) (one (encode_int st v)).
Proof.
  intros Hb Hv. unfold ArrowArrayAppendInt. destruct (is_unsigned st) eqn:Hu; [|by apply append_int_own_step].
  assert (is_signed st = false) as Hs by (by destruct st).
  assert (steps st k (_NANOARROW_CHECK_RANGE v 0 INT64_MAX ;;;
    append_uint_with (λ _, mundef) (u64 v)) (one (encode_int st v))) as Hstep.
  { apply step_check.
    - intros Hin. zbool. unfold u64. rewrite uwrap_small by width.
      apply append_uint_own_step; [done|width|done].
    - intros Hout. destruct (Z.leb_spec 0 v), (Z.leb_spec v INT64_MAX); try done; try lia.
      destruct st; try done; unfold encode_int; simpl; destruct (Z.leb_spec 0 v); done || lia. }
  unfold append_int_with. apply step_private. by destruct st.
Qed.
Lemma append_uint_step st k v :
  before st lay k l bm b1 b2 → 0 <= v <= UINT64_MAX →
  steps st k (ArrowArrayAppendUInt v) (one (encode_int st v)).
Proof.
  intros Hb Hv. unfold ArrowArrayAppendUInt. destruct (is_signed st) eqn:Hs; [|by apply append_uint_own_step].
  assert (is_unsigned st = false) as Hu by (by destruct st).
  assert (steps st k (_NANOARROW_CHECK_UPPER_LIMIT v INT64_MAX ;;;
    append_int_with (λ _, mundef) (i64 v)) (one (encode_int st v))) as Hstep.
  { apply step_check.
    - intros Hin. zbool. rewrite i64_small by width. apply append_int_own_step; [done|width|done].
    - intros Hout. zbool. destruct st; try done; unfold encode_int; simpl int_bounds; cbv iota beta;
        match goal with |- context [v <=? ?hi] => destruct (Z.leb_spec v hi) end;
        rewrite ?andb_false_r; try done; exfalso; width. }
  unfold append_uint_with. apply step_private. by destruct st.
Qed.
Lemma append_double_step st k v :
  before st lay k l bm b1 b2 → steps st k (ArrowArrayAppendDouble v) (one (encode_double st v)).
Proof.
  intros Hb. unfold ArrowArrayAppendDouble. apply step_private. pose proof (before_kind _ _ _ _ _ _ _ Hb) as Hk.
  destruct st; simpl in Hk; try done; try (by apply step_reject); by apply int_step.
Qed.

(** *** Bytes *)
Lemma offsets_last bs : ∃ pre, offsets bs = pre ++ [zlen (concat bs)] ∧ zlen pre = zlen bs.
Proof.
  unfold offsets. rewrite seq_S, fmap_app. eexists. split; [simpl; by rewrite take_ge by lia|].
  unfold zlen. by rewrite length_fmap, length_seq.
Qed.
Lemma last_offset_wp st k w :
  before st lay k l bm b1 b2 → k = Var w →
  wp (last_offset w) (flat st lay flag nb ptrs (zlen l) (nulls l) bm b1 b2)
    (λ x a', x = total k l ∧ a' = flat st lay flag nb ptrs (zlen l) (nulls l) bm b1 b2) (λ _ _, False).
Proof.
  intros Hb Hk. pose proof (storage_kind_ok _ _ (before_kind _ _ _ _ _ _ _ Hb)) as Hok.
  pose proof (before_data _ _ _ _ _ _ _ Hb) as Hd. rewrite Hk in Hd, Hok |- *. simpl in Hok.
  destruct Hd as (Hb1 & _ & Hmax).
  destruct (offsets_last (blocks (Var w) l)) as (pre & Hpre & Hlen).
  pose proof (holds_size _ _ Hb1) as Hsz. rewrite zlen_concat_le, zlen_offsets in Hsz.
  assert (zlen (blocks (Var w) l) = zlen l) as Hbl by (unfold zlen; by rewrite length_blocks).
  pose proof (zlen_nonneg l) as Hpos. destruct Hb1 as (Hwf & Hct & _). pose proof (buffer_size _ Hwf).
  destruct (data_contents b1 Hwf) as [post Hdata]; [rewrite Hbl in Hsz; nia|].
  unfold last_offset. apply wp_bind, wp_get. change (array_length _) with (zlen l).
  apply wp_buffer1, wp_bind, wp_get, wp_bind, wp_deref. eexists. split; [exact Hdata|].
  apply wp_deref. exists (total (Var w) l). split; [|done].
  rewrite Hct, Hpre, fmap_app, concat_app. simpl. rewrite app_nil_r, <-app_assoc.
  replace (Z.of_nat w * zlen l) with (zlen (concat (le_bytes w <$> pre))) by (rewrite zlen_concat_le; lia).
  apply load_i_app; [destruct Hok; lia|]. fold (total (Var w) l). pose proof (total_nonneg (Var w) l).
  unfold offset_max in Hmax. destruct Hok as [-> | ->]; simpl in Hmax; width.
Qed.
(** The new offset and the bytes of the element. *)
Lemma var_step st k w d o :
  before st lay k l bm b1 b2 → k = Var w → bytes_ok d → total k l + zlen d <= offset_max w →
  o = total k l + zlen d →
  steps st k (ArrowArrayBuffer 1 (append_int w o) ;;;
              ArrowArrayBuffer 2 (ArrowBufferAppend (Some d) (zlen d)) ;;; finish_append) (inr [Some d]).
Proof.
  intros Hb Hk Hd Hmax ->. apply step_ok. intros Hs.
  pose proof (before_kind _ _ _ _ _ _ _ Hb) as Hst. pose proof (storage_kind_ok _ _ Hst) as Hok.
  pose proof (before_data _ _ _ _ _ _ _ Hb) as Hdat. rewrite Hk in Hdat, Hok. simpl in Hok.
  destruct Hdat as (Hb1 & Hb2 & Hmax').
  assert (zlen (blocks (Var w) l) = zlen l) as Hbl by (unfold zlen; by rewrite length_blocks).
  pose proof (small_total st k Hst l (Some d) Hs) as Ht. simpl in Ht.
  assert (8 * Z.of_nat w * (zlen l + 2) <= INT64_MAX) as Hw.
  { unfold small in Hs. rewrite Hk, zlen_app, zlen_cons, zlen_nil in Hs. simpl in Hs.
    pose proof (total_nonneg (Var w) (l ++ [Some d])). nia. }
  apply wp_bind, wp_buffer1.
  eapply wp_mono; [apply (holds_append_int _ _ _ _ Hb1)| |done].
  { rewrite zlen_concat_le, zlen_offsets, Hbl. pose proof (zlen_nonneg l). nia. }
  intros ? b1' Hb1'. apply wp_bind, wp_buffer2. eapply wp_mono.
  { apply (holds_append b2 _ (Some d) (zlen d) d Hb2); [|done|done|].
    - pose proof (source_of_app d []) as Hsrc. by rewrite app_nil_r in Hsrc.
    - rewrite Hk in Ht. exact Ht. }
  2:{ done. }
  intros ? b2' Hb2'. destruct Hb as [? ? ? ? ? ?]. apply finish_append_wp; try done.
  - rewrite Hk in *. unfold holds_data. rewrite blocks_app, total_app.
    change (blocks (Var w) [Some d]) with [d].
    rewrite offsets_snoc, fmap_app, !concat_app. cbn [concat fmap list_fmap]. rewrite !app_nil_r.
    split_and!; [done|done|]. unfold total at 2. simpl. by rewrite app_nil_r.
  - rewrite Hk. done.
Qed.
Lemma append_bytes_step st k d :
  before st lay k l bm b1 b2 → bytes_ok d → zlen d <= INT64_MAX - INT32_MAX →
  (∀ w, k = Var w → total k l + zlen d <= INT64_MAX) →
  steps st k (ArrowArrayAppendBytes (MkView (Some d) (zlen d))) (one (encode_bytes st k l d)).
Proof.
  intros Hb Hd Hlen Hroom. pose proof (zlen_nonneg d). pose proof (total_nonneg k l).
  unfold ArrowArrayAppendBytes. apply step_private. cbn [view_data view_size].
  pose proof (before_kind _ _ _ _ _ _ _ Hb) as Hk.
  assert (∀ w (m : Z → M array unit) r, k = Var w → steps st k (m (total k l)) r →
    steps st k (let* o := last_offset w in m o) r) as Hlast.
  { intros w m r Hw Hm Hs. apply wp_bind. eapply wp_mono; [by eapply last_offset_wp| |done].
    simpl. intros o a' [-> ->]. by apply Hm. }
  assert (k = Var 4 → (∀ w, k = Var w → total k l <= offset_max w) → steps st k
    (let* offset := last_offset 4 in
     check (i64 (offset + zlen d) <=? INT32_MAX) EOVERFLOW ;;;
     ArrowArrayBuffer 1 (ArrowBufferAppend (Some (le_bytes 4 (i32 (offset + i32 (zlen d))))) 4) ;;;
     ArrowArrayBuffer 2 (ArrowBufferAppend (Some d) (zlen d)) ;;; finish_append)
    (one (if total k l + zlen d <=? INT32_MAX then inr d else inl EOVERFLOW))) as H4.
  { intros Hw Hmax. specialize (Hmax _ Hw). apply (Hlast 4%nat); [done|].
    change (offset_max 4) with INT32_MAX in Hmax.
    rewrite i64_small by width. destruct (Z.leb_spec (total k l + zlen d) INT32_MAX) as [Hle|Hgt].
    - apply (var_step st k 4); [done|done|done|done|]. rewrite (i32_small (zlen d)) by width.
      apply i32_small. width.
    - by apply step_reject. }
  assert (k = Var 8 → steps st k
    (let* large_offset := last_offset 8 in
     ArrowArrayBuffer 1 (ArrowBufferAppend (Some (le_bytes 8 (i64 (large_offset + zlen d)))) 8) ;;;
     ArrowArrayBuffer 2 (ArrowBufferAppend (Some d) (zlen d)) ;;; finish_append)
    (inr [Some d])) as H8.
  { intros Hw. apply (Hlast 8%nat); [done|]. specialize (Hroom _ Hw).
    apply (var_step st k 8); [done|done|done|done|]. apply i64_small. width. }
  assert (∀ w, k = Var w → total k l <= offset_max w) as Hmax.
  { intros w Hw. pose proof (before_data _ _ _ _ _ _ _ Hb) as Hdat. rewrite Hw in Hdat |- *. apply Hdat. }
  destruct st; simpl in Hk; try done; try (by apply step_reject); try (subst k; by apply H8);
    try (subst k; by apply H4); try (subst k; simpl; by apply step_reject).
  destruct Hk as (w & Hw & ->). intros Hs. apply wp_bind, wp_deref.
  exists (NANOARROW_BUFFER_TYPE_DATA, 8 * Z.of_nat w). split.
  { unfold layout_of. simpl. by rewrite (before_types _ _ _ _ _ _ _ Hb), (before_sizes _ _ _ _ _ _ _ Hb). }
  cbn [snd]. rewrite Z.mul_comm, Z.quot_mul by lia. revert Hs. apply step_check.
  - intros Heq. simpl. rewrite Heq. zbool. apply (fixed_step _ _ _ w); [done|done| |].
    + split; [done|]. unfold zlen in Heq. lia.
    + intros b x Hbx Hm. apply holds_append; try done.
      pose proof (source_of_app d []) as Hsrc. by rewrite app_nil_r in Hsrc.
  - intros Hne. simpl. by rewrite Hne.
Qed.

(** *** Nulls and empty values *)
Lemma append_validity_wp st len nl bits v n c1 c2 :
  holds_validity bits bm → zlen bits = len → 0 < n → 8 * (len + n) + 64 <= INT64_MAX →
  wp (append_validity n (Z.b2z v)) (flat st lay flag nb ptrs len nl bm c1 c2)
    (λ _ a', ∃ bm', a' = flat st lay flag nb ptrs len nl bm' c1 c2 ∧
             holds_validity (bits ++ replicate (Z.to_nat n) v) bm') oom.
Proof.
  intros Hv <- Hn Hmax. unfold append_validity. apply wp_private, wp_bind, wp_get. cbn [bitmap].
  change (array_length _) with (zlen bits). pose proof Hv as Hv0. unfold holds_validity in Hv0.
  destruct (data (buffer bm)) as [d|] eqn:Ed.
  - apply wp_bitmap. change (ArrowBitmapReserve n ;;; ArrowBitmapAppendUnsafe (Z.b2z v) n) with
      (ArrowBitmapAppend (Z.b2z v) n).
    eapply wp_mono; [apply append_some_validity_wp; [done|by eexists|done|done]| |done]. eauto.
  - destruct Hv0 as [Hbm Hall]. destruct v; simpl.
    + apply wp_ret. exists bm. split; [done|]. unfold holds_validity. rewrite Ed. split; [done|].
      apply Forall_app. split; [done|]. by apply Forall_replicate.
    + apply wp_bitmap. rewrite Hbm. eapply wp_mono; [by apply append_first_null_wp| |done]. eauto.
Qed.
(** The element that is appended [n] times. *)
Definition filler (k : col_kind) (v : bool) : option (list Z) := if v then Some (zero_block k) else None.
Lemma block_filler k v : block k (filler k v) = zero_block k.
Proof. by destruct v. Qed.
Lemma blocks_filler k v n : blocks k (replicate n (filler k v)) = replicate n (zero_block k).
Proof. unfold blocks. by rewrite fmap_replicate, block_filler. Qed.
Lemma concat_replicate_replicate (n w : nat) : concat (replicate n (replicate w 0)) = replicate (n * w) 0.
Proof. induction n as [|n IH]; [done|]. simpl. by rewrite IH, replicate_add. Qed.
Lemma offsets_empty bs n :
  offsets (bs ++ replicate n []) = offsets bs ++ replicate n (zlen (concat bs)).
Proof.
  induction n as [|n IH]; [simpl; by rewrite !app_nil_r|].
  rewrite !replicate_S_end, app_assoc, offsets_snoc, IH, <-app_assoc.
  do 2 f_equal. rewrite concat_app, zlen_app.
  assert (∀ m, concat (replicate m (@nil Z)) = []) as -> by (induction m; done).
  rewrite zlen_nil, !Z.add_0_r. done.
Qed.
Lemma small_fill k n o :
  kind_ok k → small k (l ++ replicate (Z.to_nat n) o) → 0 <= n →
  8 * (kind_width k * (zlen l + n + 2)) + 8 * total k l + 64 <= INT64_MAX.
Proof.
  intros Hk Hs Hn. unfold small in Hs. rewrite total_app, zlen_app, zlen_replicate in Hs by done.
  pose proof (total_nonneg k (replicate (Z.to_nat n) o)). lia.
Qed.
Definition fills st k v n bm' : Prop :=
  wp (fill_buffers n (zseq 3)) (flat st lay flag nb ptrs (zlen l) (nulls l) bm' b1 b2)
    (λ _ a', ∃ b1', a' = flat st lay flag nb ptrs (zlen l) (nulls l) bm' b1' b2 ∧
             holds_data k (l ++ replicate (Z.to_nat n) (filler k v)) b1' b2) oom.
(** The first buffer is passed over. *)
Lemma fill_second st k m n bm' Q E :
  buffer_type lay = kind_types k → element_size_bits lay = kind_sizes k →
  (∀ a, wp (fill_buffers n [1; 2]) a = wp m a) →
  wp m (flat st lay flag nb ptrs (zlen l) (nulls l) bm' b1 b2) Q E →
  wp (fill_buffers n (zseq 3)) (flat st lay flag nb ptrs (zlen l) (nulls l) bm' b1 b2) Q E.
Proof.
  intros Ht Hs Hm Hwp. change (zseq 3) with [0; 1; 2]. cbn [fill_buffers]. apply wp_private, wp_bind, wp_get.
  apply wp_bind, wp_deref. exists (NANOARROW_BUFFER_TYPE_VALIDITY, 1). split.
  { unfold layout_of. simpl. rewrite Ht, Hs. by destruct k. }
  cbn [fst snd]. by rewrite <-Hm in Hwp.
Qed.
Lemma fill_fixed st k w n v bm' :
  before st lay k l bm b1 b2 → k = Fixed w → 0 < n →
  small k (l ++ replicate (Z.to_nat n) (filler k v)) → fills st k v n bm'.
Proof.
  intros Hb Hk Hn Hs. pose proof (storage_kind_ok _ _ (before_kind _ _ _ _ _ _ _ Hb)) as Hok.
  pose proof (small_fill _ _ _ Hok Hs ltac:(lia)) as Hmax. pose proof (before_data _ _ _ _ _ _ _ Hb) as Hd.
  pose proof (before_blocks _ _ _ _ _ _ _ Hb) as Hbl. pose proof (zlen_nonneg l).
  unfold fills. eapply (fill_second _ k); [apply Hb|apply Hb|done|].
  cbn [fill_buffers]. apply wp_private, wp_bind, wp_get, wp_bind, wp_deref.
  exists (NANOARROW_BUFFER_TYPE_DATA, 8 * Z.of_nat w). rewrite Hk in *. simpl in Hok, Hmax. split.
  { unfold layout_of. simpl. by rewrite (before_types _ _ _ _ _ _ _ Hb), (before_sizes _ _ _ _ _ _ _ Hb). }
  cbn [fst snd]. rewrite (Z.mul_comm 8), Z.quot_mul, Z.rem_mul by lia. simpl Z.eqb. cbv iota.
  rewrite total_fixed in Hmax by done.
  assert (Z.of_nat w * n + Z.of_nat w * zlen l + 2 <= Z.of_nat w * (zlen l + n + 2)) by nia.
  assert (0 <= Z.of_nat w * n) by nia. assert (0 <= Z.of_nat w * zlen l) by nia.
  rewrite i64_small by width.
  apply wp_bind, wp_buffer1. simpl in Hd. eapply wp_mono; [apply (holds_fill _ _ _ Hd); [done|]| |done].
  { change (zlen (concat (blocks (Fixed w) l))) with (total (Fixed w) l). rewrite total_fixed by done. lia. }
  intros ? b1' Hb1'. apply wp_private, wp_bind, wp_get, wp_bind, wp_deref.
  exists (NANOARROW_BUFFER_TYPE_NONE, 0). split.
  { unfold layout_of. simpl. by rewrite (before_types _ _ _ _ _ _ _ Hb), (before_sizes _ _ _ _ _ _ _ Hb). }
  apply wp_ret. exists b1'. split; [done|]. simpl. rewrite blocks_app, blocks_filler, concat_app. simpl zero_block.
  rewrite concat_replicate_replicate. by replace (Z.to_nat n * w)%nat with (Z.to_nat (Z.of_nat w * n)) by lia.
Qed.
Lemma fill_var st k w n v bm' :
  before st lay k l bm b1 b2 → k = Var w → 0 < n →
  small k (l ++ replicate (Z.to_nat n) (filler k v)) → fills st k v n bm'.
Proof.
  intros Hb Hk Hn Hs. pose proof (storage_kind_ok _ _ (before_kind _ _ _ _ _ _ _ Hb)) as Hok.
  pose proof (small_fill _ _ _ Hok Hs ltac:(lia)) as Hmax. pose proof (before_data _ _ _ _ _ _ _ Hb) as Hd.
  pose proof (zlen_nonneg l). pose proof (total_nonneg k l).
  unfold fills. eapply (fill_second _ k); [apply Hb|apply Hb|done|].
  cbn [fill_buffers]. apply wp_private, wp_bind, wp_get, wp_bind, wp_deref.
  change (array_length _) with (zlen l).
  exists (NANOARROW_BUFFER_TYPE_DATA_OFFSET, 8 * Z.of_nat w). rewrite Hk in *. simpl in Hok, Hmax. split.
  { unfold layout_of. simpl. by rewrite (before_types _ _ _ _ _ _ _ Hb), (before_sizes _ _ _ _ _ _ _ Hb). }
  cbn [fst snd]. rewrite (Z.mul_comm 8), Z.quot_mul by lia.
  destruct Hd as (Hb1 & Hb2 & Htot). destruct (offsets_last (blocks (Var w) l)) as (pre & Hpre & Hlen).
  assert (zlen (blocks (Var w) l) = zlen l) as Hbl by (unfold zlen; by rewrite length_blocks).
  rewrite Hpre, fmap_app, concat_app in Hb1. simpl in Hb1. rewrite app_nil_r in Hb1.
  apply wp_bind, wp_buffer1.
  eapply wp_mono; [apply (repeat_offset_wp _ (concat (le_bytes w <$> pre)) (le_bytes w (zlen (concat (blocks (Var w) l))))); auto using le_bytes_ok, zlen_le_bytes| |].
  - rewrite zlen_concat_le. lia.
  - lia.
  - destruct Hok; lia.
  - rewrite zlen_app, zlen_concat_le, zlen_le_bytes, Hlen, Hbl. nia.
  - intros ? b1' Hb1'. apply wp_ret. exists b1'. split; [done|]. unfold holds_data.
    rewrite total_app, blocks_app, blocks_filler. simpl zero_block. rewrite offsets_empty, Hpre, concat_app.
    assert (∀ m, concat (replicate m (@nil Z)) = []) as Hnil by (induction m; done).
    rewrite Hnil, app_nil_r. unfold total at 2. rewrite blocks_filler. simpl zero_block. rewrite Hnil, zlen_nil, Z.add_0_r.
    split_and!; [|done|done].
    rewrite !fmap_app, !concat_app, <-app_assoc. simpl. rewrite app_nil_r, fmap_replicate. done.
  - done.
Qed.
Lemma fill_bits st k v bm' :
  before st lay k l bm b1 b2 → k = Bits →
  small k (l ++ replicate (Z.to_nat 1) (filler k v)) → fills st k v 1 bm'.
Proof.
  intros Hb Hk Hs. pose proof (storage_kind_ok _ _ (before_kind _ _ _ _ _ _ _ Hb)) as Hok.
  pose proof (small_fill _ _ _ Hok Hs ltac:(lia)) as Hmax. pose proof (before_data _ _ _ _ _ _ _ Hb) as Hd.
  pose proof (zlen_nonneg l). pose proof (total_nonneg k l).
  unfold fills. eapply (fill_second _ k); [apply Hb|apply Hb|done|].
  cbn [fill_buffers]. apply wp_private, wp_bind, wp_get, wp_bind, wp_deref.
  exists (NANOARROW_BUFFER_TYPE_DATA, 1). rewrite Hk in *. simpl in Hmax. split.
  { unfold layout_of. simpl. by rewrite (before_types _ _ _ _ _ _ _ Hb), (before_sizes _ _ _ _ _ _ _ Hb). }
  cbn [fst snd]. change (Z.rem 1 8 =? 0) with false. cbv iota.
  apply wp_bind.
  eapply (wp_mono _ _ (λ _ a', ∃ b1', a' = flat st lay flag nb ptrs (zlen l) (nulls l) bm' b1' b2 ∧
    holds_data Bits (l ++ [filler Bits v]) b1' b2) _ oom); [| |done].
  - unfold _ArrowArrayAppendBits. apply wp_private, wp_bind, wp_get, wp_bind, wp_deref.
    change (array_length _) with (zlen l). exists (NANOARROW_BUFFER_TYPE_DATA, 1). split.
    { unfold layout_of. simpl. by rewrite (before_types _ _ _ _ _ _ _ Hb), (before_sizes _ _ _ _ _ _ _ Hb). }
    set (bits := (λ b, bool_decide (b = [1])) <$> blocks Bits l).
    assert (zlen bits = zlen l) as Hbl by (unfold bits, zlen; by rewrite length_fmap, length_blocks).
    cbn [fst snd]. rewrite Z.mul_1_l, i64_small by width. rewrite RoundUp_spec by width.
    rewrite Z.quot_mul, <-BytesForBits_spec by lia. apply wp_buffer1. rewrite <-Hbl.
    eapply wp_mono; [apply (append_bit_wp bits b1 false); [exact Hd|lia]| |done].
    intros ? b1' Hb1'. exists b1'. split; [done|]. unfold holds_data. rewrite blocks_app, fmap_app.
    change (blocks Bits [filler Bits v]) with [block Bits (filler Bits v)]. rewrite block_filler. exact Hb1'.
  - intros ? a' (b1' & -> & Hb1'). apply wp_private, wp_bind, wp_get, wp_bind, wp_deref.
    exists (NANOARROW_BUFFER_TYPE_NONE, 0). split.
    { unfold layout_of. simpl. by rewrite (before_types _ _ _ _ _ _ _ Hb), (before_sizes _ _ _ _ _ _ _ Hb). }
    apply wp_ret. by exists b1'.
Qed.
Lemma nulls_filler k v n : nulls (replicate n (filler k v)) = if v then 0 else Z.of_nat n.
Proof.
  induction n as [|n IH]; [by destruct v|]. rewrite replicate_S.
  change (filler k v :: replicate n (filler k v)) with ([filler k v] ++ replicate n (filler k v)).
  unfold nulls in *. rewrite List.filter_app, zlen_app, IH. destruct v; unfold zlen; simpl; lia.
Qed.
Lemma empty_node_wp st k n v :
  before st lay k l bm b1 b2 → 0 < n → (k = Bits → n = 1) →
  small k (l ++ replicate (Z.to_nat n) (filler k v)) →
  wp (empty_node n (Z.b2z v)) (flat st lay flag nb ptrs (zlen l) (nulls l) bm b1 b2)
    (λ _, repr st k (l ++ replicate (Z.to_nat n) (filler k v))) oom.
Proof.
  intros Hb Hn Hbits Hs. pose proof (before_kind _ _ _ _ _ _ _ Hb) as Hst.
  pose proof (small_length st k Hst _ Hs) as Hlen. rewrite zlen_app, zlen_replicate in Hlen by lia.
  pose proof (zlen_nonneg l). unfold empty_node. apply wp_bind. eapply wp_mono.
  { apply (append_validity_wp st (zlen l) (nulls l) (is_valid <$> l) v n); [apply Hb| |done|lia].
    unfold zlen. by rewrite length_fmap. }
  2:{ done. }
  intros ? a' (bm' & -> & Hv'). apply wp_bind.
  eapply (wp_mono _ _ _ _ oom); [|intros ? a' Ha'; exact Ha'|done].
  assert (fills st k v n bm') as Hfill.
  { destruct k as [w|w|]; [by apply (fill_fixed st _ w)|by apply (fill_var st _ w)|].
    rewrite Hbits in * by done. by apply fill_bits. }
  eapply wp_mono; [exact Hfill| |done]. intros ? a' (b1' & -> & Hd').
  apply wp_bind, wp_mod, wp_mod.
  change (put_null_count _ _) with (flat st lay flag nb ptrs (i64 (zlen l + n))
    (i64 (nulls l + n * (if Z.b2z v =? 0 then 1 else 0))) bm' b1' b2).
  rewrite (i64_small (zlen l + n)) by width.
  assert (0 <= nulls l <= zlen l) as Hnl.
  { unfold nulls, zlen. pose proof (List.filter_length_le (λ o, negb (is_valid o)) l). lia. }
  rewrite i64_small by (destruct v; simpl; width).
  replace (zlen l + n) with (zlen (l ++ replicate (Z.to_nat n) (filler k v)))
    by (rewrite zlen_app, zlen_replicate by lia; done).
  replace (nulls l + _) with (nulls (l ++ replicate (Z.to_nat n) (filler k v))).
  2:{ rewrite (nulls_app l), nulls_filler. destruct v; simpl; lia. }
  constructor; try apply Hb; [|done|].
  - rewrite fmap_app, fmap_replicate. by destruct v.
  - rewrite blocks_app, blocks_filler. apply Forall_app. split; [apply Hb|]. apply Forall_replicate.
    destruct k as [w|w|]; simpl.
    + split; [by apply Forall_replicate; vm_compute|apply length_replicate].
    + split; [constructor|done].
    + split; [by repeat constructor; vm_compute|by left].
Qed.
End int_ops.

(** ** Sequences of appends *)
Definition on_array (m : M array unit) (arr : ArrowArray) : outcome ArrowArray unit :=
  match arr with ArrayReleased => UB | ArrayLive a => on_live m a end.
Definition run_build `{!Libc} (op : build_op) : M ArrowArray unit :=
  match op with
  | BInt v => on_array (ArrowArrayAppendInt v)
  | BUInt v => on_array (ArrowArrayAppendUInt v)
  | BDouble v => on_array (ArrowArrayAppendDouble v)
  | BBytes d => on_array (ArrowArrayAppendBytes (MkView (Some d) (zlen d)))
  | BString d => on_array (ArrowArrayAppendString (MkView (Some d) (zlen d)))
  | BNull n => ArrowArrayAppendNull n
  | BEmpty n => ArrowArrayAppendEmpty n
  end.
Fixpoint build_specs (st : ArrowType) (k : col_kind) (l : column) (ops : list build_op) :
    errno + column :=
  match ops with
  | [] => inr l
  | op :: ops' =>
      match build_spec st k l op with
      | inl e => inl e
      | inr x => build_specs st k (l ++ x) ops'
      end
  end.
(** Everything that is appended, including bytes that end up rejected, stays
    away from the limit of [int64_t]. *)
Definition op_size (op : build_op) : Z :=
  match op with
  | BBytes d | BString d => 1 + zlen d
  | BNull n | BEmpty n => n
  | _ => 1
  end.
Definition ops_size (ops : list build_op) : Z := foldr (λ op n, op_size op + n) 0 ops.
Definition ops_fit (k : col_kind) (l : column) (ops : list build_op) : Prop :=
  16 * kind_width k * (zlen l + 2) + 16 * total k l + (32 * kind_width k + 16) * ops_size ops + 64
    <= INT64_MAX - INT32_MAX.

Section sequences.
Context `{!Libc}.
Definition live_repr (st : ArrowType) (k : col_kind) (l : column) (arr : ArrowArray) : Prop :=
  ∃ a, arr = ArrayLive a ∧ repr st k l a.
Lemma wp_on_live (m : M array unit) a (Q : array → Prop) (E : errno → Prop) :
  wp m a (λ _ a', Q a') (λ e _, E e) →
  wp (on_array m) (ArrayLive a) (λ _ arr', ∃ a', arr' = ArrayLive a' ∧ Q a') (λ e _, E e).
Proof. unfold wp, on_array, on_live. destruct (m a); eauto. Qed.
Lemma op_size_nonneg k op : build_op_ok k op → 0 <= op_size op.
Proof. destruct op; simpl; intros; try pose proof (zlen_nonneg d); lia. Qed.
Lemma total_one k x : total k [Some x] = zlen x.
Proof. unfold total. simpl. by rewrite app_nil_r. Qed.
Lemma encode_int_size st k v x :
  storage_kind st k → encode_int st v = inr x → zlen x <= kind_width k.
Proof.
  unfold encode_int. intros Hk Hx.
  destruct st; simpl in Hk, Hx; try done; subst k; try (case_match; try done);
    injection Hx as <-; rewrite ?zlen_le_bytes, ?zlen_cons, ?zlen_nil; simpl; lia.
Qed.
Lemma encode_bytes_same st k l d z : encode_bytes st k l d = inr z → z = d.
Proof.
  intros Hz. assert (∀ (b : bool) (e : errno), (if b then inr d else inl e) = inr z → z = d) as Hif
    by (intros [] e He; congruence).
  unfold encode_bytes in Hz. destruct k as [w|w|]; [destruct st; try done; by apply Hif in Hz| |by destruct st].
  do 5 (destruct w as [|w]; [destruct st; first [congruence|by apply Hif in Hz]|]).
  destruct st; congruence.
Qed.
Lemma spec_size st k l op x :
  storage_kind st k → build_op_ok k op → build_spec st k l op = inr x →
  zlen x <= op_size op ∧ total k x <= kind_width k * op_size op + op_size op.
Proof.
  intros Hst Hop Hx. pose proof (kind_width_pos k (storage_kind_ok _ _ Hst)) as Hw.
  assert (∀ r y, one r = inr y → ∃ z, r = inr z ∧ y = [Some z]) as Hone.
  { intros [e|z] y Hy; [done|]. injection Hy as <-. eauto. }
  assert (∀ n o, 0 <= n → block k o = zero_block k →
    total k (replicate (Z.to_nat n) o) <= kind_width k * n + n) as Hrep.
  { intros n o Hn Ho. unfold total, blocks. rewrite fmap_replicate, Ho.
    assert (zlen (zero_block k) <= kind_width k) as Hz.
    { destruct k; simpl; unfold zlen; rewrite ?length_replicate; simpl; lia. }
    replace n with (Z.of_nat (Z.to_nat n)) at 2 3 by lia.
    induction (Z.to_nat n) as [|m IH]; [unfold zlen; simpl; lia|].
    rewrite replicate_S. cbn [concat]. rewrite zlen_app. nia. }
  destruct op; simpl in Hx, Hop |- *.
  1-5: apply Hone in Hx as (z & Hz & ->); rewrite total_one, zlen_cons, zlen_nil; split; [try (pose proof (zlen_nonneg d)); lia|].
  - apply (encode_int_size _ k) in Hz; [lia|done].
  - apply (encode_int_size _ k) in Hz; [lia|done].
  - destruct st; simpl in Hz, Hst; try done; injection Hz as <-; subst k; rewrite zlen_le_bytes; simpl; lia.
  - enough (z = d) as -> by (pose proof (zlen_nonneg d); nia).
    by eapply encode_bytes_same.
  - enough (z = d) as -> by (pose proof (zlen_nonneg d); nia).
    unfold encode_string in Hz. destruct k; try done. by eapply encode_bytes_same.
  - injection Hx as <-. rewrite zlen_replicate by lia. split; [lia|]. apply Hrep; [lia|done].
  - injection Hx as <-. rewrite zlen_replicate by lia. split; [lia|]. apply Hrep; [lia|done].
Qed.
Lemma ops_size_nonneg k ops : Forall (build_op_ok k) ops → 0 <= ops_size ops.
Proof.
  induction 1 as [|op ops Hop _ IH]; [done|]. simpl. apply op_size_nonneg in Hop. lia.
Qed.
Lemma ops_fit_small st k l op ops x :
  storage_kind st k → build_op_ok k op → Forall (build_op_ok k) ops → ops_fit k l (op :: ops) →
  build_spec st k l op = inr x → small k (l ++ x) ∧ ops_fit k (l ++ x) ops.
Proof.
  intros Hst Hop Hops Hfit Hx. pose proof (kind_width_pos k (storage_kind_ok _ _ Hst)) as Hw.
  destruct (spec_size st k l op x Hst Hop Hx) as [Hlen Htot]. apply ops_size_nonneg in Hops.
  pose proof (op_size_nonneg _ _ Hop). unfold ops_fit, small in *. simpl in Hfit.
  rewrite total_app, zlen_app. pose proof (zlen_nonneg l). pose proof (total_nonneg k l).
  pose proof (zlen_nonneg x). pose proof (total_nonneg k x). pose proof (kind_width_pos).
  assert (kind_width k * zlen x <= kind_width k * op_size op) by nia.
  assert (0 <= kind_width k * ops_size ops) by nia. assert (0 <= kind_width k * (zlen l + 2)) by nia.
  assert (0 <= kind_width k * op_size op) by nia. unfold INT32_MAX in *. split; lia.
Qed.
Lemma ops_fit_bytes st k l op ops (d : list Z) :
  storage_kind st k → Forall (build_op_ok k) ops → ops_fit k l (op :: ops) → op_size op = 1 + zlen d →
  zlen d <= INT64_MAX - INT32_MAX ∧ total k l + zlen d <= INT64_MAX.
Proof.
  intros Hst Hops Hfit Hd. pose proof (kind_width_pos k (storage_kind_ok _ _ Hst)).
  unfold ops_fit in Hfit. simpl in Hfit. apply ops_size_nonneg in Hops. pose proof (zlen_nonneg l).
  pose proof (total_nonneg k l). pose proof (zlen_nonneg d).
  assert (0 <= kind_width k * (zlen l + 2)) by nia.
  assert (0 <= kind_width k * (op_size op + ops_size ops)) by nia. unfold INT32_MAX in *. lia.
Qed.
(** What a step says, as a postcondition of the function on the tree. *)
Abbreviation step_post st k l r :=
  (λ _ arr', ∃ x, r = inr x ∧ live_repr st k (l ++ x) arr') (only parsing).
Lemma step_live st lay flag nb ptrs k l bm b1 b2 m r :
  step_spec st lay flag nb ptrs k l bm b1 b2 m r → (∀ x, r = inr x → small k (l ++ x)) →
  wp (on_array m) (ArrayLive (flat st lay flag nb ptrs (zlen l) (nulls l) bm b1 b2))
    (step_post st k l r) (λ e _, e = ENOMEM ∨ r = inl e).
Proof.
  intros Hm Hsmall. eapply wp_mono; [apply wp_on_live, (Hm Hsmall)| |done].
  intros ? arr' (a' & -> & x & Hx & Ha'). exists x. split; [done|]. by exists a'.
Qed.
Lemma empty_live st lay flag nb ptrs k l bm b1 b2 n v r :
  before st lay k l bm b1 b2 → 0 <= n ∧ (k = Bits → n <= 1) →
  r = inr (replicate (Z.to_nat n) (filler k v)) → (∀ x, r = inr x → small k (l ++ x)) →
  wp (λ arr, _ArrowArrayAppendEmptyInternal arr n (Z.b2z v))
    (ArrayLive (flat st lay flag nb ptrs (zlen l) (nulls l) bm b1 b2))
    (step_post st k l r) (λ e _, e = ENOMEM ∨ r = inl e).
Proof.
  intros Hb [Hn Hbits] -> Hsmall. unfold wp. pose proof (before_kind _ _ _ _ _ _ _ Hb) as Hst.
  set (a := flat st lay flag nb ptrs (zlen l) (nulls l) bm b1 b2).
  assert (_ArrowArrayAppendEmptyInternal (ArrayLive a) n (Z.b2z v) =
    if n =? 0 then Ok tt (ArrayLive a) else on_live (empty_node n (Z.b2z v)) a) as ->.
  { simpl. destruct (n =? 0); [done|]. by destruct st. }
  destruct (Z.eqb_spec n 0) as [->|Hne].
  - eexists. split; [done|]. simpl. rewrite app_nil_r. exists a. split; [done|]. by destruct Hb.
  - pose proof (empty_node_wp lay flag nb ptrs l bm b1 b2 st k n v Hb ltac:(lia)) as Hwp.
    specialize (Hwp ltac:(intros Hk; specialize (Hbits Hk); lia) (Hsmall _ eq_refl)). unfold wp in Hwp.
    unfold on_live. destruct (empty_node _ _ _); [|by left|done]. eexists. split; [done|]. by eexists.
Qed.
Lemma run_build_wp st k l op ops a :
  storage_kind st k → repr st k l a → build_op_ok k op → Forall (build_op_ok k) ops →
  ops_fit k l (op :: ops) →
  wp (run_build op) (ArrayLive a) (step_post st k l (build_spec st k l op))
    (λ e _, e = ENOMEM ∨ build_spec st k l op = inl e).
Proof.
  intros Hst Ha Hop Hops Hfit. destruct Ha as [lay flag nb ptrs bm b1 b2 Ht Hs Hv Hd Hl].
  assert (before st lay k l bm b1 b2) as Hb by done.
  assert (∀ x, build_spec st k l op = inr x → small k (l ++ x)) as Hsmall.
  { intros x Hx. by eapply ops_fit_small. }
  destruct op as [v|v|v|d|d|n|n]; simpl in Hop.
  - apply step_live; [|done]. by apply append_int_step.
  - apply step_live; [|done]. by apply append_uint_step.
  - apply step_live; [|done]. by apply append_double_step.
  - apply step_live; [|done]. destruct (ops_fit_bytes st k l _ ops d Hst Hops Hfit eq_refl).
    by apply append_bytes_step.
  - apply step_live; [|done]. destruct (ops_fit_bytes st k l _ ops d Hst Hops Hfit eq_refl).
    unfold ArrowArrayAppendString. apply step_private.
    pose proof (append_bytes_step lay flag nb ptrs l bm b1 b2 st k d Hb Hop) as Hstep.
    destruct st; simpl in Hst; try done; try (subst k; by apply Hstep); try (subst k; by apply step_reject).
    destruct Hst as (w & _ & ->). by apply step_reject.
  - by apply (empty_live st lay flag nb ptrs k l bm b1 b2 n false).
  - by apply (empty_live st lay flag nb ptrs k l bm b1 b2 n true).
Qed.
Lemma run_builds_wp st k ops : ∀ l arr,
  storage_kind st k → live_repr st k l arr → Forall (build_op_ok k) ops → ops_fit k l ops →
  wp (mfor ops run_build) arr
    (λ _ arr', ∃ l', build_specs st k l ops = inr l' ∧ live_repr st k l' arr')
    (λ e _, e = ENOMEM ∨ build_specs st k l ops = inl e).
Proof.
  induction ops as [|op ops IH]; intros l arr Hst Harr Hops Hfit; cbn [mfor build_specs].
  { apply wp_ret. eauto. }
  apply Forall_cons_1 in Hops as [Hop Hops]. destruct Harr as (a & -> & Ha). apply wp_bind.
  eapply wp_mono; [by apply (run_build_wp st k l op ops a)| |].
  - intros [] arr' (x & Hx & Harr'). rewrite Hx.
    destruct (ops_fit_small st k l op ops x) as [_ Hfit']; auto.
  - intros e arr' [->|He]; [by left|]. rewrite He. by right.
Qed.

(** An array as the initialisation leaves it. *)
Definition fresh (st : ArrowType) (lay : ArrowLayout) (flag nb : Z) : ArrowArray :=
  ArrayLive (flat st lay flag nb [None; None; None] 0 0 ArrowBitmapInit ArrowBufferInit ArrowBufferInit).
Lemma start_appending_wp st lay flag nb k :
  storage_kind st k → buffer_type lay = kind_types k → element_size_bits lay = kind_sizes k →
  wp ArrowArrayStartAppending (fresh st lay flag nb) (λ _, live_repr st k []) oom.
Proof.
  intros Hst Ht Hs. pose proof (storage_kind_ok _ _ Hst) as Hok.
  set (a0 := flat st lay flag nb [None; None; None] 0 0 ArrowBitmapInit ArrowBufferInit ArrowBufferInit).
  assert (holds_validity [] ArrowBitmapInit) as Hv0 by (by split).
  enough (wp start_node a0 (λ _, repr st k []) oom) as Hnode.
  { unfold wp, ArrowArrayStartAppending, fresh in *. fold a0. simpl.
    change (each_array start_node (ArrayLive a0)) with
      (match start_node a0 with
       | UB => UB
       | Err e a1 => Err e (ArrayLive a1)
       | Ok _ a1 => Ok tt (ArrayLive (put_dictionary None (put_children 0 None a1)))
       end).
    destruct (start_node a0) as [[] a1|e a1|]; [|done|done]. destruct Hnode. by eexists. }
  unfold start_node. apply wp_private.
  assert (∀ i, layout_of (MkPrivate ArrowBitmapInit [ArrowBufferInit; ArrowBufferInit] st lay flag) i =
    (t ← znth (kind_types k) i; bits ← znth (kind_sizes k) i; Some (t, bits))) as Hlay.
  { intros i. unfold layout_of. simpl. by rewrite Ht, Hs. }
  apply wp_bind. eapply (wp_mono _ _ (λ _ a', a' = a0)  _ oom); [by destruct st| |done].
  intros ? ? ->. change (zseq 3) with [0; 1; 2]. cbn [mfor]. rewrite !Hlay.
  assert (repr st k [] a0 → wp (mret_ ()) a0 (λ _, repr st k []) oom) as Hret by done.
  destruct k as [w|w|]; simpl in Hok.
  - apply Hret. by constructor.
  - simpl. apply wp_bind, wp_bind, wp_ret, wp_ret, wp_bind, wp_bind, wp_ret.
    eapply (wp_mono _ _ (λ _, repr st (Var w) []) _ oom); [|done|done].
    assert (wp (ArrowArrayBuffer 1 (append_int w 0)) a0 (λ _, repr st (Var w) []) oom) as Happ.
    { apply wp_buffer1. eapply wp_mono; [apply (holds_append_int _ _ _ _ holds_init)| |done].
      - destruct Hok; subst; by vm_compute.
      - intros ? b1 Hb1. constructor; try done. simpl. rewrite app_nil_r.
        split_and!; [exact Hb1|apply holds_init|]. destruct Hok; subst; by vm_compute. }
    destruct Hok as [-> | ->]; exact Happ.
  - apply Hret. by constructor.
Qed.

Lemma builder_wp st k lay flag nb ops :
  storage_kind st k → buffer_type lay = kind_types k → element_size_bits lay = kind_sizes k →
  Forall (build_op_ok k) ops → ops_fit k [] ops →
  wp (ArrowArrayStartAppending ;;; mfor ops run_build) (fresh st lay flag nb)
    (λ _ arr, ∃ l, build_specs st k [] ops = inr l ∧ live_repr st k l arr)
    (λ e _, e = ENOMEM ∨ build_specs st k [] ops = inl e).
Proof.
  intros Hst Ht Hs Hops Hfit.
  apply wp_bind. eapply wp_mono; [by apply (start_appending_wp st lay flag nb k)| |by left].
  intros ? arr Harr. by apply run_builds_wp.
Qed.

(** C17.  The append functions implement a list of elements.  From a freshly
    initialised array of a flat storage type, [ArrowArrayStartAppending] followed
    by any sequence of appends of integers, doubles, bytes, strings, nulls and
    empty values either succeeds, and then no append was one the specification
    rejects and the bitmap, the offsets, the data and the counters of the array
    represent exactly the elements appended; or it fails with [ENOMEM] or with
    the error the specification gives to the first rejected append (a value out
    of the range of the type, a wrong type or size, offsets beyond 32 bits).  It
    never leaves the memory of a buffer.  The arguments have the types of the
    parameters, booleans get nulls and empty values one at a time (see
    [append_bits_overrun] for more), and all elements together are so few that no
    size overflows ([ops_fit]). *)
Theorem builder_refinement (st : ArrowType) (k : col_kind) (lay : ArrowLayout) (flag nb : Z)
    (ops : list build_op) (Hst : storage_kind st k) (Ht : buffer_type lay = kind_types k)
    (Hs : element_size_bits lay = kind_sizes k) (Hops : Forall (build_op_ok k) ops)
    (Hfit : ops_fit k [] ops) :
  match (ArrowArrayStartAppending ;;; mfor ops run_build) (fresh st lay flag nb) with
  | Ok _ arr => ∃ l, build_specs st k [] ops = inr l ∧ live_repr st k l arr
  | Err e _ => e = ENOMEM ∨ build_specs st k [] ops = inl e
  | UB => False
  end.
Proof.
  pose proof (builder_wp st k lay flag nb ops) as Hwp. unfold wp in Hwp. by apply Hwp.
Qed.
End sequences.

Definition example_builds : list build_op :=
  [BString [104; 105]; BNull 2; BBytes []; BEmpty 1; BString [33]].
Lemma builder_refinement_witness :
  ∃ arr, live_repr NANOARROW_TYPE_STRING (Var 4)
           [Some [104; 105]; None; None; Some []; Some []; Some [33]] arr.
Proof.
  pose proof (@builder_refinement (libc_limited 1000) NANOARROW_TYPE_STRING (Var 4)
    (ArrowLayoutInit NANOARROW_TYPE_STRING) 1 3 example_builds eq_refl eq_refl eq_refl) as H.
  assert (Forall (build_op_ok (Var 4)) example_builds) as Hops.
  { repeat constructor; simpl; try lia; try (intros; discriminate). }
  specialize (H Hops ltac:(vm_compute; discriminate)).
  assert (match (@ArrowArrayStartAppending (libc_limited 1000) ;;; mfor example_builds (@run_build (libc_limited 1000)))
    (fresh NANOARROW_TYPE_STRING (ArrowLayoutInit NANOARROW_TYPE_STRING) 1 3) with
    | Ok _ _ => True | _ => False end) as Hrun by (vm_compute; exact I).
  destruct ((_ ;;; _) _) as [[] arr|e arr|]; [|destruct Hrun|destruct Hrun].
  destruct H as (l & Hl & Harr). injection Hl as <-. exists arr. exact Harr.
Defined.

(** ** Reading what was appended *)
Lemma concat_split {A} (bs : list (list A)) i b :
  bs !! i = Some b → concat bs = concat (take i bs) ++ b ++ concat (drop (S i) bs).
Proof. intros Hi. rewrite <-(take_drop_middle bs i b Hi) at 1. by rewrite concat_app. Qed.
Lemma load_u_block pre (b : list Z) post :
  load_u (List.length b) (pre ++ b ++ post) (zlen pre) = Some (le_val b).
Proof.
  unfold load_u. pose proof (zlen_nonneg post). rewrite zslice_in; [|apply zlen_nonneg|lia|].
  - unfold zlen. by rewrite !Nat2Z.id, drop_app_length, take_app_length.
  - rewrite !zlen_app. change (zlen b) with (Z.of_nat (List.length b)). lia.
Qed.
(** The bytes a view of a string shows. *)
Definition shows (s : ArrowView) (d : list Z) : Prop :=
  view_size s = zlen d ∧
  match view_data s with Some m => ∃ post, m = d ++ post | None => d = [] end.

(** The view of a flat array. *)
Record view_of_flat (st : ArrowType) (lay : ArrowLayout) (bm : ArrowBitmap) (b1 b2 : ArrowBuffer)
    (v : ArrowArrayView) : Prop := {
  flat_offset : offset v = 0;
  flat_type : view_storage_type v = st;
  flat_layout : view_layout v = lay;
  flat_buffers : buffer_views v =
    [view_of_buffer (buffer bm); view_of_buffer b1; view_of_buffer b2];
}.
Lemma allocate_no_children `{!Malloc} s w :
  view_children w = None →
  ArrowArrayViewAllocateChildren 0 (s, w) =
    let '(ok, s1) := malloc_step 0 s in
    if ok then Ok tt (s1, set_view_children 0 (Some []) w) else Err ENOMEM (s1, w).
Proof.
  intros Hw. unfold ArrowArrayViewAllocateChildren, get, mget, mbind_ at 1. rewrite Hw.
  unfold mbind_, ArrowMalloc. change (i64 (0 * sizeof_pointer)) with 0.
  by destruct (malloc_step 0 s) as [[] s1].
Qed.
Lemma view_init_flat `{!Malloc} st lay flag nb ptrs len nl bm b1 b2 s0 v0 s v :
  ArrowArrayViewInitFromArray (ArrayLive (flat st lay flag nb ptrs len nl bm b1 b2)) (s0, v0) = Ok tt (s, v) →
  view_of_flat st lay bm b1 b2 v.
Proof.
  cbn [ArrowArrayViewInitFromArray flat]. unfold or_reset, on_error, modify, mmod, mbind_.
  rewrite allocate_no_children by done. destruct (malloc_step 0 s0) as [[|] s1]; [|done].
  intros [= <- <-]. by split.
Qed.

Section read.
Context (st : ArrowType) (lay : ArrowLayout) (k : col_kind) (l : column).
Context (bm : ArrowBitmap) (b1 b2 : ArrowBuffer) (v : ArrowArrayView).
Context (Hb : before st lay k l bm b1 b2) (Hview : view_of_flat st lay bm b1 b2 v).
Context (Hsmall : small k l) (i : nat) (o : option (list Z)) (Hi : l !! i = Some o).

Lemma read_index : i64 (Z.of_nat i + offset v) = Z.of_nat i ∧ Z.of_nat i < zlen l.
Proof.
  pose proof (lookup_lt_Some _ _ _ Hi) as Hlt. pose proof (small_length st k (before_kind _ _ _ _ _ _ _ Hb) l Hsmall).
  rewrite (flat_offset _ _ _ _ _ _ Hview), Z.add_0_r. unfold zlen in *. split; [|lia]. apply i64_small. width.
Qed.
Lemma read_block : blocks k l !! i = Some (block k o).
Proof. unfold blocks. by rewrite list_lookup_fmap, Hi. Qed.
(** The memory of a buffer that is not empty. *)
Lemma holds_data_pointer b d : holds b d → d ≠ [] → ∃ post, data b = Some (d ++ post).
Proof.
  intros Hd Hne. pose proof (holds_size _ _ Hd) as Hs. destruct Hd as (Hwf & <- & _).
  apply data_contents; [done|]. pose proof (buffer_size _ Hwf).
  assert (zlen (contents b) ≠ 0) by (destruct (contents b); [done|rewrite zlen_cons; pose proof (zlen_nonneg l0); lia]).
  lia.
Qed.
Lemma read_validity :
  match buffer_data v 0 with
  | None => Some false
  | Some d => bit ← ArrowBitGet d (Z.of_nat i); Some (bit =? 0)
  end = Some (negb (is_valid o)).
Proof.
  destruct read_index as [_ Hlt]. unfold buffer_data. rewrite (flat_buffers _ _ _ _ _ _ Hview). cbn.
  pose proof (before_validity _ _ _ _ _ _ _ Hb) as Hv. unfold holds_validity in Hv.
  destruct (data (buffer bm)) as [d|] eqn:Ed.
  - destruct Hv as (Hwf & Hbits & _). pose proof (zlen_bitmap_bits _ Hwf) as Hlen.
    pose proof (bitmap_room _ Hwf) as Hroom. pose proof (buffer_block _ (bitmap_buffer _ Hwf)) as Hblk.
    rewrite Ed in Hblk. destruct Hblk as [Hcap _]. rewrite Hbits in Hlen. unfold zlen in Hlen at 1.
    rewrite length_fmap in Hlen. fold (zlen l) in Hlen.
    rewrite ArrowBitGet_bitf by lia. cbn. f_equal.
    assert (bitf d (Z.of_nat i) = is_valid o) as ->; [|by destruct (is_valid o)].
    assert ((is_valid <$> l) !! i = Some (is_valid o)) as Hl by (by rewrite list_lookup_fmap, Hi).
    rewrite <-Hbits in Hl. unfold bitmap_bits in Hl. rewrite list_lookup_fmap in Hl. unfold zseq in Hl.
    rewrite list_lookup_fmap, lookup_seq_lt in Hl by lia. simpl in Hl. rewrite Ed in Hl. by injection Hl.
  - destruct Hv as [_ Hall]. rewrite Forall_lookup in Hall. specialize (Hall i (is_valid o)).
    rewrite list_lookup_fmap, Hi in Hall. by rewrite <-Hall.
Qed.
(** Elements of a fixed width. *)
Lemma read_fixed w : k = Fixed w → as_uint w 1 v (Z.of_nat i) = Some (le_val (block k o)) ∧
  ∃ pre post, buffer_data v 1 = Some (pre ++ block k o ++ post) ∧ zlen pre = Z.of_nat w * Z.of_nat i.
Proof.
  intros Hk. pose proof (before_blocks _ _ _ _ _ _ _ Hb) as Hbl. pose proof (before_data _ _ _ _ _ _ _ Hb) as Hd.
  pose proof read_block as Hblk. pose proof (storage_kind_ok _ _ (before_kind _ _ _ _ _ _ _ Hb)) as Hok.
  rewrite Forall_lookup in Hbl. destruct (Hbl _ _ Hblk) as [_ Hlen0].
  assert (List.length (block k o) = w) as Hlen by (clear -Hlen0 Hk; rewrite Hk in *; exact Hlen0).
  assert (zlen (concat (take i (blocks k l))) = Z.of_nat w * Z.of_nat i) as Hpre.
  { replace (take i (blocks k l)) with (blocks k (take i l)) by (unfold blocks; by rewrite fmap_take).
    rewrite Hk. fold (total (Fixed w) (take i l)). rewrite total_fixed.
    - unfold zlen. rewrite length_take. pose proof (lookup_lt_Some _ _ _ Hi). f_equal. lia.
    - unfold blocks. rewrite fmap_take. apply Forall_take. rewrite <-Hk. apply Hb. }
  rewrite Hk in Hd, Hok. simpl in Hd, Hok. rewrite <-Hk in Hd.
  destruct (holds_data_pointer _ _ Hd) as [post Hdata].
  { rewrite (concat_split _ _ _ Hblk). destruct (block k o); [simpl in Hlen; lia|].
    by intros [_ Hnil]%app_eq_nil. }
  rewrite (concat_split _ _ _ Hblk), <-!app_assoc in Hdata.
  assert (buffer_data v 1 = data b1) as Hbd by (unfold buffer_data; by rewrite (flat_buffers _ _ _ _ _ _ Hview)).
  split; [|rewrite Hbd; eauto]. unfold as_uint. rewrite Hbd, Hdata. cbn. rewrite <-Hpre, <-Hlen.
  apply load_u_block.
Qed.
(** Offsets. *)
Lemma read_offset w j :
  k = Var w → (j <= List.length l)%nat →
  as_int w 1 v (Z.of_nat j) = Some (zlen (concat (take j (blocks k l)))).
Proof.
  intros Hk Hj. pose proof (before_data _ _ _ _ _ _ _ Hb) as Hd.
  pose proof (storage_kind_ok _ _ (before_kind _ _ _ _ _ _ _ Hb)) as Hok.
  assert (holds b1 (concat (le_bytes w <$> offsets (blocks k l))) ∧ total k l <= offset_max w) as [Hb1 Hmax]
    by (clear -Hd Hk; rewrite Hk in *; by destruct Hd as (? & _ & ?)).
  assert (w = 4%nat ∨ w = 8%nat) as Hw by (clear -Hok Hk; by rewrite Hk in Hok).
  assert (offsets (blocks k l) !! j = Some (zlen (concat (take j (blocks k l))))) as Hoff.
  { unfold offsets. rewrite list_lookup_fmap, lookup_seq_lt by (rewrite length_blocks; lia). done. }
  set (z := zlen (concat (take j (blocks k l)))) in *.
  assert (0 <= z <= total k l) as Hz.
  { unfold z, total. split; [apply zlen_nonneg|]. rewrite <-(take_drop j (blocks k l)) at 2.
    rewrite concat_app, zlen_app. pose proof (zlen_nonneg (concat (drop j (blocks k l)))). lia. }
  assert ((le_bytes w <$> offsets (blocks k l)) !! j = Some (le_bytes w z)) as Hblk
    by (by rewrite list_lookup_fmap, Hoff).
  destruct (holds_data_pointer _ _ Hb1) as [post Hdata].
  { rewrite (concat_split _ _ _ Hblk). intros [_ [Hnil _]%app_eq_nil]%app_eq_nil.
    apply (f_equal List.length) in Hnil. rewrite length_le_bytes in Hnil. simpl in Hnil. lia. }
  assert (buffer_data v 1 = data b1) as Hbd by (unfold buffer_data; by rewrite (flat_buffers _ _ _ _ _ _ Hview)).
  unfold as_int. rewrite Hbd, Hdata. cbn [mbind option_bind].
  rewrite (concat_split _ _ _ Hblk), <-!app_assoc.
  replace (Z.of_nat w * Z.of_nat j) with (zlen (concat (take j (le_bytes w <$> offsets (blocks k l))))).
  2:{ rewrite <-fmap_take, zlen_concat_le. apply lookup_lt_Some in Hoff. unfold zlen. rewrite length_take. lia. }
  apply load_i_app; [lia|]. unfold offset_max in Hmax. destruct Hw as [-> | ->]; simpl in Hmax; width.
Qed.
Lemma read_var w :
  k = Var w →
  ∃ s, (o ← as_int w 1 v (Z.of_nat i); o' ← as_int w 1 v (Z.of_nat i + 1);
        p ← pointer_at (buffer_data v 2) o; Some (MkView p (o' - o))) = Some s ∧ shows s (block k o).
Proof.
  intros Hk. destruct read_index as [_ Hlt]. pose proof read_block as Hblk.
  pose proof (before_data _ _ _ _ _ _ _ Hb) as Hd.
  assert (holds b2 (concat (blocks k l))) as Hb2 by (clear -Hd Hk; rewrite Hk in *; by destruct Hd as (_ & ? & _)).
  rewrite (read_offset w i Hk) by (unfold zlen in Hlt; lia). cbn [mbind option_bind].
  replace (Z.of_nat i + 1) with (Z.of_nat (S i)) by lia.
  rewrite (read_offset w (S i) Hk) by (unfold zlen in Hlt; lia). cbn [mbind option_bind].
  rewrite (take_S_r _ _ _ Hblk), concat_app, zlen_app. simpl. rewrite app_nil_r.
  replace (_ + zlen (block k o) - _) with (zlen (block k o)) by lia.
  set (pre := concat (take i (blocks k l))).
  assert (buffer_data v 2 = data b2) as -> by (unfold buffer_data; by rewrite (flat_buffers _ _ _ _ _ _ Hview)).
  destruct (data b2) as [d|] eqn:Ed.
  - destruct (decide (concat (blocks k l) = [])) as [Hnil|Hne].
    + assert (pre = [] ∧ block k o = []) as [-> ->].
      { pose proof (concat_split _ _ _ Hblk) as Hsp. rewrite Hnil in Hsp. fold pre in Hsp.
        symmetry in Hsp. by apply app_eq_nil in Hsp as [? [? _]%app_eq_nil]. }
      cbn [pointer_at]. pose proof (ptr_add_app [] d) as Hp. rewrite app_nil_l in Hp. rewrite Hp. eexists. split; [reflexivity|]. split; [done|]. by eexists.
    + destruct (holds_data_pointer _ _ Hb2 Hne) as [post Hdata]. rewrite Ed in Hdata.
      injection Hdata as ->. rewrite (concat_split _ _ _ Hblk), <-!app_assoc. fold pre.
      cbn [pointer_at]. rewrite ptr_add_app. eexists. split; [reflexivity|]. split; [done|]. by eexists.
  - assert (concat (blocks k l) = []) as Hnil.
    { destruct Hb2 as (_ & <- & _). unfold contents. rewrite Ed. simpl. by rewrite take_nil. }
    assert (pre = [] ∧ block k o = []) as [-> ->].
    { pose proof (concat_split _ _ _ Hblk) as Hsp. rewrite Hnil in Hsp. fold pre in Hsp.
      symmetry in Hsp. by apply app_eq_nil in Hsp as [? [? _]%app_eq_nil]. }
    eexists. split; [reflexivity|]. by split.
Qed.
(** Booleans. *)
Lemma read_bit :
  k = Bits → (d ← buffer_data v 1; ArrowBitGet d (Z.of_nat i)) = Some (if bool_decide (block k o = [1]) then 1 else 0).
Proof.
  intros Hk. destruct read_index as [_ Hlt]. pose proof (before_data _ _ _ _ _ _ _ Hb) as Hd.
  set (bits := (λ b, bool_decide (b = [1])) <$> blocks k l).
  assert (holds_bits bits b1) as (Hwf & Hbits & _) by (unfold bits; clear -Hd Hk; rewrite Hk in *; exact Hd).
  assert (zlen bits = zlen l) as Hbl by (unfold bits, zlen; by rewrite length_fmap, length_blocks).
  assert (bits !! i = Some (bool_decide (block k o = [1]))) as Hl.
  { unfold bits. by rewrite list_lookup_fmap, read_block. }
  pose proof (bitmap_room _ Hwf) as Hroom. simpl in Hroom. pose proof (buffer_block _ (bitmap_buffer _ Hwf)) as Hblk.
  simpl in Hblk. unfold buffer_data. rewrite (flat_buffers _ _ _ _ _ _ Hview). cbn.
  rewrite <-Hbits in Hl. unfold bitmap_bits in Hl. rewrite list_lookup_fmap in Hl. unfold zseq in Hl. simpl in Hl.
  rewrite list_lookup_fmap, lookup_seq_lt in Hl by lia. simpl in Hl. injection Hl as Hl.
  destruct (data b1) as [d|]; [|lia]. destruct Hblk as [Hcap _]. cbn. rewrite ArrowBitGet_bitf by lia.
  simpl in Hl. rewrite Hl. by case_bool_decide.
Qed.
End read.

Definition is_bytes (st : ArrowType) : bool :=
  match st with
  | NANOARROW_TYPE_STRING | NANOARROW_TYPE_BINARY | NANOARROW_TYPE_LARGE_STRING
  | NANOARROW_TYPE_LARGE_BINARY | NANOARROW_TYPE_FIXED_SIZE_BINARY => true
  | _ => false
  end.
Lemma read_bytes st lay k l bm b1 b2 v i o :
  before st lay k l bm b1 b2 → view_of_flat st lay bm b1 b2 v → small k l → l !! i = Some o →
  is_bytes st = true →
  ∃ s, ArrowArrayViewGetBytesUnsafe v (Z.of_nat i) = Some s ∧ shows s (block k o).
Proof.
  intros Hb Hview Hsmall Hi Hst. destruct (read_index st lay k l bm b1 b2 v Hb Hview Hsmall i o Hi) as [Hidx Hlt].
  pose proof (before_kind _ _ _ _ _ _ _ Hb) as Hk.
  unfold ArrowArrayViewGetBytesUnsafe, ArrowArrayViewGetStringUnsafe.
  rewrite Hidx, (flat_type _ _ _ _ _ _ Hview), (flat_layout _ _ _ _ _ _ Hview).
  destruct st; simpl in Hst, Hk; try done; try (by eapply read_var).
  destruct Hk as (w & Hw & Hk).
  assert (element_size_bits lay !! 1%nat = Some (8 * Z.of_nat w)) as -> by (by rewrite (before_sizes _ _ _ _ _ _ _ Hb), Hk).
  cbn [mbind option_bind]. rewrite (Z.mul_comm 8), Z.quot_mul by lia.
  destruct (read_fixed _ lay k l bm b1 b2 v Hb Hview i o Hi w Hk) as (_ & pre & post & -> & Hpre).
  cbn [pointer_at]. rewrite (Z.mul_comm (Z.of_nat i)), <-Hpre, ptr_add_app. eexists. split; [reflexivity|].
  split; [|by eexists]. simpl. pose proof (before_blocks _ _ _ _ _ _ _ Hb) as Hbl. rewrite Forall_lookup in Hbl.
  destruct (Hbl _ _ (read_block k l i o Hi)) as [_ Hlen]. rewrite Hk in Hlen |- *. unfold zlen. by rewrite Hlen.
Qed.
Lemma read_int st lay k l bm b1 b2 v i o lo hi w z :
  before st lay k l bm b1 b2 → view_of_flat st lay bm b1 b2 v → small k l → l !! i = Some o →
  int_bounds st = Some (lo, hi, w) → lo <= z <= hi → block k o = le_bytes w z →
  ArrowArrayViewGetIntUnsafe v (Z.of_nat i) = Some (i64 z) ∧
  ArrowArrayViewGetUIntUnsafe v (Z.of_nat i) = Some (u64 z).
Proof.
  intros Hb Hview Hsmall Hi Hst Hz Hblk. destruct (read_index st lay k l bm b1 b2 v Hb Hview Hsmall i o Hi) as [Hidx Hlt].
  pose proof (before_kind _ _ _ _ _ _ _ Hb) as Hk.
  assert (as_uint w 1 v (Z.of_nat i) = Some (z mod 2 ^ (8 * Z.of_nat w))) as Hu.
  { destruct (read_fixed st lay k l bm b1 b2 v Hb Hview i o Hi w) as [-> _].
    - destruct st; simpl in Hk, Hst; try done; injection Hst as <- <- <-; done.
    - by rewrite Hblk, le_val_le_bytes, pow256_pow2. }
  assert (as_int w 1 v (Z.of_nat i) = Some (swrap (8 * Z.of_nat w) z)) as Hs.
  { unfold as_uint in Hu. unfold as_int. destruct (buffer_data v 1) as [d|]; [|done]. cbn [mbind option_bind] in *.
    unfold load_i. rewrite Hu. simpl. rewrite swrap_mod; [done|].
    destruct st; simpl in Hst; try done; injection Hst as <- <- <-; lia. }
  unfold ArrowArrayViewGetIntUnsafe, ArrowArrayViewGetUIntUnsafe. rewrite Hidx, (flat_type _ _ _ _ _ _ Hview).
  destruct st; simpl in Hst; try done; injection Hst as <- <- <-; rewrite ?Hs, ?Hu; simpl;
    rewrite ?swrap_small, ?Z.mod_small by (simpl; width); (split; [f_equal|f_equal]); try done;
    symmetry; try (apply i64_small; width); try (apply uwrap_small; width).
Qed.

(** C18.  What was appended is what is read.  Through the view that
    [ArrowArrayViewInitFromArray] makes of a built array, [ArrowArrayViewIsNull]
    tells exactly the nulls, [ArrowArrayViewGetIntUnsafe] and
    [ArrowArrayViewGetUIntUnsafe] return every integer in the range of its type,
    [ArrowArrayViewGetDoubleUnsafe] the representation of every double, the
    functions for bytes and strings exactly the bytes of the element, and
    booleans come back as 0 or 1. *)
Theorem builder_read_back `{!Malloc} (st : ArrowType) (k : col_kind) (l : column) (a : array)
    (s0 s : mstate) (v0 v : ArrowArrayView) (i : nat) (o : option (list Z))
    (Hst : storage_kind st k) (Ha : repr st k l a) (Hsmall : small k l)
    (Hview : ArrowArrayViewInitFromArray (ArrayLive a) (s0, v0) = Ok tt (s, v))
    (Hi : l !! i = Some o) :
  ArrowArrayViewIsNull v (Z.of_nat i) = Some (negb (is_valid o)) ∧
  (∀ lo hi w z, int_bounds st = Some (lo, hi, w) → lo <= z <= hi → o = Some (le_bytes w z) →
     ArrowArrayViewGetIntUnsafe v (Z.of_nat i) = Some (i64 z) ∧
     ArrowArrayViewGetUIntUnsafe v (Z.of_nat i) = Some (u64 z)) ∧
  (∀ x, st = NANOARROW_TYPE_DOUBLE → 0 <= x < 2 ^ 64 → o = Some (le_bytes 8 x) →
     ArrowArrayViewGetDoubleUnsafe v (Z.of_nat i) = Some x) ∧
  (is_bytes st = true →
     ∃ b, ArrowArrayViewGetBytesUnsafe v (Z.of_nat i) = Some b ∧ shows b (block k o)) ∧
  (st = NANOARROW_TYPE_BOOL →
     ArrowArrayViewGetIntUnsafe v (Z.of_nat i) = Some (if bool_decide (o = Some [1]) then 1 else 0)).
Proof.
  destruct Ha as [lay flag nb ptrs bm b1 b2 Ht Hs Hv Hd Hl]. apply view_init_flat in Hview.
  assert (before st lay k l bm b1 b2) as Hb by done.
  destruct (read_index st lay k l bm b1 b2 v Hb Hview Hsmall i o Hi) as [Hidx Hlt]. split_and!.
  - pose proof (read_validity st lay k l bm b1 b2 v Hb Hview Hsmall i o Hi) as Hnull.
    unfold ArrowArrayViewIsNull. rewrite Hidx, (flat_type _ _ _ _ _ _ Hview). by destruct st.
  - intros lo hi w z Hbounds Hz ->. by eapply read_int.
  - intros x -> Hx ->. unfold ArrowArrayViewGetDoubleUnsafe. rewrite Hidx, (flat_type _ _ _ _ _ _ Hview).
    destruct (read_fixed _ lay k l bm b1 b2 v Hb Hview i _ Hi 8 Hst) as [-> _].
    change (block k (Some (le_bytes 8 x))) with (le_bytes 8 x). rewrite le_val_le_bytes. f_equal.
    by apply Z.mod_small.
  - intros Hbytes. by eapply read_bytes.
  - intros ->. pose proof (read_bit _ lay k l bm b1 b2 v Hb Hview Hsmall i o Hi Hst) as Hbit.
    unfold ArrowArrayViewGetIntUnsafe. rewrite Hidx, (flat_type _ _ _ _ _ _ Hview), Hbit. f_equal.
    rewrite Hst. destruct o as [b|]; simpl.
    + by repeat case_bool_decide; simplify_eq.
    + done.
Qed.

(** The integers 7 and -1 around a null. *)
Definition example_builder : M ArrowArray unit :=
  @ArrowArrayStartAppending (libc_limited 1000) ;;;
  mfor [BInt 7; BNull 1; BInt (-1)] (@run_build (libc_limited 1000)).
Definition example_fresh : ArrowArray :=
  fresh NANOARROW_TYPE_INT16 (ArrowLayoutInit NANOARROW_TYPE_INT16) 1 2.
Lemma example_builder_wp :
  wp example_builder example_fresh
    (λ _ arr, ∃ l, build_specs NANOARROW_TYPE_INT16 (Fixed 2) [] [BInt 7; BNull 1; BInt (-1)] = inr l ∧
              live_repr NANOARROW_TYPE_INT16 (Fixed 2) l arr)
    (λ e _, e = ENOMEM ∨
            build_specs NANOARROW_TYPE_INT16 (Fixed 2) [] [BInt 7; BNull 1; BInt (-1)] = inl e).
Proof.
  apply builder_wp; [reflexivity..| |vm_compute; discriminate].
  repeat constructor; simpl; try discriminate; width.
Qed.
Lemma example_builder_ok :
  match example_builder example_fresh with Ok _ _ => true | _ => false end = true.
Proof. vm_compute. reflexivity. Qed.
Lemma example_builder_repr :
  ∃ arr, example_builder example_fresh = Ok tt arr ∧
    live_repr NANOARROW_TYPE_INT16 (Fixed 2) [Some (le_bytes 2 7); None; Some (le_bytes 2 (-1))] arr.
Proof.
  destruct (wp_run _ _ _ _ example_builder_wp example_builder_ok) as ([] & arr & Hrun & l & Hl & Harr).
  exists arr. split; [exact Hrun|].
  assert (build_specs NANOARROW_TYPE_INT16 (Fixed 2) [] [BInt 7; BNull 1; BInt (-1)] =
    inr [Some (le_bytes 2 7); None; Some (le_bytes 2 (-1))]) as Hspec by reflexivity.
  rewrite Hspec in Hl. by injection Hl as <-.
Qed.
Lemma builder_read_back_witness :
  ∃ arr v, example_builder example_fresh = Ok tt arr ∧
    ArrowArrayViewIsNull v 1 = Some true ∧ ArrowArrayViewGetIntUnsafe v 2 = Some (-1).
Proof.
  destruct example_builder_repr as (arr & Hrun & a & -> & Ha).
  assert (storage_kind NANOARROW_TYPE_INT16 (Fixed 2)) as Hst by reflexivity.
  assert (small (Fixed 2) [Some (le_bytes 2 7); None; Some (le_bytes 2 (-1))]) as Hsmall
    by (vm_compute; discriminate).
  assert (∃ v, @ArrowArrayViewInitFromArray malloc_budget (ArrayLive a)
    (10%nat, ArrowArrayViewInitFromType NANOARROW_TYPE_UNINITIALIZED) = Ok tt (9%nat, v)) as [v Hview].
  { destruct Ha. eexists. cbn [ArrowArrayViewInitFromArray flat]. unfold or_reset, on_error, modify, mmod, mbind_.
    rewrite allocate_no_children by done. reflexivity. }
  exists (ArrayLive a), v. split; [exact Hrun|]. split.
  - destruct (@builder_read_back malloc_budget _ _ _ a _ _ _ v 1 None Hst Ha Hsmall Hview eq_refl) as [H _].
    exact H.
  - destruct (@builder_read_back malloc_budget _ _ _ a _ _ _ v 2 _ Hst Ha Hsmall Hview eq_refl) as (_ & H & _).
    destruct (H INT16_MIN INT16_MAX 2%nat (-1) eq_refl) as [H1 _]; [width|reflexivity|exact H1].
Defined.

(** ** Appends that go wrong *)

(** The state after starting an array of a type and running a function on it. *)
Definition run_on (st : ArrowType) (nb : Z) (f : ArrowArray → outcome ArrowArray unit) :
    outcome ArrowArray unit :=
  (@ArrowArrayStartAppending (libc_limited 1000) ;;; f) (fresh st (ArrowLayoutInit st) 1 nb).

(** [_ArrowArrayAppendBits] makes room for one more bit and then writes [n]:
    appending more than eight nulls, or empty values, to an array of booleans
    at once writes beyond the memory of the data buffer. *)
Theorem append_bits_overrun :
  Forall (λ n, run_on NANOARROW_TYPE_BOOL 2 (@ArrowArrayAppendNull (libc_limited 1000) n) = UB ∧
               run_on NANOARROW_TYPE_BOOL 2 (@ArrowArrayAppendEmpty (libc_limited 1000) n) = UB)
    [9; 16; 17; 100].
Proof. repeat constructor; vm_compute; reflexivity. Qed.

(** [ArrowArrayAppendInterval] adds no bit to a validity bitmap that exists: after
    a null and an interval the array has two elements and one validity bit. *)
Theorem append_interval_validity :
  match run_on NANOARROW_TYPE_INTERVAL_MONTHS 2 (λ arr,
          match @ArrowArrayAppendNull (libc_limited 1000) 1 arr with
          | Ok _ arr' => on_array (@ArrowArrayAppendInterval (libc_limited 1000)
              (MkInterval NANOARROW_TYPE_INTERVAL_MONTHS 5 0 0 0)) arr'
          | r => r
          end) with
  | Ok _ (ArrayLive a) =>
      (array_length a, (λ p, size_bits (bitmap p)) <$> array_private a) = (2, Some 1)
  | _ => False
  end.
Proof. vm_compute. reflexivity. Qed.

(** The two tables of storage types agree: the number of buffers
    [ArrowArraySetStorageType] gives an array is the number of buffers
    [ArrowArrayViewSetArrayInternal] requires of an array with the layout that
    [ArrowLayoutInit] gives the type. *)
Theorem storage_layout_agree (st : ArrowType) (n : Z) (p0 p1 p2 : option (list Z)) (views : list ArrowView)
    (Hn : storage_n_buffers st = Some n) (Hviews : List.length views = 3%nat) :
  ∃ views', set_array_buffers (buffer_type (ArrowLayoutInit st)) [p0; p1; p2] 0 views = Some (n, views').
Proof.
  destruct views as [|w0 [|w1 [|w2 [|w3 views]]]]; try discriminate Hviews.
  destruct st; try discriminate Hn; injection Hn as <-; eexists; reflexivity.
Qed.
Lemma storage_layout_agree_witness :
  ∃ views', set_array_buffers (buffer_type (ArrowLayoutInit NANOARROW_TYPE_STRING)) [None; Some [0]; None] 0
    (replicate 3 (MkView None 0)) = Some (3, views').
Proof. apply (storage_layout_agree NANOARROW_TYPE_STRING 3); reflexivity. Defined.
