(* ===== verification/Stream.v ===== *)
(** * Streams over arrays in memory (nanoarrow.c, array_stream.c part)

    [ArrowBasicArrayStream]: a stream that owns a schema and an array of arrays,
    and gives the arrays away one by one.  The stream a caller passes to the
    initialisation may be anything: released, another live stream, or memory
    that was never written. *)

From stdpp Require Import base numbers list option.
From S2P Require Import Prelude CInt Buffer Types Schema SchemaView ArrayView Array.
#[local] Open Scope Z_scope.
#[local] Open Scope c_scope.

Record BasicArrayStreamPrivate : Set := MkStreamPrivate {
  stream_schema : ArrowSchema;
  n_arrays : Z;
  arrays : option (list ArrowArray);
  arrays_i : Z;
}.
(** [StreamReleased]: [release] is NULL; [StreamUninitialized]: no member was
    written. *)
Inductive ArrowArrayStream : Set :=
  | StreamUninitialized
  | StreamReleased
  | StreamLive (p : BasicArrayStreamPrivate).

Definition ArrowArrayStreamMove (src : ArrowArrayStream) : ArrowArrayStream * ArrowArrayStream :=
  (src, StreamReleased).
Definition ArrowSchemaMove (src : ArrowSchema) : ArrowSchema * ArrowSchema := (src, SchemaReleased).

Section stream.
Context `{!Malloc}.

(** [array_stream == NULL || array_stream->release == NULL] returns [EINVAL]. *)
Definition stream_private {S A} (stream : option ArrowArrayStream) (k : BasicArrayStreamPrivate → M S A) :
    M S A :=
  match stream with
  | None | Some StreamReleased => mfail EINVAL
  | Some StreamUninitialized => mundef
  | Some (StreamLive p) => k p
  end.
Definition ArrowBasicArrayStreamGetSchema (stream : option ArrowArrayStream) :
    M (mstate * ArrowSchema) unit :=
  stream_private stream (λ p, ArrowSchemaDeepCopy (stream_schema p)).

(** The state is the stream; the result is the array written to [*array]. *)
Definition ArrowBasicArrayStreamGetNext : M ArrowArrayStream ArrowArray := λ stream,
  stream_private (Some stream) (λ p,
    if arrays_i p =? n_arrays p then mret_ ArrayReleased
    else
      let* l := deref (arrays p) in
      let* a := deref (znth l (arrays_i p)) in
      let '(out, src) := ArrowArrayMove a in
      mmod (λ _, StreamLive (MkStreamPrivate (stream_schema p) (n_arrays p)
        (Some (<[Z.to_nat (arrays_i p) := src]> l)) (i64 (arrays_i p + 1)))) ;;;
      mret_ out) stream.
Definition ArrowBasicArrayStreamGetLastError (stream : ArrowArrayStream) : option (list Z) := None.

(** Releasing logs the objects whose release callback is run, in order. *)
Abbreviation release_log := (list (ArrowSchema + ArrowArray)).
Definition log_schema (s : ArrowSchema) : release_log :=
  match s with SchemaReleased => [] | _ => [inl s] end.
Definition log_array (a : ArrowArray) : release_log :=
  match a with ArrayReleased => [] | _ => [inr a] end.
Definition ArrowBasicArrayStreamRelease (stream : option ArrowArrayStream) :
    M (release_log * option ArrowArrayStream) unit := λ '(log, _),
  match stream with
  | None | Some StreamReleased => Ok tt (log, stream)
  | Some StreamUninitialized => UB
  | Some (StreamLive p) =>
      match (if 0 <? n_arrays p then l ← arrays p; zslice l 0 (n_arrays p) else Some []) with
      | None => UB
      | Some l =>
          Ok tt (log ++ log_schema (stream_schema p) ++ concat (log_array <$> l), Some StreamReleased)
      end
  end.

Definition sizeof_BasicArrayStreamPrivate : Z := 96.
(** The state is the stream and the schema of the caller.  When there is no
    memory for the arrays, the stream of the caller is released as it was: the
    private data and the schema that was moved into it are lost. *)
Definition ArrowBasicArrayStreamInit (n : Z) : M (mstate * (ArrowArrayStream * ArrowSchema)) unit :=
  let* ok := ArrowMalloc sizeof_BasicArrayStreamPrivate in
  if ok : bool then
    let* schema := get snd in
    let '(dst, src) := ArrowSchemaMove schema in
    modify (λ s, (s.1, src)) ;;;
    let* l := (if 0 <? n then
      let* ok := ArrowMalloc (i64 (n * sizeof_ArrowArray)) in
      if ok : bool then
        (if INT64_MAX <? n * sizeof_ArrowArray then mundef else mret_ tt) ;;;
        mret_ (Some (replicate (Z.to_nat n) ArrayReleased))
      else
        let* stream := get fst in
        match ArrowBasicArrayStreamRelease (Some stream) ([], Some stream) with
        | Ok _ (_, Some stream') => modify (λ s, (stream', s.2)) ;;; mfail ENOMEM
        | _ => mundef
        end
    else mret_ None) in
    modify (λ s, (StreamLive (MkStreamPrivate dst n l 0), s.2))
  else mfail ENOMEM.

(** [array] is moved into place [i]; the result is the caller's array. *)
Definition ArrowBasicArrayStreamSetArray (i : Z) (array : ArrowArray) : M ArrowArrayStream ArrowArray :=
  λ stream,
    match stream with
    | StreamLive p =>
        (let* l := deref (arrays p) in
         let '(dst, src) := ArrowArrayMove array in
         let* l' := deref (zset l i dst) in
         mmod (λ _, StreamLive (MkStreamPrivate (stream_schema p) (n_arrays p) (Some l') (arrays_i p))) ;;;
         mret_ src) stream
    | _ => UB
    end.

(** The view is local to the function and reused for every array. *)
Fixpoint validate_arrays (l : list ArrowArray) (v : ArrowArrayView) : outcome ArrowArrayView unit :=
  match l with
  | [] => Ok tt v
  | ArrayReleased :: l' => validate_arrays l' v
  | a :: l' =>
      match ArrowArrayViewSetArray v a with
      | Ok _ v' => validate_arrays l' v'
      | Err e v' => Err e (ArrowArrayViewReset v')
      | UB => UB
      end
  end.
Definition ArrowBasicArrayStreamValidate (stream : ArrowArrayStream) : M (mstate * unit) unit := λ '(s, _),
  match stream with
  | StreamLive p =>
      match ArrowArrayViewInitFromSchema (stream_schema p)
              (s, ArrowArrayViewInitFromType NANOARROW_TYPE_UNINITIALIZED) with
      | UB => UB
      | Err e (s', _) => Err e (s', tt)
      | Ok _ (s', v) =>
          match (if 0 <? n_arrays p then l ← arrays p; zslice l 0 (n_arrays p) else Some []) with
          | None => UB
          | Some l =>
              match validate_arrays l v with
              | Ok _ _ => Ok tt (s', tt)
              | Err e _ => Err e (s', tt)
              | UB => UB
              end
          end
      end
  | _ => UB
  end.

(** ** Every array is given away once *)

(** [k] calls of [get_next]: the arrays they gave and the stream afterwards. *)
Fixpoint get_next_times (k : nat) (stream : ArrowArrayStream) : outcome ArrowArrayStream (list ArrowArray) :=
  match k with
  | O => Ok [] stream
  | S k' =>
      match ArrowBasicArrayStreamGetNext stream with
      | Ok a stream' =>
          match get_next_times k' stream' with
          | Ok l stream'' => Ok (a :: l) stream''
          | r => r
          end
      | Err e stream' => Err e stream'
      | UB => UB
      end
  end.
(** The stream once the first [i] of the arrays [l] were given away. *)
Definition stream_after (schema : ArrowSchema) (l : list ArrowArray) (i : nat) : ArrowArrayStream :=
  StreamLive (MkStreamPrivate schema (zlen l)
    (Some (replicate i ArrayReleased ++ drop i l)) (Z.of_nat i)).

Lemma get_next_step schema l i a :
  l !! i = Some a → zlen l <= INT64_MAX →
  ArrowBasicArrayStreamGetNext (stream_after schema l i) = Ok a (stream_after schema l (S i)).
Proof.
  intros Hi Hmax. pose proof (lookup_lt_Some _ _ _ Hi) as Hlt.
  unfold ArrowBasicArrayStreamGetNext, stream_after. cbn [stream_private arrays_i n_arrays arrays].
  destruct (Z.eqb_spec (Z.of_nat i) (zlen l)) as [E|_]; [unfold zlen in E; lia|].
  assert (znth (replicate i ArrayReleased ++ drop i l) (Z.of_nat i) = Some a) as Ha.
  { rewrite znth_lookup, Nat2Z.id by lia. rewrite lookup_app_r, length_replicate by (rewrite length_replicate; lia).
    by rewrite lookup_drop, Nat.sub_diag, Nat.add_0_r. }
  unfold mbind_, deref, mret_, mmod. cbv beta iota zeta. rewrite Ha. cbv beta iota zeta delta [ArrowArrayMove].
  do 3 f_equal.
  - f_equal. rewrite Nat2Z.id. rewrite insert_app_r_alt, length_replicate, Nat.sub_diag by (rewrite length_replicate; lia).
    rewrite (drop_S _ _ _ Hi), replicate_S_end, <-app_assoc. done.
  - unfold zlen in Hmax. rewrite i64_small by width. lia.
Qed.
Lemma get_next_end schema l :
  ArrowBasicArrayStreamGetNext (stream_after schema l (List.length l)) =
    Ok ArrayReleased (stream_after schema l (List.length l)).
Proof.
  unfold ArrowBasicArrayStreamGetNext, stream_after. cbn [stream_private arrays_i n_arrays].
  by rewrite (proj2 (Z.eqb_eq _ _)) by done.
Qed.
Lemma get_next_times_spec schema l k : ∀ i,
  (i <= List.length l)%nat → zlen l <= INT64_MAX →
  get_next_times k (stream_after schema l i) =
    Ok (take k (drop i l) ++ replicate (k - (List.length l - i)) ArrayReleased)
       (stream_after schema l ((i + k) `min` List.length l)).
Proof.
  induction k as [|k IH]; intros i Hi Hmax; cbn [get_next_times].
  { by rewrite Nat.add_0_r, Nat.min_l by done. }
  destruct (l !! i) as [a|] eqn:Ha.
  - pose proof (lookup_lt_Some _ _ _ Ha). rewrite (get_next_step schema l i a) by done.
    rewrite IH by (done || lia). rewrite (drop_S _ _ _ Ha). cbn [take app]. do 2 f_equal.
    + f_equal. f_equal. lia.
    + f_equal. lia.
  - apply lookup_ge_None in Ha. assert (i = List.length l) as -> by lia. rewrite get_next_end.
    rewrite IH by (done || lia). rewrite drop_all, !take_nil, Nat.sub_diag, !Nat.sub_0_r.
    rewrite !Nat.min_r by lia. done.
Qed.
Lemma release_after schema l i s :
  (i <= List.length l)%nat →
  ArrowBasicArrayStreamRelease (Some (stream_after schema l i)) ([], s) =
    Ok tt (log_schema schema ++ concat (log_array <$> drop i l), Some StreamReleased).
Proof.
  intros Hi. unfold ArrowBasicArrayStreamRelease, stream_after. cbn [n_arrays arrays stream_schema].
  assert (∀ j, concat (log_array <$> replicate j ArrayReleased) = []) as Hrep.
  { induction j as [|j IH]; [done|]. by rewrite replicate_S, fmap_cons. }
  assert (zlen (replicate i ArrayReleased ++ drop i l) = zlen l) as Hlen.
  { rewrite zlen_app. unfold zlen. rewrite length_replicate, length_drop. lia. }
  destruct (Z.ltb_spec 0 (zlen l)).
  - cbn [mbind option_bind]. rewrite zslice_in by lia. change (Z.to_nat 0) with 0%nat.
    rewrite drop_0, take_ge by (unfold zlen in *; lia). by rewrite fmap_app, concat_app, Hrep.
  - destruct l; [|rewrite zlen_cons in *; pose proof (zlen_nonneg l); lia]. by rewrite drop_nil.
Qed.

(** C21.  The stream gives every array away exactly once, in order, and then
    reports the end for ever; releasing it afterwards runs the release callback
    of the schema and of exactly the arrays that were not given away, so that
    no array is released twice or lost. *)
Theorem stream_gives_once (schema : ArrowSchema) (l : list ArrowArray) (k : nat)
    (Hmax : zlen l <= INT64_MAX) :
  ∃ stream,
    get_next_times k (stream_after schema l 0) =
      Ok (take k l ++ replicate (k - List.length l) ArrayReleased) stream ∧
    ArrowBasicArrayStreamRelease (Some stream) ([], Some stream) =
      Ok tt (log_schema schema ++ concat (log_array <$> drop k l), Some StreamReleased).
Proof.
  eexists. split.
  - rewrite get_next_times_spec by (done || lia). by rewrite drop_0, Nat.sub_0_r.
  - rewrite release_after by lia. simpl. destruct (decide (k <= List.length l)%nat) as [Hk|Hk].
    + by rewrite Nat.min_l.
    + rewrite Nat.min_r by lia. by rewrite !drop_ge by lia.
Qed.
End stream.

Definition example_array (n : Z) : ArrowArray := ArrayLive (MkArray n 0 0 0 0 [] None None None).
Lemma stream_gives_once_witness :
  ∃ stream,
    get_next_times 3 (stream_after SchemaReleased [example_array 1; example_array 2] 0) =
      Ok [example_array 1; example_array 2; ArrayReleased] stream.
Proof.
  destruct (stream_gives_once SchemaReleased [example_array 1; example_array 2] 3) as (stream & H & _);
    [vm_compute; discriminate|]. exists stream. exact H.
Defined.

(** A stream initialised in memory that was never written: when there is memory
    for the private data and not for the arrays, the function releases a stream
    that is not one. *)
Theorem stream_init_uninitialized (schema : ArrowSchema) :
  @ArrowBasicArrayStreamInit malloc_budget 3 (1%nat, (StreamUninitialized, schema)) = UB.
Proof. reflexivity. Qed.
