(* ===== verification/Decimal.v ===== *)
(** * Decimals (nanoarrow.h, [struct ArrowDecimal])

    The unscaled value of a decimal is a two's complement integer of two or four
    64-bit words, lowest word first on the little-endian targets the sources are
    compiled for. *)

From stdpp Require Import base numbers list option.
From S2P Require Import Prelude CInt Buffer Bits Bitmap Types Metadata Schema SchemaView ArrayView Array.
#[local] Open Scope Z_scope.
#[local] Open Scope c_scope.

Record ArrowDecimal : Set := MkDecimal {
  words : list Z;
  precision : Z;
  scale : Z;
  n_words : Z;
  high_word_index : Z;
  low_word_index : Z;
}.
Definition set_words (w : list Z) (d : ArrowDecimal) : ArrowDecimal :=
  MkDecimal w (precision d) (scale d) (n_words d) (high_word_index d) (low_word_index d).

(** [_ArrowIsLittleEndian()] is 1. *)
Definition ArrowDecimalInit (bitwidth precision scale : Z) : ArrowDecimal :=
  let n := i32 (u64 (Z.quot bitwidth 8) / 8) in
  MkDecimal [0; 0; 0; 0] precision scale n (i32 (n - 1)) 0.
Definition ArrowDecimalGetIntUnsafe (d : ArrowDecimal) : option Z :=
  i64 <$> znth (words d) (low_word_index d).
(** The bytes of [decimal->words] in memory. *)
Definition words_bytes (l : list Z) : list Z := concat (le_bytes 8 <$> l).
Definition ArrowDecimalGetBytes (d : ArrowDecimal) : option (list Z) :=
  zslice (words_bytes (words d)) 0 (n_words d * 8).
Definition ArrowDecimalSign (d : ArrowDecimal) : option Z :=
  w ← znth (words d) (high_word_index d);
  Some (Z.lor 1 (Z.shiftr (i64 w) 63)).
(** [memset(decimal->words, b, decimal->n_words * sizeof(uint64_t))], of whole
    words *)
Definition fill_words (b : Z) (d : ArrowDecimal) : option (list Z) :=
  if (0 <=? n_words d) && (n_words d <=? zlen (words d))
  then Some (replicate (Z.to_nat (n_words d)) (le_val (replicate 8 b)) ++
             drop (Z.to_nat (n_words d)) (words d))
  else None.
Definition ArrowDecimalSetInt (value : Z) (d : ArrowDecimal) : option ArrowDecimal :=
  w ← fill_words (if value <? 0 then 255 else 0) d;
  w' ← zset w (low_word_index d) (u64 value);
  Some (set_words w' d).
(** [value] points to the bytes; the words are read from memory. *)
Definition ArrowDecimalSetBytes (value : list Z) (d : ArrowDecimal) : option ArrowDecimal :=
  if (0 <=? n_words d) && (n_words d <=? zlen (words d)) then
    w ← mapM (λ i, load_u 8 value (8 * i)) (zseq (n_words d));
    Some (set_words (w ++ drop (Z.to_nat (n_words d)) (words d)) d)
  else None.

Definition ArrowArrayAppendDecimal `{!Libc} (value : ArrowDecimal) : M array unit :=
  let* p := get_private in
  let append n :=
    if n_words value =? n then
      ArrowArrayBuffer 1 (ArrowBufferAppend (Some (words_bytes (words value))) (n * 8)) ;;;
      finish_append
    else mfail EINVAL in
  match private_storage_type p with
  | NANOARROW_TYPE_DECIMAL128 => append 2
  | NANOARROW_TYPE_DECIMAL256 => append 4
  | _ => mfail EINVAL
  end.
Definition ArrowArrayViewGetDecimalUnsafe (v : ArrowArrayView) (i : Z) (out : ArrowDecimal) :
    option ArrowDecimal :=
  let i := i64 (i + offset v) in
  let at_ w :=
    d ← buffer_data v 1;
    p ← ptr_add d (i * w);
    ArrowDecimalSetBytes p out in
  match view_storage_type v with
  | NANOARROW_TYPE_DECIMAL128 => at_ 16
  | NANOARROW_TYPE_DECIMAL256 => at_ 32
  | _ => Some (set_words [0; 0; 0; 0] out)
  end.

(** ** The value of a decimal *)
Definition word_ok (w : Z) : Prop := 0 <= w < 2 ^ 64.
Definition unsigned_value (l : list Z) : Z := foldr (λ w r, w + 2 ^ 64 * r) 0 l.
Definition decimal_value (d : ArrowDecimal) : Z :=
  swrap (64 * n_words d) (unsigned_value (take (Z.to_nat (n_words d)) (words d))).
(** A decimal of two or four words. *)
Record decimal_wf (d : ArrowDecimal) : Prop := {
  decimal_words : List.length (words d) = 4%nat;
  decimal_words_ok : Forall word_ok (words d);
  decimal_n_words : n_words d = 2 ∨ n_words d = 4;
  decimal_high : high_word_index d = n_words d - 1;
  decimal_low : low_word_index d = 0;
}.
Lemma decimal_init_wf bitwidth p s :
  bitwidth = 128 ∨ bitwidth = 256 → decimal_wf (ArrowDecimalInit bitwidth p s).
Proof.
  assert (Forall word_ok [0; 0; 0; 0]) as H0 by (apply (Forall_replicate word_ok 4%nat 0); split; lia).
  intros [-> | ->]; (split; [reflexivity|exact H0| |reflexivity|reflexivity]); [by left|by right].
Qed.
Lemma words_split d : decimal_wf d → ∃ a b c e, words d = [a; b; c; e].
Proof.
  intros [Hl _ _ _ _]. destruct (words d) as [|a [|b [|c [|e [|f l]]]]]; try discriminate Hl. eauto.
Qed.
Lemma sign_of_word w :
  Z.lor 1 (Z.shiftr (i64 w) 63) = if i64 w <? 0 then -1 else 1.
Proof.
  pose proof (swrap_range 64 w ltac:(lia)) as Hr. fold i64 in Hr. change (swrap 64 w) with (i64 w) in Hr.
  rewrite Z.shiftr_div_pow2 by lia. destruct (Z.ltb_spec (i64 w) 0).
  - replace (i64 w / 2 ^ 63) with (-1); [done|]. apply Z.div_unique with (i64 w + 2 ^ 63); lia.
  - rewrite Z.div_small by lia. done.
Qed.
Lemma u64_of_int v : INT64_MIN <= v <= INT64_MAX → u64 v = if v <? 0 then v + 2 ^ 64 else v.
Proof.
  intros Hv. unfold u64, uwrap. destruct (Z.ltb_spec v 0).
  - symmetry. apply Z.mod_unique with (-1); width.
  - apply Z.mod_small. width.
Qed.
Lemma swrap_add w z n : 0 < w → swrap w (z + 2 ^ w * n) = swrap w z.
Proof.
  intros Hw. unfold swrap. replace (z + 2 ^ w * n + 2 ^ (w - 1)) with (z + 2 ^ (w - 1) + n * 2 ^ w) by lia.
  rewrite Z.mod_add; [done|]. pose proof (Z.pow_pos_nonneg 2 w). lia.
Qed.

(** C22.  [ArrowDecimalSetInt] stores any 64-bit integer, sign-extended to the
    two or four words of the decimal: the value of the decimal is the integer,
    [ArrowDecimalGetIntUnsafe] returns it and [ArrowDecimalSign] its sign. *)
Theorem decimal_set_int (d : ArrowDecimal) (v : Z) (Hd : decimal_wf d)
    (Hv : INT64_MIN <= v <= INT64_MAX) :
  ∃ d', ArrowDecimalSetInt v d = Some d' ∧ decimal_wf d' ∧ decimal_value d' = v ∧
    ArrowDecimalGetIntUnsafe d' = Some v ∧
    ArrowDecimalSign d' = Some (if v <? 0 then -1 else 1).
Proof.
  destruct (words_split d Hd) as (a & b & c & e & Hw). destruct Hd as [_ Hok Hn Hhi Hlo].
  rewrite Hw in Hok. apply Forall_cons_1 in Hok as [_ [_ [Hc [He _]%Forall_cons_1]%Forall_cons_1]%Forall_cons_1].
  set (f := if v <? 0 then 2 ^ 64 - 1 else 0).
  assert (word_ok f ∧ word_ok (u64 v)) as [Hf Hu].
  { rewrite u64_of_int by done. unfold word_ok, f. destruct (Z.ltb_spec v 0); split; width. }
  assert (i64 (u64 v) = v) as Hiu.
  { unfold i64, u64, uwrap. rewrite swrap_mod by lia. apply i64_small. done. }
  assert (le_val (replicate 8 (if v <? 0 then 255 else 0)) = f) as Hfill by (unfold f; by destruct (v <? 0)).
  assert (swrap 128 (u64 v + 2 ^ 64 * (f + 2 ^ 64 * 0)) = v ∧
    swrap 256 (u64 v + 2 ^ 64 * (f + 2 ^ 64 * (f + 2 ^ 64 * (f + 2 ^ 64 * 0)))) = v) as [H2 H4].
  { rewrite u64_of_int by done. unfold f. destruct (Z.ltb_spec v 0).
    - split.
      + replace (v + 2 ^ 64 + _) with (v + 2 ^ 128 * 1) by lia. rewrite swrap_add by lia. apply swrap_small; width.
      + replace (v + 2 ^ 64 + _) with (v + 2 ^ 256 * 1) by lia. rewrite swrap_add by lia. apply swrap_small; width.
    - split; rewrite ?Z.mul_0_r, ?Z.add_0_r; apply swrap_small; width. }
  assert (Z.lor 1 (Z.shiftr (i64 f) 63) = if v <? 0 then -1 else 1) as Hsign
    by (unfold f; by destruct (v <? 0)).
  unfold ArrowDecimalSetInt, fill_words, ArrowDecimalGetIntUnsafe, ArrowDecimalSign. rewrite Hw, Hlo, Hfill.
  destruct Hn as [Hn|Hn]; rewrite Hn in *; eexists; (split; [reflexivity|]).
  all: unfold decimal_value; simpl; rewrite Hn, ?Hhi, ?Hlo; simpl.
  all: split_and!; [split; simpl; rewrite ?Hn; auto|done|by rewrite Hiu|by rewrite Hsign].
Qed.
Lemma decimal_set_int_witness :
  ∃ d', ArrowDecimalSetInt (-5) (ArrowDecimalInit 128 38 0) = Some d' ∧ decimal_value d' = -5.
Proof.
  destruct (decimal_set_int (ArrowDecimalInit 128 38 0) (-5)) as (d' & H & _ & Hv & _).
  - apply decimal_init_wf. left. reflexivity.
  - width.
  - exists d'. split; [exact H|exact Hv].
Defined.

Lemma zlen_words_bytes l : zlen (words_bytes l) = 8 * zlen l.
Proof.
  unfold words_bytes. induction l as [|x l IH]; [done|]. rewrite fmap_cons. cbn [concat].
  rewrite zlen_app, zlen_cons, IH, zlen_le_bytes. lia.
Qed.
Lemma words_bytes_take n l :
  take (8 * n) (words_bytes l) = words_bytes (take n l).
Proof.
  revert l. induction n as [|n IH]; intros [|x l]; try done.
  replace (8 * S n)%nat with (8 + 8 * n)%nat by lia. unfold words_bytes. rewrite firstn_cons, !fmap_cons.
  cbn [concat]. rewrite <-(length_le_bytes 8 x) at 1. rewrite take_app_add. f_equal. apply IH.
Qed.
Lemma load_words l post :
  Forall word_ok l →
  mapM (λ i, load_u 8 (words_bytes l ++ post) (8 * i)) (zseq (zlen l)) = Some l.
Proof.
  intros Hl. apply mapM_Some_2. rewrite Forall2_lookup. intros i. unfold zseq, zlen. rewrite Nat2Z.id, list_lookup_fmap.
  destruct (l !! i) as [x|] eqn:Hi.
  - rewrite lookup_seq_lt by (by eapply lookup_lt_Some). simpl. constructor.
    rewrite <-(take_drop_middle l i x Hi). unfold words_bytes. rewrite fmap_app, fmap_cons, concat_app. cbn [concat].
    rewrite <-!app_assoc. fold (words_bytes (take i l)).
    replace (8 * Z.of_nat i) with (zlen (words_bytes (take i l))).
    2:{ rewrite zlen_words_bytes. unfold zlen. rewrite length_take. pose proof (lookup_lt_Some _ _ _ Hi). lia. }
    rewrite load_u_app. f_equal. rewrite Forall_lookup in Hl. by apply Z.mod_small, (Hl i).
  - rewrite lookup_seq_ge by (by apply lookup_ge_None). constructor.
Qed.

(** The bytes of a decimal are its value: what [ArrowDecimalGetBytes] copies
    out, [ArrowDecimalSetBytes] copies into a decimal of the same width, whatever
    that held before, with the same value and sign. *)
Theorem decimal_bytes_roundtrip (d d0 : ArrowDecimal) (post : list Z) (Hd : decimal_wf d)
    (Hd0 : decimal_wf d0) (Hwidth : n_words d0 = n_words d) :
  ∃ bs d', ArrowDecimalGetBytes d = Some bs ∧ zlen bs = 8 * n_words d ∧
    ArrowDecimalSetBytes (bs ++ post) d0 = Some d' ∧ decimal_wf d' ∧
    decimal_value d' = decimal_value d ∧ ArrowDecimalSign d' = ArrowDecimalSign d.
Proof.
  set (n := Z.to_nat (n_words d)).
  assert ((n = 2%nat ∨ n = 4%nat) ∧ n_words d = Z.of_nat n) as [Hn Hnw]
    by (unfold n; destruct (decimal_n_words _ Hd) as [-> | ->]; auto).
  assert (zlen (words d) = 4 ∧ zlen (words d0) = 4) as [Hl Hl0]
    by (unfold zlen; by rewrite (decimal_words _ Hd), (decimal_words _ Hd0)).
  set (w := take n (words d)).
  assert (zlen w = Z.of_nat n) as Hw by (unfold w, zlen in *; rewrite length_take; lia).
  assert (Forall word_ok w) as Hwok by (apply Forall_take, Hd).
  exists (words_bytes w). eexists. split; [|split; [rewrite zlen_words_bytes; lia|split]].
  - unfold ArrowDecimalGetBytes. rewrite zslice_in, drop_0 by (rewrite ?zlen_words_bytes; lia).
    f_equal. unfold w. rewrite <-words_bytes_take. f_equal. lia.
  - unfold ArrowDecimalSetBytes. rewrite Hwidth, Hnw, Hl0.
    destruct (Z.leb_spec 0 (Z.of_nat n)), (Z.leb_spec (Z.of_nat n) 4); try lia. cbn [andb].
    rewrite <-Hw at 1. rewrite load_words by done. reflexivity.
  - cbn [mbind option_bind]. rewrite Nat2Z.id. split_and!.
    + destruct Hd0 as [? ? ? ? ?]. split; simpl; auto.
      * rewrite length_app, length_drop. unfold zlen in *. lia.
      * apply Forall_app. split; [done|]. by apply Forall_drop.
    + unfold decimal_value. simpl. rewrite Hwidth, Hnw, Nat2Z.id. do 2 f_equal.
      rewrite take_app_le by (unfold zlen in Hw; lia). by rewrite (take_ge w) by (unfold zlen in Hw; lia).
    + unfold ArrowDecimalSign. simpl. rewrite (decimal_high _ Hd0), (decimal_high _ Hd), Hwidth, Hnw.
      rewrite znth_app by lia. rewrite Hw. destruct (Z.ltb_spec (Z.of_nat n - 1) (Z.of_nat n)); [|lia].
      unfold w. replace n with (Z.to_nat (Z.of_nat n)) at 1 by lia. rewrite znth_take by lia. done.
Qed.
Lemma decimal_bytes_roundtrip_witness :
  ∃ bs d', ArrowDecimalGetBytes (ArrowDecimalInit 256 76 2) = Some bs ∧
    ArrowDecimalSetBytes (bs ++ []) (ArrowDecimalInit 256 40 0) = Some d' ∧ decimal_value d' = 0.
Proof.
  destruct (decimal_bytes_roundtrip (ArrowDecimalInit 256 76 2) (ArrowDecimalInit 256 40 0) [])
    as (bs & d' & Hb & _ & Hs & _ & Hv & _).
  - apply decimal_init_wf. right. reflexivity.
  - apply decimal_init_wf. right. reflexivity.
  - reflexivity.
  - exists bs, d'. split; [exact Hb|]. split; [exact Hs|]. exact Hv.
Defined.
