(* ===== verification/Cpp.v ===== *)
(** * The C++ layer over the C library

    The converters and iterators of the connector are C++ classes that call the
    C functions of nanoarrow, the C++ standard library and the Python API.  A
    member function ends in one more way than a C function: it may throw.  An
    error code of a C function becomes the Python error indicator and an early
    return ([SF_CHECK_ARROW_RC]).  The file holds the monad for such functions,
    the parts of [std::string] they use, the names of the Snowflake types
    ([SnowflakeType.cpp]) and the arithmetic of times ([Util/time.cpp]). *)

From Stdlib Require Import Ascii.
From stdpp Require Import base numbers list option strings.
From S2P Require Import Prelude CInt CString.
#[local] Open Scope Z_scope.

(** ** How a member function ends *)

(** The standard exceptions that reach the caller. *)
Inductive exn : Set := invalid_argument | out_of_range | overflow_error | bad_alloc.
(** What set the Python error indicator: a return code of the C library, a check
    of the C++ code itself, or Python. *)
Inductive py_error : Set := ArrowRC (e : errno) | Message | Raised.

#[global] Instance exn_eq_dec : EqDecision exn.
Proof. solve_decision. Defined.
#[global] Instance py_error_eq_dec : EqDecision py_error.
Proof. solve_decision. Defined.

(** [Done]: the end of the statement is reached; [Return]: the Python error was
    set and the function returned early; [Throw]: an exception left it. *)
Inductive cpp (S A : Type) : Type :=
  | Done (a : A) (s : S)
  | Return (p : py_error) (s : S)
  | Throw (x : exn) (s : S)
  | Undefined.
Arguments Done {S A} a s.
Arguments Return {S A} p s.
Arguments Throw {S A} x s.
Arguments Undefined {S A}.

Definition CM (S A : Type) : Type := S → cpp S A.

Definition cret {S A} (a : A) : CM S A := λ s, Done a s.
Definition cbind {S A B} (m : CM S A) (k : A → CM S B) : CM S B := λ s,
  match m s with
  | Done a s' => k a s'
  | Return p s' => Return p s'
  | Throw x s' => Throw x s'
  | Undefined => Undefined
  end.
Definition creturn {S A} (p : py_error) : CM S A := λ s, Return p s.
Definition cthrow {S A} (x : exn) : CM S A := λ s, Throw x s.
Definition cget {S A} (f : S → A) : CM S A := λ s, Done (f s) s.
Definition cmod {S} (f : S → S) : CM S unit := λ s, Done tt (f s).
(** An access or an operation that is undefined without a value. *)
Definition cderef {S A} (o : option A) : CM S A :=
  match o with Some a => cret a | None => λ _, Undefined end.
Fixpoint cfor {S I} (l : list I) (body : I → CM S unit) : CM S unit :=
  match l with
  | [] => cret tt
  | i :: l' => cbind (body i) (λ _, cfor l' body)
  end.
(** [int returnCode = m; SF_CHECK_ARROW_RC(returnCode, ...)] on a part of the
    state *)
Definition check_rc {S T A} (get : S → T) (set : T → S → S) (m : M T A) : CM S A := λ s,
  match m (get s) with
  | Ok a t => Done a (set t s)
  | Err e t => Return (ArrowRC e) (set t s)
  | UB => Undefined
  end.

Declare Scope cpp_scope.
Delimit Scope cpp_scope with cpp.
Notation "'let!' x ':=' m 'in' k" := (cbind m (λ x, k))
  (at level 10, x name, m at level 100, k at level 200) : cpp_scope.
Notation "m ';;!' k" := (cbind m (λ _, k))
  (at level 100, k at level 200, right associativity) : cpp_scope.

(** ** Reasoning

    [cwp m s Q R X]: [m] is defined from [s], and ends in [Q], [R] or [X] when
    it reaches its end, returns early or throws. *)
Definition cwp {S A} (m : CM S A) (s : S) (Q : A → S → Prop) (R : py_error → S → Prop)
    (X : exn → S → Prop) : Prop :=
  match m s with
  | Done a s' => Q a s'
  | Return p s' => R p s'
  | Throw x s' => X x s'
  | Undefined => False
  end.

Section cwp_rules.
Context {S : Type}.
Implicit Types (s : S).

Lemma cwp_ret {A} (a : A) s Q R X : Q a s → cwp (cret a) s Q R X.
Proof. done. Qed.
Lemma cwp_get {A} (f : S → A) s Q R X : Q (f s) s → cwp (cget f) s Q R X.
Proof. done. Qed.
Lemma cwp_mod f s (Q : unit → S → Prop) R X : Q tt (f s) → cwp (cmod f) s Q R X.
Proof. done. Qed.
Lemma cwp_bind {A B} (m : CM S A) (k : A → CM S B) s Q R X :
  cwp m s (λ a s', cwp (k a) s' Q R X) R X → cwp (cbind m k) s Q R X.
Proof. unfold cwp, cbind. by destruct (m s). Qed.
Lemma cwp_assoc {A B C} (m : CM S A) (k : A → CM S B) (k' : B → CM S C) s Q R X :
  cwp (cbind (cbind m k) k') s Q R X → cwp (cbind m (λ x, cbind (k x) k')) s Q R X.
Proof. unfold cwp, cbind. by destruct (m s). Qed.
Lemma cbind_done {A B} (m : CM S A) (k : A → CM S B) s a s' : m s = Done a s' → cbind m k s = k a s'.
Proof. unfold cbind. by intros ->. Qed.
Lemma cbind_ext {A B} (m : CM S A) (k k' : A → CM S B) s :
  (∀ a s', k a s' = k' a s') → cbind m k s = cbind m k' s.
Proof. unfold cbind. intros Hk. by destruct (m s). Qed.
Lemma cwp_eq {A} (m : CM S A) a s s' (Q : A → S → Prop) R X : m s = Done a s' → Q a s' → cwp m s Q R X.
Proof. unfold cwp. by intros ->. Qed.
Lemma cwp_mono {A} (m : CM S A) s (Q Q' : A → S → Prop) (R R' : py_error → S → Prop)
    (X X' : exn → S → Prop) :
  cwp m s Q R X → (∀ a s', Q a s' → Q' a s') → (∀ p s', R p s' → R' p s') →
  (∀ x s', X x s' → X' x s') → cwp m s Q' R' X'.
Proof. unfold cwp. destruct (m s); auto. Qed.
Lemma cwp_deref {A} (o : option A) s Q R X :
  (∃ a, o = Some a ∧ Q a s) → cwp (cderef o) s Q R X.
Proof. by intros (a & -> & ?). Qed.
Lemma cwp_rc {T A} (g : S → T) (p : T → S → S) (m : M T A) s Q R X :
  wp m (g s) (λ a t, Q a (p t s)) (λ e t, R (ArrowRC e) (p t s)) → cwp (check_rc g p m) s Q R X.
Proof. unfold cwp, wp, check_rc. by destruct (m (g s)). Qed.
(** The loop rule: [P done s] relates the indices already run to the state. *)
Lemma cwp_for {I} (P : list I → S → Prop) (l : list I) body s R X :
  P [] s →
  (∀ pre i post s', l = pre ++ i :: post → P pre s' →
    cwp (body i) s' (λ _ s'', P (pre ++ [i]) s'') R X) →
  cwp (cfor l body) s (λ _ s', P l s') R X.
Proof.
  intros HP Hstep.
  enough (∀ post pre s', l = pre ++ post → P pre s' →
    cwp (cfor post body) s' (λ _ s'', P l s'') R X) as H by (by apply (H l [])).
  induction post as [|i post IH]; intros pre s' Hl HP'; simpl.
  { apply cwp_ret. by rewrite Hl, app_nil_r. }
  apply cwp_bind. eapply cwp_mono; [by eapply Hstep| |done|done].
  intros [] s'' HP''. apply (IH (pre ++ [i])); [by rewrite <-app_assoc|done].
Qed.
End cwp_rules.

Lemma cwp_run {S A} (m : CM S A) s Q R X :
  cwp m s Q R X → match m s with Done _ _ => true | _ => false end = true →
  ∃ a s', m s = Done a s' ∧ Q a s'.
Proof. unfold cwp. destruct (m s); eauto; done. Qed.

#[global] Instance cwp_proper {S A} (m : CM S A) (s : S) :
  Proper (pointwise_relation A (pointwise_relation S impl) ==>
          pointwise_relation py_error (pointwise_relation S impl) ==>
          pointwise_relation exn (pointwise_relation S impl) ==> impl) (cwp m s).
Proof. intros Q Q' HQ R R' HR X X' HX H. eapply cwp_mono; [done|apply HQ|apply HR|apply HX]. Qed.

(** ** Signed arithmetic that must not overflow *)
Definition int64 (z : Z) : option Z := if (INT64_MIN <=? z) && (z <=? INT64_MAX) then Some z else None.
Definition int32 (z : Z) : option Z := if (INT32_MIN <=? z) && (z <=? INT32_MAX) then Some z else None.
Lemma int64_in z : INT64_MIN <= z <= INT64_MAX → int64 z = Some z.
Proof. intros Hz. unfold int64. destruct (Z.leb_spec INT64_MIN z), (Z.leb_spec z INT64_MAX); done || lia. Qed.
Lemma int64_Some z z' : int64 z = Some z' → z' = z ∧ INT64_MIN <= z <= INT64_MAX.
Proof. unfold int64. intros Hz. case_match; [|done]. zbool. injection Hz as <-. lia. Qed.
Lemma int32_in z : INT32_MIN <= z <= INT32_MAX → int32 z = Some z.
Proof. intros Hz. unfold int32. destruct (Z.leb_spec INT32_MIN z), (Z.leb_spec z INT32_MAX); done || lia. Qed.
Lemma int32_Some z z' : int32 z = Some z' → z' = z ∧ INT32_MIN <= z <= INT32_MAX.
Proof. unfold int32. intros Hz. case_match; [|done]. zbool. injection Hz as <-. lia. Qed.

(** ** std::string

    [std::stoi(s)]: no digits is [invalid_argument], a value that does not fit an
    [int] is [out_of_range]; what follows the digits is ignored. *)
Definition stoi {S} (s : string) : CM S Z :=
  let '(v, rest) := strtol s in
  if bool_decide (rest = s) then cthrow invalid_argument
  else if (INT32_MIN <=? v) && (v <=? INT32_MAX) then cret v else cthrow out_of_range.
(** [std::string(data, size)]: a copy of [size] characters; NULL is allowed with
    size 0 only. *)
Definition std_string (data : option (list Z)) (size : Z) : option string :=
  match data with
  | None => if size =? 0 then Some EmptyString else None
  | Some d =>
      l ← zslice d 0 size;
      Some (String.string_of_list_ascii ((λ b, Ascii.ascii_of_N (Z.to_N b)) <$> l))
  end.

(** ** Snowflake types *)
Module SnowflakeType.
Inductive Type_ : Set :=
  | ANY | ARRAY | BINARY | BOOLEAN | CHAR | DATE | FIXED | OBJECT | REAL | TEXT | TIME | TIMESTAMP
  | TIMESTAMP_LTZ | TIMESTAMP_NTZ | TIMESTAMP_TZ | VARIANT | VECTOR | MAP | DECFLOAT
  | INTERVAL_YEAR_MONTH | INTERVAL_DAY_TIME.
#[global] Instance Type_eq_dec : EqDecision Type_.
Proof. solve_decision. Defined.

Definition m_strEnumIndex : list (string * Type_) := [
  ("ANY", ANY); ("ARRAY", ARRAY); ("BINARY", BINARY); ("BOOLEAN", BOOLEAN); ("CHAR", CHAR);
  ("DATE", DATE); ("DOUBLE PRECISION", REAL); ("DOUBLE", REAL); ("FIXED", FIXED);
  ("DECFLOAT", DECFLOAT); ("FLOAT", REAL); ("INTERVAL_YEAR_MONTH", INTERVAL_YEAR_MONTH);
  ("INTERVAL_DAY_TIME", INTERVAL_DAY_TIME); ("MAP", MAP); ("OBJECT", OBJECT); ("REAL", REAL);
  ("STRING", TEXT); ("TEXT", TEXT); ("TIME", TIME); ("TIMESTAMP", TIMESTAMP);
  ("TIMESTAMP_LTZ", TIMESTAMP_LTZ); ("TIMESTAMP_NTZ", TIMESTAMP_NTZ);
  ("TIMESTAMP_TZ", TIMESTAMP_TZ); ("VARCHAR", TEXT); ("VARIANT", VARIANT); ("VECTOR", VECTOR)]%string.

(** [::toupper] in the "C" locale *)
Definition toupper (c : ascii) : ascii :=
  let n := Z.of_N (Ascii.N_of_ascii c) in
  if (97 <=? n) && (n <=? 122) then Ascii.ascii_of_N (Z.to_N (n - 32)) else c.
Fixpoint upper (s : string) : string :=
  match s with EmptyString => EmptyString | String c s' => String (toupper c) (upper s') end.
(** [m_strEnumIndex.at(str)] throws [std::out_of_range] *)
Fixpoint at_ {S} (l : list (string * Type_)) (s : string) : CM S Type_ :=
  match l with
  | [] => cthrow out_of_range
  | (n, t) :: l' => if bool_decide (n = s) then cret t else at_ l' s
  end.
Definition snowflakeTypeFromString {S} (str : string) : CM S Type_ := at_ m_strEnumIndex (upper str).

Lemma toupper_idem c : toupper (toupper c) = toupper c.
Proof. by destruct c as [[] [] [] [] [] [] [] []]. Qed.
Lemma upper_idem s : upper (upper s) = upper s.
Proof. induction s as [|c s IH]; [done|]. simpl. by rewrite toupper_idem, IH. Qed.
(** The case of the letters does not matter. *)
Lemma type_of_upper {S} str (s : S) :
  snowflakeTypeFromString (upper str) s = snowflakeTypeFromString str s.
Proof. unfold snowflakeTypeFromString. by rewrite upper_idem. Qed.
End SnowflakeType.

(** ** Times (Util/time.hpp, Util/time.cpp) *)
Definition SECONDS_PER_MINUTE : Z := 60.
Definition MINUTES_PER_HOUR : Z := 60.
Definition SECONDS_PER_HOUR : Z := MINUTES_PER_HOUR * SECONDS_PER_MINUTE.
Definition PYTHON_DATETIME_TIME_MICROSEC_DIGIT : Z := 6.
Definition FIELD_NAME_EPOCH : string := "epoch".
Definition FIELD_NAME_TIME_ZONE : string := "timezone".
Definition FIELD_NAME_FRACTION : string := "fraction".

Definition powTenSB4_table : list Z :=
  [1; 10; 100; 1000; 10000; 100000; 1000000; 10000000; 100000000; 1000000000].
(** [powTenSB4[i]] *)
Definition powTenSB4 (i : Z) : option Z := znth powTenSB4_table i.

(** Division and remainder of C++ truncate; the results are narrowed to
    [int32_t]. *)
Definition getHourFromSeconds (seconds scale : Z) : option Z :=
  p ← powTenSB4 scale;
  Some (i32 (Z.quot (Z.quot seconds p) SECONDS_PER_HOUR)).
Definition getMinuteFromSeconds (seconds scale : Z) : option Z :=
  p ← powTenSB4 scale;
  Some (i32 (Z.quot (Z.rem (Z.quot seconds p) SECONDS_PER_HOUR) SECONDS_PER_MINUTE)).
Definition getSecondFromSeconds (seconds scale : Z) : option Z :=
  p ← powTenSB4 scale;
  Some (i32 (Z.rem (Z.quot seconds p) SECONDS_PER_MINUTE)).
Definition getMicrosecondFromSeconds (seconds scale : Z) : option Z :=
  p ← powTenSB4 scale;
  let microsec := i32 (Z.rem seconds p) in
  if PYTHON_DATETIME_TIME_MICROSEC_DIGIT <? scale then
    q ← powTenSB4 (scale - PYTHON_DATETIME_TIME_MICROSEC_DIGIT);
    Some (Z.quot microsec q)
  else
    q ← powTenSB4 (PYTHON_DATETIME_TIME_MICROSEC_DIGIT - scale);
    int32 (microsec * q).

Module TimeSpec.
Record t : Set := Mk { seconds : Z; microseconds : Z }.
Definition make (units scale : Z) : option t :=
  if scale =? 0 then Some (Mk units 0)
  else if scale =? 6 then Some (Mk 0 units)
  else if 6 <? scale then
    divider ← powTenSB4 (scale - 6);
    units ← (if units <? 0 then int64 (units - (divider - 1)) else Some units);
    Some (Mk 0 (Z.quot units divider))
  else
    p ← powTenSB4 scale;
    let fractions := Z.abs (Z.rem units p) in
    q ← powTenSB4 (6 - scale);
    microseconds ← int64 (fractions * q);
    Some (Mk (Z.quot units p) (if units <? 0 then - microseconds else microseconds)).
End TimeSpec.

(** The cases of an index of the table. *)
Lemma scale_cases (P : Z → Prop) :
  P 0 → P 1 → P 2 → P 3 → P 4 → P 5 → P 6 → P 7 → P 8 → P 9 → ∀ i, 0 <= i <= 9 → P i.
Proof.
  intros ?????????? i Hi. assert (i = 0 ∨ i = 1 ∨ i = 2 ∨ i = 3 ∨ i = 4 ∨ i = 5 ∨ i = 6 ∨ i = 7 ∨
    i = 8 ∨ i = 9) as Hc by lia. repeat destruct Hc as [->|Hc]; by subst.
Qed.
Lemma powTenSB4_spec i : 0 <= i <= 9 → powTenSB4 i = Some (10 ^ i).
Proof. revert i. by apply scale_cases. Qed.
Lemma powTenSB4_out i : ¬ (0 <= i <= 9) → powTenSB4 i = None.
Proof. intros Hi. apply znth_None. change (zlen powTenSB4_table) with 10. lia. Qed.
(** The point in microseconds that a count of [10 ^ -scale] seconds lies in. *)
Definition micros (units scale : Z) : Z := units * 10 ^ 6 / 10 ^ scale.

Lemma pow10_split a b : 0 <= a → 0 <= b → 10 ^ (a + b) = 10 ^ a * 10 ^ b.
Proof. intros. by apply Z.pow_add_r. Qed.
Lemma micros_fine units scale :
  6 <= scale → micros units scale = units / 10 ^ (scale - 6).
Proof.
  intros Hs. unfold micros. replace scale with (6 + (scale - 6)) at 1 by lia.
  rewrite pow10_split, (Z.mul_comm units), Z.div_mul_cancel_l; lia.
Qed.
Lemma micros_coarse units scale :
  0 <= scale <= 6 → micros units scale = units * 10 ^ (6 - scale).
Proof.
  intros Hs. unfold micros. replace 6 with ((6 - scale) + scale) at 1 by lia.
  rewrite pow10_split, Z.mul_assoc, Z.div_mul; lia.
Qed.

(** A [TIME] value, a count of [10 ^ -scale] seconds since midnight, is split
    into hours, minutes, seconds and microseconds that [datetime.time] accepts, and
    together they are the value rounded down to microseconds. *)
Theorem time_parts (units scale : Z) (Hs : 0 <= scale <= 9) (Hu : 0 <= units < 86400 * 10 ^ scale) :
  ∃ h m s us, getHourFromSeconds units scale = Some h ∧ getMinuteFromSeconds units scale = Some m ∧
    getSecondFromSeconds units scale = Some s ∧ getMicrosecondFromSeconds units scale = Some us ∧
    0 <= h < 24 ∧ 0 <= m < 60 ∧ 0 <= s < 60 ∧ 0 <= us < 1000000 ∧
    ((h * 60 + m) * 60 + s) * 10 ^ 6 + us = micros units scale.
Proof.
  set (p := 10 ^ scale). assert (1 <= p <= 10 ^ 9) as Hp.
  { unfold p. split; [pose proof (Z.pow_pos_nonneg 10 scale)|apply Z.pow_le_mono_r]; lia. }
  set (q := units / p). set (r := units mod p).
  assert (0 <= q < 86400) as Hq by (unfold q; split; [apply Z.div_pos|apply Z.div_lt_upper_bound]; lia).
  pose proof (Z.mod_pos_bound units p ltac:(lia)) as Hr. fold r in Hr.
  assert (units = p * q + r) as Hqr by (apply Z.div_mod; lia).
  assert (Z.quot units p = q ∧ Z.rem units p = r) as [Hquot Hrem].
  { split; [apply Z.quot_div_nonneg|apply Z.rem_mod_nonneg]; lia. }
  assert (∃ us, getMicrosecondFromSeconds units scale = Some us ∧ 0 <= us < 1000000 ∧
    q * 10 ^ 6 + us = micros units scale) as (us & Hus & Husr & Heq).
  { unfold getMicrosecondFromSeconds. rewrite (powTenSB4_spec scale) by lia. fold p. cbn [mbind option_bind].
    rewrite Hrem, i32_small by width. unfold PYTHON_DATETIME_TIME_MICROSEC_DIGIT.
    destruct (Z.ltb_spec 6 scale) as [Hgt|Hle]; rewrite powTenSB4_spec by lia; cbn [mbind option_bind].
    - assert (p = 10 ^ (scale - 6) * 10 ^ 6) as Hpp by (unfold p; rewrite <-pow10_split by lia; f_equal; lia).
      assert (0 < 10 ^ (scale - 6)) by lia.
      rewrite Z.quot_div_nonneg by lia. eexists. split; [done|].
      rewrite micros_fine, Hqr by lia. split.
      + split; [apply Z.div_pos; lia|]. apply Z.div_lt_upper_bound; lia.
      + rewrite Hpp. replace (10 ^ (scale - 6) * 10 ^ 6 * q + r) with (q * 10 ^ 6 * 10 ^ (scale - 6) + r) by lia.
        by rewrite Z.div_add_l by lia.
    - assert (10 ^ 6 = p * 10 ^ (6 - scale)) as Hpp by (unfold p; rewrite <-pow10_split by lia; f_equal; lia).
      assert (0 < 10 ^ (6 - scale)) by lia.
      assert (0 <= r * 10 ^ (6 - scale) < 10 ^ 6) by (rewrite Hpp; nia).
      rewrite int32_in by width. eexists. split; [done|]. split; [lia|]. rewrite micros_coarse by lia.
      rewrite Hqr, Hpp. lia. }
  unfold getHourFromSeconds, getMinuteFromSeconds, getSecondFromSeconds.
  rewrite !powTenSB4_spec by lia. fold p. cbn [mbind option_bind]. rewrite Hquot.
  unfold SECONDS_PER_HOUR, MINUTES_PER_HOUR, SECONDS_PER_MINUTE. change (60 * 60) with 3600.
  rewrite !Z.rem_mod_nonneg, !Z.quot_div_nonneg by (try apply Z.mod_pos_bound; lia).
  exists (q / 3600), (q mod 3600 / 60), (q mod 60), us.
  assert (0 <= q / 3600 < 24 ∧ 0 <= q mod 3600 / 60 < 60 ∧ 0 <= q mod 60 < 60 ∧
    (q / 3600 * 60 + q mod 3600 / 60) * 60 + q mod 60 = q) as (? & ? & ? & Hsum).
  { clear -Hq. Z.div_mod_to_equations. lia. }
  rewrite !i32_small by width. rewrite Hsum. done.
Qed.

(** A timestamp in one field, a count of [10 ^ -scale] seconds since the
    epoch, before it or after it, is given to Python as seconds and microseconds
    whose sum is the timestamp rounded down to microseconds, and for scales up to
    six exactly; both are [int64_t] values.  Excluded are the counts so close to the least
    [int64_t] that the rounding would overflow. *)
Theorem time_spec (units scale : Z) (Hs : 0 <= scale <= 9)
    (Hu : INT64_MIN + 999 <= units <= INT64_MAX) :
  ∃ ts, TimeSpec.make units scale = Some ts ∧
    TimeSpec.seconds ts * 10 ^ 6 + TimeSpec.microseconds ts = micros units scale ∧
    INT64_MIN <= TimeSpec.seconds ts <= INT64_MAX ∧ INT64_MIN <= TimeSpec.microseconds ts <= INT64_MAX ∧
    (scale <= 6 → (TimeSpec.seconds ts * 10 ^ 6 + TimeSpec.microseconds ts) * 10 ^ scale = units * 10 ^ 6).
Proof.
  assert (∀ ts, TimeSpec.seconds ts * 10 ^ 6 + TimeSpec.microseconds ts = micros units scale → scale <= 6 →
    (TimeSpec.seconds ts * 10 ^ 6 + TimeSpec.microseconds ts) * 10 ^ scale = units * 10 ^ 6) as Hexact.
  { intros ts -> Hle. rewrite micros_coarse, <-Z.mul_assoc, <-pow10_split by lia. do 2 f_equal. lia. }
  enough (∃ ts, TimeSpec.make units scale = Some ts ∧
    TimeSpec.seconds ts * 10 ^ 6 + TimeSpec.microseconds ts = micros units scale ∧
    INT64_MIN <= TimeSpec.seconds ts <= INT64_MAX ∧ INT64_MIN <= TimeSpec.microseconds ts <= INT64_MAX)
    as (ts & ? & ? & ? & ?) by (exists ts; eauto 6).
  unfold TimeSpec.make. destruct (Z.eqb_spec scale 0) as [->|H0].
  { eexists. split; [done|]. simpl. unfold micros. change (10 ^ 0) with 1. rewrite Z.div_1_r. width. }
  destruct (Z.eqb_spec scale 6) as [->|H6].
  { eexists. split; [done|]. simpl. unfold micros. rewrite Z.div_mul by lia. width. }
  destruct (Z.ltb_spec 6 scale) as [Hgt|Hlt].
  - rewrite powTenSB4_spec, micros_fine by lia. cbn [mbind option_bind]. set (d := 10 ^ (scale - 6)).
    assert (1 < d <= 1000) as Hd.
    { unfold d. split; [apply Z.pow_gt_1; lia|]. change 1000 with (10 ^ 3). apply Z.pow_le_mono_r; lia. }
    destruct (Z.ltb_spec units 0) as [Hneg|Hpos].
    + rewrite int64_in by width. cbn [mbind option_bind]. eexists. split; [done|]. simpl.
      assert (Z.quot (units - (d - 1)) d = units / d) as ->.
      { pose proof (Z.div_mod units d ltac:(lia)). pose proof (Z.mod_pos_bound units d ltac:(lia)).
        assert (units / d < 0) by (apply Z.div_lt_upper_bound; lia).
        replace (units - (d - 1)) with (- (d - 1 - units)) by lia. rewrite Z.quot_opp_l by lia.
        rewrite <-(Z.quot_unique (d - 1 - units) d (- (units / d)) (d - 1 - units mod d)); lia. }
      assert (units <= units / d < 0). { split; [|apply Z.div_lt_upper_bound; lia]. apply Z.div_le_lower_bound; nia. } width.
    + eexists. split; [done|]. simpl. rewrite Z.quot_div_nonneg by lia.
      assert (0 <= units / d <= units) by (split; [apply Z.div_pos|apply Z.div_le_upper_bound]; nia). width.
  - rewrite !powTenSB4_spec, micros_coarse by lia. cbn [mbind option_bind].
    set (p := 10 ^ scale). set (q := 10 ^ (6 - scale)).
    assert (p * q = 10 ^ 6 ∧ 1 < p ∧ 1 < q) as (Hpq & Hp & Hq).
    { unfold p, q. rewrite <-pow10_split by lia. split_and!; [f_equal; lia|apply Z.pow_gt_1; lia..]. }
    pose proof (Z.quot_rem units p ltac:(lia)) as Hqr.
    pose proof (Z.rem_bound_abs units p ltac:(lia)) as Hr.
    pose proof (Z.quot_abs units p ltac:(lia)) as Hqa. rewrite (Z.abs_eq p) in * by lia.
    assert (Z.abs (Z.quot units p) <= Z.abs units).
    { rewrite <-Hqa, Z.quot_div_nonneg by lia. apply Z.div_le_upper_bound; nia. }
    assert (0 <= Z.abs (Z.rem units p) * q < 10 ^ 6) by nia.
    rewrite int64_in by width. cbn [mbind option_bind]. eexists. split; [done|]. simpl.
    assert ((if units <? 0 then - (Z.abs (Z.rem units p) * q) else Z.abs (Z.rem units p) * q) =
      Z.rem units p * q) as ->.
    { destruct (Z.ltb_spec units 0); [rewrite Z.abs_neq by (apply Z.rem_nonpos; lia)|
        rewrite Z.abs_eq by (apply Z.rem_nonneg; lia)]; lia. }
    split; [rewrite <-Hpq; nia|].
    assert (Z.abs (Z.rem units p * q) < 10 ^ 6) by (rewrite Z.abs_mul, (Z.abs_eq q); lia). width.
Qed.
