(* ===== verification/Double.v ===== *)
(** * Scaled integers as doubles ([convertScaledFixedNumberToDouble])

    A Snowflake number with a scale is an integer over a power of ten.  The
    table iterator turns it into a [double], for small scales by one division
    and for large ones through the decimal text and [std::stod].  The file
    defines the rounding of a ratio, the division of doubles, [std::stod] on
    plain decimal texts and the function itself, and proves that its result is
    the double nearest to the number. *)

From Stdlib Require Import Ascii.
From stdpp Require Import base numbers list option strings.
From S2P Require Import Prelude CInt CString Float Cpp.
#[local] Open Scope Z_scope.
#[local] Open Scope cpp_scope.

(** ** Rounding of a ratio *)

(** The exponent [k] with [2^k <= n / d < 2^(k+1)]. *)
Definition log2_ratio (n d : Z) : Z :=
  let k := Z.log2 n - Z.log2 d in
  if n * 2 ^ (0 `max` (- k)) <? d * 2 ^ (0 `max` k) then k - 1 else k.
(** [n / d] to the nearest integer, ties to even *)
Definition round_div (n d : Z) : Z :=
  let q := n / d in
  let r := n mod d in
  if (d <? 2 * r) || ((2 * r =? d) && Z.odd q) then q + 1 else q.
(** The representation of the number nearest to [n / d]: [round] of [Float] for a
    ratio. *)
Definition round_ratio (f : float_format) (neg : bool) (n d : Z) : Z :=
  sign_bit f neg +
  (if n =? 0 then 0
   else
     let e' := (log2_ratio n d - mbits f) `max` emin f in
     ((e' - emin f) * 2 ^ mbits f + round_div (n * 2 ^ (0 `max` (- e'))) (d * 2 ^ (0 `max` e')))
       `min` inf_bits f).
(** [a / b] on doubles, for finite operands and a divisor that is not 0 *)
Definition double_div (a b : Z) : option Z :=
  match decode binary64 a, decode binary64 b with
  | FFinite neg1 m1 e1, FFinite neg2 m2 e2 =>
      if m2 =? 0 then None
      else Some (round_ratio binary64 (xorb neg1 neg2) (m1 * 2 ^ (0 `max` (e1 - e2)))
                   (m2 * 2 ^ (0 `max` (e2 - e1))))
  | _, _ => None
  end.

(** ** Decimal texts *)

(** The sign, the digits as an integer and the number of digits after the point,
    at the start of a text: no exponent, no special names. *)
Definition decimal_literal (s : string) : option (bool * Z * Z) :=
  let t := skip_spaces s in
  let '(neg, t) := match t with
                   | String "-" t' => (true, t')
                   | String "+" t' => (false, t')
                   | _ => (false, t)
                   end%char in
  let '(i, rest) := read_digits 0 t in
  match rest with
  | String "." frac =>
      let '(m, rest') := read_digits i frac in
      if starts_with_digit t || starts_with_digit frac
      then Some (neg, m, zstrlen frac - zstrlen rest') else None
  | _ => if starts_with_digit t then Some (neg, i, 0) else None
  end%char.
(** [std::stod]: the nearest double; a result that overflows or is below the
    normal numbers is reported as [out_of_range]. *)
Definition stod {S} (s : string) : CM S Z :=
  match decimal_literal s with
  | None => cthrow invalid_argument
  | Some (neg, m, k) =>
      let x := round_ratio binary64 neg m (10 ^ k) in
      if m =? 0 then cret x
      else if x - sign_bit binary64 neg =? inf_bits binary64 then cthrow out_of_range
      else if log2_ratio m (10 ^ k) <? 1 - bias binary64 then cthrow out_of_range
      else cret x
  end.
(** [s.insert(pos, t)] throws [std::out_of_range] beyond the end of [s]. *)
Fixpoint str_insert (pos : nat) (t s : string) : option string :=
  match pos with
  | O => Some (t +:+ s)
  | Datatypes.S pos' =>
      match s with
      | EmptyString => None
      | String c s' => String c <$> str_insert pos' t s'
      end
  end.
Definition insert_at {S} (s : string) (pos : Z) (t : string) : CM S string :=
  match str_insert (Z.to_nat pos) t s with
  | Some r => cret r
  | None => cthrow out_of_range
  end.
(** [std::string(n, '0')] *)
Fixpoint zeros (n : nat) : string :=
  match n with O => EmptyString | Datatypes.S n' => String "0" (zeros n') end.

Definition convertScaledFixedNumberToDouble {S} (scale originalValue : Z) : CM S Z :=
  if scale <? 9 then
    let! p := cderef (powTenSB4 scale) in
    cderef (double_div (float_of_Z binary64 originalValue) (float_of_Z binary64 p))
  else
    let valStr := print_int originalValue in
    let negative := match valStr with String "-" _ => 1 | _ => 0 end%char in
    let digits := u32 (zstrlen valStr - negative) in
    let! valStr :=
      (if digits <=? scale
       then insert_at valStr negative (zeros (Z.to_nat (i32 (scale - digits + 1))))
       else cret valStr) in
    let! valStr := insert_at valStr (u64 (zstrlen valStr - scale)) "." in
    stod valStr.

(** ** Ratios *)

(** [round_div] is the nearest integer, and the even one when two are as near. *)
Lemma round_div_nearest n d :
  0 < d → 2 * Z.abs (n - d * round_div n d) <= d ∧
  (2 * Z.abs (n - d * round_div n d) = d → Z.even (round_div n d) = true).
Proof.
  intros Hd. unfold round_div. pose proof (Z.div_mod n d ltac:(lia)) as Hqr.
  pose proof (Z.mod_pos_bound n d Hd) as Hr. set (q := n / d) in *. set (r := n mod d) in *.
  destruct (Z.ltb_spec d (2 * r)), (Z.eqb_spec (2 * r) d); cbn [orb andb]; try lia.
  destruct (Z.odd q) eqn:Hodd; (split; [lia|]); intros _.
  - by rewrite Z.add_1_r, Z.even_succ.
  - by rewrite <-Z.negb_odd, Hodd.
Qed.
Lemma round_div_scale c n d : 0 < c → 0 < d → round_div (c * n) (c * d) = round_div n d.
Proof.
  intros Hc Hd. unfold round_div. rewrite Z.div_mul_cancel_l, Z.mul_mod_distr_l by lia.
  destruct (Z.ltb_spec (c * d) (2 * (c * (n mod d)))), (Z.ltb_spec d (2 * (n mod d))); try nia; [done|].
  destruct (Z.eqb_spec (2 * (c * (n mod d))) (c * d)), (Z.eqb_spec (2 * (n mod d)) d); try nia; done.
Qed.

(** [2^k <= n / d < 2^(k+1)], multiplied by a power of two that makes all terms
    integers. *)
Definition between (n d k : Z) : Prop :=
  ∀ N, Z.abs k < N → d * 2 ^ (N + k) <= n * 2 ^ N < d * 2 ^ (N + k + 1).
Lemma between_at n d k N :
  Z.abs k < N → d * 2 ^ (N + k) <= n * 2 ^ N < d * 2 ^ (N + k + 1) → between n d k.
Proof.
  intros HN Hb N' HN'. assert (∀ x y, 0 <= x → 0 <= y → d * 2 ^ (x + y) = d * 2 ^ x * 2 ^ y) as Hsplit
    by (intros; rewrite Z.pow_add_r by lia; lia).
  destruct (Z.le_ge_cases N N') as [Hle|Hge].
  - replace (N' + k + 1) with ((N + k + 1) + (N' - N)) by lia. replace (N' + k) with ((N + k) + (N' - N)) by lia.
    replace (n * 2 ^ N') with (n * 2 ^ N * 2 ^ (N' - N)) by (rewrite <-Z.mul_assoc, <-Z.pow_add_r by lia; do 2 f_equal; lia).
    rewrite (Hsplit (N + k)), (Hsplit (N + k + 1)) by lia. pose proof (Z.pow_pos_nonneg 2 (N' - N)). nia.
  - replace (N + k + 1) with ((N' + k + 1) + (N - N')) in Hb by lia.
    replace (N + k) with ((N' + k) + (N - N')) in Hb by lia.
    replace (n * 2 ^ N) with (n * 2 ^ N' * 2 ^ (N - N')) in Hb by (rewrite <-Z.mul_assoc, <-Z.pow_add_r by lia; do 2 f_equal; lia).
    rewrite (Hsplit (N' + k)), (Hsplit (N' + k + 1)) in Hb by lia. pose proof (Z.pow_pos_nonneg 2 (N - N')). nia.
Qed.
Lemma between_unique n d k k' : 0 < d → between n d k → between n d k' → k = k'.
Proof.
  intros Hd Hk Hk'. set (N := Z.abs k + Z.abs k' + 1).
  specialize (Hk N ltac:(lia)). specialize (Hk' N ltac:(lia)).
  assert (∀ i j, i < j → N + i >= 0 → 2 ^ (N + i + 1) <= 2 ^ (N + j)) as Hmono
    by (intros; apply Z.pow_le_mono_r; lia).
  destruct (Z.lt_trichotomy k k') as [Hlt|[?|Hlt]]; [|done|].
  - specialize (Hmono k k' Hlt ltac:(lia)). nia.
  - specialize (Hmono k' k Hlt ltac:(lia)). nia.
Qed.
Lemma log2_ratio_between n d : 0 < n → 0 < d → between n d (log2_ratio n d).
Proof.
  intros Hn Hd. unfold log2_ratio. set (k := Z.log2 n - Z.log2 d).
  destruct (Z.log2_spec n Hn) as [Hn1 Hn2]. destruct (Z.log2_spec d Hd) as [Hd1 Hd2].
  pose proof (Z.log2_nonneg n) as Hna. pose proof (Z.log2_nonneg d) as Hda.
  set (N := Z.log2 n + Z.log2 d + 2).
  assert (∀ x y, 0 <= x → 0 <= y → 2 ^ (x + y) = 2 ^ x * 2 ^ y) as Hsplit by (intros; apply Z.pow_add_r; lia).
  assert (d * 2 ^ (N + k - 1) < n * 2 ^ N < d * 2 ^ (N + k + 1)) as Hwide.
  { assert (2 ^ Z.succ (Z.log2 d) * 2 ^ (N + k - 1) <= 2 ^ Z.log2 n * 2 ^ N) as Hlo
      by (rewrite <-!Hsplit by (unfold k, N; lia); apply Z.pow_le_mono_r; unfold k; lia).
    assert (2 ^ Z.succ (Z.log2 n) * 2 ^ N <= 2 ^ Z.log2 d * 2 ^ (N + k + 1)) as Hhi
      by (rewrite <-!Hsplit by (unfold k, N; lia); apply Z.pow_le_mono_r; unfold k; lia).
    pose proof (Z.pow_pos_nonneg 2 (N + k - 1)). pose proof (Z.pow_pos_nonneg 2 N).
    pose proof (Z.pow_pos_nonneg 2 (N + k + 1)). split; nia. }
  assert (n * 2 ^ (0 `max` (- k)) < d * 2 ^ (0 `max` k) ↔ n * 2 ^ N < d * 2 ^ (N + k)) as Htest.
  { set (x := N - 0 `max` (- k)). assert (0 < 2 ^ x) by (apply Z.pow_pos_nonneg; unfold x, N, k; lia).
    assert (2 ^ N = 2 ^ (0 `max` (- k)) * 2 ^ x) as -> by (rewrite <-Hsplit; [f_equal| |]; unfold x, N, k; lia).
    assert (2 ^ (N + k) = 2 ^ (0 `max` k) * 2 ^ x) as -> by (rewrite <-Hsplit; [f_equal| |]; unfold x, N, k; lia).
    rewrite !Z.mul_assoc. by apply Z.mul_lt_mono_pos_r. }
  destruct (Z.ltb_spec (n * 2 ^ (0 `max` (- k))) (d * 2 ^ (0 `max` k))) as [Hlt|Hge].
  - apply (between_at _ _ _ N); [unfold N, k; lia|]. apply Htest in Hlt.
    replace (N + (k - 1) + 1) with (N + k) by lia. replace (N + (k - 1)) with (N + k - 1) by lia. lia.
  - apply (between_at _ _ _ N); [unfold N, k; lia|]. split; [|lia].
    apply Z.nlt_ge. intros Hlt. apply Htest in Hlt. lia.
Qed.
Lemma between_scale c n d k : 0 < c → between n d k → between (c * n) (c * d) k.
Proof. intros Hc Hb N HN. specialize (Hb N HN). nia. Qed.
Lemma log2_ratio_scale c n d : 0 < c → 0 < n → 0 < d → log2_ratio (c * n) (c * d) = log2_ratio n d.
Proof.
  intros Hc Hn Hd. apply (between_unique (c * n) (c * d)); [lia|apply log2_ratio_between; lia|].
  by apply between_scale, log2_ratio_between.
Qed.
(** The rounding depends on the ratio only. *)
Lemma round_ratio_scale f neg c n d :
  0 < c → 0 <= n → 0 < d → round_ratio f neg (c * n) (c * d) = round_ratio f neg n d.
Proof.
  intros Hc Hn Hd. unfold round_ratio. destruct (Z.eqb_spec n 0) as [->|Hne]; [by rewrite Z.mul_0_r|].
  destruct (Z.eqb_spec (c * n) 0); [nia|]. rewrite log2_ratio_scale by lia.
  set (e := (log2_ratio n d - mbits f) `max` emin f). rewrite <-!Z.mul_assoc.
  pose proof (Z.pow_pos_nonneg 2 (0 `max` e)). by rewrite round_div_scale by nia.
Qed.

(** ** The two ways agree with the nearest double *)

(** Small scales: both operands are exact, so that only the division rounds. *)
Lemma divide_exact v p :
  Z.abs v < 2 ^ 53 → 0 < p < 2 ^ 53 →
  double_div (float_of_Z binary64 v) (float_of_Z binary64 p) = Some (round_ratio binary64 (v <? 0) (Z.abs v) p).
Proof.
  intros Hv Hp. unfold double_div. rewrite (decode_float_of_Z p), (Z.abs_eq p) by lia.
  assert (0 <= Z.log2 p < 53) as Hl2 by (split; [apply Z.log2_nonneg|apply Z.log2_lt_pow2; lia]).
  set (l2 := Z.log2 p) in *. assert (0 < 2 ^ (52 - l2)) as Hpos by lia.
  destruct (Z.ltb_spec p 0); [lia|]. destruct (Z.eqb_spec (p * 2 ^ (52 - l2)) 0); [nia|].
  destruct (Z.eq_dec v 0) as [->|Hne].
  { change (decode binary64 (float_of_Z binary64 0)) with (FFinite false 0 (-1074)). done. }
  rewrite decode_float_of_Z by lia. f_equal. rewrite xorb_false_r.
  assert (0 <= Z.log2 (Z.abs v) < 53) as Hl1 by (split; [apply Z.log2_nonneg|apply Z.log2_lt_pow2; lia]).
  set (l1 := Z.log2 (Z.abs v)) in *.
  assert (∃ c, 0 < c ∧ Z.abs v * 2 ^ (52 - l1) * 2 ^ (0 `max` (l1 - 52 - (l2 - 52))) = c * Z.abs v ∧
    p * 2 ^ (52 - l2) * 2 ^ (0 `max` (l2 - 52 - (l1 - 52))) = c * p) as (c & Hc & -> & ->).
  { exists (2 ^ (52 - l1 `min` l2)). split; [lia|].
    rewrite <-!Z.mul_assoc, <-!Z.pow_add_r by lia. split; rewrite Z.mul_comm; do 2 f_equal; lia. }
  apply round_ratio_scale; lia.
Qed.

(** Large scales: the text. *)
Fixpoint all_digits (s : string) : bool :=
  match s with
  | EmptyString => true
  | String c s' => match digit_val c with Some _ => all_digits s' | None => false end
  end.
Lemma all_digits_app s t : all_digits (s +:+ t) = all_digits s && all_digits t.
Proof.
  induction s as [|c s IH]; [done|]. change (String c s +:+ t) with (String c (s +:+ t)). simpl.
  by destruct (digit_val c).
Qed.
Lemma all_digits_print fuel n s : 0 <= n → all_digits s = true → all_digits (print_digits fuel n s) = true.
Proof.
  revert n s. induction fuel as [|fuel IH]; intros n s Hn Hs; [done|]. cbn [print_digits].
  pose proof (Z.mod_pos_bound n 10).
  assert (all_digits (String (digit_char (n mod 10)) s) = true) as Hc by (simpl; by rewrite digit_val_char by lia).
  case_match; [done|]. apply IH; [apply Z.div_pos; lia|done].
Qed.
Lemma all_digits_zeros n : all_digits (zeros n) = true.
Proof. by induction n. Qed.
Lemma zstrlen_zeros n : zstrlen (zeros n) = Z.of_nat n.
Proof. induction n as [|n IH]; [done|]. unfold zstrlen in *. simpl in *. lia. Qed.
Lemma read_digits_app acc s t :
  all_digits s = true → read_digits acc (s +:+ t) = read_digits (read_digits acc s).1 t.
Proof.
  revert acc. induction s as [|c s IH]; intros acc Hs; [done|].
  change (String c s +:+ t) with (String c (s +:+ t)). simpl in *. destruct (digit_val c); [by apply IH|done].
Qed.
Lemma read_digits_all acc s : all_digits s = true → (read_digits acc s).2 = EmptyString.
Proof.
  revert acc. induction s as [|c s IH]; intros acc Hs; [done|]. simpl in *. destruct (digit_val c); [by apply IH|done].
Qed.
Lemma read_zeros n : (read_digits 0 (zeros n)).1 = 0.
Proof. induction n as [|n IH]; [done|]. simpl. exact IH. Qed.
Lemma str_insert_app a t b : str_insert (String.length a) t (a +:+ b) = Some (a +:+ t +:+ b).
Proof. induction a as [|c a IH]; [done|]. simpl. change (String.append a b) with (a +:+ b). by rewrite IH. Qed.
Lemma string_split s (n : nat) :
  (n <= String.length s)%nat → ∃ a b, s = a +:+ b ∧ String.length a = n.
Proof.
  revert s. induction n as [|n IH]; intros s Hn; [by exists "", s|].
  destruct s as [|c s]; [simpl in Hn; lia|]. destruct (IH s) as (a & b & -> & <-); [simpl in Hn; lia|].
  by exists (String c a), b.
Qed.
(** A text of digits with a point before the last [scale] ones. *)
Lemma decimal_literal_point neg (a b : string) :
  all_digits a = true → all_digits b = true → a ≠ EmptyString →
  decimal_literal ((if neg : bool then "-" else "") +:+ a +:+ "." +:+ b) =
    Some (neg, (read_digits 0 (a +:+ b)).1, zstrlen b).
Proof.
  intros Ha Hb Hne. destruct a as [|c a]; [done|]. simpl in Ha.
  destruct (digit_val c) as [d|] eqn:Hd; [|done].
  destruct (digit_not_special c d Hd) as (Hsp & Hm & Hp).
  set (t := String c a +:+ "." +:+ b).
  assert (skip_spaces t = t) as Hskip by (unfold t; simpl; by rewrite Hsp).
  assert (starts_with_digit t = true) as Hst by (unfold t; simpl; by rewrite Hd).
  assert (read_digits 0 t = ((read_digits 0 (String c a)).1, "." +:+ b)) as Hread.
  { unfold t. rewrite read_digits_app by (simpl; by rewrite Hd). by rewrite (read_digits_stop _ ("." +:+ b)). }
  assert (read_digits 0 (String c a +:+ b) = read_digits (read_digits 0 (String c a)).1 b) as Hwhole
    by (rewrite read_digits_app; [done|simpl; by rewrite Hd]).
  unfold decimal_literal. rewrite Hwhole.
  pose proof (read_digits_all (read_digits 0 (String c a)).1 b Hb) as Hrest.
  destruct neg.
  - change ("-" +:+ t) with (String "-" t). change (skip_spaces (String "-" t)) with (String "-" t). cbv iota beta.
    rewrite Hread. cbv iota beta. change ("." +:+ b) with (String "." b). cbv iota beta.
    destruct (read_digits _ b) as [m r]. simpl in Hrest. subst r. rewrite Hst. cbn. f_equal. f_equal.
    unfold zstrlen. simpl. lia.
  - change ("" +:+ t) with t. rewrite Hskip.
    assert ((match t with String "-" t' => (true, t') | String "+" t' => (false, t') | _ => (false, t) end%char) =
      (false, t)) as ->.
    { unfold t. change (String c a +:+ "." +:+ b) with (String c (a +:+ "." +:+ b)). clear -Hm Hp.
      destruct c as [[] [] [] [] [] [] [] []]; done. }
    rewrite Hread. change ("." +:+ b) with (String "." b). cbv iota beta.
    destruct (read_digits _ b) as [m r]. simpl in Hrest. subst r. rewrite Hst. cbn. f_equal. f_equal.
    unfold zstrlen. simpl. lia.
Qed.
Lemma string_app_assoc (a b c : string) : (a +:+ b) +:+ c = a +:+ b +:+ c.
Proof. induction a as [|x a IH]; [done|]. exact (f_equal (String x) IH). Qed.

Lemma log2_ratio_bounds n d :
  0 < n < 2 ^ 64 → 0 < d < 2 ^ 1000 → -1000 <= log2_ratio n d < 64.
Proof.
  intros Hn Hd. pose proof (log2_ratio_between n d ltac:(lia) ltac:(lia)) as Hb. set (k := log2_ratio n d) in *.
  set (N := Z.abs k + 2000). specialize (Hb N ltac:(lia)).
  assert (0 < 2 ^ N) by (apply Z.pow_pos_nonneg; lia). split; [apply Z.nlt_ge; intros Hk|apply Z.nle_gt; intros Hk].
  - assert (2 ^ 1000 * 2 ^ (N + k + 1) <= 2 ^ N) by (rewrite <-Z.pow_add_r by lia; apply Z.pow_le_mono_r; lia).
    assert (0 < 2 ^ (N + k + 1)) by (apply Z.pow_pos_nonneg; lia). nia.
  - assert (2 ^ 64 * 2 ^ N <= 2 ^ (N + k)) by (rewrite <-Z.pow_add_r by lia; apply Z.pow_le_mono_r; lia). nia.
Qed.
Lemma round_ratio_finite neg n d :
  0 < n < 2 ^ 64 → 0 < d < 2 ^ 1000 →
  round_ratio binary64 neg n d - sign_bit binary64 neg < inf_bits binary64.
Proof.
  intros Hn Hd. pose proof (log2_ratio_bounds n d Hn Hd) as Hk. unfold round_ratio.
  pose proof (log2_ratio_between n d ltac:(lia) ltac:(lia)) as Hb. set (k := log2_ratio n d) in *.
  destruct (Z.eqb_spec n 0); [lia|]. change (mbits binary64) with 52. change (emin binary64) with (-1074).
  change (inf_bits binary64) with (2047 * 2 ^ 52). rewrite Z.max_l by lia.
  set (x := n * 2 ^ (0 `max` (- (k - 52)))). set (y := d * 2 ^ (0 `max` (k - 52))).
  assert (0 < 2 ^ (0 `max` (- (k - 52))) ∧ 0 < 2 ^ (0 `max` (k - 52))) as [? ?] by (split; apply Z.pow_pos_nonneg; lia).
  assert (0 <= x / y < 2 ^ 53) as Hq.
  { split; [apply Z.div_pos; unfold x, y; nia|]. apply Z.div_lt_upper_bound; [unfold y; nia|].
    specialize (Hb (2000 + Z.abs k) ltac:(lia)). set (N := 2000 + Z.abs k) in *.
    set (A := 0 `max` (- (k - 52))) in *. assert (0 < 2 ^ (N - A)) as Hpos by (apply Z.pow_pos_nonneg; lia).
    assert (n * 2 ^ N = x * 2 ^ (N - A)) as Hx.
    { unfold x. rewrite <-Z.mul_assoc, <-Z.pow_add_r by lia. do 2 f_equal. lia. }
    assert (d * 2 ^ (N + k + 1) = y * 2 ^ 53 * 2 ^ (N - A)) as Hy.
    { unfold y. rewrite <-!Z.mul_assoc, <-!Z.pow_add_r by lia. do 2 f_equal. lia. }
    apply Z.mul_lt_mono_pos_r with (2 ^ (N - A)); [done|]. lia. }
  assert (0 <= round_div x y <= 2 ^ 53) by (unfold round_div; case_match; lia). lia.
Qed.

Lemma round_ratio_range neg n d : 0 <= n → 0 < d → 0 <= round_ratio binary64 neg n d < 2 ^ 64.
Proof.
  intros Hn Hd. unfold round_ratio. assert (0 <= sign_bit binary64 neg <= 2 ^ 63) by by destruct neg.
  destruct (n =? 0); [lia|]. change (inf_bits binary64) with (2047 * 2 ^ 52). cbv zeta.
  set (e := _ `max` emin binary64). set (x := n * _). set (y := d * _).
  assert (0 <= x / y) by (apply Z.div_pos; unfold x, y; [|assert (0 < 2 ^ (0 `max` e)) by (apply Z.pow_pos_nonneg; lia)]; nia).
  assert (0 <= round_div x y) by (unfold round_div; case_match; lia).
  assert (0 <= (e - emin binary64) * 2 ^ mbits binary64) by (apply Z.mul_nonneg_nonneg; [lia|done]). lia.
Qed.

Lemma print_value v :
  INT64_MIN <= v <= INT64_MAX → ∃ D, print_int v = (if v <? 0 then "-" else "") +:+ D ∧
    all_digits D = true ∧ (read_digits 0 D).1 = Z.abs v ∧ 0 < zstrlen D <= 20 ∧
    match print_int v with String "-" _ => 1 | _ => 0 end%char = zstrlen (if v <? 0 then "-" else "").
Proof.
  intros Hv. exists (print_digits 20 (Z.abs v) "").
  pose proof (all_digits_print 20 (Z.abs v) "" ltac:(lia) eq_refl) as Hall.
  assert (0 <= Z.abs v < 10 ^ Z.of_nat 20) as Habs by width.
  pose proof (read_print_digits 20 (Z.abs v) 0 "" Habs ltac:(lia)) as Hread. cbn [read_digits] in Hread.
  pose proof (print_digits_len 20 (Z.abs v) 19 Habs).
  destruct (print_digits_starts 20 (Z.abs v) "" ltac:(lia) ltac:(lia)) as (c & d & t & Hc & Hd).
  destruct (digit_not_special c d Hd) as (_ & Hm & _).
  assert (0 < zstrlen (print_digits 20 (Z.abs v) "")) by (rewrite Hc; unfold zstrlen; simpl; lia).
  unfold print_int. rewrite Hread. simpl fst. destruct (Z.ltb_spec v 0).
  - rewrite (Z.abs_neq v) in * by lia. split_and!; try done; lia.
  - rewrite (Z.abs_eq v) in * by lia. split_and!; try done; try lia.
    rewrite Hc. clear -Hm. destruct c as [[] [] [] [] [] [] [] []]; done.
Qed.
Lemma insert_at_app {S} (s : S) (a t b : string) pos :
  pos = zstrlen a → insert_at (a +:+ b) pos t s = Done (a +:+ t +:+ b) s.
Proof. intros ->. unfold insert_at, zstrlen. by rewrite Nat2Z.id, str_insert_app. Qed.

Lemma through_text {S} (s : S) scale v :
  9 <= scale <= 300 → INT64_MIN <= v <= INT64_MAX →
  convertScaledFixedNumberToDouble scale v s = Done (round_ratio binary64 (v <? 0) (Z.abs v) (10 ^ scale)) s.
Proof.
  intros Hs Hv. destruct (print_value v Hv) as (D & Hp & Hall & Hread & Hlen & Hneg).
  unfold convertScaledFixedNumberToDouble. destruct (Z.ltb_spec scale 9); [lia|]. rewrite Hneg, Hp.
  set (sgn := if v <? 0 then "-" else ""). rewrite zstrlen_app. replace (_ + zstrlen D - _) with (zstrlen D) by lia.
  unfold u32. rewrite uwrap_small by lia.
  set (P := if zstrlen D <=? scale then zeros (Z.to_nat (scale - zstrlen D + 1)) else "").
  assert ((if zstrlen D <=? scale then insert_at (sgn +:+ D) (zstrlen sgn) (zeros (Z.to_nat (i32 (scale - zstrlen D + 1))))
    else cret (sgn +:+ D)) s = Done (sgn +:+ P +:+ D) s) as Hpad.
  { unfold P. destruct (Z.leb_spec (zstrlen D) scale); [|done]. rewrite i32_small by width. by apply insert_at_app. }
  unfold cbind at 1. rewrite Hpad.
  assert (all_digits (P +:+ D) = true ∧ (read_digits 0 (P +:+ D)).1 = Z.abs v ∧ scale < zstrlen (P +:+ D) <= 400) as (HZ & Hval & Hlong).
  { unfold P. destruct (Z.leb_spec (zstrlen D) scale); [|change ("" +:+ D) with D; split_and!; try done; lia].
    rewrite all_digits_app, all_digits_zeros, read_digits_app, read_zeros, zstrlen_app, zstrlen_zeros by apply all_digits_zeros.
    split_and!; [done|done|lia|lia]. }
  destruct (string_split (P +:+ D) (Z.to_nat (zstrlen (P +:+ D) - scale))) as (a & b & Hab & Hla); [unfold zstrlen; lia|].
  rewrite Hab in *. rewrite all_digits_app in HZ. apply andb_true_iff in HZ as [Ha Hb].
  rewrite zstrlen_app in Hla, Hlong |- *. rewrite zstrlen_app.
  assert (zstrlen a + zstrlen b - scale = zstrlen a ∧ 0 < zstrlen a) as [Hpos Hapos] by (unfold zstrlen in *; lia).
  replace (zstrlen sgn + (zstrlen a + zstrlen b) - scale) with (zstrlen (sgn +:+ a)) by (rewrite zstrlen_app; lia).
  assert (0 <= zstrlen (sgn +:+ a) < 2 ^ 64).
  { assert (0 <= zstrlen sgn <= 1) by (unfold sgn; destruct (v <? 0); vm_compute; split; discriminate). rewrite zstrlen_app. unfold zstrlen in *. lia. }
  unfold u64. rewrite uwrap_small by done. rewrite <-string_app_assoc. unfold cbind at 1.
  rewrite insert_at_app by done. rewrite string_app_assoc. unfold stod.
  unfold sgn. rewrite decimal_literal_point; [|done|done|by intros ->]. rewrite Hval.
  replace (zstrlen b) with scale by lia.
  assert (0 < 10 ^ scale < 2 ^ 1000).
  { split; [apply Z.pow_pos_nonneg; lia|]. apply Z.le_lt_trans with (10 ^ 300); [apply Z.pow_le_mono_r; lia|by vm_compute]. }
  destruct (Z.eqb_spec (Z.abs v) 0); [done|].
  pose proof (round_ratio_finite (v <? 0) (Z.abs v) (10 ^ scale) ltac:(width) ltac:(lia)).
  pose proof (log2_ratio_bounds (Z.abs v) (10 ^ scale) ltac:(width) ltac:(lia)).
  destruct (Z.eqb_spec (round_ratio binary64 (v <? 0) (Z.abs v) (10 ^ scale) - sign_bit binary64 (v <? 0)) (inf_bits binary64)); [lia|].
  change (1 - bias binary64) with (-1022). by destruct (Z.ltb_spec (log2_ratio (Z.abs v) (10 ^ scale)) (-1022)); [lia|].
Qed.

(** The double that stands for a scaled number [v / 10 ^ scale] is the one
    nearest to it, for every scale of nine or more, where the code goes through
    the decimal text, and below that, where it divides, for every [v] of magnitude below
    2^53.  Scales beyond 300 are excluded, as their texts may underflow. *)
Theorem scaled_double (S : Type) (s : S) (scale v : Z) (Hs : 0 <= scale <= 300)
    (Hv : INT64_MIN <= v <= INT64_MAX) (Hexact : 9 <= scale ∨ Z.abs v < 2 ^ 53) :
  convertScaledFixedNumberToDouble scale v s = Done (round_ratio binary64 (v <? 0) (Z.abs v) (10 ^ scale)) s.
Proof.
  destruct (Z.lt_ge_cases scale 9) as [Hlt|Hge]; [|by apply through_text; lia].
  unfold convertScaledFixedNumberToDouble. destruct (Z.ltb_spec scale 9); [|lia].
  rewrite powTenSB4_spec by lia. unfold cbind, cderef, cret. rewrite divide_exact; [done|lia|].
  split; [apply Z.pow_pos_nonneg; lia|]. apply Z.le_lt_trans with (10 ^ 8); [apply Z.pow_le_mono_r; lia|by vm_compute].
Qed.

(** The other case: 11529215046068471.00 with scale 2 is rounded twice, to a
    double that is not the nearest. *)
Theorem scaled_double_rounds_twice :
  convertScaledFixedNumberToDouble 2 1152921504606847100 tt =
    Done (round_ratio binary64 false 1152921504606847100 (10 ^ 2) - 1) tt.
Proof. vm_compute. reflexivity. Qed.
