(* ===== verification/Convert.v ===== *)
(** * Conversion of record batches into tables (CArrowTableIterator.cpp)

    The table iterator rewrites the columns of its record batches in place so
    that they have the Arrow types a table needs: numbers with a scale become
    doubles or decimals, times, timestamps and intervals their Arrow types.  A
    conversion builds a new schema and a new array from the old column through a
    view of it, and puts them in the place of the old ones at its end.

    A column is its schema and its array, in the schema and array trees of the
    batch; the view is a third tree of the same shape, made when the batch was
    read, and is not written.  Logging is left out. *)

From Stdlib Require Import Ascii.
From stdpp Require Import base numbers list option strings.
From S2P Require Import Prelude CInt CString Float Buffer Bits Bitmap Types Metadata Schema SchemaView.
From S2P Require Import ArrayView Array ArrayBuild Stream Decimal Cpp Double.
#[local] Open Scope Z_scope.
#[local] Open Scope cpp_scope.

Section convert.
Context `{!Libc} `{!Malloc}.

(** ** The column and the local variables of a conversion *)
Record conv := MkConv {
  conv_mem : mstate;
  conv_error : option py_error;   (* the Python error indicator *)
  conv_schema : ArrowSchema;      (* [*field->schema] *)
  conv_array : ArrowArray;        (* [*columnArray->array] *)
}.
Record locals := MkLocals {
  local_mem : mstate;
  newSchema : members;
  newArray : ArrowArray;
}.
Definition set_error (p : py_error) (c : conv) : conv :=
  MkConv (conv_mem c) (Some p) (conv_schema c) (conv_array c).

Definition on_new_schema (m : M (mstate * members) unit) : CM locals unit :=
  check_rc (λ l, (local_mem l, newSchema l)) (λ p l, MkLocals p.1 p.2 (newArray l)) m.
Definition on_new_array (m : M (mstate * ArrowArray) unit) : CM locals unit :=
  check_rc (λ l, (local_mem l, newArray l)) (λ p l, MkLocals p.1 (newSchema l) p.2) m.
Definition append (m : M ArrowArray unit) : CM locals unit :=
  check_rc newArray (λ a l, MkLocals (local_mem l) (newSchema l) a) m.

(** [ArrowSchemaSetName(newSchema, field->schema->name)] and
    [ArrowArrayInitFromSchema(newArray, newSchema, &error)] *)
Definition name_and_init (old : members) : CM locals unit :=
  on_new_schema (ArrowSchemaSetName (name old)) ;;!
  let! s := cget newSchema in
  on_new_array (ArrowArrayInitFromSchema (SchemaLive s)).
(** The loop over the rows: a null stays a null. *)
Definition for_rows (length : Z) (columnArray : ArrowArrayView) (value : Z → CM locals unit) :
    CM locals unit :=
  cfor (zseq length) (λ rowIdx,
    let! null := cderef (ArrowArrayViewIsNull columnArray rowIdx) in
    if null : bool then append (ArrowArrayAppendNull 1) else value rowIdx).
Definition append_value (z : Z) : CM locals unit := append (on_array (ArrowArrayAppendInt z)).
(** The local schema is initialised and keeps the flag of the old one; at the end
    the old schema and array are released and the new ones moved there.  On an
    early return the new ones are released by their destructors. *)
Definition replace_column (body : members → Z → CM locals unit) : CM conv unit := λ c,
  match conv_schema c, conv_array c with
  | SchemaLive old, ArrayLive a =>
      let flags := Z.land (flags ArrowSchemaInit) (Z.land (flags old) ARROW_FLAG_NULLABLE) in
      let build := body old (array_length a) ;;! on_new_array ArrowArrayFinishBuildingDefault in
      match build (MkLocals (conv_mem c) (set_flags flags ArrowSchemaInit) ArrayReleased) with
      | Done _ l =>
          Done tt (MkConv (local_mem l) (conv_error c) (ArrowSchemaMove (SchemaLive (newSchema l))).1
                     (ArrowArrayMove (newArray l)).1)
      | Return p l => Done tt (MkConv (local_mem l) (Some p) (conv_schema c) (conv_array c))
      | Throw x l => Throw x (MkConv (local_mem l) (conv_error c) (conv_schema c) (conv_array c))
      | Undefined => Undefined
      end
  | _, _ => Undefined
  end.

(** ** Numbers with a scale *)
Definition convertScaledFixedNumberColumnToDecimalColumn (columnArray : ArrowArrayView) (scale : Z) :
    CM conv unit := replace_column (λ old length,
  on_new_schema (ArrowSchemaSetTypeDecimal NANOARROW_TYPE_DECIMAL128 38 scale) ;;!
  name_and_init old ;;!
  append ArrowArrayStartAppending ;;!
  for_rows length columnArray (λ rowIdx,
    let! originalVal := cderef (ArrowArrayViewGetIntUnsafe columnArray rowIdx) in
    let! arrowDecimal := cderef (ArrowDecimalSetInt originalVal (ArrowDecimalInit 128 38 scale)) in
    append (on_array (ArrowArrayAppendDecimal arrowDecimal)))).
Definition convertScaledFixedNumberColumnToDoubleColumn (columnArray : ArrowArrayView) (scale : Z) :
    CM conv unit := replace_column (λ old length,
  on_new_schema (ArrowSchemaSetType NANOARROW_TYPE_DOUBLE) ;;!
  name_and_init old ;;!
  for_rows length columnArray (λ rowIdx,
    let! originalVal := cderef (ArrowArrayViewGetIntUnsafe columnArray rowIdx) in
    let! val := convertScaledFixedNumberToDouble scale originalVal in
    append (on_array (ArrowArrayAppendDouble val)))).
Definition convertScaledFixedNumberColumn (number_to_decimal : bool) (columnArray : ArrowArrayView)
    (scale : Z) : CM conv unit :=
  if number_to_decimal then convertScaledFixedNumberColumnToDecimalColumn columnArray scale
  else convertScaledFixedNumberColumnToDoubleColumn columnArray scale.

(** ** Intervals and times *)
Definition convertIntervalDayTimeColumn (columnArray : ArrowArrayView) (scale : Z) :
    CM conv unit := replace_column (λ old length,
  on_new_schema (ArrowSchemaSetTypeDateTime NANOARROW_TYPE_DURATION NANOARROW_TIME_UNIT_NANO None) ;;!
  name_and_init old ;;!
  append ArrowArrayStartAppending ;;!
  for_rows length columnArray (λ rowIdx,
    let! arrowDecimal :=
      cderef (ArrowArrayViewGetDecimalUnsafe columnArray rowIdx (ArrowDecimalInit 128 38 0)) in
    let! originalVal := cderef (ArrowDecimalGetIntUnsafe arrowDecimal) in
    append_value originalVal)).

Definition time_schema (scale : Z) : CM locals Z :=
  let set type unit := on_new_schema (ArrowSchemaSetTypeDateTime type unit None) in
  if scale =? 0 then
    set NANOARROW_TYPE_TIME32 NANOARROW_TIME_UNIT_SECOND ;;! cret 1
  else if scale <=? 3 then
    set NANOARROW_TYPE_TIME32 NANOARROW_TIME_UNIT_MILLI ;;! cderef (powTenSB4 (3 - scale))
  else if scale <=? 6 then
    set NANOARROW_TYPE_TIME64 NANOARROW_TIME_UNIT_MICRO ;;! cderef (powTenSB4 (6 - scale))
  else
    set NANOARROW_TYPE_TIME64 NANOARROW_TIME_UNIT_MICRO ;;! cderef (powTenSB4 (scale - 6)).
Definition convertTimeColumn (columnArray : ArrowArrayView) (scale : Z) :
    CM conv unit := replace_column (λ old length,
  let! powTenSB4Val := time_schema scale in
  name_and_init old ;;!
  append ArrowArrayStartAppending ;;!
  for_rows length columnArray (λ rowIdx,
    let! originalVal := cderef (ArrowArrayViewGetIntUnsafe columnArray rowIdx) in
    let! originalVal :=
      (if scale <=? 6 then cderef (int64 (originalVal * powTenSB4Val))
       else cret (Z.quot originalVal powTenSB4Val)) in
    append_value originalVal)).

(** ** Timestamps *)

(** The loop that looks for the children "epoch" and "fraction", the last of a name
    wins; the views are those of [columnArray->children]. *)
Fixpoint find_fields (idx : list Z) (old : members) (columnArray : ArrowArrayView)
    (epochArray fractionArray : option ArrowArrayView) :
    option (option ArrowArrayView * option ArrowArrayView) :=
  match idx with
  | [] => Some (epochArray, fractionArray)
  | i :: idx' =>
      c_schema ← child_members old i;
      n ← name c_schema;
      if bool_decide (n = FIELD_NAME_EPOCH) then
        c ← view_child columnArray i;
        find_fields idx' old columnArray (Some c) fractionArray
      else if bool_decide (n = FIELD_NAME_FRACTION) then
        c ← view_child columnArray i;
        find_fields idx' old columnArray epochArray (Some c)
      else find_fields idx' old columnArray epochArray fractionArray
  end.
Definition epoch_fraction (old : members) (columnArray : ArrowArrayView) :
    CM locals (option ArrowArrayView * option ArrowArrayView) :=
  cderef (find_fields (zseq (n_children old)) old columnArray None None).
(** [ArrowArrayViewGetIntUnsafe(p, i)] for a pointer that may be NULL *)
Definition get_field (p : option ArrowArrayView) (i : Z) : option Z :=
  v ← p; ArrowArrayViewGetIntUnsafe v i.

(** The rows are looked at in order until one is out of range. *)
Fixpoint check_rows {S} (columnArray : ArrowArrayView) (epochArray fractionArray : option ArrowArrayView)
    (rows : list Z) : CM S bool :=
  match rows with
  | [] => cret false
  | rowIdx :: rows' =>
      let! null := cderef (ArrowArrayViewIsNull columnArray rowIdx) in
      if null : bool then check_rows columnArray epochArray fractionArray rows'
      else
        let! epoch := cderef (get_field epochArray rowIdx) in
        let! fraction := cderef (get_field fractionArray rowIdx) in
        if (Z.quot INT64_MAX (10 ^ 9) <? epoch) || (epoch <? Z.quot INT64_MIN (10 ^ 9)) then
          if negb (Z.rem fraction 1000 =? 0) then cthrow overflow_error else cret true
        else check_rows columnArray epochArray fractionArray rows'
  end.
Definition _checkNanosecondTimestampOverflowAndDownscale {S} (length : Z) (columnArray : ArrowArrayView)
    (epochArray fractionArray : option ArrowArrayView) : CM S bool :=
  check_rows columnArray epochArray fractionArray (zseq length).

(** [timezone.empty() ? NULL : timezone.c_str()] *)
Definition zone_arg (timezone : string) : option string :=
  match timezone with EmptyString => None | _ => Some timezone end.
Definition timestamp_schema (timeunit : ArrowTimeUnit) (timezone : string) : CM locals unit :=
  on_new_schema (ArrowSchemaSetTypeDateTime NANOARROW_TYPE_TIMESTAMP timeunit (zone_arg timezone)).
(** [epoch * powTenSB4[k] + x] in [int64_t] *)
Definition epoch_times (k : Z) (epoch x : Z) : option Z :=
  p ← powTenSB4 k;
  y ← int64 (epoch * p);
  int64 (y + x).

(** The branch for scales up to 6: one field, rescaled to the unit. *)
Definition coarse_timestamp (columnArray : ArrowArrayView) (scale : Z) (timezone : string)
    (old : members) (length : Z) : CM locals unit :=
  let! u :=
    (if scale =? 0 then cret (NANOARROW_TIME_UNIT_SECOND, 1)
     else if scale <=? 3 then
       let! p := cderef (powTenSB4 (3 - scale)) in cret (NANOARROW_TIME_UNIT_MILLI, p)
     else let! p := cderef (powTenSB4 (6 - scale)) in cret (NANOARROW_TIME_UNIT_MICRO, p)) in
  timestamp_schema u.1 timezone ;;!
  name_and_init old ;;!
  for_rows length columnArray (λ rowIdx,
    let! val := cderef (ArrowArrayViewGetIntUnsafe columnArray rowIdx) in
    let! val := cderef (int64 (val * u.2)) in
    append_value val).
(** The branch for larger scales: an epoch with a fraction, or one field; an
    array of another type is not even initialised. *)
Definition fine_timestamp (type : ArrowType) (has_overflow_to_downscale : bool)
    (columnArray : ArrowArrayView) (scale : Z) (timezone : string) (old : members) (length : Z) :
    CM locals unit :=
  let timeunit := if has_overflow_to_downscale then NANOARROW_TIME_UNIT_MICRO
                  else NANOARROW_TIME_UNIT_NANO in
  match type with
  | NANOARROW_TYPE_STRUCT =>
      let! f := epoch_fraction old columnArray in
      timestamp_schema timeunit timezone ;;!
      name_and_init old ;;!
      for_rows length columnArray (λ rowIdx,
        let! epoch := cderef (get_field f.1 rowIdx) in
        let! fraction := cderef (get_field f.2 rowIdx) in
        let! val :=
          cderef (if has_overflow_to_downscale then epoch_times 6 epoch (Z.quot fraction 1000)
                  else epoch_times 9 epoch fraction) in
        append_value val)
  | NANOARROW_TYPE_INT64 =>
      timestamp_schema timeunit timezone ;;!
      name_and_init old ;;!
      for_rows length columnArray (λ rowIdx,
        let! val := cderef (ArrowArrayViewGetIntUnsafe columnArray rowIdx) in
        let! p := cderef (powTenSB4 (9 - scale)) in
        let! val := cderef (int64 (val * p)) in
        append_value val)
  | _ => cret tt
  end.
Definition convertTimestampColumn (force_microsecond_precision : bool) (type : ArrowType)
    (columnArray : ArrowArrayView) (scale : Z) (timezone : string) :
    CM conv unit := replace_column (λ old length,
  let! has_overflow_to_downscale :=
    (if negb force_microsecond_precision && (6 <? scale) && bool_decide (type = NANOARROW_TYPE_STRUCT) then
       let! f := epoch_fraction old columnArray in
       _checkNanosecondTimestampOverflowAndDownscale length columnArray f.1 f.2
     else cret force_microsecond_precision) in
  if scale <=? 6 then coarse_timestamp columnArray scale timezone old length
  else fine_timestamp type has_overflow_to_downscale columnArray scale timezone old length).

(** The value of a row of a timestamp with time zone. *)
Definition tz_value (scale byteLength : Z) (has_overflow_to_downscale : bool)
    (epochArray fractionArray : option ArrowArrayView) (rowIdx : Z) : CM locals Z :=
  if byteLength =? 8 then
    let! epoch := cderef (get_field epochArray rowIdx) in
    if scale =? 0 then cret epoch
    else if scale <=? 3 then cderef (epoch_times (3 - scale) epoch 0)
    else if scale <=? 6 then cderef (epoch_times (6 - scale) epoch 0)
    else if has_overflow_to_downscale then cderef (epoch_times 6 epoch 0)
    else cderef (epoch_times (9 - scale) epoch 0)
  else if byteLength =? 16 then
    let! epoch := cderef (get_field epochArray rowIdx) in
    let! fraction := cderef (get_field fractionArray rowIdx) in
    if scale =? 0 then cret epoch
    else if scale <=? 3 then cderef (epoch_times (3 - scale) epoch (Z.quot fraction (10 ^ 6)))
    else if scale <=? 6 then cderef (epoch_times 6 epoch (Z.quot fraction (10 ^ 3)))
    else if has_overflow_to_downscale then cderef (epoch_times 6 epoch (Z.quot fraction 1000))
    else cderef (epoch_times 9 epoch fraction)
  else creturn Message.
Definition tz_unit (scale : Z) (has_overflow_to_downscale : bool) : ArrowTimeUnit :=
  if scale =? 0 then NANOARROW_TIME_UNIT_SECOND
  else if scale <=? 3 then NANOARROW_TIME_UNIT_MILLI
  else if scale <=? 6 then NANOARROW_TIME_UNIT_MICRO
  else if has_overflow_to_downscale then NANOARROW_TIME_UNIT_MICRO
  else NANOARROW_TIME_UNIT_NANO.
Definition convertTimestampTZColumn (force_microsecond_precision : bool) (columnArray : ArrowArrayView)
    (scale byteLength : Z) (timezone : string) : CM conv unit := replace_column (λ old length,
  let! f := epoch_fraction old columnArray in
  let! has_overflow_to_downscale :=
    (if negb force_microsecond_precision && (6 <? scale) && (byteLength =? 16)
     then _checkNanosecondTimestampOverflowAndDownscale length columnArray f.1 f.2
     else cret force_microsecond_precision) in
  timestamp_schema (tz_unit scale has_overflow_to_downscale) timezone ;;!
  name_and_init old ;;!
  for_rows length columnArray (λ rowIdx,
    let! val := tz_value scale byteLength has_overflow_to_downscale f.1 f.2 rowIdx in
    append_value val)).

(** ** Choosing the conversion *)

(** A function boundary: an early return leaves the Python error set. *)
Definition returning (m : CM conv unit) : CM conv unit := λ c,
  match m c with
  | Return p c' => Done tt (set_error p c')
  | r => r
  end.
(** Run on child [i] of the schema and of the array. *)
Definition on_column_child (i : Z) (m : CM conv unit) : CM conv unit := λ c,
  match conv_schema c, conv_array c with
  | SchemaLive s, ArrayLive a =>
      match children s ≫= λ l, znth l i, array_children a ≫= λ l, znth l i with
      | Some (Some cs), Some (Some ca) =>
          let put c' := MkConv (conv_mem c') (conv_error c')
            (SchemaLive (set_children (n_children s)
               ((λ l, <[Z.to_nat i := Some (conv_schema c')]> l) <$> children s) s))
            (ArrayLive (put_children (array_n_children a)
               ((λ l, <[Z.to_nat i := Some (conv_array c')]> l) <$> array_children a) a)) in
          match m (MkConv (conv_mem c) (conv_error c) cs ca) with
          | Done x c' => Done x (put c')
          | Return p c' => Return p (put c')
          | Throw x c' => Throw x (put c')
          | Undefined => Undefined
          end
      | _, _ => Undefined
      end
  | _, _ => Undefined
  end.

(** A view that was declared and not initialised. *)
Definition uninitialized : ArrowView := MkView None (-1).
Definition metadata_value {S} (metadata : option (list Z)) (key : string) (out : ArrowView) :
    CM S ArrowView :=
  cderef (ArrowMetadataGetValue metadata (ArrowCharView (Some key)) out).
Definition to_std_string {S} (v : ArrowView) : CM S string :=
  cderef (std_string (view_data v) (view_size v)).
(** The scale of the metadata; without metadata it has a default. *)
Definition metadata_scale {S} (metadata : option (list Z)) (default : Z) : CM S Z :=
  match metadata with
  | None => cret default
  | Some _ =>
      let! scaleString := metadata_value metadata "scale" (ArrowCharView None) in
      let! s := to_std_string scaleString in
      stoi s
  end.
(** The scale and the length in bytes of a timestamp with time zone; inside of a
    structured type the length may be missing. *)
Definition metadata_scale_length {S} (metadata : option (list Z)) : CM S (Z * Z) :=
  match metadata with
  | None => cret (9, 16)
  | Some _ =>
      let! scaleString := metadata_value metadata "scale" (ArrowCharView None) in
      let! byteLengthString := metadata_value metadata "byteLength" (ArrowCharView None) in
      let! s := to_std_string scaleString in
      let! scale := stoi s in
      let! byteLength :=
        match view_data byteLengthString with
        | None => cret 16
        | Some _ => let! s := to_std_string byteLengthString in stoi s
        end in
      cret (scale, byteLength)
  end.
Definition schema_view {S} (schema : ArrowSchema) : CM S ArrowSchemaView := λ s,
  match ArrowSchemaViewInit (Some schema) view_uninit with
  | Ok _ sv => Done sv s
  | Err e _ => Return (ArrowRC e) s
  | UB => Undefined
  end.
Definition live_schema {S} (schema : ArrowSchema) : CM S members :=
  match schema with SchemaLive s => cret s | SchemaReleased => λ _, Undefined end.

(** The members of the iterator that a conversion reads. *)
Record settings : Set := MkSettings {
  m_timezone : option string;   (* [None] when the constructor did not set it *)
  m_convert_number_to_decimal : bool;
  m_force_microsecond_precision : bool;
}.

(** The loop over the properties of an object, [convert] the recursive call. *)
Definition convert_list (convert : ArrowArrayView → CM conv unit) (n : Z) :
    list (option ArrowArrayView) → Z → CM conv unit :=
  fix go l i :=
    if i <? n then
      match l with
      | Some child_array :: l' => on_column_child i (convert child_array) ;;! go l' (i + 1)
      | _ => λ _, Undefined
      end
    else cret tt.

(** The cases of the switch.  [convert_children n] is the recursive call on the
    first [n] children (the items of an array, the properties of an object),
    [convert_entries] the one on the keys and then on the values of a map. *)
Definition fixed_case (g : settings) (columnArray : ArrowArrayView) (sv : ArrowSchemaView)
    (metadata : option (list Z)) : CM conv unit :=
  let! scale := metadata_scale metadata 0 in
  if (0 <? scale) && bool_decide (view_type sv ≠ NANOARROW_TYPE_DECIMAL128)
  then convertScaledFixedNumberColumn (m_convert_number_to_decimal g) columnArray scale
  else cret tt.
Definition array_case (sv : ArrowSchemaView) (s : members) (convert_children : Z → CM conv unit) : CM conv unit :=
  match view_type sv with
  | NANOARROW_TYPE_STRING => cret tt
  | NANOARROW_TYPE_LIST =>
      if n_children s =? 1 then convert_children 1 else creturn Message
  | _ => creturn Message
  end.
Definition map_case (s : members) (convert_entries : CM conv unit) : CM conv unit :=
  if n_children s =? 1 then
    let! entries := cderef (child_members s 0) in
    if n_children entries =? 2 then convert_entries else creturn Message
  else creturn Message.
Definition object_case (sv : ArrowSchemaView) (s : members) (convert_children : Z → CM conv unit) : CM conv unit :=
  match view_type sv with
  | NANOARROW_TYPE_STRING => cret tt
  | NANOARROW_TYPE_STRUCT => convert_children (n_children s)
  | _ => creturn Message
  end.
Definition timestamp_ltz_case (g : settings) (columnArray : ArrowArrayView) (sv : ArrowSchemaView)
    (metadata : option (list Z)) : CM conv unit :=
  let! scale := metadata_scale metadata 9 in
  let! timezone := cderef (m_timezone g) in
  convertTimestampColumn (m_force_microsecond_precision g) (view_type sv) columnArray scale timezone.
Definition timestamp_tz_case (g : settings) (columnArray : ArrowArrayView)
    (metadata : option (list Z)) : CM conv unit :=
  let! p := metadata_scale_length metadata in
  let! timezone := cderef (m_timezone g) in
  convertTimestampTZColumn (m_force_microsecond_precision g) columnArray p.1 p.2 timezone.
Definition interval_day_time_case (columnArray : ArrowArrayView) (metadata : option (list Z)) : CM conv unit :=
  let! scale := metadata_scale metadata 9 in
  convertIntervalDayTimeColumn columnArray scale.
Definition time_case (columnArray : ArrowArrayView) (metadata : option (list Z)) : CM conv unit :=
  let! scale := metadata_scale metadata 9 in
  convertTimeColumn columnArray scale.
Definition timestamp_ntz_case (g : settings) (columnArray : ArrowArrayView) (sv : ArrowSchemaView)
    (metadata : option (list Z)) : CM conv unit :=
  let! scale := metadata_scale metadata 9 in
  convertTimestampColumn (m_force_microsecond_precision g) (view_type sv) columnArray scale "".

(** The logical type of the metadata. *)
Definition logical_type {S} (metadata : option (list Z)) : CM S SnowflakeType.Type_ :=
  let! snowflakeLogicalType := metadata_value metadata "logicalType" uninitialized in
  let! logicalType := to_std_string snowflakeLogicalType in
  SnowflakeType.snowflakeTypeFromString logicalType.
Definition convert_by_type (g : settings) (columnArray : ArrowArrayView)
    (convert_children : Z → CM conv unit) (convert_entries : CM conv unit) : CM conv unit :=
  let! columnSchema := cget conv_schema in
  let! sv := schema_view columnSchema in
  let! s := live_schema columnSchema in
  let metadata := schema_metadata s in
  let! st := logical_type metadata in
  match st with
  | SnowflakeType.FIXED => fixed_case g columnArray sv metadata
  | SnowflakeType.ANY | SnowflakeType.BINARY | SnowflakeType.BOOLEAN | SnowflakeType.CHAR
  | SnowflakeType.DATE | SnowflakeType.REAL | SnowflakeType.TEXT | SnowflakeType.INTERVAL_YEAR_MONTH
  | SnowflakeType.VARIANT | SnowflakeType.VECTOR => cret tt
  | SnowflakeType.ARRAY => array_case sv s convert_children
  | SnowflakeType.MAP => map_case s convert_entries
  | SnowflakeType.OBJECT => object_case sv s convert_children
  | SnowflakeType.INTERVAL_DAY_TIME => interval_day_time_case columnArray metadata
  | SnowflakeType.TIME => time_case columnArray metadata
  | SnowflakeType.TIMESTAMP_NTZ => timestamp_ntz_case g columnArray sv metadata
  | SnowflakeType.TIMESTAMP_LTZ => timestamp_ltz_case g columnArray sv metadata
  | SnowflakeType.TIMESTAMP_TZ => timestamp_tz_case g columnArray metadata
  | SnowflakeType.TIMESTAMP | SnowflakeType.DECFLOAT => creturn Message
  end.
Fixpoint convertIfNeeded (g : settings) (columnArray : ArrowArrayView) : CM conv unit :=
  match columnArray with
  | MkArrayView _ _ _ _ _ _ _ ch _ _ =>
      returning (convert_by_type g columnArray
        (λ n, match ch with
              | None => if 0 <? n then λ _, Undefined else cret tt
              | Some l => convert_list (convertIfNeeded g) n l 0
              end)
        (match ch with
         | Some (Some (MkArrayView _ _ _ _ _ _ _ (Some (Some key_array :: Some value_array :: _)) _ _) :: _) =>
             on_column_child 0 (on_column_child 0 (convertIfNeeded g key_array)) ;;!
             on_column_child 0 (on_column_child 1 (convertIfNeeded g value_array))
         | _ => λ _, Undefined
         end))
  end.

(** ** The iterator *)
Record table_iterator := MkTable {
  table_mem : mstate;
  table_error : option py_error;
  m_ipcArrowSchema : ArrowSchema;
  m_ipcArrowArrayVec : list ArrowArray;
  m_ipcArrowArrayViewVec : list ArrowArrayView;
  m_ipcSchemaArrayVec : list ArrowSchema;
  m_tableConverted : bool;
  m_settings : settings;
}.
(** [m_ipcSchemaArrayVec.push_back(std::move(copiedSchema))] and the allocator. *)
Definition push_schema (p : mstate * ArrowSchema) (t : table_iterator) : table_iterator :=
  MkTable p.1 (table_error t) (m_ipcArrowSchema t) (m_ipcArrowArrayVec t) (m_ipcArrowArrayViewVec t)
    (m_ipcSchemaArrayVec t ++ [p.2]) (m_tableConverted t) (m_settings t).
Definition put_mem (a : mstate) (t : table_iterator) : table_iterator :=
  MkTable a (table_error t) (m_ipcArrowSchema t) (m_ipcArrowArrayVec t) (m_ipcArrowArrayViewVec t)
    (m_ipcSchemaArrayVec t) (m_tableConverted t) (m_settings t).
Definition put_converted (t : table_iterator) : table_iterator :=
  MkTable (table_mem t) (table_error t) (m_ipcArrowSchema t) (m_ipcArrowArrayVec t)
    (m_ipcArrowArrayViewVec t) (m_ipcSchemaArrayVec t) true (m_settings t).
(** An operation on the schema and the array of batch [i]. *)
Definition on_batch (i : nat) (m : CM conv unit) : CM table_iterator unit := λ t,
  match m_ipcSchemaArrayVec t !! i, m_ipcArrowArrayVec t !! i with
  | Some s, Some a =>
      let put c := MkTable (conv_mem c) (conv_error c) (m_ipcArrowSchema t)
        (<[i := conv_array c]> (m_ipcArrowArrayVec t)) (m_ipcArrowArrayViewVec t)
        (<[i := conv_schema c]> (m_ipcSchemaArrayVec t)) (m_tableConverted t) (m_settings t) in
      match m (MkConv (table_mem t) (table_error t) s a) with
      | Done x c => Done x (put c)
      | Return p c => Return p (put c)
      | Throw x c => Throw x (put c)
      | Undefined => Undefined
      end
  | _, _ => Undefined
  end.
Definition copy_schema : CM table_iterator unit := λ t,
  match ArrowSchemaDeepCopy (m_ipcArrowSchema t) (table_mem t, SchemaReleased) with
  | Ok _ p => Done tt (push_schema p t)
  | Err e p => Return (ArrowRC e) (put_mem p.1 t)
  | UB => Undefined
  end.
(** The columns of a batch: the children of its view. *)
Definition convert_columns (g : settings) (view : ArrowArrayView) : CM conv unit := λ c,
  match conv_schema c with
  | SchemaReleased => Undefined
  | SchemaLive s =>
      match view_children view with
      | None => if 0 <? n_children s then Undefined else Done tt c
      | Some l => convert_list (convertIfNeeded g) (n_children s) l 0 c
      end
  end.
Fixpoint reconstruct_from (batchIdx : nat) (views : list ArrowArrayView) : CM table_iterator unit :=
  match views with
  | [] => cret tt
  | view :: views' =>
      copy_schema ;;!
      let! g := cget m_settings in
      on_batch batchIdx (convert_columns g view) ;;!
      cmod put_converted ;;!
      reconstruct_from (Datatypes.S batchIdx) views'
  end.
Definition reconstructRecordBatches : CM table_iterator unit := λ t,
  match reconstruct_from 0 (m_ipcArrowArrayViewVec t) t with
  | Return p t' =>
      Done tt (MkTable (table_mem t') (Some p) (m_ipcArrowSchema t') (m_ipcArrowArrayVec t')
                 (m_ipcArrowArrayViewVec t') (m_ipcSchemaArrayVec t') (m_tableConverted t') (m_settings t'))
  | r => r
  end.
Definition convertRecordBatchesToTable : CM table_iterator bool :=
  let! t := cget id in
  if negb (m_tableConverted t) && (0 <? zlen (m_ipcArrowArrayViewVec t))
  then reconstructRecordBatches ;;! cret true
  else cret false.
(** What [next] returns: [Py_True] or [Py_None]. *)
Definition next : CM table_iterator bool :=
  let! firstDone := convertRecordBatchesToTable in
  let! t := cget id in
  cret (firstDone && negb (bool_decide (m_ipcArrowArrayVec t = []))).
Definition getArrowArrayPtrs (t : table_iterator) : list ArrowArray := m_ipcArrowArrayVec t.
Definition getArrowSchemaPtrs (t : table_iterator) : list ArrowSchema := m_ipcSchemaArrayVec t.
End convert.
