(* ===== verification/ConvertSpec.v ===== *)
(** * What the conversions of columns do

    A column as a conversion sees it is the list of its rows ([shows_rows]); the
    new column is the list of the converted rows, finished and with the type of
    the new schema ([new_column]).  The conversions of [Convert] map one to the
    other, or set the Python error and leave the old column in place. *)

From Stdlib Require Import Ascii.
From stdpp Require Import base numbers list option strings.
From S2P Require Import Prelude CInt CString Float Buffer Bits Bitmap Types Metadata Schema SchemaView.
From S2P Require Import ArrayView Array ArrayBuild Stream Decimal Cpp Double Convert.
#[local] Open Scope Z_scope.
#[local] Open Scope cpp_scope.

(** ** Bytes of integers *)
Lemma le_bytes_mod n z : le_bytes n (z mod 256 ^ Z.of_nat n) = le_bytes n z.
Proof.
  rewrite <-le_val_le_bytes. rewrite <-(length_le_bytes n z) at 1. apply le_bytes_le_val, le_bytes_ok.
Qed.
Lemma le_bytes_app n m z : le_bytes (n + m) z = le_bytes n z ++ le_bytes m (z / 256 ^ Z.of_nat n).
Proof.
  revert z. induction n as [|n IH]; intros z; [by rewrite Z.div_1_r|].
  change (z mod 256 :: le_bytes (n + m) (z / 256) =
    z mod 256 :: (le_bytes n (z / 256) ++ le_bytes m (z / 256 ^ Z.of_nat (S n)))).
  by rewrite IH, pow256_succ, Z.div_div by lia.
Qed.

(** ** Finished arrays *)

(** A built array whose [buffers] are those of the builder. *)
Definition finished (st : ArrowType) (k : col_kind) (l : column) (arr : ArrowArray) : Prop :=
  ∃ a, arr = ArrayLive a ∧ repr st k l a ∧
    ∀ p, array_private a = Some p → array_buffers a = private_data_pointers p.

Section finish.
Context `{!Libc} `{!Malloc}.

Lemma zlen_filter_nil (l : column) : Forall (eq true) (is_valid <$> l) → nulls l = 0.
Proof.
  unfold nulls. induction l as [|o l IH]; [done|]. intros [Ho Hl]%Forall_cons_1. simpl.
  destruct o; [|done]. simpl. by apply IH.
Qed.
(** The default validation accepts what was built. *)
Lemma validate_flat st lay flag w l bm b1 b2 :
  storage_kind st (Fixed w) → before st lay (Fixed w) l bm b1 b2 → small (Fixed w) l →
  ArrowArrayViewValidateDefault
    (set_view_children 0 (Some []) (view_of_node (MkPrivate bm [b1; b2] st lay flag) (zlen l) (nulls l) 0)) =
  Ok tt (set_view_children 0 (Some [])
    (view_of_node (MkPrivate bm [b1; b2] st lay flag) (zlen l) (nulls l) 0)).
Proof.
  intros Hst Hb Hsmall. set (v := set_view_children _ _ _).
  pose proof (zlen_nonneg l) as Hl. pose proof (before_blocks _ _ _ _ _ _ _ Hb) as Hbl.
  unfold small in Hsmall. rewrite total_fixed in Hsmall by done. simpl in Hsmall.
  pose proof (storage_kind_ok _ _ Hst) as Hw. simpl in Hw.
  assert (0 <= Z.of_nat w * zlen l) as Hwl by nia.
  assert (offset_plus_length v = zlen l) as Hol.
  { unfold offset_plus_length. simpl. apply i64_small. unfold INT64_MIN. nia. }
  assert (minimal_buffer 0 v = Ok tt v) as Hbuf0.
  { unfold minimal_buffer. rewrite Hol. simpl.
    rewrite (before_types _ _ _ _ _ _ _ Hb), (before_sizes _ _ _ _ _ _ _ Hb). simpl.
    pose proof (before_validity _ _ _ _ _ _ _ Hb) as Hv. unfold holds_validity in Hv.
    destruct (data (buffer bm)) eqn:Ed.
    - destruct Hv as (Hwf & Hbits & _). pose proof (zlen_bitmap_bits _ Hwf) as Hlen.
      rewrite Hbits in Hlen. unfold zlen in Hlen at 1. rewrite length_fmap in Hlen. fold (zlen l) in Hlen.
      rewrite (bitmap_bytes _ Hwf), <-Hlen. pose proof (bytes_for_bits (zlen l) Hl).
      destruct ((nulls l =? 0) && (_ArrowBytesForBits (zlen l) =? 0)); [done|].
      destruct (Z.eqb_spec (_ArrowBytesForBits (zlen l)) (-1)); [lia|]. by rewrite Z.ltb_irrefl.
    - destruct Hv as [-> Hall]. simpl. by rewrite (zlen_filter_nil _ Hall). }
  assert (minimal_buffer 1 v = Ok tt v) as Hbuf1.
  { unfold minimal_buffer. rewrite Hol. simpl.
    rewrite (before_types _ _ _ _ _ _ _ Hb), (before_sizes _ _ _ _ _ _ _ Hb). simpl.
    pose proof (before_data _ _ _ _ _ _ _ Hb) as Hd. simpl in Hd. rewrite (holds_size _ _ Hd).
    fold (total (Fixed w) l). rewrite total_fixed by done.
    assert (Z.quot (_ArrowRoundUpToMultipleOf8 (i64 (8 * Z.of_nat w * zlen l))) 8 = Z.of_nat w * zlen l) as ->.
    { rewrite i64_small by (unfold INT64_MIN; nia). rewrite RoundUp_spec by nia.
      replace (8 * Z.of_nat w * zlen l + 7) with (7 + Z.of_nat w * zlen l * 8) by lia.
      rewrite Z.div_add, Z.quot_mul by lia. simpl. done. }
    destruct (Z.eqb_spec (Z.of_nat w * zlen l) (-1)); [lia|]. by rewrite Z.ltb_irrefl. }
  assert (minimal_node v = Ok tt v) as Hmin.
  { unfold minimal_node. unfold mbind_ at 1. rewrite Hbuf0. unfold mbind_ at 1. rewrite Hbuf1.
    unfold mbind_, mget. simpl. by destruct st. }
  assert (ArrowArrayViewValidateMinimal v = Ok tt v) as HM.
  { transitivity (match minimal_node v with UB => UB | Err e v1 => Err e v1
      | Ok _ v1 => recurse ArrowArrayViewValidateMinimal 0 (Some []) None v1 end); [done|]. by rewrite Hmin. }
  assert (default_node v = Ok tt v) as HD by (unfold default_node, mbind_, mget; simpl; by destruct st).
  unfold ArrowArrayViewValidateDefault. change (view_depth v) with 1%nat. cbn [validate_default].
  by rewrite HM, HD.
Qed.
Lemma view_init_flat_eq st lay flag nb ptrs len nl bm b1 b2 s0 v0 :
  ArrowArrayViewInitFromArray (ArrayLive (flat st lay flag nb ptrs len nl bm b1 b2)) (s0, v0) =
    let '(ok, s1) := malloc_step 0 s0 in
    if ok then Ok tt (s1, set_view_children 0 (Some []) (view_of_node (MkPrivate bm [b1; b2] st lay flag) len nl 0))
    else Err ENOMEM (s1, ArrowArrayViewInitFromType NANOARROW_TYPE_UNINITIALIZED).
Proof.
  cbn [ArrowArrayViewInitFromArray flat]. unfold or_reset, on_error, modify, mmod, mbind_.
  rewrite allocate_no_children by done. by destruct (malloc_step 0 s0) as [[|] s1].
Qed.
Lemma finish_building_wp st w l arr a :
  storage_kind st (Fixed w) → live_repr st (Fixed w) l arr → small (Fixed w) l →
  wp ArrowArrayFinishBuildingDefault (a, arr) (λ _ p, finished st (Fixed w) l p.2) oom.
Proof.
  intros Hst (arr' & -> & Ha) Hsmall. destruct Ha as [lay flag nb ptrs bm b1 b2 Ht Hs Hv Hd Hl].
  assert (before st lay (Fixed w) l bm b1 b2) as Hb by done.
  unfold ArrowArrayFinishBuildingDefault, ArrowArrayFinishBuilding.
  set (A := flat st lay flag nb ptrs (zlen l) (nulls l) bm b1 b2).
  set (A' := flat st lay flag nb (private_data_pointers (MkPrivate bm [b1; b2] st lay flag)) (zlen l) (nulls l) bm b1 b2).
  assert (ArrowArrayFinalizeBuffers (ArrayLive A) = Ok tt (ArrayLive A)) as Hfin.
  { unfold ArrowArrayFinalizeBuffers. simpl. unfold mbind_, get_private. simpl. by destruct st. }
  assert (ArrowArrayFlushInternalPointers (ArrayLive A) = Ok tt (ArrayLive A')) as Hflush by done.
  unfold wp, mbind_, on_tree. rewrite Hfin, Hflush.
  assert (finished st (Fixed w) l (ArrayLive A')) as Hdone.
  { exists A'. split; [done|]. split; [by constructor|]. by intros p [= <-]. }
  unfold with_local_view, A'. rewrite view_init_flat_eq.
  destruct (malloc_step 0 a) as [[|] a1]; [|done].
  unfold on_tree, ArrowArrayViewValidate. by rewrite (validate_flat st lay flag w l).
Qed.

(** ** The new schema and the fresh array *)

(** The types of the new columns: the storage type and the width of an element. *)
Definition target_storage (k : schema_kind) : option (ArrowType * nat) :=
  match k with
  | KType NANOARROW_TYPE_DOUBLE => Some (NANOARROW_TYPE_DOUBLE, 8%nat)
  | KDecimal NANOARROW_TYPE_DECIMAL128 _ _ => Some (NANOARROW_TYPE_DECIMAL128, 16%nat)
  | KDateTime NANOARROW_TYPE_TIME32 _ _ => Some (NANOARROW_TYPE_INT32, 4%nat)
  | KDateTime (NANOARROW_TYPE_TIME64 | NANOARROW_TYPE_TIMESTAMP | NANOARROW_TYPE_DURATION) _ _ =>
      Some (NANOARROW_TYPE_INT64, 8%nat)
  | _ => None
  end.
Definition target_members (k : schema_kind) (n : option string) (fl : Z) : members :=
  set_name n (set_flags fl (kind_members k)).

Lemma set_target_wp k fl a :
  SchemaView.kind_ok k → is_Some (target_storage k) →
  wp (set_kind k) (a, set_flags fl ArrowSchemaInit) (λ _ p, p.2 = set_flags fl (kind_members k)) oom.
Proof.
  intros Hok [[st w] Hk]. destruct k as [t| | |t p s|t u tz|]; try done; cbn [set_kind].
  - destruct t; try done. unfold ArrowSchemaSetType. cbn [ArrowSchemaFormatTemplate].
    apply wp_bind. eapply wp_mono; [apply set_format_wp| |done]. intros [] q Hq. apply Hq.
  - destruct t; try done. destruct Hok as [Hp Hs]. pose proof (print_int_len p). pose proof (print_int_len s).
    unfold ArrowSchemaSetTypeDecimal. destruct (Z.leb_spec p 0); [lia|].
    apply print_to_wp; [rewrite !zstrlen_app; change (zstrlen "d:") with 2; change (zstrlen ",") with 1; width|].
    eapply wp_mono; [apply set_format_wp| |done]. by intros [] q ->.
  - unfold ArrowSchemaSetTypeDateTime. destruct t; try done.
    + assert (zstrlen (datetime_text NANOARROW_TYPE_TIMESTAMP u tz) < 128) as Hlen.
      { unfold datetime_text. rewrite !zstrlen_app. change (zstrlen "ts") with 2.
        change (zstrlen ":") with 1. simpl in Hok.
        assert (zstrlen (ArrowTimeUnitFormatString u) = 1) as -> by by destruct u. lia. }
      unfold datetime_text in Hlen. destruct (Z.leb_spec 128 (zstrlen ("ts" +:+
        ArrowTimeUnitFormatString u +:+ ":" +:+ default ""%string tz))); [lia|].
      eapply wp_mono; [apply set_format_wp| |done]. by intros [] q ->.
    + destruct u, tz; try done; (eapply wp_mono; [apply set_format_wp| |done]; by intros [] q ->).
    + destruct u, tz; try done; (eapply wp_mono; [apply set_format_wp| |done]; by intros [] q ->).
    + destruct tz; try done. destruct u; (eapply wp_mono; [apply set_format_wp| |done]; by intros [] q ->).
Qed.
(** The parser reads the type of the new schema. *)
Lemma target_view k n fl st w :
  SchemaView.kind_ok k → target_storage k = Some (st, w) →
  ∃ sv, view_init (SchemaLive (target_members k n fl)) view_uninit = Ok tt sv ∧
    SchemaView.storage_type sv = st ∧ SchemaView.layout sv = ArrowLayoutInit st.
Proof.
  intros Hok Hk. destruct k as [t| | |t p s|t u tz|]; try done.
  - destruct t; try done. injection Hk as <- <-. by eexists.
  - destruct t; try done. injection Hk as <- <-. destruct Hok as [Hp Hs].
    destruct (parse_decimal_text p s view_uninit Hp Hs) as [Hparse _].
    edestruct (view_init_parsed (target_members (KDecimal NANOARROW_TYPE_DECIMAL128 p s) n fl) view_uninit)
      as (v' & Hv & ->); [reflexivity|done|done|done|exact Hparse|done|done|cbv; reflexivity|by eexists].
  - destruct t; try done; injection Hk as <- <-.
    + edestruct (view_init_parsed (target_members (KDateTime NANOARROW_TYPE_TIMESTAMP u tz) n fl) view_uninit
        (set_timezone (default ""%string tz) (set_time u (set_types NANOARROW_TYPE_TIMESTAMP NANOARROW_TYPE_INT64 view_uninit))))
        as (v' & Hv & ->); [reflexivity|by destruct u|done|done|by destruct u|done|done|cbv; reflexivity|by eexists].
    + destruct u, tz; try done; by eexists.
    + destruct u, tz; try done; by eexists.
    + destruct tz; try done. destruct u; by eexists.
Qed.
Definition is_union (st : ArrowType) : bool :=
  match st with NANOARROW_TYPE_SPARSE_UNION | NANOARROW_TYPE_DENSE_UNION => true | _ => false end.
Lemma init_array_flat st lay nb len nl off bs ids a arr :
  storage_n_buffers st = Some nb →
  wp (ArrowArrayInitFromArrayView (MkArrayView off len nl st lay bs 0 (Some []) None ids)) (a, arr)
    (λ _ p, p.2 = fresh st lay 1 nb) oom.
Proof.
  intros Hnb. cbn [ArrowArrayInitFromArrayView]. apply wp_bind. unfold ArrowArrayInitFromType.
  apply wp_bind. unfold wp, ArrowMalloc. destruct (malloc_step _ a) as [[|] a1]; [|done].
  unfold ArrowArraySetStorageType. rewrite Hnb. done.
Qed.
(** [ArrowArrayInitFromSchema] on a schema without children. *)
Lemma init_flat_wp s st nb sv a arr :
  view_init (SchemaLive s) view_uninit = Ok tt sv → SchemaView.storage_type sv = st →
  SchemaView.layout sv = ArrowLayoutInit st → n_children s = 0 → children s = None → dictionary s = None →
  storage_n_buffers st = Some nb → is_union st = false →
  wp (ArrowArrayInitFromSchema (SchemaLive s)) (a, arr) (λ _ p, p.2 = fresh st (ArrowLayoutInit st) 1 nb) oom.
Proof.
  intros Hv <- Hlay Hn Hc Hd Hnb Hk. destruct s as [f n m fl nc ch d]. simpl in Hn, Hc, Hd. subst.
  set (st := SchemaView.storage_type sv) in *.
  assert (∀ v0, ArrowArrayViewInitFromSchema (SchemaLive (MkMembers f n m fl 0 None None)) (a, v0) =
    let '(ok, a1) := malloc_step 0 a in
    if ok then Ok tt (a1, MkArrayView 0 0 0 st (ArrowLayoutInit st) (replicate 3 (MkView None 0)) 0 (Some []) None None)
    else Err ENOMEM (a1, ArrowArrayViewInitFromType NANOARROW_TYPE_UNINITIALIZED)) as Hview.
  { intros v0. cbn [ArrowArrayViewInitFromSchema]. unfold ArrowSchemaViewInit. rewrite Hv.
    unfold init_from_view. rewrite Hlay. fold st.
    unfold or_reset, on_error, modify, mmod. unfold mbind_ at 1 2 3. rewrite allocate_no_children by done.
    destruct (malloc_step 0 a) as [[|] a1]; [|done]. unfold mbind_. simpl. by destruct st. }
  unfold ArrowArrayInitFromSchema, wp. rewrite Hview. destruct (malloc_step 0 a) as [[|] a1]; [|done].
  pose proof (init_array_flat st (ArrowLayoutInit st) nb 0 0 0 (replicate 3 (MkView None 0)) None a1 arr Hnb) as Hinit.
  unfold wp in Hinit. unfold mbind_ at 1. simpl view_storage_type.
  destruct (ArrowArrayInitFromArrayView _ _) as [[] p|e p|]; [|done|done]. by destruct st.
Qed.
Lemma fresh_live st lay flag nb w :
  buffer_type lay = kind_types (Fixed w) → element_size_bits lay = kind_sizes (Fixed w) →
  live_repr st (Fixed w) [] (fresh st lay flag nb).
Proof.
  intros Ht Hs. eexists. split; [done|]. by apply (repr_flat st (Fixed w) []).
Qed.
Lemma target_layout k st w :
  target_storage k = Some (st, w) →
  storage_kind st (Fixed w) ∧ buffer_type (ArrowLayoutInit st) = kind_types (Fixed w) ∧
  element_size_bits (ArrowLayoutInit st) = kind_sizes (Fixed w) ∧ is_union st = false ∧
  is_Some (storage_n_buffers st) ∧ (0 < w <= 16)%nat.
Proof.
  intros Hk. destruct k as [t| | |t ? ?|t ? ?|]; try done; destruct t; try done;
    injection Hk as <- <-; (split_and!; [done..|by eexists|lia|lia]).
Qed.

(** ** The columns of a conversion *)
Context (k : schema_kind) (st : ArrowType) (w : nat).
Context (Hk : target_storage k = Some (st, w)) (Hok : SchemaView.kind_ok k).

(** Only an allocation fails. *)
Definition no_memory {S} (p : py_error) (_ : S) : Prop := p = ArrowRC ENOMEM.
Definition no_throw {S} (_ : exn) (_ : S) : Prop := False.

Definition start_column (old : members) : CM locals unit := on_new_schema (set_kind k) ;;! name_and_init old.
Lemma start_column_wp old fl a :
  cwp (start_column old) (MkLocals a (set_flags fl ArrowSchemaInit) ArrayReleased)
    (λ _ l, newSchema l = target_members k (name old) fl ∧
            ∃ nb, newArray l = fresh st (ArrowLayoutInit st) 1 nb) no_memory no_throw.
Proof.
  destruct (target_layout _ _ _ Hk) as (Hst & Ht & Hs & Hu & [nb Hnb] & _).
  destruct (target_view k (name old) fl st w Hok Hk) as (sv & Hv & Hsv & Hlay).
  apply cwp_bind, cwp_rc. eapply wp_mono; [apply set_target_wp; [done|by eexists]| |by intros e p ->].
  intros [] [a1 s1] Hs1. simpl in Hs1. subst s1. unfold name_and_init. apply cwp_bind, cwp_rc.
  eapply wp_mono; [apply set_name_wp| |by intros e p ->]. intros [] [a2 s2] Hs2. simpl in Hs2. subst s2.
  apply cwp_bind, cwp_get. simpl newSchema. apply cwp_rc.
  eapply wp_mono; [eapply (init_flat_wp _ st nb sv); try done| |by intros e p ->].
  1-3: by destruct k as [t| | |t ? ?|t ? ?|]; try done; destruct t.
  intros [] p Hp. simpl. eauto.
Qed.
(** What comes after it runs on an empty array, with [ArrowArrayStartAppending] or
    without. *)
Definition started (old : members) (fl : Z) (l : locals) : Prop :=
  newSchema l = target_members k (name old) fl ∧ live_repr st (Fixed w) [] (newArray l).
Lemma start_then old fl a (rest : CM locals unit) Q (R : py_error → locals → Prop) X :
  (∀ l, started old fl l → cwp rest l Q R X) → (∀ l, R (ArrowRC ENOMEM) l) →
  cwp (on_new_schema (set_kind k)) (MkLocals a (set_flags fl ArrowSchemaInit) ArrayReleased)
    (λ _ l, cwp (name_and_init old ;;! rest) l Q R X) R X.
Proof.
  intros Hrest Hmem. destruct (target_layout _ _ _ Hk) as (Hst & Ht & Hs & _).
  pose proof (start_column_wp old fl a) as Hstart. unfold start_column, cwp, cbind in *.
  destruct (on_new_schema _ _) as [[] l1|p l1|x l1|]; [|by rewrite Hstart|done|done].
  destruct (name_and_init old l1) as [[] l2|p l2|x l2|]; [|by rewrite Hstart|done|done].
  destruct Hstart as [Hs' [nb Hl]]. apply Hrest. split; [done|]. rewrite Hl. by apply fresh_live.
Qed.
Lemma start_then_append old fl a (rest : CM locals unit) Q (R : py_error → locals → Prop) X :
  (∀ l, started old fl l → cwp rest l Q R X) → (∀ l, R (ArrowRC ENOMEM) l) →
  cwp (on_new_schema (set_kind k)) (MkLocals a (set_flags fl ArrowSchemaInit) ArrayReleased)
    (λ _ l, cwp (name_and_init old ;;! append ArrowArrayStartAppending ;;! rest) l Q R X) R X.
Proof.
  intros Hrest Hmem. destruct (target_layout _ _ _ Hk) as (Hst & Ht & Hs & _).
  pose proof (start_column_wp old fl a) as Hstart. unfold start_column, cwp, cbind in *.
  destruct (on_new_schema _ _) as [[] l1|p l1|x l1|]; [|by rewrite Hstart|done|done].
  destruct (name_and_init old l1) as [[] l2|p l2|x l2|]; [|by rewrite Hstart|done|done].
  destruct Hstart as [Hs' [nb Hl]].
  assert (cwp (append ArrowArrayStartAppending) l2 (λ _ l, started old fl l) no_memory no_throw) as Happ.
  { apply cwp_rc. rewrite Hl. eapply wp_mono; [by apply start_appending_wp| |by intros e p ->]. done. }
  unfold cwp in Happ. destruct (append _ l2) as [[] l3|p l3|x l3|]; [by apply Hrest|by rewrite Happ|done|done].
Qed.

(** Room for one more element. *)
Definition max_rows : Z := 2 ^ 50.
Lemma column_fits cells arr op :
  live_repr st (Fixed w) cells arr → zlen cells <= max_rows → op_size op = 1 →
  ops_fit (Fixed w) cells [op] ∧ small (Fixed w) cells.
Proof.
  intros (a & -> & Ha) Hlen Hop. destruct (target_layout _ _ _ Hk) as (_ & _ & _ & _ & _ & Hw).
  destruct Ha as [lay flag nb ptrs bm b1 b2 _ _ _ _ Hl]. unfold ops_fit, small, ops_size. cbn [foldr kind_width].
  rewrite Hop, total_fixed by done. unfold max_rows in Hlen. pose proof (zlen_nonneg cells).
  assert (0 <= Z.of_nat w * zlen cells <= 16 * 2 ^ 50) by nia.
  unfold INT32_MAX, INT64_MAX. lia.
Qed.
Lemma build_step cells l op :
  live_repr st (Fixed w) cells (newArray l) → zlen cells <= max_rows → op_size op = 1 →
  build_op_ok (Fixed w) op →
  cwp (append (run_build op)) l
    (λ _ l', newSchema l' = newSchema l ∧
             ∃ x, build_spec st (Fixed w) cells op = inr x ∧ live_repr st (Fixed w) (cells ++ x) (newArray l'))
    (λ p _, p = ArrowRC ENOMEM ∨ ∃ e, build_spec st (Fixed w) cells op = inl e ∧ p = ArrowRC e) no_throw.
Proof.
  intros Hl Hlen Hsize Hop. destruct (column_fits _ _ op Hl Hlen Hsize) as [Hfit _].
  destruct (target_layout _ _ _ Hk) as (Hst & _). destruct Hl as (a & Ha & Hrepr).
  apply cwp_rc. rewrite Ha. eapply wp_mono; [by apply (run_build_wp st (Fixed w) cells op [] a)| |].
  - intros [] arr (x & Hx & Harr). simpl. eauto.
  - intros e arr [->|He]; eauto.
Qed.

(** What a row becomes. *)
Definition cell_of {R} (cell : R → errno + list Z) (o : option R) (c : option (list Z)) : Prop :=
  match o with None => c = None | Some r => ∃ x, cell r = inr x ∧ c = Some x end.
Definition rejected {R} (rows : list (option R)) (cell : R → errno + list Z) (p : py_error) : Prop :=
  p = ArrowRC ENOMEM ∨ ∃ r e, Some r ∈ rows ∧ cell r = inl e ∧ p = ArrowRC e.
Definition null_rows {R} (v : ArrowArrayView) (rows : list (option R)) : Prop :=
  ∀ i o, rows !! i = Some o →
    ArrowArrayViewIsNull v (Z.of_nat i) = Some (match o with None => true | Some _ => false end).
Lemma for_rows_wp {R} (rows : list (option R)) (cell : R → errno + list Z) v value l :
  null_rows v rows → zlen rows <= max_rows → live_repr st (Fixed w) [] (newArray l) →
  (∀ i r cells l', rows !! i = Some (Some r) → live_repr st (Fixed w) cells (newArray l') →
     zlen cells <= max_rows →
     cwp (value (Z.of_nat i)) l'
       (λ _ l'', newSchema l'' = newSchema l' ∧
                 ∃ x, cell r = inr x ∧ live_repr st (Fixed w) (cells ++ [Some x]) (newArray l''))
       (λ p _, p = ArrowRC ENOMEM ∨ ∃ e, cell r = inl e ∧ p = ArrowRC e) no_throw) →
  cwp (for_rows (zlen rows) v value) l
    (λ _ l', newSchema l' = newSchema l ∧
             ∃ cells, Forall2 (cell_of cell) rows cells ∧ live_repr st (Fixed w) cells (newArray l'))
    (λ p _, rejected rows cell p) no_throw.
Proof.
  intros Hnull Hlen Hl Hvalue. unfold for_rows.
  eapply (cwp_mono _ _ _ _ (λ p _, rejected rows cell p) _ no_throw); [apply (cwp_for (λ pre l', newSchema l' = newSchema l ∧ ∃ cells,
    Forall2 (cell_of cell) (take (List.length pre) rows) cells ∧ live_repr st (Fixed w) cells (newArray l')))| |done|done].
  - split; [done|]. exists []. split; [constructor|done].
  - intros pre i post l' Hsplit (Hs & cells & Hcells & Hlive). apply zseq_split in Hsplit as (Hi & Hlt & _).
    assert (∃ o, rows !! List.length pre = Some o) as [o Ho].
    { apply lookup_lt_is_Some_2. unfold zlen in *. lia. }
    assert (take (List.length (pre ++ [i])) rows = take (List.length pre) rows ++ [o]) as ->.
    { rewrite length_app. simpl. rewrite Nat.add_1_r. by apply take_S_r. }
    assert (i = Z.of_nat (List.length pre)) as -> by done. pose proof (Forall2_length Hcells) as Hlc.
    rewrite length_take in Hlc. assert (zlen cells <= max_rows) as Hmax by (unfold zlen in *; lia).
    apply cwp_bind, cwp_deref. eexists. split; [by apply Hnull|]. destruct o as [r|].
    + eapply cwp_mono; [by apply (Hvalue _ r cells)| | |done].
      * intros [] l'' (Hs' & x & Hx & Hlive'). split; [congruence|]. eexists. split; [|done].
        apply Forall2_app; [done|]. constructor; [by exists x|constructor].
      * intros p _ [->|(e & He & ->)]; [by left|]. right. exists r, e. split; [by eapply list_elem_of_lookup_2|done].
    + eapply cwp_mono; [apply (build_step cells l' (BNull 1)); try done; by split| | |done].
      * intros [] l'' (Hs' & x & [= <-] & Hlive'). split; [congruence|]. eexists. split; [|done].
        apply Forall2_app; [done|]. constructor; [done|constructor].
      * intros p _ [->|(e & He & ->)]; [by left|done].
  - intros [] l' (Hs & cells & Hcells & Hlive). split; [done|]. exists cells. split; [|done].
    rewrite take_ge in Hcells; [done|]. unfold zseq. rewrite length_fmap, length_seq. unfold zlen. lia.
Qed.

(** ** Columns of integers *)

(** A column of integers, as its view shows it. *)
Record int_rows (v : ArrowArrayView) (rows : list (option Z)) : Prop := {
  int_nulls : null_rows v rows;
  int_values : ∀ i z, rows !! i = Some (Some z) →
    ArrowArrayViewGetIntUnsafe v (Z.of_nat i) = Some z ∧ INT64_MIN <= z <= INT64_MAX;
}.
Definition new_flags (old : members) : Z :=
  Z.land (flags ArrowSchemaInit) (Z.land (flags old) ARROW_FLAG_NULLABLE).
(** The end of a conversion: the new column is there, or the Python error is set
    and the old one is. *)
Definition replaced {R} (rows : list (option R)) (cell : R → errno + list Z) (c c' : conv) : Prop :=
  (conv_error c' = conv_error c ∧ ∃ old cells, conv_schema c = SchemaLive old ∧
     conv_schema c' = SchemaLive (target_members k (name old) (new_flags old)) ∧
     Forall2 (cell_of cell) rows cells ∧ finished st (Fixed w) cells (conv_array c')) ∨
  (∃ p, conv_error c' = Some p ∧ rejected rows cell p ∧
     conv_schema c' = conv_schema c ∧ conv_array c' = conv_array c).
Lemma replace_column_wp {R} (rows : list (option R)) (cell : R → errno + list Z) body c old a :
  conv_schema c = SchemaLive old → conv_array c = ArrayLive a → zlen rows <= max_rows →
  cwp (body old (array_length a)) (MkLocals (conv_mem c) (set_flags (new_flags old) ArrowSchemaInit) ArrayReleased)
    (λ _ l, newSchema l = target_members k (name old) (new_flags old) ∧
            ∃ cells, Forall2 (cell_of cell) rows cells ∧ live_repr st (Fixed w) cells (newArray l))
    (λ p _, rejected rows cell p) no_throw →
  cwp (replace_column body) c (λ _ c', replaced rows cell c c') (λ _ _, False) no_throw.
Proof.
  intros Hs Ha Hlen Hbody. destruct (target_layout _ _ _ Hk) as (Hst & _).
  assert (cwp (body old (array_length a) ;;! on_new_array ArrowArrayFinishBuildingDefault)
    (MkLocals (conv_mem c) (set_flags (new_flags old) ArrowSchemaInit) ArrayReleased)
    (λ _ l, newSchema l = target_members k (name old) (new_flags old) ∧
            ∃ cells, Forall2 (cell_of cell) rows cells ∧ finished st (Fixed w) cells (newArray l))
    (λ p _, rejected rows cell p) no_throw) as Hbuild.
  { apply cwp_bind. eapply cwp_mono; [exact Hbody| |done|done]. intros [] l (Hl & cells & Hcells & Hlive).
    assert (zlen cells = zlen rows) as Hlc by (unfold zlen; by rewrite (Forall2_length Hcells)).
    destruct (column_fits cells _ (BInt 0) Hlive ltac:(lia) eq_refl) as [_ Hsmall].
    apply cwp_rc. eapply wp_mono; [by apply (finish_building_wp st w cells)| |by intros e p ->; left].
    intros [] p Hp. simpl. eauto. }
  unfold cwp in *. unfold replace_column. rewrite Hs, Ha. fold (new_flags old).
  destruct (cbind _ _ _) as [[] l|p l|x l|]; [| |done|done].
  - destruct Hbuild as (Hl & cells & Hcells & Hfin). left. simpl. split; [done|]. exists old, cells. by rewrite Hl.
  - right. exists p. rewrite <-Hs, <-Ha. by split_and!.
Qed.

Lemma append_value_wp cells l z :
  live_repr st (Fixed w) cells (newArray l) → zlen cells <= max_rows → INT64_MIN <= z <= INT64_MAX →
  cwp (append_value z) l
    (λ _ l', newSchema l' = newSchema l ∧
             ∃ x, encode_int st z = inr x ∧ live_repr st (Fixed w) (cells ++ [Some x]) (newArray l'))
    (λ p _, p = ArrowRC ENOMEM ∨ ∃ e, encode_int st z = inl e ∧ p = ArrowRC e) no_throw.
Proof.
  intros Hl Hlen Hz. eapply cwp_mono; [by apply (build_step cells l (BInt z))| | |done].
  - intros [] l' (Hs & x & Hx & Hlive). split; [done|]. simpl in Hx. unfold one in Hx.
    destruct (encode_int st z) as [e|y]; [done|]. injection Hx as <-. eauto.
  - intros p _ [->|(e & He & ->)]; [by left|]. right. exists e. split; [|done]. simpl in He. unfold one in He.
    destruct (encode_int st z) as [e'|y]; [|done]. congruence.
Qed.
(** A conversion that computes an integer from every row. *)
Lemma value_column_wp {R} (rows : list (option R)) (f : R → Z) v value l :
  null_rows v rows → zlen rows <= max_rows → live_repr st (Fixed w) [] (newArray l) →
  (∀ r, Some r ∈ rows → INT64_MIN <= f r <= INT64_MAX) →
  (∀ i r l' Q R X, rows !! i = Some (Some r) → cwp (append_value (f r)) l' Q R X → cwp (value (Z.of_nat i)) l' Q R X) →
  cwp (for_rows (zlen rows) v value) l
    (λ _ l', newSchema l' = newSchema l ∧ ∃ cells,
       Forall2 (cell_of (λ r, encode_int st (f r))) rows cells ∧ live_repr st (Fixed w) cells (newArray l'))
    (λ p _, rejected rows (λ r, encode_int st (f r)) p) no_throw.
Proof.
  intros Hv Hlen Hl Hf Hvalue. apply for_rows_wp; [done|done|done|].
  intros i r cells l' Hi Hlive Hmax. pose proof (list_elem_of_lookup_2 _ _ _ Hi) as Hin.
  apply (Hvalue i r); [done|]. by apply append_value_wp; [|done|apply Hf].
Qed.
Lemma replaced_ext {R} (rows : list (option R)) cell cell' c c' :
  (∀ r, Some r ∈ rows → cell r = cell' r) → replaced rows cell c c' → replaced rows cell' c c'.
Proof.
  intros Hext [(He & old & cells & Hs & Hs' & Hcells & Hfin)|(p & Hp & Hr & Hrest)].
  - left. split; [done|]. exists old, cells. split_and!; try done.
    clear Hfin. induction Hcells as [|o x rows cells Ho Hcells IH]; constructor.
    + destruct o as [r|]; [|done]. destruct Ho as (y & Hy & ->). exists y. split; [|done].
      rewrite <-Hext; [done|]. left.
    + apply IH. intros r Hr. apply Hext. by right.
  - right. exists p. split_and!; try done; try apply Hrest. destruct Hr as [->|(r & e & Hr & He & ->)]; [by left|].
    right. exists r, e. rewrite <-Hext; done.
Qed.
End finish.

Arguments replaced {_} k st w {R} rows cell c c'.
