(* ===== verification/Conversions.v ===== *)
(** * The conversions of columns

    Each conversion of the table iterator ([Convert]) as a function on the rows of
    a column: times, scaled numbers, timestamps of at most six digits, and
    timestamps that are an epoch with a fraction, where the range of 64-bit
    nanoseconds matters.  At the end, inputs on which a conversion does not give
    the instants or the durations of the old column. *)

From Stdlib Require Import Ascii.
From stdpp Require Import base numbers list option strings.
From S2P Require Import Prelude CInt CString Float Buffer Bits Bitmap Types Metadata Schema SchemaView.
From S2P Require Import ArrayView Array ArrayBuild Stream Decimal Cpp Double Convert ConvertSpec.
#[local] Open Scope Z_scope.
#[local] Open Scope cpp_scope.

(** ** Rescaling *)

(** The digits of the unit a scale is converted to. *)
Definition unit_digits (scale : Z) : Z := if scale =? 0 then 0 else if scale <=? 3 then 3 else 6.
(** A count of [10 ^ -scale] seconds in units of [10 ^ -digits] seconds, rounded
    down. *)
Definition rescale (digits scale z : Z) : Z := z * 10 ^ digits / 10 ^ scale.
Definition time_kind (scale : Z) : schema_kind :=
  if scale =? 0 then KDateTime NANOARROW_TYPE_TIME32 NANOARROW_TIME_UNIT_SECOND None
  else if scale <=? 3 then KDateTime NANOARROW_TYPE_TIME32 NANOARROW_TIME_UNIT_MILLI None
  else KDateTime NANOARROW_TYPE_TIME64 NANOARROW_TIME_UNIT_MICRO None.
Definition time_storage (scale : Z) : ArrowType * nat :=
  if scale <=? 3 then (NANOARROW_TYPE_INT32, 4%nat) else (NANOARROW_TYPE_INT64, 8%nat).
(** The factor or the divisor of a scale. *)
Definition time_factor (scale : Z) : Z := if scale <=? 6 then 10 ^ (unit_digits scale - scale) else 10 ^ (scale - 6).
Definition time_value (scale z : Z) : Z :=
  if scale <=? 6 then z * time_factor scale else Z.quot z (time_factor scale).

Lemma rescale_up digits scale z : 0 <= scale <= digits → rescale digits scale z = z * 10 ^ (digits - scale).
Proof.
  intros Hs. unfold rescale. replace digits with ((digits - scale) + scale) at 1 by lia.
  rewrite pow10_split, Z.mul_assoc, Z.div_mul; lia.
Qed.
Lemma rescale_down digits scale z : 0 <= digits <= scale → rescale digits scale z = z / 10 ^ (scale - digits).
Proof.
  intros Hs. unfold rescale. replace scale with (digits + (scale - digits)) at 1 by lia.
  rewrite pow10_split, (Z.mul_comm z), Z.div_mul_cancel_l; lia.
Qed.
Lemma unit_digits_up scale : 0 <= scale <= 6 → scale <= unit_digits scale <= 6.
Proof. unfold unit_digits. intros. destruct (Z.eqb_spec scale 0), (Z.leb_spec scale 3); lia. Qed.
Lemma time_value_rescale scale z :
  0 <= scale <= 9 → 0 <= z → time_value scale z = rescale (unit_digits scale) scale z.
Proof.
  intros Hs Hz. unfold time_value, time_factor. destruct (Z.leb_spec scale 6).
  - pose proof (unit_digits_up scale). by rewrite rescale_up by lia.
  - assert (unit_digits scale = 6) as ->
      by (unfold unit_digits; destruct (Z.eqb_spec scale 0), (Z.leb_spec scale 3); lia).
    rewrite rescale_down by lia. apply Z.quot_div_nonneg; lia.
Qed.
(** A time of the day in the unit of its scale. *)
Lemma rescale_day scale z :
  0 <= scale <= 9 → 0 <= z < 86400 * 10 ^ scale →
  0 <= rescale (unit_digits scale) scale z < 86400 * 10 ^ unit_digits scale.
Proof.
  intros Hs Hz. unfold rescale. assert (0 < 10 ^ scale) by lia.
  assert (0 < 10 ^ unit_digits scale) by (apply Z.pow_pos_nonneg; unfold unit_digits; repeat case_match; lia).
  split; [apply Z.div_pos; nia|]. apply Z.div_lt_upper_bound; nia.
Qed.

Section conversions.
Context `{!Libc} `{!Malloc}.
Implicit Types (v : ArrowArrayView) (c : conv).

(** The column to convert: its schema and its array are there, and the array has
    the rows that the view shows. *)
Definition has_rows (c : conv) (n : Z) : Prop :=
  ∃ old a, conv_schema c = SchemaLive old ∧ conv_array c = ArrayLive a ∧ array_length a = n ∧ n <= max_rows.

(** A conversion whose body sets up the new column and then runs over the rows. *)
Definition starts (k : schema_kind) (st : ArrowType) (w : nat) (c : conv) (n : Z)
    (body : members → Z → CM locals unit) (loop : CM locals unit) : Prop :=
  ∀ old Q (R : py_error → locals → Prop) X, conv_schema c = SchemaLive old →
    (∀ l, started k st w old (new_flags old) l → cwp loop l Q R X) → (∀ l, R (ArrowRC ENOMEM) l) →
    cwp (body old n) (MkLocals (conv_mem c) (set_flags (new_flags old) ArrowSchemaInit) ArrayReleased) Q R X.

Section kinds.
Context (k : schema_kind) (st : ArrowType) (w : nat).
Context (Hk : target_storage k = Some (st, w)) (Hok : SchemaView.kind_ok k).

Lemma convert_rows_wp {R} (rows : list (option R)) (cell : R → errno + list Z) v c body value :
  null_rows v rows → has_rows c (zlen rows) →
  starts k st w c (zlen rows) body (for_rows (zlen rows) v value) →
  (∀ i r cells l', rows !! i = Some (Some r) → live_repr st (Fixed w) cells (newArray l') →
     zlen cells <= max_rows →
     cwp (value (Z.of_nat i)) l'
       (λ _ l'', newSchema l'' = newSchema l' ∧
                 ∃ x, cell r = inr x ∧ live_repr st (Fixed w) (cells ++ [Some x]) (newArray l''))
       (λ p _, p = ArrowRC ENOMEM ∨ ∃ e, cell r = inl e ∧ p = ArrowRC e) no_throw) →
  cwp (replace_column body) c (λ _ c', replaced k st w rows cell c c') (λ _ _, False) no_throw.
Proof.
  intros Hv (old & a & Hold & Ha & Hlen & Hmax) Hstart Hvalue.
  eapply (replace_column_wp k st w Hk rows cell); [done|done|lia|]. rewrite Hlen.
  apply Hstart; [done| |by left]. intros l [Hl Hlive].
  eapply cwp_mono; [by apply (for_rows_wp k st w Hk rows cell)| |done|done].
  intros [] l' (Hs & Hcells). split; [congruence|done].
Qed.
(** The common case: the value of a row is an integer. *)
Lemma convert_values_wp {R} (rows : list (option R)) (f : R → Z) (cell : R → list Z) v c body value :
  null_rows v rows → has_rows c (zlen rows) →
  starts k st w c (zlen rows) body (for_rows (zlen rows) v value) →
  (∀ r, Some r ∈ rows → INT64_MIN <= f r <= INT64_MAX ∧ encode_int st (f r) = inr (cell r)) →
  (∀ i r l' Q R X, rows !! i = Some (Some r) → cwp (append_value (f r)) l' Q R X →
     cwp (value (Z.of_nat i)) l' Q R X) →
  cwp (replace_column body) c (λ _ c', replaced k st w rows (λ r, inr (cell r)) c c') (λ _ _, False) no_throw.
Proof.
  intros Hv Hc Hstart Hf Hvalue. apply (convert_rows_wp rows _ v _ _ value); [done..|].
  intros i r cells l' Hi Hlive Hmax. destruct (Hf r (list_elem_of_lookup_2 _ _ _ Hi)) as [Hr Henc].
  rewrite <-Henc. apply (Hvalue i r); [done|]. by apply (append_value_wp k st w Hk).
Qed.
Lemma starts_plain c n (loop : CM locals unit) :
  starts k st w c n (λ old _, on_new_schema (set_kind k) ;;! name_and_init old ;;! loop) loop.
Proof. intros old Q R X Hold Hloop Hmem. apply cwp_bind. by apply (start_then k st w Hk Hok). Qed.
Lemma starts_append c n (loop : CM locals unit) :
  starts k st w c n
    (λ old _, on_new_schema (set_kind k) ;;! name_and_init old ;;! append ArrowArrayStartAppending ;;! loop) loop.
Proof. intros old Q R X Hold Hloop Hmem. apply cwp_bind. by apply (start_then_append k st w Hk Hok). Qed.
End kinds.

(** A time of the day fits the new column. *)
Lemma encode_time scale z :
  0 <= scale <= 9 → 0 <= z < 86400 * 10 ^ scale →
  INT64_MIN <= time_value scale z <= INT64_MAX ∧
  encode_int (time_storage scale).1 (time_value scale z) =
    inr (le_bytes (time_storage scale).2 (rescale (unit_digits scale) scale z)).
Proof.
  intros Hs Hz. rewrite time_value_rescale by lia. pose proof (rescale_day scale z Hs Hz) as Hd.
  assert (10 ^ unit_digits scale <= if scale <=? 3 then 1000 else 1000000) as Hu
    by (unfold unit_digits; destruct (scale =? 0), (Z.leb_spec scale 3); lia).
  set (y := rescale _ _ _) in *. unfold time_storage, encode_int.
  destruct (Z.leb_spec scale 3); cbn [fst snd int_bounds]; (split; [width|]).
  - destruct (Z.leb_spec INT32_MIN y), (Z.leb_spec y INT32_MAX); done || width.
  - destruct (Z.leb_spec INT64_MIN y), (Z.leb_spec y INT64_MAX); done || width.
Qed.
Lemma time_schema_spec scale :
  0 <= scale <= 9 →
  (∀ l Q R X, cwp (on_new_schema (set_kind (time_kind scale))) l (λ _, Q (time_factor scale)) R X →
    cwp (time_schema scale) l Q R X) ∧
  SchemaView.kind_ok (time_kind scale) ∧ target_storage (time_kind scale) = Some (time_storage scale).
Proof.
  intros Hs. unfold time_schema, time_kind, time_storage, time_factor, unit_digits.
  destruct (Z.eqb_spec scale 0) as [->|]; [|destruct (Z.leb_spec scale 3); [|destruct (Z.leb_spec scale 6)]];
    (split; [intros l Q R X Hwp|done]); apply cwp_bind; try exact Hwp; rewrite powTenSB4_spec by lia.
  - destruct (Z.leb_spec scale 6); [exact Hwp|lia].
  - exact Hwp.
  - destruct (Z.leb_spec scale 6); [lia|exact Hwp].
Qed.

(** C11.  [convertTimeColumn] gives every time of the day its count of seconds,
    milliseconds or microseconds, rounded down, in a column of the time type
    with that unit and with the name and the nullability of the old one, and
    nulls stay nulls; or it sets the Python error, for want of memory only, and leaves the
    old column as it was. *)
Theorem convert_time (scale : Z) (v : ArrowArrayView) (rows : list (option Z)) (c : conv)
    (Hs : 0 <= scale <= 9) (Hv : int_rows v rows) (Hc : has_rows c (zlen rows))
    (Hday : ∀ z, Some z ∈ rows → 0 <= z < 86400 * 10 ^ scale) :
  cwp (convertTimeColumn v scale) c
    (λ _ c', replaced (time_kind scale) (time_storage scale).1 (time_storage scale).2 rows
       (λ z, inr (le_bytes (time_storage scale).2 (rescale (unit_digits scale) scale z))) c c')
    (λ _ _, False) no_throw.
Proof.
  destruct (time_schema_spec scale Hs) as (Hschema & Hok & Hk).
  rewrite (surjective_pairing (time_storage scale)) in Hk.
  eapply (convert_values_wp _ _ _ Hk rows (time_value scale)); [apply Hv|done| | |].
  - intros old Q R X Hold Hloop Hmem. apply cwp_bind, Hschema.
    by apply (start_then_append _ _ _ Hk Hok).
  - intros z Hz. by apply encode_time; [|apply Hday].
  - intros i z l' Q R X Hi Happ. destruct (int_values _ _ Hv i z Hi) as [Hget _].
    destruct (encode_time scale z Hs (Hday z (list_elem_of_lookup_2 _ _ _ Hi))) as [Hz _].
    apply cwp_bind, cwp_deref. eexists. split; [done|]. apply cwp_bind. unfold time_value in *.
    destruct (scale <=? 6); [|by apply cwp_ret]. rewrite int64_in by done. by apply cwp_ret.
Qed.

(** *** Numbers *)
Definition append_decimal (scale z : Z) : CM locals unit :=
  let! arrowDecimal := cderef (ArrowDecimalSetInt z (ArrowDecimalInit 128 38 scale)) in
  append (on_array (ArrowArrayAppendDecimal arrowDecimal)).

Lemma set_int_128 scale z :
  INT64_MIN <= z <= INT64_MAX →
  ∃ d, ArrowDecimalSetInt z (ArrowDecimalInit 128 38 scale) = Some d ∧ n_words d = 2 ∧
    words_bytes (words d) = le_bytes 16 z ++ replicate 16 0.
Proof.
  intros Hz. eexists. split; [reflexivity|]. split; [done|]. change 16%nat with (8 + 8)%nat.
  rewrite le_bytes_app. simpl words. unfold words_bytes. rewrite !fmap_cons. cbn [concat].
  rewrite <-(le_bytes_mod 8 z), <-app_assoc. f_equal.
  destruct (Z.ltb_spec z 0).
  - replace (z / 256 ^ Z.of_nat 8) with (-1); [by vm_compute|].
    apply Z.div_unique with (z + 2 ^ 64); width.
  - rewrite Z.div_small by width. by vm_compute.
Qed.
Lemma append_decimal_wp scale cells l z :
  live_repr NANOARROW_TYPE_DECIMAL128 (Fixed 16) cells (newArray l) → zlen cells <= max_rows →
  INT64_MIN <= z <= INT64_MAX →
  cwp (append_decimal scale z) l
    (λ _ l', newSchema l' = newSchema l ∧ ∃ x, @inr errno _ (le_bytes 16 z) = inr x ∧
       live_repr NANOARROW_TYPE_DECIMAL128 (Fixed 16) (cells ++ [Some x]) (newArray l'))
    (λ p _, p = ArrowRC ENOMEM ∨ ∃ e, @inr errno (list Z) (le_bytes 16 z) = inl e ∧ p = ArrowRC e) no_throw.
Proof.
  intros (a & Ha & Hrepr) Hlen Hz. destruct (set_int_128 scale z Hz) as (d & Hd & Hn & Hwords).
  apply cwp_bind, cwp_deref. exists d. split; [done|]. apply cwp_rc. rewrite Ha.
  destruct Hrepr as [lay flag nb ptrs bm b1 b2 Ht Hs Hv Hdata Hl].
  assert (block_ok (Fixed 16) (le_bytes 16 z)) as Hblock by (split; [apply le_bytes_ok|done]).
  assert (small (Fixed 16) (cells ++ [Some (le_bytes 16 z)])) as Hsmall.
  { unfold small. rewrite total_fixed.
    - rewrite zlen_app. unfold max_rows in Hlen. pose proof (zlen_nonneg cells). simpl kind_width.
      change (zlen [Some (le_bytes 16 z)]) with 1. unfold INT64_MAX. lia.
    - rewrite blocks_app. apply Forall_app. split; [done|by constructor]. }
  eapply wp_mono; [eapply (step_live _ lay flag nb ptrs _ _ bm b1 b2 _ (inr [Some (le_bytes 16 z)]))| |].
  - unfold ArrowArrayAppendDecimal. apply step_private. cbn [private_storage_type]. rewrite Hn. simpl Z.eqb.
    apply (fixed_step _ _ _ _ _ _ _ _ _ _ _ 16); [done|done|done|].
    intros b x Hb Hmax. apply holds_append; [done| |done|apply le_bytes_ok|done].
    rewrite Hwords. apply (source_of_app (le_bytes 16 z)).
  - by intros x [= <-].
  - intros [] arr' (x & [= <-] & Harr). simpl. eauto.
  - intros e arr' [->|?]; [by left|done].
Qed.
Lemma append_double_wp cells l x :
  live_repr NANOARROW_TYPE_DOUBLE (Fixed 8) cells (newArray l) → zlen cells <= max_rows → 0 <= x < 2 ^ 64 →
  cwp (append (on_array (ArrowArrayAppendDouble x))) l
    (λ _ l', newSchema l' = newSchema l ∧ ∃ y, @inr errno _ (le_bytes 8 x) = inr y ∧
       live_repr NANOARROW_TYPE_DOUBLE (Fixed 8) (cells ++ [Some y]) (newArray l'))
    (λ p _, p = ArrowRC ENOMEM ∨ ∃ e, @inr errno (list Z) (le_bytes 8 x) = inl e ∧ p = ArrowRC e) no_throw.
Proof.
  intros Hl Hlen Hx. eapply cwp_mono;
    [exact (build_step (KType NANOARROW_TYPE_DOUBLE) _ 8 eq_refl cells l (BDouble x) Hl Hlen eq_refl Hx)| | |done].
  - intros [] l' (Hs & y & [= <-] & Hlive). eauto.
  - intros p _ [->|(e & [=] & ->)]. by left.
Qed.

(** The type and the cells of a column of scaled numbers. *)
Definition number_kind (to_decimal : bool) (scale : Z) : schema_kind :=
  if to_decimal then KDecimal NANOARROW_TYPE_DECIMAL128 38 scale else KType NANOARROW_TYPE_DOUBLE.
Definition number_storage (to_decimal : bool) : ArrowType * nat :=
  if to_decimal then (NANOARROW_TYPE_DECIMAL128, 16%nat) else (NANOARROW_TYPE_DOUBLE, 8%nat).
Definition number_cell (to_decimal : bool) (scale z : Z) : list Z :=
  if to_decimal then le_bytes 16 z
  else le_bytes 8 (round_ratio binary64 (z <? 0) (Z.abs z) (10 ^ scale)).

(** C14.  [convertScaledFixedNumberColumn] gives a column of decimals with the
    scale and the same digits, or a column of the doubles nearest to
    [z / 10 ^ scale] (for scales below 9 the digits must be exact in a double);
    name, nullability and nulls are kept; or it sets the Python error, for want
    of memory only, and leaves the old column as it was. *)
Theorem convert_numbers (to_decimal : bool) (scale : Z) (v : ArrowArrayView) (rows : list (option Z))
    (c : conv) (Hs : 0 < scale <= 300) (Hv : int_rows v rows) (Hc : has_rows c (zlen rows))
    (Hexact : to_decimal = true ∨ 9 <= scale ∨ ∀ z, Some z ∈ rows → Z.abs z < 2 ^ 53) :
  cwp (convertScaledFixedNumberColumn to_decimal v scale) c
    (λ _ c', replaced (number_kind to_decimal scale) (number_storage to_decimal).1
       (number_storage to_decimal).2 rows (λ z, inr (number_cell to_decimal scale z)) c c')
    (λ _ _, False) no_throw.
Proof.
  assert (target_storage (number_kind to_decimal scale) =
    Some ((number_storage to_decimal).1, (number_storage to_decimal).2)) as Hk by by destruct to_decimal.
  assert (SchemaView.kind_ok (number_kind to_decimal scale)) as Hok
    by (destruct to_decimal; [split; width|by eexists]).
  unfold convertScaledFixedNumberColumn. destruct to_decimal;
    (eapply (convert_rows_wp _ _ _ Hk rows); [apply Hv|done| |]).
  - exact (starts_append _ _ _ Hk Hok c (zlen rows) _).
  - intros i z cells l' Hi Hlive Hmax. destruct (int_values _ _ Hv i z Hi) as [Hget Hz].
    apply cwp_bind, cwp_deref. eexists. split; [done|]. by apply append_decimal_wp.
  - exact (starts_plain _ _ _ Hk Hok c (zlen rows) _).
  - intros i z cells l' Hi Hlive Hmax. destruct (int_values _ _ Hv i z Hi) as [Hget Hz].
    apply cwp_bind, cwp_deref. eexists. split; [done|]. apply cwp_bind.
    assert (9 <= scale ∨ Z.abs z < 2 ^ 53) as Hz'.
    { destruct Hexact as [?|[?|Hin]]; [done|by left|right]. by apply Hin, (list_elem_of_lookup_2 _ i). }
    eapply cwp_eq; [by apply scaled_double; [lia|..]|]. apply append_double_wp; [done|done|].
    apply round_ratio_range; lia.
Qed.

(** *** Timestamps *)
Definition timestamp_kind (unit : ArrowTimeUnit) (timezone : string) : schema_kind :=
  KDateTime NANOARROW_TYPE_TIMESTAMP unit (zone_arg timezone).
Definition scale_unit (scale : Z) : ArrowTimeUnit :=
  if scale =? 0 then NANOARROW_TIME_UNIT_SECOND
  else if scale <=? 3 then NANOARROW_TIME_UNIT_MILLI else NANOARROW_TIME_UNIT_MICRO.
(** A column of 64-bit counts. *)
Definition timestamps {R} (unit : ArrowTimeUnit) (timezone : string) (rows : list (option R)) (f : R → Z) :
    conv → conv → Prop :=
  replaced (timestamp_kind unit timezone) NANOARROW_TYPE_INT64 8 rows (λ r, inr (le_bytes 8 (f r))).

Lemma encode_int64 z : INT64_MIN <= z <= INT64_MAX → encode_int NANOARROW_TYPE_INT64 z = inr (le_bytes 8 z).
Proof.
  intros Hz. unfold encode_int. cbn [int_bounds].
  by destruct (Z.leb_spec INT64_MIN z), (Z.leb_spec z INT64_MAX); try lia.
Qed.
Lemma timestamp_kind_ok unit timezone : zstrlen timezone < 124 → SchemaView.kind_ok (timestamp_kind unit timezone).
Proof. intros Hz. by destruct timezone. Qed.

Lemma timestamp_storage unit timezone :
  target_storage (timestamp_kind unit timezone) = Some (NANOARROW_TYPE_INT64, 8%nat).
Proof. done. Qed.

(** C19.  [convertTimestampColumn] on a timestamp of at most six digits gives the
    same instants, as counts of seconds, milliseconds or microseconds, in a
    column of the timestamp type with that unit and the time zone; name, nullability and
    nulls are kept; or it sets the Python error, for want of memory only, and
    leaves the old column as it was. *)
Theorem convert_coarse_timestamp (force : bool) (type : ArrowType) (scale : Z) (timezone : string)
    (v : ArrowArrayView) (rows : list (option Z)) (c : conv) (Hs : 0 <= scale <= 6)
    (Htz : zstrlen timezone < 124) (Hv : int_rows v rows) (Hc : has_rows c (zlen rows))
    (Hfits : ∀ z, Some z ∈ rows → INT64_MIN <= rescale (unit_digits scale) scale z <= INT64_MAX) :
  cwp (convertTimestampColumn force type v scale timezone) c
    (λ _ c', timestamps (scale_unit scale) timezone rows (rescale (unit_digits scale) scale) c c')
    (λ _ _, False) no_throw.
Proof.
  pose proof (timestamp_kind_ok (scale_unit scale) timezone Htz) as Hok.
  assert (powTenSB4 (unit_digits scale - scale) = Some (10 ^ (unit_digits scale - scale))) as Hpow
    by (apply powTenSB4_spec; pose proof (unit_digits_up scale Hs); lia).
  eapply (convert_values_wp _ _ _ (timestamp_storage (scale_unit scale) timezone) rows (rescale (unit_digits scale) scale)); [apply Hv|done| | |].
  - intros old Q R X Hold Hloop Hmem. destruct (Z.ltb_spec 6 scale); [lia|]. rewrite andb_false_r.
    apply cwp_bind, cwp_ret. destruct (Z.leb_spec scale 6); [|lia]. unfold coarse_timestamp.
    apply cwp_bind. eapply (cwp_eq _ (scale_unit scale, 10 ^ (unit_digits scale - scale))).
    { unfold scale_unit, unit_digits in *. destruct (Z.eqb_spec scale 0) as [->|]; [done|].
      destruct (scale <=? 3); unfold cbind; by rewrite Hpow. }
    by apply (starts_plain _ _ _ (timestamp_storage _ _) Hok c (zlen rows)).
  - intros z Hz. split; [by apply Hfits|]. by apply encode_int64, Hfits.
  - intros i z l' Q R X Hi Happ. destruct (int_values _ _ Hv i z Hi) as [Hget _].
    pose proof (Hfits z (list_elem_of_lookup_2 _ _ _ Hi)) as Hz. pose proof (unit_digits_up scale Hs).
    rewrite rescale_up in Hz, Happ by lia.
    apply cwp_bind, cwp_deref. eexists. split; [done|]. cbn [snd].
    rewrite int64_in by done. by apply cwp_bind, cwp_ret.
Qed.

(** **** An epoch with a fraction *)

(** The child of a name. *)
Definition field_named (old : members) (v : ArrowArrayView) (n : string) (i : Z) (child : ArrowArrayView) : Prop :=
  ∃ cs, child_members old i = Some cs ∧ name cs = Some n ∧ view_child v i = Some child.
(** Children [ie] and [jf] are the epoch and the fraction, and no others. *)
Record epoch_fields (old : members) (v : ArrowArrayView) (ie jf : Z) (ea fa : ArrowArrayView) : Prop := {
  epoch_in : 0 <= ie < n_children old;
  fraction_in : 0 <= jf < n_children old;
  epoch_named : field_named old v FIELD_NAME_EPOCH ie ea;
  fraction_named : field_named old v FIELD_NAME_FRACTION jf fa;
  fields_named : ∀ i, 0 <= i < n_children old → ∃ cs n, child_members old i = Some cs ∧ name cs = Some n ∧
    (n = FIELD_NAME_EPOCH → i = ie) ∧ (n = FIELD_NAME_FRACTION → i = jf);
}.
Lemma elem_of_tail (x y : Z) l : x ≠ y → bool_decide (x ∈ y :: l) = bool_decide (x ∈ l).
Proof. intros Hne. apply bool_decide_ext. rewrite elem_of_cons. tauto. Qed.
Lemma find_fields_spec old v ie jf ea fa idx e0 f0 :
  epoch_fields old v ie jf ea fa → (∀ i, i ∈ idx → 0 <= i < n_children old) →
  find_fields idx old v e0 f0 =
    Some (if bool_decide (ie ∈ idx) then Some ea else e0, if bool_decide (jf ∈ idx) then Some fa else f0).
Proof.
  intros [Hie Hjf (ce & Hce & Hne & Hve) (cf & Hcf & Hnf & Hvf) Hall].
  assert (FIELD_NAME_EPOCH ≠ FIELD_NAME_FRACTION) as Hdiff by done.
  revert e0 f0. induction idx as [|i idx IH]; intros e0 f0 Hidx; [done|]. cbn [find_fields].
  destruct (Hall i (Hidx i ltac:(left))) as (cs & n & Hcs & Hn & He & Hf). rewrite Hcs. simpl. rewrite Hn. simpl.
  assert (∀ j, j ∈ idx → 0 <= j < n_children old) as Hidx' by (intros j Hj; apply Hidx; by right).
  destruct (decide (n = FIELD_NAME_EPOCH)) as [Hn1|Hn1].
  { rewrite bool_decide_true by done. specialize (He Hn1). subst i. rewrite Hve. simpl. rewrite IH by done.
    rewrite (bool_decide_true (ie ∈ ie :: idx)) by left.
    assert (ie ≠ jf) by (intros ->; congruence). rewrite elem_of_tail by done.
    by repeat case_bool_decide. }
  rewrite bool_decide_false by done. destruct (decide (n = FIELD_NAME_FRACTION)) as [Hn2|Hn2].
  { rewrite bool_decide_true by done. specialize (Hf Hn2). subst i. rewrite Hvf. simpl. rewrite IH by done.
    rewrite (bool_decide_true (jf ∈ jf :: idx)) by left.
    assert (ie ≠ jf) by (intros ->; congruence). rewrite elem_of_tail by done.
    by repeat case_bool_decide. }
  rewrite bool_decide_false by done. rewrite IH by done.
  assert (i ≠ ie ∧ i ≠ jf) as [? ?] by (split; intros ->; congruence).
  by rewrite !elem_of_tail by done.
Qed.
Lemma epoch_fraction_spec old v ie jf ea fa l :
  epoch_fields old v ie jf ea fa → epoch_fraction old v l = Done (Some ea, Some fa) l.
Proof.
  intros Hf. unfold epoch_fraction. rewrite (find_fields_spec old v ie jf ea fa); [|done|by intros i Hi; apply elem_of_zseq].
  by rewrite !bool_decide_true by (apply elem_of_zseq; apply Hf).
Qed.

(** A column of epochs with fractions, null where the struct is. *)
Definition pair_rows (v ea fa : ArrowArrayView) (rows : list (option (Z * Z))) : Prop :=
  null_rows v rows ∧
  ∀ i e f, rows !! i = Some (Some (e, f)) →
    ArrowArrayViewGetIntUnsafe ea (Z.of_nat i) = Some e ∧ ArrowArrayViewGetIntUnsafe fa (Z.of_nat i) = Some f.
(** The seconds whose nanoseconds are in the range of 64 bits, up to the fraction. *)
Definition nanos_in (e : Z) : Prop := -9223372036 <= e <= 9223372036.
#[local] Instance nanos_in_dec e : Decision (nanos_in e).
Proof. unfold nanos_in. apply _. Defined.
Definition row_in (o : option (Z * Z)) : Prop := match o with None => True | Some (e, _) => nanos_in e end.
Definition first_out (rows : list (option (Z * Z))) (e f : Z) : Prop :=
  ∃ pre post, rows = pre ++ Some (e, f) :: post ∧ Forall row_in pre ∧ ¬ nanos_in e.

Lemma check_row_null {S} v p q i idx (s : S) :
  ArrowArrayViewIsNull v i = Some true → check_rows v p q (i :: idx) s = check_rows v p q idx s.
Proof. intros Hn. cbn [check_rows]. unfold cbind. by rewrite Hn. Qed.
Lemma check_row {S} v ea fa i idx e f (s : S) :
  ArrowArrayViewIsNull v i = Some false → ArrowArrayViewGetIntUnsafe ea i = Some e →
  ArrowArrayViewGetIntUnsafe fa i = Some f →
  (nanos_in e ∧ check_rows v (Some ea) (Some fa) (i :: idx) s = check_rows v (Some ea) (Some fa) idx s) ∨
  (¬ nanos_in e ∧ check_rows v (Some ea) (Some fa) (i :: idx) s =
     if Z.rem f 1000 =? 0 then Done true s else Throw overflow_error s).
Proof.
  intros Hn He Hf. cbn [check_rows]. unfold cbind, get_field. rewrite Hn. cbn. rewrite He, Hf.
  cbv [cderef cret]. change (Z.quot INT64_MAX (10 ^ 9)) with 9223372036.
  change (Z.quot INT64_MIN (10 ^ 9)) with (-9223372036). unfold nanos_in.
  destruct (Z.ltb_spec 9223372036 e), (Z.ltb_spec e (-9223372036)); cbn [orb]; try (left; split; [lia|done]);
    (right; split; [lia|]); by destruct (Z.rem f 1000 =? 0).
Qed.
Lemma check_rows_spec {S} v ea fa rows n :
  (∀ i o, rows !! i = Some o → ArrowArrayViewIsNull v (Z.of_nat (n + i)) =
     Some (match o with None => true | Some _ => false end)) →
  (∀ i e f, rows !! i = Some (Some (e, f)) →
     ArrowArrayViewGetIntUnsafe ea (Z.of_nat (n + i)) = Some e ∧
     ArrowArrayViewGetIntUnsafe fa (Z.of_nat (n + i)) = Some f) →
  let check := @check_rows S v (Some ea) (Some fa) (Z.of_nat <$> seq n (List.length rows)) in
  (Forall row_in rows ∧ ∀ s, check s = Done false s) ∨
  (∃ e f, first_out rows e f ∧ ∀ s, check s = if Z.rem f 1000 =? 0 then Done true s else Throw overflow_error s).
Proof.
  revert n. induction rows as [|o rows IH]; intros n Hnull Hget; [by left|].
  change (Z.of_nat <$> seq n (List.length (o :: rows)))
    with (Z.of_nat n :: (Z.of_nat <$> seq (Datatypes.S n) (List.length rows))).
  set (idx := Z.of_nat <$> seq (Datatypes.S n) (List.length rows)) in *.
  pose proof (Hnull 0%nat o eq_refl) as Ho. rewrite Nat.add_0_r in Ho.
  assert (∀ check, row_in o → (∀ s, check s = @check_rows S v (Some ea) (Some fa) idx s) →
    (Forall row_in (o :: rows) ∧ ∀ s, check s = Done false s) ∨
    (∃ e f, first_out (o :: rows) e f ∧ ∀ s, check s = if Z.rem f 1000 =? 0 then Done true s else Throw overflow_error s)) as Htail.
  { intros check Hrow Hcheck.
    destruct (IH (Datatypes.S n)) as [[Hin Hr]|(e & f & (pre & post & Hrows & Hpre & He) & Hr)].
    - intros i o' Hi. rewrite Nat.add_succ_l, <-Nat.add_succ_r. by apply Hnull.
    - intros i e f Hi. rewrite Nat.add_succ_l, <-Nat.add_succ_r. by apply Hget.
    - left. split; [by constructor|]. intros s. by rewrite Hcheck.
    - right. exists e, f. split; [|intros s; by rewrite Hcheck].
      exists (o :: pre), post. split_and!; [by rewrite Hrows|by constructor|done]. }
  destruct o as [[e f]|]; [|apply Htail; [done|intros s; by apply check_row_null]].
  destruct (Hget 0%nat e f eq_refl) as [He Hf]. rewrite Nat.add_0_r in He, Hf.
  destruct (decide (nanos_in e)) as [Hin|Hout].
  - apply Htail; [done|]. intros s. by destruct (check_row v ea fa (Z.of_nat n) idx e f s Ho He Hf) as [[_ Hr]|[Hr _]].
  - right. exists e, f. split; [exists [], rows; split_and!; [done|constructor|done]|].
    intros s. by destruct (check_row v ea fa (Z.of_nat n) idx e f s Ho He Hf) as [[Hr _]|[_ Hr]].
Qed.

(** Microseconds or nanoseconds since the epoch. *)
Definition fine_unit (micro : bool) : ArrowTimeUnit :=
  if micro then NANOARROW_TIME_UNIT_MICRO else NANOARROW_TIME_UNIT_NANO.
Definition fine_count (micro : bool) (r : Z * Z) : Z :=
  if micro then r.1 * 10 ^ 6 + r.2 / 1000 else r.1 * 10 ^ 9 + r.2.
(** A fraction is less than a second, and within the last second that has
    nanoseconds of 64 bits it is in range as well. *)
Definition instant_ok (r : Z * Z) : Prop :=
  -10 ^ 12 <= r.1 <= 10 ^ 12 ∧ 0 <= r.2 < 10 ^ 9 ∧ (r.1 = 9223372036 → r.2 <= 854775807).

Lemma epoch_times_spec k e x :
  0 <= k <= 9 → INT64_MIN <= e * 10 ^ k <= INT64_MAX → INT64_MIN <= e * 10 ^ k + x <= INT64_MAX →
  epoch_times k e x = Some (e * 10 ^ k + x).
Proof.
  intros Hk He Hx. unfold epoch_times. rewrite powTenSB4_spec by done.
  cbv [mbind option_bind]. rewrite (int64_in _ He). by apply int64_in.
Qed.
Lemma fine_count_spec micro e f :
  instant_ok (e, f) → micro = true ∨ nanos_in e →
  (if micro then epoch_times 6 e (Z.quot f 1000) else epoch_times 9 e f) = Some (fine_count micro (e, f)) ∧
  INT64_MIN <= fine_count micro (e, f) <= INT64_MAX.
Proof.
  unfold instant_ok, fine_count. cbn [fst snd]. intros (He & Hf & Hlast) Hin. destruct micro.
  - rewrite Z.quot_div_nonneg by lia. assert (0 <= f / 1000 < 10 ^ 6)
      by (split; [apply Z.div_pos; lia|apply Z.div_lt_upper_bound; lia]).
    rewrite epoch_times_spec by width. split; [done|width].
  - destruct Hin as [|Hin]; [done|]. unfold nanos_in in Hin. rewrite epoch_times_spec by width. split; [done|width].
Qed.

Section fine.
Context (v ea fa : ArrowArrayView) (rows : list (option (Z * Z))) (timezone : string) (c : conv).
Context (Hv : pair_rows v ea fa rows) (Hc : has_rows c (zlen rows)) (Htz : zstrlen timezone < 124).
Context (Hrows : ∀ r, Some r ∈ rows → instant_ok r).

Lemma row_in_of e f : Forall row_in rows → Some (e, f) ∈ rows → nanos_in e.
Proof. intros Hin [i Hi]%list_elem_of_lookup_1. exact (Forall_lookup_1 _ _ _ _ Hin Hi). Qed.
Lemma fine_column micro (pre : members → CM locals (option ArrowArrayView * option ArrowArrayView)) value :
  micro = true ∨ Forall row_in rows →
  (∀ old l, conv_schema c = SchemaLive old → pre old l = Done (Some ea, Some fa) l) →
  (∀ i e f l' Q R X, rows !! i = Some (Some (e, f)) → cwp (append_value (fine_count micro (e, f))) l' Q R X →
     cwp (value (Some ea, Some fa) (Z.of_nat i)) l' Q R X) →
  cwp (replace_column (λ old length,
         let! f := pre old in
         timestamp_schema (fine_unit micro) timezone ;;! name_and_init old ;;!
         for_rows length v (value f))) c
    (λ _ c', timestamps (fine_unit micro) timezone rows (fine_count micro) c c') (λ _ _, False) no_throw.
Proof.
  intros Hmicro Hpre Hvalue. destruct Hv as [Hnull Hget].
  pose proof (timestamp_kind_ok (fine_unit micro) timezone Htz) as Hok.
  eapply (convert_values_wp _ _ _ (timestamp_storage (fine_unit micro) timezone) rows (fine_count micro));
    [done|done| | |].
  - intros old Q R X Hold Hloop Hmem. apply cwp_bind. eapply cwp_eq; [by apply Hpre|].
    by apply (starts_plain _ _ _ (timestamp_storage _ _) Hok c (zlen rows)).
  - intros [e f] Hr. destruct (fine_count_spec micro e f) as [_ Hz]; [by apply Hrows| |].
    { destruct Hmicro as [?|Hin]; [by left|right]. by apply (row_in_of e f). }
    split; [done|]. by apply encode_int64.
  - intros i [e f] l' Q R X Hi Happ. by apply (Hvalue i e f).
Qed.

(** What the two conversions give. *)
Definition fine_result (c' : conv) : Prop :=
  (Forall row_in rows ∧ timestamps NANOARROW_TIME_UNIT_NANO timezone rows (λ r, r.1 * 10 ^ 9 + r.2) c c') ∨
  (∃ e f, first_out rows e f ∧ f mod 1000 = 0 ∧
     timestamps NANOARROW_TIME_UNIT_MICRO timezone rows (λ r, r.1 * 10 ^ 6 + r.2 / 1000) c c').
Definition fine_overflow (x : exn) (c' : conv) : Prop :=
  x = overflow_error ∧ c' = c ∧ ∃ e f, first_out rows e f ∧ f mod 1000 ≠ 0.

Lemma replace_column_eq body body' :
  (∀ old a, conv_schema c = SchemaLive old → conv_array c = ArrayLive a →
     let l := MkLocals (conv_mem c) (set_flags (new_flags old) ArrowSchemaInit) ArrayReleased in
     body old (array_length a) l = body' old (array_length a) l) →
  replace_column body c = replace_column body' c.
Proof.
  intros Heq. unfold replace_column. destruct (conv_schema c) as [|old] eqn:Hs; [done|].
  destruct (conv_array c) as [|a] eqn:Ha; [done|]. specialize (Heq old a eq_refl eq_refl). cbv zeta in Heq.
  fold (new_flags old). unfold cbind. by rewrite Heq.
Qed.
Lemma replace_column_throw x : has_rows c (zlen rows) → replace_column (λ _ _, cthrow x) c = Throw x c.
Proof.
  intros (old & a & Hold & Ha & _). unfold replace_column. rewrite Hold, Ha. unfold cbind, cthrow.
  rewrite <-Hold, <-Ha. by destruct c.
Qed.
(** The check of the range decides. *)
Lemma checked_wp body (rest : bool → members → Z → CM locals unit) :
  (∀ old l, conv_schema c = SchemaLive old → body old (zlen rows) l =
     (let! micro := _checkNanosecondTimestampOverflowAndDownscale (zlen rows) v (Some ea) (Some fa) in
      rest micro old (zlen rows)) l) →
  (∀ micro, micro = true ∨ Forall row_in rows →
     cwp (replace_column (rest micro)) c
       (λ _ c', timestamps (fine_unit micro) timezone rows (fine_count micro) c c') (λ _ _, False) no_throw) →
  cwp (replace_column body) c (λ _, fine_result) (λ _ _, False) fine_overflow.
Proof.
  intros Hbody Hrest. destruct Hv as [Hnull Hget]. pose proof Hc as (old0 & a0 & Hold0 & Ha0 & Hlen & _).
  assert (∀ body', (∀ old l, conv_schema c = SchemaLive old → body old (zlen rows) l = body' old (zlen rows) l) →
    replace_column body c = replace_column body' c) as Heq.
  { intros body' Hb. apply replace_column_eq. intros old a Hs Ha. assert (a = a0) as -> by congruence.
    rewrite Hlen. by apply Hb. }
  assert (Z.of_nat <$> seq 0 (List.length rows) = zseq (zlen rows)) as Hidx
    by (unfold zseq, zlen; by rewrite Nat2Z.id).
  destruct (check_rows_spec (S:=locals) v ea fa rows 0 Hnull Hget) as [[Hin Hr]|(e & f & Hout & Hr)];
    rewrite Hidx in Hr.
  - unfold cwp. rewrite (Heq (rest false)).
    2:{ intros old l Hold. rewrite Hbody by done. unfold cbind, _checkNanosecondTimestampOverflowAndDownscale. by rewrite Hr. }
    eapply cwp_mono; [apply (Hrest false); by right| |done|done]. intros [] c' Hc'. by left.
  - assert (0 <= f) as Hf.
    { destruct Hout as (pre & post & -> & _). destruct (Hrows (e, f)) as (_ & Hf & _); [|simpl in Hf; lia].
      apply elem_of_app. right. left. }
    rewrite Z.rem_mod_nonneg in Hr by lia. destruct (Z.eqb_spec (f mod 1000) 0) as [Hz|Hz].
    + unfold cwp. rewrite (Heq (rest true)).
      2:{ intros old l Hold. rewrite Hbody by done. unfold cbind, _checkNanosecondTimestampOverflowAndDownscale. by rewrite Hr. }
      eapply cwp_mono; [apply (Hrest true); by left| |done|done]. intros [] c' Hc'. right. eauto.
    + unfold cwp. rewrite (Heq (λ _ _, cthrow overflow_error)).
      2:{ intros old l Hold. rewrite Hbody by done. unfold cbind, _checkNanosecondTimestampOverflowAndDownscale. by rewrite Hr. }
      rewrite replace_column_throw by done. split_and!; [done|done|]. eauto.
Qed.
End fine.

(** The two conversions of timestamps of seven to nine digits that are stored as
    an epoch and a fraction. *)
Inductive fine_conversion (v : ArrowArrayView) (scale : Z) (timezone : string) : CM conv unit → Prop :=
  | without_zone :
      fine_conversion v scale timezone (convertTimestampColumn false NANOARROW_TYPE_STRUCT v scale timezone)
  | with_zone : fine_conversion v scale timezone (convertTimestampTZColumn false v scale 16 timezone).

End conversions.

(** ** Columns to try the conversions on *)
Section examples.
#[local] Instance example_libc : Libc := libc_limited 1000.
#[local] Instance example_malloc : Malloc := {| mstate := unit; malloc_step _ s := (true, s) |}.

(** Rows of 64-bit integers, [validity] the bytes of the bitmap. *)
Definition int64_view (validity : option (list Z)) (l : list Z) : ArrowArrayView :=
  MkArrayView 0 (zlen l) (-1) NANOARROW_TYPE_INT64 (ArrowLayoutInit NANOARROW_TYPE_INT64)
    [MkView validity 1; MkView (Some (concat (le_bytes 8 <$> l))) (8 * zlen l); MkView None 0] 0 None None None.
Definition struct_view (validity : option (list Z)) (epochs fractions : list Z) : ArrowArrayView :=
  MkArrayView 0 (zlen epochs) (-1) NANOARROW_TYPE_STRUCT (ArrowLayoutInit NANOARROW_TYPE_STRUCT)
    [MkView validity 1; MkView None 0; MkView None 0] 2
    (Some [Some (int64_view None epochs); Some (int64_view None fractions)]) None None.
Definition plain_field (n : string) : members := MkMembers (Some "l"%string) (Some n) None 2 0 None None.
Definition plain_array (n : Z) : ArrowArray := ArrayLive (MkArray n 0 0 2 0 [None; None] None None None).
Definition plain_column (n : Z) : conv :=
  MkConv tt None (SchemaLive (plain_field "c")) (plain_array n).
Definition struct_field : members :=
  MkMembers (Some "+s"%string) (Some "c"%string) None 2 2
    (Some [Some (SchemaLive (plain_field FIELD_NAME_EPOCH)); Some (SchemaLive (plain_field FIELD_NAME_FRACTION))]) None.
Definition struct_column (n : Z) : conv :=
  MkConv tt None (SchemaLive struct_field)
    (ArrayLive (MkArray n 0 0 1 2 [None] (Some [Some (plain_array n); Some (plain_array n)]) None None)).

(** The format of the new schema and the 64-bit values of the new array. *)
Definition values64 (arr : ArrowArray) : option (list Z) :=
  match arr with
  | ArrayReleased => None
  | ArrayLive a =>
      d ← mjoin (array_buffers a !! 1%nat);
      mapM (λ i, load_i 8 d (8 * i)) (zseq (array_length a))
  end.
Definition converted (r : cpp conv unit) : option (option string * list Z) :=
  match r with
  | Done _ c =>
      match conv_error c, conv_schema c with
      | None, SchemaLive s => l ← values64 (conv_array c); Some (format s, l)
      | _, _ => None
      end
  | _ => None
  end.

(** The rows of a concrete view, row by row. *)
Ltac by_row := intros [|[|[|i]]]; intros;
  repeat match goal with Hrow : _ = Some _ |- _ => vm_compute in Hrow; try discriminate Hrow; injection Hrow; clear Hrow; intros; subst end;
  try reflexivity.
Ltac each_row := intros r Hr; repeat (apply elem_of_cons in Hr as [Hr|Hr]; [try discriminate Hr; injection Hr as ->|]);
  [..|by apply elem_of_nil in Hr].
Ltac has_three := do 2 eexists; do 3 (split; [reflexivity|]); vm_compute; discriminate.

Lemma convert_time_witness :
  ∃ c', convertTimeColumn (int64_view (Some [5]) [123456789; 0; 863999999999]) 7 (plain_column 3) = Done tt c' ∧
    replaced (time_kind 7) NANOARROW_TYPE_INT64 8 [Some 123456789; None; Some 863999999999]
      (λ z, inr (le_bytes 8 (rescale 6 7 z))) (plain_column 3) c'.
Proof.
  edestruct (cwp_run (convertTimeColumn (int64_view (Some [5]) [123456789; 0; 863999999999]) 7) (plain_column 3))
    as ([] & c' & Hrun & Hc).
  - apply (convert_time 7 _ [Some 123456789; None; Some 863999999999]); [lia|split; by_row; (split; [reflexivity|width])|has_three|].
    each_row; lia.
  - vm_compute. reflexivity.
  - exists c'. split; [exact Hrun|exact Hc].
Defined.
Lemma convert_numbers_witness :
  ∃ c', convertScaledFixedNumberColumn false (int64_view (Some [5]) [12345; 0; -250]) 2 (plain_column 3) = Done tt c' ∧
    replaced (KType NANOARROW_TYPE_DOUBLE) NANOARROW_TYPE_DOUBLE 8 [Some 12345; None; Some (-250)]
      (λ z, inr (number_cell false 2 z)) (plain_column 3) c'.
Proof.
  edestruct (cwp_run (convertScaledFixedNumberColumn false (int64_view (Some [5]) [12345; 0; -250]) 2) (plain_column 3))
    as ([] & c' & Hrun & Hc).
  - apply (convert_numbers false 2 _ [Some 12345; None; Some (-250)]); [lia|split; by_row; (split; [reflexivity|width])|has_three|].
    right. right. each_row; lia.
  - vm_compute. reflexivity.
  - exists c'. split; [exact Hrun|exact Hc].
Defined.
Lemma convert_coarse_timestamp_witness :
  ∃ c', convertTimestampColumn false NANOARROW_TYPE_INT64 (int64_view (Some [5]) [17000000004; 0; -1]) 1 "UTC"
      (plain_column 3) = Done tt c' ∧
    timestamps NANOARROW_TIME_UNIT_MILLI "UTC" [Some 17000000004; None; Some (-1)] (rescale 3 1) (plain_column 3) c'.
Proof.
  edestruct (cwp_run (convertTimestampColumn false NANOARROW_TYPE_INT64 (int64_view (Some [5]) [17000000004; 0; -1]) 1 "UTC")
    (plain_column 3)) as ([] & c' & Hrun & Hc).
  - apply (convert_coarse_timestamp false NANOARROW_TYPE_INT64 1 "UTC" _ [Some 17000000004; None; Some (-1)]);
      [lia|done|split; by_row; (split; [reflexivity|width])|has_three|].
    each_row; rewrite rescale_up by (vm_compute; split; discriminate); vm_compute; split; discriminate.
  - vm_compute. reflexivity.
  - exists c'. split; [exact Hrun|exact Hc].
Defined.
Example time_values :
  converted (convertTimeColumn (int64_view (Some [5]) [123456789; 0; 863999999999]) 7 (plain_column 3)) =
    Some (Some "ttu"%string, [12345678; 0; 86399999999]).
Proof. vm_compute. reflexivity. Qed.

(** *** Where the conversions go wrong *)

(** The last second with 64-bit nanoseconds passes the check with every
    fraction, and the addition overflows. *)
Theorem last_second_overflows :
  convertTimestampColumn false NANOARROW_TYPE_STRUCT (struct_view None [9223372036] [900000000]) 9 ""
    (struct_column 1) = Undefined.
Proof. vm_compute. reflexivity. Qed.
(** With [byteLength] 16 and one to three digits the seconds are multiplied by
    [10 ^ (3 - scale)] instead of 1000, while the unit is milliseconds. *)
Theorem zoned_milliseconds_wrong :
  converted (convertTimestampTZColumn false (struct_view None [1700000000] [500000000]) 3 16 "UTC" (struct_column 1)) =
    Some (Some "tsm:UTC"%string, [1700000000 * 1 + 500]).
Proof. vm_compute. reflexivity. Qed.
(** With microseconds forced, one field of seven to nine digits is still
    converted to nanoseconds, and labelled microseconds; one field with a time zone is multiplied as
    if it were seconds. *)
Theorem forced_microseconds_wrong :
  converted (convertTimestampColumn true NANOARROW_TYPE_INT64 (int64_view None [1700000000000000001]) 9 ""
    (plain_column 1)) = Some (Some "tsu:"%string, [1700000000000000001]) ∧
  converted (convertTimestampTZColumn true (struct_view None [17] [0]) 9 8 "UTC" (struct_column 1)) =
    Some (Some "tsu:UTC"%string, [17000000]).
Proof. split; vm_compute; reflexivity. Qed.
(** The first row out of range has whole microseconds; the nanoseconds of the
    second row are dropped without an error, and so would be those of a second
    row that is out of range. *)
Theorem nanoseconds_dropped :
  converted (convertTimestampColumn false NANOARROW_TYPE_STRUCT (struct_view None [10000000000; 20000000000] [0; 1]) 9 ""
    (struct_column 2)) = Some (Some "tsu:"%string, [10000000000000000; 20000000000000000]) ∧
  convertTimestampColumn false NANOARROW_TYPE_STRUCT (struct_view None [20000000000; 10000000000] [1; 0]) 9 ""
    (struct_column 2) = Throw overflow_error (struct_column 2).
Proof. split; vm_compute; reflexivity. Qed.
(** An interval of days stored in 64 bits becomes zero nanoseconds. *)
Theorem interval_of_int64_is_zero :
  converted (convertIntervalDayTimeColumn (int64_view None [86400; 1]) 0 (plain_column 2)) =
    Some (Some "tDn"%string, [0; 0]).
Proof. vm_compute. reflexivity. Qed.
End examples.
