(* ===== verification/ConvertTable.v ===== *)
(** * Choosing the conversions, and the iterator over tables

    The logical type and the scale of a column are texts in the metadata of its
    schema; [convertIfNeeded] reads them and picks the conversion.  The iterator
    converts the columns of all batches at the first call of [next], unless there is
    no memory for a schema; that the Python error is never cleared is what shows that no
    conversion failed when it is not set in the end. *)

From Stdlib Require Import Ascii.
From stdpp Require Import base numbers list option strings.
From S2P Require Import Prelude CInt CString Float Buffer Bits Bitmap Types Metadata Schema SchemaView.
From S2P Require Import ArrayView Array ArrayBuild Stream Decimal Cpp Double Convert ConvertSpec Conversions.
#[local] Open Scope Z_scope.
#[local] Open Scope cpp_scope.

(** ** Texts in the metadata *)
Definition text (s : string) : list Z := bytes_of_string s.

Lemma string_of_text s :
  String.string_of_list_ascii ((λ b, Ascii.ascii_of_N (Z.to_N b)) <$> text s) = s.
Proof.
  induction s as [|ch s IH]; [done|]. unfold text, bytes_of_string in *. simpl. rewrite N2Z.id, ascii_N_embedding. by f_equal.
Qed.
Lemma std_string_text v s : view_is v (text s) → std_string (view_data v) (view_size v) = Some s.
Proof.
  intros (post & -> & ->). unfold std_string, zslice. rewrite zlen_app.
  pose proof (zlen_nonneg (text s)). pose proof (zlen_nonneg post).
  destruct (Z.leb_spec 0 0), (Z.leb_spec 0 (zlen (text s))), (Z.leb_spec (0 + zlen (text s)) (zlen (text s) + zlen post)); try lia.
  cbn [andb mbind option_bind]. change (Z.to_nat 0) with 0%nat. unfold zlen. rewrite drop_0, Nat2Z.id, take_app_length. by rewrite string_of_text.
Qed.
Lemma stoi_print {S} z (s : S) : INT32_MIN <= z <= INT32_MAX → stoi (print_int z) s = Done z s.
Proof.
  intros Hz. pose proof (strtol_print_int z "" Hz eq_refl) as Hp. rewrite string_app_nil in Hp.
  unfold stoi. rewrite Hp. destruct (print_int_cons z) as (ch & t & ->). rewrite bool_decide_false by done.
  by destruct (Z.leb_spec INT32_MIN z), (Z.leb_spec z INT32_MAX); try lia.
Qed.
Lemma char_view key : view_is (ArrowCharView (Some key)) (text key).
Proof.
  exists [0]. split; [done|]. unfold text, bytes_of_string, zlen. cbn [view_size ArrowCharView]. rewrite length_fmap.
  unfold zstrlen. f_equal. induction key as [|ch key IH]; [done|]. simpl. by rewrite IH.
Qed.

(** The value of a key is a text, or there is none. *)
Lemma metadata_value_spec {S} m l key out (s : S) :
  represents m l → no_nul (text key) →
  ∃ v, metadata_value m key out s = Done v s ∧
    match lookup_key (text key) l with Some d => view_is v d | None => v = out end.
Proof.
  intros Hm Hkey. destruct (reader_init _ _ Hm) as (r & Hinit & Hr).
  destruct (get_loop_spec _ _ l r out Hr (char_view key) Hkey) as (v & Hv & Hres). exists v. split; [|done].
  unfold metadata_value, ArrowMetadataGetValue, ArrowMetadataGetValueInternal. rewrite Hinit.
  cbn [mbind option_bind]. by rewrite (reader_fuel _ _ Hr), Hv.
Qed.

(** ** The conversion of a type *)
Section choose.
Context `{!Libc} `{!Malloc}.

(** The types whose conversion reads a scale in the metadata; one of them reads a
    length in bytes too. *)
Definition reads_scale (ty : SnowflakeType.Type_) : bool :=
  match ty with
  | SnowflakeType.FIXED | SnowflakeType.TIME | SnowflakeType.INTERVAL_DAY_TIME
  | SnowflakeType.TIMESTAMP_NTZ | SnowflakeType.TIMESTAMP_LTZ | SnowflakeType.TIMESTAMP_TZ => true
  | _ => false
  end.
(** A column with its logical type, in letters of any case, in the metadata, and as
    decimal texts the scale and the length in bytes where the type has them. *)
Record described (s : members) (l : list kv) (type : ArrowType) (ty : SnowflakeType.Type_)
    (scale byteLength : Z) : Prop := {
  described_view : ∃ sv, ArrowSchemaViewInit (Some (SchemaLive s)) view_uninit = Ok tt sv ∧ view_type sv = type;
  described_metadata : represents (schema_metadata s) l;
  described_type : ∃ n, lookup_key (text "logicalType") l = Some (text n) ∧
    (SnowflakeType.upper n, ty) ∈ SnowflakeType.m_strEnumIndex;
  described_scale : reads_scale ty = true →
    lookup_key (text "scale") l = Some (text (print_int scale)) ∧ INT32_MIN <= scale <= INT32_MAX;
  described_length : ty = SnowflakeType.TIMESTAMP_TZ →
    (lookup_key (text "byteLength") l = Some (text (print_int byteLength)) ∨
     lookup_key (text "byteLength") l = None ∧ byteLength = 16) ∧ INT32_MIN <= byteLength <= INT32_MAX;
}.
(** The types without columns inside. *)
Definition scalar (ty : SnowflakeType.Type_) (type : ArrowType) : Prop :=
  match ty with
  | SnowflakeType.ARRAY | SnowflakeType.OBJECT => type = NANOARROW_TYPE_STRING
  | SnowflakeType.MAP => False
  | _ => True
  end.
(** What the types become: [cret tt] keeps the column. *)
Definition conversion (g : settings) (timezone : string) (v : ArrowArrayView) (type : ArrowType)
    (ty : SnowflakeType.Type_) (scale byteLength : Z) : CM conv unit :=
  match ty with
  | SnowflakeType.FIXED =>
      if bool_decide (0 < scale ∧ type ≠ NANOARROW_TYPE_DECIMAL128)
      then convertScaledFixedNumberColumn (m_convert_number_to_decimal g) v scale else cret tt
  | SnowflakeType.TIME => convertTimeColumn v scale
  | SnowflakeType.INTERVAL_DAY_TIME => convertIntervalDayTimeColumn v scale
  | SnowflakeType.TIMESTAMP_NTZ => convertTimestampColumn (m_force_microsecond_precision g) type v scale ""
  | SnowflakeType.TIMESTAMP_LTZ => convertTimestampColumn (m_force_microsecond_precision g) type v scale timezone
  | SnowflakeType.TIMESTAMP_TZ => convertTimestampTZColumn (m_force_microsecond_precision g) v scale byteLength timezone
  | SnowflakeType.TIMESTAMP | SnowflakeType.DECFLOAT => creturn Message
  | _ => cret tt
  end.

Lemma at_spec {S} (l : list (string * SnowflakeType.Type_)) n t (s : S) :
  NoDup l.*1 → (n, t) ∈ l → SnowflakeType.at_ l n s = Done t s.
Proof.
  induction l as [|[n' t'] l IH]; intros Hnd Hin; [by apply elem_of_nil in Hin|]. cbn [SnowflakeType.at_].
  rewrite fmap_cons in Hnd. inversion_clear Hnd as [|? ? Hnot Hnd']. apply elem_of_cons in Hin as [[= -> ->]|Hin].
  - by rewrite bool_decide_true.
  - rewrite bool_decide_false; [by apply IH|]. intros ->. apply Hnot. by apply (list_elem_of_fmap_2 fst) in Hin.
Qed.
Lemma text_value {S} m l key out s (st : S) :
  represents m l → no_nul (text key) → lookup_key (text key) l = Some (text s) →
  ∃ v, metadata_value m key out st = Done v st ∧ (∀ st', @to_std_string S v st' = Done s st') ∧ view_data v ≠ None.
Proof.
  intros Hm Hkey Hl. destruct (metadata_value_spec m l key out st Hm Hkey) as (v & Hv & Hres). rewrite Hl in Hres.
  exists v. split_and!; [done| |by destruct Hres as (post & -> & _)].
  intros st'. unfold to_std_string. by rewrite (std_string_text v s).
Qed.
Lemma scale_value {S} m l scale d (st : S) :
  represents m l → lookup_key (text "scale") l = Some (text (print_int scale)) → INT32_MIN <= scale <= INT32_MAX →
  metadata_scale m d st = Done scale st.
Proof.
  intros Hm Hl Hs. unfold metadata_scale. destruct m as [m|]; [|by destruct Hm as [_ ->]].
  destruct (text_value (Some m) l "scale" (ArrowCharView None) _ st Hm ltac:(by repeat constructor) Hl) as (v & Hv & Htext & _).
  rewrite (cbind_done _ _ _ _ _ Hv), (cbind_done _ _ _ _ _ (Htext st)). by apply stoi_print.
Qed.
Lemma scale_length_value {S} m l scale byteLength (st : S) :
  represents m l → lookup_key (text "scale") l = Some (text (print_int scale)) → INT32_MIN <= scale <= INT32_MAX →
  (lookup_key (text "byteLength") l = Some (text (print_int byteLength)) ∨
   lookup_key (text "byteLength") l = None ∧ byteLength = 16) → INT32_MIN <= byteLength <= INT32_MAX →
  metadata_scale_length m st = Done (scale, byteLength) st.
Proof.
  intros Hm Hl Hs Hlen Hb. unfold metadata_scale_length. destruct m as [m|]; [|by destruct Hm as [_ ->]].
  destruct (text_value (Some m) l "scale" (ArrowCharView None) _ st Hm ltac:(by repeat constructor) Hl) as (v & Hv & Htext & _).
  rewrite (cbind_done _ _ _ _ _ Hv). destruct Hlen as [Hlen|[Hlen ->]].
  - destruct (text_value (Some m) l "byteLength" (ArrowCharView None) _ st Hm ltac:(by repeat constructor) Hlen)
      as (w & Hw & Htext' & Hnull).
    rewrite (cbind_done _ _ _ _ _ Hw), (cbind_done _ _ _ _ _ (Htext st)), (cbind_done _ _ _ _ _ (stoi_print _ _ Hs)).
    destruct (view_data w) eqn:Hd; [|done].
    unfold cbind. by rewrite Htext', stoi_print.
  - destruct (metadata_value_spec (Some m) l "byteLength" (ArrowCharView None) st Hm ltac:(by repeat constructor)) as (w & Hw & Hres).
    rewrite Hlen in Hres. subst w.
    by rewrite (cbind_done _ _ _ _ _ Hw), (cbind_done _ _ _ _ _ (Htext st)), (cbind_done _ _ _ _ _ (stoi_print _ _ Hs)).
Qed.
Lemma m_strEnumIndex_NoDup : NoDup SnowflakeType.m_strEnumIndex.*1.
Proof. apply (bool_decide_unpack _). vm_compute. exact I. Qed.

(** C20.  The conversion of a column without columns inside is the one of its logical
    type, whatever the case of its letters, with the scale (and for TIMESTAMP_TZ the
    length) that the metadata give as decimal texts: numbers with a scale that are not
    decimals yet become decimals or doubles, times, intervals and timestamps columns of
    their types.  Timestamps without a zone get none, those of the other two types the
    time zone of the session, not UTC as the comment above the call and the header file
    say.  The other types are kept, and TIMESTAMP and DECFLOAT are rejected. *)
Theorem conversion_by_type (g : settings) (timezone : string) (v : ArrowArrayView) (c : conv) (s : members)
    (l : list kv) (type : ArrowType) (ty : SnowflakeType.Type_) (scale byteLength : Z)
    (Hs : conv_schema c = SchemaLive s) (Hd : described s l type ty scale byteLength) (Hty : scalar ty type)
    (Htz : m_timezone g = Some timezone) :
  convertIfNeeded g v c = returning (conversion g timezone v type ty scale byteLength) c.
Proof.
  destruct Hd as [(sv & Hsv & Hview) Hm (n & Hn & Hin) Hscale Hlen].
  destruct (text_value (schema_metadata s) l "logicalType" uninitialized n c Hm ltac:(by repeat constructor) Hn) as (w & Hw & Htext & _).
  assert (SnowflakeType.snowflakeTypeFromString n c = Done ty c) as Hty'
    by (apply at_spec; [apply m_strEnumIndex_NoDup|done]).
  assert (∀ ch en, convert_by_type g v ch en c = conversion g timezone v type ty scale byteLength c) as Hconv.
  { intros ch en. unfold convert_by_type. rewrite (cbind_done _ _ _ _ _ (eq_refl : cget conv_schema c = Done _ c)), Hs.
    assert (@schema_view conv (SchemaLive s) c = Done sv c) as Hv by (unfold schema_view; by rewrite Hsv).
    rewrite (cbind_done _ _ _ _ _ Hv), (cbind_done _ _ _ _ _ (eq_refl : live_schema (SchemaLive s) c = Done s c)). cbv zeta.
    assert (logical_type (schema_metadata s) c = Done ty c) as Hlt
      by (unfold logical_type; by rewrite (cbind_done _ _ _ _ _ Hw), (cbind_done _ _ _ _ _ (Htext c))).
    rewrite (cbind_done _ _ _ _ _ Hlt).
    pose proof (λ d H, let '(conj Hl Hi) := Hscale H in scale_value _ l scale d c Hm Hl Hi) as Hsc.
    pose proof (λ H Htz, let '(conj Hl Hi) := Hscale H in let '(conj Hb Hbi) := Hlen Htz in
      scale_length_value _ l scale byteLength c Hm Hl Hi Hb Hbi) as Hscl.
    unfold conversion, fixed_case, array_case, object_case, interval_day_time_case, time_case, timestamp_ntz_case,
      timestamp_ltz_case, timestamp_tz_case. rewrite Htz, Hview.
    destruct ty; simpl in Hty; try rewrite Hty; try done;
      try rewrite (cbind_done _ _ _ _ _ (Hsc _ eq_refl)); try rewrite (cbind_done _ _ _ _ _ (Hscl eq_refl eq_refl)); try done.
    rewrite bool_decide_and. replace (bool_decide (0 < scale)) with (0 <? scale); [done|].
    destruct (Z.ltb_spec 0 scale); [by rewrite bool_decide_true|rewrite bool_decide_false; [done|lia]]. }
  destruct v as [? ? ? ? ? ? ? ch ? ?]. cbn [convertIfNeeded]. unfold returning. by rewrite Hconv.
Qed.

(** ** The iterator *)

(** *** The Python error is never cleared *)
Definition keeps_error {A} (m : CM conv A) : Prop := ∀ c,
  match m c with
  | Done _ c' | Return _ c' | Throw _ c' => conv_error c' = None → conv_error c = None
  | Undefined => True
  end.
Lemma keeps_ret {A} (x : A) : keeps_error (cret x).
Proof. intros c Hc. exact Hc. Qed.
Lemma keeps_return {A} p : keeps_error (creturn (A := A) p).
Proof. intros c Hc. exact Hc. Qed.
Lemma keeps_undefined {A} : keeps_error (A := A) (λ _, Undefined).
Proof. intros c. exact I. Qed.
Lemma keeps_get {A} (f : conv → A) : keeps_error (cget f).
Proof. intros c Hc. exact Hc. Qed.
Lemma keeps_deref {A} (o : option A) : keeps_error (cderef o).
Proof. destruct o; intros c; [exact id|exact I]. Qed.
Lemma keeps_bind {A B} (m : CM conv A) (k : A → CM conv B) :
  keeps_error m → (∀ x, keeps_error (k x)) → keeps_error (cbind m k).
Proof.
  intros Hm Hk c. specialize (Hm c). unfold cbind. destruct (m c) as [x c1| | |]; try done.
  specialize (Hk x c1). destruct (k x c1); auto.
Qed.
Lemma keeps_stoi s : keeps_error (stoi s).
Proof. unfold stoi. destruct (strtol s). by repeat case_match; intros c Hc. Qed.
Lemma keeps_at l s : keeps_error (SnowflakeType.at_ l s).
Proof. induction l as [|[n t] l IH]; [intros c Hc; exact Hc|]. cbn [SnowflakeType.at_]. case_bool_decide; [apply keeps_ret|done]. Qed.
Lemma keeps_view schema : keeps_error (schema_view schema).
Proof. intros c. unfold schema_view. by destruct (ArrowSchemaViewInit _ _). Qed.
Lemma keeps_live schema : keeps_error (live_schema schema).
Proof. destruct schema; [apply keeps_undefined|apply keeps_ret]. Qed.
Lemma keeps_replace body : keeps_error (replace_column body).
Proof.
  intros c. unfold replace_column. destruct (conv_schema c), (conv_array c); try done. cbv zeta.
  by destruct (cbind _ _ _).
Qed.
Lemma keeps_returning m : keeps_error m → keeps_error (returning m).
Proof. intros Hm c. specialize (Hm c). unfold returning. by destruct (m c). Qed.
Lemma keeps_child i m : keeps_error m → keeps_error (on_column_child i m).
Proof.
  intros Hm c. unfold on_column_child. destruct (conv_schema c) as [|s], (conv_array c) as [|a]; try done.
  destruct (mbind _ (children s)) as [[cs|]|]; try done.
  destruct (mbind _ (array_children a)) as [[ca|]|]; try done.
  specialize (Hm (MkConv (conv_mem c) (conv_error c) cs ca)). by destruct (m _).
Qed.
Create HintDb keeps.
#[local] Hint Resolve keeps_ret keeps_return keeps_undefined keeps_get keeps_deref keeps_bind keeps_stoi keeps_at
  keeps_view keeps_live keeps_replace keeps_returning keeps_child : keeps.

Lemma keeps_scale m d : keeps_error (metadata_scale m d).
Proof. unfold metadata_scale, metadata_value, to_std_string. destruct m; auto 8 with keeps. Qed.
Lemma keeps_scale_length m : keeps_error (metadata_scale_length m).
Proof.
  unfold metadata_scale_length, metadata_value, to_std_string. destruct m; [|auto with keeps].
  repeat (apply keeps_bind; [|intros]); auto with keeps. case_match; auto with keeps.
Qed.
Lemma keeps_logical_type m : keeps_error (logical_type m).
Proof. unfold logical_type, metadata_value, to_std_string, SnowflakeType.snowflakeTypeFromString. auto 8 with keeps. Qed.
#[local] Hint Resolve keeps_scale keeps_scale_length keeps_logical_type : keeps.

Lemma keeps_by_type g v ch en :
  (∀ n, keeps_error (ch n)) → keeps_error en → keeps_error (convert_by_type g v ch en).
Proof.
  intros Hch Hen. unfold convert_by_type. repeat (apply keeps_bind; [auto with keeps|intros]).
  unfold fixed_case, array_case, map_case, object_case, interval_day_time_case, time_case, timestamp_ntz_case,
    timestamp_ltz_case, timestamp_tz_case, convertScaledFixedNumberColumn, convertScaledFixedNumberColumnToDecimalColumn,
    convertScaledFixedNumberColumnToDoubleColumn, convertTimeColumn, convertIntervalDayTimeColumn,
    convertTimestampColumn, convertTimestampTZColumn.
  repeat (case_match; try (apply keeps_bind; [|intros])); auto with keeps.
Qed.
Lemma keeps_list f n l : Forall (λ o, match o with Some v => keeps_error (f v) | None => True end) l →
  ∀ i, keeps_error (convert_list f n l i).
Proof.
  induction 1 as [|o l Ho Hl IH]; intros i; cbn [convert_list]; destruct (i <? n); auto with keeps.
  destruct o; auto with keeps.
Qed.
Lemma keeps_convert g v : keeps_error (convertIfNeeded g v).
Proof.
  enough (keeps_error (convertIfNeeded g v) ∧
    Forall (λ o, match o with Some v => keeps_error (convertIfNeeded g v) | None => True end) (default [] (view_children v)))
    as [? _] by done.
  induction v as [o l n st lay b nc ch d m IHch _] using ArrowArrayView_nested_ind. cbn [view_children].
  assert (Forall (λ o, match o with Some v => keeps_error (convertIfNeeded g v) | None => True end) (default [] ch)) as Hch.
  { destruct ch as [cs|]; [|constructor]. eapply Forall_impl; [|exact IHch]. intros [c|] Hc; [by destruct Hc|done]. }
  split; [|done]. cbn [convertIfNeeded]. apply keeps_returning, keeps_by_type.
  - intros k. destruct ch; [by apply keeps_list|]. destruct (0 <? k); auto with keeps.
  - destruct ch as [[|[[? ? ? ? ? ? ? [[|[k|] [|[w|] ?]]|] ? ?]|] ?]|]; auto with keeps.
    apply Forall_cons_1 in IHch as [[_ Hkw] _]. cbn [view_children default] in Hkw.
    apply Forall_cons_1 in Hkw as [Hk [Hw _]%Forall_cons_1]. auto 6 with keeps.
Qed.

(** *** The columns of a batch *)

Definition child_at {A} (l : option (list (option A))) (i : Z) : option A :=
  match l with Some l => match znth l i with Some c => c | None => None end | None => None end.
Definition schema_columns (s : ArrowSchema) : option (list (option ArrowSchema)) :=
  match s with SchemaLive s => children s | SchemaReleased => None end.
Definition array_columns (a : ArrowArray) : option (list (option ArrowArray)) :=
  match a with ArrayLive a => array_children a | ArrayReleased => None end.
(** A schema and an array with other columns. *)
Definition with_schemas (l : option (list (option ArrowSchema))) (s : ArrowSchema) : ArrowSchema :=
  match s with SchemaLive s => SchemaLive (set_children (n_children s) l s) | SchemaReleased => SchemaReleased end.
Definition with_arrays (l : option (list (option ArrowArray))) (a : ArrowArray) : ArrowArray :=
  match a with ArrayLive a => ArrayLive (put_children (array_n_children a) l a) | ArrayReleased => ArrayReleased end.

(** A column after [convertIfNeeded] with the view [v], where [E] says that the Python
    error is not set in the end. *)
Definition column_converted (E : Prop) (g : settings) (v : ArrowArrayView) (cs cs' : ArrowSchema)
    (ca ca' : ArrowArray) : Prop :=
  ∃ c c', convertIfNeeded g v c = Done tt c' ∧ conv_schema c = cs ∧ conv_array c = ca ∧
    conv_schema c' = cs' ∧ conv_array c' = ca' ∧ (E → conv_error c = None ∧ conv_error c' = None).
(** The columns from [i] to [n] were converted, each once, and nothing else was written. *)
Definition columns_converted (E : Prop) (g : settings) (views : list (option ArrowArrayView)) (i n : Z)
    (s s' : ArrowSchema) (a a' : ArrowArray) : Prop :=
  ∃ ls la, s' = with_schemas ls s ∧ a' = with_arrays la a ∧
    (∀ k, i <= k < n → ∃ v cs cs' ca ca', znth views (k - i) = Some (Some v) ∧
       child_at (schema_columns s) k = Some cs ∧ child_at ls k = Some cs' ∧
       child_at (array_columns a) k = Some ca ∧ child_at la k = Some ca' ∧ column_converted E g v cs cs' ca ca') ∧
    (∀ k, 0 <= k → ¬ i <= k < n →
       child_at ls k = child_at (schema_columns s) k ∧ child_at la k = child_at (array_columns a) k).

Lemma columns_converted_mono (E E' : Prop) g views i n s s' a a' :
  (E' → E) → columns_converted E g views i n s s' a a' → columns_converted E' g views i n s s' a a'.
Proof.
  intros HE (ls & la & Hs & Ha & Hin & Hout). exists ls, la. split_and!; try done. intros k Hk.
  destruct (Hin k Hk) as (v & cs & cs' & ca & ca' & ? & ? & ? & ? & ? & c & c' & ? & ? & ? & ? & ? & Herr).
  exists v, cs, cs', ca, ca'. split_and!; try done. exists c, c'. split_and!; try done. auto.
Qed.

Lemma child_at_insert {A} (l : option (list (option A))) i k (x y : A) :
  0 <= k → child_at l i = Some y →
  child_at ((λ l, <[Z.to_nat i := Some x]> l) <$> l) k = if k =? i then Some x else child_at l k.
Proof.
  destruct l as [l|]; [|done]. cbn [child_at fmap option_fmap option_map]. intros Hk Hi.
  destruct (znth l i) as [o|] eqn:Ho; [|done]. pose proof (znth_Some _ _ _ Ho).
  rewrite znth_insert by lia. by destruct (k =? i).
Qed.
Lemma on_child_done i m c r :
  0 <= i → on_column_child i m c = r →
  match r with
  | Done _ c' => ∃ s a cs ca d, conv_schema c = SchemaLive s ∧ conv_array c = ArrayLive a ∧
      child_at (children s) i = Some cs ∧ child_at (array_children a) i = Some ca ∧
      m (MkConv (conv_mem c) (conv_error c) cs ca) = Done tt d ∧ conv_error c' = conv_error d ∧
      conv_schema c' = with_schemas ((λ l, <[Z.to_nat i := Some (conv_schema d)]> l) <$> children s) (SchemaLive s) ∧
      conv_array c' = with_arrays ((λ l, <[Z.to_nat i := Some (conv_array d)]> l) <$> array_children a) (ArrayLive a)
  | Return p c' => ∃ c0 d, m c0 = Return p d
  | _ => True
  end.
Proof.
  intros Hi <-. unfold on_column_child. destruct (conv_schema c) as [|s], (conv_array c) as [|a]; try done.
  destruct (children s) as [ls|] eqn:Els; [|done]. cbn [mbind option_bind].
  destruct (znth ls i) as [[cs|]|] eqn:Ecs; try done. destruct (array_children a) as [la|] eqn:Ela; [|done].
  cbn [mbind option_bind]. destruct (znth la i) as [[ca|]|] eqn:Eca; try done.
  destruct (m _) as [[] d|p d| |] eqn:Hm; [|by eauto|done..]. exists s, a, cs, ca, d. rewrite Els, Ela. cbn [child_at].
  by rewrite Ecs, Eca.
Qed.

Lemma convert_never_returns g v c p c' : convertIfNeeded g v c ≠ Return p c'.
Proof. destruct v. cbn [convertIfNeeded]. unfold returning. by destruct (convert_by_type _ _ _ _ c). Qed.

Lemma columns_nil E g l i n (s : ArrowSchema) (a : ArrowArray) : n <= i → columns_converted E g l i n s s a a.
Proof.
  intros Hi. exists (schema_columns s), (array_columns a). split_and!; [by destruct s as [|[]]|by destruct a as [|[]]| |done].
  intros k Hk. lia.
Qed.
(** One column and then the others. *)
Lemma columns_step (E : Prop) g v l i n s s' s'' a a' a'' cs cs' ca ca' : 0 <= i < n →
  child_at (schema_columns s) i = Some cs → child_at (array_columns a) i = Some ca →
  column_converted E g v cs cs' ca ca' →
  s' = with_schemas ((λ l, <[Z.to_nat i := Some cs']> l) <$> schema_columns s) s →
  a' = with_arrays ((λ l, <[Z.to_nat i := Some ca']> l) <$> array_columns a) a →
  columns_converted E g l (i + 1) n s' s'' a' a'' → columns_converted E g (Some v :: l) i n s s'' a a''.
Proof.
  intros Hi Hcs Hca Hcol -> -> (ls & la & Hs & Ha & Hin & Hout). exists ls, la.
  destruct s as [|s]; [done|]. destruct a as [|a]; [done|]. cbn [schema_columns array_columns with_schemas with_arrays set_children children put_children array_children] in *.
  split; [done|]. split; [done|].
  assert (∀ k, 0 <= k → child_at ((λ l, <[Z.to_nat i := Some cs']> l) <$> children s) k = if k =? i then Some cs' else child_at (children s) k) as Hs1
    by (intros k Hk; by eapply child_at_insert).
  assert (∀ k, 0 <= k → child_at ((λ l, <[Z.to_nat i := Some ca']> l) <$> array_children a) k = if k =? i then Some ca' else child_at (array_children a) k) as Ha1
    by (intros k Hk; by eapply child_at_insert).
  split.
  - intros k Hk. destruct (Z.eq_dec k i) as [->|Hne].
    + destruct (Hout i) as [Hls Hla]; [lia|lia|]. rewrite Hs1, Z.eqb_refl in Hls by lia. rewrite Ha1, Z.eqb_refl in Hla by lia.
      exists v, cs, cs', ca, ca'. by rewrite Z.sub_diag.
    + destruct (Hin k) as (w & xs & xs' & xa & xa' & Hw & Hxs & Hxs' & Hxa & Hxa' & Hx); [lia|].
      rewrite Hs1 in Hxs by lia. rewrite Ha1 in Hxa by lia. destruct (Z.eqb_spec k i); [done|].
      exists w, xs, xs', xa, xa'. rewrite znth_lookup in Hw |- * by lia.
      by replace (Z.to_nat (k - i)) with (Datatypes.S (Z.to_nat (k - (i + 1)))) by lia.
  - intros k Hk Hki. destruct (Hout k) as [Hls Hla]; [lia|lia|]. rewrite Hs1 in Hls by lia. rewrite Ha1 in Hla by lia.
    destruct (Z.eqb_spec k i); [lia|]. done.
Qed.
Lemma convert_list_columns g n l : ∀ i c, 0 <= i →
  match convert_list (convertIfNeeded g) n l i c with
  | Done _ c' => columns_converted (conv_error c' = None) g l i n (conv_schema c) (conv_schema c') (conv_array c) (conv_array c')
  | Return _ _ => False
  | _ => True
  end.
Proof.
  induction l as [|o l IH]; intros i c Hi; cbn [convert_list]; destruct (Z.ltb_spec i n); try done; try by apply columns_nil.
  destruct o as [v|]; [|done]. unfold cbind. pose proof (on_child_done i (convertIfNeeded g v) c _ Hi eq_refl) as Hstep.
  destruct (on_column_child i _ c) as [[] c1|p c1| |]; [| |done..].
  2:{ destruct Hstep as (c0 & d & Hret). by apply convert_never_returns in Hret. }
  destruct Hstep as (s & a & cs & ca & d & Hs & Ha & Hcs & Hca & Hd & Herr & Hs1 & Ha1).
  specialize (IH (i + 1) c1 ltac:(lia)).
  assert (keeps_error (convert_list (convertIfNeeded g) n l (i + 1))) as Hkeep.
  { apply keeps_list, Forall_forall. intros [x|] _; [apply keeps_convert|done]. }
  specialize (Hkeep c1). destruct (convert_list _ n l (i + 1) c1) as [[] c'|? c'| |]; [|done..].
  pose proof (keeps_convert g v (MkConv (conv_mem c) (conv_error c) cs ca)) as Hk. rewrite Hd in Hk. cbn [conv_error] in Hk.
  rewrite Hs, Ha. eapply columns_step; [lia|exact Hcs|exact Hca| |exact Hs1|exact Ha1|exact IH].
  exists (MkConv (conv_mem c) (conv_error c) cs ca), d. split_and!; try done. intros HE.
  rewrite Herr in Hkeep. auto.
Qed.

(** *** The batches *)

(** All columns of a batch were converted, from a copy of the schema [s]. *)
Definition batch_converted (E : Prop) (g : settings) (view : ArrowArrayView) (s s' : ArrowSchema)
    (a a' : ArrowArray) : Prop :=
  ∃ m, s = SchemaLive m ∧ columns_converted E g (default [] (view_children view)) 0 (n_children m) s s' a a'.
Lemma convert_columns_batch g view c :
  match convert_columns g view c with
  | Done _ c' => batch_converted (conv_error c' = None) g view (conv_schema c) (conv_schema c') (conv_array c) (conv_array c') ∧
      (conv_error c' = None → conv_error c = None)
  | Return _ _ => False
  | _ => True
  end.
Proof.
  unfold convert_columns. destruct (conv_schema c) as [|m] eqn:Hs; [done|].
  assert (∀ l, default [] (view_children view) = l →
    match convert_list (convertIfNeeded g) (n_children m) l 0 c with
    | Done _ c' => batch_converted (conv_error c' = None) g view (SchemaLive m) (conv_schema c') (conv_array c) (conv_array c') ∧
        (conv_error c' = None → conv_error c = None)
    | Return _ _ => False
    | _ => True
    end) as Hlist.
  { intros l <-. set (l := default [] _). pose proof (convert_list_columns g (n_children m) l 0 c ltac:(lia)) as Hcols.
    assert (keeps_error (convert_list (convertIfNeeded g) (n_children m) l 0)) as Hkeep.
    { apply keeps_list, Forall_forall. intros [x|] _; [apply keeps_convert|done]. }
    specialize (Hkeep c). destruct (convert_list _ _ l 0 c) as [[] c'|? ?| |]; try done. split; [|done].
    rewrite Hs in Hcols. by exists m. }
  destruct (view_children view) as [l|]; [by apply Hlist|]. specialize (Hlist [] eq_refl). cbn [convert_list] in Hlist.
  by destruct (0 <? n_children m).
Qed.

Definition without_error (t : table_iterator) : Prop := table_error t = None.
(** Batches [i] to [i + n] were converted, each with a schema of its own. *)
Record reconstructed (E : Prop) (views : list ArrowArrayView) (i n : nat) (t t' : table_iterator) : Prop := {
  same_count : List.length (m_ipcArrowArrayVec t') = List.length (m_ipcArrowArrayVec t);
  schema_count : List.length (m_ipcSchemaArrayVec t') = (i + n)%nat;
  schemas_before k : (k < i)%nat → m_ipcSchemaArrayVec t' !! k = m_ipcSchemaArrayVec t !! k;
  other_arrays k : ¬ (i ≤ k < i + n)%nat → m_ipcArrowArrayVec t' !! k = m_ipcArrowArrayVec t !! k;
  batch_done k : (k < n)%nat → ∃ view a a' s', views !! k = Some view ∧
    m_ipcArrowArrayVec t !! (i + k)%nat = Some a ∧ m_ipcArrowArrayVec t' !! (i + k)%nat = Some a' ∧
    m_ipcSchemaArrayVec t' !! (i + k)%nat = Some s' ∧ batch_converted E (m_settings t) view (m_ipcArrowSchema t) s' a a';
}.
Lemma batch_converted_mono (E E' : Prop) g view s s' a a' :
  (E' → E) → batch_converted E g view s s' a a' → batch_converted E' g view s s' a a'.
Proof. intros HE (m & Hs & Hc). exists m. split; [done|]. by eapply columns_converted_mono. Qed.
Lemma reconstructed_nil E views i t : List.length (m_ipcSchemaArrayVec t) = i → reconstructed E views i 0 t t.
Proof. intros <-. split; try done; intros; lia. Qed.

(** One turn of the loop. *)
Record batch_step (view : ArrowArrayView) (i : nat) (t t' : table_iterator) : Prop := {
  step_error : without_error t' → without_error t;
  step_flag : m_tableConverted t' = true;
  step_settings : m_settings t' = m_settings t;
  step_schema : m_ipcArrowSchema t' = m_ipcArrowSchema t;
  step_batch : reconstructed (without_error t') [view] i 1 t t';
}.
Lemma copy_schema_valid t :
  schema_valid (m_ipcArrowSchema t) = true →
  (∃ m, copy_schema t = Done tt (push_schema (m, m_ipcArrowSchema t) t)) ∨
  (∃ m, copy_schema t = Return (ArrowRC ENOMEM) (put_mem m t)).
Proof.
  intros Hv. pose proof (deep_copy_copies _ Hv (table_mem t) SchemaReleased) as Hcopy. unfold wp in Hcopy. unfold copy_schema.
  destruct (ArrowSchemaDeepCopy _ _) as [[] [m s]|e [m s]|]; [|right|done].
  - cbn in Hcopy. subst s. left. by exists m.
  - destruct Hcopy as [-> _]. by exists m.
Qed.
Lemma convert_batch_step view i t m :
  List.length (m_ipcSchemaArrayVec t) = i →
  match on_batch i (convert_columns (m_settings t) view) (push_schema (m, m_ipcArrowSchema t) t) with
  | Done _ t' => batch_step view i t (put_converted t')
  | Return _ _ => False
  | _ => True
  end.
Proof.
  intros Hi. unfold on_batch. cbn [push_schema m_ipcSchemaArrayVec m_ipcArrowArrayVec m_settings table_mem table_error fst snd].
  rewrite lookup_app_r, <-Hi, Nat.sub_diag by lia. cbn [lookup list_lookup].
  destruct (m_ipcArrowArrayVec t !! _) as [a|] eqn:Ha; [|done].
  pose proof (convert_columns_batch (m_settings t) view (MkConv m (table_error t) (m_ipcArrowSchema t) a)) as Hb.
  destruct (convert_columns _ _ _) as [[] c| | |]; try done. destruct Hb as [Hb Herr].
  pose proof (lookup_lt_Some _ _ _ Ha) as Hlt. subst i. split; try done.
  split; cbn [put_converted m_ipcArrowArrayVec m_ipcSchemaArrayVec].
  - apply length_insert.
  - rewrite length_insert, length_app. simpl. lia.
  - intros k Hk. rewrite list_lookup_insert_ne by lia. by apply lookup_app_l.
  - intros k Hk. apply list_lookup_insert_ne. lia.
  - intros [|k] Hk; [|lia]. rewrite Nat.add_0_r. exists view, a, (conv_array c), (conv_schema c).
    split_and!; try done; [by apply list_lookup_insert_eq|].
    apply list_lookup_insert_eq. rewrite length_app. simpl. lia.
Qed.
Lemma reconstructed_cons (E E1 : Prop) view views i n t t1 t' :
  (E → E1) → m_settings t1 = m_settings t → m_ipcArrowSchema t1 = m_ipcArrowSchema t →
  reconstructed E1 [view] i 1 t t1 → reconstructed E views (Datatypes.S i) n t1 t' →
  reconstructed E (view :: views) i (Datatypes.S n) t t'.
Proof.
  intros HE Hg Hs [C1 S1 B1 O1 D1] [C2 S2 B2 O2 D2]. split.
  - congruence.
  - lia.
  - intros k Hk. rewrite B2 by lia. by apply B1.
  - intros k Hk. rewrite O2 by lia. apply O1. lia.
  - intros [|k] Hk.
    + destruct (D1 0%nat ltac:(lia)) as (w & a & a' & s' & Hw & Ha & Ha' & Hs' & Hb). injection Hw as <-.
      exists view, a, a', s'. split_and!; [done|done| | |by eapply batch_converted_mono].
      * rewrite O2 by lia. done.
      * rewrite B2 by lia. done.
    + destruct (D2 k ltac:(lia)) as (w & a & a' & s' & Hw & Ha & Ha' & Hs' & Hb).
      rewrite Nat.add_succ_r. exists w, a, a', s'. rewrite Hg, Hs in Hb. split_and!; try done.
      rewrite <-O1 by lia. done.
Qed.
Lemma reconstruct_batches views : ∀ i t,
  schema_valid (m_ipcArrowSchema t) = true → List.length (m_ipcSchemaArrayVec t) = i →
  match reconstruct_from i views t with
  | Done _ t' => reconstructed (without_error t') views i (List.length views) t t' ∧ (without_error t' → without_error t) ∧
      (m_tableConverted t = true ∨ views ≠ [] → m_tableConverted t' = true)
  | Return p t' => p = ArrowRC ENOMEM ∧ ∃ n, (n < List.length views)%nat ∧ reconstructed False views i n t t'
  | _ => True
  end.
Proof.
  induction views as [|view views IH]; intros i t Hv Hi; cbn [reconstruct_from].
  { split; [by apply reconstructed_nil|]. split; [done|]. by intros [?|?]. }
  unfold cbind at 1. destruct (copy_schema_valid t Hv) as [[m ->]|[m ->]]; cycle 1.
  { split; [done|]. exists 0%nat. split; [simpl; lia|]. 
    destruct (reconstructed_nil False (view :: views) i (put_mem m t) Hi). by split. }
  unfold cbind at 1, cget. unfold cbind at 1.
  pose proof (convert_batch_step view i t m Hi) as Hstep. cbn [push_schema m_settings].
  destruct (on_batch i _ _) as [[] t1|? ?| |]; [|done..]. destruct Hstep as [Herr Hflag Hg Hs Hb].
  unfold cbind at 1, cmod. specialize (IH (Datatypes.S i) (put_converted t1)). rewrite Hs in IH.
  specialize (IH Hv). rewrite (schema_count _ _ _ _ _ _ Hb) in IH. specialize (IH ltac:(lia)).
  destruct (reconstruct_from _ views _) as [[] t'|p t'| |]; [| |done..].
  - destruct IH as (Hrec & Herr' & Hflag'). split; [|split; [auto|auto]].
    by eapply (reconstructed_cons _ (without_error (put_converted t1))).
  - destruct IH as (-> & n & Hn & Hrec). split; [done|]. exists (Datatypes.S n). split; [simpl; lia|].
    by eapply (reconstructed_cons _ (without_error (put_converted t1))).
Qed.

(** *** The first call and the later ones *)
Lemma next_idle t : m_tableConverted t = true ∨ m_ipcArrowArrayViewVec t = [] → next t = Done false t.
Proof.
  intros Ht. unfold next, convertRecordBatchesToTable, cbind, cget, id.
  destruct Ht as [-> | ->]; [done|]. by rewrite andb_false_r.
Qed.
Lemma next_first t b t' :
  m_tableConverted t = false → m_ipcArrowArrayViewVec t ≠ [] → next t = Done b t' →
  b = negb (bool_decide (m_ipcArrowArrayVec t' = [])) ∧ reconstructRecordBatches t = Done tt t'.
Proof.
  intros Hfresh Hviews. unfold next, convertRecordBatchesToTable, cbind, cget, id. rewrite Hfresh.
  destruct (m_ipcArrowArrayViewVec t) as [|view views] eqn:Ev; [done|]. rewrite zlen_cons.
  pose proof (zlen_nonneg views). destruct (Z.ltb_spec 0 (1 + zlen views)); [|lia]. cbn [negb andb].
  destruct (reconstructRecordBatches t) as [[] t1| | |]; [|done..]. by intros [= <- <-].
Qed.

End choose.

(** ** A table with one column *)
Section examples.
#[local] Existing Instances example_libc example_malloc.

Definition typed (pairs : list (string * string)) : members :=
  MkMembers (Some "l"%string) (Some "c"%string) (Some (encode ((λ p, (text p.1, text p.2)) <$> pairs))) 2 0 None None.
Definition time_pairs : list (string * string) := [("logicalType", "Time"); ("scale", "7")]%string.
Definition typed_column (pairs : list (string * string)) : conv :=
  MkConv tt None (SchemaLive (typed pairs)) (plain_array 3).
Definition time_view : ArrowArrayView := int64_view (Some [5]) [123456789; 0; 863999999999].
Definition example_settings : settings := MkSettings (Some "UTC"%string) false false.

Lemma conversion_by_type_witness :
  convertIfNeeded example_settings time_view (typed_column time_pairs) =
    returning (convertTimeColumn time_view 7) (typed_column time_pairs).
Proof.
  apply (conversion_by_type example_settings "UTC" time_view _ (typed time_pairs)
    ((λ p, (text p.1, text p.2)) <$> time_pairs) NANOARROW_TYPE_INT64 SnowflakeType.TIME 7 16); [done| |done|done].
  split.
  - eexists. split; vm_compute; reflexivity.
  - split; [split|].
    + repeat constructor; simpl; unfold byte_ok; try lia; by vm_compute.
    + by vm_compute.
    + exists []. by rewrite app_nil_r.
  - exists "Time"%string. split; [by vm_compute|]. apply (bool_decide_unpack _). vm_compute. exact I.
  - intros _. split; [by vm_compute|width].
  - done.
Defined.

(** Batches of one column. *)
Definition batch_schema (pairs : list (string * string)) : ArrowSchema :=
  SchemaLive (MkMembers (Some "+s"%string) (Some ""%string) None 0 1 (Some [Some (SchemaLive (typed pairs))]) None).
Definition batch_array : ArrowArray :=
  ArrayLive (MkArray 3 0 0 1 1 [None] (Some [Some (plain_array 3)]) None None).
Definition batch_view : ArrowArrayView :=
  MkArrayView 0 3 0 NANOARROW_TYPE_STRUCT (ArrowLayoutInit NANOARROW_TYPE_STRUCT)
    [MkView None 0; MkView None 0; MkView None 0] 1 (Some [Some time_view]) None None.
Definition fresh_table (pairs : list (string * string)) : table_iterator :=
  MkTable tt None (batch_schema pairs) [batch_array; batch_array] [batch_view; batch_view] [] false example_settings.
Definition after (r : cpp table_iterator bool) (t : table_iterator) : table_iterator :=
  match r with Done _ t' => t' | _ => t end.

(** [next] returns [True] although the conversion of a column failed. *)
Theorem next_hides_errors :
  match next (fresh_table [("logicalType", "DECFLOAT")]%string) with
  | Done b t' => b = true ∧ table_error t' = Some Message
  | _ => False
  end.
Proof. vm_compute. split; reflexivity. Qed.
(** Without a logical type in the metadata a variable is read that was never
    written. *)
Theorem no_type_undefined :
  convertIfNeeded example_settings time_view (typed_column [("scale", "7")]%string) = Undefined.
Proof. vm_compute. reflexivity. Qed.
End examples.
