(* ===== verification/PyConverters.v ===== *)
(** * Columns to Python objects (the classes derived from IColumnConverter)

    A converter holds a view of a column and turns a row of it into a Python
    object.  The classes are the constructors of [converter], their members the
    arguments; [toPyObject] is the virtual function, and
    [getConverterFromSchema] (CArrowChunkIterator.cpp) chooses the class.

    Python itself is a parameter ([Python]): what a call of a Python function
    returns, which bytes are UTF-8, and how a dictionary takes a new pair.  Python
    objects are their values; counts of references and the want of memory for Python
    objects are left out. *)

From Stdlib Require Import Ascii.
From stdpp Require Import base numbers list option strings.
From S2P Require Import Prelude CInt CString Float Buffer Bits Bitmap Types Metadata Schema SchemaView.
From S2P Require Import ArrayView Decimal Cpp Double Convert.
#[local] Open Scope Z_scope.
#[local] Open Scope cpp_scope.
#[local] Set Warnings "-register-all".

(** ** Python *)

(** A slot of a list or a tuple may be NULL; [PyOther] are objects of the classes
    of Python modules, by identity. *)
Inductive PyObject : Set :=
  | PyNone | PyTrue | PyFalse
  | PyLong (z : Z)
  | PyFloat (bits : Z)
  | PyUnicode (utf8 : list Z)
  | PyByteArray (l : list Z)
  | PyBytes (l : list Z)
  | PyList (l : list (option PyObject))
  | PyTuple (l : list (option PyObject))
  | PyDict (l : list (PyObject * PyObject))
  | PyOther (id : Z).
(** What the converters call: a method of the context, [datetime.date.fromordinal],
    [datetime.time], [decimal.Decimal] and the method [scaleb] of a decimal. *)
Inductive callee : Set :=
  | Context (method : string)
  | datetime_date_fromordinal
  | datetime_time
  | decimal_Decimal
  | scaleb (decimal : PyObject).

Class Python : Type := {
  call : callee → list PyObject → option PyObject;       (* [None]: raised *)
  valid_utf8 : list Z → bool;
  set_item : list (PyObject * PyObject) → PyObject → PyObject → option (list (PyObject * PyObject));
}.

(** The functions run on the error indicator; NULL is [None]. *)
Abbreviation PM := (CM (option py_error)).
Definition set_indicator (p : py_error) : PM unit := cmod (λ _, Some p).
(** [PyErr_SetString(PyExc_Exception, ...); return nullptr] *)
Definition null_with (p : py_error) {A} : PM (option A) := set_indicator p ;;! cret None.

Section python.
Context `{!Python}.

(** [PyObject_CallFunction], [PyObject_CallMethod] *)
Definition py_call (f : callee) (args : list PyObject) : PM (option PyObject) :=
  match call f args with
  | Some o => cret (Some o)
  | None => null_with Raised
  end.
(** The memory of a string view. *)
Definition view_bytes (v : ArrowView) : option (list Z) :=
  match view_data v with
  | None => if view_size v =? 0 then Some [] else None
  | Some d => zslice d 0 (view_size v)
  end.
Definition PyUnicode_FromStringAndSize (l : list Z) : PM (option PyObject) :=
  if valid_utf8 l then cret (Some (PyUnicode l)) else null_with Raised.
(** [PyList_New(size)] and its slots, filled in order *)
Definition py_list (size : Z) (idx : list Z) (item : Z → PM (option PyObject)) : PM (option PyObject) :=
  if size <? 0 then null_with Raised
  else
    let fix go (l : list Z) : PM (list (option PyObject)) :=
      match l with
      | [] => cret []
      | i :: l' => let! o := item i in let! os := go l' in cret (o :: os)
      end in
    let! os := go idx in
    cret (Some (PyList os)).
(** [PyDict_SetItem(dict, key, value)]: the result is not looked at; NULL is not
    allowed. *)
Definition PyDict_SetItem (dict : list (PyObject * PyObject)) (key value : option PyObject) :
    PM (list (PyObject * PyObject)) :=
  match key, value with
  | Some k, Some v =>
      match set_item dict k v with
      | Some dict' => cret dict'
      | None => set_indicator Raised ;;! cret dict
      end
  | _, _ => λ _, Undefined
  end.
(** [PyDict_SetItemString(dict, key, value)] *)
Definition PyDict_SetItemString (dict : list (PyObject * PyObject)) (key : option string)
    (value : option PyObject) : PM (list (PyObject * PyObject)) :=
  let! name := cderef key in
  let! k := PyUnicode_FromStringAndSize (bytes_of_string name) in
  match k with
  | None => cret dict
  | Some _ => PyDict_SetItem dict k value
  end.

(** ** The classes *)
Inductive converter : Set :=
  | IntConverter (m_array : ArrowArrayView)
  | NumpyIntConverter (m_array : ArrowArrayView)
  | BooleanConverter (m_array : ArrowArrayView)
  | BinaryConverter (m_array : ArrowArrayView)
  | StringConverter (m_array : ArrowArrayView)
  | DateConverter (m_array : ArrowArrayView)
  | NumpyDateConverter (m_array : ArrowArrayView)
  | TimeConverter (m_array : ArrowArrayView) (m_scale : Z)
  | FloatConverter (m_array : ArrowArrayView)
  | NumpyFloat64Converter (m_array : ArrowArrayView)
  | DecimalFromIntConverter (m_array : ArrowArrayView) (m_precision m_scale : Z)
  | NumpyDecimalConverter (m_array : ArrowArrayView) (m_precision m_scale : Z)
  | DecimalFromDecimalConverter (m_array : ArrowArrayView) (m_scale : Z)
  | DecFloatConverter (m_array : ArrowArrayView) (m_exponent m_significand : option ArrowArrayView)
      (m_useNumpy : bool)
  | IntervalYearMonthConverter (m_array : ArrowArrayView) (useNumpy : bool) (m_scale : Z)
  | IntervalDayTimeConverterInt (m_array : ArrowArrayView) (useNumpy : bool)
  | IntervalDayTimeConverterDecimal (m_array : ArrowArrayView) (useNumpy : bool)
  | OneFieldTimeStampNTZConverter (m_array : ArrowArrayView) (m_scale : Z)
  | NumpyOneFieldTimeStampNTZConverter (m_array : ArrowArrayView) (m_scale : Z)
  | TwoFieldTimeStampNTZConverter (m_array : ArrowArrayView) (m_epoch m_fraction : option ArrowArrayView)
  | NumpyTwoFieldTimeStampNTZConverter (m_array : ArrowArrayView) (m_epoch m_fraction : option ArrowArrayView)
  | OneFieldTimeStampLTZConverter (m_array : ArrowArrayView) (m_scale : Z)
  | TwoFieldTimeStampLTZConverter (m_array : ArrowArrayView) (m_epoch m_fraction : option ArrowArrayView)
  | TwoFieldTimeStampTZConverter (m_array : ArrowArrayView) (m_epoch m_timezone : option ArrowArrayView)
      (m_scale : Z)
  | ThreeFieldTimeStampTZConverter (m_array : ArrowArrayView)
      (m_epoch m_fraction m_timezone : option ArrowArrayView)
  | ArrayConverter (m_array : ArrowArrayView) (m_item_converter : option converter)
  | MapConverter (m_array : ArrowArrayView) (m_key_converter m_value_converter : option converter)
  | ObjectConverter (m_array : ArrowArrayView) (m_properties : list (option string * option converter))
  | FixedSizeListConverter (m_array : ArrowArrayView).

(** ** Rows to objects *)
Definition unless_null (v : ArrowArrayView) (rowIndex : Z) (m : PM (option PyObject)) : PM (option PyObject) :=
  let! null := cderef (ArrowArrayViewIsNull v rowIndex) in
  if null : bool then cret (Some PyNone) else m.
Definition get_int (p : option ArrowArrayView) (rowIndex : Z) : PM Z := cderef (get_field p rowIndex).
(** A number that is passed as [int64_t] where the format ["i"] reads an [int]: the
    low 32 bits *)
Definition read_as_int (z : Z) : PyObject := PyLong (i32 z).
Definition epochDay : Z := 719163.
Definition date_row (v : ArrowArrayView) (rowIndex : Z) : PM (option PyObject) :=
  let! deltaDays := get_int (Some v) rowIndex in
  let! day := cderef (int64 (epochDay + deltaDays)) in
  py_call datetime_date_fromordinal [read_as_int day].
Definition time_row (v : ArrowArrayView) (m_scale rowIndex : Z) : PM (option PyObject) :=
  let! seconds := get_int (Some v) rowIndex in
  let! hour := cderef (getHourFromSeconds seconds m_scale) in
  let! minute := cderef (getMinuteFromSeconds seconds m_scale) in
  let! second := cderef (getSecondFromSeconds seconds m_scale) in
  let! microsecond := cderef (getMicrosecondFromSeconds seconds m_scale) in
  py_call datetime_time [PyLong hour; PyLong minute; PyLong second; PyLong microsecond].
Definition decimal_row (v : ArrowArrayView) (m_scale rowIndex : Z) : PM (option PyObject) :=
  let! val := get_int (Some v) rowIndex in
  let! decimal := py_call decimal_Decimal [PyLong val] in
  let! minus := cderef (int32 (- m_scale)) in
  match decimal with
  | Some d => py_call (scaleb d) [PyLong minus]
  | None => null_with Raised
  end.
(** The 16 bytes of a row of decimals. *)
Definition decimal_bytes (v : ArrowArrayView) (rowIndex : Z) : PM (list Z) :=
  cderef (d ← buffer_data v 1; zslice d (16 * (offset v + rowIndex)) 16).
Definition decfloat_row (m_exponent m_significand : option ArrowArrayView) (m_useNumpy : bool)
    (rowIndex : Z) : PM (option PyObject) :=
  let! exponent := get_int m_exponent rowIndex in
  let! stringView := cderef (v ← m_significand; ArrowArrayViewGetStringUnsafe v rowIndex) in
  if 16 <? view_size stringView then null_with Message
  else
    let! significand := cderef (view_bytes stringView) in
    py_call (Context (if m_useNumpy then "DECFLOAT_to_numpy_float64" else "DECFLOAT_to_decimal"))
      [read_as_int exponent; PyBytes significand].
(** A timestamp of one field; [zone] the further arguments. *)
Definition one_field (method : string) (m_epoch : option ArrowArrayView) (m_scale rowIndex : Z)
    (zone : list PyObject) : PM (option PyObject) :=
  let! val := get_int m_epoch rowIndex in
  let! ts := cderef (TimeSpec.make val m_scale) in
  py_call (Context method) ([PyLong (TimeSpec.seconds ts); PyLong (TimeSpec.microseconds ts)] ++ zone).
Definition two_fields (method : string) (m_epoch m_fraction : option ArrowArrayView) (rowIndex : Z)
    (zone : list PyObject) : PM (option PyObject) :=
  let! seconds := get_int m_epoch rowIndex in
  let! fraction := get_int m_fraction rowIndex in
  py_call (Context method) ([PyLong seconds; PyLong (Z.quot fraction 1000)] ++ zone).
(** The items of a row of a list or a map: from its offset to the next one, or to
    the end of the items in the last row. *)
Definition row_items (v : ArrowArrayView) (rowIndex : Z) : PM (Z * Z) :=
  let! start := cderef (as_int 4 1 v rowIndex) in
  let! child := cderef (view_child v 0) in
  if rowIndex + 1 <? length v then
    let! end_ := cderef (as_int 4 1 v (rowIndex + 1)) in
    cret (start, end_)
  else cret (start, i32 (length child)).
Definition int_range (start end_ : Z) : list Z := (λ i, start + i) <$> zseq (end_ - start).

Definition fixed_size_list_row (v : ArrowArrayView) (rowIndex : Z) : PM (option PyObject) :=
  if negb (view_n_children v =? 1) then null_with Message
  else
    let! elements := cderef (view_child v 0) in
    if length v =? 0 then λ _, Undefined
    else
      let fixedSizeArrayLength := Z.quot (length elements) (length v) in
      let startIndex := rowIndex * fixedSizeArrayLength in
      match view_storage_type elements with
      | NANOARROW_TYPE_INT8 | NANOARROW_TYPE_INT16 | NANOARROW_TYPE_INT32 | NANOARROW_TYPE_INT64 =>
          py_list fixedSizeArrayLength (zseq fixedSizeArrayLength) (λ i,
            let! value := get_int (Some elements) (startIndex + i) in cret (Some (PyLong value)))
      | NANOARROW_TYPE_HALF_FLOAT | NANOARROW_TYPE_FLOAT | NANOARROW_TYPE_DOUBLE =>
          py_list fixedSizeArrayLength (zseq fixedSizeArrayLength) (λ i,
            let! value := cderef (ArrowArrayViewGetDoubleUnsafe elements (startIndex + i)) in
            cret (Some (PyFloat value)))
      | _ =>
          if fixedSizeArrayLength <=? 0
          then py_list fixedSizeArrayLength [] (λ _, cret None)
          else null_with Message
      end.

(** [item->toPyObject(i)] through a pointer that may be NULL *)
Definition through (toPyObject : converter → Z → PM (option PyObject)) (p : option converter) (i : Z) :
    PM (option PyObject) :=
  match p with Some c => toPyObject c i | None => λ _, Undefined end.
(** The loops over the items of a map and over the properties of an object. *)
Definition map_items (key value : Z → PM (option PyObject)) :
    list Z → list (PyObject * PyObject) → PM (list (PyObject * PyObject)) :=
  fix go idx dict :=
    match idx with
    | [] => cret dict
    | i :: idx' =>
        let! k := key i in
        let! v := value i in
        let! dict' := PyDict_SetItem dict k v in
        go idx' dict'
    end.
Definition object_items (toPyObject : converter → Z → PM (option PyObject)) (rowIndex : Z) :
    list (option string * option converter) → list (PyObject * PyObject) → PM (list (PyObject * PyObject)) :=
  fix go properties dict :=
    match properties with
    | [] => cret dict
    | (name, Some c) :: properties' =>
        let! value := toPyObject c rowIndex in
        let! dict' := PyDict_SetItemString dict name value in
        go properties' dict'
    | (_, None) :: _ => λ _, Undefined
    end.

(** One definition for each class; [item], [key], [value] and [items] are the calls
    through the members of a converter of lists, maps and objects. *)
Definition IntConverter_toPyObject (m_array : ArrowArrayView) (rowIndex : Z) : PM (option PyObject) :=
  unless_null m_array rowIndex (
    let! val := get_int (Some m_array) rowIndex in cret (Some (PyLong val))).
Definition NumpyIntConverter_toPyObject (m_array : ArrowArrayView) (rowIndex : Z) : PM (option PyObject) :=
  unless_null m_array rowIndex (
    let! val := get_int (Some m_array) rowIndex in py_call (Context "FIXED_to_numpy_int64") [PyLong val]).
Definition BooleanConverter_toPyObject (m_array : ArrowArrayView) (rowIndex : Z) : PM (option PyObject) :=
  unless_null m_array rowIndex (
    let! val := get_int (Some m_array) rowIndex in cret (Some (if val =? 0 then PyFalse else PyTrue))).
Definition BinaryConverter_toPyObject (m_array : ArrowArrayView) (rowIndex : Z) : PM (option PyObject) :=
  unless_null m_array rowIndex (
    let! stringView := cderef (ArrowArrayViewGetStringUnsafe m_array rowIndex) in
    let! l := cderef (view_bytes stringView) in
    cret (Some (PyByteArray l))).
Definition StringConverter_toPyObject (m_array : ArrowArrayView) (rowIndex : Z) : PM (option PyObject) :=
  unless_null m_array rowIndex (
    let! stringView := cderef (ArrowArrayViewGetStringUnsafe m_array rowIndex) in
    let! l := cderef (view_bytes stringView) in
    PyUnicode_FromStringAndSize l).
Definition DateConverter_toPyObject (m_array : ArrowArrayView) (rowIndex : Z) : PM (option PyObject) :=
  unless_null m_array rowIndex (date_row m_array rowIndex).
Definition NumpyDateConverter_toPyObject (m_array : ArrowArrayView) (rowIndex : Z) : PM (option PyObject) :=
  unless_null m_array rowIndex (
    let! deltaDays := get_int (Some m_array) rowIndex in
    py_call (Context "DATE_to_numpy_datetime64") [read_as_int deltaDays]).
Definition TimeConverter_toPyObject (m_array : ArrowArrayView) (scale : Z)
    (rowIndex : Z) : PM (option PyObject) :=
  unless_null m_array rowIndex (time_row m_array scale rowIndex).
Definition FloatConverter_toPyObject (m_array : ArrowArrayView) (rowIndex : Z) : PM (option PyObject) :=
  unless_null m_array rowIndex (
    let! val := cderef (ArrowArrayViewGetDoubleUnsafe m_array rowIndex) in cret (Some (PyFloat val))).
Definition NumpyFloat64Converter_toPyObject (m_array : ArrowArrayView) (rowIndex : Z) : PM (option PyObject) :=
  unless_null m_array rowIndex (
    let! val := cderef (ArrowArrayViewGetDoubleUnsafe m_array rowIndex) in
    py_call (Context "REAL_to_numpy_float64") [PyFloat val]).
Definition DecimalFromIntConverter_toPyObject (m_array : ArrowArrayView) (scale : Z)
    (rowIndex : Z) : PM (option PyObject) :=
  unless_null m_array rowIndex (decimal_row m_array scale rowIndex).
Definition NumpyDecimalConverter_toPyObject (m_array : ArrowArrayView) (scale : Z)
    (rowIndex : Z) : PM (option PyObject) :=
  unless_null m_array rowIndex (
    let! val := get_int (Some m_array) rowIndex in
    py_call (Context "FIXED_to_numpy_float64") [PyLong val; PyLong scale]).
Definition DecimalFromDecimalConverter_toPyObject (m_array : ArrowArrayView) (scale : Z)
    (rowIndex : Z) : PM (option PyObject) :=
  unless_null m_array rowIndex (
    let! l := decimal_bytes m_array rowIndex in
    py_call (Context "DECIMAL128_to_decimal") [PyBytes l; PyLong scale]).
Definition DecFloatConverter_toPyObject (m_array : ArrowArrayView) (exponent significand : option ArrowArrayView) (useNumpy : bool)
    (rowIndex : Z) : PM (option PyObject) :=
  unless_null m_array rowIndex (
    decfloat_row exponent significand useNumpy rowIndex).
Definition IntervalYearMonthConverter_toPyObject (m_array : ArrowArrayView) (useNumpy : bool) (scale : Z)
    (rowIndex : Z) : PM (option PyObject) :=
  unless_null m_array rowIndex (
    let! val := get_int (Some m_array) rowIndex in
    py_call (Context (if useNumpy then "INTERVAL_YEAR_MONTH_to_numpy_timedelta"
                      else "INTERVAL_YEAR_MONTH_to_str")) [PyLong val; PyLong scale]).
Definition IntervalDayTimeConverterInt_toPyObject (m_array : ArrowArrayView) (useNumpy : bool)
    (rowIndex : Z) : PM (option PyObject) :=
  unless_null m_array rowIndex (
    let! val := get_int (Some m_array) rowIndex in
    py_call (Context (if useNumpy then "INTERVAL_DAY_TIME_int_to_numpy_timedelta"
                      else "INTERVAL_DAY_TIME_int_to_timedelta")) [PyLong val]).
Definition IntervalDayTimeConverterDecimal_toPyObject (m_array : ArrowArrayView) (useNumpy : bool)
    (rowIndex : Z) : PM (option PyObject) :=
  unless_null m_array rowIndex (
    let! l := decimal_bytes m_array rowIndex in
    py_call (Context (if useNumpy then "INTERVAL_DAY_TIME_decimal_to_numpy_timedelta"
                      else "INTERVAL_DAY_TIME_decimal_to_timedelta")) [PyBytes l]).
Definition OneFieldTimeStampNTZConverter_toPyObject (m_array : ArrowArrayView) (scale : Z)
    (rowIndex : Z) : PM (option PyObject) :=
  unless_null m_array rowIndex (
    one_field "TIMESTAMP_NTZ_to_python" (Some m_array) scale rowIndex []).
Definition NumpyOneFieldTimeStampNTZConverter_toPyObject (m_array : ArrowArrayView) (scale : Z)
    (rowIndex : Z) : PM (option PyObject) :=
  unless_null m_array rowIndex (
    let! val := get_int (Some m_array) rowIndex in
    py_call (Context "TIMESTAMP_NTZ_ONE_FIELD_to_numpy_datetime64") [PyLong val; PyLong scale]).
Definition TwoFieldTimeStampNTZConverter_toPyObject (m_array : ArrowArrayView) (epoch fraction : option ArrowArrayView)
    (rowIndex : Z) : PM (option PyObject) :=
  unless_null m_array rowIndex (
    two_fields "TIMESTAMP_NTZ_to_python" epoch fraction rowIndex []).
Definition NumpyTwoFieldTimeStampNTZConverter_toPyObject (m_array : ArrowArrayView) (epoch fraction : option ArrowArrayView)
    (rowIndex : Z) : PM (option PyObject) :=
  unless_null m_array rowIndex (
    let! e := get_int epoch rowIndex in
    let! frac := get_int fraction rowIndex in
    py_call (Context "TIMESTAMP_NTZ_TWO_FIELD_to_numpy_datetime64") [PyLong e; PyLong (i32 frac)]).
Definition OneFieldTimeStampLTZConverter_toPyObject (m_array : ArrowArrayView) (scale : Z)
    (rowIndex : Z) : PM (option PyObject) :=
  unless_null m_array rowIndex (
    one_field "TIMESTAMP_LTZ_to_python" (Some m_array) scale rowIndex []).
Definition TwoFieldTimeStampLTZConverter_toPyObject (m_array : ArrowArrayView) (epoch fraction : option ArrowArrayView)
    (rowIndex : Z) : PM (option PyObject) :=
  unless_null m_array rowIndex (
    two_fields "TIMESTAMP_LTZ_to_python" epoch fraction rowIndex []).
Definition TwoFieldTimeStampTZConverter_toPyObject (m_array : ArrowArrayView) (epoch timezone : option ArrowArrayView) (scale : Z)
    (rowIndex : Z) : PM (option PyObject) :=
  unless_null m_array rowIndex (
    let! zone := get_int timezone rowIndex in
    one_field "TIMESTAMP_TZ_to_python" epoch scale rowIndex [PyLong (i32 zone)]).
Definition ThreeFieldTimeStampTZConverter_toPyObject (m_array : ArrowArrayView) (epoch fraction timezone : option ArrowArrayView)
    (rowIndex : Z) : PM (option PyObject) :=
  unless_null m_array rowIndex (
    let! zone := get_int timezone rowIndex in
    two_fields "TIMESTAMP_TZ_to_python" epoch fraction rowIndex [PyLong (i32 zone)]).
Definition ArrayConverter_toPyObject (m_array : ArrowArrayView) (item : Z → PM (option PyObject))
    (rowIndex : Z) : PM (option PyObject) :=
  unless_null m_array rowIndex (
    let! r := row_items m_array rowIndex in
    py_list (r.2 - r.1) (int_range r.1 r.2) item).
Definition MapConverter_toPyObject (m_array : ArrowArrayView) (key value : Z → PM (option PyObject))
    (rowIndex : Z) : PM (option PyObject) :=
  unless_null m_array rowIndex (
    let! r := row_items m_array rowIndex in
    let! dict := map_items key value (int_range r.1 r.2) [] in
    cret (Some (PyDict dict))).
Definition ObjectConverter_toPyObject (m_array : ArrowArrayView)
    (items : list (PyObject * PyObject) → PM (list (PyObject * PyObject))) (rowIndex : Z) : PM (option PyObject) :=
  unless_null m_array rowIndex (
    let! dict := items [] in
    cret (Some (PyDict dict))).
Definition FixedSizeListConverter_toPyObject (m_array : ArrowArrayView) (rowIndex : Z) : PM (option PyObject) :=
  unless_null m_array rowIndex (fixed_size_list_row m_array rowIndex).

(** The virtual function. *)
Fixpoint toPyObject (c : converter) (rowIndex : Z) : PM (option PyObject) :=
  match c with
  | IntConverter v => IntConverter_toPyObject v rowIndex
  | NumpyIntConverter v => NumpyIntConverter_toPyObject v rowIndex
  | BooleanConverter v => BooleanConverter_toPyObject v rowIndex
  | BinaryConverter v => BinaryConverter_toPyObject v rowIndex
  | StringConverter v => StringConverter_toPyObject v rowIndex
  | DateConverter v => DateConverter_toPyObject v rowIndex
  | NumpyDateConverter v => NumpyDateConverter_toPyObject v rowIndex
  | TimeConverter v scale => TimeConverter_toPyObject v scale rowIndex
  | FloatConverter v => FloatConverter_toPyObject v rowIndex
  | NumpyFloat64Converter v => NumpyFloat64Converter_toPyObject v rowIndex
  | DecimalFromIntConverter v _ scale => DecimalFromIntConverter_toPyObject v scale rowIndex
  | NumpyDecimalConverter v _ scale => NumpyDecimalConverter_toPyObject v scale rowIndex
  | DecimalFromDecimalConverter v scale => DecimalFromDecimalConverter_toPyObject v scale rowIndex
  | DecFloatConverter v exponent significand useNumpy =>
      DecFloatConverter_toPyObject v exponent significand useNumpy rowIndex
  | IntervalYearMonthConverter v useNumpy scale =>
      IntervalYearMonthConverter_toPyObject v useNumpy scale rowIndex
  | IntervalDayTimeConverterInt v useNumpy => IntervalDayTimeConverterInt_toPyObject v useNumpy rowIndex
  | IntervalDayTimeConverterDecimal v useNumpy =>
      IntervalDayTimeConverterDecimal_toPyObject v useNumpy rowIndex
  | OneFieldTimeStampNTZConverter v scale => OneFieldTimeStampNTZConverter_toPyObject v scale rowIndex
  | NumpyOneFieldTimeStampNTZConverter v scale =>
      NumpyOneFieldTimeStampNTZConverter_toPyObject v scale rowIndex
  | TwoFieldTimeStampNTZConverter v epoch fraction =>
      TwoFieldTimeStampNTZConverter_toPyObject v epoch fraction rowIndex
  | NumpyTwoFieldTimeStampNTZConverter v epoch fraction =>
      NumpyTwoFieldTimeStampNTZConverter_toPyObject v epoch fraction rowIndex
  | OneFieldTimeStampLTZConverter v scale => OneFieldTimeStampLTZConverter_toPyObject v scale rowIndex
  | TwoFieldTimeStampLTZConverter v epoch fraction =>
      TwoFieldTimeStampLTZConverter_toPyObject v epoch fraction rowIndex
  | TwoFieldTimeStampTZConverter v epoch timezone scale =>
      TwoFieldTimeStampTZConverter_toPyObject v epoch timezone scale rowIndex
  | ThreeFieldTimeStampTZConverter v epoch fraction timezone =>
      ThreeFieldTimeStampTZConverter_toPyObject v epoch fraction timezone rowIndex
  | ArrayConverter v item => ArrayConverter_toPyObject v (through toPyObject item) rowIndex
  | MapConverter v key value =>
      MapConverter_toPyObject v (through toPyObject key) (through toPyObject value) rowIndex
  | ObjectConverter v properties =>
      ObjectConverter_toPyObject v (object_items toPyObject rowIndex properties) rowIndex
  | FixedSizeListConverter v => FixedSizeListConverter_toPyObject v rowIndex
  end.

(** ** Choosing the class *)

(** The children of the names, the last of a name wins, with the loop of the
    constructors. *)
Fixpoint named_child (idx : list Z) (s : members) (v : ArrowArrayView) (field : string)
    (found : option ArrowArrayView) : option (option ArrowArrayView) :=
  match idx with
  | [] => Some found
  | i :: idx' =>
      c_schema ← child_members s i;
      n ← name c_schema;
      if bool_decide (n = field) then
        c ← view_child v i;
        named_child idx' s v field (Some c)
      else named_child idx' s v field found
  end.
(** The check of the number of children in a constructor; when it fails the
    pointers stay as they were. *)
Definition check_children (s : members) (n : Z) : PM bool :=
  if n_children s =? n then cret true else set_indicator Message ;;! cret false.
Definition field (ok : bool) (s : members) (v : ArrowArrayView) (f : string) : PM (option ArrowArrayView) :=
  if ok then cderef (named_child (zseq (n_children s)) s v f None) else cret None.
(** The constructors; [two_fields_of] is the loop over the children that four of
    them share. *)
Definition two_fields_of (make : option ArrowArrayView → option ArrowArrayView → converter)
    (s : members) (v : ArrowArrayView) (second : string) : PM (option converter) :=
  let! ok := check_children s 2 in
  let! epoch := field ok s v FIELD_NAME_EPOCH in
  let! other := field ok s v second in
  cret (Some (make epoch other)).
Definition TwoFieldTimeStampNTZConverter_new (v : ArrowArrayView) (s : members) : PM (option converter) :=
  two_fields_of (TwoFieldTimeStampNTZConverter v) s v FIELD_NAME_FRACTION.
Definition NumpyTwoFieldTimeStampNTZConverter_new (v : ArrowArrayView) (s : members) : PM (option converter) :=
  two_fields_of (NumpyTwoFieldTimeStampNTZConverter v) s v FIELD_NAME_FRACTION.
Definition TwoFieldTimeStampLTZConverter_new (v : ArrowArrayView) (s : members) : PM (option converter) :=
  two_fields_of (TwoFieldTimeStampLTZConverter v) s v FIELD_NAME_FRACTION.
Definition TwoFieldTimeStampTZConverter_new (v : ArrowArrayView) (s : members) (scale : Z) : PM (option converter) :=
  two_fields_of (λ epoch timezone, TwoFieldTimeStampTZConverter v epoch timezone scale) s v FIELD_NAME_TIME_ZONE.
Definition ThreeFieldTimeStampTZConverter_new (v : ArrowArrayView) (s : members) : PM (option converter) :=
  let! ok := check_children s 3 in
  let! epoch := field ok s v FIELD_NAME_EPOCH in
  let! timezone := field ok s v FIELD_NAME_TIME_ZONE in
  let! fraction := field ok s v FIELD_NAME_FRACTION in
  cret (Some (ThreeFieldTimeStampTZConverter v epoch fraction timezone)).
Definition DecFloatConverter_new (v : ArrowArrayView) (s : members) (useNumpy : bool) : PM (option converter) :=
  let! ok := check_children s 2 in
  let! exponent := field ok s v "exponent" in
  let! significand := field ok s v "significand" in
  match ok, exponent, significand with
  | true, None, _ | true, _, None => set_indicator Message
  | _, _, _ => cret tt
  end ;;!
  cret (Some (DecFloatConverter v exponent significand useNumpy)).
(** [item] is [getConverterFromSchema] on child [i] of the view, [entry] on child
    [i] of its child 0. *)
Definition ArrayConverter_new (v : ArrowArrayView) (s : members) (item : Z → members → PM (option converter)) :
    PM (option converter) :=
  if n_children s =? 1 then
    let! item_schema := cderef (child_members s 0) in
    let! c := item 0 item_schema in
    cret (Some (ArrayConverter v c))
  else set_indicator Message ;;! cret (Some (ArrayConverter v None)).
Definition MapConverter_new (v : ArrowArrayView) (s : members) (entry : Z → members → PM (option converter)) :
    PM (option converter) :=
  if n_children s =? 1 then
    let! entries := cderef (child_members s 0) in
    if n_children entries =? 2 then
      let! key_schema := cderef (child_members entries 0) in
      let! key := entry 0 key_schema in
      let! value_schema := cderef (child_members entries 1) in
      let! value := entry 1 value_schema in
      cret (Some (MapConverter v key value))
    else set_indicator Message ;;! cret (Some (MapConverter v None None))
  else set_indicator Message ;;! cret (Some (MapConverter v None None)).
Definition ObjectConverter_new (v : ArrowArrayView) (s : members) (item : Z → members → PM (option converter)) :
    PM (option converter) :=
  let fix properties (l : list Z) : PM (list (option string * option converter)) :=
    match l with
    | [] => cret []
    | i :: l' =>
        let! property_schema := cderef (child_members s i) in
        let! c := item i property_schema in
        let! cs := properties l' in
        cret ((name property_schema, c) :: cs)
    end in
  let! cs := properties (zseq (n_children s)) in
  cret (Some (ObjectConverter v cs)).
(** The scale and the precision of a number. *)
Definition metadata_scale_precision (metadata : option (list Z)) : PM (Z * Z) :=
  match metadata with
  | None => cret (0, 38)
  | Some _ =>
      let! scaleString := metadata_value metadata "scale" (ArrowCharView None) in
      let! precisionString := metadata_value metadata "precision" (ArrowCharView None) in
      let! s := to_std_string scaleString in
      let! scale := stoi s in
      let! p := to_std_string precisionString in
      let! precision := stoi p in
      cret (scale, precision)
  end.
Definition fixed_converter (type : ArrowType) (v : ArrowArrayView) (scale precision : Z) (useNumpy : bool) :
    PM (option converter) :=
  match type with
  | NANOARROW_TYPE_INT8 | NANOARROW_TYPE_INT16 | NANOARROW_TYPE_INT32 | NANOARROW_TYPE_INT64 =>
      cret (Some (
        if 0 <? scale then
          if useNumpy then NumpyDecimalConverter v precision scale
          else DecimalFromIntConverter v precision scale
        else if useNumpy then NumpyIntConverter v else IntConverter v))
  | NANOARROW_TYPE_DECIMAL128 => cret (Some (DecimalFromDecimalConverter v scale))
  | _ => null_with Message
  end.

(** The cases of the types with more than one converter. *)
Definition time_converter (metadata : option (list Z)) (type : ArrowType) (v : ArrowArrayView) :
    PM (option converter) :=
  let! scale := metadata_scale metadata 9 in
  match type with
  | NANOARROW_TYPE_INT32 | NANOARROW_TYPE_INT64 => cret (Some (TimeConverter v scale))
  | _ => null_with Message
  end.
Definition timestamp_ntz_converter (s : members) (type : ArrowType) (v : ArrowArrayView) (useNumpy : bool) :
    PM (option converter) :=
  let! scale := metadata_scale (schema_metadata s) 9 in
  match type with
  | NANOARROW_TYPE_INT64 =>
      cret (Some (if useNumpy then NumpyOneFieldTimeStampNTZConverter v scale
                  else OneFieldTimeStampNTZConverter v scale))
  | NANOARROW_TYPE_STRUCT =>
      if useNumpy then NumpyTwoFieldTimeStampNTZConverter_new v s else TwoFieldTimeStampNTZConverter_new v s
  | _ => null_with Message
  end.
Definition timestamp_ltz_converter (s : members) (type : ArrowType) (v : ArrowArrayView) : PM (option converter) :=
  let! scale := metadata_scale (schema_metadata s) 9 in
  match type with
  | NANOARROW_TYPE_INT64 => cret (Some (OneFieldTimeStampLTZConverter v scale))
  | NANOARROW_TYPE_STRUCT => TwoFieldTimeStampLTZConverter_new v s
  | _ => null_with Message
  end.
Definition timestamp_tz_converter (s : members) (v : ArrowArrayView) : PM (option converter) :=
  let! p := metadata_scale_length (schema_metadata s) in
  if p.2 =? 8 then TwoFieldTimeStampTZConverter_new v s p.1
  else if p.2 =? 16 then ThreeFieldTimeStampTZConverter_new v s
  else null_with Message.
Definition interval_day_time_converter (type : ArrowType) (v : ArrowArrayView) (useNumpy : bool) :
    PM (option converter) :=
  match type with
  | NANOARROW_TYPE_INT64 => cret (Some (IntervalDayTimeConverterInt v useNumpy))
  | NANOARROW_TYPE_DECIMAL128 => cret (Some (IntervalDayTimeConverterDecimal v useNumpy))
  | _ => null_with Message
  end.
Definition array_converter (s : members) (type : ArrowType) (v : ArrowArrayView)
    (item : Z → members → PM (option converter)) : PM (option converter) :=
  match type with
  | NANOARROW_TYPE_STRING => cret (Some (StringConverter v))
  | NANOARROW_TYPE_LIST => ArrayConverter_new v s item
  | _ => null_with Message
  end.
Definition object_converter (s : members) (type : ArrowType) (v : ArrowArrayView)
    (item : Z → members → PM (option converter)) : PM (option converter) :=
  match type with
  | NANOARROW_TYPE_STRING => cret (Some (StringConverter v))
  | NANOARROW_TYPE_STRUCT => ObjectConverter_new v s item
  | _ => null_with Message
  end.
Definition converter_by_type (useNumpy : bool) (schema : ArrowSchema) (v : ArrowArrayView)
    (item entry : Z → members → PM (option converter)) : PM (option converter) :=
  let! sv := schema_view schema in
  let! s := live_schema schema in
  let metadata := schema_metadata s in
  let type := view_type sv in
  let! snowflakeLogicalType := metadata_value metadata "logicalType" (ArrowCharView None) in
  let! logicalType := to_std_string snowflakeLogicalType in
  let! st := SnowflakeType.snowflakeTypeFromString logicalType in
  match st with
  | SnowflakeType.FIXED =>
      let! p := metadata_scale_precision metadata in
      fixed_converter type v p.1 p.2 useNumpy
  | SnowflakeType.ANY | SnowflakeType.CHAR | SnowflakeType.TEXT | SnowflakeType.VARIANT =>
      cret (Some (StringConverter v))
  | SnowflakeType.BOOLEAN => cret (Some (BooleanConverter v))
  | SnowflakeType.REAL => cret (Some (if useNumpy then NumpyFloat64Converter v else FloatConverter v))
  | SnowflakeType.DATE => cret (Some (if useNumpy then NumpyDateConverter v else DateConverter v))
  | SnowflakeType.BINARY => cret (Some (BinaryConverter v))
  | SnowflakeType.TIME => time_converter metadata type v
  | SnowflakeType.TIMESTAMP_NTZ => timestamp_ntz_converter s type v useNumpy
  | SnowflakeType.TIMESTAMP_LTZ => timestamp_ltz_converter s type v
  | SnowflakeType.TIMESTAMP_TZ => timestamp_tz_converter s v
  | SnowflakeType.ARRAY => array_converter s type v item
  | SnowflakeType.MAP => MapConverter_new v s entry
  | SnowflakeType.OBJECT => object_converter s type v item
  | SnowflakeType.VECTOR => cret (Some (FixedSizeListConverter v))
  | SnowflakeType.DECFLOAT => DecFloatConverter_new v s useNumpy
  | SnowflakeType.INTERVAL_YEAR_MONTH =>
      let! scale := metadata_scale metadata 9 in
      cret (Some (IntervalYearMonthConverter v useNumpy scale))
  | SnowflakeType.INTERVAL_DAY_TIME => interval_day_time_converter type v useNumpy
  | SnowflakeType.TIMESTAMP => null_with Message
  end.
(** An early return is [nullptr] with the error indicator set. *)
Definition returning_null {A} (m : PM (option A)) : PM (option A) := λ s,
  match m s with
  | Return p _ => Done None (Some p)
  | r => r
  end.
(** The recursion is on the view; [on_nth] runs it on child [i]. *)
Definition on_nth (get : ArrowArrayView → members → PM (option converter)) :
    list (option ArrowArrayView) → Z → members → PM (option converter) :=
  fix go l i :=
    match l with
    | [] => λ _ _, Undefined
    | o :: l' =>
        if i =? 0 then match o with Some v => get v | None => λ _ _, Undefined end
        else go l' (i - 1)
    end.
Fixpoint getConverterFromSchema (useNumpy : bool) (v : ArrowArrayView) (schema : members) :
    PM (option converter) :=
  match v with
  | MkArrayView _ _ _ _ _ _ _ ch _ _ =>
      returning_null (converter_by_type useNumpy (SchemaLive schema) v
        (match ch with
         | Some l => on_nth (getConverterFromSchema useNumpy) l
         | None => λ _ _ _, Undefined
         end)
        (match ch with
         | Some (Some (MkArrayView _ _ _ _ _ _ _ (Some l) _ _) :: _) => on_nth (getConverterFromSchema useNumpy) l
         | _ => λ _ _ _, Undefined
         end))
  end.
End python.
