(* ===== verification/PyRows.v ===== *)
(** * What the converters give

    Lists: the rows of a list column are consecutive slices of its items.
    Timestamps and times: the arguments of the Python calls add up to the
    instant that is stored.  At the end, inputs on which a converter gives items
    of no row. *)

From Stdlib Require Import Ascii.
From stdpp Require Import base numbers list option strings.
From S2P Require Import Prelude CInt CString Float Buffer Bits Bitmap Types Metadata Schema SchemaView.
From S2P Require Import ArrayView Decimal Cpp Double Convert PyConverters.
#[local] Open Scope Z_scope.
#[local] Open Scope cpp_scope.

Section lists.
Context `{!Python}.
Implicit Types (e : option py_error).

(** The converter of the items gives the objects [xs], without an error. *)
Definition gives (item : converter) (xs : list (option PyObject)) : Prop :=
  ∀ i x e, xs !! i = Some x → toPyObject item (Z.of_nat i) e = Done x e.
Definition slice {A} (start end_ : Z) (l : list A) : list A :=
  take (Z.to_nat (end_ - start)) (drop (Z.to_nat start) l).

Lemma py_list_slice start n (item : Z → PM (option PyObject)) xs e :
  0 <= start → 0 <= n → start + n <= zlen xs →
  (∀ i x e, xs !! i = Some x → item (Z.of_nat i) e = Done x e) →
  py_list n (int_range start (start + n)) item e = Done (Some (PyList (slice start (start + n) xs))) e.
Proof.
  intros Hs Hn Hlen Hitem. unfold py_list. destruct (Z.ltb_spec n 0); [lia|].
  set (go := fix go (l : list Z) : PM (list (option PyObject)) := _).
  assert (∀ m st, Z.of_nat st + Z.of_nat m <= zlen xs →
    go ((λ i, Z.of_nat st + i) <$> (Z.of_nat <$> seq 0 m)) e = Done (take m (drop st xs)) e) as Hgo.
  { induction m as [|m IH]; intros st Hst; [done|].
    assert (∃ x, xs !! st = Some x) as [x Hx] by (apply lookup_lt_is_Some_2; unfold zlen in Hst; lia).
    rewrite (drop_S _ _ _ Hx). cbn [seq]. rewrite !fmap_cons. cbn [take].
    change (go (?i :: ?l)) with (cbind (item i) (λ o, cbind (go l) (λ os, cret (o :: os)))).
    replace (Z.of_nat st + Z.of_nat 0) with (Z.of_nat st) by lia.
    unfold cbind. rewrite (Hitem _ _ _ Hx).
    assert (((λ i, Z.of_nat st + i) <$> (Z.of_nat <$> seq 1 m)) =
      ((λ i, Z.of_nat (S st) + i) <$> (Z.of_nat <$> seq 0 m))) as ->.
    { rewrite <-fmap_S_seq, <-!list_fmap_compose. apply list_fmap_ext. intros ? i _. simpl. lia. }
    by rewrite IH by lia. }
  specialize (Hgo (Z.to_nat n) (Z.to_nat start) ltac:(lia)). rewrite Z2Nat.id in Hgo by done.
  unfold cbind, int_range, zseq, slice. replace (start + n - start) with n by lia. by rewrite Hgo.
Qed.

(** A column of lists: [os] are its offsets, one more than rows, and the items end
    where the last list does. *)
Record list_column (v child : ArrowArrayView) (os : list Z) : Prop := {
  list_child : view_child v 0 = Some child;
  list_rows : zlen os = length v + 1;
  list_offsets : ∀ r z, os !! r = Some z → as_int 4 1 v (Z.of_nat r) = Some z;
  list_end : os !! Z.to_nat (length v) = Some (length child);
  list_sorted : ∀ r y z, os !! r = Some y → os !! S r = Some z → 0 <= y <= z;
  list_small : length child <= INT32_MAX;
}.
Lemma row_items_spec v child os r y z e :
  list_column v child os → os !! r = Some y → os !! S r = Some z → row_items v (Z.of_nat r) e = Done (y, z) e.
Proof.
  intros [Hc Hn Hos Hend Hsort Hsmall] Hy Hz. pose proof (lookup_lt_Some _ _ _ Hz) as Hlt. unfold zlen in Hn.
  unfold row_items, cbind. rewrite (Hos _ _ Hy), Hc. cbn [cderef]. unfold cret.
  destruct (Z.ltb_spec (Z.of_nat r + 1) (length v)).
  - replace (Z.of_nat r + 1) with (Z.of_nat (S r)) by lia. by rewrite (Hos _ _ Hz).
  - assert (Z.to_nat (length v) = S r) as Heq by lia. rewrite Heq, Hz in Hend. injection Hend as ->.
    rewrite i32_small; [done|]. destruct (Hsort _ _ _ Hy Hz). width.
Qed.
(** The end of a row is within the items. *)
Lemma row_end_le v child os r y z :
  list_column v child os → os !! r = Some y → os !! S r = Some z → 0 <= y <= z ∧ z <= length child.
Proof.
  intros [Hc Hn Hos Hend Hsort _] Hy Hz. split; [by eapply Hsort|]. pose proof (lookup_lt_Some _ _ _ Hz) as Hlt.
  unfold zlen in Hn. set (n := Z.to_nat (length v)) in *. assert (List.length os = S n) as Hlen by lia.
  clear Hy Hos Hc. remember (n - S r)%nat as d eqn:Hd. revert r z Hz Hlt Hd.
  induction d as [|d IH]; intros r z Hz Hlt Hd.
  - assert (S r = n) as Heq by lia. rewrite Heq, Hend in Hz. injection Hz as ->. lia.
  - assert (∃ z', os !! S (S r) = Some z') as [z' Hz'] by (apply lookup_lt_is_Some_2; lia).
    destruct (Hsort _ _ _ Hz Hz'). specialize (IH (S r) z' Hz' ltac:(lia) ltac:(lia)). lia.
Qed.

(** C23.  The list that [ArrayConverter] gives for a row is the slice of the items
    between its offset and the next one, provided the items end with the last
    list. *)
Theorem array_rows (v child : ArrowArrayView) (os : list Z) (item : converter) (xs : list (option PyObject))
    (r : nat) (y z : Z) (e : option py_error) (Hv : list_column v child os) (Hitems : gives item xs)
    (Hlen : zlen xs = length child) (Hy : os !! r = Some y) (Hz : os !! S r = Some z)
    (Hnull : ArrowArrayViewIsNull v (Z.of_nat r) = Some false) :
  toPyObject (ArrayConverter v (Some item)) (Z.of_nat r) e = Done (Some (PyList (slice y z xs))) e.
Proof.
  destruct (row_end_le v child os r y z Hv Hy Hz) as [Hyz Hzc].
  cbn [toPyObject]. unfold ArrayConverter_toPyObject, unless_null, cbind. rewrite Hnull. cbn [cderef]. unfold cret.
  rewrite (row_items_spec v child os r y z e Hv Hy Hz). cbn [fst snd].
  replace z with (y + (z - y)) by lia. replace (y + (z - y) - y) with (z - y) by lia.
  apply py_list_slice; [lia|lia|lia|]. intros i x e' Hx. by apply Hitems.
Qed.
End lists.

(** ** Times and timestamps *)
Section times.
Context `{!Python}.
Implicit Types (e : option py_error).

(** A row that is a number. *)
Definition number_row (v : ArrowArrayView) (r z : Z) : Prop :=
  ArrowArrayViewIsNull v r = Some false ∧ ArrowArrayViewGetIntUnsafe v r = Some z.

(** C32.  A [TIME] row, a count of [10 ^ -scale] seconds since midnight, becomes a
    call of [datetime.time] with an hour, a minute, a second and a microsecond
    that are in range and together the time of the day, rounded down to
    microseconds. *)
Theorem time_object (v : ArrowArrayView) (scale r z : Z) (e : option py_error) (Hs : 0 <= scale <= 9)
    (Hz : 0 <= z < 86400 * 10 ^ scale) (Hv : number_row v r z) :
  ∃ h m s us, toPyObject (TimeConverter v scale) r e =
      py_call datetime_time [PyLong h; PyLong m; PyLong s; PyLong us] e ∧
    0 <= h < 24 ∧ 0 <= m < 60 ∧ 0 <= s < 60 ∧ 0 <= us < 1000000 ∧
    ((h * 60 + m) * 60 + s) * 10 ^ 6 + us = micros z scale.
Proof.
  destruct Hv as [Hnull Hget]. destruct (time_parts z scale Hs Hz) as (h & m & s & us & Hh & Hm & Hsec & Hus & Hrest).
  exists h, m, s, us. split; [|done]. cbn [toPyObject]. unfold TimeConverter_toPyObject, unless_null, time_row, get_int, get_field, cbind.
  rewrite Hnull. cbn [cderef mbind option_bind]. unfold cret. rewrite Hget. cbn [cderef]. unfold cret.
  by rewrite Hh, Hm, Hsec, Hus.
Qed.

(** The arguments that a time zone adds: [None] for the types without one. *)
Definition zone_args (zone : option Z) : list PyObject := match zone with None => [] | Some m => [PyLong m] end.
(** Row [r] of a column of epochs and fractions. *)
Definition pair_row (v ea fa : ArrowArrayView) (r epoch fraction : Z) : Prop :=
  ArrowArrayViewIsNull v r = Some false ∧ ArrowArrayViewGetIntUnsafe ea r = Some epoch ∧
  ArrowArrayViewGetIntUnsafe fa r = Some fraction ∧ 0 <= fraction < 10 ^ 9.
(** A count that the rounding to microseconds does not make overflow. *)
Definition count_ok (scale z : Z) : Prop := 0 <= scale <= 9 ∧ INT64_MIN + 999 <= z <= INT64_MAX.
Definition zone_row (tz : ArrowArrayView) (r minutes : Z) : Prop :=
  ArrowArrayViewGetIntUnsafe tz r = Some minutes ∧ INT32_MIN <= minutes <= INT32_MAX.

(** The timestamps by their converters: row [r] is the count [z] of [10 ^ -scale]
    seconds, with the minutes of a time zone. *)
Inductive timestamp_row (r : Z) : converter → string → Z → Z → option Z → Prop :=
  | ntz_one v scale z : number_row v r z → count_ok scale z →
      timestamp_row r (OneFieldTimeStampNTZConverter v scale) "TIMESTAMP_NTZ_to_python" scale z None
  | ltz_one v scale z : number_row v r z → count_ok scale z →
      timestamp_row r (OneFieldTimeStampLTZConverter v scale) "TIMESTAMP_LTZ_to_python" scale z None
  | ntz_two v ea fa epoch fraction : pair_row v ea fa r epoch fraction →
      timestamp_row r (TwoFieldTimeStampNTZConverter v (Some ea) (Some fa)) "TIMESTAMP_NTZ_to_python" 9
        (epoch * 10 ^ 9 + fraction) None
  | ltz_two v ea fa epoch fraction : pair_row v ea fa r epoch fraction →
      timestamp_row r (TwoFieldTimeStampLTZConverter v (Some ea) (Some fa)) "TIMESTAMP_LTZ_to_python" 9
        (epoch * 10 ^ 9 + fraction) None
  | tz_two v ea tz scale z minutes : ArrowArrayViewIsNull v r = Some false →
      ArrowArrayViewGetIntUnsafe ea r = Some z → count_ok scale z → zone_row tz r minutes →
      timestamp_row r (TwoFieldTimeStampTZConverter v (Some ea) (Some tz) scale) "TIMESTAMP_TZ_to_python" scale z
        (Some minutes)
  | tz_three v ea fa tz epoch fraction minutes : pair_row v ea fa r epoch fraction → zone_row tz r minutes →
      timestamp_row r (ThreeFieldTimeStampTZConverter v (Some ea) (Some fa) (Some tz)) "TIMESTAMP_TZ_to_python" 9
        (epoch * 10 ^ 9 + fraction) (Some minutes).

Lemma one_field_call method ea scale r z zone e :
  ArrowArrayViewGetIntUnsafe ea r = Some z → count_ok scale z →
  ∃ s us, one_field method (Some ea) scale r zone e = py_call (Context method) ([PyLong s; PyLong us] ++ zone) e ∧
    s * 10 ^ 6 + us = micros z scale.
Proof.
  intros Hget [Hs Hz]. destruct (time_spec z scale Hs Hz) as (ts & Hts & Hsum & _).
  exists (TimeSpec.seconds ts), (TimeSpec.microseconds ts). split; [|done].
  unfold one_field, get_int, get_field, cbind. cbn [mbind option_bind]. rewrite Hget. cbn [cderef]. unfold cret. by rewrite Hts.
Qed.
Lemma two_field_call method v ea fa r epoch fraction zone e :
  pair_row v ea fa r epoch fraction →
  ∃ s us, two_fields method (Some ea) (Some fa) r zone e = py_call (Context method) ([PyLong s; PyLong us] ++ zone) e ∧
    s * 10 ^ 6 + us = micros (epoch * 10 ^ 9 + fraction) 9.
Proof.
  intros (_ & He & Hf & Hr). exists epoch, (Z.quot fraction 1000). split.
  - unfold two_fields, get_int, get_field, cbind. cbn [mbind option_bind]. rewrite He. cbn [cderef]. unfold cret. by rewrite Hf.
  - rewrite micros_fine by lia. rewrite Z.quot_div_nonneg by lia. change (10 ^ (9 - 6)) with 1000.
    replace (epoch * 10 ^ 9 + fraction) with (epoch * 10 ^ 6 * 1000 + fraction) by lia. by rewrite Z.div_add_l by lia.
Qed.
Lemma not_null v r m e : ArrowArrayViewIsNull v r = Some false → unless_null v r m e = m e.
Proof. intros Hnull. unfold unless_null, cbind. by rewrite Hnull. Qed.
Lemma zone_value tz r minutes e :
  zone_row tz r minutes → get_int (Some tz) r e = Done minutes e ∧ i32 minutes = minutes.
Proof.
  intros [Hget Hm]. split; [|by apply i32_small]. unfold get_int, get_field. cbn [mbind option_bind]. by rewrite Hget.
Qed.

(** C30.  A timestamp, stored in one field of any scale or as an epoch with a
    fraction, becomes a call of the method of the context with seconds and
    microseconds whose sum is the timestamp rounded down to microseconds, and
    with the time zone when the type has one. *)
Theorem timestamp_object (r : Z) (c : converter) (method : string) (scale z : Z) (zone : option Z)
    (e : option py_error) (Hc : timestamp_row r c method scale z zone) :
  ∃ s us, toPyObject c r e = py_call (Context method) ([PyLong s; PyLong us] ++ zone_args zone) e ∧
    s * 10 ^ 6 + us = micros z scale.
Proof.
  destruct Hc as [v scale z [Hn Hg]|v scale z [Hn Hg]|v ea fa epoch fraction Hp|v ea fa epoch fraction Hp
    |v ea tz scale z minutes Hn Hg Hs Hz|v ea fa tz epoch fraction minutes Hp Hz]; cbn [toPyObject];
    unfold OneFieldTimeStampNTZConverter_toPyObject, OneFieldTimeStampLTZConverter_toPyObject,
      TwoFieldTimeStampNTZConverter_toPyObject, TwoFieldTimeStampLTZConverter_toPyObject,
      TwoFieldTimeStampTZConverter_toPyObject, ThreeFieldTimeStampTZConverter_toPyObject;
    rewrite not_null by (done || apply Hp).
  - by apply one_field_call.
  - by apply one_field_call.
  - by apply (two_field_call _ v).
  - by apply (two_field_call _ v).
  - destruct (zone_value tz r minutes e Hz) as [Hget Hi]. rewrite (cbind_done _ _ _ _ _ Hget), Hi. by apply one_field_call.
  - destruct (zone_value tz r minutes e Hz) as [Hget Hi]. rewrite (cbind_done _ _ _ _ _ Hget), Hi. by apply (two_field_call _ v).
Qed.
End times.

(** ** Examples *)
#[local] Instance example_python : Python :=
  {| call _ _ := Some (PyOther 0); valid_utf8 _ := true; set_item d k v := Some (d ++ [(k, v)]) |}.
Definition int_items (l : list Z) : ArrowArrayView :=
  MkArrayView 0 (zlen l) 0 NANOARROW_TYPE_INT64 (ArrowLayoutInit NANOARROW_TYPE_INT64)
    [MkView None 0; MkView (Some (concat (le_bytes 8 <$> l))) (8 * zlen l); MkView None 0] 0 None None None.
Definition list_view (offsets items : list Z) : ArrowArrayView :=
  MkArrayView 0 (zlen offsets - 1) 0 NANOARROW_TYPE_LIST (ArrowLayoutInit NANOARROW_TYPE_LIST)
    [MkView None 0; MkView (Some (concat (le_bytes 4 <$> offsets))) (4 * zlen offsets); MkView None 0] 1
    (Some [Some (int_items items)]) None None.

Lemma array_rows_witness :
  toPyObject (ArrayConverter (list_view [0; 2; 3] [7; 8; 9]) (Some (IntConverter (int_items [7; 8; 9])))) (Z.of_nat 1) None =
    Done (Some (PyList [Some (PyLong 9)])) None.
Proof.
  apply (array_rows (list_view [0; 2; 3] [7; 8; 9]) (int_items [7; 8; 9]) [0; 2; 3] _
    [Some (PyLong 7); Some (PyLong 8); Some (PyLong 9)] 1 2 3 None); try reflexivity.
  - split; [reflexivity|reflexivity| |reflexivity| |by vm_compute].
    + intros [|[|[|r]]] z Hz; try discriminate Hz; injection Hz as <-; reflexivity.
    + intros [|[|[|r]]] y z Hy Hz; try discriminate Hz; injection Hy as <-; injection Hz as <-; lia.
  - intros [|[|[|i]]] x e Hx; try discriminate Hx; injection Hx as <-; reflexivity.
Defined.
(** Items after the last list are given to the last row; a list of a fixed size
    is as long as the items divided by the rows. *)
Theorem last_row_takes_the_rest :
  toPyObject (ArrayConverter (list_view [0; 2; 3] [7; 8; 9; 10]) (Some (IntConverter (int_items [7; 8; 9; 10])))) 1 None =
    Done (Some (PyList [Some (PyLong 9); Some (PyLong 10)])) None.
Proof. vm_compute. reflexivity. Qed.
Lemma time_object_witness :
  ∃ h m s us, toPyObject (TimeConverter (int_items [86399999999999]) 9) 0 None =
      py_call datetime_time [PyLong h; PyLong m; PyLong s; PyLong us] None ∧
    0 <= h < 24 ∧ 0 <= m < 60 ∧ 0 <= s < 60 ∧ 0 <= us < 1000000 ∧
    ((h * 60 + m) * 60 + s) * 10 ^ 6 + us = micros 86399999999999 9.
Proof. apply (time_object (int_items [86399999999999]) 9 0 86399999999999); [lia|lia|split; reflexivity]. Defined.
Lemma timestamp_object_witness :
  ∃ s us, toPyObject (ThreeFieldTimeStampTZConverter (int_items [0]) (Some (int_items [-1])) (Some (int_items [999999999]))
      (Some (int_items [1440]))) 0 None =
      py_call (Context "TIMESTAMP_TZ_to_python") [PyLong s; PyLong us; PyLong 1440] None ∧
    s * 10 ^ 6 + us = micros (-1 * 10 ^ 9 + 999999999) 9.
Proof.
  apply (timestamp_object 0 (ThreeFieldTimeStampTZConverter (int_items [0]) (Some (int_items [-1]))
    (Some (int_items [999999999])) (Some (int_items [1440])))
    "TIMESTAMP_TZ_to_python" 9 (-1 * 10 ^ 9 + 999999999) (Some 1440)).
  apply tz_three; [split_and!; [reflexivity|reflexivity|reflexivity|lia|lia]|split; [reflexivity|width]].
Defined.
