(* ===== verification/ChunkIterator.v ===== *)
(** * The iterator over rows (CArrowChunkIterator.cpp)

    [next] gives the rows of the record batches one after the other, as tuples,
    or as dictionaries in the derived class.  At the first row of a batch the
    converters of its columns are made anew.  The iterator gives every row, or the
    exception of its conversion, once and in order, when no batch is empty. *)

From Stdlib Require Import Ascii.
From stdpp Require Import base numbers list option strings.
From S2P Require Import Prelude CInt CString Float Buffer Bits Bitmap Types Metadata Schema SchemaView.
From S2P Require Import ArrayView Decimal Cpp Double Convert PyConverters.
#[local] Open Scope Z_scope.
#[local] Open Scope cpp_scope.

Module ChunkIterator.

(** ** State *)

(** What the base class has read, and what the constructors have set. *)
Record source : Set := MkSource {
  m_ipcArrowSchema : members;
  m_ipcArrowArrayVec : list ArrowArray;
  m_ipcArrowArrayViewVec : list ArrowArrayView;
  m_useNumpy : bool;
  m_checkErrorOnEveryColumn : bool;
  dictionaries : bool;        (* [DictCArrowChunkIterator] *)
}.
Definition m_batchCount (c : source) : Z := i32 (zlen (m_ipcArrowArrayVec c)).
Definition m_columnCount (c : source) : Z :=
  if 0 <? m_batchCount c then i32 (n_children (m_ipcArrowSchema c)) else 0.
Record state : Set := MkState {
  indicator : option py_error;
  m_currentBatchIndex : Z;
  m_rowIndexInBatch : Z;
  m_rowCountInBatch : Z;
  m_latestReturnedRow : option PyObject;
  m_currentBatchConverters : list (option converter);
}.
(** The constructor, when reading the batches set no error. *)
Definition init : state := MkState None (-1) (-1) 0 None [].
Definition set_row_index (i : Z) (t : state) : state :=
  MkState (indicator t) (m_currentBatchIndex t) i (m_rowCountInBatch t) (m_latestReturnedRow t)
    (m_currentBatchConverters t).
Definition set_batch_index (i : Z) (t : state) : state :=
  MkState (indicator t) i (m_rowIndexInBatch t) (m_rowCountInBatch t) (m_latestReturnedRow t)
    (m_currentBatchConverters t).
Definition set_row_count (n : Z) (t : state) : state :=
  MkState (indicator t) (m_currentBatchIndex t) (m_rowIndexInBatch t) n (m_latestReturnedRow t)
    (m_currentBatchConverters t).
Definition set_row (o : option PyObject) (t : state) : state :=
  MkState (indicator t) (m_currentBatchIndex t) (m_rowIndexInBatch t) (m_rowCountInBatch t) o
    (m_currentBatchConverters t).
Definition set_converters (l : list (option converter)) (t : state) : state :=
  MkState (indicator t) (m_currentBatchIndex t) (m_rowIndexInBatch t) (m_rowCountInBatch t)
    (m_latestReturnedRow t) l.
Definition set_indicator_of (p : option py_error) (t : state) : state :=
  MkState p (m_currentBatchIndex t) (m_rowIndexInBatch t) (m_rowCountInBatch t) (m_latestReturnedRow t)
    (m_currentBatchConverters t).
Definition with_indicator {A} (m : PM A) : CM state A := λ t,
  match m (indicator t) with
  | Done a p => Done a (set_indicator_of p t)
  | Return e p => Return e (set_indicator_of p t)
  | Throw x p => Throw x (set_indicator_of p t)
  | Undefined => Undefined
  end.

Record ReturnVal : Set := MkReturn { successObj : option PyObject; exception : option py_error }.

Section next.
Context `{!Python} (c : source).

(** ** Rows *)

(** The slots of a tuple; after an error the rest stays NULL. *)
Fixpoint tuple_slots (converters : list (option converter)) (rowIndex : Z) (idx : list Z) :
    PM (list (option PyObject)) :=
  match idx with
  | [] => cret []
  | i :: idx' =>
      let! conv := cderef (znth converters i) in
      let! o := through toPyObject conv rowIndex in
      let! error := cget id in
      match error with
      | Some _ =>
          if m_checkErrorOnEveryColumn c then cret (o :: replicate (List.length idx') None)
          else let! os := tuple_slots converters rowIndex idx' in cret (o :: os)
      | None => let! os := tuple_slots converters rowIndex idx' in cret (o :: os)
      end
  end.
Fixpoint dict_items (converters : list (option converter)) (rowIndex : Z) (idx : list Z)
    (dict : list (PyObject * PyObject)) : PM (list (PyObject * PyObject)) :=
  match idx with
  | [] => cret dict
  | i :: idx' =>
      let! conv := cderef (znth converters i) in
      let! value := through toPyObject conv rowIndex in
      let! dict' :=
        match value with
        | None => cret dict
        | Some _ =>
            let! child := cderef (child_members (m_ipcArrowSchema c) i) in
            PyDict_SetItemString dict (name child) value
        end in
      dict_items converters rowIndex idx' dict'
  end.
Definition row_object (converters : list (option converter)) (rowIndex : Z) : PM PyObject :=
  if dictionaries c then
    let! dict := dict_items converters rowIndex (zseq (n_children (m_ipcArrowSchema c))) [] in
    cret (PyDict dict)
  else
    let! slots := tuple_slots converters rowIndex (zseq (m_columnCount c)) in
    cret (PyTuple slots).
Definition createRowPyObject : CM state unit :=
  let! t := cget id in
  let! o := with_indicator (row_object (m_currentBatchConverters t) (m_rowIndexInBatch t)) in
  cmod (set_row (Some o)).

(** The converters of the columns of a batch are made one after the other; an
    exception leaves those made so far. *)
Fixpoint push_converters (idx : list Z) : CM state unit :=
  match idx with
  | [] => cret tt
  | i :: idx' =>
      let! t := cget id in
      let! columnSchema := cderef (child_members (m_ipcArrowSchema c) i) in
      let! view := cderef (znth (m_ipcArrowArrayViewVec c) (m_currentBatchIndex t)) in
      let! array := cderef (view_child view i) in
      let! conv := with_indicator (getConverterFromSchema (m_useNumpy c) array columnSchema) in
      cmod (λ t, set_converters (m_currentBatchConverters t ++ [conv]) t) ;;!
      push_converters idx'
  end.
Definition initColumnConverters : CM state unit :=
  cmod (set_converters []) ;;!
  push_converters (zseq (n_children (m_ipcArrowSchema c))).

(** [SF_CHECK_PYTHON_ERR()]: an error is taken out of the indicator and returned;
    [k] is the rest of the function. *)
Definition check_python_err (k : CM state ReturnVal) : CM state ReturnVal :=
  let! error := cget indicator in
  match error with
  | Some p => cmod (set_indicator_of None) ;;! cret (MkReturn None (Some p))
  | None => k
  end.
Definition return_row : CM state ReturnVal :=
  let! row := cget m_latestReturnedRow in
  cret (MkReturn row None).
Definition batch_rows (a : ArrowArray) : option Z :=
  match a with ArrayLive m => Some (array_length m) | ArrayReleased => None end.

Definition next : CM state ReturnVal :=
  let! t := cget id in
  let! row := cderef (int32 (m_rowIndexInBatch t + 1)) in
  cmod (set_row_index row) ;;!
  if row <? m_rowCountInBatch t then
    createRowPyObject ;;!
    check_python_err return_row
  else
    check_python_err (
      let! batch := cderef (int32 (m_currentBatchIndex t + 1)) in
      cmod (set_batch_index batch) ;;!
      if batch <? m_batchCount c then
        cmod (set_row_index 0) ;;!
        let! a := cderef (znth (m_ipcArrowArrayVec c) batch) in
        let! count := cderef (batch_rows a) in
        cmod (set_row_count count) ;;!
        initColumnConverters ;;!
        check_python_err (
          createRowPyObject ;;!
          check_python_err return_row)
      else cret (MkReturn (Some PyNone) None)).
End next.

(** Several calls. *)
Fixpoint calls `{!Python} (c : source) (n : nat) (t : state) : cpp state (list ReturnVal) :=
  match n with
  | O => Done [] t
  | S n' => (let! r := next c in let! rs := calls c n' in cret (r :: rs)) t
  end.

(** ** Every row once, in order *)

(** What comes of a row: an object, or the error that a conversion left. *)
Abbreviation row_result := (py_error + PyObject)%type.

Section order.
Context `{!Python} (c : source).

(** The converters of a batch, when all of them can be made. *)
Definition makes (view : ArrowArrayView) (convs : list (option converter)) : Prop :=
  Forall2 (λ i conv, ∃ columnSchema array, child_members (m_ipcArrowSchema c) i = Some columnSchema ∧
      view_child view i = Some array ∧ getConverterFromSchema (m_useNumpy c) array columnSchema None = Done conv None)
    (zseq (n_children (m_ipcArrowSchema c))) convs.
Definition gives_row (convs : list (option converter)) (r : Z) (x : row_result) : Prop :=
  match x with
  | inr o => row_object c convs r None = Done o None
  | inl p => ∃ o, row_object c convs r None = Done o (Some p)
  end.
(** Batch [b] has the rows [os]: its converters can be made, and give them. *)
Record batch_gives (b : nat) (os : list row_result) : Prop := {
  batch_view : ∃ view convs, m_ipcArrowArrayViewVec c !! b = Some view ∧
    makes view convs ∧
    ∀ r x, os !! r = Some x → gives_row convs (Z.of_nat r) x;
  batch_array : ∃ a, m_ipcArrowArrayVec c !! b = Some (ArrayLive a) ∧ array_length a = zlen os;
}.
Context (batches : list (list row_result)).
Context (Hbatches : ∀ b os, batches !! b = Some os → batch_gives b os ∧ os ≠ []).
Context (Hcount : List.length (m_ipcArrowArrayVec c) = List.length batches).

(** After [n] calls: [os] is left of the current batch, and the batches from [b]
    on. *)
Record pending (n : Z) (b : nat) (os : list row_result) (t : state) : Prop := {
  pending_indicator : indicator t = None;
  pending_batch : m_currentBatchIndex t = Z.of_nat b - 1;
  pending_batches : Z.of_nat b <= n;
  pending_row : -1 <= m_rowIndexInBatch t <= n - 1;
  pending_count : match os with
    | [] => m_rowCountInBatch t <= m_rowIndexInBatch t + 1
    | _ => m_rowCountInBatch t = m_rowIndexInBatch t + 1 + zlen os
    end;
  pending_rows : ∀ j x, os !! j = Some x →
    gives_row (m_currentBatchConverters t) (m_rowIndexInBatch t + 1 + Z.of_nat j) x;
}.
Definition row (x : row_result) : ReturnVal :=
  match x with inr o => MkReturn (Some o) None | inl p => MkReturn None (Some p) end.

Lemma create_row_done t x :
  indicator t = None → gives_row (m_currentBatchConverters t) (m_rowIndexInBatch t) x →
  ∃ o, (createRowPyObject c ;;! check_python_err return_row) t = Done (row x) (set_row (Some o) t).
Proof.
  intros Hind Hrow. unfold createRowPyObject, check_python_err, return_row, with_indicator, cbind, cget, cmod, id.
  destruct t as [ind ? ? ? ? ?]. simpl in Hind. subst ind.
  destruct x as [p|o]; [destruct Hrow as [o Hrow]|]; exists o; cbn in Hrow |- *; by rewrite Hrow.
Qed.
Lemma next_in_batch n b o os t :
  pending n b (o :: os) t → n < INT32_MAX → ∃ t', next c t = Done (row o) t' ∧ pending (n + 1) b os t'.
Proof.
  intros [Hind Hb Hbn Hrow Hcnt Hrows] Hn. pose proof (zlen_nonneg os).
  set (t1 := set_row_index (m_rowIndexInBatch t + 1) t).
  destruct (create_row_done t1 o Hind) as [obj Hdone].
  { specialize (Hrows 0%nat o eq_refl). by rewrite Z.add_0_r in Hrows. }
  exists (set_row (Some obj) t1). split.
  - unfold next. unfold cbind at 1, cget, id. rewrite int32_in by width. unfold cbind at 1, cderef, cret.
    unfold cbind at 1, cmod. fold t1. rewrite Hcnt, zlen_cons.
    destruct (Z.ltb_spec (m_rowIndexInBatch t + 1) (m_rowIndexInBatch t + 1 + (1 + zlen os))); [|lia].
    exact Hdone.
  - split; simpl; [done|done|lia|lia| |].
    + rewrite zlen_cons in Hcnt. destruct os; [change (zlen (@nil row_result)) with 0 in *; lia|lia].
    + intros j o' Hj. specialize (Hrows (S j) o' Hj). by replace (_ + 1 + Z.of_nat j) with (m_rowIndexInBatch t + 1 + Z.of_nat (S j)) by lia.
Qed.
(** The end of a batch: past its rows the indicator is looked at, and the next
    batch begins. *)
Lemma next_past_batch n b t :
  pending n b [] t → n < INT32_MAX →
  next c t = (if Z.of_nat b <? m_batchCount c then
    cmod (set_row_index 0) ;;!
    let! a := cderef (znth (m_ipcArrowArrayVec c) (Z.of_nat b)) in
    let! count := cderef (batch_rows a) in
    cmod (set_row_count count) ;;!
    initColumnConverters c ;;!
    check_python_err (createRowPyObject c ;;! check_python_err return_row)
  else cret (MkReturn (Some PyNone) None))
    (set_batch_index (Z.of_nat b) (set_row_index (m_rowIndexInBatch t + 1) t)).
Proof.
  intros [Hind Hb Hbn Hrow Hcnt _] Hn. unfold next. unfold cbind at 1, cget, id. rewrite int32_in by width.
  unfold cbind at 1, cderef at 1, cret at 1. unfold cbind at 1, cmod at 1.
  destruct (Z.ltb_spec (m_rowIndexInBatch t + 1) (m_rowCountInBatch t)); [lia|].
  unfold check_python_err at 1. unfold cbind at 1, cget. cbn [indicator set_row_index]. rewrite Hind, Hb.
  replace (Z.of_nat b - 1 + 1) with (Z.of_nat b) by lia. by rewrite int32_in by width.
Qed.
Lemma batch_count : zlen batches <= INT32_MAX → m_batchCount c = zlen batches.
Proof. intros Hn. unfold m_batchCount, zlen in *. rewrite Hcount. apply i32_small. width. Qed.
Lemma push_converters_done b view t idx convs :
  m_ipcArrowArrayViewVec c !! b = Some view → indicator t = None → m_currentBatchIndex t = Z.of_nat b →
  Forall2 (λ i conv, ∃ columnSchema array, child_members (m_ipcArrowSchema c) i = Some columnSchema ∧
      view_child view i = Some array ∧ getConverterFromSchema (m_useNumpy c) array columnSchema None = Done conv None)
    idx convs →
  push_converters c idx t = Done tt (set_converters (m_currentBatchConverters t ++ convs) t).
Proof.
  intros Hview Hind Hb Hall. revert t Hind Hb.
  induction Hall as [|i conv idx convs (s & array & Hs & Ha & Hconv) _ IH]; intros t Hind Hb.
  { rewrite app_nil_r. by destruct t. }
  cbn [push_converters]. unfold cbind at 1, cget, id. rewrite Hs, Hb, znth_of_nat, Hview.
  do 2 unfold cbind at 1, cderef at 1, cret at 1. rewrite Ha. unfold cbind at 1, cderef at 1, cret at 1.
  unfold cbind at 1, with_indicator. rewrite Hind, Hconv. unfold cbind at 1, cmod.
  rewrite IH by done. destruct t. simpl in Hind. subst. cbn. by rewrite <-app_assoc.
Qed.
Lemma init_converters_done b view convs t :
  m_ipcArrowArrayViewVec c !! b = Some view → makes view convs → indicator t = None → m_currentBatchIndex t = Z.of_nat b →
  initColumnConverters c t = Done tt (set_converters convs t).
Proof. intros Hview Hmake Hind Hb. by apply (push_converters_done b view (set_converters [] t)). Qed.
Lemma next_new_batch n b o os t :
  pending n b [] t → n < INT32_MAX → zlen batches <= INT32_MAX → batches !! b = Some (o :: os) →
  ∃ t', next c t = Done (row o) t' ∧ pending (n + 1) (S b) os t'.
Proof.
  intros Hp Hn Hlen Hb. destruct (Hbatches b _ Hb) as [[(view & convs & Hview & Hmake & Hrows) (a & Ha & Hal)] _].
  rewrite (next_past_batch n b t Hp Hn), (batch_count Hlen). destruct Hp as [Hind Hbi Hbn Hrow _ _].
  pose proof (lookup_lt_Some _ _ _ Hb). destruct (Z.ltb_spec (Z.of_nat b) (zlen batches)); [|unfold zlen in *; lia].
  pose proof (zlen_nonneg os).
  set (t1 := set_converters convs (set_row_count (zlen (o :: os)) (set_row_index 0
    (set_batch_index (Z.of_nat b) (set_row_index (m_rowIndexInBatch t + 1) t))))).
  destruct (create_row_done t1 o Hind) as [obj Hdone]; [by apply (Hrows 0%nat)|].
  exists (set_row (Some obj) t1). split.
  - unfold cbind at 1, cmod at 1. rewrite !znth_of_nat, Ha. unfold cbind at 1, cderef at 1, cret at 1. cbn [batch_rows].
    rewrite Hal. unfold cbind at 1, cderef at 1, cret at 1. unfold cbind at 1, cmod at 1.
    erewrite (cbind_done _ _ _ _ _ (init_converters_done b view convs (set_row_count (zlen (o :: os)) (set_row_index 0
      (set_batch_index (Z.of_nat b) (set_row_index (m_rowIndexInBatch t + 1) t)))) Hview Hmake Hind eq_refl)). fold t1.
    assert (∀ k, check_python_err k t1 = k t1) as Hcheck by (intros k; unfold check_python_err, cbind, cget; simpl; by rewrite Hind).
    rewrite Hcheck. exact Hdone.
  - split; simpl; [done|lia|lia|lia| |].
    + rewrite zlen_cons. destruct os; [change (zlen (@nil row_result)) with 0|]; lia.
    + intros j o' Hj. specialize (Hrows (S j) o' Hj). by replace (0 + 1 + Z.of_nat j) with (Z.of_nat (S j)) by lia.
Qed.
Lemma next_at_end n b t :
  pending n b [] t → n < INT32_MAX → zlen batches <= INT32_MAX → batches !! b = None →
  ∃ t', next c t = Done (row (inr PyNone)) t' ∧ pending (n + 1) (S b) [] t'.
Proof.
  intros Hp Hn Hlen Hb. rewrite (next_past_batch n b t Hp Hn), (batch_count Hlen).
  destruct Hp as [Hind Hbi Hbn Hrow Hcnt Hrows]. apply lookup_ge_None in Hb.
  destruct (Z.ltb_spec (Z.of_nat b) (zlen batches)); [unfold zlen in *; lia|].
  eexists. split; [done|]. split; simpl; [done|lia|lia|lia|lia|done].
Qed.
(** All calls: the rest of the batch, the rest of the batches, and [None]s. *)
Lemma calls_pending k : ∀ n b os t,
  pending n b os t → n + Z.of_nat (List.length os + List.length (concat (drop b batches)) + k) <= INT32_MAX →
  zlen batches <= INT32_MAX →
  ∃ t', calls c (List.length os + List.length (concat (drop b batches)) + k) t =
    Done ((row <$> os ++ concat (drop b batches)) ++ replicate k (row (inr PyNone))) t'.
Proof.
  intros n b os. remember (List.length os + List.length (concat (drop b batches)) + k)%nat as m eqn:Hm.
  revert k n b os Hm. induction m as [|m IH]; intros k n b os Hm t Hp Hn Hlen.
  { destruct os; [|done]. simpl in Hm. destruct (concat (drop b batches)); [|done]. destruct k; [|done]. by exists t. }
  assert (∀ o t1 rest k', next c t = Done (row o) t1 → (∃ t', calls c m t1 = Done ((row <$> rest) ++ replicate k' (row (inr PyNone))) t') →
    ∃ t', calls c (S m) t = Done ((row <$> o :: rest) ++ replicate k' (row (inr PyNone))) t') as Hstep.
  { intros o t1 rest k' Hnext (t' & Hcalls). exists t'. cbn [calls]. unfold cbind at 1. rewrite Hnext.
    unfold cbind. by rewrite Hcalls. }
  destruct os as [|o os].
  2:{ destruct (next_in_batch n b o os t Hp ltac:(lia)) as (t1 & Hnext & Hp1).
      apply (Hstep o t1 (os ++ concat (drop b batches)) k Hnext). apply (IH k (n + 1) b os); [simpl in Hm; lia|done|lia|done]. }
  destruct (batches !! b) as [os|] eqn:Eb.
  - destruct (Hbatches b os Eb) as [_ Hne]. destruct os as [|o os]; [done|].
    destruct (next_new_batch n b o os t Hp ltac:(lia) Hlen Eb) as (t1 & Hnext & Hp1).
    rewrite (drop_S _ _ _ Eb) in *. cbn [concat app] in *.
    apply (Hstep o t1 (os ++ concat (drop (S b) batches)) k Hnext).
    apply (IH k (n + 1) (S b) os); [simpl in Hm; rewrite length_app in Hm; lia|done|lia|done].
  - destruct (next_at_end n b t Hp ltac:(lia) Hlen Eb) as (t1 & Hnext & Hp1).
    apply lookup_ge_None in Eb. rewrite !drop_ge in * by lia. destruct k as [|k]; [done|].
    assert (∃ t', calls c m t1 = Done (replicate k (row (inr PyNone))) t') as (t' & Hcalls).
    { destruct (IH k (n + 1) (S b) [] ltac:(rewrite drop_ge by lia; simpl in Hm |- *; lia) t1 Hp1 ltac:(lia) Hlen) as (t' & Ht').
      exists t'. rewrite drop_ge in Ht' by lia. exact Ht'. }
    exists t'. cbn [calls]. unfold cbind at 1. rewrite Hnext. unfold cbind. by rewrite Hcalls.
Qed.
Lemma batches_le : (List.length batches <= List.length (concat batches))%nat.
Proof. apply length_concat_ne, Forall_lookup. intros b os Hb. by apply Hbatches in Hb as [_ Hb]. Qed.
End order.

(** C8.  When no batch is empty and its converters can be made, the calls of
    [next] give what comes of the rows of all batches, one at a time and in order:
    the tuple or dictionary, or the exception of a row that could not be
    converted, after which the iteration goes on with the row behind it; and then
    [None] at every further call.  The number of calls is bounded by the [int]
    counters. *)
Theorem rows_in_order (python : Python) (c : source) (batches : list (list row_result)) (k : nat)
    (Hbatches : ∀ b os, batches !! b = Some os → batch_gives c b os ∧ os ≠ [])
    (Hcount : List.length (m_ipcArrowArrayVec c) = List.length batches)
    (Hbound : zlen (concat batches) + Z.of_nat k <= INT32_MAX) :
  ∃ t', calls c (List.length (concat batches) + k) init =
    Done ((row <$> concat batches) ++ replicate k (row (inr PyNone))) t'.
Proof.
  pose proof (batches_le c batches Hbatches) as Hle. unfold zlen in Hbound.
  apply (calls_pending c batches Hbatches Hcount k 0 0 [] init); [|rewrite drop_0; cbn [List.length plus]; lia|unfold zlen; lia].
  split; simpl; [done|done|lia|lia|lia|done].
Qed.

(** *** Examples *)

(** A Python whose functions return a fixed object and raise nothing. *)
#[local] Instance example_python : Python :=
  {| call _ _ := Some (PyOther 0); valid_utf8 _ := true; set_item d k v := Some (d ++ [(k, v)]) |}.
Definition number_field : members :=
  MkMembers (Some "l"%string) (Some "n"%string) (Some (encode [(bytes_of_string "logicalType", bytes_of_string "FIXED");
    (bytes_of_string "scale", bytes_of_string "0"); (bytes_of_string "precision", bytes_of_string "38")])) 2 0 None None.
Definition table_schema : members :=
  MkMembers (Some "+s"%string) (Some ""%string) None 0 1 (Some [Some (SchemaLive number_field)]) None.
Definition number_view (l : list Z) : ArrowArrayView :=
  MkArrayView 0 (zlen l) 0 NANOARROW_TYPE_INT64 (ArrowLayoutInit NANOARROW_TYPE_INT64)
    [MkView None 0; MkView (Some (concat (le_bytes 8 <$> l))) (8 * zlen l); MkView None 0] 0 None None None.
Definition batch_of (l : list Z) : ArrowArrayView :=
  MkArrayView 0 (zlen l) 0 NANOARROW_TYPE_STRUCT (ArrowLayoutInit NANOARROW_TYPE_STRUCT)
    [MkView None 0; MkView None 0; MkView None 0] 1 (Some [Some (number_view l)]) None None.
Definition rows_of (l : list Z) : ArrowArray := ArrayLive (MkArray (zlen l) 0 0 1 0 [None] None None None).
Definition source_of (bs : list (list Z)) : source :=
  MkSource table_schema (rows_of <$> bs) (batch_of <$> bs) false false false.

(** With a Python that rejects negative numbers. *)
Definition picky_python : Python := {|
  call _ args := match args with PyLong z :: _ => if z <? 0 then None else Some (PyOther z) | _ => None end;
  valid_utf8 _ := true; set_item d k v := Some (d ++ [(k, v)]) |}.
Definition numpy_source : source :=
  MkSource table_schema [rows_of [1; -2]; rows_of [3]] [batch_of [1; -2]; batch_of [3]] true true false.
Definition numpy_tuple (z : Z) : row_result := inr (PyTuple [Some (PyOther z)]).
Lemma numpy_makes l : makes numpy_source (batch_of l) [Some (NumpyIntConverter (number_view l))].
Proof.
  refine (_ : Forall2 _ [0] _). constructor; [|constructor].
  exists number_field, (number_view l). split_and!; [reflexivity|reflexivity|vm_compute; reflexivity].
Qed.
Lemma rows_in_order_witness :
  ∃ t', @calls picky_python numpy_source 5 init =
    Done [row (numpy_tuple 1); row (inl Raised); row (numpy_tuple 3); row (inr PyNone); row (inr PyNone)] t'.
Proof.
  apply (rows_in_order picky_python numpy_source [[numpy_tuple 1; inl Raised]; [numpy_tuple 3]] 2).
  - intros [|[|b]] os Hos; [| |discriminate Hos]; injection Hos as <-; (split; [|discriminate]); split.
    + do 2 eexists. split; [reflexivity|]. split; [apply numpy_makes|].
      intros [|[|r]] x Hx; [| |discriminate Hx]; injection Hx as <-; [vm_compute; reflexivity|eexists; vm_compute; reflexivity].
    + eexists. split; reflexivity.
    + do 2 eexists. split; [reflexivity|]. split; [apply numpy_makes|].
      intros [|r] x Hx; [|discriminate Hx]; injection Hx as <-; vm_compute; reflexivity.
    + eexists. split; reflexivity.
  - reflexivity.
  - vm_compute. discriminate.
Defined.

(** A batch without rows: its first row is read all the same. *)
Theorem empty_batch_read : next (source_of [[]; [1]]) init = Undefined.
Proof. vm_compute. reflexivity. Qed.
(** When a converter could not be made the first call returns the error; the
    second one uses the missing converter. *)
Definition bad_source : source :=
  MkSource (MkMembers (Some "+s"%string) (Some ""%string) None 0 1 (Some [Some (SchemaLive (
      MkMembers (Some "l"%string) (Some "n"%string) (Some (encode [(bytes_of_string "logicalType", bytes_of_string "TIMESTAMP")]))
        2 0 None None))]) None)
    [rows_of [1; 2]] [batch_of [1; 2]] false false false.
Theorem next_after_error :
  match next bad_source init with
  | Done r t => r = MkReturn None (Some Message) ∧ next bad_source t = Undefined
  | _ => False
  end.
Proof. vm_compute. split; reflexivity. Qed.
End ChunkIterator.
