(* ===== verification/TableRows.v ===== *)
(** * From stored cells to Python rows

    A table as its columns describe it and as Python sees it.  A cell is a number,
    a double, a text or the bytes of a decimal ([cell]); [python_object] says which
    object the cell of a column of a logical type is, without converters, views or
    buffers, and [python_row] what comes of a row.  The theorem at the end composes the schema metadata
    (Metadata.v), the choice of the class ([getConverterFromSchema]), the
    conversion of a row ([toPyObject]) and the iterator ([ChunkIterator.next]).
    Columns with columns inside are left to PyRows.v.

    What a view shows is not assumed of arrays that were built: [built_shows]. *)

From Stdlib Require Import Ascii.
From stdpp Require Import base numbers list option strings.
From S2P Require Import Prelude CInt CString Float Buffer Bits Bitmap Types Metadata Schema SchemaView.
From S2P Require Import ArrayView Array ArrayBuild Decimal Cpp Double Convert ConvertSpec ConvertTable PyConverters PyRows ChunkIterator.
#[local] Open Scope Z_scope.
#[local] Open Scope cpp_scope.

Module TableRows.

(** ** Cells *)
Inductive cell : Set :=
  | Number (z : Z) | Real (bits : Z) | Text (l : list Z) | Decimal128 (l : list Z).

(** Row [i] of the view of a column is a null or the cell. *)
Definition shows_cell (v : ArrowArrayView) (i : Z) (o : option cell) : Prop :=
  match o with
  | None => ArrowArrayViewIsNull v i = Some true
  | Some x =>
      ArrowArrayViewIsNull v i = Some false ∧
      match x with
      | Number z => ArrowArrayViewGetIntUnsafe v i = Some z
      | Real bits => ArrowArrayViewGetDoubleUnsafe v i = Some bits
      | Text l => ∃ s, ArrowArrayViewGetStringUnsafe v i = Some s ∧ view_bytes s = Some l
      | Decimal128 l => (d ← buffer_data v 1; zslice d (16 * (offset v + i)) 16) = Some l
      end
  end.

(** *** Cells of built arrays *)

(** The cell that is stored in a block of bytes. *)
Definition decode (st : ArrowType) (b : list Z) : option cell :=
  match st with
  | NANOARROW_TYPE_INT8 | NANOARROW_TYPE_INT16 | NANOARROW_TYPE_INT32 | NANOARROW_TYPE_INT64 =>
      Some (Number (swrap (8 * zlen b) (le_val b)))
  | NANOARROW_TYPE_UINT8 | NANOARROW_TYPE_UINT16 | NANOARROW_TYPE_UINT32 => Some (Number (le_val b))
  | NANOARROW_TYPE_BOOL => Some (Number (if bool_decide (b = [1]) then 1 else 0))
  | NANOARROW_TYPE_DOUBLE => Some (Real (le_val b))
  | NANOARROW_TYPE_STRING | NANOARROW_TYPE_BINARY | NANOARROW_TYPE_LARGE_STRING
  | NANOARROW_TYPE_LARGE_BINARY | NANOARROW_TYPE_FIXED_SIZE_BINARY => Some (Text b)
  | NANOARROW_TYPE_DECIMAL128 => Some (Decimal128 b)
  | _ => None
  end.

Lemma shows_view_bytes s d : shows s d → view_bytes s = Some d.
Proof.
  intros [Hsize Hdata]. unfold view_bytes. rewrite Hsize. destruct (view_data s) as [m|].
  - destruct Hdata as [post ->]. pose proof (zlen_nonneg d). pose proof (zlen_nonneg post).
    rewrite zslice_in by (rewrite ?zlen_app; lia). unfold zlen. by rewrite Nat2Z.id, drop_0, take_app_length.
  - by subst d.
Qed.
(** The view of a built array shows the elements that were appended. *)
Theorem built_shows `{!Malloc} (st : ArrowType) (k : col_kind) (l : column) (a : array) (s0 s : mstate)
    (v0 v : ArrowArrayView) (i : nat) (o : option (list Z)) (Hst : storage_kind st k) (Ha : repr st k l a)
    (Hsmall : small k l) (Hview : ArrowArrayViewInitFromArray (ArrayLive a) (s0, v0) = Ok tt (s, v))
    (Hi : l !! i = Some o) (Ho : ∀ b, o = Some b → decode st b ≠ None) :
  shows_cell v (Z.of_nat i) (b ← o; decode st b).
Proof.
  destruct Ha as [lay flag nb ptrs bm b1 b2 Ht Hs Hv Hd Hl]. apply view_init_flat in Hview.
  assert (before st lay k l bm b1 b2) as Hb by done.
  destruct (read_index st lay k l bm b1 b2 v Hb Hview Hsmall i o Hi) as [Hidx Hlt].
  assert (ArrowArrayViewIsNull v (Z.of_nat i) = Some (negb (is_valid o))) as Hnull.
  { pose proof (read_validity st lay k l bm b1 b2 v Hb Hview Hsmall i o Hi) as Hnull.
    unfold ArrowArrayViewIsNull. rewrite Hidx, (flat_type _ _ _ _ _ _ Hview). by destruct st. }
  destruct o as [b|]; [|done]. specialize (Ho b eq_refl). cbn [mbind option_bind is_valid negb] in *.
  assert (∀ w, k = Fixed w → zlen b = Z.of_nat w ∧ as_uint w 1 v (Z.of_nat i) = Some (le_val b) ∧
    as_int w 1 v (Z.of_nat i) = Some (swrap (8 * Z.of_nat w) (le_val b))) as Hfix.
  { intros w Hw. destruct (read_fixed st lay k l bm b1 b2 v Hb Hview i _ Hi w Hw) as [Hu _].
    rewrite Forall_lookup in Hl. destruct (Hl _ _ (read_block k l i _ Hi)) as [_ Hlen]. rewrite Hw in Hlen.
    split_and!; [unfold zlen; by f_equal|done|]. unfold as_uint in Hu. unfold as_int.
    destruct (buffer_data v 1) as [d|]; [|done]. cbn [mbind option_bind] in *. unfold load_i. by rewrite Hu. }
  pose proof (flat_type _ _ _ _ _ _ Hview) as Htype.
  destruct st; simpl in Hst, Ho; try done; cbn [decode shows_cell]; (split; [done|]);
    try (unfold ArrowArrayViewGetIntUnsafe, ArrowArrayViewGetDoubleUnsafe; rewrite Hidx, Htype;
      destruct (Hfix _ Hst) as (Hlen & Hu & Hs'); rewrite ?Hlen; exact Hu || exact Hs').
  all: try (destruct (read_bytes _ lay k l bm b1 b2 v i _ Hb Hview Hsmall Hi eq_refl) as (z & Hz & Hshow);
    exists z; split; [exact Hz|by apply shows_view_bytes]).
  - unfold ArrowArrayViewGetIntUnsafe. rewrite Hidx, Htype.
    exact (read_bit _ lay k l bm b1 b2 v Hb Hview Hsmall i _ Hi Hst).
  - destruct (read_fixed _ lay k l bm b1 b2 v Hb Hview i _ Hi 16 Hst) as (_ & pre & post & -> & Hpre).
    destruct (Hfix _ Hst) as (Hlen & _). rewrite (flat_offset _ _ _ _ _ _ Hview).
    pose proof (zslice_middle pre b post (16 * (0 + Z.of_nat i)) ltac:(lia)) as Hmid. rewrite Hlen in Hmid. exact Hmid.
Qed.

(** ** Columns *)
Record column_info : Set := MkColumn {
  col_name : string;
  col_logical : SnowflakeType.Type_;
  col_arrow : ArrowType;        (* the type that the schema view tells *)
  col_scale : Z;
}.
Implicit Types (col : column_info).

(** The logical types that look up a scale. *)
Definition scaled (ty : SnowflakeType.Type_) : bool :=
  match ty with
  | SnowflakeType.FIXED | SnowflakeType.TIME | SnowflakeType.TIMESTAMP_NTZ | SnowflakeType.TIMESTAMP_LTZ
  | SnowflakeType.INTERVAL_YEAR_MONTH => true
  | _ => false
  end.
(** The schema of a column says what the column is: the logical type, in letters
    of any case, and the scale and precision, as decimal texts, are in the metadata. *)
Record field_of (s : members) col : Prop := {
  field_name : name s = Some (col_name col);
  field_view : ∃ sv, ArrowSchemaViewInit (Some (SchemaLive s)) view_uninit = Ok tt sv ∧ view_type sv = col_arrow col;
  field_metadata : ∃ l, represents (schema_metadata s) l ∧
    (∃ n, lookup_key (text "logicalType") l = Some (text n) ∧
       (SnowflakeType.upper n, col_logical col) ∈ SnowflakeType.m_strEnumIndex) ∧
    (scaled (col_logical col) = true →
       lookup_key (text "scale") l = Some (text (print_int (col_scale col))) ∧
       INT32_MIN <= col_scale col <= INT32_MAX) ∧
    (col_logical col = SnowflakeType.FIXED →
       ∃ precision, lookup_key (text "precision") l = Some (text (print_int precision)) ∧
         INT32_MIN <= precision <= INT32_MAX);
}.

(** Whether a column has cells of this kind. *)
Definition cell_fits col (x : cell) : bool :=
  let type := col_arrow col in
  match col_logical col, x with
  | SnowflakeType.FIXED, Number _ =>
      bool_decide (type ∈ [NANOARROW_TYPE_INT8; NANOARROW_TYPE_INT16; NANOARROW_TYPE_INT32; NANOARROW_TYPE_INT64])
  | SnowflakeType.TIME, Number _ => bool_decide (type ∈ [NANOARROW_TYPE_INT32; NANOARROW_TYPE_INT64])
  | SnowflakeType.TIMESTAMP_NTZ, Number _ | SnowflakeType.TIMESTAMP_LTZ, Number _
  | SnowflakeType.INTERVAL_DAY_TIME, Number _ => bool_decide (type = NANOARROW_TYPE_INT64)
  | SnowflakeType.BOOLEAN, Number _ | SnowflakeType.DATE, Number _
  | SnowflakeType.INTERVAL_YEAR_MONTH, Number _ | SnowflakeType.REAL, Real _ => true
  | SnowflakeType.ANY, Text _ | SnowflakeType.CHAR, Text _ | SnowflakeType.TEXT, Text _
  | SnowflakeType.VARIANT, Text _ | SnowflakeType.BINARY, Text _ => true
  | SnowflakeType.ARRAY, Text _ | SnowflakeType.OBJECT, Text _ => bool_decide (type = NANOARROW_TYPE_STRING)
  | SnowflakeType.FIXED, Decimal128 _ | SnowflakeType.INTERVAL_DAY_TIME, Decimal128 _ =>
      bool_decide (type = NANOARROW_TYPE_DECIMAL128)
  | _, _ => false
  end.
(** Some kind of cell fits: then there is a class for the column, and it needs no
    cell to be chosen. *)
Definition handled col : bool :=
  existsb (cell_fits col) [Number 0; Real 0; Text []; Decimal128 []].

Section objects.
Context `{!Python} (useNumpy : bool).

(** ** Objects

    What comes of a cell that fits its column is the object or, when Python raises
    or a text is not UTF-8, no object ([Some None]). *)

(** Days since 0001-01-01, of a date that counts from 1970-01-01, in the range of
    the [int] that [date.fromordinal] is called with. *)
Definition date_object (z : Z) : option (option PyObject) :=
  day ← int32 (719163 + z);
  Some (call datetime_date_fromordinal [PyLong day]).
(** A time of the day by its microseconds. *)
Definition time_of_day (scale z : Z) : option (option PyObject) :=
  if bool_decide (0 <= scale <= 9 ∧ 0 <= z < 86400 * 10 ^ scale) then
    let us := micros z scale in
    Some (call datetime_time [PyLong (us / 3600000000); PyLong (us / 60000000 mod 60);
      PyLong (us / 1000000 mod 60); PyLong (us mod 1000000)])
  else None.
Definition decimal_object (scale z : Z) : option PyObject :=
  d ← call decimal_Decimal [PyLong z];
  call (scaleb d) [PyLong (- scale)].
Definition timestamp_of (method : string) (scale z : Z) : option (option PyObject) :=
  ts ← TimeSpec.make z scale;
  Some (call (Context method) [PyLong (TimeSpec.seconds ts); PyLong (TimeSpec.microseconds ts)]).

(** What comes of a cell; [None] when it does not fit the column or a number is out
    of the range of its type. *)
Definition python_object col (x : cell) : option (option PyObject) :=
  let scale := col_scale col in
  let calls method args := Some (call (Context method) args) in
  if negb (cell_fits col x) then None
  else
    match col_logical col, x with
    | SnowflakeType.FIXED, Number z =>
        if 0 <? scale then
          if useNumpy then calls "FIXED_to_numpy_float64" [PyLong z; PyLong scale]
          else Some (decimal_object scale z)
        else if useNumpy then calls "FIXED_to_numpy_int64" [PyLong z] else Some (Some (PyLong z))
    | SnowflakeType.FIXED, Decimal128 l => calls "DECIMAL128_to_decimal" [PyBytes l; PyLong scale]
    | SnowflakeType.BOOLEAN, Number z => Some (Some (if z =? 0 then PyFalse else PyTrue))
    | SnowflakeType.DATE, Number z =>
        if useNumpy then z ← int32 z; calls "DATE_to_numpy_datetime64" [PyLong z]
        else date_object z
    | SnowflakeType.TIME, Number z => time_of_day scale z
    | SnowflakeType.TIMESTAMP_NTZ, Number z =>
        if useNumpy then calls "TIMESTAMP_NTZ_ONE_FIELD_to_numpy_datetime64" [PyLong z; PyLong scale]
        else timestamp_of "TIMESTAMP_NTZ_to_python" scale z
    | SnowflakeType.TIMESTAMP_LTZ, Number z => timestamp_of "TIMESTAMP_LTZ_to_python" scale z
    | SnowflakeType.INTERVAL_YEAR_MONTH, Number z =>
        calls (if useNumpy then "INTERVAL_YEAR_MONTH_to_numpy_timedelta"
               else "INTERVAL_YEAR_MONTH_to_str") [PyLong z; PyLong scale]
    | SnowflakeType.INTERVAL_DAY_TIME, Number z =>
        calls (if useNumpy then "INTERVAL_DAY_TIME_int_to_numpy_timedelta"
               else "INTERVAL_DAY_TIME_int_to_timedelta") [PyLong z]
    | SnowflakeType.INTERVAL_DAY_TIME, Decimal128 l =>
        calls (if useNumpy then "INTERVAL_DAY_TIME_decimal_to_numpy_timedelta"
               else "INTERVAL_DAY_TIME_decimal_to_timedelta") [PyBytes l]
    | SnowflakeType.REAL, Real bits =>
        if useNumpy then calls "REAL_to_numpy_float64" [PyFloat bits] else Some (Some (PyFloat bits))
    | SnowflakeType.BINARY, Text l => Some (Some (PyByteArray l))
    | _, Text l => Some (if valid_utf8 l then Some (PyUnicode l) else None)
    | _, _ => None
    end.
Definition object_of col (o : option cell) : option (option PyObject) :=
  match o with None => Some (Some PyNone) | Some x => python_object col x end.

(** The object, or NULL with an exception. *)
Definition made (o : option PyObject) (e : option py_error) : cpp (option py_error) (option PyObject) :=
  match o with Some _ => Done o e | None => Done None (Some Raised) end.
(** A converter that does to every cell what is said above. *)
Definition converts (conv : converter) (v : ArrowArrayView) col : Prop :=
  ∀ i x o e, shows_cell v i x → object_of col x = Some o → toPyObject conv i e = made o e.

(** ** The classes give the objects *)
Lemma null_row v i m e : ArrowArrayViewIsNull v i = Some true → unless_null v i m e = made (Some PyNone) e.
Proof. intros Hnull. unfold unless_null, cbind. by rewrite Hnull. Qed.
Lemma py_call_made f args e : py_call f args e = made (call f args) e.
Proof. unfold py_call. by destruct (call f args). Qed.
Lemma get_int_done v i z (e : option py_error) : ArrowArrayViewGetIntUnsafe v i = Some z → get_int (Some v) i e = Done z e.
Proof. intros Hget. unfold get_int, get_field. cbn [mbind option_bind]. by rewrite Hget. Qed.
(** A class that looks at the row once it is not null. *)
Lemma converts_intro conv v col (body : Z → PM (option PyObject)) :
  (∀ i, toPyObject conv i = unless_null v i (body i)) →
  (∀ i x o e, shows_cell v i (Some x) → python_object col x = Some o → body i e = made o e) →
  converts conv v col.
Proof.
  intros Hconv Hbody i [x|] o e Hx Ho; rewrite Hconv.
  - rewrite not_null by apply Hx. by eapply Hbody.
  - injection Ho as <-. by apply null_row.
Qed.
Lemma fits_object col x o : python_object col x = Some o → cell_fits col x = true.
Proof. unfold python_object. by destruct (cell_fits col x). Qed.

Lemma time_of_day_parts v scale i z o e :
  ArrowArrayViewGetIntUnsafe v i = Some z → time_of_day scale z = Some o → time_row v scale i e = made o e.
Proof.
  intros Hget Ho. unfold time_of_day in Ho. case_bool_decide as Hin; [|done]. destruct Hin as [Hs Hz].
  destruct (time_parts z scale Hs Hz) as (h & m & s & us & Hh & Hm & Hsec & Hus & Hhr & Hmr & Hsr & Hur & Hsum).
  cbv zeta in Ho. rewrite <-Hsum in Ho. injection Ho as <-.
  unfold time_row. rewrite (cbind_done _ _ _ _ _ (get_int_done _ _ _ e Hget)), Hh, Hm, Hsec, Hus.
  cbn [cderef]. unfold cbind, cret. rewrite py_call_made. change (10 ^ 6) with 1000000. clear -Hhr Hmr Hsr Hur.
  do 3 f_equal; [|f_equal; [|f_equal; [|f_equal]]]; f_equal; Z.div_mod_to_equations; lia.
Qed.
Lemma date_object_row v i z o e :
  ArrowArrayViewGetIntUnsafe v i = Some z → date_object z = Some o → date_row v i e = made o e.
Proof.
  intros Hget Ho. unfold date_object in Ho. destruct (int32 _) as [day|] eqn:Hday; [|done].
  apply int32_Some in Hday as [-> Hin]. injection Ho as <-. unfold date_row, epochDay.
  rewrite (cbind_done _ _ _ _ _ (get_int_done _ _ _ e Hget)), int64_in by width.
  unfold cbind, cderef, cret, read_as_int. rewrite i32_small by done. apply py_call_made.
Qed.
Lemma decimal_object_row v scale i z e :
  0 < scale <= INT32_MAX → ArrowArrayViewGetIntUnsafe v i = Some z →
  decimal_row v scale i e = made (decimal_object scale z) e.
Proof.
  intros Hs Hget. unfold decimal_row, decimal_object. rewrite (cbind_done _ _ _ _ _ (get_int_done _ _ _ e Hget)).
  unfold cbind at 1. rewrite py_call_made, int32_in by width. destruct (call decimal_Decimal _) as [d|]; [|done].
  apply py_call_made.
Qed.
Lemma timestamp_row_of v method scale i z o e :
  ArrowArrayViewGetIntUnsafe v i = Some z → timestamp_of method scale z = Some o →
  one_field method (Some v) scale i [] e = made o e.
Proof.
  intros Hget Ho. unfold timestamp_of in Ho. destruct (TimeSpec.make z scale) as [ts|] eqn:Hts; [|done].
  injection Ho as <-. unfold one_field. rewrite (cbind_done _ _ _ _ _ (get_int_done _ _ _ e Hget)), Hts. apply py_call_made.
Qed.

(** The class of a column. *)
Definition class_of col (precision : Z) (v : ArrowArrayView) : converter :=
  let scale := col_scale col in
  let decimals := bool_decide (col_arrow col = NANOARROW_TYPE_DECIMAL128) in
  match col_logical col with
  | SnowflakeType.FIXED =>
      if decimals then DecimalFromDecimalConverter v scale
      else if 0 <? scale then
        if useNumpy then NumpyDecimalConverter v precision scale else DecimalFromIntConverter v precision scale
      else if useNumpy then NumpyIntConverter v else IntConverter v
  | SnowflakeType.BOOLEAN => BooleanConverter v
  | SnowflakeType.REAL => if useNumpy then NumpyFloat64Converter v else FloatConverter v
  | SnowflakeType.DATE => if useNumpy then NumpyDateConverter v else DateConverter v
  | SnowflakeType.BINARY => BinaryConverter v
  | SnowflakeType.TIME => TimeConverter v scale
  | SnowflakeType.TIMESTAMP_NTZ =>
      if useNumpy then NumpyOneFieldTimeStampNTZConverter v scale else OneFieldTimeStampNTZConverter v scale
  | SnowflakeType.TIMESTAMP_LTZ => OneFieldTimeStampLTZConverter v scale
  | SnowflakeType.INTERVAL_YEAR_MONTH => IntervalYearMonthConverter v useNumpy scale
  | SnowflakeType.INTERVAL_DAY_TIME =>
      if decimals then IntervalDayTimeConverterDecimal v useNumpy else IntervalDayTimeConverterInt v useNumpy
  | _ => StringConverter v
  end.
(** The body of a class on a cell that fits, one step at a time. *)
Ltac class_body :=
  eapply converts_intro; [intros ?; reflexivity|];
  intros i x o e [_ Hx] Ho; pose proof (fits_object _ _ _ Ho) as Hfit;
  destruct x; try discriminate Hfit; unfold python_object in Ho; rewrite Hfit in Ho; cbn in Ho, Hfit, Hx;
  repeat match goal with H : ?b = true |- _ => rewrite H in Ho | H : ?b = false |- _ => rewrite H in Ho end;
  try injection Ho as <-;
  try (rewrite bool_decide_false in Hfit by done; discriminate Hfit);
  try rewrite (cbind_done _ _ _ _ _ (get_int_done _ _ _ e Hx)).
Lemma string_converts v col :
  (∀ x, cell_fits col x = true → ∃ l, x = Text l ∧
     python_object col x = Some (if valid_utf8 l then Some (PyUnicode l) else None)) →
  converts (StringConverter v) v col.
Proof.
  intros Htext. eapply converts_intro; [intros ?; reflexivity|]. intros i x o e [_ Hx] Ho.
  destruct (Htext x (fits_object _ _ _ Ho)) as (l & -> & Hl). rewrite Hl in Ho. injection Ho as <-. destruct Hx as (s & Hs & Hbytes).
  unfold cbind. rewrite Hs. cbn [cderef]. unfold cret. rewrite Hbytes. cbn [cderef]. unfold cret, PyUnicode_FromStringAndSize.
  by destruct (valid_utf8 l).
Qed.
Lemma decimal_bytes_done v i l (e : option py_error) :
  (d ← buffer_data v 1; zslice d (16 * (offset v + i)) 16) = Some l → decimal_bytes v i e = Done l e.
Proof. intros Hl. unfold decimal_bytes. by rewrite Hl. Qed.
Lemma class_converts col precision v :
  handled col = true → (scaled (col_logical col) = true → INT32_MIN <= col_scale col <= INT32_MAX) →
  converts (class_of col precision v) v col.
Proof.
  destruct col as [n ty type scale]. unfold class_of. cbv zeta. cbn [col_logical col_arrow col_scale].
  intros Hh Hs. destruct ty; try discriminate Hh.
  all: try (apply string_converts; intros [] Hfit; try discriminate Hfit; eexists; split; [reflexivity|];
    unfold python_object; rewrite Hfit; reflexivity).
  all: try (case_bool_decide; [subst type|]).
  all: try match goal with |- converts (if ?b then if _ then _ else _ else _) _ _ => destruct b eqn:Hscale end.
  all: try match goal with |- context [if useNumpy then _ else _] => destruct useNumpy eqn:Hnp end; class_body.
  all: try apply py_call_made.
  all: try (rewrite (cbind_done _ _ _ _ _ (decimal_bytes_done _ _ _ e Hx)); apply py_call_made).
  all: try done.
  - destruct Hx as (s & Hget & Hbytes). unfold cbind. rewrite Hget. cbn [cderef]. unfold cret. by rewrite Hbytes.
  - destruct (int32 z) as [y|] eqn:Hz; [|done]. apply int32_Some in Hz as [-> Hin]. injection Ho as <-.
    unfold read_as_int. rewrite i32_small by done. apply py_call_made.
  - by apply (date_object_row _ _ z).
  - apply decimal_object_row; [specialize (Hs eq_refl); lia|done].
  - unfold cbind. rewrite Hx. apply py_call_made.
  - unfold cbind. by rewrite Hx.
  - by apply (time_of_day_parts _ _ _ z).
  - by apply (timestamp_row_of _ _ _ _ z).
  - by apply (timestamp_row_of _ _ _ _ z).
Qed.

(** ** The class is chosen by the metadata *)
Lemma scale_precision_value m l scale precision e :
  represents m l → lookup_key (text "scale") l = Some (text (print_int scale)) → INT32_MIN <= scale <= INT32_MAX →
  lookup_key (text "precision") l = Some (text (print_int precision)) → INT32_MIN <= precision <= INT32_MAX →
  metadata_scale_precision m e = Done (scale, precision) e.
Proof.
  intros Hm Hl Hs Hpl Hp. unfold metadata_scale_precision. destruct m as [m|]; [|by destruct Hm as [_ ->]].
  destruct (text_value (Some m) l "scale" (ArrowCharView None) _ e Hm ltac:(by repeat constructor) Hl) as (v & Hv & Htext & _).
  destruct (text_value (Some m) l "precision" (ArrowCharView None) _ e Hm ltac:(by repeat constructor) Hpl) as (w & Hw & Htext' & _).
  rewrite (cbind_done _ _ _ _ _ Hv), (cbind_done _ _ _ _ _ Hw), (cbind_done _ _ _ _ _ (Htext e)),
    (cbind_done _ _ _ _ _ (stoi_print _ _ Hs)), (cbind_done _ _ _ _ _ (Htext' e)).
  by rewrite (cbind_done _ _ _ _ _ (stoi_print _ _ Hp)).
Qed.
Lemma chosen s col v e :
  field_of s col → handled col = true →
  ∃ precision, getConverterFromSchema useNumpy v s e = Done (Some (class_of col precision v)) e.
Proof.
  intros [Hname (sv & Hsv & Hview) (l & Hm & (n & Hn & Hin) & Hscale & Hprec)] Hh.
  destruct (text_value (schema_metadata s) l "logicalType" (ArrowCharView None) n e Hm ltac:(by repeat constructor) Hn)
    as (w & Hw & Htext & _).
  assert (SnowflakeType.snowflakeTypeFromString n e = Done (col_logical col) e) as Hty
    by (apply at_spec; [apply m_strEnumIndex_NoDup|done]).
  assert (∀ item entry, ∃ precision,
    converter_by_type useNumpy (SchemaLive s) v item entry e = Done (Some (class_of col precision v)) e) as Hconv.
  { intros item entry. unfold converter_by_type.
    assert (@schema_view (option py_error) (SchemaLive s) e = Done sv e) as Hv by (unfold schema_view; by rewrite Hsv).
    rewrite (cbind_done _ _ _ _ _ Hv), (cbind_done _ _ _ _ _ (eq_refl : live_schema (SchemaLive s) e = Done s e)). cbv zeta.
    rewrite (cbind_done _ _ _ _ _ Hw), (cbind_done _ _ _ _ _ (Htext e)), (cbind_done _ _ _ _ _ Hty), Hview.
    destruct col as [cn ty type scale]. unfold class_of. cbv zeta. cbn [col_logical col_arrow col_scale] in *.
    unfold fixed_converter, time_converter, timestamp_ntz_converter, timestamp_ltz_converter, array_converter,
      object_converter, interval_day_time_converter.
    destruct ty; try discriminate Hh; try (by exists 0);
      try (destruct (Hscale eq_refl) as [Hl Hs]; exists 0; rewrite (cbind_done _ _ _ _ _ (scale_value _ l scale 9 e Hm Hl Hs)));
      try (destruct type; try discriminate Hh; by (done || exists 0)).
    destruct (Hscale eq_refl) as [Hl Hs], (Hprec eq_refl) as (precision & Hpl & Hp). exists precision.
    rewrite (cbind_done _ _ _ _ _ (scale_precision_value _ l scale precision e Hm Hl Hs Hpl Hp)). cbn [fst snd].
    destruct type; try discriminate Hh; done. }
  destruct v as [? ? ? ? ? ? ? ch ? ?]. cbn [getConverterFromSchema]. unfold returning_null.
  destruct (Hconv (match ch with Some l => on_nth (getConverterFromSchema useNumpy) l | None => λ _ _ _, Undefined end)
    (match ch with
         | Some (Some (MkArrayView _ _ _ _ _ _ _ (Some l) _ _) :: _) => on_nth (getConverterFromSchema useNumpy) l
         | _ => λ _ _ _, Undefined
         end)) as [precision Hp]. exists precision. by rewrite Hp.
Qed.
End objects.

(** ** Tables *)
Section table.
Context `{!Python} (c : ChunkIterator.source) (cols : list column_info).
Abbreviation useNumpy := (ChunkIterator.m_useNumpy c).
Abbreviation schema := (ChunkIterator.m_ipcArrowSchema c).

(** *** What Python gets *)

(** The objects, when there is one of each. *)
Fixpoint all_made (rs : list (option PyObject)) : option (list PyObject) :=
  match rs with
  | [] => Some []
  | o :: rs' => o' ← o; os ← all_made rs'; Some (o' :: os)
  end.
Fixpoint row_objects (cols : list column_info) (row : list (option cell)) : option (list (option PyObject)) :=
  match cols, row with
  | [], [] => Some []
  | col :: cols', x :: row' =>
      o ← object_of useNumpy col x;
      os ← row_objects cols' row';
      Some (o :: os)
  | _, _ => None
  end.
(** One pair of a dictionary, under the name of the column. *)
Definition add_item (dict : list (PyObject * PyObject)) col (o : PyObject) : option (list (PyObject * PyObject)) :=
  if valid_utf8 (text (col_name col)) then set_item dict (PyUnicode (text (col_name col))) o else None.
Fixpoint dict_of (cols : list column_info) (os : list PyObject) (dict : list (PyObject * PyObject)) :
    option (list (PyObject * PyObject)) :=
  match cols, os with
  | col :: cols', o :: os' => dict' ← add_item dict col o; dict_of cols' os' dict'
  | _, _ => Some dict
  end.
Definition row_value (os : list PyObject) : option PyObject :=
  if ChunkIterator.dictionaries c then PyDict <$> dict_of cols os [] else Some (PyTuple (Some <$> os)).
(** A row is its tuple or dictionary, or the exception when a cell or a name has
    none. *)
Definition python_row (row : list (option cell)) : option ChunkIterator.row_result :=
  rs ← row_objects cols row;
  Some (match os ← all_made rs; row_value os with Some o => inr o | None => inl Raised end).

(** *** What is stored *)

(** The schema describes the columns, which have no columns inside. *)
Record describes_table : Prop := {
  table_fields : ∀ j col, cols !! j = Some col →
    handled col = true ∧ ∃ s, child_members schema (Z.of_nat j) = Some s ∧ field_of s col;
  table_width : n_children schema = zlen cols;
  table_width_in : zlen cols <= INT32_MAX;
}.
(** The views of batch [b] show the cells of its rows. *)
Definition shows_column (rows : list (list (option cell))) (j : nat) (v : ArrowArrayView) : Prop :=
  ∀ r row x, rows !! r = Some row → row !! j = Some x → shows_cell v (Z.of_nat r) x.
Record shows_batch (b : nat) (rows : list (list (option cell))) : Prop := {
  shows_length : ∃ a, ChunkIterator.m_ipcArrowArrayVec c !! b = Some (ArrayLive a) ∧ array_length a = zlen rows;
  shows_views : ∃ view, ChunkIterator.m_ipcArrowArrayViewVec c !! b = Some view ∧
    ∀ j col, cols !! j = Some col → ∃ v, view_child view (Z.of_nat j) = Some v ∧ shows_column rows j v;
}.

Lemma row_objects_lookup cs row os :
  row_objects cs row = Some os →
  List.length os = List.length cs ∧ ∀ i col, cs !! i = Some col → ∃ x o, row !! i = Some x ∧ os !! i = Some o ∧
    object_of useNumpy col x = Some o.
Proof.
  revert row os. induction cs as [|col cs IH]; intros [|x row] os Hos; cbn [row_objects] in Hos; try done.
  { by injection Hos as <-. }
  destruct (object_of _ col x) as [o|] eqn:Ho; [|done]. destruct (row_objects cs row) as [os'|] eqn:Hos'; [|done].
  injection Hos as <-. destruct (IH _ _ Hos') as [Hlen Hall]. split; [by simpl; f_equal|].
  intros [|i] col' Hi; [|by apply Hall]. injection Hi as <-. by exists x, o.
Qed.

(** *** The iterator makes the rows *)

(** The converters from position [j] on give the objects of row [r]. *)
Definition slots_give (convs : list (option converter)) (r : Z) (j : nat) (rs : list (option PyObject)) : Prop :=
  ∀ i o, rs !! i = Some o → ∃ conv, convs !! (j + i)%nat = Some (Some conv) ∧ ∀ e, toPyObject conv r e = made o e.
Lemma slots_give_cons convs r j o rs :
  slots_give convs r j (o :: rs) →
  (∃ conv, znth convs (Z.of_nat j) = Some (Some conv) ∧ ∀ e, toPyObject conv r e = made o e) ∧
  slots_give convs r (S j) rs.
Proof.
  intros Hall. split.
  - destruct (Hall 0%nat o eq_refl) as (conv & Hconv & Ho). rewrite Nat.add_0_r in Hconv. exists conv.
    by rewrite znth_of_nat.
  - intros i o' Hi. destruct (Hall (S i) o' Hi) as (conv & Hconv & Ho). exists conv. by rewrite <-Nat.add_succ_comm in Hconv.
Qed.
(** The indicator after an object. *)
Definition after (o : option PyObject) (e : option py_error) : option py_error :=
  match o with Some _ => e | None => Some Raised end.
Lemma tuple_slots_step convs r j idx o conv e :
  znth convs j = Some (Some conv) → toPyObject conv r e = made o e →
  ChunkIterator.tuple_slots c convs r (j :: idx) e =
    if bool_decide (is_Some (after o e)) && ChunkIterator.m_checkErrorOnEveryColumn c
    then Done (o :: replicate (List.length idx) None) (after o e)
    else (let! os := ChunkIterator.tuple_slots c convs r idx in cret (o :: os)) (after o e).
Proof.
  intros Hconv Ho. cbn [ChunkIterator.tuple_slots]. unfold cbind at 1. rewrite Hconv.
  cbn [cderef]. unfold cret at 1, cbind at 1. cbn [through]. rewrite Ho.
  destruct o as [o|]; cbn [made after]; unfold cbind at 1, cget, id; [destruct e|]; try done;
    rewrite bool_decide_true by done; by destruct (ChunkIterator.m_checkErrorOnEveryColumn c).
Qed.
(** The loop over the slots after an error: the error stays. *)
Lemma tuple_slots_error convs r rs : ∀ j,
  slots_give convs r j rs → ∃ slots,
  ChunkIterator.tuple_slots c convs r (Z.of_nat <$> seq j (List.length rs)) (Some Raised) = Done slots (Some Raised).
Proof.
  induction rs as [|o rs IH]; intros j Hall; [by exists []|].
  apply slots_give_cons in Hall as [(conv & Hconv & Ho) Hall]. destruct (IH (S j) Hall) as [slots Hslots].
  cbn [List.length seq]. rewrite fmap_cons, (tuple_slots_step _ _ _ _ _ _ _ Hconv (Ho _)).
  assert (after o (Some Raised) = Some Raised) as -> by by destruct o.
  destruct (_ && _); [by eexists|]. eexists. by rewrite (cbind_done _ _ _ _ _ Hslots).
Qed.
Lemma tuple_slots_done convs r rs : ∀ j,
  slots_give convs r j rs →
  match all_made rs with
  | Some os => ChunkIterator.tuple_slots c convs r (Z.of_nat <$> seq j (List.length rs)) None = Done (Some <$> os) None
  | None => ∃ slots,
      ChunkIterator.tuple_slots c convs r (Z.of_nat <$> seq j (List.length rs)) None = Done slots (Some Raised)
  end.
Proof.
  induction rs as [|o rs IH]; intros j Hall; [done|].
  apply slots_give_cons in Hall as [(conv & Hconv & Ho) Hall]. specialize (IH (S j) Hall).
  cbn [List.length seq]. rewrite fmap_cons, (tuple_slots_step _ _ _ _ _ _ _ Hconv (Ho _)).
  destruct o as [o|]; cbn [all_made mbind option_bind after].
  - rewrite bool_decide_false by (by intros []). cbn [andb]. destruct (all_made rs) as [os|]; cbn [mbind option_bind].
    + by rewrite (cbind_done _ _ _ _ _ IH).
    + destruct IH as [slots Hslots]. eexists. by rewrite (cbind_done _ _ _ _ _ Hslots).
  - destruct (_ && _); [by eexists|]. destruct (tuple_slots_error convs r rs (S j) Hall) as [slots Hslots].
    eexists. by rewrite (cbind_done _ _ _ _ _ Hslots).
Qed.

(** The names of the columns from position [j] on. *)
Definition names_give (j : nat) (cs : list column_info) : Prop :=
  ∀ i col, cs !! i = Some col →
    ∃ s, child_members schema (Z.of_nat (j + i)) = Some s ∧ name s = Some (col_name col).
Lemma names_give_cons j col cs :
  names_give j (col :: cs) →
  (∃ s, child_members schema (Z.of_nat j) = Some s ∧ name s = Some (col_name col)) ∧ names_give (S j) cs.
Proof.
  intros Hall. split.
  - destruct (Hall 0%nat col eq_refl) as (s & Hs & Hn). rewrite Nat.add_0_r in Hs. by exists s.
  - intros i col' Hi. destruct (Hall (S i) col' Hi) as (s & Hs & Hn). exists s. by rewrite <-Nat.add_succ_comm in Hs.
Qed.
(** The indicator after a pair, that stays out of the dictionary on an error. *)
Definition after_item (d : option (list (PyObject * PyObject))) (e : option py_error) : option py_error :=
  match d with Some _ => e | None => Some Raised end.
Lemma dict_items_step convs r j idx dict col (s : members) o conv e :
  znth convs j = Some (Some conv) → toPyObject conv r e = made o e →
  child_members schema j = Some s → name s = Some (col_name col) →
  let d := o ≫= add_item dict col in
  ChunkIterator.dict_items c convs r (j :: idx) dict e =
    ChunkIterator.dict_items c convs r idx (default dict d) (after_item d e).
Proof.
  intros Hconv Ho Hs Hname. cbn [ChunkIterator.dict_items]. unfold cbind at 1. rewrite Hconv.
  cbn [cderef]. unfold cret at 1, cbind at 1. cbn [through]. rewrite Ho.
  destruct o as [o|]; cbn [made mbind option_bind]; [|done]. unfold add_item.
  unfold cbind at 1, cbind at 1. rewrite Hs. cbn [cderef]. unfold cret at 1.
  unfold PyDict_SetItemString, PyUnicode_FromStringAndSize, PyDict_SetItem, cbind at 1, cbind at 1.
  rewrite Hname. cbn [cderef]. unfold cret at 1, cbind at 1. fold (text (col_name col)).
  destruct (valid_utf8 (text (col_name col))); [|done]. unfold cret at 1.
  by destruct (set_item dict _ o).
Qed.
Lemma dict_items_error convs r cs : ∀ j rs dict,
  slots_give convs r j rs → names_give j cs → List.length rs = List.length cs →
  ∃ d, ChunkIterator.dict_items c convs r (Z.of_nat <$> seq j (List.length rs)) dict (Some Raised) = Done d (Some Raised).
Proof.
  induction cs as [|col cs IH]; intros j [|o rs] dict Hall Hnames Hlen; try done; [by eexists|].
  apply slots_give_cons in Hall as [(conv & Hconv & Ho) Hall].
  apply names_give_cons in Hnames as [(s & Hs & Hname) Hnames]. injection Hlen as Hlen.
  cbn [List.length seq]. rewrite fmap_cons, (dict_items_step _ _ _ _ _ _ _ _ _ _ Hconv (Ho _) Hs Hname).
  assert (∀ d, after_item d (Some Raised) = Some Raised) as -> by by intros []. by apply IH.
Qed.
Lemma dict_items_done convs r cs : ∀ j rs dict,
  slots_give convs r j rs → names_give j cs → List.length rs = List.length cs →
  match os ← all_made rs; dict_of cs os dict with
  | Some d => ChunkIterator.dict_items c convs r (Z.of_nat <$> seq j (List.length rs)) dict None = Done d None
  | None => ∃ d,
      ChunkIterator.dict_items c convs r (Z.of_nat <$> seq j (List.length rs)) dict None = Done d (Some Raised)
  end.
Proof.
  induction cs as [|col cs IH]; intros j [|o rs] dict Hall Hnames Hlen; try done.
  apply slots_give_cons in Hall as [(conv & Hconv & Ho) Hall].
  apply names_give_cons in Hnames as [(s & Hs & Hname) Hnames]. injection Hlen as Hlen.
  cbn [List.length seq]. rewrite fmap_cons, (dict_items_step _ _ _ _ _ _ _ _ _ _ Hconv (Ho _) Hs Hname).
  cbn [all_made]. destruct o as [o|]; cbn [mbind option_bind]; [|by apply (dict_items_error _ _ cs)].
  destruct (add_item dict col o) as [dict'|] eqn:Hadd; cbn [after_item default].
  - specialize (IH (S j) rs dict' Hall Hnames Hlen). destruct (all_made rs) as [os|]; [|done].
    cbn [mbind option_bind dict_of]. by rewrite Hadd.
  - destruct (dict_items_error convs r cs (S j) rs dict Hall Hnames Hlen) as [d Hd].
    destruct (all_made rs) as [os|]; cbn [mbind option_bind dict_of]; [rewrite Hadd|]; by exists d.
Qed.
(** A converter of column [j] of the view of a batch. *)
Definition column_converter (view : ArrowArrayView) (rows : list (list (option cell))) (j : nat) col
    (conv : option converter) : Prop :=
  ∃ s v cv, conv = Some cv ∧ child_members schema (Z.of_nat j) = Some s ∧ view_child view (Z.of_nat j) = Some v ∧
    getConverterFromSchema useNumpy v s None = Done conv None ∧ converts useNumpy cv v col ∧ shows_column rows j v.
Context (Htable : describes_table).

Lemma make_converters view rows :
  (∀ j col, cols !! j = Some col → ∃ v, view_child view (Z.of_nat j) = Some v ∧ shows_column rows j v) →
  ∃ convs, ChunkIterator.makes c view convs ∧
    ∀ j col, cols !! j = Some col → ∃ conv, convs !! j = Some conv ∧ column_converter view rows j col conv.
Proof.
  intros Hviews. destruct (choose_list (column_converter view rows) cols) as (convs & Hlen & Hall).
  { intros j col Hj. destruct (Hviews j col Hj) as (v & Hv & Hshow), (table_fields Htable j col Hj) as (Hh & s & Hs & Hf).
    destruct (chosen useNumpy s col v None Hf Hh) as [precision Hget]. exists (Some (class_of useNumpy col precision v)), s, v.
    eexists. split_and!; [done|done|done|done| |done]. apply class_converts; [done|]. intros Hsc.
    destruct Hf as [_ _ (l & _ & _ & Hscale & _)]. by apply Hscale. }
  exists convs. split; [|done]. unfold ChunkIterator.makes. rewrite (table_width Htable).
  apply Forall2_same_length_lookup_2; [unfold zseq, zlen; by rewrite length_fmap, length_seq, Nat2Z.id|].
  intros j i conv Hi Hconv. unfold zseq in Hi. rewrite list_lookup_fmap in Hi.
  pose proof (lookup_lt_Some _ _ _ Hconv) as Hlt. unfold zlen in Hi. rewrite Nat2Z.id, lookup_seq_lt in Hi by lia.
  injection Hi as <-. destruct (lookup_lt_is_Some_2 cols j ltac:(lia)) as [col Hcol].
  destruct (Hall j col Hcol) as (conv' & Hconv' & s & v & cv & -> & Hs & Hv & Hget & _). rewrite Hconv in Hconv'.
  injection Hconv' as ->. by exists s, v.
Qed.
Lemma row_done view rows convs r row x :
  (∀ j col, cols !! j = Some col → ∃ conv, convs !! j = Some conv ∧ column_converter view rows j col conv) →
  0 < zlen (ChunkIterator.m_ipcArrowArrayVec c) <= INT32_MAX →
  rows !! r = Some row → python_row row = Some x → ChunkIterator.gives_row c convs (Z.of_nat r) x.
Proof.
  intros Hconvs Hcount Hrow Ho. unfold python_row in Ho. destruct (row_objects cols row) as [rs|] eqn:Hrs; [|done].
  cbn [mbind option_bind] in Ho. injection Ho as <-. destruct (row_objects_lookup _ _ _ Hrs) as [Hlen Hall].
  assert (slots_give convs (Z.of_nat r) 0 rs) as Hslots.
  { intros i o' Ho'. destruct (lookup_lt_is_Some_2 cols i) as [col Hcol]; [apply lookup_lt_Some in Ho'; lia|].
    destruct (Hall i col Hcol) as (x & o'' & Hx & Ho'' & Hobj). rewrite Ho' in Ho''. injection Ho'' as <-.
    destruct (Hconvs i col Hcol) as (conv & Hconv & s & v & cv & -> & _ & _ & _ & Hcv & Hshow). exists cv.
    split; [done|]. intros e. eapply Hcv; [by eapply Hshow|done]. }
  assert (names_give 0 cols) as Hnames.
  { intros i col Hcol. destruct (table_fields Htable i col Hcol) as (_ & s & Hs & Hf). exists s. split; [done|apply Hf]. }
  assert (zseq (zlen cols) = Z.of_nat <$> seq 0 (List.length rs)) as Hseq
    by (unfold zseq, zlen; by rewrite Nat2Z.id, Hlen).
  unfold row_value, ChunkIterator.gives_row, ChunkIterator.row_object. destruct (ChunkIterator.dictionaries c).
  - rewrite (table_width Htable), Hseq. pose proof (dict_items_done _ _ cols 0 rs [] Hslots Hnames Hlen) as Hd.
    destruct (all_made rs) as [os|]; cbn [mbind option_bind] in *; [destruct (dict_of cols os []) as [d|]; cbn [fmap option_fmap option_map] in *|];
      [by rewrite (cbind_done _ _ _ _ _ Hd)|destruct Hd as [d Hd]; eexists; by rewrite (cbind_done _ _ _ _ _ Hd)..].
  - unfold ChunkIterator.m_columnCount, ChunkIterator.m_batchCount.
    rewrite (i32_small (zlen _)) by width. destruct (Z.ltb_spec 0 (zlen (ChunkIterator.m_ipcArrowArrayVec c))); [|lia].
    pose proof (zlen_nonneg cols). pose proof (table_width_in Htable).
    rewrite (table_width Htable), i32_small, Hseq by width. pose proof (tuple_slots_done _ _ rs 0 Hslots) as Hd.
    destruct (all_made rs) as [os|]; cbn [mbind option_bind];
      [by rewrite (cbind_done _ _ _ _ _ Hd)|destruct Hd as [d Hd]; eexists; by rewrite (cbind_done _ _ _ _ _ Hd)].
Qed.
Lemma batch_done b rows os :
  shows_batch b rows → mapM python_row rows = Some os →
  zlen (ChunkIterator.m_ipcArrowArrayVec c) <= INT32_MAX → ChunkIterator.batch_gives c b os.
Proof.
  intros [(a & Ha & Hlen) (view & Hview & Hcols)] Hos Hcount. pose proof Hos as Hl. apply length_mapM in Hl.
  apply mapM_Some in Hos.
  destruct (make_converters view rows Hcols) as (convs & Hmake & Hconvs).
  pose proof (lookup_lt_Some _ _ _ Ha) as Hlt.
  split; [exists view, convs; split_and!; [done|done|]|exists a; split; [done|]; rewrite Hlen; unfold zlen; by rewrite Hl].
  intros r o Hr. destruct (Forall2_lookup_r _ _ _ _ _ Hos Hr) as (row & Hrow & Ho).
  eapply row_done; [done| |done|done]. unfold zlen in *. lia.
Qed.
End table.


(** C7.  A table comes out as its description says.  Its schema gives every column a
    logical type, a scale and a precision as texts of the metadata; the views of
    its batches show cells that fit the columns ([python_object] tells what comes of
    them), and no batch is empty ([empty_batch_read]).  Then the calls of [next], no
    more than an [int] counts, choose the classes of the columns, convert
    every row of every batch and return, in order, the tuple or dictionary of the
    objects of each row, or an exception when Python raised on a cell or a text was
    not UTF-8, and [None] from then on. *)
Theorem table_rows (python : Python) (c : ChunkIterator.source) (cols : list column_info)
    (table : list (list (list (option cell)))) (results : list ChunkIterator.row_result) (k : nat)
    (Hschema : describes_table c cols)
    (Hbatches : ∀ b rows, table !! b = Some rows → shows_batch c cols b rows ∧ rows ≠ [])
    (Hcount : List.length (ChunkIterator.m_ipcArrowArrayVec c) = List.length table)
    (Hresults : mapM (python_row c cols) (concat table) = Some results)
    (Hbound : zlen results + Z.of_nat k <= INT32_MAX) :
  ∃ t', ChunkIterator.calls c (List.length results + k) ChunkIterator.init =
    Done ((ChunkIterator.row <$> results) ++ replicate k (ChunkIterator.row (inr PyNone))) t'.
Proof.
  destruct (mapM_concat _ _ _ Hresults) as (batches & <- & Hall). unfold zlen in Hbound.
  assert (List.length table = List.length batches) as Hlen by (eapply Forall2_length; exact Hall).
  assert (∀ b os, batches !! b = Some os → ∃ rows, table !! b = Some rows ∧ mapM (python_row c cols) rows = Some os ∧ os ≠ [])
    as Hrows.
  { intros b os Hb. destruct (Forall2_lookup_r _ _ _ _ _ Hall Hb) as (rows & Hr & Hos). exists rows. split_and!; [done|done|].
    intros ->. apply length_mapM in Hos. destruct (Hbatches b rows Hr) as [_ Hne]. by destruct rows. }
  pose proof (length_concat_ne batches) as Hle.
  assert (Forall (λ os, os ≠ []) batches) as Hne.
  { apply Forall_lookup. intros b os Hb. by destruct (Hrows b os Hb) as (? & ? & ? & ?). }
  specialize (Hle Hne).
  assert (∀ b os, batches !! b = Some os → ChunkIterator.batch_gives c b os ∧ os ≠ []) as Hgives.
  { intros b os Hb. destruct (Hrows b os Hb) as (rows & Hr & Hos & Hn). split; [|done].
    eapply batch_done; [done|by apply Hbatches|done|]. unfold zlen. lia. }
  apply (ChunkIterator.calls_pending c batches Hgives ltac:(lia) k 0 0 [] ChunkIterator.init);
    [|rewrite drop_0; cbn [List.length plus]; lia|unfold zlen; lia].
  split; simpl; [done|done|lia|lia|lia|done].
Qed.

(** ** A table of four columns in two batches *)

(** A Python that shows the calls: an object is the tuple of its arguments.  It
    makes no decimals of negative numbers. *)
#[local] Instance showing_python : Python := {|
  call f args :=
    match f, args with
    | scaleb d, _ => Some (PyTuple (Some <$> d :: args))
    | decimal_Decimal, [PyLong z] => if z <? 0 then None else Some (PyTuple [Some (PyLong z)])
    | _, _ => Some (PyTuple (Some <$> args))
    end;
  valid_utf8 _ := true;
  set_item d k v := Some (d ++ [(k, v)]) |}.

Definition order_columns : list column_info := [
  MkColumn "ID" SnowflakeType.FIXED NANOARROW_TYPE_INT64 0;
  MkColumn "PRICE" SnowflakeType.FIXED NANOARROW_TYPE_INT32 2;
  MkColumn "NAME" SnowflakeType.TEXT NANOARROW_TYPE_STRING 0;
  MkColumn "DAY" SnowflakeType.DATE NANOARROW_TYPE_DATE32 0].
Definition order_pairs (logicalType scale : string) : list kv :=
  [(text "logicalType", text logicalType); (text "scale", text scale); (text "precision", text "10")].
Definition order_field (format n logicalType scale : string) : members :=
  MkMembers (Some format) (Some n) (Some (encode (order_pairs logicalType scale))) 2 0 None None.
Definition order_schema : members :=
  MkMembers (Some "+s"%string) (Some ""%string) None 0 4 (Some [
    Some (SchemaLive (order_field "l" "ID" "fixed" "0"));
    Some (SchemaLive (order_field "i" "PRICE" "FIXED" "2"));
    Some (SchemaLive (order_field "u" "NAME" "TEXT" "0"));
    Some (SchemaLive (order_field "tdD" "DAY" "DATE" "0"))]) None.
(** A column of a fixed width, with a bitmap of the rows that are not null. *)
Definition fixed_view (type : ArrowType) (w : nat) (valid : Z) (l : list Z) : ArrowArrayView :=
  MkArrayView 0 (zlen l) 0 type (ArrowLayoutInit type)
    [MkView (Some [valid]) 1; MkView (Some (concat (le_bytes w <$> l))) (Z.of_nat w * zlen l); MkView None 0] 0
    None None None.
Definition text_view (l : list string) : ArrowArrayView :=
  let data := concat (text <$> l) in
  MkArrayView 0 (zlen l) 0 NANOARROW_TYPE_STRING (ArrowLayoutInit NANOARROW_TYPE_STRING)
    [MkView None 0; MkView (Some (concat (le_bytes 4 <$> offsets (text <$> l)))) (4 * (zlen l + 1));
     MkView (Some data) (zlen data)] 0 None None None.
Definition orders (n valid : Z) (ids prices : list Z) (names : list string) (days : list Z) : ArrowArrayView :=
  MkArrayView 0 n 0 NANOARROW_TYPE_STRUCT (ArrowLayoutInit NANOARROW_TYPE_STRUCT)
    [MkView None 0; MkView None 0; MkView None 0] 4
    (Some [Some (fixed_view NANOARROW_TYPE_INT64 8 255 ids); Some (fixed_view NANOARROW_TYPE_INT32 4 valid prices);
           Some (text_view names); Some (fixed_view NANOARROW_TYPE_INT32 4 255 days)]) None None.
Definition order_source (dictionaries : bool) : ChunkIterator.source :=
  ChunkIterator.MkSource order_schema
    [ArrayLive (MkArray 2 0 0 1 4 [None] None None None); ArrayLive (MkArray 1 0 0 1 4 [None] None None None)]
    [orders 2 1 [7; -8] [-5; 0] ["ab"; ""]%string [0; 19000]; orders 1 255 [9] [1250] ["c"]%string [-1]]
    false false dictionaries.
Definition order_cells : list (list (list (option cell))) := [
  [[Some (Number 7); Some (Number (-5)); Some (Text [97; 98]); Some (Number 0)];
   [Some (Number (-8)); None; Some (Text []); Some (Number 19000)]];
  [[Some (Number 9); Some (Number 1250); Some (Text [99]); Some (Number (-1))]]].
Definition py (l : list PyObject) : PyObject := PyTuple (Some <$> l).
Definition order_rows : list ChunkIterator.row_result := [
  inl Raised;
  inr (py [PyLong (-8); PyNone; PyUnicode []; py [PyLong 738163]]);
  inr (py [PyLong 9; py [py [PyLong 1250]; PyLong (-2)]; PyUnicode [99]; py [PyLong 719162]])].

Lemma text_ok s : bytes_ok (text s).
Proof.
  unfold text, bytes_of_string. apply Forall_fmap, Forall_forall. intros ch _. unfold byte_ok. simpl.
  pose proof (N_ascii_bounded ch). lia.
Qed.
Ltac order_field :=
  split; [reflexivity|eexists; split; vm_compute; reflexivity|];
  match goal with |- context [order_field _ _ ?type ?scale] =>
    exists (order_pairs type scale); split; [split; [split|]|split_and!; [exists type; split| |]] end;
  [repeat apply Forall_cons_2; [..|apply Forall_nil_2]; split_and!; try apply text_ok; by vm_compute
  |by vm_compute|exists []; by rewrite app_nil_r|by vm_compute|apply (bool_decide_unpack _); vm_compute; exact I
  |intros _; split; [by vm_compute|simpl; width]|intros _; exists 10; split; [by vm_compute|width]].
Lemma order_described dictionaries : describes_table (order_source dictionaries) order_columns.
Proof.
  split; [|reflexivity|vm_compute; discriminate].
  intros [|[|[|[|j]]]] col Hj; try discriminate Hj; injection Hj as <-; (split; [reflexivity|]);
    eexists; (split; [reflexivity|]); order_field.
Qed.
Ltac shown := split; [vm_compute; reflexivity|]; (vm_compute; reflexivity) || (eexists; split; vm_compute; reflexivity).
Lemma order_shown dictionaries b rows :
  order_cells !! b = Some rows → shows_batch (order_source dictionaries) order_columns b rows ∧ rows ≠ [].
Proof.
  intros Hb. destruct b as [|[|b]]; [| |discriminate Hb]; injection Hb as <-; (split; [|discriminate]); split;
    try (eexists; split; reflexivity).
  all: eexists; (split; [reflexivity|]); intros [|[|[|[|j]]]] col Hj; try discriminate Hj; injection Hj as <-;
    eexists; (split; [reflexivity|]); intros [|[|r]] row x Hr Hx; try discriminate Hr; injection Hr as <-;
    injection Hx as <-; (vm_compute; reflexivity) || shown.
Qed.
Lemma table_rows_witness :
  ∃ t', ChunkIterator.calls (order_source false) 5 ChunkIterator.init =
    Done ((ChunkIterator.row <$> order_rows) ++ [ChunkIterator.row (inr PyNone); ChunkIterator.row (inr PyNone)]) t'.
Proof.
  apply (table_rows showing_python (order_source false) order_columns order_cells order_rows 2).
  - apply order_described.
  - apply order_shown.
  - reflexivity.
  - vm_compute. reflexivity.
  - vm_compute. discriminate.
Defined.
(** The same table as dictionaries. *)
Example order_dictionaries :
  match mapM (python_row (order_source true) order_columns) (concat order_cells) with
  | Some [inl Raised; inr (PyDict d); _] => d.*1 = (λ n, PyUnicode (text n)) <$> ["ID"; "PRICE"; "NAME"; "DAY"]%string
  | _ => False
  end.
Proof. vm_compute. reflexivity. Qed.
End TableRows.
