(* ===== verification/FlatBuffers.v ===== *)
(** * FlatBuffers: reading and verifying (nanoarrow_ipc.c, flatcc.c)

    Arrow messages are FlatBuffers: tables whose fields are found through a
    vtable, vectors and strings behind 32-bit offsets.  The first part models
    the accessor macros of the generated code ([__flatbuffers_read_vt] and those
    built on it), which check nothing: a pointer is a position in the memory
    [buf] of the message or NULL, and an access outside of [buf] or through NULL
    has no result.  The second part models the verifier of flatcc.c, which is
    meant to make those accesses safe, with the 32- and 16-bit arithmetic of the
    source ([size_t] has 64 bits).  The last part proves that it does: each
    function that verifies a field implies that the accessor of that field stays
    inside the memory.

    Not modelled: verification of union vectors, string vectors, structs as
    roots and nested roots, which no Arrow message uses. *)

From stdpp Require Import base numbers list option.
From S2P Require Import Prelude CInt.
#[local] Open Scope Z_scope.

(** ** Accessors *)

(** A pointer into the message: NULL or a position. *)
Abbreviation loc := (option Z).

(** The characters before the terminating NUL. *)
Fixpoint until_nul (l : list Z) : option (list Z) :=
  match l with
  | [] => None
  | b :: l' => if b =? 0 then Some [] else cons b <$> until_nul l'
  end.

Section reader.
Variable buf : list Z.

Definition __flatbuffers_read_vt (ID : Z) (t : loc) : option Z :=
  t ← t;
  s ← load_i 4 buf t;
  n ← load_u 2 buf (t - s);
  if 2 * (ID + 3) <=? n then load_u 2 buf (t - s + 2 * (ID + 2)) else Some 0.
Definition __flatbuffers_field_present (ID : Z) (t : loc) : option bool :=
  o ← __flatbuffers_read_vt ID t;
  Some (negb (o =? 0)).
(** [read] is the [read_from_pe] function of the scalar type, [V] the default. *)
Definition __flatbuffers_scalar_field (read : list Z → Z → option Z) (ID V : Z) (t : loc) : option Z :=
  o ← __flatbuffers_read_vt ID t;
  if o =? 0 then Some V else t ← t; read buf (t + o).
Definition __flatbuffers_offset_field (ID adjust : Z) (t : loc) : option loc :=
  o ← __flatbuffers_read_vt ID t;
  if o =? 0 then Some None
  else t ← t; u ← load_u 4 buf (t + o); Some (Some (t + o + adjust + u)).
Definition __flatbuffers_vector_field (ID : Z) : loc → option loc := __flatbuffers_offset_field ID 4.
Definition __flatbuffers_table_field (ID : Z) : loc → option loc := __flatbuffers_offset_field ID 0.
Definition __flatbuffers_union_type_field (ID : Z) : loc → option Z :=
  __flatbuffers_scalar_field (load_u 1) ID 0.

Definition __flatbuffers_vec_len (vec : loc) : option Z :=
  match vec with None => Some 0 | Some p => load_u 4 buf (p - 4) end.
Definition __flatbuffers_scalar_vec_at (read : list Z → Z → option Z) (size : Z) (vec : loc) (i : Z) :
    option Z :=
  p ← vec; read buf (p + size * i).
Definition __flatbuffers_struct_vec_at (size : Z) (vec : loc) (i : Z) : option loc :=
  p ← vec; Some (Some (p + size * i)).
Definition __flatbuffers_offset_vec_at (vec : loc) (i adjust : Z) : option loc :=
  p ← vec; u ← load_u 4 buf (p + 4 * i); Some (Some (p + 4 * i + u + adjust)).
(** A member of a struct, at [off]. *)
Definition __flatbuffers_struct_scalar_field (read : list Z → Z → option Z) (off : Z) (t : loc) : option Z :=
  match t with None => Some 0 | Some p => read buf (p + off) end.
(** The root table of a message without file identifier. *)
Definition __flatbuffers_read_root : option loc := u ← load_u 4 buf 0; Some (Some u).

(** A NUL-terminated string at a pointer. *)
Definition c_string (p : loc) : option (list Z) :=
  p ← p; if p <? 0 then None else until_nul (drop (Z.to_nat p) buf).
End reader.

(** ** The verifier *)
Inductive flatcc_verify_error_no : Set :=
  | flatcc_verify_error_buffer_header_too_small
  | flatcc_verify_error_identifier_mismatch
  | flatcc_verify_error_max_nesting_level_reached
  | flatcc_verify_error_required_field_missing
  | flatcc_verify_error_runtime_buffer_header_not_aligned
  | flatcc_verify_error_runtime_buffer_size_too_large
  | flatcc_verify_error_string_not_zero_terminated
  | flatcc_verify_error_string_out_of_range
  | flatcc_verify_error_table_field_not_aligned
  | flatcc_verify_error_table_field_out_of_range
  | flatcc_verify_error_table_header_out_of_range_or_unaligned
  | flatcc_verify_error_vector_header_out_of_range_or_unaligned
  | flatcc_verify_error_string_header_out_of_range_or_unaligned
  | flatcc_verify_error_table_size_out_of_range
  | flatcc_verify_error_type_field_absent_from_required_union_field
  | flatcc_verify_error_union_cannot_have_a_table_without_a_type
  | flatcc_verify_error_union_type_NONE_cannot_have_a_value
  | flatcc_verify_error_vector_count_exceeds_representable_vector_size
  | flatcc_verify_error_vector_out_of_range
  | flatcc_verify_error_vtable_header_out_of_range
  | flatcc_verify_error_vtable_header_too_small
  | flatcc_verify_error_vtable_offset_out_of_range_or_unaligned
  | flatcc_verify_error_vtable_size_out_of_range_or_unaligned.

(** A verification step: [None] is an access outside of the memory, [inl] an
    error, [inr] a result; [flatcc_verify_ok] is [Some (inr tt)]. *)
Definition V (A : Type) : Type := option (flatcc_verify_error_no + A).
Definition vret {A} (a : A) : V A := Some (inr a).
Definition vbind {A B} (m : V A) (k : A → V B) : V B :=
  match m with
  | None => None
  | Some (inl e) => Some (inl e)
  | Some (inr a) => k a
  end.
Definition vread {A} (o : option A) : V A := inr <$> o.
Definition verify (cond : bool) (reason : flatcc_verify_error_no) : V unit :=
  if cond then vret tt else Some (inl reason).
Definition flatcc_verify_ok : V unit := vret tt.

Declare Scope v_scope.
Delimit Scope v_scope with v.
Notation "'let*' x ':=' m 'in' k" := (vbind m (λ x, k))
  (at level 10, x name, m at level 100, k at level 200) : v_scope.
Notation "m ';;;' k" := (vbind m (λ _, k))
  (at level 100, k at level 200, right associativity) : v_scope.
#[local] Open Scope v_scope.

Record flatcc_table_verifier_descriptor : Set := MkTd {
  td_end : Z;
  td_ttl : Z;
  td_vtable : Z;
  td_table : Z;
  td_tsize : Z;
  td_vsize : Z;
}.
Record flatcc_union_verifier_descriptor : Set := MkUd {
  ud_end : Z;
  ud_ttl : Z;
  ud_type : Z;
  ud_base : Z;
  ud_offset : Z;
}.
Abbreviation table_verifier := (flatcc_table_verifier_descriptor → V unit).
Abbreviation union_verifier := (flatcc_union_verifier_descriptor → V unit).

Definition FLATCC_VERIFIER_MAX_LEVELS : Z := 100.

(** [!(k & mask)] *)
Definition masked (k mask : Z) : bool := Z.land k mask =? 0.

Section verifier.
(** The memory of the message and its address. *)
Variables (buf : list Z) (addr : Z).

Definition read_uoffset (base : Z) : V Z := vread (load_u 4 buf base).
Definition read_voffset (base : Z) : V Z := vread (load_u 2 buf base).

Definition check_header (end_ base offset : Z) : bool :=
  let k := u32 (base + offset) in
  (base <? k) && (k + 4 <=? end_) && masked k 3.
Definition check_aligned_header (end_ base offset align : Z) : bool :=
  let k := u32 (base + offset) in
  let align := if align <? 4 then 4 else align in
  (base <? k) && (k + 4 <=? end_) && masked (k + 4) (Z.lor 3 (align - 1)).

Definition read_vt_entry (td : flatcc_table_verifier_descriptor) (id : Z) : V Z :=
  let vo := u16 ((id + 2) * 2) in
  if td_vsize td <=? vo then vret 0 else read_voffset (td_vtable td + vo).

Definition verify_field (td : flatcc_table_verifier_descriptor) (id : Z) (required : bool)
    (size align : Z) : V unit :=
  let* vte := read_vt_entry td id in
  if vte =? 0 then verify (negb required) flatcc_verify_error_required_field_missing
  else
    let k2 := u32 (vte + size) in
    verify (k2 <=? td_tsize td) flatcc_verify_error_table_field_out_of_range ;;;
    let k := u32 (vte + u32 (td_table td + u32 addr)) in
    verify (masked k (align - 1)) flatcc_verify_error_table_field_not_aligned.

(** The position of an offset field, 0 when it is absent. *)
Definition get_offset_field (td : flatcc_table_verifier_descriptor) (id : Z) (required : bool) : V Z :=
  let* vte := read_vt_entry td id in
  if vte =? 0 then
    verify (negb required) flatcc_verify_error_required_field_missing ;;; vret 0
  else
    let k2 := u32 (vte + 4) in
    verify (k2 <=? td_tsize td) flatcc_verify_error_table_field_out_of_range ;;;
    let k := u32 (vte + td_table td) in
    verify (masked k 3) flatcc_verify_error_table_field_not_aligned ;;;
    vret k.
(** [check_field(td, id, required, base); rest] *)
Definition check_field (td : flatcc_table_verifier_descriptor) (id : Z) (required : bool)
    (rest : Z → V unit) : V unit :=
  let* base := get_offset_field td id required in
  if base =? 0 then flatcc_verify_ok else rest base.

Definition verify_string (end_ base offset : Z) : V unit :=
  verify (check_header end_ base offset)
    flatcc_verify_error_string_header_out_of_range_or_unaligned ;;;
  let base := u32 (base + offset) in
  let* n := read_uoffset base in
  let base := u32 (base + 4) in
  verify (n <? u32 (end_ - base)) flatcc_verify_error_string_out_of_range ;;;
  let* b := vread (znth buf (base + n)) in
  verify (b =? 0) flatcc_verify_error_string_not_zero_terminated.

Definition verify_vector (end_ base offset elem_size align max_count : Z) : V unit :=
  verify (check_aligned_header end_ base offset align)
    flatcc_verify_error_vector_header_out_of_range_or_unaligned ;;;
  let base := u32 (base + offset) in
  let* n := read_uoffset base in
  let base := u32 (base + 4) in
  verify (n <=? max_count)
    flatcc_verify_error_vector_count_exceeds_representable_vector_size ;;;
  verify (u32 (n * elem_size) <=? u32 (end_ - base)) flatcc_verify_error_vector_out_of_range.

Definition verify_table (end_ base offset ttl : Z) (tvf : table_verifier) : V unit :=
  let ttl := ttl - 1 in
  verify (negb (ttl =? 0)) flatcc_verify_error_max_nesting_level_reached ;;;
  verify (check_header end_ base offset)
    flatcc_verify_error_table_header_out_of_range_or_unaligned ;;;
  let table := u32 (base + offset) in
  let* s := read_uoffset table in
  let vbase := u32 (table - s) in
  verify ((0 <=? i32 vbase) && masked vbase 1)
    flatcc_verify_error_vtable_offset_out_of_range_or_unaligned ;;;
  verify (vbase + 2 <=? end_) flatcc_verify_error_vtable_header_out_of_range ;;;
  let* vsize := read_voffset vbase in
  let vend := u32 (vbase + vsize) in
  verify ((vend <=? end_) && masked vsize 1)
    flatcc_verify_error_vtable_size_out_of_range_or_unaligned ;;;
  verify (4 <=? vsize) flatcc_verify_error_vtable_header_too_small ;;;
  let* tsize := read_voffset (u32 (vbase + 2)) in
  verify (tsize <=? u32 (end_ - table)) flatcc_verify_error_table_size_out_of_range ;;;
  tvf (MkTd end_ ttl vbase table tsize vsize).

(** The loop over the elements of a vector of tables, from position [base]. *)
Fixpoint verify_tables (n : nat) (end_ base ttl : Z) (tvf : table_verifier) : V unit :=
  match n with
  | O => flatcc_verify_ok
  | S n' =>
      let* offset := read_uoffset base in
      verify_table end_ base offset ttl tvf ;;;
      verify_tables n' end_ (u32 (base + 4)) ttl tvf
  end.
Definition FLATBUFFERS_COUNT_MAX (elem_size : Z) : Z := UINT32_MAX / (if elem_size =? 0 then 1 else elem_size).
Definition verify_table_vector (end_ base offset ttl : Z) (tvf : table_verifier) : V unit :=
  verify (0 <? ttl) flatcc_verify_error_max_nesting_level_reached ;;;
  let ttl := ttl - 1 in
  verify_vector end_ base offset 4 4 (FLATBUFFERS_COUNT_MAX 4) ;;;
  let base := u32 (base + offset) in
  let* n := read_uoffset base in
  let base := u32 (base + 4) in
  verify_tables (Z.to_nat n) end_ base ttl tvf.

(** The functions the generated verifiers call. *)
Definition flatcc_verify_field (td : flatcc_table_verifier_descriptor) (id size align : Z) : V unit :=
  verify_field td id false (u32 size) align.
Definition flatcc_verify_string_field (td : flatcc_table_verifier_descriptor) (id : Z) (required : bool) :
    V unit :=
  check_field td id required (λ base,
    let* offset := read_uoffset base in verify_string (td_end td) base offset).
Definition flatcc_verify_vector_field (td : flatcc_table_verifier_descriptor) (id : Z) (required : bool)
    (elem_size align max_count : Z) : V unit :=
  check_field td id required (λ base,
    let* offset := read_uoffset base in
    verify_vector (td_end td) base offset (u32 elem_size) align (u32 max_count)).
Definition flatcc_verify_table_field (td : flatcc_table_verifier_descriptor) (id : Z) (required : bool)
    (tvf : table_verifier) : V unit :=
  check_field td id required (λ base,
    let* offset := read_uoffset base in
    verify_table (td_end td) base offset (td_ttl td) tvf).
Definition flatcc_verify_table_vector_field (td : flatcc_table_verifier_descriptor) (id : Z)
    (required : bool) (tvf : table_verifier) : V unit :=
  check_field td id required (λ base,
    let* offset := read_uoffset base in
    verify_table_vector (td_end td) base offset (td_ttl td) tvf).
Definition flatcc_verify_union_table (ud : flatcc_union_verifier_descriptor) (tvf : table_verifier) :
    V unit :=
  verify_table (ud_end ud) (ud_base ud) (ud_offset ud) (ud_ttl ud) tvf.
Definition flatcc_verify_union_field (td : flatcc_table_verifier_descriptor) (id : Z) (required : bool)
    (uvf : union_verifier) : V unit :=
  let* vte_type := read_vt_entry td (id - 1) in
  if vte_type =? 0 then
    let* vte_table := read_vt_entry td id in
    verify (vte_table =? 0) flatcc_verify_error_union_cannot_have_a_table_without_a_type ;;;
    verify (negb required) flatcc_verify_error_type_field_absent_from_required_union_field
  else
    verify_field td (id - 1) false 1 1 ;;;
    let* vte_table := read_vt_entry td id in
    let* type := vread (load_u 1 buf (td_table td + vte_type)) in
    verify (negb (type =? 0) || (vte_table =? 0))
      flatcc_verify_error_union_type_NONE_cannot_have_a_value ;;;
    if type =? 0 then flatcc_verify_ok
    else
      check_field td id required (λ base,
        let* offset := read_uoffset base in
        uvf (MkUd (td_end td) (td_ttl td) type base offset)).

(** [fid] is the type hash of the file identifier, [None] for a NULL one. *)
Definition flatcc_verify_buffer_header (bufsiz : Z) (fid : option Z) : V unit :=
  verify (masked addr 3) flatcc_verify_error_runtime_buffer_header_not_aligned ;;;
  verify (bufsiz <=? UINT32_MAX - 8) flatcc_verify_error_runtime_buffer_size_too_large ;;;
  verify (8 <=? bufsiz) flatcc_verify_error_buffer_header_too_small ;;;
  match fid with
  | None => flatcc_verify_ok
  | Some id2 =>
      let* id := vread (load_u 4 buf 4) in
      verify ((id2 =? 0) || (id =? id2)) flatcc_verify_error_identifier_mismatch
  end.
Definition flatcc_verify_table_as_root (bufsiz : Z) (fid : option Z) (tvf : table_verifier) : V unit :=
  flatcc_verify_buffer_header (u32 bufsiz) fid ;;;
  let* offset := read_uoffset 0 in
  verify_table (u32 bufsiz) 0 offset FLATCC_VERIFIER_MAX_LEVELS tvf.
End verifier.

(** ** What can be read

    For a table at [t]: the field [id] can be read.  These are statements about
    the accessors, not about the verifier. *)
Section valid.
Variable buf : list Z.

(** A scalar or struct field of [size] bytes. *)
Definition field_valid (size id t : Z) : Prop :=
  ∃ o, __flatbuffers_read_vt buf id (Some t) = Some o ∧
    (o = 0 ∨ 0 <= t + o ∧ t + o + size <= zlen buf).
Definition string_valid (id t : Z) : Prop :=
  ∃ p, __flatbuffers_vector_field buf id (Some t) = Some p ∧
    (p = None ∨ is_Some (c_string buf p)).
(** A vector of elements of [size] bytes. *)
Definition vector_valid (size id t : Z) : Prop :=
  ∃ p n, __flatbuffers_vector_field buf id (Some t) = Some p ∧
    __flatbuffers_vec_len buf p = Some n ∧ 0 <= n ∧
    (∀ q, p = Some q → 0 <= q ∧ q + size * n <= zlen buf).
(** A table field whose table, if any, has property [P]. *)
Definition table_valid (P : Z → Prop) (id t : Z) : Prop :=
  ∃ p, __flatbuffers_table_field buf id (Some t) = Some p ∧ (∀ q, p = Some q → P q).
Definition tables_valid (P : Z → Prop) (id t : Z) : Prop :=
  ∃ v n, __flatbuffers_vector_field buf id (Some t) = Some v ∧
    __flatbuffers_vec_len buf v = Some n ∧ 0 <= n <= UINT32_MAX ∧
    (∀ i, 0 <= i < n → ∃ q, __flatbuffers_offset_vec_at buf v i 0 = Some (Some q) ∧ P q).
(** A union field: its type is the field before it. *)
Definition union_valid (P : Z → Z → Prop) (id t : Z) : Prop :=
  ∃ type p, __flatbuffers_union_type_field buf (id - 1) (Some t) = Some type ∧
    __flatbuffers_table_field buf id (Some t) = Some p ∧
    (type = 0 → p = None) ∧ (∀ q, p = Some q → P type q).
End valid.

(** ** Soundness of the verifier *)

(** [m] stays inside the memory, and [Q] holds of its result if there is one. *)
Definition vwp {A} (m : V A) (Q : A → Prop) : Prop :=
  match m with
  | None => False
  | Some (inl _) => True
  | Some (inr a) => Q a
  end.
Lemma vwp_bind {A B} (m : V A) (k : A → V B) Q :
  vwp m (λ a, vwp (k a) Q) → vwp (vbind m k) Q.
Proof. by destruct m as [[]|]. Qed.
Lemma vwp_verify c reason (Q : unit → Prop) : (c = true → Q tt) → vwp (verify c reason) Q.
Proof. destruct c; cbn; auto. Qed.
Lemma vwp_mono {A} (m : V A) (Q Q' : A → Prop) : vwp m Q → (∀ a, Q a → Q' a) → vwp m Q'.
Proof. destruct m as [[]|]; cbn; auto. Qed.
Lemma vwp_read {A} (o : option A) Q : (∃ a, o = Some a ∧ Q a) → vwp (vread o) Q.
Proof. by intros (a & -> & ?). Qed.

Lemma load_u_bound n buf p v :
  bytes_ok buf → load_u n buf p = Some v → 0 <= v < 2 ^ (8 * Z.of_nat n).
Proof.
  intros Hb. unfold load_u. intros (d & Hd & ->)%fmap_Some.
  pose proof (zslice_Some _ _ _ _ Hd) as (? & ? & ? & Hdd).
  assert (zlen d = Z.of_nat n) as Hlen by (by eapply zslice_zlen).
  rewrite <-pow256_pow2, <-Hlen. apply le_val_bound. rewrite Hdd.
  by apply Forall_take, Forall_drop.
Qed.
Lemma masked_even k : masked k 1 = true → k mod 2 = 0.
Proof.
  unfold masked. intros H%Z.eqb_eq. change 1 with (Z.ones 1) in H.
  by rewrite Z.land_ones in H by lia.
Qed.

(** A loaded value and its range. *)
Lemma load_u_ok n buf p :
  bytes_ok buf → 0 <= p → p + Z.of_nat n <= zlen buf →
  ∃ v, load_u n buf p = Some v ∧ 0 <= v < 2 ^ (8 * Z.of_nat n).
Proof.
  intros Hb Hp Hn. destruct (load_u_in n buf p Hp Hn) as [v Hv].
  exists v. split; [done|]. by eapply load_u_bound.
Qed.
Lemma u32_small z : 0 <= z < 2 ^ 32 → u32 z = z.
Proof. apply uwrap_small. Qed.
Lemma u16_small z : 0 <= z < 2 ^ 16 → u16 z = z.
Proof. apply uwrap_small. Qed.
(** An offset that does not lead backwards did not wrap around. *)
Lemma u32_forward base offset :
  0 <= base < 2 ^ 32 → 0 <= offset < 2 ^ 32 → base < u32 (base + offset) →
  u32 (base + offset) = base + offset.
Proof.
  intros Hb Ho Hlt. destruct (Z.lt_ge_cases (base + offset) (2 ^ 32)); [apply u32_small; lia|].
  revert Hlt. unfold u32, uwrap.
  replace (base + offset) with (base + offset - 2 ^ 32 + 1 * 2 ^ 32) by lia.
  rewrite Z.mod_add by lia. rewrite Z.mod_small by lia. lia.
Qed.

(** The verifier computes the position of the vtable in unsigned arithmetic, the
    accessors in signed arithmetic. *)
Lemma vtable_position t s :
  0 <= t < 2 ^ 31 → 0 <= s < 2 ^ 32 → 0 <= i32 (u32 (t - s)) →
  u32 (t - s) = t - swrap 32 s ∧ 0 <= t - swrap 32 s < 2 ^ 31.
Proof.
  intros Ht Hs Hv. unfold i32, u32, uwrap in *. rewrite swrap_mod in Hv by lia.
  assert (swrap 32 s = s ∧ s < 2 ^ 31 ∨ swrap 32 s = s - 2 ^ 32 ∧ 2 ^ 31 <= s) as [[Hw ?]|[Hw ?]].
  { destruct (Z.lt_ge_cases s (2 ^ 31)); [left; rewrite swrap_small; lia|right].
    unfold swrap. change (2 ^ (32 - 1)) with (2 ^ 31).
    replace (s + 2 ^ 31) with (s - 2 ^ 31 + 1 * 2 ^ 32) by lia.
    rewrite Z.mod_add, Z.mod_small by lia. lia. }
  - rewrite Hw in *. rewrite swrap_small in Hv by lia. rewrite Z.mod_small by lia. lia.
  - rewrite Hw in *. replace (t - s) with (t - (s - 2 ^ 32) + (-1) * 2 ^ 32) in * by lia.
    rewrite Z.mod_add by lia. destruct (Z.lt_ge_cases (t - (s - 2 ^ 32)) (2 ^ 31)).
    + rewrite Z.mod_small by lia. lia.
    + exfalso. revert Hv. rewrite swrap_small by lia. lia.
Qed.

Lemma until_nul_is_Some l (i : nat) : l !! i = Some 0 → is_Some (until_nul l).
Proof.
  revert i. induction l as [|b l IH]; [done|]. intros [|i] Hi; cbn in *.
  - injection Hi as ->. eauto.
  - destruct (b =? 0); [eauto|]. destruct (IH i Hi) as [x ->]. eauto.
Qed.

Section soundness.
Variables (buf : list Z) (addr end_ : Z).
Hypothesis Hbuf : bytes_ok buf.
Hypothesis Hend : end_ <= zlen buf.
(** The size of a message is an [int32_t]. *)
Hypothesis Hmax : end_ <= INT32_MAX.

(** What [verify_table] establishes before it calls the verifier of the type. *)
Record td_ok (td : flatcc_table_verifier_descriptor) : Prop := {
  ok_end : td_end td = end_;
  ok_table : 0 <= td_table td;
  ok_header : td_table td + 4 <= end_;
  ok_vtable : 0 <= td_vtable td;
  ok_vsize : 4 <= td_vsize td < 2 ^ 16;
  ok_even : td_vsize td mod 2 = 0;
  ok_vend : td_vtable td + td_vsize td <= end_;
  ok_tsize : 0 <= td_tsize td < 2 ^ 16;
  ok_tend : td_table td + td_tsize td <= end_;
  ok_soffset : load_i 4 buf (td_table td) = Some (td_table td - td_vtable td);
  ok_vlen : load_u 2 buf (td_vtable td) = Some (td_vsize td);
}.

Lemma read_vt_entry_spec td id :
  td_ok td → 0 <= id < 100 →
  ∃ v, read_vt_entry buf td id = vret v ∧
    __flatbuffers_read_vt buf id (Some (td_table td)) = Some v ∧ 0 <= v < 2 ^ 16.
Proof.
  intros [He Ht Hh Hv [Hvs1 Hvs2] Hev Hve [Hts1 Hts2] Hte Hs Hl] Hid.
  unfold read_vt_entry, __flatbuffers_read_vt. cbn [mbind option_bind]. rewrite Hs.
  cbn [mbind option_bind]. replace (td_table td - (td_table td - td_vtable td)) with (td_vtable td) by lia.
  rewrite Hl. cbn [mbind option_bind]. rewrite u16_small by lia.
  pose proof (Z.div_mod (td_vsize td) 2 ltac:(lia)) as Hdm. rewrite Hev in Hdm.
  destruct (Z.leb_spec (td_vsize td) ((id + 2) * 2)) as [Hle|Hle].
  - exists 0. split; [done|]. destruct (Z.leb_spec (2 * (id + 3)) (td_vsize td)); [lia|].
    split; [done|lia].
  - destruct (Z.leb_spec (2 * (id + 3)) (td_vsize td)); [|lia].
    destruct (load_u_ok 2 buf (td_vtable td + (id + 2) * 2)) as (v & Hld & Hb); [done|lia|lia|].
    exists v. unfold read_voffset. rewrite Hld.
    replace (2 * (id + 2)) with ((id + 2) * 2) by lia. rewrite Hld. split; [done|]. split; [done|lia].
Qed.

Lemma verify_field_spec td id required size align :
  td_ok td → 0 <= id < 100 → 0 <= size < 2 ^ 31 →
  vwp (verify_field buf addr td id required size align)
    (λ _, field_valid buf size id (td_table td)).
Proof.
  intros Htd Hid Hsize. destruct (read_vt_entry_spec td id Htd Hid) as (v & Hv & Hr & Hb).
  destruct Htd. unfold verify_field. apply vwp_bind. rewrite Hv. cbn [vwp vret].
  destruct (Z.eqb_spec v 0) as [->|Hne].
  - apply vwp_verify. intros _. exists 0. auto.
  - apply vwp_bind, vwp_verify. intros Hk%Z.leb_le. rewrite u32_small in Hk by lia.
    apply vwp_verify. intros _. exists v. split; [done|]. right. lia.
Qed.

Lemma get_offset_field_spec td id required :
  td_ok td → 0 <= id < 100 →
  vwp (get_offset_field buf td id required)
    (λ base, ∃ o, __flatbuffers_read_vt buf id (Some (td_table td)) = Some o ∧
       (o = 0 ∧ base = 0 ∨ o ≠ 0 ∧ base = td_table td + o ∧ 0 < base ∧ base + 4 <= end_)).
Proof.
  intros Htd Hid. destruct (read_vt_entry_spec td id Htd Hid) as (v & Hv & Hr & Hb).
  destruct Htd. unfold get_offset_field. apply vwp_bind. rewrite Hv. cbn [vwp vret].
  unfold INT32_MAX in Hmax. destruct (Z.eqb_spec v 0) as [->|Hne].
  - apply vwp_bind, vwp_verify. intros _. cbn. exists 0. auto.
  - apply vwp_bind, vwp_verify. intros Hk%Z.leb_le. rewrite u32_small in Hk by lia.
    apply vwp_bind, vwp_verify. intros _. rewrite u32_small by lia. cbn.
    exists v. split; [done|]. right. lia.
Qed.

(** The value of an offset field, absent or behind an offset read at [base]. *)
Lemma offset_field_spec td id required adjust (rest : Z → V unit) (Q : loc → Prop) :
  td_ok td → 0 <= id < 100 → Q None →
  (∀ base offset, 0 < base → base + 4 <= end_ → load_u 4 buf base = Some offset →
     0 <= offset < 2 ^ 32 → vwp (rest base) (λ _, Q (Some (base + adjust + offset)))) →
  vwp (check_field buf td id required rest)
    (λ _, ∃ p, __flatbuffers_offset_field buf id adjust (Some (td_table td)) = Some p ∧ Q p).
Proof.
  intros Htd Hid HN HS. unfold check_field. apply vwp_bind.
  eapply vwp_mono; [by apply get_offset_field_spec|].
  intros base (o & Ho & [[-> ->]|(Hne & -> & Hpos & He)]); cbn beta.
  - cbn [Z.eqb vwp flatcc_verify_ok vret]. exists None. split; [|done].
    unfold __flatbuffers_offset_field. by rewrite Ho.
  - destruct (Z.eqb_spec (td_table td + o) 0); [lia|].
    destruct (load_u_ok 4 buf (td_table td + o)) as (u & Hu & Hub); [done|lia|lia|].
    eapply vwp_mono; [by apply (HS _ u)|]. intros [] HQ.
    exists (Some (td_table td + o + adjust + u)). split; [|done].
    unfold __flatbuffers_offset_field. rewrite Ho. cbn [mbind option_bind].
    destruct (Z.eqb_spec o 0); [done|]. by rewrite Hu.
Qed.

Lemma string_field_spec td id required :
  td_ok td → 0 <= id < 100 →
  vwp (flatcc_verify_string_field buf td id required) (λ _, string_valid buf id (td_table td)).
Proof.
  intros Htd Hid. unfold INT32_MAX in Hmax. apply (offset_field_spec td id required 4); [done|done|auto|].
  intros base offset Hb Hbe Ho Hob. apply vwp_bind, vwp_read. exists offset. split; [done|].
  rewrite (ok_end td Htd). unfold verify_string.
  apply vwp_bind, vwp_verify. unfold check_header. intros Hc. zbool.
  rewrite u32_forward in * by lia.
  apply vwp_bind. destruct (load_u_ok 4 buf (base + offset)) as (n & Hn & Hnb); [done|lia|lia|].
  apply vwp_read. exists n. split; [done|].
  apply vwp_bind, vwp_verify. intros Hlt%Z.ltb_lt. rewrite !u32_small in * by (rewrite ?u32_small; lia).
  apply vwp_bind, vwp_read. destruct (znth_in buf (base + offset + 4 + n)) as [b Hz]; [lia|].
  exists b. split; [done|]. apply vwp_verify. intros ->%Z.eqb_eq. right.
  cbn [c_string mbind option_bind]. destruct (Z.ltb_spec (base + 4 + offset) 0); [lia|].
  apply (until_nul_is_Some _ (Z.to_nat n)). rewrite lookup_drop.
  rewrite <-Hz. unfold znth. destruct (Z.ltb_spec (base + offset + 4 + n) 0); [lia|]. f_equal. lia.
Qed.

(** The header of a vector: its length and where its elements start. *)
Lemma verify_vector_spec base offset elem_size align max_count :
  0 < base → base + 4 <= end_ → 0 <= offset < 2 ^ 32 → 0 <= elem_size →
  max_count * elem_size < 2 ^ 32 →
  vwp (verify_vector buf end_ base offset elem_size align max_count)
    (λ _, ∃ n, load_u 4 buf (base + offset) = Some n ∧ 0 <= n <= UINT32_MAX ∧
       u32 (base + offset) = base + offset ∧
       base + offset + 4 + elem_size * n <= end_).
Proof.
  intros Hb Hbe Ho Hs Hm. unfold INT32_MAX in Hmax. unfold verify_vector.
  apply vwp_bind, vwp_verify. unfold check_aligned_header. intros Hc. zbool.
  rewrite u32_forward in * by lia.
  apply vwp_bind. destruct (load_u_ok 4 buf (base + offset)) as (n & Hn & Hnb); [done|lia|lia|].
  apply vwp_read. exists n. split; [done|].
  apply vwp_bind, vwp_verify. intros Hc%Z.leb_le. apply vwp_verify. intros Hr%Z.leb_le.
  rewrite (u32_small (base + offset + 4)) in Hr by lia.
  rewrite (u32_small (n * elem_size)) in Hr by nia. rewrite u32_small in Hr by lia.
  exists n. unfold UINT32_MAX. split; [done|]. split; [lia|]. split; [done|nia].
Qed.

Lemma vector_field_spec td id required elem_size align max_count :
  td_ok td → 0 <= id < 100 → 0 <= elem_size < 2 ^ 32 → 0 <= max_count < 2 ^ 32 →
  max_count * elem_size < 2 ^ 32 →
  vwp (flatcc_verify_vector_field buf td id required elem_size align max_count)
    (λ _, vector_valid buf elem_size id (td_table td)).
Proof.
  intros Htd Hid Hs Hm Hp. eapply vwp_mono.
  - apply (offset_field_spec td id required 4 _ (λ p, ∃ n, __flatbuffers_vec_len buf p = Some n ∧ 0 <= n ∧
      (∀ q, p = Some q → 0 <= q ∧ q + elem_size * n <= zlen buf))); [done|done| |].
    { exists 0. done. }
    intros base offset Hb Hbe Ho Hob. apply vwp_bind, vwp_read. exists offset. split; [done|].
    rewrite (ok_end td Htd), !u32_small by lia.
    eapply vwp_mono; [apply verify_vector_spec; lia|]. intros [] (n & Hn & Hnb & _ & Hlast).
    exists n. unfold __flatbuffers_vec_len.
    replace (base + 4 + offset - 4) with (base + offset) by lia. rewrite Hn.
    split; [done|]. split; [lia|]. intros q [= <-]. lia.
  - intros [] (p & Hf & n & ? & ? & ?). exists p, n. done.
Qed.

(** What verifiers of types have to do. *)
Definition sound (ttl : Z) (tvf : table_verifier) (P : Z → Prop) : Prop :=
  ∀ td, td_ok td → td_ttl td = ttl → vwp (tvf td) (λ _, P (td_table td)).

Lemma verify_table_spec base offset ttl tvf P :
  0 <= base → base + 4 <= end_ → 0 <= offset < 2 ^ 32 → sound (ttl - 1) tvf P →
  vwp (verify_table buf end_ base offset ttl tvf) (λ _, P (base + offset)).
Proof.
  intros Hb Hbe Ho HP. unfold INT32_MAX in Hmax. unfold verify_table.
  apply vwp_bind, vwp_verify. intros _. apply vwp_bind, vwp_verify. unfold check_header. intros Hc.
  zbool. rewrite u32_forward in * by lia.
  destruct (load_u_ok 4 buf (base + offset)) as (s & Hs & Hsb); [done|lia|lia|].
  apply vwp_bind, vwp_read. exists s. split; [done|].
  apply vwp_bind, vwp_verify. intros Hv. zbool.
  assert (u32 (base + offset - s) = base + offset - swrap 32 s ∧
          0 <= base + offset - swrap 32 s < 2 ^ 31) as [Hvb Hvr] by (apply vtable_position; [lia|exact Hsb|done]).
  rewrite Hvb in *. set (vt := base + offset - swrap 32 s) in *.
  apply vwp_bind, vwp_verify. intros Hh%Z.leb_le.
  destruct (load_u_ok 2 buf vt) as (vs & Hvs & Hvsb); [done|lia|lia|].
  apply vwp_bind, vwp_read. exists vs. split; [done|].
  apply vwp_bind, vwp_verify. intros He. zbool. rewrite (u32_small (vt + vs)) in * by lia.
  apply vwp_bind, vwp_verify. intros Hfour%Z.leb_le.
  rewrite (u32_small (vt + 2)) by lia.
  destruct (load_u_ok 2 buf (vt + 2)) as (ts & Hts & Htsb); [done|lia|lia|].
  apply vwp_bind, vwp_read. exists ts. split; [done|].
  apply vwp_bind, vwp_verify. intros Hte%Z.leb_le. rewrite u32_small in Hte by lia.
  eapply vwp_mono; [apply HP; [|done]|done]. constructor; cbn; try lia; try done.
  - by apply masked_even.
  - unfold load_i. rewrite Hs. cbn [fmap option_fmap option_map].
    change (8 * Z.of_nat 4) with 32. f_equal. unfold vt. lia.
Qed.

Lemma table_field_spec td id required tvf P :
  td_ok td → 0 <= id < 100 → sound (td_ttl td - 1) tvf P →
  vwp (flatcc_verify_table_field buf td id required tvf) (λ _, table_valid buf P id (td_table td)).
Proof.
  intros Htd Hid HP. apply (offset_field_spec td id required 0); [done|done|done|].
  intros base offset Hb Hbe Ho Hob. apply vwp_bind, vwp_read. exists offset. split; [done|].
  rewrite (ok_end td Htd). eapply vwp_mono; [apply verify_table_spec; [lia|done|done|done]|].
  intros [] HQ q [= <-]. by replace (base + 0 + offset) with (base + offset) by lia.
Qed.

Lemma verify_tables_spec n base ttl tvf P :
  0 <= base → base + 4 * Z.of_nat n <= end_ → sound (ttl - 1) tvf P →
  vwp (verify_tables buf n end_ base ttl tvf)
    (λ _, ∀ i, 0 <= i < Z.of_nat n →
       ∃ q, __flatbuffers_offset_vec_at buf (Some base) i 0 = Some (Some q) ∧ P q).
Proof.
  intros Hb Hn HP. unfold INT32_MAX in Hmax. revert base Hb Hn.
  induction n as [|n IH]; intros base Hb Hn; cbn [verify_tables].
  { cbn. intros i Hi. lia. }
  destruct (load_u_ok 4 buf base) as (u & Hu & Hub); [done|lia|lia|].
  apply vwp_bind, vwp_read. exists u. split; [done|]. apply vwp_bind.
  eapply vwp_mono; [apply (verify_table_spec base u ttl tvf P); [lia|lia|done|done]|].
  intros [] HQ. rewrite u32_small by lia. eapply vwp_mono; [apply IH; lia|].
  intros [] Hrest i Hi. destruct (Z.eq_dec i 0) as [->|Hi0].
  - exists (base + u). split; [|done]. unfold __flatbuffers_offset_vec_at. cbn [mbind option_bind].
    replace (base + 4 * 0) with base by lia. rewrite Hu. cbn. do 2 f_equal. lia.
  - destruct (Hrest (i - 1)) as (q & Hq & HPq); [lia|]. exists q. split; [|done]. revert Hq.
    unfold __flatbuffers_offset_vec_at. cbn [mbind option_bind].
    by replace (base + 4 + 4 * (i - 1)) with (base + 4 * i) by lia.
Qed.

Lemma table_vector_field_spec td id required tvf P :
  td_ok td → 0 <= id < 100 → (0 < td_ttl td → sound (td_ttl td - 2) tvf P) →
  vwp (flatcc_verify_table_vector_field buf td id required tvf)
    (λ _, tables_valid buf P id (td_table td)).
Proof.
  intros Htd Hid HP. unfold INT32_MAX in Hmax. eapply vwp_mono.
  - apply (offset_field_spec td id required 4 _ (λ v, ∃ n, __flatbuffers_vec_len buf v = Some n ∧
      0 <= n <= UINT32_MAX ∧
      (∀ i, 0 <= i < n → ∃ q, __flatbuffers_offset_vec_at buf v i 0 = Some (Some q) ∧ P q)));
      [done|done|exists 0; split; [done|unfold UINT32_MAX; split; [lia|intros; lia]]|].
    intros base offset Hb Hbe Ho Hob. apply vwp_bind, vwp_read. exists offset. split; [done|].
    rewrite (ok_end td Htd). unfold verify_table_vector.
    apply vwp_bind, vwp_verify. intros Httl%Z.ltb_lt. apply vwp_bind.
    eapply vwp_mono; [apply verify_vector_spec; [lia|lia|done|lia|vm_compute; done]|].
    intros [] (n & Hn & Hnb & Hu & Hlast). rewrite Hu, u32_small by lia.
    apply vwp_bind, vwp_read. exists n. split; [done|].
    eapply vwp_mono; [apply (verify_tables_spec _ _ _ _ P); [lia|lia|]|].
    { replace (td_ttl td - 1 - 1) with (td_ttl td - 2) by lia. auto. }
    intros [] HQ. exists n. unfold __flatbuffers_vec_len.
    replace (base + 4 + offset - 4) with (base + offset) by lia.
    split; [done|]. split; [done|]. intros i Hi.
    replace (base + 4 + offset) with (base + offset + 4) by lia. apply HQ. lia.
  - intros [] (v & Hf & n & ? & ? & ?). exists v, n. done.
Qed.

(** What verifiers of unions have to do. *)
Definition union_sound (ttl : Z) (uvf : union_verifier) (P : Z → Z → Prop) : Prop :=
  ∀ type base offset, 0 <= base → base + 4 <= end_ → 0 <= offset < 2 ^ 32 →
    vwp (uvf (MkUd end_ ttl type base offset)) (λ _, P type (base + offset)).

Lemma union_table_sound ttl type base offset tvf (P : Z → Prop) :
  0 <= base → base + 4 <= end_ → 0 <= offset < 2 ^ 32 → sound (ttl - 1) tvf P →
  vwp (flatcc_verify_union_table buf (MkUd end_ ttl type base offset) tvf) (λ _, P (base + offset)).
Proof. intros. by apply verify_table_spec. Qed.

Lemma union_field_spec td id required uvf P :
  td_ok td → 1 <= id < 100 → union_sound (td_ttl td) uvf P →
  vwp (flatcc_verify_union_field buf addr td id required uvf)
    (λ _, union_valid buf P id (td_table td)).
Proof.
  intros Htd Hid HP. destruct (read_vt_entry_spec td (id - 1) Htd) as (vt & Hvt & Hrt & Hbt); [lia|].
  destruct (read_vt_entry_spec td id Htd) as (v & Hv & Hr & Hbv); [lia|].
  unfold flatcc_verify_union_field. apply vwp_bind. rewrite Hvt. cbn [vwp vret].
  assert (∀ type, __flatbuffers_union_type_field buf (id - 1) (Some (td_table td)) = Some type →
    v = 0 → union_valid buf P id (td_table td)) as Hnone.
  { intros type Htype ->. exists type, None. unfold __flatbuffers_table_field, __flatbuffers_offset_field.
    rewrite Hr. done. }
  destruct (Z.eqb_spec vt 0) as [->|Hne].
  { apply vwp_bind. rewrite Hv. cbn [vwp vret]. apply vwp_bind, vwp_verify. intros Hv0%Z.eqb_eq.
    apply vwp_verify. intros _. apply (Hnone 0); [|done].
    unfold __flatbuffers_union_type_field, __flatbuffers_scalar_field. by rewrite Hrt. }
  apply vwp_bind. eapply vwp_mono; [by apply verify_field_spec; [|lia|lia]|].
  intros [] (o & Ho & Hrange). assert (o = vt) as -> by congruence.
  destruct Hrange as [?|[Hlo Hhi]]; [done|].
  apply vwp_bind. rewrite Hv. cbn [vwp vret].
  destruct (load_u_ok 1 buf (td_table td + vt)) as (type & Htype & _); [done|lia|lia|].
  assert (__flatbuffers_union_type_field buf (id - 1) (Some (td_table td)) = Some type) as Hread.
  { unfold __flatbuffers_union_type_field, __flatbuffers_scalar_field. rewrite Hrt.
    cbn [mbind option_bind]. by destruct (Z.eqb_spec vt 0). }
  apply vwp_bind, vwp_read. exists type. split; [done|].
  apply vwp_bind, vwp_verify. intros Hc. destruct (Z.eqb_spec type 0) as [->|Htn].
  { apply (Hnone 0); [done|]. cbn in Hc. by zbool. }
  eapply vwp_mono.
  - apply (offset_field_spec td id required 0 _ (λ p, ∀ q, p = Some q → P type q)); [done|lia|done|].
    intros base offset Hb Hbe Hoff Hob. apply vwp_bind, vwp_read. exists offset. split; [done|].
    rewrite (ok_end td Htd). eapply vwp_mono; [apply HP; [lia|done|done]|].
    intros [] HQ q [= <-]. by replace (base + 0 + offset) with (base + offset) by lia.
  - intros [] (p & Hf & HQ). exists type, p. split; [done|]. split; [done|]. split; [lia|done].
Qed.

(** A message that is verified as a whole. *)
Lemma table_as_root_spec fid tvf P :
  0 <= end_ → sound (FLATCC_VERIFIER_MAX_LEVELS - 1) tvf P →
  vwp (flatcc_verify_table_as_root buf addr end_ fid tvf)
    (λ _, ∃ t, __flatbuffers_read_root buf = Some (Some t) ∧ P t).
Proof.
  intros H0 HP. unfold INT32_MAX in Hmax. unfold flatcc_verify_table_as_root.
  rewrite u32_small by lia. apply vwp_bind. eapply vwp_mono with (Q := λ _, 8 <= end_).
  - unfold flatcc_verify_buffer_header. do 2 (apply vwp_bind, vwp_verify; intros _).
    apply vwp_bind, vwp_verify. intros H8%Z.leb_le. destruct fid; [|done]. apply vwp_bind, vwp_read.
    destruct (load_u_ok 4 buf 4) as (u & Hu & _); [done|lia|lia|]. exists u.
    split; [done|]. by apply vwp_verify.
  - intros [] H8. destruct (load_u_ok 4 buf 0) as (u & Hu & Hub); [done|lia|lia|].
    apply vwp_bind, vwp_read. exists u. split; [done|].
    eapply vwp_mono; [apply (verify_table_spec 0 u _ _ P); [lia|lia|done|done]|].
    intros [] HQ. exists u. unfold __flatbuffers_read_root. by rewrite Hu.
Qed.
End soundness.

Lemma tables_valid_mono buf (P Q : Z → Prop) id t :
  (∀ q, P q → Q q) → tables_valid buf P id t → tables_valid buf Q id t.
Proof.
  intros HPQ (v & n & ? & ? & ? & Hall). exists v, n.
  split; [done|]. split; [done|]. split; [done|]. intros i Hi. destruct (Hall i Hi) as (q & ? & ?). eauto.
Qed.
