(* ===== verification/Message.v ===== *)
(** * Arrow messages (the generated code of nanoarrow_ipc.c)

    The accessors and the verifiers that flatcc generates for the tables of
    Schema.fbs, Tensor.fbs, SparseTensor.fbs and Message.fbs: the accessors the
    decoder calls, and every verifier that [Message_verify_as_root] reaches.
    The names are those of the source without the prefix
    [org_apache_arrow_flatbuf_].  The main theorem is that every message the
    verifier accepts can be read by the accessors, down to the last field of the
    last table, without leaving the memory of the message. *)

From stdpp Require Import base numbers list option.
From S2P Require Import Prelude CInt FlatBuffers.
#[local] Open Scope Z_scope.
#[local] Open Scope v_scope.

(** ** Accessors *)
Section accessors.
Variable buf : list Z.
Abbreviation scalar := (__flatbuffers_scalar_field buf).

Definition KeyValue_vec_len : loc → option Z := __flatbuffers_vec_len buf.
Definition KeyValue_vec_at (vec : loc) (i : Z) : option loc := __flatbuffers_offset_vec_at buf vec i 0.
Definition KeyValue_key : loc → option loc := __flatbuffers_vector_field buf 0.
Definition KeyValue_value : loc → option loc := __flatbuffers_vector_field buf 1.

Definition FixedSizeList_listSize : loc → option Z := scalar (load_i 4) 0 0.
Definition Map_keysSorted : loc → option Z := scalar (load_u 1) 0 0.
Definition Union_mode : loc → option Z := scalar (load_i 2) 0 0.
Definition Union_typeIds : loc → option loc := __flatbuffers_vector_field buf 1.
Definition Union_typeIds_is_present : loc → option bool := __flatbuffers_field_present buf 1.
Definition flatbuffers_int32_vec_len : loc → option Z := __flatbuffers_vec_len buf.
Definition flatbuffers_int32_vec_at : loc → Z → option Z := __flatbuffers_scalar_vec_at buf (load_i 4) 4.
Definition Int_bitWidth : loc → option Z := scalar (load_i 4) 0 0.
Definition Int_is_signed : loc → option Z := scalar (load_u 1) 1 0.
Definition FloatingPoint_precision : loc → option Z := scalar (load_i 2) 0 0.
Definition FixedSizeBinary_byteWidth : loc → option Z := scalar (load_i 4) 0 0.
Definition Decimal_precision : loc → option Z := scalar (load_i 4) 0 0.
Definition Decimal_scale : loc → option Z := scalar (load_i 4) 1 0.
Definition Decimal_bitWidth : loc → option Z := scalar (load_i 4) 2 128.
Definition Date_unit : loc → option Z := scalar (load_i 2) 0 1.
Definition Time_unit : loc → option Z := scalar (load_i 2) 0 1.
Definition Time_bitWidth : loc → option Z := scalar (load_i 4) 1 32.
Definition Timestamp_unit : loc → option Z := scalar (load_i 2) 0 0.
Definition Timestamp_timezone : loc → option loc := __flatbuffers_vector_field buf 1.
Definition Timestamp_timezone_is_present : loc → option bool := __flatbuffers_field_present buf 1.
Definition Interval_unit : loc → option Z := scalar (load_i 2) 0 0.
Definition Duration_unit : loc → option Z := scalar (load_i 2) 0 1.

Definition Field_vec_len : loc → option Z := __flatbuffers_vec_len buf.
Definition Field_vec_at (vec : loc) (i : Z) : option loc := __flatbuffers_offset_vec_at buf vec i 0.
Definition Field_name : loc → option loc := __flatbuffers_vector_field buf 0.
Definition Field_name_is_present : loc → option bool := __flatbuffers_field_present buf 0.
Definition Field_nullable : loc → option Z := scalar (load_u 1) 1 0.
Definition Field_type_type : loc → option Z := __flatbuffers_union_type_field buf (3 - 1).
Definition Field_type : loc → option loc := __flatbuffers_table_field buf 3.
Definition Field_dictionary_is_present : loc → option bool := __flatbuffers_field_present buf 4.
Definition Field_children : loc → option loc := __flatbuffers_vector_field buf 5.
Definition Field_custom_metadata : loc → option loc := __flatbuffers_vector_field buf 6.

Definition Schema_endianness : loc → option Z := scalar (load_i 2) 0 0.
Definition Schema_fields : loc → option loc := __flatbuffers_vector_field buf 1.
Definition Schema_custom_metadata : loc → option loc := __flatbuffers_vector_field buf 2.
Definition Schema_features : loc → option loc := __flatbuffers_vector_field buf 3.
Definition Schema_vec_len : loc → option Z := __flatbuffers_vec_len buf.
Definition Feature_vec_len : loc → option Z := __flatbuffers_vec_len buf.
Definition Feature_vec_at : loc → Z → option Z := __flatbuffers_scalar_vec_at buf (load_i 8) 8.

Definition BodyCompression_codec : loc → option Z := scalar (load_i 1) 0 0.
Definition RecordBatch_length : loc → option Z := scalar (load_i 8) 0 0.
Definition RecordBatch_nodes : loc → option loc := __flatbuffers_vector_field buf 1.
Definition RecordBatch_buffers : loc → option loc := __flatbuffers_vector_field buf 2.
Definition RecordBatch_compression : loc → option loc := __flatbuffers_table_field buf 3.
Definition RecordBatch_compression_is_present : loc → option bool := __flatbuffers_field_present buf 3.
Definition FieldNode_vec_len : loc → option Z := __flatbuffers_vec_len buf.
Definition FieldNode_vec_at : loc → Z → option loc := __flatbuffers_struct_vec_at 16.
Definition FieldNode_length : loc → option Z := __flatbuffers_struct_scalar_field buf (load_i 8) 0.
Definition FieldNode_null_count : loc → option Z := __flatbuffers_struct_scalar_field buf (load_i 8) 8.
Definition Buffer_vec_len : loc → option Z := __flatbuffers_vec_len buf.
Definition Buffer_vec_at : loc → Z → option loc := __flatbuffers_struct_vec_at 16.
Definition Buffer_offset : loc → option Z := __flatbuffers_struct_scalar_field buf (load_i 8) 0.
Definition Buffer_length : loc → option Z := __flatbuffers_struct_scalar_field buf (load_i 8) 8.

Definition Message_as_root : option loc := __flatbuffers_read_root buf.
Definition Message_version : loc → option Z := scalar (load_i 2) 0 0.
Definition Message_header_type : loc → option Z := __flatbuffers_union_type_field buf (2 - 1).
Definition Message_header : loc → option loc := __flatbuffers_table_field buf 2.
Definition Message_bodyLength : loc → option Z := scalar (load_i 8) 3 0.
End accessors.

(** ** Verifiers *)
Section verifiers.
Variables (buf : list Z) (addr : Z).
Abbreviation td_t := flatcc_table_verifier_descriptor.
Abbreviation ud_t := flatcc_union_verifier_descriptor.
Abbreviation field := (flatcc_verify_field buf addr).
Abbreviation string_field := (flatcc_verify_string_field buf).
Abbreviation vector_field := (flatcc_verify_vector_field buf).
Abbreviation table_field := (flatcc_verify_table_field buf).
Abbreviation table_vector_field := (flatcc_verify_table_vector_field buf).
Abbreviation union_field := (flatcc_verify_union_field buf addr).

Definition Null_verify_table (td : td_t) : V unit := flatcc_verify_ok.
Definition Struct__verify_table (td : td_t) : V unit := flatcc_verify_ok.
Definition List_verify_table (td : td_t) : V unit := flatcc_verify_ok.
Definition LargeList_verify_table (td : td_t) : V unit := flatcc_verify_ok.
Definition FixedSizeList_verify_table (td : td_t) : V unit := field td 0 4 4 ;;; flatcc_verify_ok.
Definition Map_verify_table (td : td_t) : V unit := field td 0 1 1 ;;; flatcc_verify_ok.
Definition Union_verify_table (td : td_t) : V unit :=
  field td 0 2 2 ;;; vector_field td 1 false 4 4 1073741823 ;;; flatcc_verify_ok.
Definition Int_verify_table (td : td_t) : V unit :=
  field td 0 4 4 ;;; field td 1 1 1 ;;; flatcc_verify_ok.
Definition FloatingPoint_verify_table (td : td_t) : V unit := field td 0 2 2 ;;; flatcc_verify_ok.
Definition Utf8_verify_table (td : td_t) : V unit := flatcc_verify_ok.
Definition Binary_verify_table (td : td_t) : V unit := flatcc_verify_ok.
Definition LargeUtf8_verify_table (td : td_t) : V unit := flatcc_verify_ok.
Definition LargeBinary_verify_table (td : td_t) : V unit := flatcc_verify_ok.
Definition FixedSizeBinary_verify_table (td : td_t) : V unit := field td 0 4 4 ;;; flatcc_verify_ok.
Definition Bool_verify_table (td : td_t) : V unit := flatcc_verify_ok.
Definition RunEndEncoded_verify_table (td : td_t) : V unit := flatcc_verify_ok.
Definition Decimal_verify_table (td : td_t) : V unit :=
  field td 0 4 4 ;;; field td 1 4 4 ;;; field td 2 4 4 ;;; flatcc_verify_ok.
Definition Date_verify_table (td : td_t) : V unit := field td 0 2 2 ;;; flatcc_verify_ok.
Definition Time_verify_table (td : td_t) : V unit :=
  field td 0 2 2 ;;; field td 1 4 4 ;;; flatcc_verify_ok.
Definition Timestamp_verify_table (td : td_t) : V unit :=
  field td 0 2 2 ;;; string_field td 1 false ;;; flatcc_verify_ok.
Definition Interval_verify_table (td : td_t) : V unit := field td 0 2 2 ;;; flatcc_verify_ok.
Definition Duration_verify_table (td : td_t) : V unit := field td 0 2 2 ;;; flatcc_verify_ok.
Definition Type_union_verifier (ud : ud_t) : V unit :=
  let t := flatcc_verify_union_table buf ud in
  match ud_type ud with
  | 1 => t Null_verify_table
  | 2 => t Int_verify_table
  | 3 => t FloatingPoint_verify_table
  | 4 => t Binary_verify_table
  | 5 => t Utf8_verify_table
  | 6 => t Bool_verify_table
  | 7 => t Decimal_verify_table
  | 8 => t Date_verify_table
  | 9 => t Time_verify_table
  | 10 => t Timestamp_verify_table
  | 11 => t Interval_verify_table
  | 12 => t List_verify_table
  | 13 => t Struct__verify_table
  | 14 => t Union_verify_table
  | 15 => t FixedSizeBinary_verify_table
  | 16 => t FixedSizeList_verify_table
  | 17 => t Map_verify_table
  | 18 => t Duration_verify_table
  | 19 => t LargeBinary_verify_table
  | 20 => t LargeUtf8_verify_table
  | 21 => t LargeList_verify_table
  | 22 => t RunEndEncoded_verify_table
  | _ => flatcc_verify_ok
  end.
Definition KeyValue_verify_table (td : td_t) : V unit :=
  string_field td 0 false ;;; string_field td 1 false ;;; flatcc_verify_ok.
Definition DictionaryEncoding_verify_table (td : td_t) : V unit :=
  field td 0 8 8 ;;;
  table_field td 1 false Int_verify_table ;;;
  field td 2 1 1 ;;;
  field td 3 2 2 ;;;
  flatcc_verify_ok.
(** The recursion goes through [verify_table_vector], which stops when no level
    is left: [fuel] bounds the levels, and running out of it would be an
    undefined result, which [message_verified] excludes. *)
Fixpoint Field_verify_fuel (fuel : nat) (td : td_t) : V unit :=
  string_field td 0 false ;;;
  field td 1 1 1 ;;;
  union_field td 3 false Type_union_verifier ;;;
  table_field td 4 false DictionaryEncoding_verify_table ;;;
  table_vector_field td 5 false
    (match fuel with O => λ _, None | S fuel' => Field_verify_fuel fuel' end) ;;;
  table_vector_field td 6 false KeyValue_verify_table ;;;
  flatcc_verify_ok.
Definition Field_verify_table (td : td_t) : V unit := Field_verify_fuel (Z.to_nat (td_ttl td)) td.
Definition Schema_verify_table (td : td_t) : V unit :=
  field td 0 2 2 ;;;
  table_vector_field td 1 false Field_verify_table ;;;
  table_vector_field td 2 false KeyValue_verify_table ;;;
  vector_field td 3 false 8 8 536870911 ;;;
  flatcc_verify_ok.

Definition TensorDim_verify_table (td : td_t) : V unit :=
  field td 0 8 8 ;;; string_field td 1 false ;;; flatcc_verify_ok.
Definition Tensor_verify_table (td : td_t) : V unit :=
  union_field td 1 true Type_union_verifier ;;;
  table_vector_field td 2 true TensorDim_verify_table ;;;
  vector_field td 3 false 8 8 536870911 ;;;
  field td 4 16 8 ;;;
  flatcc_verify_ok.
Definition SparseTensorIndexCOO_verify_table (td : td_t) : V unit :=
  table_field td 0 true Int_verify_table ;;;
  vector_field td 1 false 8 8 536870911 ;;;
  field td 2 16 8 ;;;
  field td 3 1 1 ;;;
  flatcc_verify_ok.
Definition SparseMatrixIndexCSX_verify_table (td : td_t) : V unit :=
  field td 0 2 2 ;;;
  table_field td 1 true Int_verify_table ;;;
  field td 2 16 8 ;;;
  table_field td 3 true Int_verify_table ;;;
  field td 4 16 8 ;;;
  flatcc_verify_ok.
Definition SparseTensorIndexCSF_verify_table (td : td_t) : V unit :=
  table_field td 0 true Int_verify_table ;;;
  vector_field td 1 true 16 8 268435455 ;;;
  table_field td 2 true Int_verify_table ;;;
  vector_field td 3 true 16 8 268435455 ;;;
  vector_field td 4 true 4 4 1073741823 ;;;
  flatcc_verify_ok.
Definition SparseTensorIndex_union_verifier (ud : ud_t) : V unit :=
  match ud_type ud with
  | 1 => flatcc_verify_union_table buf ud SparseTensorIndexCOO_verify_table
  | 2 => flatcc_verify_union_table buf ud SparseMatrixIndexCSX_verify_table
  | 3 => flatcc_verify_union_table buf ud SparseTensorIndexCSF_verify_table
  | _ => flatcc_verify_ok
  end.
Definition SparseTensor_verify_table (td : td_t) : V unit :=
  union_field td 1 true Type_union_verifier ;;;
  table_vector_field td 2 true TensorDim_verify_table ;;;
  field td 3 8 8 ;;;
  union_field td 5 true SparseTensorIndex_union_verifier ;;;
  field td 6 16 8 ;;;
  flatcc_verify_ok.

Definition BodyCompression_verify_table (td : td_t) : V unit :=
  field td 0 1 1 ;;; field td 1 1 1 ;;; flatcc_verify_ok.
Definition RecordBatch_verify_table (td : td_t) : V unit :=
  field td 0 8 8 ;;;
  vector_field td 1 false 16 8 268435455 ;;;
  vector_field td 2 false 16 8 268435455 ;;;
  table_field td 3 false BodyCompression_verify_table ;;;
  flatcc_verify_ok.
Definition DictionaryBatch_verify_table (td : td_t) : V unit :=
  field td 0 8 8 ;;;
  table_field td 1 false RecordBatch_verify_table ;;;
  field td 2 1 1 ;;;
  flatcc_verify_ok.
Definition MessageHeader_union_verifier (ud : ud_t) : V unit :=
  match ud_type ud with
  | 1 => flatcc_verify_union_table buf ud Schema_verify_table
  | 2 => flatcc_verify_union_table buf ud DictionaryBatch_verify_table
  | 3 => flatcc_verify_union_table buf ud RecordBatch_verify_table
  | 4 => flatcc_verify_union_table buf ud Tensor_verify_table
  | 5 => flatcc_verify_union_table buf ud SparseTensor_verify_table
  | _ => flatcc_verify_ok
  end.
Definition Message_verify_table (td : td_t) : V unit :=
  field td 0 2 2 ;;;
  union_field td 2 false MessageHeader_union_verifier ;;;
  field td 3 8 8 ;;;
  table_vector_field td 4 false KeyValue_verify_table ;;;
  flatcc_verify_ok.
Definition Message_verify_as_root (bufsiz : Z) : V unit :=
  flatcc_verify_table_as_root buf addr bufsiz None Message_verify_table.
End verifiers.

(** ** What can be read of each table *)
Section valid.
Variable buf : list Z.

Definition Int_valid (t : Z) : Prop := field_valid buf 4 0 t ∧ field_valid buf 1 1 t.
Definition Type_valid (type t : Z) : Prop :=
  match type with
  | 2 => Int_valid t
  | 3 => field_valid buf 2 0 t
  | 7 => field_valid buf 4 0 t ∧ field_valid buf 4 1 t ∧ field_valid buf 4 2 t
  | 8 => field_valid buf 2 0 t
  | 9 => field_valid buf 2 0 t ∧ field_valid buf 4 1 t
  | 10 => field_valid buf 2 0 t ∧ string_valid buf 1 t
  | 11 => field_valid buf 2 0 t
  | 14 => field_valid buf 2 0 t ∧ vector_valid buf 4 1 t
  | 15 => field_valid buf 4 0 t
  | 16 => field_valid buf 4 0 t
  | 17 => field_valid buf 1 0 t
  | 18 => field_valid buf 2 0 t
  | _ => True
  end.
Definition KeyValue_valid (t : Z) : Prop := string_valid buf 0 t ∧ string_valid buf 1 t.
Definition DictionaryEncoding_valid (t : Z) : Prop :=
  field_valid buf 8 0 t ∧ table_valid buf Int_valid 1 t ∧ field_valid buf 1 2 t ∧ field_valid buf 2 3 t.
(** A field whose children are nested at most [depth] deep. *)
Fixpoint Field_valid (depth : nat) (t : Z) : Prop :=
  string_valid buf 0 t ∧ field_valid buf 1 1 t ∧ union_valid buf Type_valid 3 t ∧
  table_valid buf DictionaryEncoding_valid 4 t ∧
  tables_valid buf (match depth with O => λ _, False | S d => Field_valid d end) 5 t ∧
  tables_valid buf KeyValue_valid 6 t.
Definition Schema_valid (depth : nat) (t : Z) : Prop :=
  field_valid buf 2 0 t ∧ tables_valid buf (Field_valid depth) 1 t ∧
  tables_valid buf KeyValue_valid 2 t ∧ vector_valid buf 8 3 t.
Definition BodyCompression_valid (t : Z) : Prop := field_valid buf 1 0 t ∧ field_valid buf 1 1 t.
Definition RecordBatch_valid (t : Z) : Prop :=
  field_valid buf 8 0 t ∧ vector_valid buf 16 1 t ∧ vector_valid buf 16 2 t ∧
  table_valid buf BodyCompression_valid 3 t.
(** The headers the decoder reads. *)
Definition MessageHeader_valid (depth : nat) (type t : Z) : Prop :=
  match type with
  | 1 => Schema_valid depth t
  | 3 => RecordBatch_valid t
  | _ => True
  end.
Definition Message_valid (depth : nat) (t : Z) : Prop :=
  field_valid buf 2 0 t ∧ union_valid buf (MessageHeader_valid depth) 2 t ∧
  field_valid buf 8 3 t ∧ tables_valid buf KeyValue_valid 4 t.
End valid.

(** ** Verified messages can be read *)
Lemma vwp_seq (m k : V unit) (A B : Prop) :
  vwp m (λ _, A) → (A → vwp k (λ _, B)) → vwp (vbind m (λ _, k)) (λ _, B).
Proof. intros Hm Hk. apply vwp_bind. eapply vwp_mono; [done|]. intros [] HA. by apply Hk. Qed.

Section verified.
Variables (buf : list Z) (addr end_ : Z).
Hypothesis Hbuf : bytes_ok buf.
Hypothesis Hend : end_ <= zlen buf.
Hypothesis Hmax : end_ <= INT32_MAX.
Abbreviation sound := (FlatBuffers.sound buf end_).

Lemma field_spec td id size align :
  td_ok buf end_ td → 0 <= id < 100 → 0 <= size < 2 ^ 31 →
  vwp (flatcc_verify_field buf addr td id size align) (λ _, field_valid buf size id (td_table td)).
Proof.
  intros. unfold flatcc_verify_field. rewrite u32_small by lia. by eapply verify_field_spec.
Qed.

(** Verify the fields of a table one after the other; the proofs for the tables
    of table fields are left. *)
Ltac fields :=
  intros td Htd Httl; cbv beta delta [
    Null_verify_table Struct__verify_table List_verify_table LargeList_verify_table
    FixedSizeList_verify_table Map_verify_table Union_verify_table Int_verify_table
    FloatingPoint_verify_table Utf8_verify_table Binary_verify_table LargeUtf8_verify_table
    LargeBinary_verify_table FixedSizeBinary_verify_table Bool_verify_table
    RunEndEncoded_verify_table Decimal_verify_table Date_verify_table Time_verify_table
    Timestamp_verify_table Interval_verify_table Duration_verify_table KeyValue_verify_table
    DictionaryEncoding_verify_table TensorDim_verify_table Tensor_verify_table
    SparseTensorIndexCOO_verify_table SparseMatrixIndexCSX_verify_table
    SparseTensorIndexCSF_verify_table SparseTensor_verify_table BodyCompression_verify_table
    RecordBatch_verify_table DictionaryBatch_verify_table Message_verify_table Schema_verify_table];
  repeat (eapply vwp_seq;
    [first [ apply field_spec; [done|lia|lia]
           | eapply string_field_spec; [done..|lia]
           | eapply vector_field_spec; [done..|lia|lia|lia|lia]
           | eapply table_field_spec; [done..|lia|]
           | eapply table_vector_field_spec; [done..|lia|intros ?]
           | eapply union_field_spec; [done..|lia|] ]
    |intros ?]).

Lemma Int_sound ttl : sound ttl (Int_verify_table buf addr) (Int_valid buf).
Proof. fields. done. Qed.
Lemma KeyValue_sound ttl : sound ttl (KeyValue_verify_table buf) (KeyValue_valid buf).
Proof. fields. done. Qed.
Lemma DictionaryEncoding_sound ttl :
  sound ttl (DictionaryEncoding_verify_table buf addr) (DictionaryEncoding_valid buf).
Proof. fields; [apply Int_sound|]. done. Qed.
(** One case of a union: the verifier of the table, at a known type. *)
Ltac union_case :=
  match goal with |- vwp _ (λ _, ?R buf ?k _) =>
    eapply union_table_sound with (P := R buf k); [done..|] end.
Lemma Type_sound ttl :
  union_sound end_ ttl (Type_union_verifier buf addr) (Type_valid buf).
Proof.
  intros type base offset Hb Hbe Ho. unfold Type_union_verifier. cbn [ud_type].
  repeat case_match; try done; union_case; fields; done.
Qed.
(** Each level of children uses two of the levels of the verifier. *)
Lemma Field_sound fuel ttl :
  ttl <= Z.of_nat fuel → sound ttl (Field_verify_fuel buf addr fuel) (Field_valid buf fuel).
Proof.
  revert ttl. induction fuel as [|fuel IH]; intros ttl Hle td Htd Httl; cbn [Field_verify_fuel].
  all: repeat (eapply vwp_seq;
    [first [ apply field_spec; [done|lia|lia]
           | eapply string_field_spec; [done..|lia]
           | eapply table_field_spec; [done..|lia|apply DictionaryEncoding_sound]
           | eapply table_vector_field_spec; [done..|lia|intros ?; apply KeyValue_sound]
           | eapply union_field_spec; [done..|lia|apply Type_sound]
           | eapply table_vector_field_spec; [done..|lia|intros ?; apply IH; lia] 
           | eapply table_vector_field_spec with (P := λ _, False); [done..|lia|lia] ]
    |intros ?]).
  all: done.
Qed.
Lemma Field_valid_mono n m t : (n <= m)%nat → Field_valid buf n t → Field_valid buf m t.
Proof.
  revert m t. induction n as [|n IH]; intros [|m] t Hle; try lia; cbn [Field_valid];
    intros (? & ? & ? & ? & Hc & ?);
    (refine (conj _ (conj _ (conj _ (conj _ (conj _ _))))); [done..| |done]).
  all: eapply tables_valid_mono; [|exact Hc]; cbn; try done.
  intros q. apply IH. lia.
Qed.
Lemma Field_verify_sound ttl :
  ttl <= 100 → sound ttl (Field_verify_table buf addr) (Field_valid buf 100).
Proof.
  intros Hle td Htd Httl. eapply vwp_mono; [by eapply Field_sound; [|done|done]; lia|].
  intros []. apply Field_valid_mono. lia.
Qed.
Lemma Schema_sound ttl :
  ttl <= 100 → sound ttl (Schema_verify_table buf addr) (Schema_valid buf 100).
Proof. intros Hle. fields; [apply Field_verify_sound; lia|apply KeyValue_sound|done]. Qed.
Lemma BodyCompression_sound ttl :
  sound ttl (BodyCompression_verify_table buf addr) (BodyCompression_valid buf).
Proof. fields. done. Qed.
Lemma RecordBatch_sound ttl :
  sound ttl (RecordBatch_verify_table buf addr) (RecordBatch_valid buf).
Proof. fields; [apply BodyCompression_sound|done]. Qed.
(** The tables the decoder does not read are only verified. *)
Lemma TensorDim_sound ttl : sound ttl (TensorDim_verify_table buf addr) (λ _, True).
Proof. by fields. Qed.
Lemma Tensor_sound ttl : sound ttl (Tensor_verify_table buf addr) (λ _, True).
Proof. fields; [apply Type_sound|apply TensorDim_sound|done]. Qed.
Lemma SparseTensorIndex_sound ttl :
  union_sound end_ ttl (SparseTensorIndex_union_verifier buf addr) (λ _ _, True).
Proof.
  intros type base offset Hb Hbe Ho. unfold SparseTensorIndex_union_verifier. cbn [ud_type].
  repeat case_match; try done;
    (eapply union_table_sound with (P := λ _, True); [done..|]); fields; apply Int_sound || done.
Qed.
Lemma SparseTensor_sound ttl : sound ttl (SparseTensor_verify_table buf addr) (λ _, True).
Proof. fields; [apply Type_sound|apply TensorDim_sound|apply SparseTensorIndex_sound|done]. Qed.
Lemma DictionaryBatch_sound ttl : sound ttl (DictionaryBatch_verify_table buf addr) (λ _, True).
Proof. fields; [apply RecordBatch_sound|done]. Qed.
Lemma MessageHeader_sound ttl :
  ttl <= 101 →
  union_sound end_ ttl (MessageHeader_union_verifier buf addr) (λ type, MessageHeader_valid buf 100 type).
Proof.
  intros Hle type base offset Hb Hbe Ho. unfold MessageHeader_union_verifier. cbn [ud_type].
  repeat case_match; try done.
  all: match goal with |- vwp _ (λ _, MessageHeader_valid _ _ ?k _) =>
    eapply union_table_sound with (P := MessageHeader_valid buf 100 k); [done..|] end.
  all: cbn [MessageHeader_valid];
    first [apply SparseTensor_sound|apply Tensor_sound|apply DictionaryBatch_sound
          |apply RecordBatch_sound|apply Schema_sound; lia].
Qed.
Lemma Message_sound ttl : ttl <= 101 → sound ttl (Message_verify_table buf addr) (Message_valid buf 100).
Proof. intros Hle. fields; [apply MessageHeader_sound; lia|apply KeyValue_sound|done]. Qed.
End verified.

Lemma message_verify_spec (buf : list Z) (addr bufsiz : Z) :
  bytes_ok buf → 0 <= bufsiz <= zlen buf → bufsiz <= INT32_MAX →
  vwp (Message_verify_as_root buf addr bufsiz)
    (λ _, ∃ t, Message_as_root buf = Some (Some t) ∧ Message_valid buf 100 t).
Proof.
  intros Hbuf Hsize Hmax. apply (table_as_root_spec buf addr bufsiz Hbuf); [lia|done|lia|].
  apply Message_sound; [done|lia|done|]. unfold FLATCC_VERIFIER_MAX_LEVELS. lia.
Qed.
Lemma verified_message (buf : list Z) (addr bufsiz : Z) :
  bytes_ok buf → 0 <= bufsiz <= zlen buf → bufsiz <= INT32_MAX →
  Message_verify_as_root buf addr bufsiz = Some (inr tt) →
  ∃ t, Message_as_root buf = Some (Some t) ∧ Message_valid buf 100 t.
Proof.
  intros Hbuf Hsize Hmax Hok. pose proof (message_verify_spec buf addr bufsiz Hbuf Hsize Hmax) as Hspec.
  unfold vwp in Hspec. by rewrite Hok in Hspec.
Qed.

(** C24.  Verification of a message of any content and any size up to
    [INT32_MAX] never leaves its memory, and when the verifier accepts, every
    accessor of the decoder, on the message, its header, the schema, all of its
    fields, their types, children and metadata, and the vectors of a record
    batch, stays inside the memory too: strings are terminated, vectors and
    tables lie within the message, and fields are nested at most a hundred
    levels deep. *)
Theorem message_verified (buf : list Z) (addr bufsiz : Z) (Hbuf : bytes_ok buf)
    (Hsize : 0 <= bufsiz <= zlen buf) (Hmax : bufsiz <= INT32_MAX) :
  match Message_verify_as_root buf addr bufsiz with
  | Some (inr _) => ∃ t, Message_as_root buf = Some (Some t) ∧ Message_valid buf 100 t
  | Some (inl _) => True
  | None => False
  end.
Proof. by apply (message_verify_spec buf addr bufsiz). Qed.

(** A schema message: an int32 field "a" with metadata and a string field "s". *)
Definition schema_message : list Z :=
   [16; 0; 0; 0; 12; 0; 23; 0; 20; 0; 22; 0; 16; 0; 8; 0; 12; 0; 0; 0; 0; 0; 0; 0; 0; 0; 0; 0; 0;
    0; 0; 0; 16; 0; 0; 0; 4; 0; 1; 0; 8; 0; 10; 0; 8; 0; 4; 0; 8; 0; 0; 0; 8; 0; 0; 0; 0; 0; 0;
    0; 2; 0; 0; 0; 32; 0; 0; 0; 140; 0; 0; 0; 18; 0; 18; 0; 4; 0; 16; 0; 17; 0; 8; 0; 0; 0; 0; 0;
    12; 0; 0; 0; 0; 0; 0; 0; 24; 0; 0; 0; 16; 0; 0; 0; 32; 0; 0; 0; 40; 0; 0; 0; 1; 2; 0; 0; 1;
    0; 0; 0; 97; 0; 8; 0; 9; 0; 4; 0; 8; 0; 0; 0; 0; 0; 0; 0; 14; 0; 0; 0; 32; 0; 0; 0; 1; 0; 0;
    0; 1; 0; 0; 0; 16; 0; 0; 0; 8; 0; 12; 0; 4; 0; 8; 0; 0; 0; 0; 0; 12; 0; 0; 0; 8; 0; 0; 0; 12;
    0; 0; 0; 1; 0; 0; 0; 107; 0; 0; 0; 1; 0; 0; 0; 118; 0; 12; 0; 14; 0; 4; 0; 12; 0; 13; 0; 8;
    0; 0; 0; 14; 0; 0; 0; 12; 0; 0; 0; 24; 0; 0; 0; 1; 5; 0; 0; 1; 0; 0; 0; 115; 0; 4; 0; 4; 0;
    0; 0; 0; 0; 0; 0; 10; 0; 0; 0; 0; 0; 0; 0].
Lemma schema_message_ok : bytes_ok schema_message.
Proof. apply (bool_decide_unpack _). vm_compute. done. Qed.
Lemma schema_message_verifies : Message_verify_as_root schema_message 8 248 = Some (inr tt).
Proof. vm_compute. done. Qed.
Lemma message_verified_witness :
  ∃ t, Message_as_root schema_message = Some (Some t) ∧ Message_valid schema_message 100 t.
Proof.
  pose proof (message_verified schema_message 8 248 schema_message_ok
    ltac:(split; [done|apply Z.leb_le; vm_compute; reflexivity]) ltac:(done)) as H.
  rewrite schema_message_verifies in H. exact H.
Defined.
