(* ===== verification/IpcSchema.v ===== *)
(** * Schema messages (nanoarrow_ipc.c)

    The part of the IPC decoder that builds an [ArrowSchema] out of a verified
    Schema message: [ArrowIpcDecoderSetMetadata], the [ArrowIpcDecoderSetType]
    functions, [ArrowIpcDecoderSetField] and [ArrowIpcDecoderSetChildren].  They
    read the message with the accessors of [Message] and build the schema with
    the functions of [Schema] and [Metadata]; a NULL table or string that is
    read is undefined behaviour, as it is in the source.

    A field may have fields as children, and offsets of FlatBuffers only lead
    forward, so that a chain of children has at most as many members as the
    message has bytes; [decode_fuel] is more than that. *)

From Stdlib Require Import Ascii.
From stdpp Require Import base numbers list option strings.
From S2P Require Import Prelude CInt CString Buffer Types Metadata Schema.
From S2P Require Import FlatBuffers Message.
#[local] Open Scope Z_scope.
#[local] Open Scope c_scope.

(** The characters of a C string. *)
Definition string_of_bytes (l : list Z) : string :=
  String.string_of_list_ascii ((λ b, Ascii.ascii_of_N (Z.to_N b)) <$> l).

Section decode.
Context `{!Libc} `{!Malloc}.
(** The memory of the message. *)
Variable buf : list Z.
Abbreviation SM := (M (mstate * members)).

(** A [char*] into the message as an argument of the schema functions. *)
Definition c_text (p : loc) : SM string :=
  let* s := deref (c_string buf p) in mret_ (string_of_bytes s).

(** A string of the message with the length [strlen] gives. *)
Definition string_view (p : loc) : option ArrowView :=
  s ← c_string buf p;
  q ← p;
  Some (MkView (Some (drop (Z.to_nat q) buf)) (zlen s)).
Definition append_pair (kv_vec : loc) (i : Z) : M ArrowBuffer unit :=
  let* kv := deref (KeyValue_vec_at buf kv_vec i) in
  let* key := deref (KeyValue_key buf kv) in
  let* key := deref (string_view key) in
  let* value := deref (KeyValue_value buf kv) in
  let* value := deref (string_view value) in
  ArrowMetadataBuilderAppend key value.
Definition ArrowIpcDecoderSetMetadata (kv_vec : loc) : SM unit :=
  let* n_pairs := deref (KeyValue_vec_len buf kv_vec) in
  if n_pairs =? 0 then mret_ tt
  else
    check (n_pairs <=? 2147483647) EINVAL ;;;
    λ s,
    match (ArrowMetadataBuilderInit None ;;; mfor (zseq n_pairs) (append_pair kv_vec)) ArrowBufferInit with
    | UB => UB
    | Err e _ => Err e s
    | Ok _ b => ArrowSchemaSetMetadata (data b) s
    end.

Definition ArrowIpcDecoderSetTypeSimple (nanoarrow_type : ArrowType) : SM unit :=
  ArrowSchemaSetType nanoarrow_type.
Definition ArrowIpcDecoderSetTypeInt (type : loc) : SM unit :=
  let* is_signed := deref (Int_is_signed buf type) in
  let* bitwidth := deref (Int_bitWidth buf type) in
  if negb (is_signed =? 0) then
    match bitwidth with
    | 8 => ArrowIpcDecoderSetTypeSimple NANOARROW_TYPE_INT8
    | 16 => ArrowIpcDecoderSetTypeSimple NANOARROW_TYPE_INT16
    | 32 => ArrowIpcDecoderSetTypeSimple NANOARROW_TYPE_INT32
    | 64 => ArrowIpcDecoderSetTypeSimple NANOARROW_TYPE_INT64
    | _ => mfail EINVAL
    end
  else
    match bitwidth with
    | 8 => ArrowIpcDecoderSetTypeSimple NANOARROW_TYPE_UINT8
    | 16 => ArrowIpcDecoderSetTypeSimple NANOARROW_TYPE_UINT16
    | 32 => ArrowIpcDecoderSetTypeSimple NANOARROW_TYPE_UINT32
    | 64 => ArrowIpcDecoderSetTypeSimple NANOARROW_TYPE_UINT64
    | _ => mfail EINVAL
    end.
Definition ArrowIpcDecoderSetTypeFloatingPoint (type : loc) : SM unit :=
  let* precision := deref (FloatingPoint_precision buf type) in
  match precision with
  | 0 => ArrowIpcDecoderSetTypeSimple NANOARROW_TYPE_HALF_FLOAT
  | 1 => ArrowIpcDecoderSetTypeSimple NANOARROW_TYPE_FLOAT
  | 2 => ArrowIpcDecoderSetTypeSimple NANOARROW_TYPE_DOUBLE
  | _ => mfail EINVAL
  end.
Definition ArrowIpcDecoderSetTypeDecimal (type : loc) : SM unit :=
  let* scale := deref (Decimal_scale buf type) in
  let* precision := deref (Decimal_precision buf type) in
  let* bitwidth := deref (Decimal_bitWidth buf type) in
  match bitwidth with
  | 128 => ArrowSchemaSetTypeDecimal NANOARROW_TYPE_DECIMAL128 precision scale
  | 256 => ArrowSchemaSetTypeDecimal NANOARROW_TYPE_DECIMAL256 precision scale
  | _ => mfail EINVAL
  end.
Definition ArrowIpcDecoderSetTypeFixedSizeBinary (type : loc) : SM unit :=
  let* fixed_size := deref (FixedSizeBinary_byteWidth buf type) in
  ArrowSchemaSetTypeFixedSize NANOARROW_TYPE_FIXED_SIZE_BINARY fixed_size.
Definition ArrowIpcDecoderSetTypeDate (type : loc) : SM unit :=
  let* date_unit := deref (Date_unit buf type) in
  match date_unit with
  | 0 => ArrowIpcDecoderSetTypeSimple NANOARROW_TYPE_DATE32
  | 1 => ArrowIpcDecoderSetTypeSimple NANOARROW_TYPE_DATE64
  | _ => mfail EINVAL
  end.
(** The [enum ArrowTimeUnit] with the given value; for another value
    [ArrowTimeUnitFormatString] is NULL and [ArrowSchemaSetTypeDateTime] returns
    [EINVAL]. *)
Definition set_date_time (type : ArrowType) (time_unit : Z) (timezone : option string) : SM unit :=
  match time_unit with
  | 0 => ArrowSchemaSetTypeDateTime type NANOARROW_TIME_UNIT_SECOND timezone
  | 1 => ArrowSchemaSetTypeDateTime type NANOARROW_TIME_UNIT_MILLI timezone
  | 2 => ArrowSchemaSetTypeDateTime type NANOARROW_TIME_UNIT_MICRO timezone
  | 3 => ArrowSchemaSetTypeDateTime type NANOARROW_TIME_UNIT_NANO timezone
  | _ => mfail EINVAL
  end.
Definition ArrowIpcDecoderSetTypeTime (type : loc) : SM unit :=
  let* time_unit := deref (Time_unit buf type) in
  let* bitwidth := deref (Time_bitWidth buf type) in
  match time_unit with
  | 0 | 1 =>
      check (bitwidth =? 32) EINVAL ;;; set_date_time NANOARROW_TYPE_TIME32 time_unit None
  | 2 | 3 =>
      check (bitwidth =? 64) EINVAL ;;; set_date_time NANOARROW_TYPE_TIME64 time_unit None
  | _ => mfail EINVAL
  end.
Definition ArrowIpcDecoderSetTypeTimestamp (type : loc) : SM unit :=
  let* time_unit := deref (Timestamp_unit buf type) in
  let* present := deref (Timestamp_timezone_is_present buf type) in
  let* timezone :=
    (if present : bool then
       let* p := deref (Timestamp_timezone buf type) in c_text p
     else mret_ ""%string) in
  set_date_time NANOARROW_TYPE_TIMESTAMP time_unit (Some timezone).
Definition ArrowIpcDecoderSetTypeDuration (type : loc) : SM unit :=
  let* time_unit := deref (Duration_unit buf type) in
  set_date_time NANOARROW_TYPE_DURATION time_unit None.
Definition ArrowIpcDecoderSetTypeInterval (type : loc) : SM unit :=
  let* interval_unit := deref (Interval_unit buf type) in
  match interval_unit with
  | 0 => ArrowIpcDecoderSetTypeSimple NANOARROW_TYPE_INTERVAL_MONTHS
  | 1 => ArrowIpcDecoderSetTypeSimple NANOARROW_TYPE_INTERVAL_DAY_TIME
  | 2 => ArrowIpcDecoderSetTypeSimple NANOARROW_TYPE_INTERVAL_MONTH_DAY_NANO
  | _ => mfail EINVAL
  end.
Definition ArrowIpcDecoderSetTypeSimpleNested (format : string) : SM unit :=
  ArrowSchemaSetFormat (Some format).
Definition ArrowIpcDecoderSetTypeFixedSizeList (type : loc) : SM unit :=
  let* fixed_size := deref (FixedSizeList_listSize buf type) in
  let* fixed_size_str := print_to 128 ("+w:" +:+ print_int fixed_size) in
  ArrowIpcDecoderSetTypeSimpleNested fixed_size_str.
Definition ArrowIpcDecoderSetTypeMap (type : loc) : SM unit :=
  ArrowIpcDecoderSetTypeSimpleNested "+m"%string ;;;
  let* keys_sorted := deref (Map_keysSorted buf type) in
  modify (λ s, set_flags (if negb (keys_sorted =? 0)
                          then Z.lor (flags s) ARROW_FLAG_MAP_KEYS_SORTED
                          else Z.land (flags s) (Z.lnot ARROW_FLAG_MAP_KEYS_SORTED)) s).

(** The text of the type ids of a union, as the calls of [snprintf] write it. *)
Definition join_ids (l : list Z) : string :=
  match l with
  | [] => ""
  | i :: l' => print_int i +:+ String.concat "" ((λ i, "," +:+ print_int i) <$> l')
  end%string.
Definition ArrowIpcDecoderSetTypeUnion (type : loc) (n_children : Z) : SM unit :=
  let* union_mode := deref (Union_mode buf type) in
  check (negb ((n_children <? 0) || (127 <? n_children))) EINVAL ;;;
  let* prefix :=
    match union_mode with
    | 0 => mret_ "+us:"%string
    | 1 => mret_ "+ud:"%string
    | _ => mfail EINVAL
    end in
  let* present := deref (Union_typeIds_is_present buf type) in
  let* ids :=
    (if present : bool then
       let* type_ids := deref (Union_typeIds buf type) in
       let* n_type_ids := deref (flatbuffers_int32_vec_len buf type_ids) in
       check (n_type_ids =? n_children) EINVAL ;;;
       deref (mapM (flatbuffers_int32_vec_at buf type_ids) (zseq n_type_ids))
     else mret_ (zseq n_children)) in
  let* union_types_str := print_to 2048 (prefix +:+ join_ids ids) in
  ArrowIpcDecoderSetTypeSimpleNested union_types_str.

Definition ArrowIpcDecoderSetType (field : loc) (n_children : Z) : SM unit :=
  let* type_type := deref (Field_type_type buf field) in
  let with_type (set : loc → SM unit) := (let* t := deref (Field_type buf field) in set t) in
  match type_type with
  | 1 => ArrowIpcDecoderSetTypeSimple NANOARROW_TYPE_NA
  | 6 => ArrowIpcDecoderSetTypeSimple NANOARROW_TYPE_BOOL
  | 2 => with_type ArrowIpcDecoderSetTypeInt
  | 3 => with_type ArrowIpcDecoderSetTypeFloatingPoint
  | 7 => with_type ArrowIpcDecoderSetTypeDecimal
  | 4 => ArrowIpcDecoderSetTypeSimple NANOARROW_TYPE_BINARY
  | 19 => ArrowIpcDecoderSetTypeSimple NANOARROW_TYPE_LARGE_BINARY
  | 15 => with_type ArrowIpcDecoderSetTypeFixedSizeBinary
  | 5 => ArrowIpcDecoderSetTypeSimple NANOARROW_TYPE_STRING
  | 20 => ArrowIpcDecoderSetTypeSimple NANOARROW_TYPE_LARGE_STRING
  | 8 => with_type ArrowIpcDecoderSetTypeDate
  | 9 => with_type ArrowIpcDecoderSetTypeTime
  | 10 => with_type ArrowIpcDecoderSetTypeTimestamp
  | 18 => with_type ArrowIpcDecoderSetTypeDuration
  | 11 => with_type ArrowIpcDecoderSetTypeInterval
  | 13 => ArrowIpcDecoderSetTypeSimpleNested "+s"%string
  | 12 => ArrowIpcDecoderSetTypeSimpleNested "+l"%string
  | 21 => ArrowIpcDecoderSetTypeSimpleNested "+L"%string
  | 16 => with_type ArrowIpcDecoderSetTypeFixedSizeList
  | 17 => with_type ArrowIpcDecoderSetTypeMap
  | 14 => with_type (λ t, ArrowIpcDecoderSetTypeUnion t n_children)
  | _ => mfail EINVAL
  end.

(** The loop over the fields of a vector: [set_field] is the recursive call. *)
Definition ArrowIpcDecoderSetChildren_with (set_field : loc → SM unit) (fields : loc) : SM unit :=
  let* n_fields := deref (Schema_vec_len buf fields) in
  mfor (zseq n_fields) (λ i,
    let* field := deref (Field_vec_at buf fields i) in
    on_child i (live (set_field field))).
Fixpoint ArrowIpcDecoderSetField (fuel : nat) (field : loc) : SM unit :=
  match fuel with
  | O => mundef
  | S fuel' =>
      let* dictionary := deref (Field_dictionary_is_present buf field) in
      check (negb dictionary) ENOTSUP ;;;
      let* named := deref (Field_name_is_present buf field) in
      (if named : bool then
         let* p := deref (Field_name buf field) in
         let* n := c_text p in ArrowSchemaSetName (Some n)
       else ArrowSchemaSetName (Some ""%string)) ;;;
      let* children := deref (Field_children buf field) in
      let* n_children := deref (Field_vec_len buf children) in
      ArrowIpcDecoderSetType field n_children ;;;
      let* nullable := deref (Field_nullable buf field) in
      modify (λ s, set_flags (if negb (nullable =? 0)
                              then Z.lor (flags s) ARROW_FLAG_NULLABLE
                              else Z.land (flags s) (Z.lnot ARROW_FLAG_NULLABLE)) s) ;;;
      ArrowSchemaAllocateChildren n_children ;;;
      mfor (zseq n_children) init_child ;;;
      ArrowIpcDecoderSetChildren_with (ArrowIpcDecoderSetField fuel') children ;;;
      let* kv_vec := deref (Field_custom_metadata buf field) in
      ArrowIpcDecoderSetMetadata kv_vec
  end.
Definition decode_fuel : nat := 100 + length buf.
Definition ArrowIpcDecoderSetChildren (fields : loc) : SM unit :=
  ArrowIpcDecoderSetChildren_with (ArrowIpcDecoderSetField decode_fuel) fields.

(** [ArrowIpcDecoderDecodeSchema] once the decoder has checked that [schema] is
    the header of a Schema message.  The schema is built in a local variable,
    which is released when a step fails: the output is only written at the
    end. *)
Definition decode_schema (schema : loc) : M (mstate * ArrowSchema) unit := λ '(a, out),
  match (let* fields := deref (Schema_fields buf schema) in
         let* n_fields := deref (Schema_vec_len buf fields) in
         ArrowSchemaSetTypeStruct n_fields ;;;
         ArrowIpcDecoderSetChildren fields ;;;
         let* kv_vec := deref (Schema_custom_metadata buf schema) in
         ArrowIpcDecoderSetMetadata kv_vec) (a, ArrowSchemaInit) with
  | UB => UB
  | Err e (a', _) => Err e (a', out)
  | Ok _ (a', tmp) => Ok tt (a', SchemaLive tmp)
  end.
End decode.
