(* ===== verification/IpcSchemaSpec.v ===== *)
(** * What a Schema message says, and that the decoder builds it

    [schema_of_message] reads a Schema message as a value: the schema tree it
    describes, without allocation, failure or intermediate states.  The theorem
    is that [ArrowIpcDecoderDecodeSchema] builds exactly this tree out of any
    message that was verified and in which no part the decoder needs is absent,
    or fails with an error code; and the counterexamples are verified messages
    with an absent part, on which the decoder dereferences NULL. *)

From stdpp Require Import base numbers list option strings.
From S2P Require Import Prelude CInt CString Buffer Types Metadata Schema SchemaView.
From S2P Require Import FlatBuffers Message IpcSchema.
#[local] Open Scope Z_scope.
#[local] Open Scope c_scope.

(** ** The message as a value *)
Section spec.
Variable buf : list Z.

Definition text (p : loc) : option string := string_of_bytes <$> c_string buf p.

(** The pairs of a vector of [KeyValue] tables. *)
Definition message_pair (vec : loc) (i : Z) : option kv :=
  t ← KeyValue_vec_at buf vec i;
  k ← KeyValue_key buf t;
  v ← KeyValue_value buf t;
  k ← c_string buf k;
  v ← c_string buf v;
  Some (k, v).
Definition message_pairs (vec : loc) : option (list kv) :=
  n ← KeyValue_vec_len buf vec; mapM (message_pair vec) (zseq n).
Definition metadata_of (l : list kv) : option (list Z) :=
  match l with [] => None | _ => Some (encode l) end.

(** The format string of the Arrow C data interface for a type. *)
Definition time_letter (unit : Z) : option string := znth ["s"; "m"; "u"; "n"]%string unit.
Definition type_format (type : Z) (t : loc) (n_children : Z) : option string :=
  match type with
  | 1 => Some "n"
  | 2 => s ← Int_is_signed buf t; w ← Int_bitWidth buf t;
         let pick signed unsigned := Some (if (s =? 0)%Z then unsigned else signed) in
         match w with
         | 8 => pick "c" "C" | 16 => pick "s" "S" | 32 => pick "i" "I" | 64 => pick "l" "L"
         | _ => None
         end
  | 3 => p ← FloatingPoint_precision buf t; znth ["e"; "f"; "g"] p
  | 4 => Some "z"
  | 5 => Some "u"
  | 6 => Some "b"
  | 7 => p ← Decimal_precision buf t; s ← Decimal_scale buf t; w ← Decimal_bitWidth buf t;
         match w with
         | 128 => Some ("d:" +:+ print_int p +:+ "," +:+ print_int s)
         | 256 => Some ("d:" +:+ print_int p +:+ "," +:+ print_int s +:+ ",256")
         | _ => None
         end
  | 8 => u ← Date_unit buf t; znth ["tdD"; "tdm"] u
  | 9 => u ← Time_unit buf t; String.append "tt" <$> time_letter u
  | 10 => u ← Timestamp_unit buf t; z ← Timestamp_timezone buf t; l ← time_letter u;
          zone ← match z with None => Some "" | Some _ => text z end;
          Some ("ts" +:+ l +:+ ":" +:+ zone)
  | 11 => u ← Interval_unit buf t; znth ["tiM"; "tiD"; "tin"] u
  | 12 => Some "+l"
  | 13 => Some "+s"
  | 14 => m ← Union_mode buf t; prefix ← znth ["+us:"; "+ud:"] m;
          present ← Union_typeIds_is_present buf t;
          ids ← (if present : bool
                 then v ← Union_typeIds buf t; n ← flatbuffers_int32_vec_len buf v;
                      mapM (flatbuffers_int32_vec_at buf v) (zseq n)
                 else Some (zseq n_children));
          Some (prefix +:+ join_ids ids)
  | 15 => n ← FixedSizeBinary_byteWidth buf t; Some ("w:" +:+ print_int n)
  | 16 => n ← FixedSizeList_listSize buf t; Some ("+w:" +:+ print_int n)
  | 17 => Some "+m"
  | 18 => u ← Duration_unit buf t; String.append "tD" <$> time_letter u
  | 19 => Some "Z"
  | 20 => Some "U"
  | 21 => Some "+L"
  | _ => None
  end%string.
Definition type_flags (type : Z) (t : loc) : option Z :=
  if type =? 17 then k ← Map_keysSorted buf t; Some (if k =? 0 then 0 else ARROW_FLAG_MAP_KEYS_SORTED)
  else Some 0.
Definition children_of (l : list members) : option (list (option ArrowSchema)) :=
  match l with [] => None | _ => Some ((λ s, Some (SchemaLive s)) <$> l) end.

Fixpoint schema_of_field (depth : nat) (t : loc) : option members :=
  p ← Field_name buf t;
  nm ← match p with None => Some ""%string | Some _ => text p end;
  v ← Field_children buf t;
  n ← Field_vec_len buf v;
  type ← Field_type_type buf t;
  table ← Field_type buf t;
  fmt ← type_format type table n;
  fl ← type_flags type table;
  nullable ← Field_nullable buf t;
  kids ← mapM (λ i, q ← Field_vec_at buf v i;
                    match depth with O => None | S d => schema_of_field d q end) (zseq n);
  meta ← Field_custom_metadata buf t;
  pairs ← message_pairs meta;
  Some (MkMembers (Some fmt) (Some nm) (metadata_of pairs)
          (fl + if nullable =? 0 then 0 else ARROW_FLAG_NULLABLE) n (children_of kids) None).
Definition schema_of_message (depth : nat) (t : loc) : option members :=
  v ← Schema_fields buf t;
  n ← Schema_vec_len buf v;
  kids ← mapM (λ i, q ← Field_vec_at buf v i; schema_of_field depth q) (zseq n);
  meta ← Schema_custom_metadata buf t;
  pairs ← message_pairs meta;
  Some (MkMembers (Some "+s"%string) None (metadata_of pairs) ARROW_FLAG_NULLABLE n (children_of kids) None).

(** No part the decoder dereferences is absent. *)
Definition needs_table (type : Z) : bool :=
  bool_decide (type ∈ [2; 3; 7; 8; 9; 10; 11; 14; 15; 16; 17; 18]).
Definition all_tables (f : loc → bool) (v : option loc) : bool :=
  match v with
  | None => false
  | Some v =>
      match __flatbuffers_vec_len buf v with
      | None => false
      | Some n => forallb (λ i, match __flatbuffers_offset_vec_at buf v i 0 with
                                | Some t => f t | None => false end) (zseq n)
      end
  end.
Definition present (p : option loc) : bool := match p with Some (Some _) => true | _ => false end.
Definition KeyValue_complete (t : loc) : bool :=
  present (KeyValue_key buf t) && present (KeyValue_value buf t).
Fixpoint Field_complete (depth : nat) (t : loc) : bool :=
  match Field_type_type buf t with
  | None => false
  | Some type => negb (needs_table type) || present (Field_type buf t)
  end &&
  all_tables (match depth with O => λ _, false | S d => Field_complete d end) (Field_children buf t) &&
  all_tables KeyValue_complete (Field_custom_metadata buf t).
Definition Schema_complete (depth : nat) (t : loc) : bool :=
  all_tables (Field_complete depth) (Schema_fields buf t) &&
  all_tables KeyValue_complete (Schema_custom_metadata buf t).
End spec.

(** ** Reading what is valid *)
Section reading.
Variable buf : list Z.
Hypothesis Hbuf : bytes_ok buf.

Lemma read_signed (w : nat) id V t :
  (0 < w)%nat → field_valid buf (Z.of_nat w) id t →
  ∃ x, __flatbuffers_scalar_field buf (load_i w) id V (Some t) = Some x ∧
    (x = V ∨ - 2 ^ (8 * Z.of_nat w - 1) <= x < 2 ^ (8 * Z.of_nat w - 1)).
Proof.
  intros Hw (o & Ho & Hr). unfold __flatbuffers_scalar_field. rewrite Ho. cbn [mbind option_bind].
  destruct (Z.eqb_spec o 0) as [->|Hne]; [by eauto|]. destruct Hr as [?|[Hlo Hhi]]; [done|].
  destruct (load_u_in w buf (t + o)) as [x Hx]; [lia|lia|]. unfold load_i. rewrite Hx.
  exists (swrap (8 * Z.of_nat w) x). split; [done|]. right. apply swrap_range. lia.
Qed.
Lemma read_unsigned (w : nat) id V t :
  field_valid buf (Z.of_nat w) id t →
  ∃ x, __flatbuffers_scalar_field buf (load_u w) id V (Some t) = Some x.
Proof.
  intros (o & Ho & Hr). unfold __flatbuffers_scalar_field. rewrite Ho. cbn [mbind option_bind].
  destruct (Z.eqb_spec o 0) as [->|Hne]; [by eauto|]. destruct Hr as [?|[Hlo Hhi]]; [done|].
  destruct (load_u_in w buf (t + o)) as [x Hx]; [lia|lia|]. eauto.
Qed.
(** A field is present when its pointer is not NULL. *)
Definition not_null (p : loc) : bool := match p with None => false | Some _ => true end.
Lemma read_present id adjust t p :
  __flatbuffers_offset_field buf id adjust t = Some p →
  __flatbuffers_field_present buf id t = Some (not_null p).
Proof.
  unfold __flatbuffers_offset_field, __flatbuffers_field_present.
  destruct (__flatbuffers_read_vt buf id t) as [o|]; [|done]. cbn [mbind option_bind].
  destruct (o =? 0); [by intros [= <-]|]. destruct t as [t|]; [|done]. cbn [mbind option_bind].
  destruct (load_u 4 buf (t + o)); [|done]. by intros [= <-].
Qed.
Lemma until_nul_app l s : until_nul l = Some s → ∃ post, l = s ++ post.
Proof.
  revert s. induction l as [|b l IH]; intros s; [done|]. cbn. destruct (b =? 0).
  - intros [= <-]. by exists (b :: l).
  - intros (s' & Hs & ->)%fmap_Some. destruct (IH s' Hs) as [post ->]. by exists post.
Qed.
(** A string of the message as a view. *)
Lemma string_view_spec q s :
  c_string buf (Some q) = Some s →
  ∃ v, string_view buf (Some q) = Some v ∧ view_is v s ∧ bytes_ok s ∧ zlen s <= zlen buf.
Proof.
  intros Hs. exists (MkView (Some (drop (Z.to_nat q) buf)) (zlen s)). unfold string_view. rewrite Hs.
  split; [done|]. cbn in Hs. destruct (q <? 0); [done|].
  destruct (until_nul_app _ _ Hs) as [post Hpost]. split.
  - exists post. by rewrite <-Hpost.
  - assert (buf = take (Z.to_nat q) buf ++ s ++ post) as Hsplit
      by (rewrite <-Hpost; symmetry; apply take_drop).
    split.
    + rewrite Hsplit in Hbuf. apply Forall_app in Hbuf as [_ [? _]%Forall_app]. done.
    + rewrite Hsplit at 1. rewrite !zlen_app.
      pose proof (zlen_nonneg (take (Z.to_nat q) buf)). pose proof (zlen_nonneg post). lia.
Qed.
(** The elements of a vector of tables lie in the message. *)
Lemma tables_count P id t v n :
  tables_valid buf P id t → __flatbuffers_vector_field buf id (Some t) = Some v →
  __flatbuffers_vec_len buf v = Some n → 0 <= n ∧ 4 * n <= zlen buf.
Proof.
  intros (v' & n' & Hv & Hn & Hb & Hall) Hv' Hn'. assert (v' = v) as -> by congruence.
  assert (n' = n) as -> by congruence. split; [lia|].
  destruct (Z.eq_dec n 0) as [->|Hne]; [pose proof (zlen_nonneg buf); lia|].
  destruct (Hall (n - 1)) as (q & Hq & _); [lia|]. destruct (Hall 0) as (q0 & Hq0 & _); [lia|].
  unfold __flatbuffers_offset_vec_at in Hq, Hq0. destruct v as [p|]; [|done]. cbn [mbind option_bind] in *.
  destruct (load_u 4 buf (p + 4 * (n - 1))) as [x|] eqn:Hx; [|done].
  destruct (load_u 4 buf (p + 4 * 0)) as [y|] eqn:Hy; [|done].
  apply load_u_Some in Hx, Hy. lia.
Qed.
End reading.

(** ** The decoder builds the schema of the message *)
Definition decode_error {S} (e : errno) (_ : S) : Prop :=
  e = ENOMEM ∨ e = EINVAL ∨ e = ENOTSUP ∨ e = ERANGE.

Section refinement.
Context `{!Libc} `{!Malloc}.
Variable buf : list Z.
Hypothesis Hbuf : bytes_ok buf.
(** The metadata of a schema, which may repeat a string of the message for each
    pair, is encoded in memory: messages of a gigabyte stay below the limits of
    [int64_t]. *)
Hypothesis Hsmall : zlen buf <= 2 ^ 30.
Implicit Types (a : mstate) (s : members).

Lemma message_pair_spec v i q :
  KeyValue_vec_at buf v i = Some (Some q) → KeyValue_valid buf q → KeyValue_complete buf (Some q) = true →
  ∃ p, message_pair buf v i = Some p ∧ kv_ok p ∧ zlen (encode_pair p) <= 8 + 2 * zlen buf ∧
    ∀ b l, builds b l → zlen l < INT32_MAX →
      4 * (zlen (encode l) + zlen (encode_pair p)) <= INT64_MAX →
      wp (append_pair buf v i) b (λ _ b', builds b' (l ++ [p])) build_failed.
Proof.
  intros Hq [(k & Hk & Hks) (w & Hw & Hws)] Hc. unfold KeyValue_complete, present in Hc.
  unfold KeyValue_key, KeyValue_value in *. rewrite Hk, Hw in Hc.
  destruct k as [k|]; [|done]. destruct w as [w|]; [|done].
  destruct Hks as [?|[ks Hks]]; [done|]. destruct Hws as [?|[ws Hws]]; [done|].
  destruct (string_view_spec buf Hbuf k ks Hks) as (kv & Hkv & Hkis & Hkok & Hklen).
  destruct (string_view_spec buf Hbuf w ws Hws) as (wv & Hwv & Hwis & Hwok & Hwlen).
  assert (kv_ok (ks, ws)) as Hok.
  { unfold kv_ok, INT32_MAX. cbn [fst snd]. repeat split; try done; lia. }
  exists (ks, ws). split.
  { unfold message_pair, KeyValue_key, KeyValue_value. rewrite Hq. cbn [mbind option_bind].
    by rewrite Hk, Hw; cbn [mbind option_bind]; rewrite Hks, Hws. }
  split; [done|]. split; [rewrite zlen_encode_pair; cbn [fst snd]; lia|].
  intros b l Hb Hl Hmax. unfold append_pair, KeyValue_key, KeyValue_value. rewrite Hq.
  do 5 (apply wp_bind, wp_deref; eexists; split; [done|]).
  by apply append_internal_wp.
Qed.

(** All the pairs of a vector, in the builder. *)
Lemma append_pairs_wp v n :
  (∀ i, 0 <= i < n → ∃ q, KeyValue_vec_at buf v i = Some (Some q) ∧ KeyValue_valid buf q ∧
     KeyValue_complete buf (Some q) = true) →
  0 <= n → 4 * n <= zlen buf →
  wp (mfor (zseq n) (append_pair buf v)) ArrowBufferInit
    (λ _ b, ∃ l, mapM (message_pair buf v) (zseq n) = Some l ∧ builds b l ∧ zlen l = n) build_failed.
Proof.
  intros Hall Hn0 Hn. unfold INT32_MAX, INT64_MAX in *. pose proof (zlen_nonneg buf).
  eapply wp_mono; [apply (wp_for (λ pre b, ∃ l, Forall2 (λ i p, message_pair buf v i = Some p) pre l ∧
    builds b l ∧ zlen (encode l) <= 4 + zlen pre * (8 + 2 * zlen buf)))| |done].
  - exists []. split; [constructor|]. split; [apply builds_init|]. vm_compute. discriminate.
  - intros pre i post b Hsplit (l & Hl & Hb & Hlen). apply zseq_split in Hsplit as (Hi & Hlt & _).
    pose proof (zlen_nonneg pre). destruct (Hall i) as (q & Hq & Hqv & Hqc); [lia|].
    destruct (message_pair_spec v i q Hq Hqv Hqc) as (p & Hp & Hpok & Hplen & Hstep).
    assert (zlen l = zlen pre) as Hll by (unfold zlen; f_equal; symmetry; by eapply Forall2_length).
    eapply wp_mono; [apply (Hstep b l Hb); unfold INT32_MAX, INT64_MAX; nia| |done].
    intros ? b' Hb'. exists (l ++ [p]). split; [apply Forall2_app; by repeat constructor|].
    split; [done|]. rewrite zlen_encode_snoc, zlen_app. change (zlen [i]) with 1. nia.
  - intros ? b (l & Hl & Hb & _). exists l. split; [by apply mapM_Some|]. split; [done|].
    apply Forall2_length in Hl. unfold zlen. rewrite <-Hl. unfold zseq. rewrite length_fmap, length_seq. lia.
Qed.

Lemma set_metadata_encoded d l a s :
  represents (Some d) l →
  wp (ArrowSchemaSetMetadata (Some d)) (a, s) (λ _ p, p.2 = set_metadata (Some (encode l)) s) oom.
Proof.
  intros Hd. unfold ArrowSchemaSetMetadata. rewrite (metadata_size_of _ _ Hd).
  apply wp_bind, wp_ret, malloc_wp; intros a'; [|done]. destruct Hd as [_ [post ->]].
  pose proof (zlen_nonneg (encode l)). pose proof (zlen_nonneg post).
  rewrite zslice_in by (rewrite ?zlen_app; lia). apply wp_bind, wp_ret, modify_wp. cbn.
  unfold zlen. by rewrite Nat2Z.id, drop_0, take_app_length.
Qed.

Lemma decode_metadata_wp id t v a s :
  tables_valid buf (KeyValue_valid buf) id t → __flatbuffers_vector_field buf id (Some t) = Some v →
  all_tables buf (KeyValue_complete buf) (Some v) = true → schema_metadata s = None →
  wp (ArrowIpcDecoderSetMetadata buf v) (a, s)
    (λ _ p, ∃ l, message_pairs buf v = Some l ∧ p.2 = set_metadata (metadata_of l) s) decode_error.
Proof.
  intros Hval Hv Hc Hs. pose proof Hval as (v' & n & Hv' & Hn & Hb & Hall).
  assert (v' = v) as -> by congruence.
  destruct (tables_count buf _ _ _ _ _ Hval Hv Hn) as [Hn0 Hn4].
  unfold all_tables in Hc. rewrite Hn in Hc. unfold ArrowIpcDecoderSetMetadata, message_pairs, KeyValue_vec_len.
  rewrite Hn. apply wp_bind, wp_ret. destruct (Z.eqb_spec n 0) as [->|Hne].
  { apply wp_ret. exists []. split; [done|]. destruct s; cbn in *; by subst. }
  apply wp_bind, wp_check; [intros _|intros _; unfold decode_error; auto].
  assert (∀ i, 0 <= i < n → ∃ q, KeyValue_vec_at buf v i = Some (Some q) ∧ KeyValue_valid buf q ∧
     KeyValue_complete buf (Some q) = true) as Hq.
  { intros i Hi. destruct (Hall i Hi) as (q & Hq & Hqv). exists q. split; [done|]. split; [done|].
    rewrite forallb_forall in Hc. specialize (Hc i). rewrite Hq in Hc. apply Hc.
    apply list_elem_of_In, elem_of_zseq. lia. }
  pose proof (append_pairs_wp v n Hq Hn0 Hn4) as Hwp.
  change (wp (ArrowMetadataBuilderInit None ;;; mfor (zseq n) (append_pair buf v)) ArrowBufferInit
    (λ _ b, ∃ l, mapM (message_pair buf v) (zseq n) = Some l ∧ builds b l ∧ zlen l = n) build_failed) in Hwp.
  unfold wp at 1. unfold wp in Hwp.
  destruct ((ArrowMetadataBuilderInit None ;;; mfor (zseq n) (append_pair buf v)) ArrowBufferInit)
    as [? b|e b|]; [|left; apply Hwp|done].
  destruct Hwp as (l & Hl & Hb' & Hln). pose proof (builds_represents b l Hb') as Hrep.
  destruct (data b) as [d|] eqn:Hd.
  - pose proof (set_metadata_encoded d l a s Hrep) as Hset. unfold wp in Hset.
    destruct (ArrowSchemaSetMetadata (Some d) (a, s)) as [? p|e p|]; [|by left|done].
    exists l. split; [done|]. destruct l; [rewrite zlen_nil in Hln; lia|done].
  - destruct Hrep as [_ ->]. rewrite zlen_nil in Hln. lia.
Qed.

(** *** Types *)
Definition start (nm : string) : members := MkMembers None (Some nm) None ARROW_FLAG_NULLABLE 0 None None.
Definition typed_as (type : Z) (table : loc) (n : Z) (nm : string) (_ : unit) (p : mstate * members) : Prop :=
  ∃ f fl, type_format buf type table n = Some f ∧ type_flags buf type table = Some fl ∧
    p.2 = MkMembers (Some f) (Some nm) None (ARROW_FLAG_NULLABLE + fl) 0 None None.

Lemma typed_format type table n nm f (m : M (mstate * members) unit) a :
  type ≠ 17 → type_format buf type table n = Some f →
  wp m (a, start nm) (λ _ p, p.2 = set_format (Some f) (start nm)) decode_error →
  wp m (a, start nm) (typed_as type table n nm) decode_error.
Proof.
  intros Ht Hf Hm. eapply wp_mono; [done| |done]. intros [] p Hp. exists f, 0. split; [done|].
  unfold type_flags. destruct (Z.eqb_spec type 17); [done|]. split; [done|]. by rewrite Hp.
Qed.
Lemma oom_decode_error {A} (m : M (mstate * members) A) p Q : wp m p Q oom → wp m p Q decode_error.
Proof. intros Hm. eapply wp_mono; [done|done|]. by left. Qed.
Lemma format_wp f a s :
  wp (ArrowSchemaSetFormat (Some f)) (a, s) (λ _ p, p.2 = set_format (Some f) s) decode_error.
Proof. apply oom_decode_error, set_format_wp. Qed.
Lemma einval_wp {A} p (Q : A → mstate * members → Prop) : wp (mfail EINVAL) p Q decode_error.
Proof. right. by left. Qed.

(** Types whose setter only writes a format. *)
Definition is_simple (t : ArrowType) : bool :=
  match t with
  | NANOARROW_TYPE_LIST | NANOARROW_TYPE_LARGE_LIST | NANOARROW_TYPE_FIXED_SIZE_LIST
  | NANOARROW_TYPE_MAP => false
  | _ => true
  end.
Lemma simple_wp t f a s :
  ArrowSchemaFormatTemplate t = Some f → is_simple t = true →
  wp (ArrowIpcDecoderSetTypeSimple t) (a, s) (λ _ p, p.2 = set_format (Some f) s) decode_error.
Proof.
  intros Hf Ht. unfold ArrowIpcDecoderSetTypeSimple, ArrowSchemaSetType. rewrite Hf.
  apply wp_bind. eapply wp_mono; [apply format_wp| |done]. intros [] p Hp. by destruct t.
Qed.

Lemma simple_typed type table n nm t f a :
  type ≠ 17 → ArrowSchemaFormatTemplate t = Some f → is_simple t = true →
  type_format buf type table n = Some f →
  wp (ArrowIpcDecoderSetTypeSimple t) (a, start nm) (typed_as type table n nm) decode_error.
Proof. intros. eapply typed_format; [done|done|by apply simple_wp]. Qed.

Ltac reading := cbv beta iota delta [
  Int_is_signed Int_bitWidth FloatingPoint_precision Decimal_precision Decimal_scale Decimal_bitWidth
  FixedSizeBinary_byteWidth Date_unit Time_unit Time_bitWidth Timestamp_unit Timestamp_timezone
  Timestamp_timezone_is_present Interval_unit Duration_unit FixedSizeList_listSize Map_keysSorted
  Union_mode Union_typeIds Union_typeIds_is_present flatbuffers_int32_vec_len];
  repeat match goal with
  | H : __flatbuffers_scalar_field ?b ?r ?i ?v ?t = Some _ |- context [__flatbuffers_scalar_field ?b ?r ?i ?v ?t] =>
      rewrite H; cbn [mbind option_bind]
  end;
  repeat match goal with
  | |- wp (mbind_ (deref (Some _)) _) _ _ _ => apply wp_bind, wp_ret
  end.

Lemma decode_int_wp q n nm a :
  Int_valid buf q →
  wp (ArrowIpcDecoderSetTypeInt buf (Some q)) (a, start nm) (typed_as 2 (Some q) n nm) decode_error.
Proof.
  intros [Hw Hs]. destruct (read_signed buf 4 0 0 q ltac:(lia) Hw) as (w & Hwr & _).
  destruct (read_unsigned buf 1 1 0 q Hs) as (s & Hsr). unfold ArrowIpcDecoderSetTypeInt. reading.
  destruct (Z.eqb_spec s 0) as [Hs0|Hs0]; cbn [negb]; repeat case_match; subst; try apply einval_wp;
    (eapply simple_typed; [done|done|done|]; unfold type_format; reading; try done).
  all: destruct (Z.eqb_spec s 0); done.
Qed.
Lemma decode_floating_point_wp q n nm a :
  field_valid buf 2 0 q →
  wp (ArrowIpcDecoderSetTypeFloatingPoint buf (Some q)) (a, start nm) (typed_as 3 (Some q) n nm) decode_error.
Proof.
  intros Hp. destruct (read_signed buf 2 0 0 q ltac:(lia) Hp) as (p & Hpr & _).
  unfold ArrowIpcDecoderSetTypeFloatingPoint. reading. repeat case_match; subst; try apply einval_wp.
  all: eapply simple_typed; [done|done|done|]; unfold type_format; reading; done.
Qed.
Lemma decode_date_wp q n nm a :
  field_valid buf 2 0 q →
  wp (ArrowIpcDecoderSetTypeDate buf (Some q)) (a, start nm) (typed_as 8 (Some q) n nm) decode_error.
Proof.
  intros Hp. destruct (read_signed buf 2 0 1 q ltac:(lia) Hp) as (p & Hpr & _).
  unfold ArrowIpcDecoderSetTypeDate. reading. repeat case_match; subst; try apply einval_wp.
  all: eapply simple_typed; [done|done|done|]; unfold type_format; reading; done.
Qed.
Lemma decode_interval_wp q n nm a :
  field_valid buf 2 0 q →
  wp (ArrowIpcDecoderSetTypeInterval buf (Some q)) (a, start nm) (typed_as 11 (Some q) n nm) decode_error.
Proof.
  intros Hp. destruct (read_signed buf 2 0 0 q ltac:(lia) Hp) as (p & Hpr & _).
  unfold ArrowIpcDecoderSetTypeInterval. reading. repeat case_match; subst; try apply einval_wp.
  all: eapply simple_typed; [done|done|done|]; unfold type_format; reading; done.
Qed.
Lemma decode_decimal_wp q n nm a :
  field_valid buf 4 0 q → field_valid buf 4 1 q → field_valid buf 4 2 q →
  wp (ArrowIpcDecoderSetTypeDecimal buf (Some q)) (a, start nm) (typed_as 7 (Some q) n nm) decode_error.
Proof.
  intros Hp Hs Hw. destruct (read_signed buf 4 0 0 q ltac:(lia) Hp) as (p & Hpr & Hpb).
  destruct (read_signed buf 4 1 0 q ltac:(lia) Hs) as (s & Hsr & Hsb).
  destruct (read_signed buf 4 2 128 q ltac:(lia) Hw) as (w & Hwr & _).
  assert (INT32_MIN <= p <= INT32_MAX ∧ INT32_MIN <= s <= INT32_MAX) as [Hp' Hs']
    by (unfold INT32_MIN, INT32_MAX; change (8 * Z.of_nat 4 - 1) with 31 in *; lia).
  pose proof (print_int_len p Hp'). pose proof (print_int_len s Hs').
  unfold ArrowIpcDecoderSetTypeDecimal. reading.
  repeat case_match; subst; try apply einval_wp; unfold ArrowSchemaSetTypeDecimal;
    (destruct (p <=? 0); [apply einval_wp|]); eapply typed_format; try done;
    try (unfold type_format; reading; done); (apply print_to_wp; [|apply format_wp]).
  all: rewrite ?zstrlen_app; change (zstrlen "d:") with 2; change (zstrlen ",") with 1;
    change (zstrlen ",256") with 4; lia.
Qed.
Lemma decode_fixed_binary_wp q n nm a :
  field_valid buf 4 0 q →
  wp (ArrowIpcDecoderSetTypeFixedSizeBinary buf (Some q)) (a, start nm) (typed_as 15 (Some q) n nm) decode_error.
Proof.
  intros Hp. destruct (read_signed buf 4 0 0 q ltac:(lia) Hp) as (p & Hpr & Hpb).
  assert (INT32_MIN <= p <= INT32_MAX) as Hp'
    by (unfold INT32_MIN, INT32_MAX; change (8 * Z.of_nat 4 - 1) with 31 in *; lia).
  pose proof (print_int_len p Hp'). unfold ArrowIpcDecoderSetTypeFixedSizeBinary. reading.
  unfold ArrowSchemaSetTypeFixedSize. destruct (p <=? 0); [apply einval_wp|].
  eapply typed_format; [done|unfold type_format; reading; done|].
  apply print_to_wp; [|apply format_wp]. rewrite zstrlen_app. change (zstrlen "w:") with 2. lia.
Qed.
Lemma decode_fixed_list_wp q n nm a :
  field_valid buf 4 0 q →
  wp (ArrowIpcDecoderSetTypeFixedSizeList buf (Some q)) (a, start nm) (typed_as 16 (Some q) n nm) decode_error.
Proof.
  intros Hp. destruct (read_signed buf 4 0 0 q ltac:(lia) Hp) as (p & Hpr & Hpb).
  assert (INT32_MIN <= p <= INT32_MAX) as Hp'
    by (unfold INT32_MIN, INT32_MAX; change (8 * Z.of_nat 4 - 1) with 31 in *; lia).
  pose proof (print_int_len p Hp'). unfold ArrowIpcDecoderSetTypeFixedSizeList. reading.
  eapply typed_format; [done|unfold type_format; reading; done|].
  apply print_to_wp; [|apply format_wp]. rewrite zstrlen_app. change (zstrlen "+w:") with 3. lia.
Qed.
(** The setter of times, timestamps and durations. *)
Lemma set_date_time_wp t unit zone a s :
  match t, zone with
  | (NANOARROW_TYPE_TIME32 | NANOARROW_TYPE_TIME64 | NANOARROW_TYPE_DURATION), None
  | NANOARROW_TYPE_TIMESTAMP, _ => True
  | _, _ => False
  end →
  wp (set_date_time t unit zone) (a, s)
    (λ _ p, ∃ l, time_letter unit = Some l ∧ p.2 = set_format (Some (match t with
       | NANOARROW_TYPE_TIMESTAMP => "ts" +:+ l +:+ ":" +:+ default "" zone
       | NANOARROW_TYPE_DURATION => "tD" +:+ l
       | _ => "tt" +:+ l end)%string) s) decode_error.
Proof.
  intros Ht. unfold set_date_time. repeat case_match; subst; try apply einval_wp; try done;
    unfold ArrowSchemaSetTypeDateTime; cbn [ArrowTimeUnitFormatString default]; cbv zeta;
    (destruct (128 <=? _); [unfold wp, mfail, decode_error; tauto|]);
    (eapply wp_mono; [apply format_wp| |done]); intros [] p Hp; eexists; split; done.
Qed.
Lemma decode_time_wp q n nm a :
  field_valid buf 2 0 q → field_valid buf 4 1 q →
  wp (ArrowIpcDecoderSetTypeTime buf (Some q)) (a, start nm) (typed_as 9 (Some q) n nm) decode_error.
Proof.
  intros Hu Hw. destruct (read_signed buf 2 0 1 q ltac:(lia) Hu) as (u & Hur & _).
  destruct (read_signed buf 4 1 32 q ltac:(lia) Hw) as (w & Hwr & _).
  unfold ArrowIpcDecoderSetTypeTime. reading. repeat case_match; subst; try apply einval_wp;
    (apply wp_bind, wp_check; [intros _|intros _; right; by left]);
    (eapply typed_format; [done| |eapply wp_mono; [by apply set_date_time_wp| |done]]);
    try (intros [] p (l & [= <-] & Hp); exact Hp); unfold type_format; reading; done.
Qed.
Lemma decode_duration_wp q n nm a :
  field_valid buf 2 0 q →
  wp (ArrowIpcDecoderSetTypeDuration buf (Some q)) (a, start nm) (typed_as 18 (Some q) n nm) decode_error.
Proof.
  intros Hu. destruct (read_signed buf 2 0 1 q ltac:(lia) Hu) as (u & Hur & _).
  unfold ArrowIpcDecoderSetTypeDuration. reading.
  eapply wp_mono; [by apply set_date_time_wp| |done]. intros [] p (l & Hl & Hp).
  exists ("tD" +:+ l)%string, 0. split; [unfold type_format; reading; by rewrite Hl|].
  split; [done|]. by rewrite Hp.
Qed.
(** A string that may be absent, which the decoder replaces with the empty one. *)
Lemma optional_text_wp o z (p : mstate * members) :
  o = Some z → z = None ∨ is_Some (c_string buf z) →
  ∃ zone, match z with None => Some ""%string | Some _ => text buf z end = Some zone ∧
    wp (if not_null z then let* p := deref o in c_text buf p else mret_ ""%string) p
      (λ x p', x = zone ∧ p' = p) decode_error.
Proof.
  intros -> Hz. destruct z as [z|]; [|by exists ""%string]. destruct Hz as [?|[s Hs]]; [done|].
  exists (string_of_bytes s). unfold text. rewrite Hs. split; [done|]. cbn [not_null].
  apply wp_bind, wp_ret. unfold c_text. rewrite Hs. by apply wp_bind, wp_ret, wp_ret.
Qed.
Lemma decode_timestamp_wp q n nm a :
  field_valid buf 2 0 q → string_valid buf 1 q →
  wp (ArrowIpcDecoderSetTypeTimestamp buf (Some q)) (a, start nm) (typed_as 10 (Some q) n nm) decode_error.
Proof.
  intros Hu (z & Hz & Hzs). destruct (read_signed buf 2 0 0 q ltac:(lia) Hu) as (u & Hur & _).
  unfold ArrowIpcDecoderSetTypeTimestamp. reading. rewrite (read_present buf _ _ _ _ Hz), Hz.
  apply wp_bind, wp_ret.
  destruct (optional_text_wp (Some z) z (a, start nm) eq_refl Hzs) as (zone & Hzone & Hrun).
  apply wp_bind. eapply wp_mono; [exact Hrun| |done]. intros x p [-> ->].
  eapply wp_mono; [by apply set_date_time_wp| |done]. intros [] p (l & Hl & Hp).
  exists ("ts" +:+ l +:+ ":" +:+ zone)%string, 0. split.
  - unfold type_format. reading. rewrite Hz. cbn [mbind option_bind]. by rewrite Hl, Hzone.
  - split; [done|]. by rewrite Hp.
Qed.
Lemma decode_map_wp q n nm a :
  field_valid buf 1 0 q →
  wp (ArrowIpcDecoderSetTypeMap buf (Some q)) (a, start nm) (typed_as 17 (Some q) n nm) decode_error.
Proof.
  intros Hk. destruct (read_unsigned buf 1 0 0 q Hk) as (k & Hkr).
  unfold ArrowIpcDecoderSetTypeMap. apply wp_bind. eapply wp_mono; [apply format_wp| |done].
  intros [] [a1 s1] Hs1. cbn in Hs1. subst s1. reading. apply modify_wp.
  exists "+m"%string, (if k =? 0 then 0 else ARROW_FLAG_MAP_KEYS_SORTED). split; [done|].
  unfold type_flags. reading. split; [done|]. by destruct (k =? 0).
Qed.

(** *** Unions *)
Lemma concat_ids_len l :
  Forall (λ i, INT32_MIN <= i <= INT32_MAX) l →
  zstrlen (String.concat "" ((λ i, "," +:+ print_int i) <$> l))%string <= 12 * zlen l.
Proof.
  induction 1 as [|i l Hi _ IH]; [done|]. rewrite fmap_cons, zlen_cons.
  pose proof (print_int_len i Hi). destruct l as [|j l]; [|rewrite fmap_cons in *].
  all: cbn [String.concat fmap list_fmap] in *; rewrite ?zstrlen_app in *; change (zstrlen ",") with 1 in *.
  - change (zlen (@nil Z)) with 0. lia.
  - change (zstrlen "") with 0 in *. lia.
Qed.
Lemma join_ids_len l :
  Forall (λ i, INT32_MIN <= i <= INT32_MAX) l → zstrlen (join_ids l) <= 12 * zlen l.
Proof.
  intros [|i l' Hi Hl]; [done|]. cbn [join_ids]. rewrite zstrlen_app, zlen_cons.
  pose proof (print_int_len i Hi). pose proof (concat_ids_len l' Hl). lia.
Qed.
(** The type ids of the message. *)
Lemma read_ids p n :
  0 <= p → 0 <= n → p + 4 * n <= zlen buf →
  ∃ ids, mapM (flatbuffers_int32_vec_at buf (Some p)) (zseq n) = Some ids ∧ zlen ids = n ∧
    Forall (λ i, INT32_MIN <= i <= INT32_MAX) ids.
Proof.
  intros Hp Hn Hb.
  assert (∃ ids, Forall2 (λ i x, flatbuffers_int32_vec_at buf (Some p) i = Some x ∧
    INT32_MIN <= x <= INT32_MAX) (zseq n) ids) as [ids Hids].
  { assert (∀ i, i ∈ zseq n → ∃ x, flatbuffers_int32_vec_at buf (Some p) i = Some x ∧
      INT32_MIN <= x <= INT32_MAX) as Hall.
    { intros i Hi%elem_of_zseq. destruct (load_u_in 4 buf (p + 4 * i)) as [x Hx]; [lia|lia|].
      exists (swrap 32 x). unfold flatbuffers_int32_vec_at, __flatbuffers_scalar_vec_at.
      cbn [mbind option_bind]. change (Z.of_nat 4) with 4. unfold load_i. rewrite Hx. split; [done|].
      pose proof (swrap_range 32 x). change (2 ^ (32 - 1)) with 2147483648 in *.
      unfold INT32_MIN, INT32_MAX. lia. }
    induction (zseq n) as [|i l IH]; [by exists []|].
    destruct (Hall i) as [x Hx]; [by left|]. destruct IH as [ids Hids]; [intros; apply Hall; by right|].
    exists (x :: ids). by constructor. }
  exists ids. split; [apply mapM_Some; eapply Forall2_impl; [|exact Hids]; by intros ?? []|].
  split; [rewrite <-(zlen_zseq n Hn); unfold zlen; by rewrite (Forall2_length Hids)|].
  induction Hids as [|???? []]; by constructor.
Qed.
Lemma union_text_wp prefix ids q n nm a :
  zstrlen prefix = 4 → 0 <= n <= 127 → zlen ids = n → Forall (λ i, INT32_MIN <= i <= INT32_MAX) ids →
  type_format buf 14 (Some q) n = Some (prefix +:+ join_ids ids)%string →
  wp (let* union_types_str := print_to 2048 (prefix +:+ join_ids ids) in
      ArrowIpcDecoderSetTypeSimpleNested union_types_str) (a, start nm)
    (typed_as 14 (Some q) n nm) decode_error.
Proof.
  intros Hp Hn Hlen Hall Hf. eapply typed_format; [done|done|].
  apply print_to_wp; [|apply format_wp]. rewrite zstrlen_app. pose proof (join_ids_len ids Hall). lia.
Qed.
Lemma decode_union_wp q n nm a :
  field_valid buf 2 0 q → vector_valid buf 4 1 q →
  wp (ArrowIpcDecoderSetTypeUnion buf (Some q) n) (a, start nm) (typed_as 14 (Some q) n nm) decode_error.
Proof.
  intros Hm (v & k & Hv & Hk & Hk0 & Hkb). destruct (read_signed buf 2 0 0 q ltac:(lia) Hm) as (m & Hmr & _).
  pose proof (read_present buf _ _ _ _ Hv) as Hpres.
  unfold ArrowIpcDecoderSetTypeUnion. reading. apply wp_bind, wp_check; [|intros; right; by left].
  intros Hn. assert (0 <= n <= 127) as Hn' by lia. clear Hn.
  apply wp_bind, (wp_mono _ _ (λ prefix p, zstrlen prefix = 4 ∧ p = (a, start nm) ∧
    znth ["+us:"; "+ud:"]%string m = Some prefix) _ decode_error); [| |done].
  { repeat case_match; try apply einval_wp; by apply wp_ret. }
  intros prefix ? (Hpl & -> & Hprefix). rewrite Hpres. apply wp_bind, wp_ret, wp_bind.
  destruct v as [v|]; cbn [not_null].
  - unfold Union_typeIds. rewrite Hv. apply wp_bind, wp_ret. unfold flatbuffers_int32_vec_len. rewrite Hk.
    apply wp_bind, wp_ret, wp_bind, wp_check; [|intros; right; by left]. intros ->%Z.eqb_eq.
    destruct (Hkb v eq_refl) as [Hv0 Hvb]. destruct (read_ids v n Hv0 Hk0 Hvb) as (ids & Hread & Hlen & Hall).
    rewrite Hread. apply wp_ret, union_text_wp; [done..|].
    unfold type_format. reading. rewrite Hprefix, Hpres, Hv. cbn [mbind option_bind not_null].
    rewrite Hk. cbn [mbind option_bind]. by rewrite Hread.
  - apply wp_ret, union_text_wp; [done|done|apply zlen_zseq; lia| |].
    + apply Forall_forall. intros i Hi%list_elem_of_In%elem_of_zseq. unfold INT32_MIN, INT32_MAX. lia.
    + unfold type_format. reading. by rewrite Hprefix, Hpres.
Qed.

Lemma decode_type_wp t n nm a type table :
  Field_type_type buf (Some t) = Some type → Field_type buf (Some t) = Some table →
  (∀ q, table = Some q → Type_valid buf type q) → (needs_table type = true → ∃ q, table = Some q) →
  wp (ArrowIpcDecoderSetType buf (Some t) n) (a, start nm) (typed_as type table n nm) decode_error.
Proof.
  intros Htt Ht Hvalid Hneed. unfold ArrowIpcDecoderSetType. rewrite Htt, Ht. apply wp_bind, wp_ret.
  cbv zeta. repeat case_match; subst; try apply einval_wp;
    try (by eapply simple_typed); try (eapply typed_format; [done|done|apply format_wp]);
    apply wp_bind, wp_ret; destruct (Hneed eq_refl) as [q ->]; specialize (Hvalid q eq_refl);
    cbn [Type_valid] in Hvalid; destruct_and?; destruct_and? Hvalid.
  all: by auto using decode_int_wp, decode_floating_point_wp, decode_decimal_wp, decode_date_wp,
    decode_time_wp, decode_timestamp_wp, decode_interval_wp, decode_union_wp, decode_fixed_binary_wp,
    decode_fixed_list_wp, decode_map_wp, decode_duration_wp.
Qed.

(** *** Children *)
Lemma set_children_wp set_field (spec : loc → option members) fields n a s :
  Schema_vec_len buf fields = Some n → 0 <= n →
  n_children s = n → children s = fresh_children n →
  (∀ i, 0 <= i < n → ∃ q, Field_vec_at buf fields i = Some q ∧
    ∀ a, wp (set_field q) (a, ArrowSchemaInit) (λ _ p, spec q = Some p.2) decode_error) →
  wp (ArrowIpcDecoderSetChildren_with buf set_field fields) (a, s)
    (λ _ p, ∃ kids, mapM (λ i, q ← Field_vec_at buf fields i; spec q) (zseq n) = Some kids ∧
      p.2 = set_children n (children_of kids) s) decode_error.
Proof.
  intros Hlen Hn Hsn Hsc Hall. unfold ArrowIpcDecoderSetChildren_with. rewrite Hlen. apply wp_bind, wp_ret.
  unfold fresh_children in Hsc. destruct (Z.ltb_spec 0 n) as [Hpos|Hz].
  2:{ assert (n = 0) as -> by lia. apply wp_ret. exists []. split; [done|]. by destruct s; cbn in *; subst. }
  eapply (wp_mono _ _ _ _ decode_error); [apply (wp_for (λ l p, ∃ kids,
    Forall2 (λ i k, (q ← Field_vec_at buf fields i; spec q) = Some k) l kids ∧
    p.2 = set_children n (Some (((λ k, Some (SchemaLive k)) <$> kids) ++
      replicate (Z.to_nat n - length l) (Some (SchemaLive ArrowSchemaInit)))) s))| |done].
  - exists []. split; [constructor|]. cbn [fst snd fmap list_fmap app length]. rewrite Nat.sub_0_r, <-Hsc.
    by destruct s; cbn in *; subst.
  - intros pre i post [a1 s1] Hsplit (kids & Hkids & Hs1). apply zseq_split in Hsplit as (Hi & Hlt & _).
    cbn [snd] in Hs1. subst s1. destruct (Hall i) as (q & Hq & Hrun); [pose proof (zlen_nonneg pre); lia|].
    rewrite Hq. apply wp_bind, wp_ret. specialize (Hrun a1). pose proof (Forall2_length Hkids) as Hkl.
    set (inits := (λ k, Some (SchemaLive k)) <$> kids).
    assert (length inits = length pre) as Hil by (unfold inits; by rewrite length_fmap).
    replace (Z.to_nat n - length pre)%nat with (S (Z.to_nat n - (length pre + 1))) by (unfold zlen in *; lia).
    replace i with (zlen inits) in * by (unfold zlen in *; lia). cbn [replicate].
    unfold wp, on_child. cbn [children set_children].
    rewrite znth_app, Z.ltb_irrefl, Z.sub_diag by apply zlen_nonneg.
    change (znth (?x :: ?l) 0) with (Some x). cbv iota beta. unfold live. unfold wp in Hrun.
    destruct (set_field q (a1, ArrowSchemaInit)) as [? [a2 k]|e [a2 k]|]; [|exact Hrun|done].
    exists (kids ++ [k]). split.
    + apply Forall2_app; [done|]. constructor; [|constructor]. by rewrite Hq.
    + cbn [snd]. unfold set_children. f_equal. f_equal. unfold zlen. rewrite Nat2Z.id.
      replace (length inits) with (length inits + 0)%nat at 1 by lia.
      rewrite insert_app_r, length_app, fmap_app, <-app_assoc. done.
  - intros [] p (kids & Hkids & Hp). exists kids. split; [by apply mapM_Some|]. rewrite Hp.
    assert (length (zseq n) = Z.to_nat n) as Hzs by (unfold zseq; by rewrite length_fmap, length_seq).
    rewrite Hzs, Nat.sub_diag, app_nil_r. pose proof (Forall2_length Hkids). destruct kids; [cbn in *; lia|done].
Qed.

(** The end of a field and of a schema: its children, then its metadata. *)
Lemma children_metadata_wp set_field (spec : loc → option members) fields n o id t v a s :
  Schema_vec_len buf fields = Some n → 0 <= n → 4 * n <= zlen buf →
  (∀ i, 0 <= i < n → ∃ q, Field_vec_at buf fields i = Some q ∧
    ∀ a, wp (set_field q) (a, ArrowSchemaInit) (λ _ p, spec q = Some p.2) decode_error) →
  tables_valid buf (KeyValue_valid buf) id t → __flatbuffers_vector_field buf id (Some t) = Some v →
  o = Some v → all_tables buf (KeyValue_complete buf) o = true →
  children s = None → n_children s = 0 → schema_metadata s = None →
  wp ((ArrowSchemaAllocateChildren n ;;; mfor (zseq n) init_child) ;;;
      ArrowIpcDecoderSetChildren_with buf set_field fields ;;;
      let* kv_vec := deref o in ArrowIpcDecoderSetMetadata buf kv_vec) (a, s)
    (λ _ p, ∃ kids l, mapM (λ i, q ← Field_vec_at buf fields i; spec q) (zseq n) = Some kids ∧
      message_pairs buf v = Some l ∧
      p.2 = set_metadata (metadata_of l) (set_children n (children_of kids) s)) decode_error.
Proof.
  intros Hn Hn0 Hn4 Hall Hval Hv -> Hc Hs1 Hs2 Hs3. apply wp_bind. eapply wp_mono.
  - apply oom_decode_error, init_children_wp; [done..|]. unfold sizeof_pointer, INT64_MAX. lia.
  - intros [] [a1 s1] Hs. cbn [snd] in Hs. subst s1. apply wp_bind. eapply wp_mono.
    + by apply (set_children_wp set_field spec fields n).
    + intros [] [a2 s2] (kids & Hkids & Hs). cbn [snd] in Hs. subst s2. apply wp_bind, wp_ret.
      eapply wp_mono; [by eapply decode_metadata_wp| |done]. intros [] p (l & Hl & Hp).
      exists kids, l. by rewrite Hp.
    + done.
  - done.
Qed.

(** *** Fields *)
Lemma type_flags_cases type table fl :
  type_flags buf type table = Some fl → fl = 0 ∨ fl = ARROW_FLAG_MAP_KEYS_SORTED.
Proof.
  unfold type_flags. destruct (type =? 17); [|intros [= <-]; auto].
  destruct (Map_keysSorted buf table) as [k|]; [|done]. intros [= <-]. destruct (k =? 0); auto.
Qed.
Lemma all_tables_at f v n i q :
  all_tables buf f (Some v) = true → __flatbuffers_vec_len buf v = Some n → 0 <= i < n →
  __flatbuffers_offset_vec_at buf v i 0 = Some q → f q = true.
Proof.
  intros Hc Hn Hi Hq. cbn in Hc. rewrite Hn, forallb_forall in Hc. specialize (Hc i). rewrite Hq in Hc.
  apply Hc, list_elem_of_In, elem_of_zseq. lia.
Qed.
Lemma decode_name_wp t z a :
  Field_name buf (Some t) = Some z → z = None ∨ is_Some (c_string buf z) →
  wp (if not_null z then
        let* p := deref (Field_name buf (Some t)) in
        let* n := c_text buf p in ArrowSchemaSetName (Some n)
      else ArrowSchemaSetName (Some ""%string)) (a, ArrowSchemaInit)
    (λ _ p, ∃ nm, match z with None => Some ""%string | Some _ => text buf z end = Some nm ∧
       p.2 = start nm) decode_error.
Proof.
  intros Hz Hzs. rewrite Hz. destruct z as [z|]; cbn [not_null].
  - destruct Hzs as [?|[s Hs]]; [done|]. apply wp_bind, wp_ret. unfold c_text. rewrite Hs.
    apply wp_bind, wp_bind, wp_ret, wp_ret. apply oom_decode_error. eapply wp_mono; [apply set_name_wp| |done].
    intros [] p Hp. exists (string_of_bytes s). unfold text. rewrite Hs. by rewrite Hp.
  - apply oom_decode_error. eapply wp_mono; [apply set_name_wp| |done]. intros [] p Hp.
    exists ""%string. by rewrite Hp.
Qed.
(** The parts of a field that is valid and complete. *)
Lemma field_parts d t :
  Field_valid buf d t → Field_complete buf d (Some t) = true →
  ∃ z nullable type table dict v n mv,
    Field_name buf (Some t) = Some z ∧ (z = None ∨ is_Some (c_string buf z)) ∧
    Field_nullable buf (Some t) = Some nullable ∧
    Field_type_type buf (Some t) = Some type ∧ Field_type buf (Some t) = Some table ∧
    (∀ q, table = Some q → Type_valid buf type q) ∧ (needs_table type = true → ∃ q, table = Some q) ∧
    __flatbuffers_table_field buf 4 (Some t) = Some dict ∧
    Field_children buf (Some t) = Some v ∧ Field_vec_len buf v = Some n ∧ 0 <= n ∧ 4 * n <= zlen buf ∧
    (∀ i, 0 <= i < n → ∃ d' q, d = S d' ∧ Field_vec_at buf v i = Some (Some q) ∧ Field_valid buf d' q ∧
       Field_complete buf d' (Some q) = true) ∧
    Field_custom_metadata buf (Some t) = Some mv ∧ tables_valid buf (KeyValue_valid buf) 6 t ∧
    all_tables buf (KeyValue_complete buf) (Some mv) = true.
Proof.
  intros Hval Hcomp. assert (string_valid buf 0 t ∧ field_valid buf 1 1 t ∧
    union_valid buf (Type_valid buf) 3 t ∧ table_valid buf (DictionaryEncoding_valid buf) 4 t ∧
    tables_valid buf (match d with O => λ _, False | S d' => Field_valid buf d' end) 5 t ∧
    tables_valid buf (KeyValue_valid buf) 6 t) as (Hname & Hnull & Hunion & Hdict & Hkids & Hmeta)
    by (by destruct d). clear Hval. destruct Hname as (z & Hz & Hzs), Hdict as (dict & Hdict & _).
  destruct Hunion as (type & table & Htype & Htable & _ & Htv).
  destruct (read_unsigned buf 1 1 0 t Hnull) as (nullable & Hnullable).
  pose proof Hkids as (v & n & Hv & Hn & Hn0 & Hall). pose proof Hmeta as (mv & mn & Hmv & _).
  destruct (tables_count buf _ _ _ _ _ Hkids Hv Hn) as [_ Hn4].
  assert ((negb (needs_table type) || present (Some table)) = true ∧
    all_tables buf (match d with O => λ _, false | S d' => Field_complete buf d' end) (Some v) = true ∧
    all_tables buf (KeyValue_complete buf) (Some mv) = true) as (Hct & Hck & Hcm).
  { destruct d; cbn [Field_complete] in Hcomp; unfold Field_type_type, Field_type, Field_children,
      Field_custom_metadata in Hcomp; rewrite Htype, Htable, Hv, Hmv in Hcomp;
      apply andb_true_iff in Hcomp as [[? ?]%andb_true_iff ?]; done. }
  exists z, nullable, type, table, dict, v, n, mv. do 6 (split; [done|]).
  split; [intros Hneed; rewrite Hneed in Hct; destruct table as [q|]; [by exists q|done]|].
  do 3 (split; [done|]). do 2 (split; [lia|]). split; [|done].
  intros i Hi. destruct (Hall i Hi) as (q & Hq & Hqv). pose proof (all_tables_at _ _ _ _ _ Hck Hn Hi Hq).
  destruct d as [|d']; [done|]. by exists d', q.
Qed.
Lemma decode_field_wp d : ∀ fuel t a,
  (d < fuel)%nat → Field_valid buf d t → Field_complete buf d (Some t) = true →
  wp (ArrowIpcDecoderSetField buf fuel (Some t)) (a, ArrowSchemaInit)
    (λ _ p, schema_of_field buf d (Some t) = Some p.2) decode_error.
Proof.
  induction d as [d IH] using lt_wf_ind. intros [|fuel] t a Hfuel Hval Hcomp; [lia|].
  destruct (field_parts d t Hval Hcomp) as (z & nullable & type & table & dict & v & n & mv & Hz & Hzs &
    Hnull & Htt & Ht & Htv & Htn & Hdict & Hv & Hn & Hn0 & Hn4 & Hkids & Hmv & Hmeta & Hcm).
  clear Hval Hcomp. cbn [ArrowIpcDecoderSetField].
  unfold Field_dictionary_is_present, Field_name_is_present. rewrite (read_present buf _ _ _ _ Hdict).
  apply wp_bind, wp_ret, wp_bind, wp_check; [intros _|intros _; unfold decode_error; auto].
  rewrite (read_present buf _ _ _ _ Hz). apply wp_bind, wp_ret, wp_bind.
  eapply wp_mono; [by apply decode_name_wp| |done]. intros [] [a1 s1] (nm & Hnm & Hs1). cbn [snd] in Hs1.
  subst s1. rewrite Hv. apply wp_bind, wp_ret. rewrite Hn. apply wp_bind, wp_ret, wp_bind.
  eapply wp_mono; [by apply decode_type_wp| |done]. intros [] [a2 s2] (f & fl & Hf & Hfl & Hs2).
  cbn [snd] in Hs2. subst s2. rewrite Hnull. apply wp_bind, wp_ret, wp_bind, modify_wp.
  set (fl' := fl + if nullable =? 0 then 0 else ARROW_FLAG_NULLABLE).
  set (s3 := set_flags _ _). assert (s3 = MkMembers (Some f) (Some nm) None fl' 0 None None) as ->.
  { subst s3 fl'. unfold set_flags. cbn -[Z.lor Z.land Z.lnot ARROW_FLAG_NULLABLE].
    destruct (type_flags_cases _ _ _ Hfl) as [-> | ->]; destruct (nullable =? 0); done. }
  apply wp_assoc. rewrite Hmv. eapply wp_mono; [eapply (children_metadata_wp _
    (λ q, match d with O => None | S d' => schema_of_field buf d' q end)); try done| |done].
  - intros i Hi. destruct (Hkids i Hi) as (d' & q & -> & Hq & Hqv & Hqc). exists (Some q). split; [done|].
    intros a3. apply IH; [lia|lia|done|done].
  - intros [] p (kids & l & Hk & Hl & Hp). assert (schema_of_field buf d (Some t) = Some (MkMembers (Some f)
      (Some nm) (metadata_of l) fl' n (children_of kids) None)) as ->; [|by rewrite Hp].
    destruct d; cbn [schema_of_field]; rewrite Hz; cbn [mbind option_bind]; rewrite Hnm, Hv;
      cbn [mbind option_bind]; rewrite Hn, Htt, Ht; cbn [mbind option_bind]; rewrite Hf, Hfl, Hnull, Hmv;
      cbn [mbind option_bind] in *; rewrite Hk; cbn [mbind option_bind]; by rewrite Hl.
Qed.

(** *** Schemas *)
Lemma decode_schema_wp t a out :
  Schema_valid buf 100 t → Schema_complete buf 100 (Some t) = true →
  wp (decode_schema buf (Some t)) (a, out)
    (λ _ p, ∃ m, schema_of_message buf 100 (Some t) = Some m ∧ p.2 = SchemaLive m)
    (λ e p, decode_error e p ∧ p.2 = out).
Proof.
  intros (_ & Hfields & Hmeta & _) Hc. pose proof Hfields as (v & n & Hv & Hn & Hn0 & Hall).
  pose proof Hmeta as (mv & mn & Hmv & _). destruct (tables_count buf _ _ _ _ _ Hfields Hv Hn) as [_ Hn4].
  unfold Schema_complete, Schema_fields, Schema_custom_metadata in Hc. rewrite Hv, Hmv in Hc.
  apply andb_true_iff in Hc as [Hcf Hcm].
  assert (wp (let* fields := deref (Schema_fields buf (Some t)) in
         let* n_fields := deref (Schema_vec_len buf fields) in
         ArrowSchemaSetTypeStruct n_fields ;;;
         ArrowIpcDecoderSetChildren buf fields ;;;
         let* kv_vec := deref (Schema_custom_metadata buf (Some t)) in
         ArrowIpcDecoderSetMetadata buf kv_vec) (a, ArrowSchemaInit)
    (λ _ p, schema_of_message buf 100 (Some t) = Some p.2) decode_error) as Hrun.
  { unfold Schema_fields, Schema_custom_metadata. rewrite Hv. apply wp_bind, wp_ret.
    unfold Schema_vec_len. rewrite Hn, Hmv. apply wp_bind, wp_ret.
    unfold ArrowSchemaSetTypeStruct. apply wp_bind, wp_bind.
    eapply wp_mono; [apply oom_decode_error, set_type_wp; by eexists| |done]. intros [] [a1 s1] Hs1.
    cbn [snd] in Hs1. subst s1. apply wp_bind_inv. eapply wp_mono;
      [eapply (children_metadata_wp _ (schema_of_field buf 100)); try done; [lia|] | |done].
    - intros i Hi. destruct (Hall i Hi) as (q & Hq & Hqv). exists (Some q). split; [done|].
      intros a2. apply decode_field_wp; [unfold decode_fuel, zlen in *; lia|done|by eapply all_tables_at].
    - intros [] p (kids & l & Hk & Hl & Hp). unfold schema_of_message, Schema_fields, Schema_custom_metadata.
      rewrite Hv, Hmv. cbn [mbind option_bind]. unfold Schema_vec_len. rewrite Hn.
      cbn [mbind option_bind] in *. rewrite Hk. cbn [mbind option_bind]. rewrite Hl. by rewrite Hp. }
  unfold wp, decode_schema. unfold wp in Hrun.
  match type of Hrun with match ?m with _ => _ end => destruct m as [? [a' s']|e [a' s']|] end.
  - by exists s'.
  - done.
  - done.
Qed.
End refinement.

(** ** Verified messages *)

(** C25.  A message that the verifier accepts, whose header is a Schema and in
    which no part the decoder needs is absent, decodes to exactly the schema it
    describes: names, formats, flags, children and metadata of the struct and of
    every field below it, to any depth.  Otherwise the decoder returns an error
    code and leaves the output as it was; it never reaches undefined
    behaviour, whatever the allocator does. *)
Theorem decode_schema_refines (libc : Libc) (malloc : Malloc) (buf : list Z) (addr bufsiz msg t : Z)
    (a : mstate) (out : ArrowSchema)
    (Hbuf : bytes_ok buf) (Hsize : 0 <= bufsiz <= zlen buf) (Hsmall : zlen buf <= 2 ^ 30)
    (Hverified : Message_verify_as_root buf addr bufsiz = Some (inr tt))
    (Hroot : Message_as_root buf = Some (Some msg))
    (Htype : Message_header_type buf (Some msg) = Some 1)
    (Hheader : Message_header buf (Some msg) = Some (Some t))
    (Hcomplete : Schema_complete buf 100 (Some t) = true) :
  wp (decode_schema buf (Some t)) (a, out)
    (λ _ p, ∃ m, schema_of_message buf 100 (Some t) = Some m ∧ p.2 = SchemaLive m)
    (λ e p, decode_error e p ∧ p.2 = out).
Proof.
  destruct (verified_message buf addr bufsiz) as (msg' & Hroot' & _ & Hunion & _); [done..|unfold INT32_MAX; lia|done|].
  assert (msg' = msg) as -> by congruence. destruct Hunion as (type & p & Hty & Hp & _ & Hval).
  assert (type = 1) as -> by (unfold Message_header_type in Htype; cbn in Htype, Hty; congruence).
  apply decode_schema_wp; [done..| |done]. apply (Hval t).
  unfold Message_header in Hheader. congruence.
Qed.
Definition refines_libc : Libc := libc_limited 4096.
Lemma decode_schema_refines_witness :
  wp (@decode_schema refines_libc malloc_budget schema_message (Some 48)) (20%nat, SchemaReleased)
    (λ _ p, ∃ m, schema_of_message schema_message 100 (Some 48) = Some m ∧ p.2 = SchemaLive m)
    (λ e p, decode_error e p ∧ p.2 = SchemaReleased).
Proof.
  apply (decode_schema_refines refines_libc malloc_budget schema_message 8 248 16 48).
  - exact schema_message_ok.
  - split; [done|]. apply Z.leb_le. vm_compute. reflexivity.
  - apply Z.leb_le. vm_compute. reflexivity.
  - exact schema_message_verifies.
  - vm_compute. reflexivity.
  - vm_compute. reflexivity.
  - vm_compute. reflexivity.
  - vm_compute. reflexivity.
Defined.

(** A Schema message with a field of type Int without the table of its width. *)
Definition message_without_type : list Z :=
  [16; 0; 0; 0; 12; 0; 23; 0; 20; 0; 22; 0; 16; 0; 8; 0; 12; 0; 0; 0; 0; 0; 0; 0; 0; 0; 0; 0; 0;
   0; 0; 0; 16; 0; 0; 0; 4; 0; 1; 0; 8; 0; 8; 0; 0; 0; 4; 0; 8; 0; 0; 0; 4; 0; 0; 0; 1; 0; 0; 0;
   20; 0; 0; 0; 10; 0; 10; 0; 4; 0; 8; 0; 9; 0; 0; 0; 0; 0; 0; 0; 16; 0; 0; 0; 8; 0; 0; 0; 1; 2;
   0; 0; 1; 0; 0; 0; 97; 0; 0; 0; 0; 0; 0; 0].
(** A Schema message with a pair of metadata without a key. *)
Definition message_without_key : list Z :=
  [16; 0; 0; 0; 12; 0; 23; 0; 20; 0; 22; 0; 16; 0; 8; 0; 12; 0; 0; 0; 0; 0; 0; 0; 0; 0; 0; 0; 0;
   0; 0; 0; 24; 0; 0; 0; 4; 0; 1; 0; 10; 0; 12; 0; 0; 0; 4; 0; 8; 0; 0; 0; 0; 0; 0; 0; 16; 0; 0;
   0; 8; 0; 0; 0; 8; 0; 0; 0; 0; 0; 0; 0; 1; 0; 0; 0; 12; 0; 0; 0; 8; 0; 8; 0; 0; 0; 4; 0; 8; 0;
   0; 0; 4; 0; 0; 0; 1; 0; 0; 0; 118; 0; 0; 0].

(** What the verifier accepts is not enough for the decoder: a message in
    which the table of a field's type is absent, and one in which the key of a
    pair of metadata is absent, are both accepted, and decoding either
    dereferences a NULL pointer. *)
Theorem decode_verified_absent :
  (Message_verify_as_root message_without_type 8 (zlen message_without_type) = Some (inr tt) ∧
   Message_header message_without_type (Some 16) = Some (Some 48) ∧
   @decode_schema refines_libc malloc_budget message_without_type (Some 48) (20%nat, SchemaReleased) = UB) ∧
  (Message_verify_as_root message_without_key 8 (zlen message_without_key) = Some (inr tt) ∧
   Message_header message_without_key (Some 16) = Some (Some 56) ∧
   @decode_schema refines_libc malloc_budget message_without_key (Some 56) (20%nat, SchemaReleased) = UB).
Proof. vm_compute. repeat split. Qed.
