(* ===== verification/IpcShared.v ===== *)
(** * Shared buffers (nanoarrow_ipc.c)

    A message body that several arrays point into: [ArrowIpcSharedBufferInit]
    moves a buffer into a block with a reference count,
    [ArrowIpcSharedBufferClone] makes another [ArrowBuffer] that refers to the
    block, and the deallocator of these buffers, [ArrowIpcSharedBufferFree],
    resets the source and frees the block when the last of them is reset.

    The blocks are a finite map; using a block that is not there is undefined
    behaviour.  The count is an [atomic_long], so that threads may release their
    buffers at the same time: the step relation interleaves the atomic update
    of the count with the release of the block that may follow it. *)

From stdpp Require Import base numbers list option gmap relations.
From S2P Require Import Prelude CInt Buffer Schema.
#[local] Open Scope Z_scope.
#[local] Open Scope c_scope.

(** ** Blocks and operations *)
Record ArrowIpcSharedBufferPrivate : Set := MkShared {
  shared_src : ArrowBuffer;
  reference_count : Z;
}.
(** The blocks that are allocated, and the calls of the [free] of a source. *)
Record shared_heap : Set := MkHeap {
  blocks : gmap positive ArrowIpcSharedBufferPrivate;
  free_calls : list (free_fn * Z);
}.
(** [&ArrowIpcSharedBufferFree] among the deallocators. *)
Definition shared_free : positive := 1.

(** [atomic_fetch_add]: the new count. *)
Definition ArrowIpcSharedBufferUpdate (p : positive) (delta : Z) : M shared_heap Z := λ h,
  match blocks h !! p with
  | None => UB
  | Some x =>
      let count := i64 (reference_count x + delta) in
      Ok count (MkHeap (<[p := MkShared (shared_src x) count]> (blocks h)) (free_calls h))
  end.
Definition ArrowIpcSharedBufferSet (p : positive) (count : Z) : M shared_heap unit := λ h,
  match blocks h !! p with
  | None => UB
  | Some x => Ok tt (MkHeap (<[p := MkShared (shared_src x) count]> (blocks h)) (free_calls h))
  end.
(** [ArrowBufferReset(&private_data->src); ArrowFree(private_data)] *)
Definition destroy (p : positive) : M shared_heap unit := λ h,
  match blocks h !! p with
  | None => UB
  | Some x => Ok tt (MkHeap (delete p (blocks h))
                       (free_calls h ++ option_list (ArrowBufferReset_frees (shared_src x))))
  end.
Definition ArrowIpcSharedBufferFree (a : ArrowBufferAllocator) : M shared_heap unit :=
  let* p := deref (private_data a) in
  let* count := ArrowIpcSharedBufferUpdate p (-1) in
  if count =? 0 then destroy p else mret_ tt.

(** [ArrowBufferReset] with the callback it runs. *)
Definition reset_buffer (b : ArrowBuffer) : M shared_heap ArrowBuffer :=
  match ArrowBufferReset_frees b with
  | None => mret_ tt
  | Some (CustomFree f, n) =>
      if decide (f = shared_free) then ArrowIpcSharedBufferFree (allocator b)
      else mmod (λ h, MkHeap (blocks h) (free_calls h ++ [(CustomFree f, n)]))
  | Some call => mmod (λ h, MkHeap (blocks h) (free_calls h ++ [call]))
  end ;;;
  mret_ (ArrowBufferReset b).
Definition ArrowIpcSharedBufferReset : ArrowBuffer → M shared_heap ArrowBuffer := reset_buffer.

(** A buffer that refers to block [p]. *)
Definition shared_buffer (p : positive) (src : ArrowBuffer) : ArrowBuffer :=
  MkBuffer (data src) (size_bytes src) (size_bytes src) (ArrowBufferDeallocator shared_free (Some p)).
(** The part of [ArrowIpcSharedBufferInit] after the allocation of the block. *)
Definition init_block (src : ArrowBuffer) : M shared_heap ArrowBuffer := λ h,
  let p := fresh (dom (blocks h)) in
  (mmod (λ h, MkHeap (<[p := MkShared (ArrowBufferMove src).1 0]> (blocks h)) (free_calls h)) ;;;
   ArrowIpcSharedBufferSet p 1 ;;;
   mret_ (shared_buffer p src)) h.
Definition sizeof_ArrowIpcSharedBufferPrivate : Z := 56.
Section init.
Context `{!Malloc}.
(** The state is the heap and the source; the result is [shared->private_src]. *)
Definition ArrowIpcSharedBufferInit : M (mstate * (shared_heap * ArrowBuffer)) ArrowBuffer := λ '(a, (h, src)),
  match data src with
  | None => Ok (ArrowBufferMove src).1 (a, (h, (ArrowBufferMove src).2))
  | Some _ =>
      let '(ok, a') := malloc_step sizeof_ArrowIpcSharedBufferPrivate a in
      if ok : bool then
        match init_block src h with
        | Ok b h' => Ok b (a', (h', (ArrowBufferMove src).2))
        | Err e h' => Err e (a', (h', src))
        | UB => UB
        end
      else Err ENOMEM (a', (h, src))
  end.
End init.
Definition ArrowIpcSharedBufferClone (shared : ArrowBuffer) : M shared_heap ArrowBuffer :=
  match data shared with
  | None => mret_ ArrowBufferInit
  | Some _ =>
      let* p := deref (private_data (allocator shared)) in
      ArrowIpcSharedBufferUpdate p 1 ;;; mret_ shared
  end.

(** ** Threads *)

(** The block a buffer refers to. *)
Definition refers (b : ArrowBuffer) : option positive :=
  match data b, free (allocator b) with
  | Some _, CustomFree f => if decide (f = shared_free) then private_data (allocator b) else None
  | _, _ => None
  end.
Definition references (p : positive) (l : list ArrowBuffer) : Z :=
  zlen (filter (λ b, refers b = Some p) l).

(** The heap, the buffers of all threads, and the blocks whose count a thread has
    just seen drop to zero; [created] counts the blocks made so far. *)
Record threads : Set := MkThreads {
  heap : shared_heap;
  handles : list ArrowBuffer;
  dying : list positive;
  created : Z;
}.
Definition threads_init : threads := MkThreads (MkHeap ∅ []) [] [] 0.

(** One atomic action of one thread.  The number of buffers is bounded by the
    memory they are in. *)
Inductive step : threads → threads → Prop :=
  | step_share h h' l d n src b :
      is_Some (data src) → refers src = None → zlen l < INT64_MAX →
      init_block src h = Ok b h' →
      step (MkThreads h l d n) (MkThreads h' (b :: l) d (n + 1))
  | step_clone h h' l d n b b' :
      b ∈ l → zlen l < INT64_MAX → ArrowIpcSharedBufferClone b h = Ok b' h' →
      step (MkThreads h l d n) (MkThreads h' (b' :: l) d n)
  | step_slice h l1 l2 d n b m size :
      (* dst->data += offset; dst->size_bytes = length *)
      step (MkThreads h (l1 ++ b :: l2) d n)
        (MkThreads h (l1 ++ MkBuffer (data b ≫= λ _, Some m) size (capacity_bytes b) (allocator b) :: l2) d n)
  | step_release t t' : release_step t t' → step t t'
with release_step : threads → threads → Prop :=
  | step_drop h h' l1 l2 d n b p count :
      refers b = Some p → ArrowIpcSharedBufferUpdate p (-1) h = Ok count h' →
      release_step (MkThreads h (l1 ++ b :: l2) d n)
        (MkThreads h' (l1 ++ l2) (if count =? 0 then p :: d else d) n)
  | step_destroy h h' l d1 d2 n p :
      destroy p h = Ok tt h' →
      release_step (MkThreads h l (d1 ++ p :: d2) n) (MkThreads h' l (d1 ++ d2) n).
Definition reachable : threads → Prop := rtc step threads_init.

(** ** The invariant *)
Record heap_ok (t : threads) : Prop := {
  ok_handle b : b ∈ handles t → data b = None ∨ ∃ p, refers b = Some p ∧ is_Some (blocks (heap t) !! p);
  ok_count p x : blocks (heap t) !! p = Some x → reference_count x = references p (handles t);
  ok_source p x : blocks (heap t) !! p = Some x → is_Some (data (shared_src x));
  ok_dying p : p ∈ dying t ↔ is_Some (blocks (heap t) !! p) ∧ references p (handles t) = 0;
  ok_nodup : NoDup (dying t);
  ok_bound : zlen (handles t) <= INT64_MAX;
  ok_created : created t = Z.of_nat (size (blocks (heap t))) + zlen (free_calls (heap t));
}.

Lemma references_nonneg p l : 0 <= references p l.
Proof. apply zlen_nonneg. Qed.
Lemma references_cons p b l :
  references p (b :: l) = (if decide (refers b = Some p) then 1 else 0) + references p l.
Proof. unfold references. rewrite filter_cons. case_decide; [by rewrite zlen_cons|done]. Qed.
Lemma references_app p l1 l2 : references p (l1 ++ l2) = references p l1 + references p l2.
Proof. unfold references. by rewrite list.filter_app, zlen_app. Qed.
Lemma references_bound p l : references p l <= zlen l.
Proof.
  induction l as [|b l IH]; [done|]. rewrite references_cons, zlen_cons. case_decide; lia.
Qed.
Lemma references_in p b l : b ∈ l → refers b = Some p → 0 < references p l.
Proof.
  intros (l1 & l2 & ->)%list_elem_of_split Hb. rewrite references_app, references_cons, decide_True by done.
  pose proof (references_nonneg p l1). pose proof (references_nonneg p l2). lia.
Qed.
(** A block nothing refers to: no buffer in the list has it. *)
Lemma references_fresh p l (m : gmap positive ArrowIpcSharedBufferPrivate) :
  (∀ b, b ∈ l → data b = None ∨ ∃ q, refers b = Some q ∧ is_Some (m !! q)) → m !! p = None →
  references p l = 0.
Proof.
  intros Hl Hp. induction l as [|b l IH]; [done|]. rewrite references_cons, IH by (intros; apply Hl; by right).
  case_decide as Hb; [|done]. destruct (Hl b) as [Hd|(q & Hq & Hs)]; [by left| |].
  - unfold refers in Hb. by rewrite Hd in Hb.
  - rewrite Hb in Hq. injection Hq as ->. rewrite Hp in Hs. by destruct Hs.
Qed.

Lemma update_spec p delta h x :
  blocks h !! p = Some x →
  ArrowIpcSharedBufferUpdate p delta h =
    Ok (i64 (reference_count x + delta))
      (MkHeap (<[p := MkShared (shared_src x) (i64 (reference_count x + delta))]> (blocks h)) (free_calls h)).
Proof. intros Hx. unfold ArrowIpcSharedBufferUpdate. by rewrite Hx. Qed.
Lemma init_block_spec src h :
  ∃ p, blocks h !! p = None ∧
    init_block src h = Ok (shared_buffer p src) (MkHeap (<[p := MkShared src 1]> (blocks h)) (free_calls h)).
Proof.
  exists (fresh (dom (blocks h))). split; [apply not_elem_of_dom, is_fresh|].
  unfold init_block, mbind_, mmod, ArrowIpcSharedBufferSet. cbn [blocks free_calls]. rewrite lookup_insert_eq.
  cbn. by rewrite insert_insert_eq.
Qed.
Lemma refers_shared p src : is_Some (data src) → refers (shared_buffer p src) = Some p.
Proof. intros [d Hd]. unfold refers. cbn. by rewrite Hd. Qed.
Lemma clone_spec b h b' h' :
  ArrowIpcSharedBufferClone b h = Ok b' h' →
  (data b = None → b' = ArrowBufferInit ∧ h' = h) ∧
  (∀ p x, refers b = Some p → blocks h !! p = Some x →
    b' = b ∧ h' = MkHeap (<[p := MkShared (shared_src x) (i64 (reference_count x + 1))]> (blocks h)) (free_calls h)).
Proof.
  unfold ArrowIpcSharedBufferClone, refers. destruct (data b) as [d|].
  - intros Hc. split; [done|]. intros p x Hp Hx. destruct (free (allocator b)) as [|f]; [done|].
    case_decide; [|done]. rewrite Hp in Hc. unfold mbind_ in Hc. cbn in Hc. rewrite (update_spec _ _ _ _ Hx) in Hc.
    by injection Hc as <- <-.
  - intros [= <- <-]. done.
Qed.

(** *** It is kept *)
Lemma heap_ok_init : heap_ok threads_init.
Proof.
  split; cbn; try done; try (intros ? Hin; by apply not_elem_of_nil in Hin).
  - intros p. rewrite lookup_empty. split; [intros Hin; by apply not_elem_of_nil in Hin|by intros [[] _]].
  - constructor.
Qed.
Lemma refers_data b p : refers b = Some p → data b ≠ None.
Proof. unfold refers. by destruct (data b). Qed.

Lemma heap_ok_share h l d n src p :
  heap_ok (MkThreads h l d n) → is_Some (data src) → zlen l < INT64_MAX → blocks h !! p = None →
  heap_ok (MkThreads (MkHeap (<[p := MkShared src 1]> (blocks h)) (free_calls h))
    (shared_buffer p src :: l) d (n + 1)).
Proof.
  intros [Hh Hc Hs Hd Hnd Hb Hcr] Hsrc Hmax Hp. cbn in *.
  pose proof (references_fresh p l _ Hh Hp) as Hfresh. split; cbn.
  - intros b [->|Hb']%elem_of_cons.
    + right. exists p. rewrite lookup_insert_eq. split; [by apply refers_shared|done].
    + destruct (Hh b Hb') as [?|(q & Hq & Hx)]; [by left|]. right. exists q. split; [done|].
      destruct (decide (p = q)) as [->|Hne]; [by rewrite Hp in Hx; destruct Hx|by rewrite lookup_insert_ne].
  - intros q x. rewrite references_cons, refers_shared by done. destruct (decide (p = q)) as [->|Hne].
    + rewrite lookup_insert_eq. intros [= <-]. rewrite decide_True by done. cbn. lia.
    + rewrite lookup_insert_ne by done. intros Hx. rewrite decide_False by congruence. by apply Hc.
  - intros q x. destruct (decide (p = q)) as [->|Hne]; [rewrite lookup_insert_eq; by intros [= <-]|].
    rewrite lookup_insert_ne by done. apply Hs.
  - intros q. rewrite references_cons, refers_shared by done. destruct (decide (p = q)) as [->|Hne].
    + rewrite Hd, Hp, decide_True by done. split; [by intros [[] _]|intros [_ ?]; lia].
    + by rewrite lookup_insert_ne, decide_False, Z.add_0_l by congruence.
  - done.
  - rewrite zlen_cons. lia.
  - rewrite map_size_insert_None by done. lia.
Qed.
(** A change of the list of buffers and of the count of one block by the same
    amount. *)
Lemma heap_ok_update h l l' d d' n p x :
  heap_ok (MkThreads h l d n) → blocks h !! p = Some x → zlen l' <= INT64_MAX →
  (∀ b, b ∈ l' → data b = None ∨ ∃ q, refers b = Some q ∧ is_Some (blocks h !! q)) →
  (∀ q, q ≠ p → references q l' = references q l) →
  NoDup d' → (∀ q, q ∈ d' ↔ is_Some (blocks h !! q) ∧ references q l' = 0) →
  heap_ok (MkThreads (MkHeap (<[p := MkShared (shared_src x) (references p l')]> (blocks h)) (free_calls h)) l' d' n).
Proof.
  intros [Hh Hc Hs Hd Hnd Hb Hcr] Hx Hmax Hl' Href Hnd' Hd'. cbn in *. split; cbn; try done.
  - intros b Hin. destruct (Hl' b Hin) as [?|(q & Hq & Hy)]; [by left|]. right. exists q. split; [done|].
    destruct (decide (p = q)) as [->|Hne]; [by rewrite lookup_insert_eq|by rewrite lookup_insert_ne].
  - intros q y. destruct (decide (p = q)) as [->|Hne]; [rewrite lookup_insert_eq; by intros [= <-]|].
    rewrite lookup_insert_ne, Href by done. apply Hc.
  - intros q y. destruct (decide (p = q)) as [->|Hne]; [rewrite lookup_insert_eq; intros [= <-]; exact (Hs _ _ Hx)|].
    rewrite lookup_insert_ne by done. apply Hs.
  - intros q. rewrite Hd'. destruct (decide (p = q)) as [->|Hne]; [rewrite lookup_insert_eq, Hx|by rewrite lookup_insert_ne].
    split; intros [_ ?]; by split.
  - rewrite map_size_insert_Some; [done|by eexists].
Qed.
Lemma heap_ok_clone h l d n b b' h' :
  heap_ok (MkThreads h l d n) → b ∈ l → zlen l < INT64_MAX → ArrowIpcSharedBufferClone b h = Ok b' h' →
  heap_ok (MkThreads h' (b' :: l) d n).
Proof.
  intros Hok Hin Hmax Hrun. pose proof Hok as [Hh Hc Hs Hd Hnd Hb Hcr]. cbn in *.
  apply clone_spec in Hrun as [Hnone Hsome]. destruct (Hh b Hin) as [Hdata|(p & Hp & x & Hx)].
  - destruct (Hnone Hdata) as [-> ->]. split; cbn; try done.
    + intros c [->|?]%elem_of_cons; [by left|by apply Hh].
    + rewrite zlen_cons. lia.
  - destruct (Hsome p x Hp Hx) as [-> ->]. pose proof (references_in p b l Hin Hp).
    pose proof (references_bound p l).
    rewrite (Hc p x Hx). rewrite i64_small by (unfold INT64_MIN, INT64_MAX in *; lia).
    assert (references p l + 1 = references p (b :: l)) as ->
      by (rewrite references_cons, decide_True by done; lia).
    apply heap_ok_update with l d; try done.
    + rewrite zlen_cons. lia.
    + intros c [->|?]%elem_of_cons; [right; exists p; split; [done|by eexists]|by apply Hh].
    + intros q Hne. rewrite references_cons, decide_False by congruence. lia.
    + intros q. rewrite Hd, references_cons. case_decide as Hq; [|by rewrite Z.add_0_l].
      assert (q = p) as -> by congruence. split; intros [_ ?]; lia.
Qed.
Lemma elem_of_middle {A} (x : A) l1 l2 : x ∈ l1 ++ x :: l2.
Proof. apply elem_of_app. right. by left. Qed.
Lemma elem_of_skip {A} (x y : A) l1 l2 : x ∈ l1 ++ l2 → x ∈ l1 ++ y :: l2.
Proof. rewrite !elem_of_app. intros [?|?]; [by left|right; by right]. Qed.
Lemma heap_ok_slice h l1 l2 d n b m size :
  heap_ok (MkThreads h (l1 ++ b :: l2) d n) →
  heap_ok (MkThreads h
    (l1 ++ MkBuffer (data b ≫= λ _, Some m) size (capacity_bytes b) (allocator b) :: l2) d n).
Proof.
  set (b' := MkBuffer _ _ _ _). intros [Hh Hc Hs Hd Hnd Hb Hcr]. cbn in *.
  assert (refers b' = refers b) as Hr by (unfold refers, b'; cbn; by destruct (data b)).
  assert (∀ q, references q (l1 ++ b' :: l2) = references q (l1 ++ b :: l2)) as Href
    by (intros q; by rewrite !references_app, !references_cons, Hr).
  split; cbn; try done.
  - intros c Hc'. apply elem_of_app in Hc' as [Hin|[->|Hin]%elem_of_cons].
    + apply Hh, elem_of_app. by left.
    + rewrite Hr. destruct (Hh b) as [Hn|?]; [apply elem_of_middle|left; unfold b'; cbn; by rewrite Hn|by right].
    + apply Hh, elem_of_app. right. by right.
  - intros q x. rewrite Href. apply Hc.
  - intros q. by rewrite Href.
  - rewrite zlen_app, zlen_cons in *. done.
Qed.
Lemma heap_ok_drop h l1 l2 d n b p count h' :
  heap_ok (MkThreads h (l1 ++ b :: l2) d n) → refers b = Some p →
  ArrowIpcSharedBufferUpdate p (-1) h = Ok count h' →
  heap_ok (MkThreads h' (l1 ++ l2) (if count =? 0 then p :: d else d) n).
Proof.
  intros Hok Hp Hrun. pose proof Hok as [Hh Hc Hs Hd Hnd Hb Hcr]. cbn in *.
  destruct (Hh b) as [Hn|(q & Hq & x & Hx)]; [apply elem_of_middle|by apply refers_data in Hp|].
  assert (q = p) as -> by congruence. rewrite (update_spec _ _ _ _ Hx) in Hrun. rewrite (Hc p x Hx) in Hrun.
  assert (references p (l1 ++ b :: l2) = references p (l1 ++ l2) + 1) as Href
    by (rewrite !references_app, references_cons, decide_True by done; lia).
  pose proof (references_nonneg p (l1 ++ l2)). pose proof (references_bound p (l1 ++ b :: l2)).
  rewrite Href in Hrun. rewrite i64_small in Hrun by (unfold INT64_MIN, INT64_MAX in *; lia).
  replace (references p (l1 ++ l2) + 1 + -1) with (references p (l1 ++ l2)) in Hrun by lia.
  injection Hrun as <- <-.
  assert (∀ q, q ≠ p → references q (l1 ++ l2) = references q (l1 ++ b :: l2)) as Hother
    by (intros q Hne; rewrite !references_app, references_cons, decide_False by congruence; lia).
  assert (p ∉ d) as Hpd by (rewrite Hd; intros [_ ?]; lia).
  apply heap_ok_update with (l1 ++ b :: l2) d; try done.
  - rewrite zlen_app, zlen_cons in *. lia.
  - intros c Hin. by apply Hh, elem_of_skip.
  - destruct (Z.eqb_spec (references p (l1 ++ l2)) 0); [by constructor|done].
  - intros q. destruct (decide (q = p)) as [->|Hne].
    + destruct (Z.eqb_spec (references p (l1 ++ l2)) 0) as [Hz|Hz].
      * split; [intros _; split; [by eexists|done]|intros _; by left].
      * split; [intros Hin; by destruct (Hpd Hin)|by intros [_ ?]].
    + rewrite (Hother q Hne), <-Hd. destruct (_ =? 0); [|done]. rewrite elem_of_cons. split; [by intros [?|?]|by right].
Qed.
Lemma heap_ok_destroy h l d1 d2 n p h' :
  heap_ok (MkThreads h l (d1 ++ p :: d2) n) → destroy p h = Ok tt h' → heap_ok (MkThreads h' l (d1 ++ d2) n).
Proof.
  intros [Hh Hc Hs Hd Hnd Hb Hcr] Hrun. cbn in *. unfold destroy in Hrun.
  destruct (blocks h !! p) as [x|] eqn:Hx; [|done]. injection Hrun as <-.
  apply list.NoDup_app in Hnd as (Hnd1 & Hdis & [Hp2 Hnd2]%list.NoDup_cons).
  destruct (Hd p) as [[_ Hz] _]; [apply elem_of_middle|]. destruct (Hs p x Hx) as [m Hm]. split; cbn.
  - intros b Hin. destruct (Hh b Hin) as [?|(q & Hq & Hy)]; [by left|]. right. exists q. split; [done|].
    rewrite lookup_delete_ne; [done|]. intros <-. pose proof (references_in p b l Hin Hq). lia.
  - intros q y [Hne Hy]%lookup_delete_Some. by apply Hc.
  - intros q y [Hne Hy]%lookup_delete_Some. by eapply Hs.
  - intros q. destruct (decide (p = q)) as [->|Hne].
    + rewrite lookup_delete_eq. split; [|by intros [[] _]]. intros [Hin|Hin]%elem_of_app; [|done].
      exfalso. apply (Hdis q Hin). by left.
    + rewrite lookup_delete_ne, <-Hd by done. rewrite !elem_of_app, elem_of_cons. split; [intros [?|?]; auto|intros [?|[?|?]]; auto; congruence].
  - apply list.NoDup_app. split; [done|]. split; [|done]. intros q Hq1 Hq2. apply (Hdis q Hq1). by right.
  - done.
  - rewrite map_size_delete_Some by (by eexists). unfold ArrowBufferReset_frees. rewrite Hm. cbn.
    rewrite zlen_app. change (zlen [_]) with 1. assert (size (blocks h) ≠ 0%nat) as Hne.
    { intros He%map_size_empty_inv. by rewrite He in Hx. }
    lia.
Qed.

Lemma release_step_ok t t' : heap_ok t → release_step t t' → heap_ok t'.
Proof. intros Hok Hstep. destruct Hstep; [by eapply heap_ok_drop|by eapply heap_ok_destroy]. Qed.
Lemma shared_step_ok t t' : heap_ok t → step t t' → heap_ok t'.
Proof.
  intros Hok Hstep. destruct Hstep; [|by eapply heap_ok_clone|by apply heap_ok_slice|by eapply release_step_ok].
  destruct (init_block_spec src h) as (p & Hp & Hrun). rewrite Hrun in *. simplify_eq.
  by apply heap_ok_share.
Qed.
Lemma reachable_ok t : reachable t → heap_ok t.
Proof.
  intros Hr. unfold reachable in Hr. remember threads_init as t0 eqn:H0. assert (heap_ok t0) as Hok
    by (subst; apply heap_ok_init). clear H0. induction Hr; eauto using shared_step_ok.
Qed.

(** ** What the count guarantees *)
Lemma drop_enabled h l1 l2 d n b p :
  heap_ok (MkThreads h (l1 ++ b :: l2) d n) → refers b = Some p →
  ∃ count h', ArrowIpcSharedBufferUpdate p (-1) h = Ok count h'.
Proof.
  intros Hok Hp. destruct (ok_handle _ Hok b) as [Hn|(q & Hq & x & Hx)]; [apply elem_of_middle| |].
  - by apply refers_data in Hp.
  - assert (q = p) as -> by congruence. by rewrite (update_spec _ _ _ _ Hx); eauto.
Qed.
Lemma destroy_enabled h l d1 d2 n p :
  heap_ok (MkThreads h l (d1 ++ p :: d2) n) → ∃ h', destroy p h = Ok tt h'.
Proof.
  intros Hok. destruct (ok_dying _ Hok p) as [[[x Hx] _] _]; [apply elem_of_middle|]. cbn in Hx.
  unfold destroy. rewrite Hx. eauto.
Qed.
Lemma reset_buffer_steps h l1 l2 d n b :
  heap_ok (MkThreads h (l1 ++ b :: l2) d n) → is_Some (refers b) →
  wp (reset_buffer b) h (λ b' h', refers b' = None ∧
    rtc release_step (MkThreads h (l1 ++ b :: l2) d n) (MkThreads h' (l1 ++ l2) d n)) (λ _ _, False).
Proof.
  intros Hok [p Hp]. destruct (drop_enabled _ _ _ _ _ _ _ Hok Hp) as (count & h' & Hrun).
  assert (reset_buffer b = (ArrowIpcSharedBufferFree (allocator b) ;;; mret_ (ArrowBufferReset b)) ∧
    private_data (allocator b) = Some p) as [-> Hpd].
  { unfold reset_buffer, ArrowBufferReset_frees, refers in *. destruct (data b); [|done].
    destruct (free (allocator b)); [done|]. by case_decide. }
  pose proof (step_drop h h' l1 l2 d n b p count Hp Hrun) as Hdrop.
  apply wp_bind. unfold ArrowIpcSharedBufferFree. rewrite Hpd. apply wp_bind, wp_ret.
  unfold wp, mbind_. rewrite Hrun. destruct (count =? 0).
  - pose proof (release_step_ok _ _ Hok Hdrop) as Hok'.
    destruct (destroy_enabled _ _ [] d n p Hok') as [h2 Hh2]. rewrite Hh2. cbn. split; [done|].
    eapply rtc_l; [exact Hdrop|]. apply rtc_once. by apply (step_destroy h' h2 _ [] d n p).
  - cbn. split; [done|]. by apply rtc_once.
Qed.

(** C27.  However threads interleave sharing, cloning, slicing and releasing of
    buffers, the count of every block is the number of buffers that refer to it;
    no buffer refers to a block that was freed, cloning or resetting a buffer
    never touches freed memory, a block is freed only when nothing refers to it
    and by one thread only, and every source is freed exactly once: the blocks
    ever made are those still there and those whose source was freed. *)
Theorem shared_buffer_counts (t : threads) (Hr : reachable t) :
  (∀ p x, blocks (heap t) !! p = Some x → reference_count x = references p (handles t)) ∧
  (∀ b p, b ∈ handles t → refers b = Some p → is_Some (blocks (heap t) !! p)) ∧
  (∀ b, b ∈ handles t → ArrowIpcSharedBufferClone b (heap t) ≠ UB) ∧
  (∀ l1 b l2, handles t = l1 ++ b :: l2 → is_Some (refers b) →
    wp (ArrowIpcSharedBufferReset b) (heap t) (λ b' h', refers b' = None ∧
      rtc release_step t (MkThreads h' (l1 ++ l2) (dying t) (created t))) (λ _ _, False)) ∧
  NoDup (dying t) ∧
  (∀ p, p ∈ dying t → references p (handles t) = 0 ∧ destroy p (heap t) ≠ UB) ∧
  created t = Z.of_nat (size (blocks (heap t))) + zlen (free_calls (heap t)).
Proof.
  pose proof (reachable_ok t Hr) as Hok. destruct t as [h l d n]. pose proof Hok as [Hh Hc Hs Hd Hnd Hb Hcr].
  cbn [heap handles dying created] in *. split; [done|]. split.
  { intros b p Hin Hp. destruct (Hh b Hin) as [Hn|(q & Hq & Hx)]; [by apply refers_data in Hp|].
    by replace p with q by congruence. }
  split.
  { intros b Hin. destruct (Hh b Hin) as [Hn|(p & Hp & x & Hx)]; unfold ArrowIpcSharedBufferClone.
    - by rewrite Hn.
    - unfold refers in Hp. destruct (data b); [|done]. destruct (free (allocator b)); [done|].
      case_decide; [|done]. rewrite Hp. unfold mbind_. cbn. by rewrite (update_spec _ _ _ _ Hx). }
  split; [intros l1 b l2 -> ?; by apply reset_buffer_steps|]. split; [done|]. split; [|done].
  intros p Hp. split; [by apply Hd|]. apply list_elem_of_split in Hp as (d1 & d2 & ->).
  destruct (destroy_enabled _ _ _ _ _ _ Hok) as [h' ->]. done.
Qed.
(** A buffer of three bytes, shared and cloned once. *)
Definition example_source : ArrowBuffer := MkBuffer (Some [1; 2; 3; 0]) 3 4 ArrowBufferAllocatorDefault.
Definition example_threads : threads :=
  match init_block example_source (MkHeap ∅ []) with
  | Ok b h =>
      match ArrowIpcSharedBufferClone b h with
      | Ok b' h' => MkThreads h' [b'; b] [] 1
      | _ => threads_init
      end
  | _ => threads_init
  end.
Lemma example_reachable : reachable example_threads.
Proof.
  unfold example_threads. destruct (init_block_spec example_source (MkHeap ∅ [])) as (p & Hp & Hrun).
  rewrite Hrun. destruct (ArrowIpcSharedBufferClone _ _) as [b' h'| |] eqn:Hc; [|apply rtc_refl..].
  eapply rtc_l; [by eapply (step_share _ _ [] [] 0 example_source), Hrun|].
  apply rtc_once. eapply step_clone; [by left|done|exact Hc].
Qed.
Lemma shared_buffer_counts_witness :
  (∀ p x, blocks (heap example_threads) !! p = Some x →
     reference_count x = references p (handles example_threads)) ∧
  size (blocks (heap example_threads)) = 1%nat ∧ zlen (handles example_threads) = 2.
Proof.
  split; [exact (proj1 (shared_buffer_counts example_threads example_reachable))|].
  split; vm_compute; reflexivity.
Defined.

(** ** Releasing everything *)
Definition work (t : threads) : nat := 2 * length (handles t) + length (dying t).
Lemma release_work t t' : release_step t t' → (work t' < work t)%nat.
Proof.
  intros Hstep. destruct Hstep; unfold work; cbn [handles dying]; rewrite !length_app; cbn [length];
    [destruct (count =? 0); cbn [length]|]; lia.
Qed.
Lemma release_bound n t t' : nsteps release_step n t t' → (n + work t' <= work t)%nat.
Proof. induction 1 as [|n t1 t2 t3 Hstep _ IH]; [lia|]. apply release_work in Hstep. lia. Qed.
Lemma release_reachable t t' : reachable t → rtc release_step t t' → reachable t'.
Proof.
  intros Ht Hrun. unfold reachable in *. transitivity t; [exact Ht|]. clear Ht. induction Hrun; [apply rtc_refl|].
  eapply rtc_l; [by apply step_release|done].
Qed.
Lemma released_empty t :
  heap_ok t → nf release_step t → blocks (heap t) = ∅ ∧ zlen (free_calls (heap t)) = created t.
Proof.
  intros Hok Hnf. destruct t as [h l d n]. cbn [heap created].
  assert (d = []) as ->.
  { destruct d as [|p d]; [done|]. destruct (destroy_enabled h l [] d n p Hok) as [h' Hh'].
    destruct Hnf. eexists. by apply (step_destroy h h' l [] d n p). }
  assert (∀ b, b ∈ l → refers b = None) as Hl.
  { intros b (l1 & l2 & ->)%list_elem_of_split. destruct (refers b) as [p|] eqn:Hp; [|done].
    destruct (drop_enabled _ _ _ _ _ _ _ Hok Hp) as (count & h' & Hrun). destruct Hnf. eexists.
    by eapply step_drop. }
  assert (blocks h = ∅) as He.
  { apply map_empty. intros p. destruct (blocks h !! p) as [x|] eqn:Hx; [|done].
    destruct (ok_dying _ Hok p) as [_ Hin]. cbn in Hin. apply not_elem_of_nil in Hin; [done|].
    split; [by eexists|]. clear -Hl. induction l as [|b l IH]; [done|].
    rewrite references_cons, IH by (intros; apply Hl; by right). by rewrite (Hl b) by (by left). }
  split; [done|]. pose proof (ok_created _ Hok) as Hcr. cbn in Hcr. rewrite He, map_size_empty in Hcr. lia.
Qed.
Lemma release_step_or_nf t : heap_ok t → (∃ t', release_step t t') ∨ nf release_step t.
Proof.
  intros Hok. destruct t as [h l d n]. destruct d as [|p d].
  - destruct (decide (Exists (λ b, is_Some (refers b)) l)) as [He|Hn].
    + apply list.Exists_exists in He as (b & (l1 & l2 & ->)%list_elem_of_split & [p Hp]).
      destruct (drop_enabled _ _ _ _ _ _ _ Hok Hp) as (count & h' & Hrun). left. eexists.
      by eapply step_drop.
    + right. intros [t' Hstep]. inversion Hstep as [? ? l1 l2 ? ? b p ? Hp|? ? ? d1 d2 ? ? ? Heq]; subst.
      * apply Hn, list.Exists_exists. exists b. split; [apply elem_of_middle|by exists p].
      * by destruct d1.
  - destruct (destroy_enabled h l [] d n p Hok) as [h' Hh']. left. eexists. by apply (step_destroy h h' l [] d n p).
Qed.
Lemma release_ends t : heap_ok t → ∃ t', rtc release_step t t' ∧ nf release_step t'.
Proof.
  remember (work t) as k eqn:Hk. revert t Hk. induction k as [k IH] using lt_wf_ind. intros t -> Hok.
  destruct (release_step_or_nf t Hok) as [[t1 H1]|Hnf]; [|exists t; split; [apply rtc_refl|done]].
  destruct (IH (work t1) (release_work _ _ H1) t1 eq_refl (release_step_ok _ _ Hok H1)) as (t2 & H2 & Hnf).
  exists t2. split; [by eapply rtc_l|done].
Qed.

(** C28.  Releasing always comes to an end and leaves nothing behind: from any
    reachable state, the threads can make at most two releasing actions per
    buffer and one per block about to be freed, in whatever order, and when none
    is left to make, no block is allocated and the source of every block ever
    made was freed. *)
Theorem shared_buffer_release (t : threads) (Hr : reachable t) :
  (∀ n t', nsteps release_step n t t' → (n <= 2 * length (handles t) + length (dying t))%nat) ∧
  (∃ t', rtc release_step t t' ∧ nf release_step t') ∧
  (∀ t', rtc release_step t t' → nf release_step t' →
     blocks (heap t') = ∅ ∧ zlen (free_calls (heap t')) = created t').
Proof.
  split; [|split].
  - intros n t' Hn%release_bound. unfold work in *. lia.
  - by apply release_ends, reachable_ok.
  - intros t' Hrun Hnf. apply released_empty; [|done]. by eapply reachable_ok, release_reachable.
Qed.
Lemma shared_buffer_release_witness :
  (∀ n t', nsteps release_step n example_threads t' → (n <= 4)%nat) ∧
  ∃ t', rtc release_step example_threads t' ∧ nf release_step t'.
Proof.
  destruct (shared_buffer_release example_threads example_reachable) as (Hn & He & _).
  split; [|exact He]. intros n t' H. specialize (Hn n t' H). vm_compute in Hn. exact Hn.
Defined.
