(* ===== verification/IpcDecoder.v ===== *)
(** * The IPC decoder (nanoarrow_ipc.c): messages and their headers

    [struct ArrowIpcDecoder] with its private data, and the functions that read
    the header of a message: [ArrowIpcDecoderPeekHeader],
    [ArrowIpcDecoderVerifyHeader], [ArrowIpcDecoderDecodeHeader] and
    [ArrowIpcDecoderDecodeSchema]; then [ArrowIpcDecoderSetSchema] and
    [ArrowIpcDecoderSetEndianness], which prepare the decoder for the record
    batches that follow.

    The pointers of [ArrowIpcField] into the view and the array of the decoder
    are paths of child indices, the same in both trees, [None] for NULL.  [fields] may be a
    pointer to memory that was freed: freeing it again is undefined.  A pointer to
    a message is the memory of the message, which the caller keeps as it is, with
    an offset. *)

From stdpp Require Import base numbers list option strings.
From S2P Require Import Prelude CInt CString Buffer Types Metadata Schema SchemaView ArrayView Array.
From S2P Require Import FlatBuffers Message IpcSchema IpcSchemaSpec.
#[local] Open Scope Z_scope.
#[local] Open Scope c_scope.

(** ** Data *)

(** Enumerations whose members hold what was read from a message. *)
Definition NANOARROW_IPC_MESSAGE_TYPE_SCHEMA : Z := 1.
Definition NANOARROW_IPC_MESSAGE_TYPE_RECORD_BATCH : Z := 3.
Definition NANOARROW_IPC_ENDIANNESS_UNINITIALIZED : Z := 0.
Definition NANOARROW_IPC_ENDIANNESS_LITTLE : Z := 1.
Definition NANOARROW_IPC_ENDIANNESS_BIG : Z := 2.
Definition NANOARROW_IPC_COMPRESSION_TYPE_NONE : Z := 0.
Definition NANOARROW_IPC_COMPRESSION_TYPE_LZ4_FRAME : Z := 1.
Definition NANOARROW_IPC_COMPRESSION_TYPE_ZSTD : Z := 2.
Definition NANOARROW_IPC_FEATURE_DICTIONARY_REPLACEMENT : Z := 1.
Definition NANOARROW_IPC_FEATURE_COMPRESSED_BODY : Z := 2.
Definition kMessageHeaderPrefixSize : Z := 8.

Record ArrowIpcField : Set := MkIpcField {
  field_path : option (list Z);
  buffer_offset : Z;
}.
Inductive fields_pointer : Set :=
  | FieldsNull
  | FieldsFreed
  | FieldsAt (l : list ArrowIpcField).
Record ArrowIpcDecoderPrivate : Set := MkDecoderPrivate {
  batch_endianness : Z;
  system_endianness : Z;
  array_view : ArrowArrayView;
  scratch_array : ArrowArray;
  n_fields : Z;
  fields : fields_pointer;
  batch_n_buffers : Z;
  last_message : option (list Z * Z);
}.
Record ArrowIpcDecoder : Set := MkDecoder {
  message_type : Z;
  metadata_version : Z;
  endianness : Z;
  feature_flags : Z;
  codec : Z;
  header_size_bytes : Z;
  body_size_bytes : Z;
  decoder_private : option ArrowIpcDecoderPrivate;
}.

(** [memset(decoder, 0, sizeof(struct ArrowIpcDecoder))], and of the rest *)
Definition decoder_zero : ArrowIpcDecoder := MkDecoder 0 0 0 0 0 0 0 None.
Definition layout_zero : ArrowLayout :=
  MkLayout (replicate 3 NANOARROW_BUFFER_TYPE_NONE) (replicate 3 NANOARROW_TYPE_UNINITIALIZED)
    (replicate 3 0) 0.
Definition view_zero : ArrowArrayView :=
  MkArrayView 0 0 0 NANOARROW_TYPE_UNINITIALIZED layout_zero (replicate 3 (MkView None 0)) 0 None None None.
Definition private_zero : ArrowIpcDecoderPrivate :=
  MkDecoderPrivate 0 0 view_zero ArrayReleased 0 FieldsNull 0 None.

Definition set_private (p : ArrowIpcDecoderPrivate) (d : ArrowIpcDecoder) : ArrowIpcDecoder :=
  MkDecoder (message_type d) (metadata_version d) (endianness d) (feature_flags d) (codec d)
    (header_size_bytes d) (body_size_bytes d) (Some p).
Definition set_last_message (m : option (list Z * Z)) (p : ArrowIpcDecoderPrivate) : ArrowIpcDecoderPrivate :=
  MkDecoderPrivate (batch_endianness p) (system_endianness p) (array_view p) (scratch_array p) (n_fields p)
    (fields p) (batch_n_buffers p) m.
Definition set_header_size (n : Z) (d : ArrowIpcDecoder) : ArrowIpcDecoder :=
  MkDecoder (message_type d) (metadata_version d) (endianness d) (feature_flags d) (codec d)
    n (body_size_bytes d) (decoder_private d).
Definition set_message (type version body : Z) (d : ArrowIpcDecoder) : ArrowIpcDecoder :=
  MkDecoder type version (endianness d) (feature_flags d) (codec d) (header_size_bytes d) body
    (decoder_private d).
Definition set_endianness (e : Z) (d : ArrowIpcDecoder) : ArrowIpcDecoder :=
  MkDecoder (message_type d) (metadata_version d) e (feature_flags d) (codec d)
    (header_size_bytes d) (body_size_bytes d) (decoder_private d).
Definition set_feature_flags (n : Z) (d : ArrowIpcDecoder) : ArrowIpcDecoder :=
  MkDecoder (message_type d) (metadata_version d) (endianness d) n (codec d)
    (header_size_bytes d) (body_size_bytes d) (decoder_private d).
Definition set_codec (n : Z) (d : ArrowIpcDecoder) : ArrowIpcDecoder :=
  MkDecoder (message_type d) (metadata_version d) (endianness d) (feature_flags d) n
    (header_size_bytes d) (body_size_bytes d) (decoder_private d).

(** [(struct ArrowIpcDecoderPrivate* )decoder->private_data], dereferenced *)
Definition get_decoder_private : M ArrowIpcDecoder ArrowIpcDecoderPrivate :=
  let* p := mget decoder_private in deref p.
Definition put_last_message (m : option (list Z * Z)) : M ArrowIpcDecoder unit :=
  let* p := get_decoder_private in mmod (set_private (set_last_message m p)).

(** ** Initialisation *)
Definition ArrowIpcSystemEndianness : Z :=
  match le_bytes 4 1 with
  | 0 :: _ => NANOARROW_IPC_ENDIANNESS_BIG
  | _ => NANOARROW_IPC_ENDIANNESS_LITTLE
  end.
Definition sizeof_ArrowIpcDecoderPrivate : Z := 384.
Definition sizeof_ArrowIpcField : Z := 24.

(** [if (fields != NULL) ArrowFree(fields);] *)
Definition free_fields {S} (f : fields_pointer) : M S unit :=
  match f with FieldsFreed => mundef | _ => mret_ tt end.

Section init.
Context `{!Malloc}.
Definition ArrowIpcDecoderInit : M (mstate * ArrowIpcDecoder) unit :=
  modify (λ _, decoder_zero) ;;;
  let* ok := ArrowMalloc sizeof_ArrowIpcDecoderPrivate in
  if ok : bool then
    modify (set_private (MkDecoderPrivate 0 ArrowIpcSystemEndianness view_zero ArrayReleased 0 FieldsNull 0 None))
  else mfail ENOMEM.
End init.
Definition ArrowIpcDecoderReset : M ArrowIpcDecoder unit :=
  let* p := mget decoder_private in
  match p with
  | None => mret_ tt
  | Some p => free_fields (fields p) ;;; mmod (λ _, decoder_zero)
  end.

Definition ArrowIpcDecoderNeedsSwapEndian (p : ArrowIpcDecoderPrivate) : bool :=
  if (batch_endianness p =? NANOARROW_IPC_ENDIANNESS_LITTLE) ||
     (batch_endianness p =? NANOARROW_IPC_ENDIANNESS_BIG)
  then negb (batch_endianness p =? NANOARROW_IPC_ENDIANNESS_UNINITIALIZED) &&
       negb (batch_endianness p =? system_endianness p)
  else false.
Definition ArrowIpcDecoderSetEndianness (e : Z) : M ArrowIpcDecoder unit :=
  let* p := get_decoder_private in
  if (e =? NANOARROW_IPC_ENDIANNESS_UNINITIALIZED) || (e =? NANOARROW_IPC_ENDIANNESS_LITTLE) ||
     (e =? NANOARROW_IPC_ENDIANNESS_BIG)
  then mmod (set_private (MkDecoderPrivate e (system_endianness p) (array_view p) (scratch_array p)
         (n_fields p) (fields p) (batch_n_buffers p) (last_message p)))
  else mfail EINVAL.

(** ** The header of a message *)

(** Moves a view forward. *)
Definition advance (n : Z) (v : ArrowView) : ArrowView :=
  MkView (drop (Z.to_nat n) <$> view_data v) (view_size v - n).
Definition bswap32 (x : Z) : Z := le_val (rev (le_bytes 4 x)).
Definition ArrowIpcReadContinuationBytes (data : ArrowView) : option (Z * ArrowView) :=
  m ← view_data data; x ← load_u 4 m 0; Some (x, advance 4 data).
Definition ArrowIpcReadInt32LE (data : ArrowView) (swap_endian : bool) : option (Z * ArrowView) :=
  m ← view_data data; x ← load_i 4 m 0;
  Some (if swap_endian then i32 (bswap32 (u32 x)) else x, advance 4 data).

Definition ArrowIpcDecoderResetHeaderInfo : M ArrowIpcDecoder unit :=
  mmod (λ d, MkDecoder 0 0 0 0 0 0 0 (decoder_private d)) ;;;
  put_last_message None.
(** The result is the view after the prefix; [decoder->header_size_bytes] is
    written before the size is checked. *)
Definition ArrowIpcDecoderReadHeaderPrefix (data : ArrowView) : M ArrowIpcDecoder ArrowView :=
  let* p := get_decoder_private in
  check (negb (view_size data <? kMessageHeaderPrefixSize)) ESPIPE ;;;
  let* r := deref (ArrowIpcReadContinuationBytes data) in
  check (r.1 =? 4294967295) EINVAL ;;;
  let swap_endian := system_endianness p =? NANOARROW_IPC_ENDIANNESS_BIG in
  let* s := deref (ArrowIpcReadInt32LE r.2 swap_endian) in
  mmod (set_header_size (i32 (s.1 + kMessageHeaderPrefixSize))) ;;;
  check (negb (s.1 <? 0)) EINVAL ;;;
  check (negb (s.1 =? 0)) ENODATA ;;;
  mret_ s.2.
Definition ArrowIpcDecoderPeekHeader (data : ArrowView) : M ArrowIpcDecoder unit :=
  ArrowIpcDecoderResetHeaderInfo ;;;
  ArrowIpcDecoderReadHeaderPrefix data ;;; mret_ tt.

(** The prefix, and that all of the header is there: the view after the prefix
    with the size of the header. *)
Definition read_header (data : ArrowView) : M ArrowIpcDecoder (ArrowView * Z) :=
  ArrowIpcDecoderResetHeaderInfo ;;;
  let* rest := ArrowIpcDecoderReadHeaderPrefix data in
  let* n := mget header_size_bytes in
  let message_body_size := n - kMessageHeaderPrefixSize in
  check (negb (view_size rest <? message_body_size)) ESPIPE ;;;
  mret_ (rest, message_body_size).
(** [addr] is the address of the data, which decides whether the message is
    aligned. *)
Definition ArrowIpcDecoderVerifyHeader (addr : Z) (data : ArrowView) : M ArrowIpcDecoder unit :=
  let* r := read_header data in
  let* buf := deref (view_data r.1) in
  let* v := deref (Message_verify_as_root buf (addr + kMessageHeaderPrefixSize) (u64 r.2)) in
  match v with
  | inl _ => mfail EINVAL
  | inr _ =>
      let* message := deref (Message_as_root buf) in
      let* version := deref (Message_version buf message) in
      let* type := deref (Message_header_type buf message) in
      let* body := deref (Message_bodyLength buf message) in
      mmod (set_message type version body) ;;;
      let* header := deref (Message_header buf message) in
      put_last_message (pair buf <$> header)
  end.

Section header.
Variable buf : list Z.
Definition ArrowIpcDecoderDecodeSchemaHeader (schema : loc) : M ArrowIpcDecoder unit :=
  let* e := deref (Schema_endianness buf schema) in
  (match e with
   | 0 => mmod (set_endianness NANOARROW_IPC_ENDIANNESS_LITTLE)
   | 1 => mmod (set_endianness NANOARROW_IPC_ENDIANNESS_BIG)
   | _ => mfail EINVAL
   end) ;;;
  let* features := deref (Schema_features buf schema) in
  let* n_features := deref (Feature_vec_len buf features) in
  mmod (set_feature_flags 0) ;;;
  mfor (zseq n_features) (λ i,
    let* feature := deref (Feature_vec_at buf features i) in
    match feature with
    | 2 => mmod (λ d, set_feature_flags (Z.lor (feature_flags d) NANOARROW_IPC_FEATURE_COMPRESSED_BODY) d)
    | 1 => mmod (λ d, set_feature_flags (Z.lor (feature_flags d) NANOARROW_IPC_FEATURE_DICTIONARY_REPLACEMENT) d)
    | _ => mfail EINVAL
    end).
Definition ArrowIpcDecoderDecodeRecordBatchHeader (batch : loc) : M ArrowIpcDecoder unit :=
  let* p := get_decoder_private in
  let* nodes := deref (RecordBatch_nodes buf batch) in
  let* buffers := deref (RecordBatch_buffers buf batch) in
  let* n_nodes := deref (FieldNode_vec_len buf nodes) in
  let* n_bufs := deref (Buffer_vec_len buf buffers) in
  check (n_nodes + 1 =? n_fields p) EINVAL ;;;
  check (n_bufs + 1 =? batch_n_buffers p) EINVAL ;;;
  let* compressed := deref (RecordBatch_compression_is_present buf batch) in
  if compressed : bool then
    let* compression := deref (RecordBatch_compression buf batch) in
    let* c := deref (BodyCompression_codec buf compression) in
    match c with
    | 0 => mmod (set_codec NANOARROW_IPC_COMPRESSION_TYPE_LZ4_FRAME)
    | 1 => mmod (set_codec NANOARROW_IPC_COMPRESSION_TYPE_ZSTD)
    | _ => mfail EINVAL
    end
  else mmod (set_codec NANOARROW_IPC_COMPRESSION_TYPE_NONE).
End header.

(** The message is never NULL here.  The version is read into a local variable,
    and the switch is on [decoder->metadata_version]. *)
Definition ArrowIpcDecoderDecodeHeader (data : ArrowView) : M ArrowIpcDecoder unit :=
  let* r := read_header data in
  let* buf := deref (view_data r.1) in
  let* message := deref (Message_as_root buf) in
  let* local_metadata_version := deref (Message_version buf message) in
  let* type := deref (Message_header_type buf message) in
  mmod (λ d, set_message type (metadata_version d) (body_size_bytes d) d) ;;;
  let* body := deref (Message_bodyLength buf message) in
  mmod (λ d, set_message (message_type d) (metadata_version d) body d) ;;;
  let* version := mget metadata_version in
  check ((0 <=? version) && (version <=? 4)) EINVAL ;;;
  let* header := deref (Message_header buf message) in
  (match type with
   | 1 => ArrowIpcDecoderDecodeSchemaHeader buf header
   | 3 => ArrowIpcDecoderDecodeRecordBatchHeader buf header
   | 2 | 4 | 5 => mfail ENOTSUP
   | _ => mfail EINVAL
   end) ;;;
  put_last_message (pair buf <$> header).

Section schema.
Context `{!Libc} `{!Malloc}.
(** The state is the allocator and [*out]; the decoder is only read. *)
Definition ArrowIpcDecoderDecodeSchema (d : ArrowIpcDecoder) : M (mstate * ArrowSchema) unit :=
  let* p := deref (decoder_private d) in
  match last_message p with
  | Some (buf, t) =>
      if message_type d =? NANOARROW_IPC_MESSAGE_TYPE_SCHEMA then decode_schema buf (Some t) else mfail EINVAL
  | None => mfail EINVAL
  end.
End schema.

(** ** Preparing for record batches *)

(** The number of fields of a schema, added to a count. *)
Definition count_list (count : ArrowSchema → Z → option Z) (nc : Z) :
    list (option ArrowSchema) → Z → Z → option Z :=
  fix go l i n :=
    if i <? nc then
      match l with
      | Some c :: l' => n' ← count c n; go l' (i + 1) n'
      | _ => None
      end
    else Some n.
Fixpoint ArrowIpcDecoderCountFields (schema : ArrowSchema) (n : Z) : option Z :=
  match schema with
  | SchemaReleased => None
  | SchemaLive (MkMembers _ _ _ _ nc ch _) =>
      match ch with
      | None => if 0 <? nc then None else Some (i64 (n + 1))
      | Some l => count_list ArrowIpcDecoderCountFields nc l 0 (i64 (n + 1))
      end
  end.

(** [array->children[i]]: a pointer, not used yet. *)
Definition child_pointer (a : ArrowArray) (i : Z) : option ArrowArray :=
  match a with
  | ArrayReleased => None
  | ArrayLive m => l ← array_children m; c ← znth l i; c
  end.
(** The buffers of a layout. *)
Definition layout_buffers (l : ArrowLayout) : Z :=
  zlen (filter (λ t, t ≠ NANOARROW_BUFFER_TYPE_NONE) (buffer_type l)).
(** The state: the memory of the fields, and the two counters. *)
Definition fields_state : Set := list ArrowIpcField * Z * Z.
Definition init_fields_list (init : list Z → ArrowArrayView → ArrowArray → M fields_state unit) (nc : Z)
    (path : list Z) (array : ArrowArray) : list (option ArrowArrayView) → Z → M fields_state unit :=
  fix go l i :=
    if i <? nc then
      match l with
      | Some v :: l' =>
          let* a := deref (child_pointer array i) in
          init (path ++ [i]) v a ;;; go l' (i + 1)
      | _ => mundef
      end
    else mret_ tt.
Fixpoint ArrowIpcDecoderInitFields (path : list Z) (view : ArrowArrayView) (array : ArrowArray) :
    M fields_state unit :=
  match view with
  | MkArrayView _ _ _ _ lay _ nc ch _ _ => λ '(mem, n_fields, n_buffers),
      match zset mem n_fields (MkIpcField (Some path) n_buffers) with
      | None => UB
      | Some mem' =>
          (match ch with
           | None => if 0 <? nc then mundef else mret_ tt
           | Some l => init_fields_list ArrowIpcDecoderInitFields nc path array l 0
           end) (mem', n_fields + 1, n_buffers + layout_buffers lay)
      end
  end.

Section set_schema.
Context `{!Malloc}.
Definition put_decoder (p : ArrowIpcDecoderPrivate) : M (mstate * ArrowIpcDecoder) unit :=
  modify (set_private p).
(** Calls on a member of the private data, whose new value is stored whether the
    call succeeds or fails. *)
Definition on_member {T} (get_ : ArrowIpcDecoderPrivate → T) (put : T → ArrowIpcDecoderPrivate → ArrowIpcDecoderPrivate)
    (m : M (mstate * T) unit) : M (mstate * ArrowIpcDecoder) unit := λ '(a, d),
  match decoder_private d with
  | None => UB
  | Some p =>
      match m (a, get_ p) with
      | Ok _ (a', x) => Ok tt (a', set_private (put x p) d)
      | Err e (a', x) => Err e (a', set_private (put x p) d)
      | UB => UB
      end
  end.
Definition put_array_view (v : ArrowArrayView) (p : ArrowIpcDecoderPrivate) : ArrowIpcDecoderPrivate :=
  MkDecoderPrivate (batch_endianness p) (system_endianness p) v (scratch_array p) (n_fields p)
    (fields p) (batch_n_buffers p) (last_message p).
Definition put_scratch (v : ArrowArray) (p : ArrowIpcDecoderPrivate) : ArrowIpcDecoderPrivate :=
  MkDecoderPrivate (batch_endianness p) (system_endianness p) (array_view p) v (n_fields p)
    (fields p) (batch_n_buffers p) (last_message p).
Definition put_fields (n : Z) (f : fields_pointer) (n_buffers : Z) (p : ArrowIpcDecoderPrivate) :
    ArrowIpcDecoderPrivate :=
  MkDecoderPrivate (batch_endianness p) (system_endianness p) (array_view p) (scratch_array p) n
    f n_buffers (last_message p).
Definition ArrowIpcDecoderSetSchema (schema : ArrowSchema) : M (mstate * ArrowIpcDecoder) unit :=
  let* d := get id in
  let* p := deref (decoder_private d) in
  free_fields (fields p) ;;;
  let freed := match fields p with FieldsNull => FieldsNull | _ => FieldsFreed end in
  put_decoder (put_fields 0 freed 0 (put_scratch ArrayReleased
    (put_array_view (ArrowArrayViewReset (array_view p)) p))) ;;;
  on_member array_view put_array_view (ArrowArrayViewInitFromSchema schema) ;;;
  let* d := get id in
  let* p := deref (decoder_private d) in
  on_member scratch_array put_scratch (ArrowArrayInitFromArrayView (array_view p)) ;;;
  let* d := get id in
  let* p := deref (decoder_private d) in
  check (bool_decide (view_storage_type (array_view p) = NANOARROW_TYPE_STRUCT)) EINVAL ;;;
  let* n := deref (ArrowIpcDecoderCountFields schema 0) in
  put_decoder (put_fields n (fields p) 0 p) ;;;
  let* ok := ArrowMalloc (i64 (n * sizeof_ArrowIpcField)) in
  if ok : bool then
    (if INT64_MAX <? n * sizeof_ArrowIpcField then mundef else mret_ tt) ;;;
    let mem := replicate (Z.to_nat n) (MkIpcField None 0) in
    match ArrowIpcDecoderInitFields [] (array_view p) (scratch_array p) (mem, 0, 0) with
    | Ok _ (mem', _, n_buffers) => put_decoder (put_fields n (FieldsAt mem') n_buffers p)
    | _ => mundef
    end
  else put_decoder (put_fields n FieldsNull 0 p) ;;; mfail ENOMEM.
End set_schema.

(** ** Headers: what is read and which errors there are *)

(** The frame of a message: the size of its header, or the error. *)
Definition frame (data : ArrowView) : option (errno + Z) :=
  if view_size data <? 8 then Some (inl ESPIPE)
  else
    m ← view_data data; continuation ← load_u 4 m 0; size ← load_i 4 m 4;
    Some (if negb (continuation =? 4294967295) then inl EINVAL
          else if size <? 0 then inl EINVAL
          else if size =? 0 then inl ENODATA
          else if view_size data - 8 <? size then inl ESPIPE
          else inr size).

Section headers.
Variables (data : ArrowView) (m : list Z).
Hypothesis Hm : view_data data = Some m.
Hypothesis Hsize : 0 <= view_size data <= zlen m.
Hypothesis Hbytes : bytes_ok m.
(** The size of the header and of its prefix is an [int32_t]. *)
Hypothesis Hword : ∀ w, load_i 4 m 4 = Some w → w <= INT32_MAX - 8.

(** The decoder when it starts on a message with a header of [n] bytes. *)
Definition fresh_decoder (p : ArrowIpcDecoderPrivate) (n : Z) : ArrowIpcDecoder :=
  MkDecoder 0 0 0 0 0 n 0 (Some (set_last_message None p)).

Lemma load_i_drop (w k : nat) (i : Z) :
  Z.of_nat k + i + Z.of_nat w <= zlen m → 0 <= i → load_i w (drop k m) i = load_i w m (Z.of_nat k + i).
Proof.
  intros Hk Hi. unfold load_i, load_u. unfold zlen in Hk. rewrite !zslice_in; try lia.
  - rewrite drop_drop. do 5 f_equal. lia.
  - unfold zlen. lia.
  - unfold zlen. rewrite length_drop. lia.
Qed.
Lemma read_header_wp d p :
  decoder_private d = Some p → system_endianness p = NANOARROW_IPC_ENDIANNESS_LITTLE →
  wp (read_header data) d
    (λ r d', ∃ w, frame data = Some (inr w) ∧ 0 < w ∧ 8 + w <= view_size data ∧
       r = (MkView (Some (drop 8 m)) (view_size data - 8), w) ∧ d' = fresh_decoder p (w + 8))
    (λ e d', frame data = Some (inl e) ∧ decoder_private d' = Some (set_last_message None p)).
Proof.
  intros Hp Hend. unfold read_header, ArrowIpcDecoderResetHeaderInfo, frame, kMessageHeaderPrefixSize.
  apply wp_bind, wp_bind, wp_mod. unfold put_last_message, get_decoder_private.
  apply wp_bind, wp_bind, wp_get. cbn [decoder_private]. rewrite Hp. apply wp_ret, wp_mod.
  unfold ArrowIpcDecoderReadHeaderPrefix, get_decoder_private.
  apply wp_bind, wp_bind, wp_bind, wp_get. cbn [decoder_private set_private]. apply wp_ret.
  apply wp_bind, wp_check; intros Hs; unfold kMessageHeaderPrefixSize in Hs; zbool.
  2:{ destruct (Z.ltb_spec (view_size data) 8); [done|lia]. }
  destruct (Z.ltb_spec (view_size data) 8); [lia|]. rewrite Hm. cbn [mbind option_bind].
  unfold ArrowIpcReadContinuationBytes, ArrowIpcReadInt32LE. rewrite Hm. cbn [mbind option_bind].
  destruct (load_u_in 4 m 0) as [cont Hcont]; [lia|lia|]. rewrite Hcont.
  destruct (load_i_in 4 m 4) as [w Hw]; [lia|lia|]. rewrite Hw. cbn [mbind option_bind].
  apply wp_bind, wp_ret. cbn [fst snd]. apply wp_bind, wp_check; intros Hc; rewrite Hc; cbn [negb]; [|done].
  assert (advance 4 data = MkView (Some (drop 4 m)) (view_size data - 4)) as -> by (unfold advance; by rewrite Hm).
  cbn [view_data mbind option_bind]. rewrite load_i_drop by lia. change (Z.of_nat 4 + 0) with 4.
  rewrite Hw. cbn [mbind option_bind set_last_message system_endianness]. rewrite Hend.
  change (NANOARROW_IPC_ENDIANNESS_LITTLE =? NANOARROW_IPC_ENDIANNESS_BIG) with false. cbv iota.
  apply wp_bind, wp_ret. cbn [fst snd]. apply wp_bind, wp_mod, wp_bind, wp_check; intros Hneg; zbool.
  2:{ destruct (Z.ltb_spec w 0); [done|lia]. }
  destruct (Z.ltb_spec w 0); [lia|]. apply wp_bind, wp_check; intros Hz; zbool.
  2:{ by subst w. }
  destruct (Z.eqb_spec w 0); [lia|]. pose proof (Hword w Hw). apply wp_ret, wp_bind, wp_get.
  cbn [header_size_bytes set_header_size]. unfold kMessageHeaderPrefixSize.
  rewrite i32_small by (unfold INT32_MIN, INT32_MAX in *; lia). unfold advance. cbn [view_data view_size].
  change (drop (Z.to_nat 4) <$> Some (drop 4 m)) with (Some (drop 4 (drop 4 m))).
  rewrite drop_drop. replace (w + 8 - 8) with w by lia.
  replace (view_size data - 4 - 4) with (view_size data - 8) by lia.
  apply wp_bind, wp_check; intros Hlen; zbool; (destruct (Z.ltb_spec (view_size data - 8) w); [|]); try lia; [|done].
  apply wp_ret. exists w. split; [done|]. split; [lia|]. split; [lia|]. done.
Qed.

Lemma frame_word w : frame data = Some (inr w) → 8 <= view_size data ∧ load_i 4 m 4 = Some w.
Proof.
  unfold frame. rewrite Hm. destruct (Z.ltb_spec (view_size data) 8); [done|]. cbn [mbind option_bind].
  destruct (load_u 4 m 0); [|done]. destruct (load_i 4 m 4); [|done]. cbn [mbind option_bind].
  repeat case_match; intros [= <-]; done.
Qed.
Abbreviation msg := (drop 8 m).
(** What a verified header is: the message at [root] with its header. *)
Record message_at (root type body : Z) (header : loc) : Prop := {
  message_root : Message_as_root msg = Some (Some root);
  message_version : is_Some (Message_version msg (Some root));
  message_header_type : Message_header_type msg (Some root) = Some type;
  message_header : Message_header msg (Some root) = Some header;
  message_body : Message_bodyLength msg (Some root) = Some body;
  message_ok q : header = Some q → MessageHeader_valid msg 100 type q;
}.
Lemma bytes_ok_msg : bytes_ok msg.
Proof. by apply Forall_drop. Qed.
Lemma zlen_msg : 8 <= view_size data → zlen msg = zlen m - 8.
Proof. intros. apply (zlen_drop 8). lia. Qed.

Lemma verified_at addr w :
  0 < w → 8 + w <= view_size data → w <= INT32_MAX → Message_verify_as_root msg addr w = Some (inr tt) →
  ∃ root type body header, message_at root type body header.
Proof.
  intros Hw Hlen Hmax Hv. destruct (verified_message msg addr w) as (root & Hroot & Hver & Hun & Hbody & _).
  - apply bytes_ok_msg.
  - rewrite zlen_msg; lia.
  - done.
  - done.
  - destruct Hun as (type & header & Hty & Hhd & _ & Hval).
    destruct (read_signed msg 2 0 0 root ltac:(lia) Hver) as (ver & Hver' & _).
    destruct (read_signed msg 8 3 0 root ltac:(lia) Hbody) as (body & Hbody' & _).
    exists root, type, body, header. split; done.
Qed.
Lemma verify_header_wp addr d p :
  decoder_private d = Some p → system_endianness p = NANOARROW_IPC_ENDIANNESS_LITTLE →
  wp (ArrowIpcDecoderVerifyHeader addr data) d
    (λ _ d', ∃ w root type body header version, frame data = Some (inr w) ∧ message_at root type body header ∧
       d' = MkDecoder type version 0 0 0 (w + 8) body (Some (set_last_message (pair msg <$> header) p)))
    (λ e d', (frame data = Some (inl e) ∨ (∃ w, frame data = Some (inr w)) ∧ e = EINVAL) ∧
       decoder_private d' = Some (set_last_message None p)).
Proof.
  intros Hp Hend. unfold ArrowIpcDecoderVerifyHeader. apply wp_bind.
  eapply wp_mono; [by apply (read_header_wp d p)| |by intros e d' [? ?]; split; [by left|]].
  intros r d' (w & Hf & Hw & Hlen & -> & ->). cbn [fst snd view_data]. apply wp_bind, wp_ret.
  assert (w <= INT32_MAX) as Hmax by (unfold INT32_MAX; destruct (frame_word w Hf) as [? Hx]; pose proof (Hword w Hx); unfold INT32_MAX in *; lia).
  unfold u64. rewrite uwrap_small by (unfold INT32_MAX in *; lia).
  pose proof (message_verify_spec msg (addr + kMessageHeaderPrefixSize) w bytes_ok_msg) as Hspec.
  rewrite zlen_msg in Hspec by lia. specialize (Hspec ltac:(lia) Hmax). unfold vwp in Hspec.
  destruct (Message_verify_as_root msg (addr + kMessageHeaderPrefixSize) w) as [[e|[]]|] eqn:Hver; [| |done].
  - apply wp_bind, wp_ret, wp_fail. split; [|done]. right. eauto.
  - destruct (verified_at (addr + kMessageHeaderPrefixSize) w Hw Hlen Hmax Hver) as (root & type & body & header & Hat).
    destruct Hat as [Hr [ver Hve] Hty Hhd Hbo Hok]. apply wp_bind, wp_ret. rewrite Hr. apply wp_bind, wp_ret.
    rewrite Hve. apply wp_bind, wp_ret. rewrite Hty. apply wp_bind, wp_ret. rewrite Hbo. apply wp_bind, wp_ret.
    apply wp_bind, wp_mod. rewrite Hhd. apply wp_bind, wp_ret. unfold put_last_message, get_decoder_private.
    apply wp_bind, wp_bind, wp_get, wp_ret, wp_mod. exists w, root, type, body, header, ver.
    split; [done|]. split; [by split; eauto|]. done.
Qed.

(** *** Decoding *)
Definition invalid (d0 : ArrowIpcDecoder) (e : errno) (d : ArrowIpcDecoder) : Prop :=
  (e = EINVAL ∨ e = ENOTSUP) ∧ decoder_private d = decoder_private d0.
Lemma schema_header_wp d q :
  Schema_valid msg 100 q →
  wp (ArrowIpcDecoderDecodeSchemaHeader msg (Some q)) d
    (λ _ d', ∃ e fl, (e = NANOARROW_IPC_ENDIANNESS_LITTLE ∨ e = NANOARROW_IPC_ENDIANNESS_BIG) ∧
       0 <= fl <= 3 ∧ d' = set_feature_flags fl (set_endianness e d)) (invalid d).
Proof.
  intros (Hend & _ & _ & (v & n & Hv & Hn & Hn0 & Hvb)).
  destruct (read_signed msg 2 0 0 q ltac:(lia) Hend) as (e & He & _).
  unfold ArrowIpcDecoderDecodeSchemaHeader, Schema_endianness, Schema_features, Feature_vec_len.
  rewrite He. apply wp_bind, wp_ret, wp_bind.
  apply (wp_mono _ _ (λ _ d', ∃ e', (e' = NANOARROW_IPC_ENDIANNESS_LITTLE ∨ e' = NANOARROW_IPC_ENDIANNESS_BIG) ∧
    d' = set_endianness e' d) _ (invalid d)); [| |done].
  { repeat case_match; try (apply wp_fail; split; [by left|done]); apply wp_mod; eauto. }
  intros [] d' (e' & He' & ->). rewrite Hv. apply wp_bind, wp_ret. rewrite Hn. apply wp_bind, wp_ret, wp_bind, wp_mod.
  eapply wp_mono; [apply (wp_for (λ _ d', ∃ fl, 0 <= fl <= 3 ∧ d' = set_feature_flags fl (set_endianness e' d)))| |done].
  - exists 0. split; [lia|done].
  - intros pre i post d' Hsplit (fl & Hfl & ->). apply zseq_split in Hsplit as (Hi & Hlt & _).
    destruct v as [v|].
    2:{ cbn in Hn. injection Hn as <-. pose proof (zlen_nonneg pre). lia. }
    destruct (Hvb v eq_refl) as [Hv0 Hvn]. unfold Feature_vec_at, __flatbuffers_scalar_vec_at. cbn [mbind option_bind].
    pose proof (zlen_nonneg pre). destruct (load_i_in 8 msg (v + 8 * i)) as [f Hf]; [lia|lia|].
    rewrite Hf. apply wp_bind, wp_ret.
    repeat case_match; try (apply wp_fail; split; [by left|done]); apply wp_mod; eexists; (split; [|done]);
      cbn [feature_flags set_feature_flags]; clear -Hfl;
      assert (fl = 0 ∨ fl = 1 ∨ fl = 2 ∨ fl = 3) as Hcases by lia; destruct_or! Hcases; subst; vm_compute;
      by split.
  - intros [] d' (fl & Hfl & ->). eauto.
Qed.
Lemma batch_header_wp d p q :
  decoder_private d = Some p → RecordBatch_valid msg q →
  wp (ArrowIpcDecoderDecodeRecordBatchHeader msg (Some q)) d
    (λ _ d', ∃ c nodes buffers, 0 <= c <= 2 ∧ d' = set_codec c d ∧
       RecordBatch_nodes msg (Some q) = Some nodes ∧ FieldNode_vec_len msg nodes = Some (n_fields p - 1) ∧
       RecordBatch_buffers msg (Some q) = Some buffers ∧ Buffer_vec_len msg buffers = Some (batch_n_buffers p - 1))
    (invalid d).
Proof.
  intros Hp (_ & (nv & nn & Hnv & Hnn & _ & _) & (bv & bn & Hbv & Hbn & _ & _) & (c & Hc & Hcv)).
  unfold ArrowIpcDecoderDecodeRecordBatchHeader, get_decoder_private. apply wp_bind, wp_bind, wp_get.
  rewrite Hp. apply wp_ret. unfold RecordBatch_nodes, RecordBatch_buffers, FieldNode_vec_len, Buffer_vec_len.
  rewrite Hnv. apply wp_bind, wp_ret. rewrite Hbv. apply wp_bind, wp_ret. rewrite Hnn. apply wp_bind, wp_ret.
  rewrite Hbn. apply wp_bind, wp_ret. apply wp_bind, wp_check; [|intros _; split; [by left|done]].
  intros Hn1%Z.eqb_eq. apply wp_bind, wp_check; [|intros _; split; [by left|done]]. intros Hn2%Z.eqb_eq.
  unfold RecordBatch_compression_is_present, RecordBatch_compression, BodyCompression_codec.
  rewrite (read_present msg _ _ _ _ Hc), Hc. apply wp_bind, wp_ret.
  assert (∀ k, 0 <= k <= 2 → wp (mmod (set_codec k)) d (λ _ d', ∃ c nodes buffers, 0 <= c <= 2 ∧ d' = set_codec c d ∧
    Some nv = Some nodes ∧ __flatbuffers_vec_len msg nodes = Some (n_fields p - 1) ∧
    Some bv = Some buffers ∧ __flatbuffers_vec_len msg buffers = Some (batch_n_buffers p - 1)) (invalid d)) as Hset.
  { intros k Hk. apply wp_mod. exists k, nv, bv. rewrite Hnn, Hbn. do 3 (split; [done|]).
    split; [f_equal; lia|]. split; [done|f_equal; lia]. }
  destruct c as [c|]; cbn [not_null]; [|apply Hset; by split].
  apply wp_bind, wp_ret. destruct (Hcv c eq_refl) as [Hcodec _].
  destruct (read_signed msg 1 0 0 c ltac:(lia) Hcodec) as (k & Hk & _). rewrite Hk. apply wp_bind, wp_ret.
  repeat case_match; try (apply wp_fail; split; [by left|done]); apply Hset; vm_compute; by split.
Qed.

(** What the decoder says of the message after its header was decoded. *)
Record decoded (p : ArrowIpcDecoderPrivate) (w body q : Z) (d : ArrowIpcDecoder) : Prop := {
  decoded_private : decoder_private d = Some (set_last_message (Some (msg, q)) p);
  decoded_header_size : header_size_bytes d = w + 8;
  decoded_body_size : body_size_bytes d = body;
  decoded_header :
    message_type d = NANOARROW_IPC_MESSAGE_TYPE_SCHEMA ∧ Schema_valid msg 100 q ∧
      (endianness d = NANOARROW_IPC_ENDIANNESS_LITTLE ∨ endianness d = NANOARROW_IPC_ENDIANNESS_BIG) ∧
      0 <= feature_flags d <= 3 ∨
    message_type d = NANOARROW_IPC_MESSAGE_TYPE_RECORD_BATCH ∧ RecordBatch_valid msg q ∧
      0 <= codec d <= 2 ∧
      ∃ nodes buffers,
        RecordBatch_nodes msg (Some q) = Some nodes ∧ FieldNode_vec_len msg nodes = Some (n_fields p - 1) ∧
        RecordBatch_buffers msg (Some q) = Some buffers ∧ Buffer_vec_len msg buffers = Some (batch_n_buffers p - 1);
}.
Lemma decode_header_wp d p root type body header :
  decoder_private d = Some p → system_endianness p = NANOARROW_IPC_ENDIANNESS_LITTLE →
  message_at root type body header → (type = 1 ∨ type = 3 → is_Some header) →
  wp (ArrowIpcDecoderDecodeHeader data) d
    (λ _ d', ∃ w q, frame data = Some (inr w) ∧ header = Some q ∧ decoded p w body q d' ∧ message_type d' = type)
    (λ e d', (frame data = Some (inl e) ∨ e = EINVAL ∨ e = ENOTSUP) ∧
       decoder_private d' = Some (set_last_message None p)).
Proof.
  intros Hp Hend [Hr [ver Hve] Hty Hhd Hbo Hok] Hpresent. unfold ArrowIpcDecoderDecodeHeader. apply wp_bind.
  eapply wp_mono; [by apply (read_header_wp d p)| |by intros e d' [? ?]; split; [by left|]].
  intros r d' (w & Hf & Hw & Hlen & -> & ->). cbn [fst snd view_data]. apply wp_bind, wp_ret.
  rewrite Hr. apply wp_bind, wp_ret. rewrite Hve. apply wp_bind, wp_ret. rewrite Hty. apply wp_bind, wp_ret.
  apply wp_bind, wp_mod. rewrite Hbo. apply wp_bind, wp_ret. apply wp_bind, wp_mod, wp_bind, wp_get.
  apply wp_bind, wp_check; [intros _|done]. rewrite Hhd. apply wp_bind, wp_ret, wp_bind.
  assert (∀ d1 q e d2, invalid d1 e d2 → decoder_private d1 = Some (set_last_message q p) →
    (frame data = Some (inl e) ∨ e = EINVAL ∨ e = ENOTSUP) ∧ decoder_private d2 = Some (set_last_message q p))
    as Hinvalid by (intros d1 q e d2 [He Heq] Hd1; rewrite Heq; tauto).
  repeat case_match; try (apply wp_fail; split; [tauto|done]); subst;
    (destruct Hpresent as [q ->]; [tauto|]); specialize (Hok q eq_refl); cbn [MessageHeader_valid] in Hok.
  - eapply wp_mono; [by apply batch_header_wp| |by intros e d2 He; eapply Hinvalid].
    intros [] d2 (c & nodes & bufs & Hc & -> & Hrest). unfold put_last_message, get_decoder_private.
    apply wp_bind, wp_bind, wp_get, wp_ret, wp_mod. exists w, q. split; [done|]. split; [done|]. split; [|done].
    split; try done. right. split; [done|]. split; [done|]. split; [done|]. by exists nodes, bufs.
  - eapply wp_mono; [by apply schema_header_wp| |by intros e d2 He; eapply Hinvalid].
    intros [] d2 (e & fl & He & Hfl & ->). unfold put_last_message, get_decoder_private.
    apply wp_bind, wp_bind, wp_get, wp_ret, wp_mod. exists w, q. split; [done|]. split; [done|]. split; [|done].
    split; try done. by left.
Qed.
End headers.

(** The header of a schema or record batch message is there. *)
Definition header_present (buf : list Z) : bool :=
  match Message_as_root buf with
  | Some root =>
      match Message_header_type buf root, Message_header buf root with
      | Some 1, Some None | Some 3, Some None => false
      | _, _ => true
      end
  | None => true
  end.

(** Verifying and then decoding a header, whatever its bytes are. *)
Lemma verify_decode_wp addr data m d p :
  view_data data = Some m → 0 <= view_size data <= zlen m → bytes_ok m →
  (∀ w, load_i 4 m 4 = Some w → w <= INT32_MAX - 8) →
  decoder_private d = Some p → system_endianness p = NANOARROW_IPC_ENDIANNESS_LITTLE →
  header_present (drop 8 m) = true →
  wp (ArrowIpcDecoderVerifyHeader addr data ;;; ArrowIpcDecoderDecodeHeader data) d
    (λ _ d', ∃ w body q, frame data = Some (inr w) ∧ decoded m p w body q d')
    (λ e d', (frame data = Some (inl e) ∨ (∃ w, frame data = Some (inr w)) ∧ (e = EINVAL ∨ e = ENOTSUP)) ∧
       decoder_private d' = Some (set_last_message None p)).
Proof.
  intros Hm Hsize Hbytes Hword Hp Hend Hpresent.
  apply wp_bind. eapply wp_mono; [by apply (verify_header_wp data m) with (p := p)| |].
  2:{ intros e d' [[?|[? ->]] ?]; (split; [|done]); [by left|right; by split; [|left]]. }
  intros [] d1 (w & root & type & body & header & version & Hf & Hat & ->).
  assert (type = 1 ∨ type = 3 → is_Some header) as Hpres.
  { unfold header_present in Hpresent. destruct Hat as [Hr _ Hty Hhd _ _]. rewrite Hr, Hty, Hhd in Hpresent.
    destruct header; [by eexists|]. by intros [-> | ->]. }
  eapply wp_mono; [by eapply (decode_header_wp data m) with (p := set_last_message (pair (drop 8 m) <$> header) p)| |].
  2:{ intros e d' [[?|He] ?]; (split; [|done]); [by left|right; eauto]. }
  intros [] d2 (w' & q & Hf' & -> & Hdec & Hty). exists w', body, q. split; [done|by destruct Hdec].
Qed.

(** C29.  Verifying and then decoding the header of a message never leaves the memory,
    whatever its bytes are, provided that the size it announces is at most
    [INT32_MAX - 8] (see [verify_header_overrun] for more) and the header of a schema
    or record batch message is not absent; the system is little-endian.  On success the decoder has the type, the header
    and body sizes and a pointer to the header, whose tables can be read; for a
    schema it has its endianness and features, and, when no part of the schema is
    absent, decoding it gives the schema the message describes; a record batch has
    as many nodes and buffers as the schema set before.  On failure the error is
    that of the frame (too short, no continuation, negative size, end of
    stream), [EINVAL] or [ENOTSUP], and no message is kept. *)
Theorem decode_header_correct (libc : Libc) (malloc : Malloc) (addr : Z) (data : ArrowView) (m : list Z)
    (d : ArrowIpcDecoder) (p : ArrowIpcDecoderPrivate)
    (Hm : view_data data = Some m) (Hsize : 0 <= view_size data <= zlen m) (Hbytes : bytes_ok m)
    (Hword : ∀ w, load_i 4 m 4 = Some w → w <= INT32_MAX - 8)
    (Hp : decoder_private d = Some p) (Hend : system_endianness p = NANOARROW_IPC_ENDIANNESS_LITTLE)
    (Hpresent : header_present (drop 8 m) = true) :
  wp (ArrowIpcDecoderVerifyHeader addr data ;;; ArrowIpcDecoderDecodeHeader data) d
    (λ _ d', ∃ w body q, frame data = Some (inr w) ∧ decoded m p w body q d' ∧
       (message_type d' = NANOARROW_IPC_MESSAGE_TYPE_SCHEMA → zlen m <= 2 ^ 30 →
        Schema_complete (drop 8 m) 100 (Some q) = true →
        ∀ (a : mstate) out, wp (ArrowIpcDecoderDecodeSchema d') (a, out)
          (λ _ s, ∃ schema, schema_of_message (drop 8 m) 100 (Some q) = Some schema ∧ s.2 = SchemaLive schema)
          (λ e s, decode_error e s ∧ s.2 = out)))
    (λ e d', (frame data = Some (inl e) ∨ (∃ w, frame data = Some (inr w)) ∧ (e = EINVAL ∨ e = ENOTSUP)) ∧
       decoder_private d' = Some (set_last_message None p)).
Proof.
  eapply wp_mono; [by apply (verify_decode_wp addr data m d p)| |done].
  intros [] d2 (w & body & q & Hf & Hdec). exists w, body, q. split; [done|]. split; [done|].
  intros Hschema Hsmall Hcomp a out. unfold ArrowIpcDecoderDecodeSchema. rewrite (decoded_private _ _ _ _ _ _ Hdec).
  apply wp_bind, wp_ret. cbn [last_message set_last_message]. rewrite Hschema, Z.eqb_refl.
  assert (8 <= view_size data) as H8 by (edestruct (frame_word data m) as [? _]; done).
  apply decode_schema_wp; [by apply Forall_drop| | |done].
  - change (zlen (drop (Z.to_nat 8) m) <= 2 ^ 30). rewrite zlen_drop; lia.
  - destruct (decoded_header _ _ _ _ _ _ Hdec) as [(_ & ? & _)|[Hrb _]]; [done|].
    by rewrite Hschema in Hrb.
Qed.
Definition example_decoder : ArrowIpcDecoder :=
  set_private (MkDecoderPrivate 0 ArrowIpcSystemEndianness view_zero ArrayReleased 0 FieldsNull 0 None) decoder_zero.
Definition schema_header : list Z := [255; 255; 255; 255; 248; 0; 0; 0] ++ schema_message.
Lemma decode_header_correct_witness :
  ∃ d', (ArrowIpcDecoderVerifyHeader 0 (MkView (Some schema_header) 256) ;;;
         ArrowIpcDecoderDecodeHeader (MkView (Some schema_header) 256)) example_decoder = Ok tt d' ∧
    ∃ w body q, frame (MkView (Some schema_header) 256) = Some (inr w) ∧
      decoded schema_header (default private_zero (decoder_private example_decoder)) w body q d'.
Proof.
  pose proof (decode_header_correct refines_libc malloc_budget 0 (MkView (Some schema_header) 256) schema_header
    example_decoder (default private_zero (decoder_private example_decoder)) eq_refl
    ltac:(split; apply Z.leb_le; vm_compute; reflexivity)
    ltac:(apply (bool_decide_unpack _); vm_compute; done)
    ltac:(intros w Hw; vm_compute in Hw; injection Hw as <-; apply Z.leb_le; vm_compute; reflexivity)
    eq_refl eq_refl ltac:(vm_compute; reflexivity)) as Hwp.
  destruct (wp_run _ _ _ _ Hwp) as ([] & d' & Hrun & w & body & q & Hf & Hd & _); [vm_compute; reflexivity|].
  exists d'. split; [exact Hrun|]. exists w, body, q. split; [exact Hf|exact Hd].
Defined.

(** Sixteen bytes that announce a header of [INT32_MAX] bytes. *)
Definition huge_header : list Z := [255; 255; 255; 255; 255; 255; 255; 127; 0; 0; 0; 1; 0; 0; 0; 0].
(** The size of the header and its prefix overflows [int32_t] when the header
    is announced with more than [INT32_MAX - 8] bytes: the check that all of it is
    there is passed, and the verifier, with the announced size as its limit,
    follows an offset out of the sixteen bytes there are. *)
Theorem verify_header_overrun :
  frame (MkView (Some huge_header) 16) = Some (inl ESPIPE) ∧
  ArrowIpcDecoderVerifyHeader 0 (MkView (Some huge_header) 16) example_decoder = UB.
Proof. vm_compute. split; reflexivity. Qed.
