(* ===== verification/IpcFields.v ===== *)
(** * The fields of a decoder (nanoarrow_ipc.c)

    [ArrowIpcDecoderSetSchema] counts the fields of a schema, allocates an entry
    for each, and then fills the entries by walking the view it made of the
    schema.  The theorem is that the two walks agree: the memory is filled
    exactly, in depth-first order, each entry with the path of its node and the
    number of buffers before it. *)

From stdpp Require Import base numbers list option strings.
From S2P Require Import Prelude CInt CString Buffer Bitmap Types Metadata Schema SchemaView ArrayView.
From S2P Require Import ArrayViewSafety Array IpcDecoder.
#[local] Open Scope Z_scope.
#[local] Open Scope c_scope.
#[local] Set Warnings "-register-all".
#[local] Abbreviation length := Datatypes.length.

(** ** The nodes of a view, depth first *)
(** Each node with its path. *)
Definition nodes_below (nodes : list Z → ArrowArrayView → list (list Z * ArrowLayout)) (path : list Z) :
    list (option ArrowArrayView) → Z → list (list Z * ArrowLayout) :=
  fix go l i :=
    match l with
    | [] => []
    | Some v :: l' => nodes (path ++ [i]) v ++ go l' (i + 1)
    | None :: l' => go l' (i + 1)
    end.
Fixpoint nodes_of (path : list Z) (v : ArrowArrayView) : list (list Z * ArrowLayout) :=
  match v with
  | MkArrayView _ _ _ _ lay _ _ ch _ _ =>
      (path, lay) :: match ch with None => [] | Some l => nodes_below nodes_of path l 0 end
  end.
(** The entries of these nodes, after [n] buffers, and how many buffers they have. *)
Fixpoint fields_of (n : Z) (l : list (list Z * ArrowLayout)) : list ArrowIpcField :=
  match l with
  | [] => []
  | (path, lay) :: l' => MkIpcField (Some path) n :: fields_of (n + layout_buffers lay) l'
  end.
Definition buffers_of (l : list (list Z * ArrowLayout)) : Z :=
  foldr (λ x n, layout_buffers x.2 + n) 0 l.

Lemma fields_of_app n l1 l2 : fields_of n (l1 ++ l2) = fields_of n l1 ++ fields_of (n + buffers_of l1) l2.
Proof.
  revert n. induction l1 as [|[path lay] l1 IH]; intros n; cbn; [by rewrite Z.add_0_r|].
  rewrite IH. unfold buffers_of. do 3 f_equal. lia.
Qed.
Lemma zlen_fields_of n l : zlen (fields_of n l) = zlen l.
Proof. revert n. induction l as [|[path lay] l IH]; intros n; cbn; [done|]. by rewrite !zlen_cons, IH. Qed.
Lemma buffers_of_app l1 l2 : buffers_of (l1 ++ l2) = buffers_of l1 + buffers_of l2.
Proof. unfold buffers_of. induction l1 as [|x l1 IH]; cbn; [lia|]. rewrite IH. lia. Qed.

(** A view whose children are all there, each node with a layout for its type and
    its three views. *)
Inductive view_wf : ArrowArrayView → Prop :=
  | view_wf_intro o l n st lay b nc cs d m :
      type_layout st lay → length b = 3%nat →
      nc * sizeof_pointer <= INT64_MAX → zlen cs = 0 `max` nc → Forall (λ c, ∃ v, c = Some v ∧ view_wf v) cs →
      (∀ v, d = Some v → view_wf v) →
      view_wf (MkArrayView o l n st lay b nc (Some cs) d m).

Section malloc.
Context `{!Malloc}.
Lemma returns_malloc {S A} n (k : bool → M (mstate * S) A) a (s : S) Q :
  (∀ a', returns (k true) (a', s) Q) → (∀ a', returns (k false) (a', s) Q) →
  returns (mbind_ (ArrowMalloc n) k) (a, s) Q.
Proof.
  intros Ht Hf. apply returns_bind. intros ok s'. unfold ArrowMalloc.
  destruct (malloc_step n a) as [[] a']; intros [= <- <-]; auto.
Qed.
Lemma returns_modify {S} (f : S → S) a (s : S) Q : Q tt (a, f s) → returns (modify f) (a, s) Q.
Proof. by intros ? ?? [= <- <-]. Qed.
End malloc.

(** ** The view of a schema has its nodes *)
Definition view_count (v : ArrowArrayView) : Z := zlen (nodes_of [] v).
Definition shaped (schema : ArrowSchema) (v : ArrowArrayView) : Prop :=
  view_wf v ∧
  ∀ n, 0 <= n → n + view_count v <= INT64_MAX → ArrowIpcDecoderCountFields schema n = Some (n + view_count v).
Definition shaped_child (s : option ArrowSchema) (c : option ArrowArrayView) : Prop :=
  ∃ schema v, s = Some schema ∧ c = Some v ∧ shaped schema v.

Lemma nodes_below_path (p q : list Z) l : ∀ i j,
  Forall (λ c, match c with Some v => ∀ p q, zlen (nodes_of p v) = zlen (nodes_of q v) | None => True end) l →
  zlen (nodes_below nodes_of p l i) = zlen (nodes_below nodes_of q l j).
Proof.
  induction l as [|[v|] l IH]; intros i j Hl; [done| |]; apply list.Forall_cons in Hl as [Hv Hl]; cbn.
  - rewrite !zlen_app, (IH (i + 1) (j + 1) Hl). f_equal. apply Hv.
  - by apply IH.
Qed.
(** The path does not change the number of nodes. *)
Lemma zlen_nodes_of v : ∀ p q, zlen (nodes_of p v) = zlen (nodes_of q v).
Proof.
  induction v as [o l n st lay b nc ch d m IHch _] using ArrowArrayView_nested_ind. intros p q.
  cbn [nodes_of]. rewrite !zlen_cons. f_equal. destruct ch as [cs|]; [|done]. by apply nodes_below_path.
Qed.
Lemma zlen_nodes_below p l : ∀ i,
  zlen (nodes_below nodes_of p l i) = foldr (λ c n, match c with Some v => view_count v | None => 0 end + n) 0 l.
Proof.
  induction l as [|[v|] l IH]; intros i; cbn; [done| |by rewrite IH].
  rewrite zlen_app, IH. f_equal. apply zlen_nodes_of.
Qed.
Lemma view_count_pos v : 0 < view_count v.
Proof.
  destruct v. unfold view_count. cbn [nodes_of]. rewrite zlen_cons.
  match goal with |- context [1 + zlen ?l] => pose proof (zlen_nonneg l) end. lia.
Qed.

(** The loop that counts, on children that are counted. *)
Lemma count_list_spec nc l cs : ∀ i n,
  Forall2 shaped_child (take (Z.to_nat (nc - i)) l) cs → 0 <= i → zlen cs = 0 `max` (nc - i) → 0 <= n →
  n + foldr (λ c n, match c with Some v => view_count v | None => 0 end + n) 0 cs <= INT64_MAX →
  count_list ArrowIpcDecoderCountFields nc l i n =
    Some (n + foldr (λ c n, match c with Some v => view_count v | None => 0 end + n) 0 cs).
Proof.
  revert cs. induction l as [|s l IH]; intros cs i n Hall Hi Hlen Hn Hmax.
  - rewrite take_nil in Hall. inversion Hall; subst. rewrite zlen_nil in Hlen. cbn.
    destruct (Z.ltb_spec i nc); [lia|]. f_equal. lia.
  - cbn [count_list]. destruct (Z.ltb_spec i nc) as [Hlt|Hge].
    + replace (Z.to_nat (nc - i)) with (S (Z.to_nat (nc - (i + 1)))) in Hall by lia. cbn [take] in Hall.
      inversion Hall as [|? c ? cs' (schema & v & -> & -> & _ & Hcount) Hrest]; subst. cbn [foldr] in *.
      rewrite zlen_cons in Hlen. pose proof (view_count_pos v).
      assert (0 <= foldr (λ c n, match c with Some v => view_count v | None => 0 end + n) 0 cs') as Hpos.
      { clear. induction cs' as [|[v|] cs IH]; cbn; [done| |lia]. pose proof (view_count_pos v). lia. }
      rewrite Hcount by lia. cbn [mbind option_bind].
      rewrite (IH cs') by (done || lia). f_equal. lia.
    + replace (Z.to_nat (nc - i)) with 0%nat in Hall by lia. inversion Hall; subst. cbn. f_equal. lia.
Qed.

Section view.
Context `{!Malloc}.
Implicit Types (a : mstate) (v : ArrowArrayView).

Lemma returns_view_child i (m : M (mstate * ArrowArrayView) unit) a v c pre post (P : ArrowArrayView → Prop) :
  view_children v = Some (pre ++ Some c :: post) → i = zlen pre →
  (∀ a, returns m (a, c) (λ _ p, P p.2)) →
  returns (on_view_child i m) (a, v)
    (λ _ p, ∃ c', P c' ∧ p.2 = set_view_children (view_n_children v) (Some (pre ++ Some c' :: post)) v).
Proof.
  intros Hv -> Hm x s' Hrun. unfold on_view_child in Hrun. rewrite Hv in Hrun.
  rewrite znth_app, Z.ltb_irrefl, Z.sub_diag in Hrun by apply zlen_nonneg.
  change (znth (?x :: ?l) 0) with (Some x) in Hrun. cbv iota beta in Hrun.
  specialize (Hm a). unfold returns in Hm. destruct (m (a, c)) as [y [a' c']|e [a' c']|]; [|done..].
  injection Hrun as <- <-. exists c'. split; [exact (Hm y _ eq_refl)|]. cbn [snd]. unfold zlen.
  rewrite Nat2Z.id. replace (length pre) with (length pre + 0)%nat at 1 by lia. by rewrite insert_app_r.
Qed.

Lemma init_list_returns init nc l : ∀ i a v pre post,
  Forall (pointee (λ s, ∀ a v, returns (init s) (a, v) (λ _ p, shaped s p.2))) l →
  view_children v = Some (pre ++ post) → zlen pre = i → 0 <= i → zlen post = 0 `max` (nc - i) →
  Forall (λ c, is_Some c) post →
  returns (init_list init nc l i) (a, v)
    (λ _ p, ∃ post', p.2 = set_view_children (view_n_children v) (Some (pre ++ post')) v ∧
       zlen post' = zlen post ∧ Forall2 shaped_child (take (Z.to_nat (nc - i)) l) post').
Proof.
  assert (∀ v pre, view_children v = Some pre → v = set_view_children (view_n_children v) (Some pre) v) as Hsame
    by (intros [] ? Hv'; cbn in *; by rewrite Hv').
  induction l as [|s l IH]; intros i a v pre post Hinit Hv Hpre Hi Hpost Hsome.
  - cbn [init_list]. destruct (Z.ltb_spec i nc); [by intros ? ?|]. apply returns_ret.
    destruct post; [|rewrite zlen_cons in Hpost; pose proof (zlen_nonneg post); lia].
    exists []. rewrite take_nil. split; [by apply Hsame|]. split; [done|constructor].
  - cbn [init_list]. destruct (Z.ltb_spec i nc) as [Hlt|Hge].
    + destruct s as [s|]; [|by intros ? ?]. apply list.Forall_cons in Hinit as [Hs Hinit]. cbn [pointee] in Hs.
      destruct post as [|[c|] post]; [rewrite zlen_nil in Hpost; lia| |].
      2:{ apply list.Forall_cons in Hsome as [[? [=]] _]. }
      apply list.Forall_cons in Hsome as [_ Hsome]. rewrite zlen_cons in Hpost. apply returns_bind.
      eapply returns_mono; [by eapply (returns_view_child i (init s) a v c pre post (shaped s))|].
      intros [] [a1 v1] (c' & Hc' & Hv1). cbn [snd] in Hv1. subst v1. eapply returns_mono.
      * apply (IH (i + 1) a1 _ (pre ++ [Some c']) post); try done.
        -- cbn. by rewrite <-app_assoc.
        -- rewrite zlen_app. change (zlen [Some c']) with 1. lia.
        -- lia.
        -- lia.
      * intros [] p (post' & Hp & Hlen & Hall). exists (Some c' :: post'). rewrite !zlen_cons, Hlen.
        rewrite Hp. split; [cbn; by rewrite <-app_assoc|]. split; [done|].
        replace (Z.to_nat (nc - i)) with (S (Z.to_nat (nc - (i + 1)))) by lia. cbn [take].
        constructor; [by exists s, c'|done].
    + apply returns_ret. destruct post; [|rewrite zlen_cons in Hpost; pose proof (zlen_nonneg post); lia].
      exists []. replace (Z.to_nat (nc - i)) with 0%nat by lia. split; [by apply Hsame|]. split; [done|constructor].
Qed.
Lemma allocate_view_children_returns n a v :
  returns (ArrowArrayViewAllocateChildren n) (a, v)
    (λ _ p, ∃ cs, n * sizeof_pointer <= INT64_MAX ∧ p.2 = set_view_children n (Some cs) v ∧
       zlen cs = 0 `max` n ∧ Forall (λ c, is_Some c) cs).
Proof.
  unfold ArrowArrayViewAllocateChildren. apply returns_bind. intros c s' [= <- <-]. cbn.
  destruct (view_children v); [by intros ? ?|]. apply returns_malloc; intros a'; [|by intros ? ?].
  destruct (Z.ltb_spec INT64_MAX (n * sizeof_pointer)); [by intros ? ?|]. apply returns_bind, returns_ret, returns_bind, returns_modify.
  eapply returns_mono; [apply (returns_for (λ l p, ∃ cs, p.2 = set_view_children n (Some cs) v ∧
    length cs = Z.to_nat n ∧ ∀ i, (i < length l)%nat → ∀ c, cs !! i = Some c → is_Some c))|].
  - eexists. split; [done|]. split; [apply length_replicate|]. intros i Hi. cbn in Hi. lia.
  - intros pre i post [a1 v1] Hsplit (cs & Hv1 & Hlen & Hall). cbn [snd] in Hv1. subst v1.
    apply returns_malloc; intros a2; [|by intros ? ?]. apply returns_modify. cbn [snd]. eexists. split; [done|].
    apply zseq_split in Hsplit as (Hi & Hlt & _). split; [by rewrite length_insert|].
    intros j Hj c. rewrite length_app in Hj. cbn in Hj. destruct (decide (j = Z.to_nat i)) as [->|Hne].
    + rewrite list_lookup_insert_eq by (unfold zlen in *; lia). intros [= <-]. by eexists.
    + rewrite list_lookup_insert_ne by done. apply Hall. unfold zlen in *. lia.
  - intros [] p (cs & Hp & Hlen & Hall). exists cs. split; [done|]. split; [done|]. split; [unfold zlen; lia|].
    apply Forall_lookup. intros i c Hi. apply (Hall i); [|done]. apply lookup_lt_Some in Hi.
    unfold zseq. rewrite length_fmap, length_seq. lia.
Qed.

Lemma returns_view_dictionary (m : M (mstate * ArrowArrayView) unit) a v (P : ArrowArrayView → Prop) :
  (∀ a c, returns m (a, c) (λ _ p, P p.2)) →
  returns (on_view_dictionary m) (a, v) (λ _ p, ∃ c, P c ∧ p.2 = set_view_dictionary (Some c) v).
Proof.
  intros Hm x s' Hrun. unfold on_view_dictionary in Hrun. destruct (view_dictionary v) as [c|]; [|done].
  specialize (Hm a c). unfold returns in Hm. destruct (m (a, c)) as [y [a' c']|e [a' c']|]; [|done..].
  injection Hrun as <- <-. exists c'. split; [exact (Hm y _ eq_refl)|done].
Qed.
(** The view after its children and its dictionary were made. *)
Definition filled (nc : Z) (ch : option (list (option ArrowSchema))) (v : ArrowArrayView) : Prop :=
  ∃ cs, type_layout (view_storage_type v) (view_layout v) ∧ length (buffer_views v) = 3%nat ∧
    nc * sizeof_pointer <= INT64_MAX ∧ view_n_children v = nc ∧ view_children v = Some cs ∧ zlen cs = 0 `max` nc ∧
    Forall2 shaped_child (take (Z.to_nat nc) (default [] ch)) cs ∧
    (∀ c, view_dictionary v = Some c → view_wf c).
Lemma filled_shaped f n m fl nc ch d v :
  filled nc ch v → shaped (SchemaLive (MkMembers f n m fl nc ch d)) v.
Proof.
  intros (cs & Hlay & Hviews & Hsmall & Hnc & Hch & Hlen & Hall & Hd). destruct v as [o l k st lay b nc' ch' d' mp]. cbn in *. subst.
  assert (Forall (λ c, ∃ v, c = Some v ∧ view_wf v) cs) as Hwf.
  { clear -Hall. induction Hall as [|? ? ? ? (s & v & -> & -> & Hv & _)]; constructor; eauto. }
  split; [by constructor|]. intros k0 Hk Hmax. unfold view_count in *. cbn [nodes_of] in *. rewrite zlen_cons in *.
  rewrite zlen_nodes_below in *. set (below := foldr _ 0 cs) in *.
  assert (0 <= below) as Hpos.
  { unfold below. clear. induction cs as [|[v|] cs IH]; cbn; [done| |lia]. pose proof (view_count_pos v). lia. }
  cbn [ArrowIpcDecoderCountFields]. rewrite i64_small by (unfold INT64_MIN, INT64_MAX in *; lia).
  destruct ch as [ss|].
  - rewrite (count_list_spec nc ss cs 0 (k0 + 1)); [f_equal; fold below; lia|by rewrite Z.sub_0_r|lia|lia|lia|].
    fold below. lia.
  - cbn in Hall. rewrite take_nil in Hall. inversion Hall; subst cs. rewrite zlen_nil in Hlen.
    destruct (Z.ltb_spec 0 nc); [lia|]. done.
Qed.
Lemma init_from_view_filled sv nc ch a v0 init_children init_dictionary :
  type_layout (SchemaView.storage_type sv) (SchemaView.layout sv) →
  (∀ a v pre, view_children v = Some pre → zlen pre = 0 `max` nc → Forall (λ c, is_Some c) pre →
    returns init_children (a, v) (λ _ p, ∃ cs, p.2 = set_view_children (view_n_children v) (Some cs) v ∧
      zlen cs = zlen pre ∧ Forall2 shaped_child (take (Z.to_nat nc) (default [] ch)) cs)) →
  (∀ m, init_dictionary = Some m → ∀ a c, returns m (a, c) (λ _ p, view_wf p.2)) →
  returns (init_from_view sv nc init_children init_dictionary) (a, v0) (λ _ p, filled nc ch p.2).
Proof.
  intros Hlay Hch Hd. unfold init_from_view. apply returns_bind, returns_modify. cbv beta.
  apply returns_bind, returns_on_error, returns_bind.
  eapply returns_mono; [apply allocate_view_children_returns|].
  intros [] [a1 v1] (pre & Hsmall & Hv1 & Hlen & Hsome). cbn [snd] in Hv1. subst v1. apply returns_bind.
  eapply returns_mono; [by apply (Hch a1 _ pre)|]. intros [] [a2 v2] (cs & Hv2 & Hlen2 & Hall). cbn [snd] in Hv2.
  subst v2. set (v2 := set_view_children _ (Some cs) _).
  assert (filled nc ch v2) as Hf2 by (exists cs; do 5 (split; [done|]); split; [lia|]; by split).
  apply (returns_mono _ _ (λ _ p, filled nc ch p.2)).
  - destruct init_dictionary as [m|]; [|by apply returns_ret]. apply returns_bind.
    apply (returns_mono _ _ (λ _ p, p.2 = set_view_dictionary
      (Some (ArrowArrayViewInitFromType NANOARROW_TYPE_UNINITIALIZED)) v2)).
    + unfold ArrowArrayViewAllocateDictionary. apply returns_bind. intros ? ? [= <- <-]. cbn.
      apply returns_malloc; intros a3; [by apply returns_modify|by intros ? ?].
    + intros [] [a3 v3] Hv3. cbn [snd] in Hv3. subst v3.
      eapply returns_mono; [by apply (returns_view_dictionary m _ _ view_wf), Hd|].
      intros [] p (c & Hc & ->). destruct Hf2 as (cs' & ? & ? & ? & ? & ? & ? & ? & _). exists cs'. do 7 (split; [done|]).
      cbn. by intros ? [= <-].
  - intros [] [a4 v4] Hf4. cbn [snd] in Hf4.
    destruct (SchemaView.storage_type sv); try (by apply returns_ret);
      (apply returns_malloc; intros a5; [|by intros ? ?]); apply returns_bind, returns_deref; intros mp _;
      apply returns_modify; exact Hf4.
Qed.
Lemma init_from_schema_shaped schema : ∀ a v,
  returns (ArrowArrayViewInitFromSchema schema) (a, v) (λ _ p, shaped schema p.2).
Proof.
  induction schema as [|f n m fl nc ch d IHch IHd] using ArrowSchema_nested_ind; intros a v; [by intros ? ?|].
  cbn [ArrowArrayViewInitFromSchema]. intros x s' Hrun.
  pose proof (view_init_layout (Some (SchemaLive (MkMembers f n m fl nc ch d))) view_uninit) as Hlay. unfold returns in Hlay.
  destruct (ArrowSchemaViewInit _ _) as [? sv|e ?|]; [|done..]. specialize (Hlay _ _ eq_refl). revert x s' Hrun.
  change (returns (init_from_view sv nc
    (match ch with
     | None => if 0 <? nc then mundef else mret_ tt
     | Some l => init_list ArrowArrayViewInitFromSchema nc l 0
     end) (match d with None => None | Some c => Some (ArrowArrayViewInitFromSchema c) end)) (a, v)
    (λ _ p, shaped (SchemaLive (MkMembers f n m fl nc ch d)) p.2)).
  eapply returns_mono; [apply (init_from_view_filled sv nc ch); [exact Hlay| |]|by intros; apply filled_shaped].
  - intros a1 v1 pre Hv1 Hlen Hsome. destruct ch as [l|].
    + eapply returns_mono; [by apply (init_list_returns _ nc l 0 a1 v1 [] pre); rewrite ?Z.sub_0_r|].
      intros [] p (post & Hp & Hl & Hall). rewrite Z.sub_0_r in Hall. by exists post.
    + destruct (Z.ltb_spec 0 nc); [by intros ? ?|]. apply returns_ret. exists pre.
      destruct pre; [|rewrite zlen_cons in Hlen; pose proof (zlen_nonneg pre); lia].
      split; [destruct v1; cbn in *; by rewrite Hv1|]. split; [done|]. cbn. rewrite take_nil. constructor.
  - intros m0 Hm0 a1 c. destruct d as [c0|]; [|done]. injection Hm0 as <-.
    eapply returns_mono; [apply IHd|]. by intros [] p [? _].
Qed.
End view.

(** ** The array of a view has its nodes *)
(** The three buffers of an array that was just made. *)
Definition fresh_scratch (a : array) : Prop :=
  (λ p, buffer (bitmap p) :: buffers p) <$> array_private a = Some (replicate 3 ArrowBufferInit).
Inductive array_shape : ArrowArrayView → ArrowArray → Prop :=
  | array_shape_intro o l n st lay b nc cs d mp a :
      fresh_scratch a →
      (∀ i c, 0 <= i < nc → znth cs i = Some (Some c) →
        ∃ l arr, array_children a = Some l ∧ znth l i = Some (Some arr) ∧ array_shape c arr) →
      (∀ c, d = Some c → ∃ arr, array_dictionary a = Some arr ∧ array_shape c arr) →
      array_shape (MkArrayView o l n st lay b nc (Some cs) d mp) (ArrayLive a).

Section array.
Context `{!Malloc}.
Implicit Types (s : mstate) (v : ArrowArrayView).
Abbreviation any := (λ (_ : errno) _, True).

Lemma init_from_type_wp st s arr :
  wp (ArrowArrayInitFromType st) (s, arr)
    (λ _ p, ∃ a, p.2 = ArrayLive a ∧ fresh_scratch a ∧ array_children a = None ∧ array_dictionary a = None ∧ array_n_children a = 0) any.
Proof.
  unfold ArrowArrayInitFromType. apply malloc_wp; intros s'; [|done].
  unfold ArrowArraySetStorageType. destruct (storage_n_buffers st) as [n|]; [|done]. cbn.
  eexists. split; [done|]. done.
Qed.
Lemma allocate_array_children_wp n s a :
  array_children a = None → 0 < n → n * sizeof_pointer <= INT64_MAX →
  wp (ArrowArrayAllocateChildren n) (s, ArrayLive a)
    (λ _ p, p.2 = ArrayLive (put_children n (Some (replicate (Z.to_nat n) (Some ArrayReleased))) a)) any.
Proof.
  intros Ha Hn Hmax. unfold ArrowArrayAllocateChildren.
  set (m := let* c := get array_children in _).
  enough (wp m (s, a) (λ _ p, p.2 = put_children n (Some (replicate (Z.to_nat n) (Some ArrayReleased))) a) any) as Hm.
  { unfold wp, live_array in *. destruct (m (s, a)) as [? [s' a']|? [s' a']|]; [|done|done]. cbn in *. by subst. }
  unfold m. apply wp_bind, wp_get. rewrite Ha. destruct (Z.eqb_spec n 0); [lia|].
  apply malloc_wp; intros s1; [|done]. destruct (Z.ltb_spec INT64_MAX (n * sizeof_pointer)); [lia|].
  apply wp_bind, wp_ret, wp_bind, modify_wp, wp_bind. eapply (wp_mono _ _ _ _ any); [apply (wp_for (λ l p, p.2 =
    put_children (array_n_children a) (Some (replicate (length l) (Some ArrayReleased) ++
      replicate (Z.to_nat n - length l) None)) a))| |done].
  - cbn. by rewrite Nat.sub_0_r.
  - intros pre i post [s2 a2] Hsplit Ha2. apply zseq_split in Hsplit as (Hi & Hlt & _). cbn [snd] in Ha2. subst a2.
    apply malloc_wp; intros s3; [|done]. apply modify_wp. cbn. unfold put_children. f_equal. f_equal.
    unfold zlen in Hi. replace (Z.to_nat n - length pre)%nat with (S (Z.to_nat n - (length pre + 1))) by lia.
    replace (Z.to_nat i) with (length (replicate (length pre) (Some ArrayReleased)) + 0)%nat
      by (rewrite length_replicate; lia).
    rewrite insert_app_r, length_app. cbn. by rewrite replicate_add, <-app_assoc.
  - intros [] [s2 a2] Ha2. cbn [snd] in Ha2. subst a2. apply modify_wp. cbn. unfold put_children. cbn.
    do 2 f_equal. assert (length (zseq n) = Z.to_nat n) as -> by (unfold zseq; by rewrite length_fmap, length_seq).
    by rewrite Nat.sub_diag, app_nil_r.
Qed.
Lemma on_array_child_wp i (m : M (mstate * ArrowArray) unit) s a c pre post (P : ArrowArray → Prop) :
  array_children a = Some (pre ++ Some c :: post) → i = zlen pre →
  (∀ s, wp m (s, c) (λ _ p, P p.2) any) →
  wp (on_array_child i m) (s, ArrayLive a)
    (λ _ p, ∃ c', P c' ∧ p.2 = ArrayLive (put_children (array_n_children a) (Some (pre ++ Some c' :: post)) a)) any.
Proof.
  intros Ha -> Hm. unfold wp, on_array_child, live_array. rewrite Ha.
  rewrite znth_app, Z.ltb_irrefl, Z.sub_diag by apply zlen_nonneg.
  change (znth (?x :: ?l) 0) with (Some x). cbv iota beta. specialize (Hm s). unfold wp in Hm.
  destruct (m (s, c)) as [y [s' c']|e [s' c']|]; [|done|done]. exists c'. split; [done|]. cbn [snd]. unfold zlen.
  rewrite Nat2Z.id. replace (length pre) with (length pre + 0)%nat at 1 by lia. by rewrite insert_app_r.
Qed.
(** The loop over the children of the view. *)
Lemma init_view_list_wp init nc cs : ∀ i s a pre post,
  Forall (λ c, ∃ v, c = Some v ∧ ∀ s arr, wp (init v) (s, arr) (λ _ p, array_shape v p.2) any) cs →
  array_children a = Some (pre ++ post) → zlen pre = i → 0 <= i → zlen cs = 0 `max` (nc - i) →
  zlen post = zlen cs → Forall (λ c, is_Some c) post →
  wp (init_view_list init nc cs i) (s, ArrayLive a)
    (λ _ p, ∃ post', p.2 = ArrayLive (put_children (array_n_children a) (Some (pre ++ post')) a) ∧
       Forall2 (λ c arr, ∃ v b, c = Some v ∧ arr = Some b ∧ array_shape v b) cs post') any.
Proof.
  induction cs as [|c cs IH]; intros i s a pre post Hinit Ha Hpre Hi Hlen Hpost Hsome.
  - rewrite zlen_nil in *. cbn [init_view_list]. destruct (Z.ltb_spec i nc); [lia|]. apply wp_ret. exists [].
    destruct post; [|rewrite zlen_cons in Hpost; pose proof (zlen_nonneg post); lia].
    split; [destruct a; cbn in *; by rewrite Ha|constructor].
  - rewrite zlen_cons in *. pose proof (zlen_nonneg cs). cbn [init_view_list].
    destruct (Z.ltb_spec i nc); [|lia]. apply list.Forall_cons in Hinit as [(v & -> & Hv) Hinit].
    destruct post as [|[arr|] post]; [rewrite zlen_nil in Hpost; lia| |].
    2:{ apply list.Forall_cons in Hsome as [[? [=]] _]. }
    apply list.Forall_cons in Hsome as [_ Hsome]. rewrite zlen_cons in Hpost. apply wp_bind.
    eapply wp_mono; [by eapply (on_array_child_wp i (init v) s a arr pre post (array_shape v))| |done].
    intros [] [s1 arr1] (arr' & Harr & Heq). cbn [snd] in Heq. subst arr1. eapply wp_mono.
    + apply (IH (i + 1) s1 _ (pre ++ [Some arr']) post); try done.
      * cbn. by rewrite <-app_assoc.
      * rewrite zlen_app. change (zlen [Some arr']) with 1. lia.
      * lia.
      * lia.
      * lia.
    + intros [] p (post' & Hp & Hall). exists (Some arr' :: post'). rewrite Hp. cbn. rewrite <-app_assoc.
      split; [done|]. constructor; [by exists v, arr'|done].
    + done.
Qed.
Lemma array_from_view_wp v : view_wf v → ∀ s arr,
  wp (ArrowArrayInitFromArrayView v) (s, arr) (λ _ p, array_shape v p.2) any.
Proof.
  induction v as [o l n st lay b nc ch d m IHch IHd] using ArrowArrayView_nested_ind. intros Hwf s arr.
  inversion Hwf as [? ? ? ? ? ? ? cs ? ? _ _ Hmax Hlen Hcs Hd]; subst. cbn [ArrowArrayInitFromArrayView].
  apply wp_bind. eapply wp_mono; [apply init_from_type_wp| |done].
  intros [] [s1 arr1] (a & Heq & Hsc & Ha & Had & Han). cbn [snd] in Heq. subst arr1. apply wp_bind. cbn.
  set (a1 := put_private _ a). apply wp_on_error.
  assert (wp (if 0 <? nc then ArrowArrayAllocateChildren nc ;;; init_view_list ArrowArrayInitFromArrayView nc cs 0
              else mret_ tt) (s1, ArrayLive a1)
    (λ _ p, ∃ a2, p.2 = ArrayLive a2 ∧ fresh_scratch a2 ∧ array_dictionary a2 = None ∧
       ∀ i c, 0 <= i < nc → znth cs i = Some (Some c) →
         ∃ l arr, array_children a2 = Some l ∧ znth l i = Some (Some arr) ∧ array_shape c arr) any) as Hchildren.
  { assert (fresh_scratch a1) as Hsc1 by (unfold fresh_scratch in *; cbn; by destruct (array_private a)).
    destruct (Z.ltb_spec 0 nc); [|apply wp_ret; exists a1; do 3 (split; [done|]); intros; lia].
    apply wp_bind. eapply wp_mono; [by apply allocate_array_children_wp| |done].
    intros [] [s2 arr2] Heq. cbn [snd] in Heq. subst arr2. eapply wp_mono.
    - apply (init_view_list_wp _ nc cs 0 s2 _ [] (replicate (Z.to_nat nc) (Some ArrayReleased))); try done.
      + rewrite Forall_lookup in IHch, Hcs |- *. intros i c Hi. destruct (Hcs i c Hi) as (v & -> & Hv).
        exists v. split; [done|]. intros s3 arr3. by apply (IHch i (Some v) Hi).
      + lia.
      + rewrite zlen_replicate by lia. lia.
      + apply Forall_replicate. by eexists.
    - intros [] p (post & Hp & Hall). eexists. split; [exact Hp|]. do 2 (split; [done|]). intros i c Hi Hc.
      cbn [array_children put_children]. rewrite znth_lookup in Hc by lia.
      destruct (Forall2_lookup_l _ _ _ _ _ Hall Hc) as (arr' & Harr & v & b' & [= <-] & -> & Hsh).
      exists post, b'. split; [done|]. split; [|done]. by rewrite znth_lookup by lia.
    - done. }
  apply wp_bind. eapply wp_mono; [exact Hchildren| |done]. intros [] [s2 arr2] (a2 & Heq & Hsc2 & Hd2 & Hsh).
  cbn [snd] in Heq. subst arr2. destruct d as [c|]; [|apply wp_ret; by constructor].
  specialize (IHd (Hd c eq_refl)). unfold ArrowArrayAllocateDictionary, on_array_dictionary.
  unfold wp, mbind_, live_array, get, mget. cbn [array_dictionary]. rewrite Hd2. cbn. unfold ArrowMalloc.
  destruct (malloc_step _ s2) as [[] s3]; [|done]. cbn. specialize (IHd s3 ArrayReleased). unfold wp in IHd.
  destruct (ArrowArrayInitFromArrayView c (s3, ArrayReleased)) as [? [s4 arr4]|? [s4 arr4]|]; [|done|done].
  constructor; [done|done|]. intros ? [= <-]. by exists arr4.
Qed.
End array.

(** ** Filling the entries *)
Definition fills (path : list Z) (v : ArrowArrayView) (arr : ArrowArray) : Prop :=
  ∀ pre old post nb, zlen old = zlen (nodes_of path v) →
    ArrowIpcDecoderInitFields path v arr (pre ++ old ++ post, zlen pre, nb) =
      Ok tt (pre ++ fields_of nb (nodes_of path v) ++ post, zlen pre + zlen (nodes_of path v),
             nb + buffers_of (nodes_of path v)).

Lemma init_fields_list_spec nc path arr cs : ∀ i pre old post nb,
  Forall (λ c, ∃ v, c = Some v) cs → zlen cs = 0 `max` (nc - i) →
  (∀ k c, i <= k < nc → znth cs (k - i) = Some (Some c) →
    ∃ b, child_pointer arr k = Some b ∧ fills (path ++ [k]) c b) →
  zlen old = zlen (nodes_below nodes_of path cs i) →
  init_fields_list ArrowIpcDecoderInitFields nc path arr cs i (pre ++ old ++ post, zlen pre, nb) =
    Ok tt (pre ++ fields_of nb (nodes_below nodes_of path cs i) ++ post,
           zlen pre + zlen (nodes_below nodes_of path cs i), nb + buffers_of (nodes_below nodes_of path cs i)).
Proof.
  induction cs as [|c cs IH]; intros i pre old post nb Hsome Hlen Hfills Hold.
  - rewrite zlen_nil in Hlen. cbn [init_fields_list nodes_below]. destruct (Z.ltb_spec i nc); [lia|].
    change (zlen (nodes_below nodes_of path [] i)) with 0 in Hold.
    destruct old; [|rewrite zlen_cons in Hold; pose proof (zlen_nonneg old); lia].
    change (zlen (nodes_below nodes_of path [] i)) with 0. cbn. unfold mret_. by rewrite !Z.add_0_r.
  - apply list.Forall_cons in Hsome as [[v ->] Hsome]. rewrite zlen_cons in Hlen. pose proof (zlen_nonneg cs).
    cbn [init_fields_list nodes_below] in *. destruct (Z.ltb_spec i nc); [|lia].
    destruct (Hfills i v) as (b & Hb & Hf); [lia|by rewrite Z.sub_diag|]. rewrite Hb.
    rewrite zlen_app in Hold. set (n1 := nodes_of (path ++ [i]) v) in *. set (n2 := nodes_below nodes_of path cs (i + 1)) in *.
    pose proof (zlen_nonneg n1). pose proof (zlen_nonneg n2).
    rewrite <-(take_drop (Z.to_nat (zlen n1)) old), <-app_assoc.
    unfold mbind_ at 1. cbn [deref mret_]. unfold mbind_.
    rewrite (Hf pre (take (Z.to_nat (zlen n1)) old)) by (rewrite zlen_take; fold n1; lia). fold n1.
    replace (pre ++ fields_of nb n1 ++ drop (Z.to_nat (zlen n1)) old ++ post) with
      ((pre ++ fields_of nb n1) ++ drop (Z.to_nat (zlen n1)) old ++ post) by (by rewrite <-app_assoc).
    replace (zlen pre + zlen n1) with (zlen (pre ++ fields_of nb n1)) by (rewrite zlen_app, zlen_fields_of; lia).
    rewrite IH; [|done|lia| |].
    + fold n2. rewrite fields_of_app, buffers_of_app, !zlen_app, zlen_fields_of, <-!app_assoc.
      by rewrite !Z.add_assoc.
    + intros k c Hk Hc. apply Hfills; [lia|]. destruct (Z.eq_dec (k - i) 0) as [?|Hne]; [lia|].
      rewrite znth_lookup in Hc |- * by lia. replace (Z.to_nat (k - i)) with (S (Z.to_nat (k - (i + 1)))) by lia. done.
    + fold n2. rewrite zlen_drop; lia.
Qed.
Lemma init_fields_spec v : view_wf v → ∀ path arr, array_shape v arr → fills path v arr.
Proof.
  induction v as [o l n st lay b nc ch d m IHch _] using ArrowArrayView_nested_ind. intros Hwf path arr Hsh.
  inversion Hwf as [? ? ? ? ? ? ? cs ? ? _ _ Hmax Hlen Hcs Hd]; subst.
  inversion Hsh as [? ? ? ? ? ? ? ? ? ? a _ Hch _]; subst. intros pre old post nb Hold.
  cbn [nodes_of] in *. rewrite zlen_cons in Hold. set (below := nodes_below nodes_of path cs 0) in *.
  pose proof (zlen_nonneg below). destruct old as [|f old]; [rewrite zlen_nil in Hold; lia|].
  rewrite zlen_cons in Hold. cbn [ArrowIpcDecoderInitFields].
  rewrite zset_in by (rewrite zlen_app; cbn; rewrite zlen_cons, zlen_app; pose proof (zlen_nonneg pre); pose proof (zlen_nonneg old); pose proof (zlen_nonneg post); lia).
  unfold zlen at 1. rewrite Nat2Z.id. replace (length pre) with (length pre + 0)%nat at 1 by lia.
  rewrite insert_app_r. cbn [app insert list_insert].
  replace (pre ++ MkIpcField (Some path) nb :: old ++ post) with
    ((pre ++ [MkIpcField (Some path) nb]) ++ old ++ post) by (by rewrite <-app_assoc).
  replace (zlen pre + 1) with (zlen (pre ++ [MkIpcField (Some path) nb])) by (by rewrite zlen_app).
  rewrite init_fields_list_spec; [| | | |fold below; lia].
  - fold below. cbn [fields_of]. rewrite <-app_assoc, zlen_app. change (zlen [_]) with 1. cbn [app].
    unfold buffers_of. cbn [foldr snd]. rewrite zlen_cons.
    by rewrite !Z.add_assoc.
  - eapply Forall_impl; [|exact Hcs]. intros c (v & -> & _). by exists v.
  - lia.
  - intros k c Hk Hc. rewrite Z.sub_0_r in Hc. destruct (Hch k c Hk Hc) as (l' & arr & Hl' & Harr & Hsub).
    exists arr. cbn [child_pointer]. rewrite Hl'. cbn [mbind option_bind]. rewrite Harr. split; [done|].
    rewrite znth_lookup in Hc by lia. rewrite Forall_lookup in IHch, Hcs.
    destruct (Hcs _ _ Hc) as (v & [= <-] & Hv). by apply (IHch _ _ Hc).
Qed.

(** ** Setting the schema *)
Section set_schema.
Context `{!Malloc}.

(** The view the decoder starts from. *)
Definition fresh_view : ArrowArrayView := ArrowArrayViewInitFromType NANOARROW_TYPE_UNINITIALIZED.
(** What a failing call leaves: the memory of the fields is gone. *)
Definition fields_gone (_ : errno) (q : mstate * ArrowIpcDecoder) : Prop :=
  ∃ p, decoder_private q.2 = Some p ∧ (fields p = FieldsNull ∨ fields p = FieldsFreed).
Lemma on_member_wp {T} (get_ : _ → T) put (m : M (mstate * T) unit) a d p Q E :
  decoder_private d = Some p →
  wp m (a, get_ p) (λ x q, Q x (q.1, set_private (put q.2 p) d)) (λ e q, E e (q.1, set_private (put q.2 p) d)) →
  wp (on_member get_ put m) (a, d) Q E.
Proof.
  intros Hp Hm. unfold wp, on_member in *. rewrite Hp. by destruct (m (a, get_ p)) as [[] []|? []|].
Qed.

Lemma set_schema_wp schema a d p :
  decoder_private d = Some p → fields p ≠ FieldsFreed →
  ArrowArrayViewInitFromSchema schema (a, fresh_view) ≠ UB →
  (∀ a' v, ArrowArrayViewInitFromSchema schema (a, fresh_view) = Ok tt (a', v) →
     view_count v * sizeof_ArrowIpcField <= INT64_MAX) →
  wp (ArrowIpcDecoderSetSchema schema) (a, d)
    (λ _ q, ∃ a' v arr, ArrowArrayViewInitFromSchema schema (a, fresh_view) = Ok tt (a', v) ∧
       view_storage_type v = NANOARROW_TYPE_STRUCT ∧ array_shape v arr ∧
       q.2 = set_private (put_fields (view_count v) (FieldsAt (fields_of 0 (nodes_of [] v)))
         (buffers_of (nodes_of [] v)) (put_scratch arr (put_array_view v p))) d)
    fields_gone.
Proof.
  intros Hp Hfreed Hub Hmax. unfold ArrowIpcDecoderSetSchema. apply wp_bind, wp_get. cbn [id]. rewrite Hp.
  apply wp_bind, wp_ret, wp_bind. unfold free_fields.
  set (freed := match fields p with FieldsNull => FieldsNull | _ => FieldsFreed end).
  assert (freed = FieldsNull ∨ freed = FieldsFreed) as Hgone by (unfold freed; destruct (fields p); auto).
  apply (wp_mono _ _ (λ _ q, q = (a, d)) _ fields_gone); [by destruct (fields p)| |done]. intros [] ? ->.
  apply wp_bind, modify_wp, wp_bind. eapply on_member_wp; [done|]. cbn [array_view put_fields put_scratch put_array_view].
  pose proof (init_from_schema_shaped schema a fresh_view) as Hshape. apply returns_wp in Hshape; [|done].
  unfold wp in Hshape |- *. change (ArrowArrayViewReset (array_view p)) with fresh_view.
  destruct (ArrowArrayViewInitFromSchema schema (a, fresh_view)) as [[] [a1 v]|e [a1 v]|] eqn:Hinit; [| |done].
  2:{ eexists. split; [done|exact Hgone]. }
  destruct Hshape as [Hwf Hcount]. cbn [snd] in Hwf, Hcount. specialize (Hmax a1 v eq_refl).
  pose proof (view_count_pos v).
  apply (wp_bind _ _ (a1, set_private _ d)), wp_get. cbn [id decoder_private set_private]. apply wp_bind, wp_ret, wp_bind.
  eapply on_member_wp; [done|]. eapply wp_mono; [by apply array_from_view_wp| |].
  2:{ intros e [a2 arr] _. eexists. split; [done|exact Hgone]. }
  intros [] [a2 arr] Harr. cbn [snd] in Harr. apply wp_bind, wp_get. cbn [id decoder_private set_private fst snd].
  apply wp_bind, wp_ret, wp_bind. cbn [array_view put_array_view put_scratch put_fields].
  apply wp_check; [intros Hst%bool_decide_eq_true|intros _; eexists; split; [done|exact Hgone]].
  rewrite (Hcount 0) by (unfold sizeof_ArrowIpcField, INT64_MAX in *; lia). apply wp_bind, wp_ret, wp_bind, modify_wp.
  rewrite Z.add_0_l. apply malloc_wp; intros a3.
  2:{ apply wp_bind, modify_wp. eexists. split; [done|by left]. }
  destruct (Z.ltb_spec INT64_MAX (view_count v * sizeof_ArrowIpcField)); [lia|]. apply wp_bind, wp_ret.
  assert (ArrowIpcDecoderInitFields [] v arr (replicate (Z.to_nat (view_count v)) (MkIpcField None 0), 0, 0) =
    Ok tt (fields_of 0 (nodes_of [] v), view_count v, buffers_of (nodes_of [] v))) as Hfill.
  { pose proof (init_fields_spec v Hwf [] arr Harr [] (replicate (Z.to_nat (view_count v)) (MkIpcField None 0)) [] 0) as Hf.
    rewrite !app_nil_r in Hf. apply Hf. rewrite zlen_replicate by lia. done. }
  cbv zeta. cbn [scratch_array put_scratch]. rewrite Hfill. apply modify_wp.
  exists a1, v, arr. split; [done|]. split; [done|]. split; [done|]. done.
Qed.
End set_schema.

(** C31.  When the schema can be viewed, [ArrowIpcDecoderSetSchema] fills the
    memory it allocates for the fields exactly: the count made on the schema is
    the number of nodes of the view, and entry [k] is the [k]-th node depth first,
    with its path and the number of buffers of the nodes before it; the decoder
    expects as many buffers as all nodes have.  On failure the fields are
    gone.  No access leaves the memory, whatever the allocator does. *)
Theorem set_schema_fields (malloc : Malloc) (schema : ArrowSchema) (a : mstate) (d : ArrowIpcDecoder)
    (p : ArrowIpcDecoderPrivate) (Hp : decoder_private d = Some p) (Hfields : fields p ≠ FieldsFreed)
    (Hview : ArrowArrayViewInitFromSchema schema (a, fresh_view) ≠ UB)
    (Hsize : ∀ a' v, ArrowArrayViewInitFromSchema schema (a, fresh_view) = Ok tt (a', v) →
       view_count v * sizeof_ArrowIpcField <= INT64_MAX) :
  wp (ArrowIpcDecoderSetSchema schema) (a, d)
    (λ _ q, ∃ a' v p', ArrowArrayViewInitFromSchema schema (a, fresh_view) = Ok tt (a', v) ∧
       decoder_private q.2 = Some p' ∧ array_view p' = v ∧ array_shape v (scratch_array p') ∧
       n_fields p' = zlen (nodes_of [] v) ∧ ArrowIpcDecoderCountFields schema 0 = Some (n_fields p') ∧
       fields p' = FieldsAt (fields_of 0 (nodes_of [] v)) ∧ batch_n_buffers p' = buffers_of (nodes_of [] v))
    fields_gone.
Proof.
  eapply wp_mono; [by apply set_schema_wp with (p := p)| |done]. intros [] [a2 d2] (a' & v & arr & Hv & Hst & Harr & Heq).
  cbn [snd] in *. exists a', v. eexists. split; [done|]. split; [by rewrite Heq|]. split; [done|]. split; [done|].
  split; [done|]. split; [|done]. cbn [n_fields put_fields].
  destruct (init_from_schema_shaped schema a fresh_view tt _ Hv) as [_ Hcount]. cbn [snd] in Hcount.
  rewrite Hcount; [f_equal; lia|lia|]. specialize (Hsize a' v Hv). unfold sizeof_ArrowIpcField, INT64_MAX in *.
  pose proof (view_count_pos v). lia.
Qed.
(** A struct of an int32 and a list of strings. *)
Definition nested_schema : ArrowSchema :=
  let field f n c := SchemaLive (MkMembers (Some f) (Some n) None 2 (zlen c) (Some (Some <$> c)) None) in
  field "+s"%string ""%string
    [field "i"%string "a"%string []; field "+l"%string "b"%string [field "u"%string "item"%string []]].
Lemma set_schema_fields_witness :
  ∃ s d', @ArrowIpcDecoderSetSchema malloc_budget nested_schema (40%nat, example_decoder) = Ok tt (s, d') ∧
    ∃ p', decoder_private d' = Some p' ∧ n_fields p' = 4 ∧ batch_n_buffers p' = 8 ∧
      fields p' = FieldsAt [MkIpcField (Some []) 0; MkIpcField (Some [0]) 1; MkIpcField (Some [1]) 3;
                            MkIpcField (Some [1; 0]) 5].
Proof.
  pose proof (set_schema_fields malloc_budget nested_schema 40%nat example_decoder
    (default private_zero (decoder_private example_decoder)) eq_refl ltac:(vm_compute; discriminate)
    ltac:(vm_compute; discriminate)
    ltac:(intros s v Hv; vm_compute in Hv; injection Hv as <- <-; apply Z.leb_le; vm_compute; reflexivity)) as Hwp.
  destruct (wp_run _ _ _ _ Hwp) as ([] & [s d'] & Hrun & a' & v & p' & Hv & Hp & _ & _ & Hn & _ & Hf & Hb);
    [vm_compute; reflexivity|].
  exists s, d'. split; [exact Hrun|]. exists p'. split; [exact Hp|]. vm_compute in Hv. injection Hv as <- <-.
  split; [rewrite Hn; vm_compute; reflexivity|]. split; [rewrite Hb; vm_compute; reflexivity|].
  rewrite Hf. vm_compute. reflexivity.
Defined.

(** [ArrowIpcDecoderSetSchema] frees the fields of the schema before without
    clearing the pointer.  When the new schema is rejected the pointer is left
    dangling, and resetting the decoder, or setting another schema, frees the
    memory a second time. *)
Theorem set_schema_double_free :
  match @ArrowIpcDecoderSetSchema malloc_budget nested_schema (100%nat, example_decoder) with
  | Ok _ q =>
      match @ArrowIpcDecoderSetSchema malloc_budget SchemaReleased q with
      | Err e (s, d) =>
          e = EINVAL ∧ ArrowIpcDecoderReset d = UB ∧
          @ArrowIpcDecoderSetSchema malloc_budget nested_schema (s, d) = UB
      | _ => False
      end
  | _ => False
  end.
Proof. vm_compute. repeat split. Qed.
