(* ===== verification/IpcBody.v ===== *)
(** * Record batches (nanoarrow_ipc.c)

    The part of the decoder that makes arrays of a record batch message and its
    body: [ArrowIpcDecoderMakeBuffer] with its two ways to find the bytes of a
    buffer, in memory the caller keeps or in a shared buffer, the conversion of
    the byte order, the walk that sets the view of the decoder and the walk that
    moves or copies the buffers into the array the caller gets.

    A pointer is the memory from there on, so that moving a pointer drops bytes;
    moving it out of its memory is undefined.  The comparison of a scratch buffer
    with a view compares this memory: both are set by the same call.  A scratch
    buffer never overlaps the body. *)

From stdpp Require Import base numbers list option strings gmap.
From S2P Require Import Prelude CInt CString Buffer Bitmap Types Metadata Schema SchemaView ArrayView Array.
From S2P Require Import FlatBuffers Message IpcShared IpcDecoder.
#[local] Open Scope Z_scope.
#[local] Open Scope c_scope.
#[local] Set Warnings "-register-all".

(** ** Sources of buffers *)
Record ArrowIpcBufferSource : Set := MkSource {
  body_offset_bytes : Z;
  buffer_length_bytes : Z;
  source_codec : Z;
  source_data_type : ArrowType;
  source_element_size_bits : Z;
  source_swap_endian : bool;
}.
(** [struct ArrowIpcBufferFactory]: one of the two callbacks with its data. *)
Inductive ArrowIpcBufferFactory : Set :=
  | ArrowIpcBufferFactoryFromView (body : ArrowView)
  | ArrowIpcBufferFactoryFromShared (shared : ArrowBuffer).

(** [p + n] *)
Definition move_pointer (p : option (list Z)) (n : Z) : option (list Z) :=
  m ← p; if (0 <=? n) && (n <=? zlen m) then Some (drop (Z.to_nat n) m) else None.

Section body.
Context `{!Libc}.

(** Operations on a view and a scratch buffer, with the blocks of shared buffers. *)
Abbreviation BM := (M (shared_heap * (ArrowView * ArrowBuffer))).
Definition on_heap {S A} (m : M shared_heap A) : M (shared_heap * S) A := λ '(h, s),
  match m h with
  | Ok x h' => Ok x (h', s)
  | Err e h' => Err e (h', s)
  | UB => UB
  end.
Definition put_view (v : ArrowView) : BM unit := mmod (λ '(h, (_, b)), (h, (v, b))).
Definition put_dst (b : ArrowBuffer) : BM unit := mmod (λ '(h, (v, _)), (h, (v, b))).
Definition get_view : BM ArrowView := mget (λ s, s.2.1).
Definition get_dst : BM ArrowBuffer := mget (λ s, s.2.2).
Definition on_dst {A} (m : M ArrowBuffer A) : BM A :=
  zoom (λ s, s.2.2) (λ b s, (s.1, (s.2.1, b))) m.

Definition ArrowIpcMakeBufferFromView (body : ArrowView) (src : ArrowIpcBufferSource) : BM unit :=
  let* p := deref (move_pointer (view_data body) (body_offset_bytes src)) in
  put_view (MkView (Some p) (buffer_length_bytes src)).
Definition ArrowIpcMakeBufferFromShared (shared : ArrowBuffer) (src : ArrowIpcBufferSource) : BM unit :=
  let* dst := get_dst in
  let* dst := on_heap (reset_buffer dst) in
  let* dst := on_heap (ArrowIpcSharedBufferClone shared) in
  let* p := deref (move_pointer (data dst) (body_offset_bytes src)) in
  put_dst (MkBuffer (Some p) (buffer_length_bytes src) (capacity_bytes dst) (allocator dst)) ;;;
  put_view (MkView (Some p) (buffer_length_bytes src)).
Definition make_buffer (f : ArrowIpcBufferFactory) : ArrowIpcBufferSource → BM unit :=
  match f with
  | ArrowIpcBufferFactoryFromView body => ArrowIpcMakeBufferFromView body
  | ArrowIpcBufferFactoryFromShared shared => ArrowIpcMakeBufferFromShared shared
  end.

(** ** Byte order *)

(** [bswap16], [bswap32] and [bswap64] on the bytes of a word. *)
Definition bswap (word : list Z) : list Z := rev word.
(** The words of 8 bytes of a decimal: each is swapped, and their order too. *)
Fixpoint words_of (n : nat) (l : list Z) : list (list Z) :=
  match n with O => [] | S n' => take 8 l :: words_of n' (drop 8 l) end.
Definition swap_decimal (n_words : Z) (item : list Z) : list Z :=
  concat (rev (bswap <$> words_of (Z.to_nat n_words) item)).
(** [struct ArrowIpcIntervalMonthDayNano] *)
Definition swap_month_day_nano (item : list Z) : list Z :=
  bswap (take 4 item) ++ bswap (take 4 (drop 4 item)) ++ bswap (drop 8 item).

(** [for (i = 0; i < n; i++) dst[i] = f(src[i])] on items of [width] bytes. *)
Fixpoint swap_items (f : list Z → list Z) (width : Z) (src : list Z) (idx : list Z) (dst : list Z) :
    option (list Z) :=
  match idx with
  | [] => Some dst
  | i :: idx' =>
      item ← zslice src (width * i) width;
      dst' ← zwrite dst (width * i) (f item);
      swap_items f width src idx' dst'
  end.
(** The number and the width of the items, and what is done to each. *)
Definition swap_plan (type : ArrowType) (bits size : Z) : option ((list Z → list Z) * Z * Z) :=
  match type with
  | NANOARROW_TYPE_DECIMAL128 | NANOARROW_TYPE_DECIMAL256 =>
      let n_words := Z.quot bits 64 in
      Some (swap_decimal n_words, 8 * n_words, Z.quot (Z.quot size n_words) 8)
  | NANOARROW_TYPE_INTERVAL_DAY_TIME => Some (bswap, 4, Z.quot size 4)
  | NANOARROW_TYPE_INTERVAL_MONTH_DAY_NANO => Some (swap_month_day_nano, 16, Z.quot size 16)
  | _ =>
      match bits with
      | 16 => Some (bswap, 2, Z.quot size 2)
      | 32 => Some (bswap, 4, Z.quot size 4)
      | 64 => Some (bswap, 8, Z.quot size 8)
      | _ => None
      end
  end.
Definition no_swap (type : ArrowType) : bool :=
  match type with
  | NANOARROW_TYPE_BOOL | NANOARROW_TYPE_INT8 | NANOARROW_TYPE_UINT8 | NANOARROW_TYPE_STRING
  | NANOARROW_TYPE_BINARY => true
  | _ => false
  end.
(** [tmp] is lost when there is no memory or the width is not supported. *)
Definition ArrowIpcDecoderSwapEndian (src : ArrowIpcBufferSource) : BM unit :=
  if no_swap (source_data_type src) then mret_ tt
  else
    let* dst := get_dst in
    let* tmp :=
      match private_data (allocator dst) with
      | Some _ => put_dst ArrowBufferInit ;;; mret_ (ArrowBufferMove dst).1
      | None => mret_ ArrowBufferInit
      end in
    let* out_view := get_view in
    let* dst := get_dst in
    (if size_bytes dst =? 0 then
       on_dst (ArrowBufferReserve (view_size out_view)) ;;; on_dst (set_size_bytes (view_size out_view))
     else mret_ tt) ;;;
    let* dst := get_dst in
    match swap_plan (source_data_type src) (source_element_size_bits src) (size_bytes dst) with
    | None => mfail ENOTSUP
    | Some (f, width, n) =>
        (* size / n_words / 8, and uint64_t words[4] *)
        (if (0 <? width) && (width <=? 32) then mret_ tt else mundef) ;;;
        (if n <=? 0 then mret_ tt
         else
           let* s := deref (view_data out_view) in
           on_dst (upd_data (swap_items f width s (zseq n)))) ;;;
        on_heap (reset_buffer tmp) ;;;
        let* dst := get_dst in
        put_view (MkView (data dst) (view_size out_view))
    end.

(** ** One buffer *)
Definition ArrowIpcDecoderMakeBuffer (factory : ArrowIpcBufferFactory) (body_size_bytes : Z)
    (src : ArrowIpcBufferSource) (offset length : Z) : BM unit :=
  put_view (MkView None 0) ;;;
  if length =? 0 then mret_ tt
  else
    let buffer_start := offset in
    let buffer_end := i64 (buffer_start + length) in
    check (negb ((buffer_start <? 0) || (body_size_bytes <? buffer_end))) EINVAL ;;;
    check (source_codec src =? NANOARROW_IPC_COMPRESSION_TYPE_NONE) ENOTSUP ;;;
    let src := MkSource offset length (source_codec src) (source_data_type src)
                 (source_element_size_bits src) (source_swap_endian src) in
    make_buffer factory src ;;;
    if source_swap_endian src then ArrowIpcDecoderSwapEndian src else mret_ tt.
End body.

(** ** The view of a record batch *)
Record ArrowIpcArraySetter : Set := MkSetter {
  setter_message : list Z;
  setter_fields : loc;
  setter_buffers : loc;
  setter_body_size : Z;
  setter_codec : Z;
  setter_swap : bool;
  setter_factory : ArrowIpcBufferFactory;
}.
(** What a walk moves along: the blocks, [field_i] and [buffer_i]. *)
Record cursor : Set := MkCursor { cursor_heap : shared_heap; field_i : Z; buffer_i : Z }.
(** At one node: the cursor with the node of the view and of the array. *)
Record walk_state : Set := MkWalk { walk_cursor : cursor; walk_view : ArrowArrayView; walk_array : array }.

Section walk.
Context `{!Libc}.
Variable setter : ArrowIpcArraySetter.
Abbreviation buf := (setter_message setter).

(** Run on view [i] and on the buffer [ArrowArrayBuffer(array, i)]. *)
Definition on_slot (i : Z) (m : M (shared_heap * (ArrowView * ArrowBuffer)) unit) : M walk_state unit := λ w,
  match znth (buffer_views (walk_view w)) i, ArrowArrayBuffer i (mget id) (walk_array w) with
  | Some v, Ok b _ =>
      let put h v' b' :=
        match ArrowArrayBuffer i (mmod (λ _, b')) (walk_array w) with
        | Ok _ a' => Some (MkWalk (MkCursor h (field_i (walk_cursor w)) (buffer_i (walk_cursor w)))
                             (set_buffer_views (<[Z.to_nat i := v']> (buffer_views (walk_view w))) (walk_view w)) a')
        | _ => None
        end in
      match m (cursor_heap (walk_cursor w), (v, b)) with
      | Ok x (h, (v', b')) => match put h v' b' with Some w' => Ok x w' | None => UB end
      | Err e (h, (v', b')) => match put h v' b' with Some w' => Err e w' | None => UB end
      | UB => UB
      end
  | _, _ => UB
  end.
Definition next_field : M walk_state unit :=
  mmod (λ w, MkWalk (MkCursor (cursor_heap (walk_cursor w)) (field_i (walk_cursor w) + 1) (buffer_i (walk_cursor w)))
               (walk_view w) (walk_array w)).
Definition next_buffer : M walk_state unit :=
  mmod (λ w, MkWalk (MkCursor (cursor_heap (walk_cursor w)) (field_i (walk_cursor w)) (buffer_i (walk_cursor w) + 1))
               (walk_view w) (walk_array w)).
(** The scratch buffer is reset when it wraps a custom allocator, and emptied
    otherwise. *)
Definition reuse_scratch : M (shared_heap * (ArrowView * ArrowBuffer)) unit :=
  let* dst := get_dst in
  match private_data (allocator dst) with
  | Some _ => let* dst := on_heap (reset_buffer dst) in put_dst dst
  | None => on_dst (set_size_bytes 0)
  end.
Definition set_slot (i : Z) : M walk_state unit :=
  let* v := mget walk_view in
  let* k := mget (λ w, buffer_i (walk_cursor w)) in
  let* buffer := deref (Buffer_vec_at (setter_buffers setter) k) in
  let* offset := deref (Buffer_offset buf buffer) in
  let* length := deref (Buffer_length buf buffer) in
  next_buffer ;;;
  let* type := deref (znth (buffer_data_type (view_layout v)) i) in
  let* bits := deref (znth (element_size_bits (view_layout v)) i) in
  on_slot i (
    reuse_scratch ;;;
    ArrowIpcDecoderMakeBuffer (setter_factory setter) (setter_body_size setter)
      (MkSource 0 0 (setter_codec setter) type bits (setter_swap setter)) offset length).
(** The loop over the three buffers ends at the first that is not there. *)
Fixpoint set_slots (idx : list Z) : M walk_state unit :=
  match idx with
  | [] => mret_ tt
  | i :: idx' =>
      let* v := mget walk_view in
      let* t := deref (znth (buffer_type (view_layout v)) i) in
      match t with
      | NANOARROW_BUFFER_TYPE_NONE => mret_ tt
      | _ => set_slot i ;;; set_slots idx'
      end
  end.
Definition set_node : M walk_state unit :=
  let* k := mget (λ w, field_i (walk_cursor w)) in
  let* field := deref (FieldNode_vec_at (setter_fields setter) k) in
  let* length := deref (FieldNode_length buf field) in
  let* null_count := deref (FieldNode_null_count buf field) in
  mmod (λ w, MkWalk (walk_cursor w) (set_extent (offset (walk_view w)) length null_count (walk_view w)) (walk_array w)) ;;;
  next_field ;;;
  set_slots (zseq 3).

(** The state of the walk over a tree of views with its tree of arrays. *)
Abbreviation walk_result := (outcome (cursor * (ArrowArrayView * ArrowArray)) unit).
Definition put_array_child (i : Z) (c : ArrowArray) (a : array) : array :=
  put_children (array_n_children a) ((λ l, <[Z.to_nat i := Some c]> l) <$> array_children a) a.
Definition walk_set_list (walk : ArrowArrayView → ArrowArray → cursor → walk_result) (nc : Z) :
    list (option ArrowArrayView) → Z → cursor → array →
    outcome (cursor * (list (option ArrowArrayView) * array)) unit :=
  fix go l i c a :=
    if i <? nc then
      match l with
      | Some v :: l' =>
          match child_pointer (ArrayLive a) i with
          | None => UB
          | Some arr =>
              match walk v arr c with
              | UB => UB
              | Err e (c', (v', arr')) => Err e (c', (Some v' :: l', put_array_child i arr' a))
              | Ok _ (c', (v', arr')) =>
                  match go l' (i + 1) c' (put_array_child i arr' a) with
                  | UB => UB
                  | Err e (c2, (l2, a2)) => Err e (c2, (Some v' :: l2, a2))
                  | Ok _ (c2, (l2, a2)) => Ok tt (c2, (Some v' :: l2, a2))
                  end
              end
          end
      | _ => UB
      end
    else Ok tt (c, (l, a)).
(** The loop over the children of a node whose own buffers were set. *)
Definition walk_set_children (walk : ArrowArrayView → ArrowArray → cursor → walk_result)
    (nc : Z) (ch : option (list (option ArrowArrayView))) (w : walk_state) : walk_result :=
  match ch with
  | None => if 0 <? nc then UB else Ok tt (walk_cursor w, (walk_view w, ArrayLive (walk_array w)))
  | Some l =>
      match walk_set_list walk nc l 0 (walk_cursor w) (walk_array w) with
      | UB => UB
      | Err e (c, (l', a)) => Err e (c, (set_view_children nc (Some l') (walk_view w), ArrayLive a))
      | Ok _ (c, (l', a)) => Ok tt (c, (set_view_children nc (Some l') (walk_view w), ArrayLive a))
      end
  end.
Fixpoint ArrowIpcDecoderWalkSetArrayView (v : ArrowArrayView) (arr : ArrowArray) (c : cursor) : walk_result :=
  match v, arr with
  | MkArrayView _ _ _ _ _ _ nc ch _ _, ArrayLive a =>
      match set_node (MkWalk c v a) with
      | UB => UB
      | Err e w => Err e (walk_cursor w, (walk_view w, ArrayLive (walk_array w)))
      | Ok _ w => walk_set_children ArrowIpcDecoderWalkSetArrayView nc ch w
      end
  | _, ArrayReleased => UB
  end.
End walk.

(** ** The array of the caller *)
Section get.
Context `{!Libc}.
(** Buffer [i]: the scratch buffer is moved if it was used, the view copied
    otherwise. *)
Definition get_slot (view : ArrowArrayView) (i : Z) : M (array * array) unit := λ '(a, out),
  match znth (buffer_views view) i, ArrowArrayBuffer i (mget id) a with
  | Some v, Ok scratch _ =>
      if size_bytes scratch =? 0 then
        match ArrowArrayBuffer i (ArrowBufferAppendBufferView v) out with
        | Ok _ out' => Ok tt (a, out')
        | Err e out' => Err e (a, out')
        | UB => UB
        end
      else if decide (data scratch = view_data v) then
        let '(moved, src) := ArrowBufferMove scratch in
        match ArrowArrayBuffer i (mmod (λ _, src)) a, ArrowArrayBuffer i (mmod (λ _, moved)) out with
        | Ok _ a', Ok _ out' => Ok tt (a', out')
        | _, _ => UB
        end
      else Err EINVAL (a, out)
  | _, _ => UB
  end.
Definition get_node (view : ArrowArrayView) : M (array * array) unit :=
  mmod (λ '(a, out), (a, put_null_count (view_null_count view) (put_length (length view) out))) ;;;
  let* n := mget (λ s, n_buffers s.1) in
  mfor (zseq n) (get_slot view).
Abbreviation get_result := (outcome (ArrowArray * ArrowArray) unit).
(** [array->n_children] bounds the loop. *)
Definition walk_get_list (walk : ArrowArrayView → ArrowArray → ArrowArray → get_result) (nc : Z) :
    list (option ArrowArrayView) → Z → array → array → outcome (array * array) unit :=
  fix go l i a out :=
    if i <? nc then
      match l with
      | Some v :: l' =>
          match child_pointer (ArrayLive a) i, child_pointer (ArrayLive out) i with
          | Some arr, Some o =>
              match walk v arr o with
              | UB => UB
              | Err e (arr', o') => Err e (put_array_child i arr' a, put_array_child i o' out)
              | Ok _ (arr', o') => go l' (i + 1) (put_array_child i arr' a) (put_array_child i o' out)
              end
          | _, _ => UB
          end
      | _ => UB
      end
    else Ok tt (a, out).
Definition both_live (r : outcome (array * array) unit) : get_result :=
  match r with
  | UB => UB
  | Err e (a, out) => Err e (ArrayLive a, ArrayLive out)
  | Ok _ (a, out) => Ok tt (ArrayLive a, ArrayLive out)
  end.
Fixpoint ArrowIpcDecoderWalkGetArray (view : ArrowArrayView) (arr out : ArrowArray) : get_result :=
  match view, arr, out with
  | MkArrayView _ _ _ _ _ _ _ ch _ _, ArrayLive a, ArrayLive o =>
      match get_node view (a, o) with
      | UB => UB
      | Err e s => both_live (Err e s)
      | Ok _ (a', o') =>
          match ch with
          | None => if 0 <? array_n_children a' then UB else both_live (Ok tt (a', o'))
          | Some l => both_live (walk_get_list ArrowIpcDecoderWalkGetArray (array_n_children a') l 0 a' o')
          end
      end
  | _, _, _ => UB
  end.
End get.

(** ** Decoding *)

(** The node a path leads to, in the tree of views and in the tree of arrays. *)
Definition put_view_child (i : Z) (c : ArrowArrayView) (v : ArrowArrayView) : ArrowArrayView :=
  set_view_children (view_n_children v) ((λ l, <[Z.to_nat i := Some c]> l) <$> view_children v) v.
Fixpoint walk_at (path : list Z)
    (f : ArrowArrayView → ArrowArray → cursor → outcome (cursor * (ArrowArrayView * ArrowArray)) unit)
    (v : ArrowArrayView) (arr : ArrowArray) (c : cursor) : outcome (cursor * (ArrowArrayView * ArrowArray)) unit :=
  match path with
  | [] => f v arr c
  | i :: path' =>
      match view_child v i, arr, child_pointer arr i with
      | Some v1, ArrayLive a, Some arr1 =>
          match walk_at path' f v1 arr1 c with
          | UB => UB
          | Err e (c', (v2, arr2)) => Err e (c', (put_view_child i v2 v, ArrayLive (put_array_child i arr2 a)))
          | Ok _ (c', (v2, arr2)) => Ok tt (c', (put_view_child i v2 v, ArrayLive (put_array_child i arr2 a)))
          end
      | _, _, _ => UB
      end
  end.
Fixpoint view_at (path : list Z) (v : ArrowArrayView) : option ArrowArrayView :=
  match path with [] => Some v | i :: path' => c ← view_child v i; view_at path' c end.
Fixpoint put_view_at (path : list Z) (x v : ArrowArrayView) : ArrowArrayView :=
  match path with
  | [] => x
  | i :: path' => match view_child v i with None => v | Some c => put_view_child i (put_view_at path' x c) v end
  end.
Fixpoint array_at (path : list Z) (arr : ArrowArray) : option ArrowArray :=
  match path with [] => Some arr | i :: path' => c ← child_pointer arr i; array_at path' c end.
Fixpoint put_array_at (path : list Z) (x arr : ArrowArray) : ArrowArray :=
  match path, arr with
  | [], _ => x
  | _, ArrayReleased => arr
  | i :: path', ArrayLive a =>
      match child_pointer arr i with
      | None => arr
      | Some c => ArrayLive (put_array_child i (put_array_at path' x c) a)
      end
  end.
(** [private_data->fields + field_i + 1] *)
Definition field_entry (p : ArrowIpcDecoderPrivate) (field_i : Z) : option (list Z * Z) :=
  match fields p with
  | FieldsAt l => f ← znth l (field_i + 1); path ← field_path f; Some (path, IpcDecoder.buffer_offset f)
  | _ => None
  end.

Section decode.
Context `{!Libc}.
(** The root is not in the message: its length is that of the batch, and the
    walk starts with its children. *)
Definition set_root (setter : ArrowIpcArraySetter) (batch : loc) (v : ArrowArrayView) (arr : ArrowArray) (c : cursor) :
    outcome (cursor * (ArrowArrayView * ArrowArray)) unit :=
  match RecordBatch_length (setter_message setter) batch, arr with
  | Some len, ArrayLive a =>
      walk_set_children (ArrowIpcDecoderWalkSetArrayView setter) (view_n_children v) (view_children v)
        (MkWalk c (set_extent (offset v) len 0 v) a)
  | _, _ => UB
  end.
(** The result is the path of the view. *)
Definition ArrowIpcDecoderDecodeArrayViewInternal (factory : ArrowIpcBufferFactory) (i : Z) :
    M (shared_heap * ArrowIpcDecoder) (list Z) := λ '(h, d),
  match decoder_private d with
  | None => UB
  | Some p =>
      match last_message p with
      | None => Err EINVAL (h, d)
      | Some (m, batch) =>
          if message_type d =? NANOARROW_IPC_MESSAGE_TYPE_RECORD_BATCH then
            match field_entry p i, RecordBatch_nodes m (Some batch), RecordBatch_buffers m (Some batch) with
            | Some (path, n), Some nodes, Some buffers =>
                let setter := MkSetter m nodes buffers (IpcDecoder.body_size_bytes d) (codec d)
                                (ArrowIpcDecoderNeedsSwapEndian p) factory in
                let walk :=
                  if i =? -1 then
                    walk_at path (set_root setter (Some batch)) (array_view p) (scratch_array p) (MkCursor h 0 n)
                  else
                    walk_at path (ArrowIpcDecoderWalkSetArrayView setter) (array_view p) (scratch_array p)
                      (MkCursor h i (n - 1)) in
                let put c v arr := (cursor_heap c, set_private (put_scratch arr (put_array_view v p)) d) in
                match walk with
                | UB => UB
                | Err e (c, (v, arr)) => Err e (put c v arr)
                | Ok _ (c, (v, arr)) => Ok path (put c v arr)
                end
            | _, _, _ => UB
            end
          else Err EINVAL (h, d)
      end
  end.
Definition ArrowIpcDecoderDecodeArrayView (body : ArrowView) (i : Z) : M (shared_heap * ArrowIpcDecoder) (list Z) :=
  ArrowIpcDecoderDecodeArrayViewInternal (ArrowIpcBufferFactoryFromView body) i.

Context `{!Malloc}.
(** [out] is made from the view of the field, then filled; the result of the
    walk is put back into the scratch array of the decoder. *)
Definition fill_out (i : Z) (view : ArrowArrayView) (arr out : ArrowArray) : outcome (ArrowArray * ArrowArray) unit :=
  if i =? -1 then
    match arr, out with
    | ArrayLive a, ArrayLive o =>
        let o := put_null_count (view_null_count view) (put_length (length view) o) in
        match view_children view with
        | None => if 0 <? view_n_children view then UB else Ok tt (arr, ArrayLive o)
        | Some l => both_live (walk_get_list ArrowIpcDecoderWalkGetArray (view_n_children view) l 0 a o)
        end
    | _, _ => UB
    end
  else ArrowIpcDecoderWalkGetArray view arr out.
Definition ArrowIpcDecoderDecodeArrayInternal (i : Z) (level : ArrowValidationLevel) :
    M (mstate * (ArrowIpcDecoder * ArrowArray)) unit := λ '(s, (d, out)),
  match decoder_private d with
  | None => UB
  | Some p =>
      match (e ← field_entry p i; v ← view_at e.1 (array_view p); a ← array_at e.1 (scratch_array p); Some (e.1, v, a)) with
      | None => UB
      | Some (path, view, arr) =>
          match ArrowArrayInitFromArrayView view (s, out) with
          | UB => UB
          | Err e (s1, out1) => Err e (s1, (d, out1))
          | Ok _ (s1, out1) =>
              let put arr' := set_private (put_scratch (put_array_at path arr' (scratch_array p)) p) d in
              match fill_out i view arr out1 with
              | UB => UB
              | Err e (arr', out2) => Err e (s1, (put arr', out2))
              | Ok _ (arr', out2) =>
                  let level' :=
                    match level with
                    | NANOARROW_VALIDATION_LEVEL_DEFAULT | NANOARROW_VALIDATION_LEVEL_FULL =>
                        NANOARROW_VALIDATION_LEVEL_DEFAULT
                    | _ => NANOARROW_VALIDATION_LEVEL_NONE
                    end in
                  match ArrowArrayFinishBuilding level' (s1, out2) with
                  | UB => UB
                  | Err e (s2, out3) => Err e (s2, (put arr', out3))
                  | Ok _ (s2, out3) => Ok tt (s2, (put arr', out3))
                  end
              end
          end
      end
  end.
(** The common part of the two functions; the state is the allocator, the
    blocks, the decoder and [*out].  An error is only returned when there is
    nothing to release. *)
Definition decode_array (factory : ArrowIpcBufferFactory) (i : Z) (level : ArrowValidationLevel) :
    M (mstate * (shared_heap * (ArrowIpcDecoder * ArrowArray))) unit := λ '(s, (h, (d, out))),
  match ArrowIpcDecoderDecodeArrayViewInternal factory i (h, d) with
  | UB => UB
  | Err e (h1, d1) => Err e (s, (h1, (d1, out)))
  | Ok path (h1, d1) =>
      match (p ← decoder_private d1; v ← view_at path (array_view p); Some (p, v)) with
      | None => UB
      | Some (p, v) =>
          let put v' := set_private (put_array_view (put_view_at path v' (array_view p)) p) d1 in
          match ArrowArrayViewValidate level v with
          | UB => UB
          | Err e v' => Err e (s, (h1, (put v', out)))
          | Ok _ v' =>
              match ArrowIpcDecoderDecodeArrayInternal i level (s, (put v', ArrayReleased)) with
              | UB => UB
              | Err e (s2, (d2, ArrayReleased)) => Err e (s2, (h1, (d2, out)))
              | Err _ (s2, (d2, _)) => Ok tt (s2, (h1, (d2, ArrayReleased)))
              | Ok _ (s2, (d2, temp)) => Ok tt (s2, (h1, (d2, temp)))
              end
          end
      end
  end.
Definition ArrowIpcDecoderDecodeArray (body : ArrowView) := decode_array (ArrowIpcBufferFactoryFromView body).
Definition ArrowIpcDecoderDecodeArrayFromShared (body : ArrowBuffer) := decode_array (ArrowIpcBufferFactoryFromShared body).
End decode.
