(* ===== verification/IpcSwap.v ===== *)
(** * The buffers of a record batch (nanoarrow_ipc.c)

    What [ArrowIpcDecoderSwapEndian] and [ArrowIpcDecoderMakeBuffer] of [IpcBody]
    do when the body is in memory the caller keeps: the bytes of the buffer are
    those of the body, each item with its bytes reversed when the byte order of
    the batch is not that of the system. *)

From stdpp Require Import base numbers list option strings gmap.
From S2P Require Import Prelude CInt CString Buffer Bitmap Types IpcShared IpcDecoder IpcBody.
#[local] Open Scope Z_scope.
#[local] Open Scope c_scope.
#[local] Set Warnings "-register-all".

(** ** Items *)
Definition item (width i : Z) (l : list Z) : list Z := take (Z.to_nat width) (drop (Z.to_nat (width * i)) l).
(** [f] on each of the first [n] items. *)
Definition swapped (f : list Z → list Z) (width n : Z) (l : list Z) : list Z :=
  concat ((λ i, f (item width i l)) <$> zseq n).
(** What a plan does to an item: as many bytes, and twice is nothing. *)
Record item_map (f : list Z → list Z) (width : Z) : Prop := {
  item_map_zlen l : zlen l = width → zlen (f l) = width;
  item_map_twice l : zlen l = width → f (f l) = l;
  item_map_bytes l : zlen l = width → bytes_ok l → bytes_ok (f l);
}.

Lemma zlen_item width i n l : 0 < width → 0 <= i < n → width * n <= zlen l → zlen (item width i l) = width.
Proof.
  intros Hw Hi Hl. unfold item. assert (width * i + width <= width * n) by nia.
  rewrite zlen_take; [done|]. rewrite zlen_drop; nia.
Qed.
Lemma swapped_succ f width n l : 0 <= n → swapped f width (n + 1) l = swapped f width n l ++ f (item width n l).
Proof.
  intros Hn. unfold swapped. rewrite zseq_succ, fmap_app, concat_app by done. simpl. by rewrite app_nil_r.
Qed.
Lemma zlen_swapped f width n l :
  item_map f width → 0 < width → 0 <= n → width * n <= zlen l → zlen (swapped f width n l) = width * n.
Proof.
  intros Hf Hw Hn. revert n Hn. refine (natlike_ind _ _ _); [intros _; by rewrite Z.mul_0_r|].
  intros n Hn IH Hl. rewrite <-Z.add_1_r, swapped_succ by done. rewrite zlen_app, IH by nia.
  rewrite (item_map_zlen _ _ Hf); [nia|]. apply (zlen_item width n (n + 1)); nia.
Qed.
(** The items of what was swapped. *)
Lemma item_swapped f width n l i :
  item_map f width → 0 < width → 0 <= i < n → width * n <= zlen l →
  item width i (swapped f width n l) = f (item width i l).
Proof.
  intros Hf Hw Hi. assert (0 <= n) as Hn by lia. revert n Hn Hi. refine (natlike_ind _ _ _); [lia|].
  intros n Hn IH Hi Hl. rewrite <-Z.add_1_r, swapped_succ by done. unfold item at 1.
  assert (width * n <= zlen l) as Hl' by nia.
  pose proof (zlen_swapped f width n l Hf Hw Hn Hl') as Hlen. unfold zlen in Hlen.
  assert (width * i + width <= width * (n + 1)) by nia.
  assert (zlen (item width n l) = width) as Hitem by (apply (zlen_item width n (n + 1)); nia).
  apply (item_map_zlen _ _ Hf) in Hitem. unfold zlen in Hitem.
  destruct (Z.eq_dec i n) as [->|Hne].
  - rewrite drop_app_ge by lia. replace (Z.to_nat (width * n) - length (swapped f width n l))%nat with 0%nat by lia.
    rewrite drop_0. apply take_ge. lia.
  - rewrite drop_app_le by nia. rewrite take_app_le by (rewrite length_drop; nia). apply IH; lia.
Qed.
(** Twice gives back the whole items. *)
Lemma swapped_twice f width n l :
  item_map f width → 0 < width → 0 <= n → width * n <= zlen l →
  swapped f width n (swapped f width n l) = take (Z.to_nat (width * n)) l.
Proof.
  intros Hf Hw Hn Hl.
  assert (swapped f width n (swapped f width n l) = concat ((λ i, item width i l) <$> zseq n)) as ->.
  { unfold swapped at 1. f_equal. apply list_fmap_ext. intros k i Hi.
    apply list_elem_of_lookup_2, elem_of_zseq in Hi. rewrite (item_swapped f width n l i) by done.
    apply (item_map_twice _ _ Hf). by apply (zlen_item width i n). }
  clear Hf. revert n Hn Hl. refine (natlike_ind _ _ _); [intros _; by rewrite Z.mul_0_r|].
  intros n Hn IH Hl. rewrite <-Z.add_1_r, zseq_succ, fmap_app, concat_app, IH by nia. simpl. rewrite app_nil_r.
  unfold item. replace (Z.to_nat (width * (n + 1))) with (Z.to_nat (width * n) + Z.to_nat width)%nat by nia.
  apply take_take_drop.
Qed.

(** ** The plans *)
Lemma words_of_concat n : ∀ l, length l = (8 * n)%nat → concat (words_of n l) = l.
Proof.
  induction n as [|n IH]; intros l Hl; [by destruct l|]. cbn [words_of concat].
  rewrite IH by (rewrite length_drop; lia). apply take_drop.
Qed.
(** Swapping the bytes of each word and the order of the words reverses the bytes. *)
Lemma swap_decimal_rev n item : 0 <= n → zlen item = 8 * n → swap_decimal n item = rev item.
Proof.
  intros Hn Hl. unfold zlen in Hl. rewrite <-(words_of_concat (Z.to_nat n) item) at 2 by lia.
  unfold swap_decimal, bswap. induction (words_of (Z.to_nat n) item) as [|w ws IH]; [done|].
  cbn. rewrite concat_app, IH, rev_app_distr. cbn. by rewrite app_nil_r.
Qed.
Lemma bswap_map width : item_map bswap width.
Proof.
  split; intros l Hl; unfold bswap; [unfold zlen; by rewrite length_rev|apply rev_involutive|apply Forall_rev].
Qed.
Lemma decimal_map n : 0 <= n → item_map (swap_decimal n) (8 * n).
Proof.
  intros Hn. split; intros l Hl.
  - rewrite swap_decimal_rev by done. unfold zlen. by rewrite length_rev.
  - rewrite (swap_decimal_rev n l) by done. rewrite swap_decimal_rev; [apply rev_involutive|done|].
    unfold zlen in *. by rewrite length_rev.
  - rewrite swap_decimal_rev by done. apply Forall_rev.
Qed.
Lemma month_day_nano_parts a b c :
  length a = 4%nat → length b = 4%nat → length c = 8%nat →
  swap_month_day_nano (a ++ b ++ c) = rev a ++ rev b ++ rev c.
Proof.
  intros Ha Hb Hc. unfold swap_month_day_nano, bswap. change 8%nat with (4 + 4)%nat.
  rewrite <-drop_drop.
  by rewrite !(take_app_length' a), !(drop_app_length' a), (take_app_length' b), (drop_app_length' b).
Qed.
Lemma month_day_nano_map : item_map swap_month_day_nano 16.
Proof.
  assert (∀ l : list Z, zlen l = 16 → ∃ a b c, l = a ++ b ++ c ∧ length a = 4%nat ∧ length b = 4%nat ∧ length c = 8%nat) as Hsplit.
  { intros l Hl. unfold zlen in Hl. exists (take 4 l), (take 4 (drop 4 l)), (drop 4 (drop 4 l)).
    rewrite !length_take, !length_drop. split; [by rewrite !take_drop|lia]. }
  split; intros l Hl; destruct (Hsplit l Hl) as (a & b & c & -> & Ha & Hb & Hc);
    rewrite (month_day_nano_parts a b c) by done.
  - unfold zlen. rewrite !length_app, !length_rev. lia.
  - rewrite month_day_nano_parts by (by rewrite length_rev). by rewrite !rev_involutive.
  - unfold bytes_ok. rewrite !Forall_app. intros (? & ? & ?). split_and!; by apply Forall_rev.
Qed.
Lemma swap_plan_map type bits size f width n :
  swap_plan type bits size = Some (f, width, n) → 0 < width → 0 <= size →
  item_map f width ∧ n = size `quot` width ∧ 0 <= n ∧ width * n <= size.
Proof.
  intros Hplan Hw Hs.
  assert (item_map f width ∧ n = size `quot` width) as [? ->].
  { unfold swap_plan in Hplan. repeat case_match; simplify_eq;
      (split; [|done || (rewrite Z.quot_quot by lia; f_equal; lia)]);
      try apply bswap_map; try apply month_day_nano_map; apply decimal_map; lia. }
  split; [done|]. split; [done|]. rewrite Z.quot_div_nonneg by lia.
  split; [apply Z.div_pos; lia|apply Z.mul_div_le; lia].
Qed.

(** ** The loop *)
Lemma item_take width i n k l : 0 < width → 0 <= i < n → width * n <= k → item width i (take (Z.to_nat k) l) = item width i l.
Proof.
  intros Hw Hi Hk. unfold item. rewrite skipn_firstn_comm, take_take, Nat.min_l; [done|].
  assert (width * i + width <= width * n) by nia. lia.
Qed.
Lemma swapped_take f width n k l :
  0 < width → width * n <= k → swapped f width n (take (Z.to_nat k) l) = swapped f width n l.
Proof.
  intros Hw Hk. unfold swapped. f_equal. apply list_fmap_ext. intros j i Hi%list_elem_of_lookup_2.
  apply elem_of_zseq in Hi. f_equal. by apply (item_take width i n).
Qed.
Lemma bytes_ok_swapped f width n l :
  item_map f width → 0 < width → width * n <= zlen l → bytes_ok l → bytes_ok (swapped f width n l).
Proof.
  intros Hf Hw Hn Hl. apply Forall_concat, Forall_fmap, Forall_forall. intros i Hi%list_elem_of_In.
  apply elem_of_zseq in Hi. apply (item_map_bytes _ _ Hf); [by apply (zlen_item width i n)|].
  by apply Forall_take, Forall_drop.
Qed.
Lemma swap_items_spec f width n src dst :
  item_map f width → 0 < width → 0 <= n → width * n <= zlen src → width * n <= zlen dst →
  swap_items f width src (zseq n) dst = Some (swapped f width n src ++ drop (Z.to_nat (width * n)) dst).
Proof.
  intros Hf Hw Hn Hsrc Hdst.
  enough (∀ post pre, zseq n = pre ++ post →
    swap_items f width src post (swapped f width (zlen pre) src ++ drop (Z.to_nat (width * zlen pre)) dst) =
      Some (swapped f width n src ++ drop (Z.to_nat (width * n)) dst)) as Hgo.
  { specialize (Hgo (zseq n) [] eq_refl). rewrite Z.mul_0_r in Hgo. exact Hgo. }
  induction post as [|i post IH]; intros pre Hpre; cbn [swap_items].
  - rewrite app_nil_r in Hpre. rewrite <-Hpre. by rewrite zlen_zseq.
  - pose proof (zseq_split _ _ _ _ Hpre) as (Hi & Hlt & _). rewrite <-Hi.
    assert (width * i + width <= width * n) by nia.
    rewrite zslice_in by nia. fold (item width i src). cbn [mbind option_bind].
    pose proof (zlen_swapped f width i src Hf Hw ltac:(lia) ltac:(nia)) as Hlen.
    pose proof (zlen_item width i n src Hw Hlt Hsrc) as Hitem. apply (item_map_zlen _ _ Hf) in Hitem.
    rewrite zwrite_in by (rewrite ?zlen_app, ?Hlen, ?zlen_drop; nia). cbn [mbind option_bind].
    rewrite <-(IH (pre ++ [i])) by (by rewrite <-app_assoc). f_equal.
    rewrite zlen_app, <-Hi. change (zlen [i]) with 1. rewrite swapped_succ by lia.
    unfold zlen in Hlen, Hitem. rewrite take_app_length' by lia. rewrite <-app_assoc. f_equal. f_equal.
    assert (0 <= width * i) by nia. rewrite drop_app_ge, drop_drop by lia. f_equal. rewrite Z.mul_add_distr_l. lia.
Qed.

(** ** Swapping a buffer *)
Definition view_bytes (v : ArrowView) : list Z := take (Z.to_nat (view_size v)) (default [] (view_data v)).
(** A view of memory that is there. *)
Definition view_ok (v : ArrowView) : Prop :=
  ∃ s, view_data v = Some s ∧ 0 < view_size v <= zlen s ∧ view_size v <= 2 ^ 60 ∧ bytes_ok s.
(** A scratch buffer of the decoder that is not a shared one. *)
Record scratch_ok (b : ArrowBuffer) : Prop := {
  scratch_private : private_data (allocator b) = None;
  scratch_wf : buffer_wf b;
  scratch_small : capacity_bytes b <= 2 ^ 61;
}.
(** The whole items of a buffer in the other byte order, if that is supported. *)
Definition swap_bytes (type : ArrowType) (bits : Z) (l : list Z) : option (list Z) :=
  if no_swap type then Some l
  else match swap_plan type bits (zlen l) with
       | Some (f, width, n) => Some (swapped f width n l)
       | None => None
       end.

Lemma zlen_view_bytes v : view_ok v → zlen (view_bytes v) = view_size v.
Proof. intros (s & Hs & Hl & _). unfold view_bytes. rewrite Hs. cbn. apply zlen_take. lia. Qed.
Lemma bytes_ok_view_bytes v : view_ok v → bytes_ok (view_bytes v).
Proof. intros (s & Hs & _ & _ & Hb). unfold view_bytes. rewrite Hs. cbn. by apply Forall_take. Qed.
Lemma swap_plan_width type bits size f width n :
  swap_plan type bits size = Some (f, width, n) → decimal_ok type bits → 0 < width <= 32.
Proof.
  intros Hplan Hdec. unfold swap_plan in Hplan.
  assert (type = NANOARROW_TYPE_DECIMAL128 ∨ type = NANOARROW_TYPE_DECIMAL256 →
    0 < 8 * (bits `quot` 64) <= 32) as Hwords.
  { intros Ht. specialize (Hdec Ht). rewrite Z.quot_div_nonneg by lia.
    assert (1 <= bits / 64) by (apply Z.div_le_lower_bound; lia).
    assert (bits / 64 < 5) by (apply Z.div_lt_upper_bound; lia). lia. }
  repeat case_match; simplify_eq; try lia; apply Hwords; auto.
Qed.
Lemma swap_bytes_zlen type bits l l' : swap_bytes type bits l = Some l' → decimal_ok type bits → zlen l' <= zlen l.
Proof.
  unfold swap_bytes. destruct (no_swap type); [by intros [= ->]|].
  destruct (swap_plan type bits (zlen l)) as [[[f width] n]|] eqn:Hplan; [|done]. intros [= <-] Hdec.
  pose proof (swap_plan_width _ _ _ _ _ _ Hplan Hdec) as [Hw _].
  destruct (swap_plan_map _ _ _ _ _ _ Hplan Hw (zlen_nonneg l)) as (Hf & _ & Hn & Hle).
  by rewrite zlen_swapped.
Qed.

Section swap.
Context `{!Libc}.
(** What a swap leaves: the heap as it was, the scratch buffer in use or as it was. *)
Definition slot_ok (h : shared_heap) (size : Z) (st : shared_heap * (ArrowView * ArrowBuffer)) : Prop :=
  st.1 = h ∧ scratch_ok st.2.2 ∧ view_size st.2.1 = size ∧
  (size_bytes st.2.2 = 0 ∨ view_ok st.2.1 ∧ size_bytes st.2.2 = size ∧ data st.2.2 = view_data st.2.1).

Lemma reserve_err n b e b' : ArrowBufferReserve n b = Err e b' → capacity_bytes b' = 0 ∨ b' = b.
Proof.
  unfold ArrowBufferReserve, ArrowBufferResize. repeat case_match; intros; simplify_eq; auto.
Qed.
Lemma reserve_scratch_wp dst n (Q : unit → ArrowBuffer → Prop) E :
  scratch_ok dst → size_bytes dst = 0 → 0 < n <= 2 ^ 60 →
  (∀ d b, scratch_ok b → size_bytes b = n → data b = Some d → n <= zlen d → bytes_ok d → Q tt b) →
  (∀ b, scratch_ok b → size_bytes b = 0 → E ENOMEM b) →
  wp (ArrowBufferReserve n ;;; set_size_bytes n) dst Q E.
Proof.
  intros [Hp Hwf Hc] Hs Hn HQ HE. apply wp_bind.
  assert (fits dst n) as Hfits by (unfold fits, INT64_MAX; lia).
  pose proof (reserve_wp dst n Hwf ltac:(lia) Hfits) as Hr. unfold wp in Hr |- *.
  destruct (ArrowBufferReserve n dst) as [[] b|e b|] eqn:Hrun; [| |done].
  - destruct Hr as (Hwf' & _ & Hs' & Hroom & Hal & Hmax & _). apply wp_mod.
    destruct Hwf' as [Hsz Hbl]. destruct (data b) as [d|] eqn:Hd; [|rewrite Hbl in Hroom; lia].
    destruct Hbl as [Hlen Hok]. apply (HQ d); [|done|done|lia|done]. rewrite Hs, Z.add_0_l in *.
    split; cbn; [by rewrite Hal| |lia]. split; cbn; [lia|done].
  - destruct Hr as (-> & Hwf' & _ & Hs' & Hal). apply HE; [|done]. split; [by rewrite Hal|done|].
    apply reserve_err in Hrun as [-> | ->]; [done|lia].
Qed.

Lemma on_dst_bind (m k : M ArrowBuffer unit) h v b Q E :
  wp (m ;;; k) b (λ _ b', Q tt (h, (v, b'))) (λ e b', E e (h, (v, b'))) →
  wp (on_dst m ;;; on_dst k) (h, (v, b)) Q E.
Proof.
  unfold wp, mbind_, on_dst, zoom. cbn [fst snd]. destruct (m b) as [[] b1|e b1|]; [|done|done].
  cbn [fst snd]. by destruct (k b1) as [[] b2|e b2|].
Qed.
Lemma reset_init_wp {S} h (s : S) Q E :
  Q ArrowBufferInit (h, s) → wp (on_heap (reset_buffer ArrowBufferInit)) (h, s) Q E.
Proof. done. Qed.
Lemma swap_endian_wp src h v dst :
  view_ok v → scratch_ok dst → size_bytes dst = 0 → decimal_ok (source_data_type src) (source_element_size_bits src) →
  wp (ArrowIpcDecoderSwapEndian src) (h, (v, dst))
    (λ _ st, slot_ok h (view_size v) st ∧ view_ok st.2.1 ∧
       ∃ l, swap_bytes (source_data_type src) (source_element_size_bits src) (view_bytes v) = Some l ∧
         l `prefix_of` view_bytes st.2.1)
    (λ e st, st.1 = h ∧ scratch_ok st.2.2 ∧
       (e = ENOMEM ∨
        e = ENOTSUP ∧ swap_bytes (source_data_type src) (source_element_size_bits src) (view_bytes v) = None)).
Proof.
  intros Hv Hdst Hs Hdec. pose proof (zlen_view_bytes v Hv) as Hlen. unfold ArrowIpcDecoderSwapEndian, swap_bytes.
  destruct (no_swap (source_data_type src)).
  { apply wp_ret. split; [by split_and!; [..|left]|]. split; [done|]. by eexists. }
  pose proof Hv as (s & Hvs & Hvl & Hsm & Hsb).
  apply wp_bind, wp_get. cbn [fst snd]. rewrite (scratch_private _ Hdst). apply wp_bind, wp_ret, wp_bind, wp_get.
  apply wp_bind, wp_get. cbn [fst snd]. rewrite Hs. cbn [Z.eqb].
  apply wp_bind, on_dst_bind. apply reserve_scratch_wp; [done|done|lia| |by intros b Hb _; split_and!; [..|left]].
  intros d b Hb Hbs Hbd Hdl Hdb. apply wp_bind, wp_get. cbn [fst snd]. rewrite Hbs, Hlen.
  destruct (swap_plan _ _ _) as [[[f width] n]|] eqn:Hplan; [|apply wp_fail; by split_and!; [..|right]].
  destruct (swap_plan_width _ _ _ _ _ _ Hplan Hdec) as [Hw Hw'].
  destruct (swap_plan_map _ _ _ _ _ _ Hplan Hw ltac:(lia)) as (Hf & _ & Hn & Hle).
  apply wp_bind. destruct (Z.ltb_spec 0 width); [|lia]. destruct (Z.leb_spec width 32); [|lia]. cbn [andb].
  apply wp_ret, wp_bind.
  apply (wp_mono _ _ (λ _ st, st = (h, (v, MkBuffer (Some (swapped f width n s ++ drop (Z.to_nat (width * n)) d))
    (size_bytes b) (capacity_bytes b) (allocator b)))) _ (λ _ _, False)); [| |done].
  { destruct (Z.leb_spec n 0).
    - assert (n = 0) as -> by lia. rewrite Z.mul_0_r. apply wp_ret.
      change (swapped f width 0 s ++ drop (Z.to_nat 0) d) with d. rewrite <-Hbd. by destruct b.
    - rewrite Hvs. apply wp_bind, wp_ret. unfold wp, on_dst, zoom, upd_data. cbn [fst snd].
      by rewrite Hbd, swap_items_spec by (done || lia). }
  intros [] st ->. apply wp_bind, reset_init_wp, wp_bind, wp_get, wp_mod. cbn [fst snd data].
  set (d' := swapped f width n s ++ drop (Z.to_nat (width * n)) d).
  pose proof (zlen_swapped f width n s Hf Hw Hn ltac:(lia)) as Hsw.
  assert (zlen d' = zlen d) as Hd'.
  { unfold d'. rewrite zlen_app, Hsw, zlen_drop by nia. lia. }
  assert (bytes_ok d') as Hok.
  { apply Forall_app. split; [by apply bytes_ok_swapped; [..|lia|]|by apply Forall_drop]. }
  assert (view_ok (MkView (Some d') (view_size v))) as Hv'.
  { exists d'. split; [done|]. cbn [view_size]. rewrite Hd'. split; [lia|done]. }
  destruct Hb as [Hb1 [Hb2 Hb3] Hb4]. rewrite Hbd in Hb3. destruct Hb3 as [Hb3 _].
  split; [|split; [done|]].
  - split; [done|]. split; [|split; [done|right; by split_and!]].
    split; [done| |done]. split; [done|]. cbn. by rewrite Hd'.
  - eexists. split; [done|]. unfold view_bytes. rewrite Hvs.
    change (swapped f width n (take (Z.to_nat (view_size v)) s) `prefix_of` take (Z.to_nat (view_size v)) d').
    rewrite swapped_take by lia. unfold d'. rewrite take_app_ge by (unfold zlen in Hsw; lia). by eexists.
Qed.

(** *** One buffer *)
(** The bytes a buffer should have, as it is described in a message with a body. *)
Definition buffer_spec (body : list Z) (body_size : Z) (src : ArrowIpcBufferSource) (offset len : Z) : errno + list Z :=
  if len =? 0 then inr []
  else if (offset <? 0) || (body_size <? offset + len) then inl EINVAL
  else if negb (source_codec src =? NANOARROW_IPC_COMPRESSION_TYPE_NONE) then inl ENOTSUP
  else
    let l := take (Z.to_nat len) (drop (Z.to_nat offset) body) in
    if source_swap_endian src then
      match swap_bytes (source_data_type src) (source_element_size_bits src) l with
      | Some l' => inr l'
      | None => inl ENOTSUP
      end
    else inr l.
(** The view after a buffer was made: its size is the one announced, and it
    starts with the bytes the buffer should have. *)
Definition holds (size : Z) (l : list Z) (v : ArrowView) : Prop :=
  view_size v = size ∧ l `prefix_of` view_bytes v ∧ (size = 0 ∨ view_ok v).

Lemma make_buffer_wp body body_size view_size src offset len h v dst :
  0 <= len → offset + len <= INT64_MAX → body_size <= zlen body <= 2 ^ 60 → bytes_ok body →
  scratch_ok dst → size_bytes dst = 0 → decimal_ok (source_data_type src) (source_element_size_bits src) →
  wp (ArrowIpcDecoderMakeBuffer (ArrowIpcBufferFactoryFromView (MkView (Some body) view_size)) body_size src offset len)
    (h, (v, dst))
    (λ _ st, slot_ok h len st ∧ ∃ l, buffer_spec body body_size src offset len = inr l ∧ holds len l st.2.1 ∧
       (source_swap_endian src = false → l = view_bytes st.2.1))
    (λ e st, st.1 = h ∧ scratch_ok st.2.2 ∧
       (buffer_spec body body_size src offset len = inl e ∨ e = ENOMEM ∧ source_swap_endian src = true)).
Proof.
  intros Hlen Hmax Hbody Hbytes Hdst Hs Hdec. unfold ArrowIpcDecoderMakeBuffer, buffer_spec.
  apply wp_bind, wp_mod. destruct (Z.eqb_spec len 0) as [->|Hne].
  { apply wp_ret. split; [by split_and!; [..|left]|]. exists []. split; [done|]. split; [|done].
    split; [done|]. split; [apply prefix_nil|by left]. }
  destruct (Z.ltb_spec offset 0) as [Hoff|Hoff]; cbn [orb].
  { apply wp_bind, wp_fail. split; [done|]. split; [done|]. by left. }
  rewrite i64_small by (unfold INT64_MIN; lia).
  destruct (Z.ltb_spec body_size (offset + len)) as [Hend|Hend]; cbn [negb check].
  { apply wp_bind, wp_fail. split; [done|]. split; [done|]. by left. }
  apply wp_bind, wp_ret, wp_bind. destruct (source_codec src =? _); cbn [negb check].
  2:{ apply wp_fail. split; [done|]. split; [done|]. by left. }
  set (p := drop (Z.to_nat offset) body).
  assert (zlen p = zlen body - offset) as Hp by (apply zlen_drop; lia).
  assert (view_ok (MkView (Some p) len)) as Hv.
  { exists p. split; [done|]. cbn [Buffer.view_size]. split; [lia|]. split; [lia|]. by apply Forall_drop. }
  apply wp_ret, wp_bind. cbn [make_buffer]. unfold ArrowIpcMakeBufferFromView, move_pointer. cbn [mbind option_bind view_data].
  cbn [body_offset_bytes buffer_length_bytes]. destruct (Z.leb_spec 0 offset); [|lia].
  destruct (Z.leb_spec offset (zlen body)); [|lia]. cbn [andb]. apply wp_bind, wp_ret, wp_mod.
  cbn [source_swap_endian]. fold p. destruct (source_swap_endian src).
  - eapply wp_mono; [by apply swap_endian_wp| |].
    + intros [] st (Hslot & Hok & l & Hl & Hpre). split; [done|]. cbn in Hl. unfold view_bytes in Hl. cbn in Hl.
      rewrite Hl. exists l. split; [done|]. split; [|done]. split; [apply Hslot|]. split; [done|by right].
    + intros e st (Hh & Hsc & [->|[-> Hl]]); (split; [done|]); (split; [done|]); [by right|]. left.
      cbn in Hl. unfold view_bytes in Hl. cbn in Hl. by rewrite Hl.
  - apply wp_ret. split; [by split_and!; [..|left]|]. eexists. split; [done|]. split; [|done]. split; [done|].
    split; [done|by right].
Qed.
End swap.

(** ** Properties *)

(** C33.  A buffer of a record batch whose body is in memory, with a length that is
    not negative and an end that does not overflow: the view gets the announced
    size and the bytes at its place in the body, in the byte order of the system; a
    place outside the body is [EINVAL], a compressed body or a width that cannot
    be swapped is [ENOTSUP], and only a swap needs memory.  The scratch
    buffer stays well formed, and if it is used the view points to it. *)
Theorem make_buffer_correct (libc : Libc) (body : list Z) (body_size view_size : Z)
    (src : ArrowIpcBufferSource) (offset len : Z) (h : shared_heap) (v : ArrowView) (dst : ArrowBuffer)
    (Hlen : 0 <= len) (Hmax : offset + len <= INT64_MAX) (Hbody : body_size <= zlen body <= 2 ^ 60)
    (Hbytes : bytes_ok body) (Hdst : scratch_ok dst) (Hsize : size_bytes dst = 0)
    (Hdec : decimal_ok (source_data_type src) (source_element_size_bits src)) :
  wp (ArrowIpcDecoderMakeBuffer (ArrowIpcBufferFactoryFromView (MkView (Some body) view_size)) body_size src offset len)
    (h, (v, dst))
    (λ _ st, slot_ok h len st ∧ ∃ l, buffer_spec body body_size src offset len = inr l ∧ holds len l st.2.1 ∧
       (source_swap_endian src = false → l = view_bytes st.2.1))
    (λ e st, st.1 = h ∧ scratch_ok st.2.2 ∧
       (buffer_spec body body_size src offset len = inl e ∨ e = ENOMEM ∧ source_swap_endian src = true)).
Proof. by apply make_buffer_wp. Qed.

Definition int32_source : ArrowIpcBufferSource :=
  MkSource 0 0 NANOARROW_IPC_COMPRESSION_TYPE_NONE NANOARROW_TYPE_INT32 32 true.
Lemma scratch_init_ok : scratch_ok ArrowBufferInit.
Proof. split; [done|apply buffer_wf_init|done]. Qed.
Lemma make_buffer_correct_witness :
  ∃ st, ArrowIpcDecoderMakeBuffer (H := libc_limited 1000)
      (ArrowIpcBufferFactoryFromView (MkView (Some [9; 9; 9; 9; 1; 2; 3; 4; 5; 6; 7; 8]) 12)) 12 int32_source 4 8
      (MkHeap ∅ [], (MkView None 0, ArrowBufferInit)) = Ok tt st ∧
    holds 8 [4; 3; 2; 1; 8; 7; 6; 5] st.2.1.
Proof.
  pose proof (make_buffer_correct (libc_limited 1000) [9; 9; 9; 9; 1; 2; 3; 4; 5; 6; 7; 8] 12 12 int32_source 4 8
    (MkHeap ∅ []) (MkView None 0) ArrowBufferInit ltac:(lia) ltac:(unfold INT64_MAX; lia)
    ltac:(split; apply Z.leb_le; vm_compute; reflexivity) ltac:(apply (bool_decide_unpack _); vm_compute; done)
    scratch_init_ok eq_refl ltac:(by intros [|])) as Hwp.
  destruct (wp_run _ _ _ _ Hwp) as ([] & st & Hrun & _ & l & Hl & Hh & _); [vm_compute; reflexivity|].
  exists st. split; [exact Hrun|]. vm_compute in Hl. injection Hl as <-. exact Hh.
Defined.

(** C34.  Swapping a buffer of whole items twice gives back its bytes, for every
    type and width: the second swap reads what the first wrote, and writes to another scratch
    buffer.  It fails only without memory, or when the width is not supported. *)
Theorem swap_endian_twice (libc : Libc) (src : ArrowIpcBufferSource) (h : shared_heap) (v : ArrowView)
    (dst dst' : ArrowBuffer) (Hv : view_ok v) (Hdst : scratch_ok dst) (Hsize : size_bytes dst = 0)
    (Hdst' : scratch_ok dst') (Hsize' : size_bytes dst' = 0)
    (Hdec : decimal_ok (source_data_type src) (source_element_size_bits src))
    (Hwhole : ∀ f width n, swap_plan (source_data_type src) (source_element_size_bits src) (view_size v) =
       Some (f, width, n) → width * n = view_size v) :
  wp (ArrowIpcDecoderSwapEndian src ;;; put_dst dst' ;;; ArrowIpcDecoderSwapEndian src) (h, (v, dst))
    (λ _ st, view_bytes st.2.1 = view_bytes v)
    (λ e _, e = ENOMEM ∨
       e = ENOTSUP ∧ swap_bytes (source_data_type src) (source_element_size_bits src) (view_bytes v) = None).
Proof.
  assert (∀ v1 v2 l, view_ok v2 → view_size v2 = view_size v1 → zlen l = view_size v1 →
    l `prefix_of` view_bytes v2 → l = view_bytes v2) as Hsame.
  { intros v1 v2 l Hv2 Hs Hl [k Hk]. pose proof (zlen_view_bytes v2 Hv2) as H2. rewrite Hk, zlen_app in H2.
    destruct k; [by rewrite app_nil_r in Hk|]. rewrite zlen_cons in H2. pose proof (zlen_nonneg k). lia. }
  apply wp_bind. eapply wp_mono; [by apply swap_endian_wp| |by intros e st (_ & _ & He)].
  intros [] [h1 [v1 b1]] ((Hh & _ & Hsz1 & _) & Hok1 & l & Hl & Hpre1). cbn [fst snd] in *. subst h1.
  apply wp_bind, wp_mod. eapply wp_mono; [by apply swap_endian_wp| |].
  - intros [] [h2 [v2 b2]] ((_ & _ & Hsz2 & _) & Hok2 & l2 & Hl2 & Hpre2). cbn [fst snd] in *.
    pose proof (zlen_view_bytes v Hv) as Hlen. unfold swap_bytes in Hl, Hl2. destruct (no_swap _).
    { injection Hl as <-. rewrite <-(Hsame v v1 (view_bytes v)) in Hl2 by done. injection Hl2 as <-.
      symmetry. by apply (Hsame v); rewrite ?Hsz2. }
    rewrite Hlen in Hl. destruct (swap_plan _ _ (view_size v)) as [[[f width] n]|] eqn:Hplan; [|done].
    injection Hl as <-. specialize (Hwhole _ _ _ eq_refl).
    destruct (swap_plan_width _ _ _ _ _ _ Hplan Hdec) as [Hw _]. pose proof Hv as (? & _ & Hpos & _).
    destruct (swap_plan_map _ _ _ _ _ _ Hplan Hw ltac:(lia)) as (Hf & _ & Hn & Hle).
    pose proof (zlen_swapped f width n (view_bytes v) Hf Hw Hn ltac:(lia)) as Hsw.
    assert (swapped f width n (view_bytes v) = view_bytes v1) as Heq1 by (by apply (Hsame v); rewrite ?Hsw).
    rewrite <-Heq1, Hsw, Hwhole, Hplan, swapped_twice, Hwhole, <-Hlen in Hl2 by (done || lia).
    injection Hl2 as <-. rewrite take_ge in Hpre2 by (unfold zlen; lia).
    symmetry. by apply (Hsame v); rewrite ?Hsz2.
  - intros e [h2 [v2 b2]] (_ & _ & [->|[-> Hn]]); [by left|]. right. split; [done|]. cbn [fst snd] in *.
    unfold swap_bytes in *. destruct (no_swap _); [done|]. rewrite (zlen_view_bytes v), <-Hsz1 by done.
    rewrite (zlen_view_bytes v1) in Hn by done. by destruct (swap_plan _ _ (view_size v1)) as [[[]]|].
Qed.
Definition month_day_nano : ArrowView := MkView (Some [1; 2; 3; 4; 5; 6; 7; 8; 9; 10; 11; 12; 13; 14; 15; 16; 17]) 16.
Lemma swap_endian_twice_witness :
  ∃ st, (ArrowIpcDecoderSwapEndian (H := libc_limited 1000)
           (MkSource 0 0 0 NANOARROW_TYPE_INTERVAL_MONTH_DAY_NANO 128 true) ;;;
         put_dst ArrowBufferInit ;;;
         ArrowIpcDecoderSwapEndian (H := libc_limited 1000)
           (MkSource 0 0 0 NANOARROW_TYPE_INTERVAL_MONTH_DAY_NANO 128 true))
        (MkHeap ∅ [], (month_day_nano, ArrowBufferInit)) = Ok tt st ∧
    view_bytes st.2.1 = view_bytes month_day_nano.
Proof.
  pose proof (swap_endian_twice (libc_limited 1000)
    (MkSource 0 0 0 NANOARROW_TYPE_INTERVAL_MONTH_DAY_NANO 128 true) (MkHeap ∅ []) month_day_nano
    ArrowBufferInit ArrowBufferInit
    ltac:(eexists; split; [reflexivity|]; split; [split; vm_compute; done|]; split; [vm_compute; done|];
          apply (bool_decide_unpack _); vm_compute; done)
    scratch_init_ok eq_refl scratch_init_ok eq_refl ltac:(by intros [|])
    ltac:(intros f w n Hp; vm_compute in Hp; injection Hp as _ <- <-; vm_compute; reflexivity)) as Hwp.
  destruct (wp_run _ _ _ _ Hwp) as ([] & st & Hrun & Heq); [vm_compute; reflexivity|].
  exists st. split; [exact Hrun|exact Heq].
Defined.

(** The check that a buffer is in the body does not hold it there: the end of
    a buffer of [INT64_MAX] bytes overflows, and one of -8 bytes ends before it
    starts.  Both are made from a body of 16 bytes, and their views have these sizes. *)
Theorem make_buffer_overflow :
  let body := replicate 16 0 in
  let make := ArrowIpcDecoderMakeBuffer (H := libc_limited 1000)
    (ArrowIpcBufferFactoryFromView (MkView (Some body) 16)) 16
    (MkSource 0 0 NANOARROW_IPC_COMPRESSION_TYPE_NONE NANOARROW_TYPE_INT32 32 false) in
  let st := (MkHeap ∅ [], (MkView None 0, ArrowBufferInit)) in
  make 1 INT64_MAX st = Ok tt (MkHeap ∅ [], (MkView (Some (drop 1 body)) INT64_MAX, ArrowBufferInit)) ∧
  make 8 (-8) st = Ok tt (MkHeap ∅ [], (MkView (Some (drop 8 body)) (-8), ArrowBufferInit)).
Proof. split; vm_compute; reflexivity. Qed.
