(* ===== verification/IpcBatch.v ===== *)
(** * Decoding a record batch refines its description (nanoarrow_ipc.c)

    A record batch message is a list of nodes, each with a length and a null
    count, a list of buffers, each with a place in the body, and the body.  The
    columns it describes are what is read when the tree of the schema is walked
    depth first and each node takes its share of the two lists ([column_of]).
    [ArrowIpcDecoderWalkSetArrayView] does this with two counters and the views
    of the decoder; the refinement is proved for a body in memory. *)

From stdpp Require Import base numbers list option strings gmap.
From S2P Require Import Prelude CInt CString Buffer Bitmap Types Metadata Schema SchemaView ArrayView ArrayViewSafety Array.
From S2P Require Import FlatBuffers Message IpcShared IpcDecoder IpcBody IpcSwap IpcFields.
#[local] Open Scope Z_scope.
#[local] Open Scope c_scope.
#[local] Set Warnings "-register-all".
#[local] Abbreviation length := Datatypes.length.

(** ** The description *)

(** A column: its length and null count, for each buffer its size with the bytes
    that are given, and the columns below. *)
Inductive column : Set :=
  | Column (col_length col_null_count : Z) (col_buffers : list (Z * list Z)) (col_children : list column).

(** The nodes and the buffers of a message. *)
Definition batch_nodes (buf : list Z) (vec : loc) : option (list (Z * Z)) :=
  n ← FieldNode_vec_len buf vec;
  mapM (λ i, f ← FieldNode_vec_at vec i; l ← FieldNode_length buf f; k ← FieldNode_null_count buf f; Some (l, k))
    (zseq n).
Definition batch_buffers (buf : list Z) (vec : loc) : option (list (Z * Z)) :=
  n ← Buffer_vec_len buf vec;
  mapM (λ i, b ← Buffer_vec_at vec i; o ← Buffer_offset buf b; l ← Buffer_length buf b; Some (o, l)) (zseq n).

(** The buffers of a layout, up to the first that is not there: the types and
    widths of their elements. *)
Fixpoint slots_until (ts : list ArrowBufferType) (l : list (ArrowType * Z)) : list (ArrowType * Z) :=
  match ts, l with
  | NANOARROW_BUFFER_TYPE_NONE :: _, _ => []
  | _ :: ts', x :: l' => x :: slots_until ts' l'
  | _, _ => []
  end.
Definition layout_slots (lay : ArrowLayout) : list (ArrowType * Z) :=
  slots_until (buffer_type lay) (zip (buffer_data_type lay) (element_size_bits lay)).

Section columns.
Variables (body : list Z) (body_size codec : Z) (swap : bool).
(** The nodes and buffers left; [UB] when there are too few. *)
Abbreviation CM := (M (list (Z * Z) * list (Z * Z))).
Definition next_node : CM (Z * Z) := λ '(ns, bs),
  match ns with [] => UB | n :: ns' => Ok n (ns', bs) end.
Definition next_place : CM (Z * Z) := λ '(ns, bs),
  match bs with [] => UB | b :: bs' => Ok b (ns, bs') end.
Definition column_buffer (slot : ArrowType * Z) : CM (Z * list Z) :=
  let* b := next_place in
  match buffer_spec body body_size (MkSource 0 0 codec slot.1 slot.2 swap) b.1 b.2 with
  | inl e => mfail e
  | inr l => mret_ (b.2, l)
  end.
Fixpoint column_buffers (slots : list (ArrowType * Z)) : CM (list (Z * list Z)) :=
  match slots with
  | [] => mret_ []
  | s :: slots' => let* b := column_buffer s in let* bs := column_buffers slots' in mret_ (b :: bs)
  end.
Definition columns_below (column_of : ArrowArrayView → CM column) : list (option ArrowArrayView) → CM (list column) :=
  fix go l :=
    match l with
    | [] => mret_ []
    | Some v :: l' => let* c := column_of v in let* cs := go l' in mret_ (c :: cs)
    | None :: _ => mundef
    end.
Fixpoint column_of (v : ArrowArrayView) : CM column :=
  match v with
  | MkArrayView _ _ _ _ lay _ _ ch _ _ =>
      let* n := next_node in
      let* bs := column_buffers (layout_slots lay) in
      let* cs := match ch with None => mret_ [] | Some l => columns_below column_of l end in
      mret_ (Column n.1 n.2 bs cs)
  end.
End columns.

(** The view of a column. *)
Inductive column_view : column → ArrowArrayView → Prop :=
  | column_view_intro len nulls bs cols o st lay views nc cs d m :
      Forall2 (λ b v, holds b.1 b.2 v) bs (take (length bs) views) →
      Forall2 (λ c v, ∃ v', v = Some v' ∧ column_view c v') cols cs →
      column_view (Column len nulls bs cols) (MkArrayView o len nulls st lay views nc (Some cs) d m).

(** ** The state of the decoder *)

(** The three scratch buffers of an array. *)
Definition array_scratch (a : array) : option (list ArrowBuffer) :=
  (λ p, buffer (bitmap p) :: buffers p) <$> array_private a.
Definition scratch_ready (a : array) : Prop :=
  ∃ l, array_scratch a = Some l ∧ length l = 3%nat ∧ Forall scratch_ok l.
(** A view with an array of the same shape whose buffers can be used. *)
Inductive batch_tree : ArrowArrayView → ArrowArray → Prop :=
  | batch_tree_intro o l n st lay views nc cs d m a :
      layout_ready lay → length views = 3%nat → scratch_ready a → zlen cs = 0 `max` nc → Forall is_Some cs →
      (∀ i v, znth cs i = Some (Some v) → ∃ arr, child_pointer (ArrayLive a) i = Some arr ∧ batch_tree v arr) →
      batch_tree (MkArrayView o l n st lay views nc (Some cs) d m) (ArrayLive a).

(** ** Simulation *)

(** An execution against its description: it does not leave the memory, its
    errors are those of the description or, when [oom], a lack of memory. *)
Definition sim {S A T B} (oom : Prop) (r : outcome S A) (spec : outcome T B) (Q : A → S → B → T → Prop) (E : S → Prop) :
    Prop :=
  match spec with
  | UB => True
  | Ok b t => match r with Ok a s => Q a s b t | Err e s => e = ENOMEM ∧ oom ∧ E s | UB => False end
  | Err e t => match r with Err e' s => (e' = e ∨ e' = ENOMEM ∧ oom) ∧ E s | _ => False end
  end.
Lemma sim_bind {S A A' T B B'} oom (m : M S A) (k : A → M S A') (m' : M T B) (k' : B → M T B') s t Q Q' E :
  sim oom (m s) (m' t) Q E → (∀ a s' b t', Q a s' b t' → sim oom (k a s') (k' b t') Q' E) →
  sim oom (mbind_ m k s) (mbind_ m' k' t) Q' E.
Proof.
  unfold sim, mbind_. intros Hm Hk. destruct (m' t) as [b t'|e t'|]; [| |done].
  - destruct (m s) as [a s'|e s'|]; [by apply Hk| |done]. destruct Hm as (-> & Ho & HE).
    destruct (k' b t'); tauto.
  - by destruct (m s).
Qed.
Lemma sim_mono {S A T B} oom (r : outcome S A) (r' : outcome T B) (Q Q' : A → S → B → T → Prop) (E E' : S → Prop) :
  sim oom r r' Q E → (∀ a s b t, Q a s b t → Q' a s b t) → (∀ s, E s → E' s) → sim oom r r' Q' E'.
Proof. unfold sim. intros H HQ HE. destruct r', r; try done; [by apply HQ|intuition auto..]. Qed.
(** The same where the execution is a match, and does something after an error. *)
Lemma sim_match {S A S' A' T B B'} oom (r : outcome S A) (f : errno → S → outcome S' A') (k : A → S → outcome S' A')
    (r' : outcome T B) (k' : B → T → outcome T B') Q Q' E (E' : S' → Prop) :
  sim oom r r' Q E → (∀ e s, E s → ∃ s', f e s = Err e s' ∧ E' s') →
  (∀ a s b t, Q a s b t → sim oom (k a s) (k' b t) Q' E') →
  sim oom (match r with UB => UB | Err e s => f e s | Ok a s => k a s end)
    (match r' with Ok b t => k' b t | Err e t => Err e t | UB => UB end) Q' E'.
Proof.
  unfold sim. intros Hr HE Hk. destruct r' as [b t|e t|]; [| |done].
  - destruct r as [a s|e s|]; [by apply Hk| |done]. destruct Hr as (-> & Ho & Hs).
    destruct (HE ENOMEM s Hs) as (s' & -> & Hs'). destruct (k' b t); tauto.
  - destruct r as [|e' s|]; [done| |done]. destruct Hr as [He Hs]. by destruct (HE e' s Hs) as (s' & -> & Hs').
Qed.
(** A step of the execution alone. *)
Lemma sim_step {S A A' T B} oom (m : M S A) (k : A → M S A') (r' : outcome T B) s Q E :
  wp m s (λ a s', sim oom (k a s') r' Q E) (λ _ _, False) → sim oom (mbind_ m k s) r' Q E.
Proof. unfold sim, wp, mbind_. destruct (m s); [done|done|]. by destruct r'. Qed.
(** The description's errors and values, as a precondition. *)
Lemma sim_wp {S A T B} oom (m : M S A) (r' : outcome T B) s Q E :
  r' ≠ UB → sim oom (m s) r' Q E →
  wp m s (λ a s', ∃ b t, r' = Ok b t ∧ Q a s' b t) (λ e s', E s' ∧ ((∃ t, r' = Err e t) ∨ e = ENOMEM ∧ oom)).
Proof.
  unfold sim, wp. intros Hub. destruct r' as [b t|e t|], (m s); try done; [by exists b, t|intuition auto|].
  intros [[->|[-> ?]] ?]; split; [done|left; by eexists|done|by right].
Qed.

(** ** One buffer *)
Lemma array_buffer_at a l i :
  array_scratch a = Some l → length l = 3%nat → 0 <= i < 3 →
  ∃ b, l !! Z.to_nat i = Some b ∧ ArrowArrayBuffer i (mget id) a = Ok b a ∧
    ∀ b', ∃ a', ArrowArrayBuffer i (mmod (λ _, b')) a = Ok tt a' ∧
      array_scratch a' = Some (<[Z.to_nat i := b']> l) ∧ array_children a' = array_children a.
Proof.
  intros Ha Hl Hi. unfold array_scratch in Ha. destruct a as [? ? ? ? ? ? ? ? [[[b0 ?] bl ? ? ?]|]]; [|done].
  cbn in Ha. injection Ha as <-. destruct bl as [|b1 [|b2 [|]]]; try done.
  assert (i = 0 ∨ i = 1 ∨ i = 2) as [-> | [-> | ->]] by lia; eexists; (split; [done|]); (split; [done|]);
    intros b'; eexists; (split; [done|]); by split.
Qed.

Section batch.
Context `{!Libc}.
Variables (setter : ArrowIpcArraySetter) (body : list Z) (body_view_size : Z) (nodes bufs : list (Z * Z)).
Hypothesis Hfactory :
  setter_factory setter = ArrowIpcBufferFactoryFromView (MkView (Some body) body_view_size).
Hypothesis Hbody : setter_body_size setter <= zlen body <= 2 ^ 60.
Hypothesis Hbytes : bytes_ok body.
Hypothesis Hnodes : batch_nodes (setter_message setter) (setter_fields setter) = Some nodes.
Hypothesis Hbufs : batch_buffers (setter_message setter) (setter_buffers setter) = Some bufs.
Hypothesis Hrange : Forall (λ b, 0 <= b.2 ∧ b.1 + b.2 <= INT64_MAX) bufs.
Abbreviation oom := (setter_swap setter = true).
Abbreviation spec_buffer := (column_buffer body (setter_body_size setter) (setter_codec setter) (setter_swap setter)).
Abbreviation spec_buffers := (column_buffers body (setter_body_size setter) (setter_codec setter) (setter_swap setter)).
Abbreviation spec := (column_of body (setter_body_size setter) (setter_codec setter) (setter_swap setter)).

(** The counters of the walk, and what is left of the two lists. *)
Definition left_at (c : cursor) (s : list (Z * Z) * list (Z * Z)) : Prop :=
  0 <= field_i c ∧ 0 <= buffer_i c ∧
  s = (drop (Z.to_nat (field_i c)) nodes, drop (Z.to_nat (buffer_i c)) bufs).
(** A node whose views are being set. *)
Record node_at (v : ArrowArrayView) (a : array) (h : shared_heap) (w : walk_state) : Prop := {
  node_heap : cursor_heap (walk_cursor w) = h;
  node_view : walk_view w = set_buffer_views (buffer_views (walk_view w)) v;
  node_views : length (buffer_views (walk_view w)) = 3%nat;
  node_scratch : scratch_ready (walk_array w);
  node_children : array_children (walk_array w) = array_children a;
}.

Lemma pair_at {A} (f : Z → option A) n l (i : nat) x :
  mapM f (zseq n) = Some l → l !! i = Some x → f (Z.of_nat i) = Some x.
Proof.
  intros Hm%mapM_Some Hx. destruct (Forall2_lookup_r _ _ _ _ _ Hm Hx) as (k & Hk & Hf).
  unfold zseq in Hk. apply list_lookup_fmap_Some in Hk as (j & -> & Hj%lookup_seq). by destruct Hj as [-> _].
Qed.
Lemma left_node c n ns bs :
  left_at c (n :: ns, bs) → ∃ f, FieldNode_vec_at (setter_fields setter) (field_i c) = Some f ∧
    FieldNode_length (setter_message setter) f = Some n.1 ∧ FieldNode_null_count (setter_message setter) f = Some n.2.
Proof.
  intros (Hi & _ & [= Hn _]). unfold batch_nodes in Hnodes.
  destruct (FieldNode_vec_len _ _) as [k|]; [|done]. cbn [mbind option_bind] in Hnodes.
  assert (nodes !! Z.to_nat (field_i c) = Some n) as Hx by (by rewrite <-(Nat.add_0_r (Z.to_nat _)), <-lookup_drop, <-Hn).
  pose proof (pair_at _ _ _ _ _ Hnodes Hx) as Hr. rewrite Z2Nat.id in Hr by done. cbv beta in Hr.
  destruct (FieldNode_vec_at _ _) as [f|]; [|done]. cbn [mbind option_bind] in Hr. exists f. split; [done|].
  destruct (FieldNode_length _ _); [|done]. cbn in Hr. destruct (FieldNode_null_count _ _); [|done].
  cbn in Hr. by injection Hr as <-.
Qed.
Lemma left_place c b ns bs :
  left_at c (ns, b :: bs) → (0 <= b.2 ∧ b.1 + b.2 <= INT64_MAX) ∧
  ∃ f, Buffer_vec_at (setter_buffers setter) (buffer_i c) = Some f ∧
    Buffer_offset (setter_message setter) f = Some b.1 ∧ Buffer_length (setter_message setter) f = Some b.2.
Proof.
  intros (_ & Hi & [= _ Hb]). unfold batch_buffers in Hbufs.
  destruct (Buffer_vec_len _ _) as [k|]; [|done]. cbn [mbind option_bind] in Hbufs.
  assert (bufs !! Z.to_nat (buffer_i c) = Some b) as Hx by (by rewrite <-(Nat.add_0_r (Z.to_nat _)), <-lookup_drop, <-Hb).
  split; [by apply (Forall_lookup_1 _ _ _ _ Hrange Hx)|].
  pose proof (pair_at _ _ _ _ _ Hbufs Hx) as Hr. rewrite Z2Nat.id in Hr by done. cbv beta in Hr.
  destruct (Buffer_vec_at _ _) as [f|]; [|done]. cbn [mbind option_bind] in Hr. exists f. split; [done|].
  destruct (Buffer_offset _ _); [|done]. cbn in Hr. destruct (Buffer_length _ _); [|done].
  cbn in Hr. by injection Hr as <-.
Qed.

Lemma reuse_scratch_wp h v b (Q : unit → _ → Prop) E :
  scratch_ok b → (∀ b', scratch_ok b' → size_bytes b' = 0 → Q tt (h, (v, b'))) → wp reuse_scratch (h, (v, b)) Q E.
Proof.
  intros [Hp [Hs Hb] Hc] HQ. unfold reuse_scratch. apply wp_bind, wp_get. cbn [fst snd]. rewrite Hp.
  apply wp_zoom, wp_mod, HQ; [|done]. split; [done| |done]. split; cbn; [lia|done].
Qed.
(** What is done at one place of the body, against its description. *)
Lemma make_slot_sim slot o len h v b t :
  0 <= len → o + len <= INT64_MAX → scratch_ok b → decimal_ok slot.1 slot.2 →
  sim oom ((reuse_scratch ;;; ArrowIpcDecoderMakeBuffer (setter_factory setter) (setter_body_size setter)
              (MkSource 0 0 (setter_codec setter) slot.1 slot.2 (setter_swap setter)) o len) (h, (v, b)))
    (match buffer_spec body (setter_body_size setter)
             (MkSource 0 0 (setter_codec setter) slot.1 slot.2 (setter_swap setter)) o len with
     | inl e => mfail e
     | inr l => mret_ (len, l)
     end t : outcome (list (Z * Z) * list (Z * Z)) (Z * list Z))
    (λ _ st r t', t' = t ∧ st.1 = h ∧ scratch_ok st.2.2 ∧ holds r.1 r.2 st.2.1)
    (λ st, st.1 = h ∧ scratch_ok st.2.2).
Proof.
  intros Hlen Hmax Hb Hdec. apply sim_step, reuse_scratch_wp; [done|]. intros b' Hb' Hs. cbv beta. rewrite Hfactory.
  pose proof (make_buffer_wp body (setter_body_size setter) body_view_size
    (MkSource 0 0 (setter_codec setter) slot.1 slot.2 (setter_swap setter)) o len h v b' Hlen Hmax Hbody Hbytes Hb' Hs Hdec) as Hw.
  unfold wp in Hw. destruct (ArrowIpcDecoderMakeBuffer _ _ _ _ _ _) as [[] st|e st|]; [| |done].
  - destruct Hw as ((Hh & Hsc & _) & l & Hl & Hho & _). rewrite Hl. done.
  - destruct Hw as (Hh & Hsc & [Hl|[-> Ho]]); [rewrite Hl; cbn; tauto|].
    unfold sim. destruct (buffer_spec _ _ _ _ _); cbn; tauto.
Qed.
(** Running on a view and its scratch buffer. *)
Lemma on_slot_sim {T B} i m v a h w (r : outcome T B) Q E :
  node_at v a h w → 0 <= i < 3 →
  (∀ x b, scratch_ok b → sim oom (m (h, (x, b))) r
     (λ _ st r t, st.1 = h ∧ scratch_ok st.2.2 ∧ Q st.2.1 r t) (λ st, st.1 = h ∧ scratch_ok st.2.2)) →
  (∀ w', node_at v a h w' → E w') →
  sim oom (on_slot i m w) r
    (λ _ w' r t, node_at v a h w' ∧ field_i (walk_cursor w') = field_i (walk_cursor w) ∧
       buffer_i (walk_cursor w') = buffer_i (walk_cursor w) ∧
       ∃ x, buffer_views (walk_view w') = <[Z.to_nat i := x]> (buffer_views (walk_view w)) ∧ Q x r t) E.
Proof.
  intros [Hh Hv Hvs (l & Hl & Hl3 & Hall) Hch] Hi Hm HE. unfold on_slot.
  destruct (znth_in (buffer_views (walk_view w)) i) as [x Hx]; [unfold zlen; lia|]. rewrite Hx.
  destruct (array_buffer_at _ _ i Hl Hl3 Hi) as (b & Hb & Hget & Hput). rewrite Hget. cbn [id].
  assert (scratch_ok b) as Hbok by (by apply (Forall_lookup_1 _ _ _ _ Hall Hb)).
  specialize (Hm x b Hbok). rewrite Hh.
  assert (∀ x' b', scratch_ok b' → ∃ a', ArrowArrayBuffer i (mmod (λ _, b')) (walk_array w) = Ok tt a' ∧
    node_at v a h (MkWalk (MkCursor h (field_i (walk_cursor w)) (buffer_i (walk_cursor w)))
      (set_buffer_views (<[Z.to_nat i := x']> (buffer_views (walk_view w))) (walk_view w)) a')) as Hnode.
  { intros x' b' Hb'. destruct (Hput b') as (a' & Ha' & Hs' & Hc'). exists a'. split; [done|].
    split; cbn; [done| |by rewrite length_insert| |by rewrite Hc'].
    - rewrite Hv. done.
    - eexists. split; [done|]. split; [by rewrite length_insert|]. by apply Forall_insert. }
  unfold sim in *. destruct r as [r t|e t|]; [| |done].
  - destruct (m (h, (x, b))) as [[] [h' [x' b']]|e' [h' [x' b']]|]; [| |done]; cbn [fst snd] in Hm.
    + destruct Hm as (-> & Hb' & HQ). destruct (Hnode x' b' Hb') as (a' & -> & Hn). split; [done|].
      split; [done|]. split; [done|]. by exists x'.
    + destruct Hm as (-> & Ho & -> & Hb'). destruct (Hnode x' b' Hb') as (a' & -> & Hn). auto.
  - destruct (m (h, (x, b))) as [[] [h' [x' b']]|e' [h' [x' b']]|]; [done| |done]; cbn [fst snd] in Hm.
    destruct Hm as (He & -> & Hb'). destruct (Hnode x' b' Hb') as (a' & -> & Hn). auto.
Qed.

Lemma node_at_cursor v a h w c :
  node_at v a h w → cursor_heap c = h → node_at v a h (MkWalk c (walk_view w) (walk_array w)).
Proof. by intros []. Qed.
Lemma set_slot_sim v a h w i slot s :
  node_at v a h w → layout_ready (view_layout v) → left_at (walk_cursor w) s → 0 <= i < 3 →
  zip (buffer_data_type (view_layout v)) (element_size_bits (view_layout v)) !! Z.to_nat i = Some slot →
  sim oom (set_slot setter i w) (spec_buffer slot s)
    (λ _ w' b s', node_at v a h w' ∧ left_at (walk_cursor w') s' ∧
       ∃ x, buffer_views (walk_view w') = <[Z.to_nat i := x]> (buffer_views (walk_view w)) ∧ holds b.1 b.2 x)
    (node_at v a h).
Proof.
  intros Hn (_ & _ & _ & Hdec) Hl Hi Hslot. destruct s as [ns [|b bs]]; [done|].
  destruct (left_place _ _ _ _ Hl) as ([Hlen Hmax] & f & Hf & Ho & Hb). pose proof Hl as (Hfi & Hbi & [= Hns Hbs]).
  unfold set_slot, column_buffer. apply sim_step, wp_get, sim_step, wp_get. rewrite Hf. apply sim_step, wp_ret.
  rewrite Ho. apply sim_step, wp_ret. rewrite Hb. apply sim_step, wp_ret, sim_step, wp_mod.
  assert (view_layout (walk_view w) = view_layout v) as -> by (by rewrite (node_view _ _ _ _ Hn)).
  apply lookup_zip_with_Some in Hslot as (ty & bits & -> & Hty & Hbits).
  rewrite (znth_lookup (buffer_data_type _)), Hty by lia. apply sim_step, wp_ret.
  rewrite (znth_lookup (element_size_bits _)), Hbits by lia. apply sim_step, wp_ret.
  change (mbind_ next_place ?k (ns, b :: bs)) with (k b (ns, bs)). cbv beta.
  assert (decimal_ok ty bits) as Hd.
  { apply (Forall_lookup_1 _ _ (Z.to_nat i) (ty, bits)) in Hdec; [done|]. by rewrite lookup_zip_with, Hty; cbn; rewrite Hbits. }
  eapply sim_mono; [apply (on_slot_sim i _ v a h _ _ (λ x r t, t = (ns, bs) ∧ holds r.1 r.2 x) (node_at v a h))| |done].
  - apply node_at_cursor; [done|apply (node_heap _ _ _ _ Hn)].
  - done.
  - intros x b0 Hb0. eapply sim_mono; [by apply (make_slot_sim (ty, bits))| |done].
    intros [] st r t (-> & Hh & Hsc & Hho). done.
  - done.
  - cbn [walk_view walk_cursor field_i buffer_i]. intros [] w' r t (Hn' & Hfi' & Hbi' & x & Hx & -> & Hho).
    split; [done|]. split; [|by exists x]. split; [by rewrite Hfi'|]. rewrite Hfi', Hbi'. split; [lia|]. f_equal; [done|].
    rewrite Z2Nat.inj_add, <-drop_drop, <-Hbs by lia. done.
Qed.

(** The loop over the slots from [k] on. *)
Lemma set_slots_sim v a h idx : ∀ k acc w s,
  zseq 3 = zseq k ++ idx → 0 <= k <= 3 → node_at v a h w → layout_ready (view_layout v) → left_at (walk_cursor w) s →
  length acc = Z.to_nat k → Forall2 (λ b x, holds b.1 b.2 x) acc (take (Z.to_nat k) (buffer_views (walk_view w))) →
  sim oom (set_slots setter idx w)
    (spec_buffers (slots_until (drop (Z.to_nat k) (buffer_type (view_layout v)))
       (drop (Z.to_nat k) (zip (buffer_data_type (view_layout v)) (element_size_bits (view_layout v))))) s)
    (λ _ w' bs s', node_at v a h w' ∧ left_at (walk_cursor w') s' ∧
       Forall2 (λ b x, holds b.1 b.2 x) (acc ++ bs) (take (length (acc ++ bs)) (buffer_views (walk_view w'))))
    (node_at v a h).
Proof.
  induction idx as [|i idx IH]; intros k acc w s Hidx Hk Hn Hlay Hl Hacc Hho.
  - assert (k = 3) as ->.
    { apply (f_equal zlen) in Hidx. rewrite app_nil_r, !zlen_zseq in Hidx; lia. }
    pose proof Hlay as (Ht & _). rewrite drop_ge by lia. cbn [slots_until].
    split; [done|]. split; [done|]. by rewrite app_nil_r, Hacc.
  - pose proof (zseq_split _ _ _ _ Hidx) as (Hi & Hlt & _). rewrite zlen_zseq in Hi by lia. subst i.
    cbn [set_slots]. apply sim_step, wp_get.
    assert (view_layout (walk_view w) = view_layout v) as -> by (by rewrite (node_view _ _ _ _ Hn)).
    pose proof Hlay as (Ht & Hd & Hb & _). set (z := zip _ _).
    assert (length z = 3%nat) as Hz by (unfold z; rewrite length_zip; lia).
    destruct (lookup_lt_is_Some_2 (buffer_type (view_layout v)) (Z.to_nat k)) as [t Htk]; [lia|].
    destruct (lookup_lt_is_Some_2 z (Z.to_nat k)) as [slot Hslot]; [lia|].
    rewrite (znth_lookup (buffer_type _)), Htk by lia. apply sim_step, wp_ret.
    rewrite (drop_S _ _ _ Htk), (drop_S _ _ _ Hslot). cbn [slots_until].
    destruct (decide (t = NANOARROW_BUFFER_TYPE_NONE)) as [->|Hne].
    { split; [done|]. split; [done|]. by rewrite app_nil_r, Hacc. }
    assert (sim oom ((set_slot setter k ;;; set_slots setter idx) w)
      (spec_buffers (slot :: slots_until (drop (S (Z.to_nat k)) (buffer_type (view_layout v))) (drop (S (Z.to_nat k)) z)) s)
      (λ _ w' bs s', node_at v a h w' ∧ left_at (walk_cursor w') s' ∧
         Forall2 (λ b x, holds b.1 b.2 x) (acc ++ bs) (take (length (acc ++ bs)) (buffer_views (walk_view w'))))
      (node_at v a h)) as Hgo; [|by destruct t].
    cbn [column_buffers]. eapply sim_bind; [by apply set_slot_sim|].
    intros [] w1 b s1 (Hn1 & Hl1 & x & Hx & Hbx). cbv beta.
    replace (S (Z.to_nat k)) with (Z.to_nat (k + 1)) by lia.
    assert (length (buffer_views (walk_view w)) = 3%nat) as H3 by apply (node_views _ _ _ _ Hn).
    assert (zseq 3 = zseq (k + 1) ++ idx) as Hidx1 by (rewrite zseq_succ, <-app_assoc by lia; exact Hidx).
    assert (Forall2 (λ b x, holds b.1 b.2 x) (acc ++ [b]) (take (Z.to_nat (k + 1)) (buffer_views (walk_view w1)))) as Hho1.
    { replace (Z.to_nat (k + 1)) with (S (Z.to_nat k)) by lia. rewrite Hx.
      rewrite (take_S_r _ _ x) by (apply list_lookup_insert_eq; lia).
      apply Forall2_app; [by rewrite take_insert_ge by lia|]. constructor; [done|constructor]. }
    pose proof (IH (k + 1) (acc ++ [b]) w1 s1 Hidx1 ltac:(lia) Hn1 Hlay Hl1 ltac:(rewrite length_app; cbn; lia) Hho1) as Hrest.
    fold z in Hrest.
    clear -Hrest. unfold sim, mbind_ in *. destruct (spec_buffers _ s1) as [bs t'|e t'|]; [|done|done].
    destruct (set_slots setter idx w1) as [[] w'|e w'|]; [|done|done]. by rewrite <-app_assoc in Hrest.
Qed.

(** ** The walk *)
Definition node_spec (lay : ArrowLayout) : M (list (Z * Z) * list (Z * Z)) (Z * Z * list (Z * list Z)) :=
  let* n := next_node in let* bs := spec_buffers (layout_slots lay) in mret_ (n, bs).
Lemma column_of_eq v s :
  spec v s =
    match node_spec (view_layout v) s with
    | Ok (n, bs) t =>
        mbind_ (match view_children v with
                | None => mret_ []
                | Some l => columns_below (column_of body (setter_body_size setter) (setter_codec setter) (setter_swap setter)) l
                end)
          (λ cs, mret_ (Column n.1 n.2 bs cs)) t
    | Err e t => Err e t
    | UB => UB
    end.
Proof.
  destruct v as [? ? ? ? lay]. cbn [column_of]. unfold node_spec, mbind_.
  destruct (next_node s) as [n t|e t|]; [|done|done].
  change (view_layout _) with lay. by destruct (spec_buffers (layout_slots lay) t).
Qed.

Lemma set_node_sim v a c s :
  layout_ready (view_layout v) → length (buffer_views v) = 3%nat → scratch_ready a → left_at c s →
  sim oom (set_node setter (MkWalk c v a)) (node_spec (view_layout v) s)
    (λ _ w r s', node_at (set_extent (offset v) r.1.1 r.1.2 v) a (cursor_heap c) w ∧ left_at (walk_cursor w) s' ∧
       Forall2 (λ b x, holds b.1 b.2 x) r.2 (take (length r.2) (buffer_views (walk_view w))))
    (λ w, ∃ l n, node_at (set_extent (offset v) l n v) a (cursor_heap c) w).
Proof.
  intros Hlay Hviews Hsc Hl. destruct s as [[|n ns] bs]; [done|].
  destruct (left_node _ _ _ _ Hl) as (f & Hf & Hlen & Hnull). pose proof Hl as (Hfi & Hbi & [= Hns Hbs]).
  unfold set_node, node_spec. apply sim_step, wp_get. cbn [walk_cursor]. rewrite Hf. apply sim_step, wp_ret.
  rewrite Hlen. apply sim_step, wp_ret. rewrite Hnull. apply sim_step, wp_ret, sim_step, wp_mod, sim_step, wp_mod.
  cbn [walk_cursor walk_view walk_array]. change (mbind_ next_node ?k (n :: ns, bs)) with (k n (ns, bs)). cbv beta.
  set (v' := set_extent _ _ _ _). set (w := MkWalk _ v' a).
  assert (node_at v' a (cursor_heap c) w) as Hw by (by destruct v; split).
  assert (left_at (walk_cursor w) (ns, bs)) as Hl'.
  { split; [cbn; lia|]. split; [done|]. cbn [w walk_cursor field_i buffer_i]. f_equal; [|done].
    rewrite Z2Nat.inj_add, <-drop_drop, <-Hns by lia. done. }
  pose proof (set_slots_sim v' a (cursor_heap c) (zseq 3) 0 [] w (ns, bs) eq_refl ltac:(lia) Hw Hlay Hl' eq_refl) as Hsim.
  rewrite !drop_0 in Hsim. fold (layout_slots (view_layout v')) in Hsim. change (view_layout v') with (view_layout v) in Hsim.
  specialize (Hsim ltac:(constructor)). unfold sim, mbind_ in *.
  destruct (spec_buffers _ (ns, bs)) as [bl t|e t|]; [| |done].
  - destruct (set_slots setter (zseq 3) w) as [[] w'|e w'|]; [done| |done]. destruct Hsim as (? & ? & ?). split_and!; [done|done|by eexists _, _].
  - destruct (set_slots setter (zseq 3) w) as [[] w'|e' w'|]; [done| |done]. destruct Hsim as (? & ?). split; [done|by eexists _, _].
Qed.

(** The children of an array after one of them was changed. *)
Lemma child_pointer_put a i x j c :
  child_pointer (ArrayLive a) i = Some c →
  child_pointer (ArrayLive (put_array_child i x a)) j = if decide (j = i) then Some x else child_pointer (ArrayLive a) j.
Proof.
  cbn. destruct (array_children a) as [l|]; [|done]. cbn. intros Hc.
  destruct (znth l i) as [o|] eqn:Hi; [|done]. apply znth_Some in Hi.
  case_decide as Hj.
  - subst j. rewrite znth_insert by lia. by rewrite Z.eqb_refl.
  - destruct (Z.ltb_spec j 0) as [Hneg|Hpos]; [by rewrite !znth_None by lia|].
    rewrite znth_insert by lia. by destruct (Z.eqb_spec j i).
Qed.
Lemma scratch_ready_put a i x : scratch_ready a → scratch_ready (put_array_child i x a).
Proof. done. Qed.

Definition walks (v : ArrowArrayView) : Prop := ∀ arr c s,
  batch_tree v arr → left_at c s →
  sim oom (ArrowIpcDecoderWalkSetArrayView setter v arr c) (spec v s)
    (λ _ st col s', cursor_heap st.1 = cursor_heap c ∧ left_at st.1 s' ∧ batch_tree st.2.1 st.2.2 ∧ column_view col st.2.1)
    (λ st, cursor_heap st.1 = cursor_heap c ∧ batch_tree st.2.1 st.2.2).
(** The children from [i] on. *)
Record children_at (i : Z) (l : list (option ArrowArrayView)) (a : array) : Prop := {
  children_scratch : scratch_ready a;
  children_some : Forall is_Some l;
  children_trees k v : znth l k = Some (Some v) →
    ∃ arr, child_pointer (ArrayLive a) (i + k) = Some arr ∧ batch_tree v arr;
}.
Lemma znth_cons {A} (x : A) l k : 0 < k → znth (x :: l) k = znth l (k - 1).
Proof. intros. rewrite !znth_lookup by lia. by replace (Z.to_nat k) with (S (Z.to_nat (k - 1))) by lia. Qed.
Lemma children_at_put i v l a arr c :
  children_at i (Some v :: l) a → child_pointer (ArrayLive a) i = Some c →
  children_at (i + 1) l (put_array_child i arr a).
Proof.
  intros [Hsc Hs Ht] Hc. apply list.Forall_cons in Hs as [_ Hs]. split; [done|done|]. intros k v' Hk.
  pose proof (znth_Some _ _ _ Hk). destruct (Ht (k + 1) v') as (arr' & Harr & Htree).
  { rewrite znth_cons by lia. by replace (k + 1 - 1) with k by lia. }
  exists arr'. split; [|done]. rewrite (child_pointer_put _ _ _ _ _ Hc), decide_False by lia.
  by replace (i + 1 + k) with (i + (k + 1)) by lia.
Qed.
(** Putting a child back in front. *)
Lemma children_at_cons i v l a arr :
  children_at (i + 1) l a → child_pointer (ArrayLive a) i = Some arr → batch_tree v arr → children_at i (Some v :: l) a.
Proof.
  intros [Hsc Hs Ht] Hc Hv. split; [done|by constructor|]. intros k v' Hk. pose proof (znth_Some _ _ _ Hk) as [Hk0 _].
  destruct (Z.eq_dec k 0) as [->|Hne].
  - change (znth (Some v :: l) 0) with (Some (Some v)) in Hk. injection Hk as <-. rewrite Z.add_0_r. eauto.
  - rewrite znth_cons in Hk by lia. destruct (Ht _ _ Hk) as (arr' & ? & ?). exists arr'.
    by replace (i + k) with (i + 1 + (k - 1)) by lia.
Qed.

Lemma walk_list_sim nc l : ∀ i c a s,
  Forall (λ o, match o with Some v => walks v | None => True end) l →
  children_at i l a → zlen l = 0 `max` (nc - i) → left_at c s →
  sim oom (walk_set_list (ArrowIpcDecoderWalkSetArrayView setter) nc l i c a)
    (columns_below (column_of body (setter_body_size setter) (setter_codec setter) (setter_swap setter)) l s)
    (λ _ st cols s', cursor_heap st.1 = cursor_heap c ∧ left_at st.1 s' ∧ zlen st.2.1 = zlen l ∧
       children_at i st.2.1 st.2.2 ∧ (∀ j, j < i → child_pointer (ArrayLive st.2.2) j = child_pointer (ArrayLive a) j) ∧
       Forall2 (λ c o, ∃ v, o = Some v ∧ column_view c v) cols st.2.1)
    (λ st, cursor_heap st.1 = cursor_heap c ∧ zlen st.2.1 = zlen l ∧ children_at i st.2.1 st.2.2 ∧
       ∀ j, j < i → child_pointer (ArrayLive st.2.2) j = child_pointer (ArrayLive a) j).
Proof.
  induction l as [|o l IH]; intros i c a s Hwalks Hch Hlen Hl.
  - rewrite zlen_nil in Hlen. cbn [walk_set_list columns_below]. destruct (Z.ltb_spec i nc); [lia|].
    do 5 (split; [done|]). constructor.
  - rewrite zlen_cons in Hlen. pose proof (zlen_nonneg l). cbn [walk_set_list columns_below].
    destruct (Z.ltb_spec i nc); [|lia]. apply list.Forall_cons in Hwalks as [Hv Hwalks].
    pose proof (children_some _ _ _ Hch) as Hsome. apply list.Forall_cons in Hsome as [[v ->] _].
    destruct (children_trees _ _ _ Hch 0 v eq_refl) as (arr & Harr & Htree). rewrite Z.add_0_r in Harr. rewrite Harr.
    unfold mbind_ at 1. eapply sim_match; [by apply Hv| |].
    + intros e [c' [v' arr']] [Hh Ht]. cbn [fst snd] in *. eexists. split; [done|]. cbn [fst snd].
      split; [done|]. split; [by rewrite !zlen_cons|].
      split; [|intros j Hj; rewrite (child_pointer_put _ _ _ _ _ Harr); by rewrite decide_False by lia].
      eapply children_at_cons; [by eapply children_at_put| |done].
      rewrite (child_pointer_put _ _ _ _ _ Harr). by rewrite decide_True.
    + intros [] [c' [v' arr']] col s' (Hh & Hl' & Ht & Hcol). cbn [fst snd] in *. unfold mbind_ at 1.
      eapply sim_match.
      * apply (IH (i + 1) c' (put_array_child i arr' a) s'); [done|by eapply children_at_put|lia|done].
      * intros e [c2 [l2 a2]] (Hh2 & Hlen2 & Hch2 & Hold). cbn [fst snd] in *. eexists. split; [done|]. cbn [fst snd].
        split; [congruence|].
        split; [rewrite !zlen_cons; lia|].
        split; [|intros j Hj; rewrite Hold, (child_pointer_put _ _ _ _ _ Harr), decide_False by lia; done].
        eapply children_at_cons; [done| |done]. rewrite Hold, (child_pointer_put _ _ _ _ _ Harr), decide_True by lia. done.
      * intros [] [c2 [l2 a2]] cols s2 (Hh2 & Hl2 & Hlen2 & Hch2 & Hold & Hcols). cbn [fst snd] in *.
        split; [cbn; congruence|]. split; [done|]. cbn [fst snd]. split; [rewrite !zlen_cons; lia|].
        split; [|split; [intros j Hj; rewrite Hold, (child_pointer_put _ _ _ _ _ Harr), decide_False by lia; done|]].
        -- eapply children_at_cons; [done| |done]. rewrite Hold, (child_pointer_put _ _ _ _ _ Harr), decide_True by lia. done.
        -- constructor; [by exists v'|done].
Qed.

(** The children of a node whose own views are set. *)
Lemma walk_children_sim v a c w s (n : Z * Z) bs :
  (∀ cs, view_children v = Some cs →
     Forall (λ o, match o with Some v => walks v | None => True end) cs) →
  batch_tree v (ArrayLive a) → node_at (set_extent (offset v) n.1 n.2 v) a (cursor_heap c) w →
  left_at (walk_cursor w) s →
  Forall2 (λ b x, holds b.1 b.2 x) bs (take (length bs) (buffer_views (walk_view w))) →
  sim oom (walk_set_children (ArrowIpcDecoderWalkSetArrayView setter) (view_n_children v) (view_children v) w)
    (mbind_ (match view_children v with
             | None => mret_ []
             | Some l => columns_below (column_of body (setter_body_size setter) (setter_codec setter) (setter_swap setter)) l
             end) (λ cs, mret_ (Column n.1 n.2 bs cs)) s)
    (λ _ st col s', cursor_heap st.1 = cursor_heap c ∧ left_at st.1 s' ∧ batch_tree st.2.1 st.2.2 ∧ column_view col st.2.1)
    (λ st, cursor_heap st.1 = cursor_heap c ∧ batch_tree st.2.1 st.2.2).
Proof.
  intros Hwalks Htree [Hh Hview Hviews Hsc Hchildren] Hl Hho.
  inversion Htree as [o len nulls st lay views nc cs d m a' Hlay _ _ Hlen Hsome Htrees]; subst. cbn [view_children view_n_children] in *.
  specialize (Hwalks cs eq_refl). destruct w as [c1 v1 a1]. cbn [walk_cursor walk_view walk_array] in *.
  assert (∀ j, child_pointer (ArrayLive a1) j = child_pointer (ArrayLive a) j) as Hptr by (intros j; cbn; by rewrite Hchildren).
  assert (∀ l' a2, zlen l' = zlen cs → children_at 0 l' a2 →
    batch_tree (set_view_children nc (Some l') v1) (ArrayLive a2)) as Hback.
  { intros l' a2 Hl' [? ? Ht]. rewrite Hview. cbn. constructor; [done|done|done|lia|done|exact Ht]. }
  cbn [walk_set_children]. unfold mbind_. eapply sim_match.
  - apply (walk_list_sim nc cs 0 c1 a1 s); [done| |lia|done]. split; [done|done|].
    intros k v Hk. rewrite Z.add_0_l, Hptr. by apply Htrees.
  - intros e [c2 [l2 a2]] (Hh2 & Hlen2 & Hch2 & _). cbn [fst snd] in *. eexists. split; [done|]. cbn [fst snd].
    split; [congruence|by apply Hback].
  - intros [] [c2 [l2 a2]] cols s2 (Hh2 & Hl2 & Hlen2 & Hch2 & _ & Hcols). cbn [fst snd] in *.
    split; [cbn; congruence|]. cbn [fst snd]. split; [done|]. split; [by apply Hback|].
    rewrite Hview. cbn. by constructor.
Qed.
Lemma walk_sim v : walks v.
Proof.
  induction v as [o l n st lay b nc ch d m IHch _] using ArrowArrayView_nested_ind. intros arr c s Htree Hl.
  set (v := MkArrayView o l n st lay b nc ch d m) in *.
  assert (∃ a, arr = ArrayLive a) as [a ->] by (inversion Htree; eauto).
  assert (layout_ready (view_layout v) ∧ length (buffer_views v) = 3%nat ∧ scratch_ready a) as (Hlay & Hviews & Hsc)
    by (inversion Htree; done).
  rewrite column_of_eq.
  change (ArrowIpcDecoderWalkSetArrayView setter v (ArrayLive a) c) with
    (match set_node setter (MkWalk c v a) with
     | UB => UB
     | Err e w => Err e (walk_cursor w, (walk_view w, ArrayLive (walk_array w)))
     | Ok _ w => walk_set_children (ArrowIpcDecoderWalkSetArrayView setter) nc ch w
     end).
  eapply sim_match; [by apply set_node_sim| |].
  - intros e w (l' & n' & [Hh Hview Hvs Hs Hch]). eexists. split; [done|]. cbn [fst snd]. split; [done|].
    rewrite Hview. inversion Htree; subst. cbn in *. constructor; [done|done|done|done|done|].
    intros i v' Hv'. cbn [child_pointer]. rewrite Hch. eauto.
  - intros [] w [n' bs] t (Hnode & Hleft & Hho). cbn [fst snd] in *.
    apply (walk_children_sim v a c w t n' bs); [|done..].
    intros cs Hcs. cbn in Hcs. by rewrite Hcs in IHch.
Qed.
End batch.

(** ** Enough nodes and buffers *)
Section enough.
Variables (body : list Z) (body_size codec : Z) (swap : bool).
Abbreviation any := (λ (_ : errno) (_ : list (Z * Z) * list (Z * Z)), True).
(** At least [kn] nodes and [kb] buffers are left. *)
Definition remain (kn kb : Z) (s : list (Z * Z) * list (Z * Z)) : Prop := kn <= zlen s.1 ∧ kb <= zlen s.2.

Lemma slots_until_bound ts l : zlen (slots_until ts l) <= zlen (filter (λ t, t ≠ NANOARROW_BUFFER_TYPE_NONE) ts).
Proof.
  revert l. induction ts as [|t ts IH]; intros l; [done|]. rewrite filter_cons.
  destruct (decide (t = NANOARROW_BUFFER_TYPE_NONE)) as [->|Hne].
  - rewrite decide_False by (by intros ?). apply zlen_nonneg.
  - rewrite decide_True by done. rewrite zlen_cons. specialize (IH (drop 1 l)).
    pose proof (zlen_nonneg (filter (λ t, t ≠ NANOARROW_BUFFER_TYPE_NONE) ts)).
    destruct t, l as [|x l]; try done; cbn in *; rewrite ?zlen_cons, ?zlen_nil; rewrite ?drop_0 in IH; lia.
Qed.
Lemma column_buffers_enough slots : ∀ kn kb s,
  0 <= kb → remain kn (zlen slots + kb) s →
  wp (column_buffers body body_size codec swap slots) s (λ _, remain kn kb) any.
Proof.
  induction slots as [|slot slots IH]; intros kn kb [ns bs] Hkb [Hn Hb]; [by apply wp_ret|].
  cbn [fst snd] in *. rewrite zlen_cons in Hb. pose proof (zlen_nonneg slots).
  destruct bs as [|b bs]; [rewrite zlen_nil in Hb; lia|]. rewrite zlen_cons in Hb.
  cbn [column_buffers]. apply wp_bind. unfold column_buffer. apply wp_bind, wp_ret.
  destruct (buffer_spec _ _ _ _ _) as [e|l]; [by apply wp_fail|]. apply wp_ret, wp_bind.
  eapply wp_mono; [apply (IH kn kb); [done|split; cbn; lia]| |done]. intros ls s' Hs'. by apply wp_ret.
Qed.
Definition column_enough (v : ArrowArrayView) : Prop := ∀ path kn kb s,
  0 <= kn → 0 <= kb → remain (zlen (nodes_of path v) + kn) (buffers_of (nodes_of path v) + kb) s →
  wp (column_of body body_size codec swap v) s (λ _, remain kn kb) any.
Lemma buffers_of_nonneg l : 0 <= buffers_of l.
Proof.
  unfold buffers_of, layout_buffers. induction l as [|[p lay] l IH]; cbn; [done|].
  pose proof (zlen_nonneg (filter (λ t, t ≠ NANOARROW_BUFFER_TYPE_NONE) (buffer_type lay))). lia.
Qed.
Lemma columns_below_enough path l : ∀ i kn kb s,
  Forall is_Some l → Forall (λ o, match o with Some v => column_enough v | None => True end) l →
  0 <= kn → 0 <= kb →
  remain (zlen (nodes_below nodes_of path l i) + kn) (buffers_of (nodes_below nodes_of path l i) + kb) s →
  wp (columns_below (column_of body body_size codec swap) l) s (λ _, remain kn kb) any.
Proof.
  induction l as [|o l IH]; intros i kn kb s Hsome Hall Hkn Hkb Hs; [by apply wp_ret|].
  apply list.Forall_cons in Hsome as [[v ->] Hsome]. apply list.Forall_cons in Hall as [Hv Hall].
  cbn [nodes_below columns_below] in *. unfold remain in Hs. rewrite zlen_app, buffers_of_app in Hs.
  set (r := nodes_below nodes_of path l (i + 1)) in *. pose proof (zlen_nonneg r). pose proof (buffers_of_nonneg r).
  apply wp_bind. eapply wp_mono; [apply (Hv (path ++ [i]) (zlen r + kn) (buffers_of r + kb)); unfold remain; lia| |done].
  intros c s1 Hs1. apply wp_bind. eapply wp_mono; [by apply (IH (i + 1) kn kb)| |done].
  intros cs s2 Hs2. by apply wp_ret.
Qed.
Lemma column_of_enough v : view_wf v → column_enough v.
Proof.
  induction v as [o l n st lay b nc ch d m IHch _] using ArrowArrayView_nested_ind. intros Hwf path kn kb [ns bs] Hkn Hkb Hs.
  inversion Hwf as [? ? ? ? ? ? ? cs ? ? _ _ _ _ Hcs _]; subst. cbn [nodes_of column_of] in *.
  unfold remain in Hs. cbn [fst snd] in Hs. rewrite zlen_cons in Hs. unfold buffers_of in Hs. cbn [foldr snd] in Hs.
  fold (buffers_of (nodes_below nodes_of path cs 0)) in Hs. set (r := nodes_below nodes_of path cs 0) in *.
  pose proof (zlen_nonneg r). pose proof (buffers_of_nonneg r).
  destruct ns as [|n0 ns]; [rewrite zlen_nil in Hs; lia|]. rewrite zlen_cons in Hs. apply wp_bind, wp_ret, wp_bind.
  pose proof (slots_until_bound (buffer_type lay) (zip (buffer_data_type lay) (element_size_bits lay))) as Hslots.
  fold (layout_slots lay) (layout_buffers lay) in Hslots.
  eapply wp_mono; [apply (column_buffers_enough _ (zlen r + kn) (buffers_of r + kb)); [lia|split; cbn; lia]| |done].
  intros bl s1 Hs1. apply wp_bind. eapply wp_mono; [apply (columns_below_enough path cs 0 kn kb); [| |done|done|done]| |done].
  - eapply Forall_impl; [|exact Hcs]. intros c (v & -> & _). by eexists.
  - rewrite Forall_lookup in Hcs, IHch |- *. intros i c Hc. destruct (Hcs i c Hc) as (v & -> & Hv).
    by apply (IHch i (Some v) Hc).
  - intros cols s2 Hs2. by apply wp_ret.
Qed.
End enough.

(** ** The node of an entry *)
Lemma nodes_below_at q l : ∀ i (k : nat) path lay,
  Forall (λ o, match o with
    | Some v => ∀ q (k : nat) path lay, nodes_of q v !! k = Some (path, lay) →
        ∃ rel sub post, path = q ++ rel ∧ view_at rel v = Some sub ∧
          nodes_of q v = take k (nodes_of q v) ++ nodes_of path sub ++ post
    | None => True end) l →
  nodes_below nodes_of q l i !! k = Some (path, lay) →
  ∃ j v rel sub post, l !! j = Some (Some v) ∧ path = q ++ (i + Z.of_nat j) :: rel ∧ view_at rel v = Some sub ∧
    nodes_below nodes_of q l i = take k (nodes_below nodes_of q l i) ++ nodes_of path sub ++ post.
Proof.
  induction l as [|o l IH]; intros i k path lay Hall Hk; [done|]. apply list.Forall_cons in Hall as [Hv Hall].
  destruct o as [v|]; cbn [nodes_below] in *.
  - destruct (Nat.lt_ge_cases k (length (nodes_of (q ++ [i]) v))) as [Hlt|Hge].
    + rewrite lookup_app_l in Hk by done.
      destruct (Hv _ _ _ _ Hk) as (rel & sub & post & -> & Hsub & Heq).
      exists 0%nat, v, rel, sub, (post ++ nodes_below nodes_of q l (i + 1)). split; [done|].
      split; [by rewrite Z.add_0_r, <-app_assoc|]. split; [done|].
      rewrite take_app_le by lia. rewrite Heq at 1. by rewrite <-!app_assoc.
    + rewrite lookup_app_r in Hk by lia.
      destruct (IH (i + 1) _ _ _ Hall Hk) as (j & v' & rel & sub & post & Hj & -> & Hsub & Heq).
      exists (S j), v', rel, sub, post. split; [done|]. split; [do 2 f_equal; lia|]. split; [done|].
      rewrite take_app_ge by lia. rewrite <-app_assoc. f_equal. rewrite Heq at 1. done.
  - destruct (IH (i + 1) _ _ _ Hall Hk) as (j & v' & rel & sub & post & Hj & -> & Hsub & Heq).
    exists (S j), v', rel, sub, post. split; [done|]. split; [do 2 f_equal; lia|]. by split.
Qed.
(** The entry [k] of the nodes is the node at its path, and its own nodes start there. *)
Lemma nodes_of_at v : ∀ q (k : nat) path lay,
  nodes_of q v !! k = Some (path, lay) →
  ∃ rel sub post, path = q ++ rel ∧ view_at rel v = Some sub ∧
    nodes_of q v = take k (nodes_of q v) ++ nodes_of path sub ++ post.
Proof.
  induction v as [o l n st lay0 b nc ch d m IHch _] using ArrowArrayView_nested_ind. intros q k path lay Hk.
  set (v := MkArrayView o l n st lay0 b nc ch d m). destruct k as [|k].
  { cbn in Hk. injection Hk as <- <-. exists [], v, []. rewrite !app_nil_r. split_and!; [done..|]. done. }
  cbn [nodes_of] in Hk. cbn in Hk. destruct ch as [cs|]; [|done].
  destruct (nodes_below_at q cs 0 k path lay IHch Hk) as (j & c & rel & sub & post & Hj & Hpath & Hsub & Heq).
  rewrite Z.add_0_l in Hpath. exists (Z.of_nat j :: rel), sub, post. split; [done|]. split.
  - cbn [view_at]. unfold view_child. cbn. rewrite znth_lookup by lia. by rewrite Nat2Z.id, Hj.
  - cbn [nodes_of take]. cbn. by rewrite Heq at 1.
Qed.
Lemma fields_of_lookup l : ∀ n (k : nat) f,
  fields_of n l !! k = Some f →
  ∃ path lay, l !! k = Some (path, lay) ∧ f = MkIpcField (Some path) (n + buffers_of (take k l)).
Proof.
  induction l as [|[path lay] l IH]; intros n k f Hk; [done|]. destruct k as [|k]; cbn in Hk.
  - injection Hk as <-. exists path, lay. split; [done|]. f_equal. cbn. lia.
  - destruct (IH _ _ _ Hk) as (path' & lay' & Hl & ->). exists path', lay'. split; [done|]. f_equal.
    unfold buffers_of. cbn. lia.
Qed.

(** ** Along a path *)
Lemma batch_tree_at path : ∀ v arr sub,
  batch_tree v arr → view_at path v = Some sub → ∃ arr', array_at path arr = Some arr' ∧ batch_tree sub arr'.
Proof.
  induction path as [|i path IH]; intros v arr sub Ht Hv; [injection Hv as <-; by exists arr|].
  inversion Ht as [? ? ? ? ? ? ? cs ? ? a ? ? ? ? ? Htrees]; subst. cbn [view_at] in Hv. unfold view_child in Hv. cbn in Hv.
  destruct (znth cs i) as [[c|]|] eqn:Hc; try done. destruct (Htrees i c Hc) as (arr & Harr & Htc).
  destruct (IH _ _ _ Htc Hv) as (arr' & Ha & Hsub). exists arr'. split; [|done].
  cbn [array_at]. by rewrite Harr.
Qed.
Lemma walk_at_eq f path : ∀ v arr v1 arr1 c,
  view_at path v = Some v1 → array_at path arr = Some arr1 →
  walk_at path f v arr c =
    match f v1 arr1 c with
    | UB => UB
    | Err e (c', (v2, arr2)) => Err e (c', (put_view_at path v2 v, put_array_at path arr2 arr))
    | Ok _ (c', (v2, arr2)) => Ok tt (c', (put_view_at path v2 v, put_array_at path arr2 arr))
    end.
Proof.
  induction path as [|i path IH]; intros v arr v1 arr1 c Hv Ha.
  { injection Hv as ->. injection Ha as ->. cbn. by destruct (f v1 arr1 c) as [[] [? []]|? [? []]|]. }
  cbn [view_at array_at walk_at put_view_at put_array_at] in *.
  destruct (view_child v i) as [v'|]; [|done]. destruct arr as [|a]; [done|].
  destruct (child_pointer (ArrayLive a) i) as [arr'|]; [|done]. cbn [mbind option_bind] in Hv, Ha.
  rewrite (IH _ _ _ _ _ Hv Ha). by destruct (f v1 arr1 c) as [[] [? []]|? [? []]|].
Qed.
Lemma view_child_put i x v c : view_child v i = Some c → view_child (put_view_child i x v) i = Some x.
Proof.
  unfold view_child, put_view_child. destruct v as [? ? ? ? ? ? ? [cs|]]; [|done]. cbn. intros Hc.
  destruct (znth cs i) as [o|] eqn:Hi; [|done]. apply znth_Some in Hi. rewrite znth_insert by lia. by rewrite Z.eqb_refl.
Qed.
Lemma view_at_put path x : ∀ v v1, view_at path v = Some v1 → view_at path (put_view_at path x v) = Some x.
Proof.
  induction path as [|i path IH]; intros v v1 Hv; [done|]. cbn [view_at put_view_at] in *.
  destruct (view_child v i) as [c|] eqn:Hc; [|done]. cbn in Hv. rewrite (view_child_put _ _ _ _ Hc). cbn.
  by apply (IH c v1).
Qed.
Lemma batch_tree_put path x arrx : ∀ v arr v1 arr1,
  batch_tree v arr → view_at path v = Some v1 → array_at path arr = Some arr1 → batch_tree x arrx →
  batch_tree (put_view_at path x v) (put_array_at path arrx arr).
Proof.
  induction path as [|i path IH]; intros v arr v1 arr1 Ht Hv Ha Hx; [done|].
  inversion Ht as [o l n st lay views nc cs d m a Hlay Hvs Hsc Hlen Hsome Htrees]; subst.
  cbn [view_at array_at put_view_at put_array_at] in *. unfold view_child in *. cbn [view_children mbind option_bind] in *.
  destruct (znth cs i) as [[c|]|] eqn:Hc; try done. cbn [mbind option_bind] in *.
  destruct (Htrees i c Hc) as (arr & Harr & Htc). rewrite Harr in *. cbn [mbind option_bind] in Ha.
  specialize (IH _ _ _ _ Htc Hv Ha Hx). pose proof (znth_Some _ _ _ Hc) as Hi. cbn.
  constructor; [done|done|done|by rewrite zlen_insert|by apply Forall_insert|].
  intros k v' Hk. pose proof (znth_Some _ _ _ Hk) as Hk'. rewrite zlen_insert in Hk'.
  rewrite (child_pointer_put _ _ _ _ _ Harr). rewrite znth_insert in Hk by lia.
  destruct (Z.eqb_spec k i) as [->|Hne].
  - injection Hk as <-. rewrite decide_True by done. eauto.
  - rewrite decide_False by done. by apply Htrees.
Qed.

(** ** Decoding *)

(** The column of entry [i], with the buffer offset [n] of the entry: for the root
    the columns below it, with the length of the batch. *)
Definition entry_column (body : list Z) (d : ArrowIpcDecoder) (swap : bool) (len : Z) (nodes bufs : list (Z * Z))
    (i n : Z) (v : ArrowArrayView) : outcome (list (Z * Z) * list (Z * Z)) column :=
  if i =? -1 then
    mbind_ (match view_children v with
            | None => mret_ []
            | Some l => columns_below (column_of body (body_size_bytes d) (codec d) swap) l
            end) (λ cs, mret_ (Column len 0 [] cs)) (nodes, bufs)
  else column_of body (body_size_bytes d) (codec d) swap v (drop (Z.to_nat i) nodes, drop (Z.to_nat (n - 1)) bufs).

(** A decoder that has just decoded the header of a record batch, after a schema
    was set; [root] is the view it made of the schema. *)
Record batch_ready (d : ArrowIpcDecoder) (p : ArrowIpcDecoderPrivate) (m : list Z) (batch len : Z)
    (body : list Z) (nodes bufs : list (Z * Z)) : Prop := {
  ready_private : decoder_private d = Some p;
  ready_message : last_message p = Some (m, batch);
  ready_type : message_type d = NANOARROW_IPC_MESSAGE_TYPE_RECORD_BATCH;
  ready_length : RecordBatch_length m (Some batch) = Some len;
  ready_nodes : ∃ nl, RecordBatch_nodes m (Some batch) = Some nl ∧ batch_nodes m nl = Some nodes;
  ready_buffers : ∃ bl, RecordBatch_buffers m (Some batch) = Some bl ∧ batch_buffers m bl = Some bufs;
  ready_fields : fields p = FieldsAt (fields_of 0 (nodes_of [] (array_view p)));
  ready_view : view_wf (array_view p);
  ready_struct : layout_buffers (view_layout (array_view p)) = 1;
  ready_tree : batch_tree (array_view p) (scratch_array p);
  ready_n_nodes : zlen nodes = view_count (array_view p) - 1;
  ready_n_buffers : zlen bufs = buffers_of (nodes_of [] (array_view p)) - 1;
  ready_body : body_size_bytes d <= zlen body <= 2 ^ 60;
  ready_bytes : bytes_ok body;
  ready_ranges : Forall (λ b, 0 <= b.2 ∧ b.1 + b.2 <= INT64_MAX) bufs;
}.

Section decode.
Context `{!Libc}.
Variables (d : ArrowIpcDecoder) (p : ArrowIpcDecoderPrivate) (m : list Z) (batch len : Z) (body : list Z) (nodes bufs : list (Z * Z)).
Hypothesis Hready : batch_ready d p m batch len body nodes bufs.
Abbreviation swap := (ArrowIpcDecoderNeedsSwapEndian p).

Lemma view_wf_at path : ∀ v sub, view_wf v → view_at path v = Some sub → view_wf sub.
Proof.
  induction path as [|i path IH]; intros v sub Hwf Hv; [by injection Hv as <-|].
  inversion Hwf as [? ? ? ? ? ? ? cs ? ? _ _ _ _ Hcs _]; subst. cbn [view_at] in Hv. unfold view_child in Hv. cbn in Hv.
  destruct (znth cs i) as [[c|]|] eqn:Hc; try done. pose proof (znth_Some _ _ _ Hc). rewrite znth_lookup in Hc by lia.
  destruct (Forall_lookup_1 _ _ _ _ Hcs Hc) as (c' & [= <-] & Hwc). by apply (IH c).
Qed.
(** Every entry is a node of the view, with enough of the message left for it. *)
Lemma entry_at i :
  -1 <= i < zlen nodes →
  ∃ path n sub, field_entry p i = Some (path, n) ∧ view_at path (array_view p) = Some sub ∧
    (i = -1 → n = 0 ∧ path = []) ∧ (i ≠ -1 → 1 <= n) ∧
    entry_column body d swap len nodes bufs i n sub ≠ UB.
Proof.
  intros Hi. pose proof (ready_n_nodes _ _ _ _ _ _ _ _ Hready) as Hnn. pose proof (ready_n_buffers _ _ _ _ _ _ _ _ Hready) as Hnb.
  pose proof (ready_view _ _ _ _ _ _ _ _ Hready) as Hwf. pose proof (ready_struct _ _ _ _ _ _ _ _ Hready) as Hst.
  unfold view_count in Hnn. set (v := array_view p) in *. set (ns := nodes_of [] v) in *.
  destruct (lookup_lt_is_Some_2 (fields_of 0 ns) (Z.to_nat (i + 1))) as [f Hf].
  { pose proof (zlen_fields_of 0 ns) as Hl. unfold zlen in *. lia. }
  destruct (fields_of_lookup _ _ _ _ Hf) as (path & lay & Hk & ->). rewrite Z.add_0_l in *.
  destruct (nodes_of_at v [] _ _ _ Hk) as (rel & sub & post & Hpath & Hsub & Heq). cbn in Hpath. subst rel. fold ns in Heq.
  exists path, (buffers_of (take (Z.to_nat (i + 1)) ns)), sub. split.
  { unfold field_entry. rewrite (ready_fields _ _ _ _ _ _ _ _ Hready). fold v ns. rewrite znth_lookup, Hf by lia. done. }
  split; [done|]. pose proof (f_equal zlen Heq) as Hz. rewrite !zlen_app, zlen_take in Hz by lia.
  pose proof (f_equal buffers_of Heq) as Hb. rewrite !buffers_of_app in Hb.
  pose proof (buffers_of_nonneg post). pose proof (zlen_nonneg post).
  assert (∃ below, ns = ([], view_layout v) :: below) as [below Hns] by (unfold ns; destruct v; cbn [nodes_of]; eauto).
  destruct (Z.eq_dec i (-1)) as [->|Hne].
  - cbn in Hk. rewrite Hns in Hk. injection Hk as <- _. injection Hsub as <-. split; [done|]. split; [done|].
    unfold entry_column. cbn [Z.eqb]. inversion Hwf as [o l n st lay0 b nc cs dd mp _ _ _ _ Hcs _ Hv]. clear Heq Hz Hb Hf.
    unfold ns in Hnn, Hnb. rewrite <-Hv in Hnn, Hnb, Hst. cbn [nodes_of] in Hnn, Hnb. rewrite zlen_cons in Hnn.
    unfold buffers_of in Hnb. cbn [foldr snd] in Hnb. change (layout_buffers lay0 = 1) in Hst.
    fold (buffers_of (nodes_below nodes_of [] cs 0)) in Hnb. cbn [view_children].
    apply (wp_not_UB _ _ (λ _ _, True) (λ _ _, True)), wp_bind.
    eapply wp_mono; [apply (columns_below_enough body (body_size_bytes d) (codec d) swap [] cs 0 0 0)| |done].
    + eapply Forall_impl; [|exact Hcs]. intros c (? & -> & _). by eexists.
    + eapply Forall_impl; [|exact Hcs]. intros c (? & -> & ?). by apply column_of_enough.
    + done.
    + done.
    + split; cbn [fst snd]; lia.
    + intros. by apply wp_ret.
  - assert (1 <= buffers_of (take (Z.to_nat (i + 1)) ns)) as Hn1.
    { rewrite Hns. replace (Z.to_nat (i + 1)) with (S (Z.to_nat i)) by lia. unfold buffers_of. cbn [take foldr snd].
      fold (buffers_of (take (Z.to_nat i) below)). pose proof (buffers_of_nonneg (take (Z.to_nat i) below)). lia. }
    split; [done|]. split; [done|]. unfold entry_column. destruct (Z.eqb_spec i (-1)); [done|].
    pose proof (column_of_enough body (body_size_bytes d) (codec d) swap sub (view_wf_at _ _ _ Hwf Hsub) path 0 0
      (drop (Z.to_nat i) nodes, drop (Z.to_nat (buffers_of (take (Z.to_nat (i + 1)) ns) - 1)) bufs)) as Hen.
    eapply wp_not_UB, Hen; [done|done|]. pose proof (buffers_of_nonneg (nodes_of path sub)).
    split; cbn [fst snd]; rewrite zlen_drop; lia.
Qed.

(** A walk of the node at a path, put back into the two trees. *)
Lemma put_sim oom path v arr sub arr1 h :
  batch_tree v arr → view_at path v = Some sub → array_at path arr = Some arr1 →
  ∀ nodes bufs (r : outcome (cursor * (ArrowArrayView * ArrowArray)) unit)
    (spec : outcome (list (Z * Z) * list (Z * Z)) column),
  sim oom r spec
    (λ _ st col s', cursor_heap st.1 = h ∧ left_at nodes bufs st.1 s' ∧ batch_tree st.2.1 st.2.2 ∧ column_view col st.2.1)
    (λ st, cursor_heap st.1 = h ∧ batch_tree st.2.1 st.2.2) →
  sim oom
    (match r with
     | UB => UB
     | Err e (c', (v2, arr2)) => Err e (c', (put_view_at path v2 v, put_array_at path arr2 arr))
     | Ok _ (c', (v2, arr2)) => Ok tt (c', (put_view_at path v2 v, put_array_at path arr2 arr))
     end) spec
    (λ _ st col _, cursor_heap st.1 = h ∧ batch_tree st.2.1 st.2.2 ∧ ∃ v', view_at path st.2.1 = Some v' ∧ column_view col v')
    (λ st, cursor_heap st.1 = h ∧ batch_tree st.2.1 st.2.2).
Proof.
  intros Ht Hv Ha nodes0 bufs0 r spec. unfold sim.
  destruct spec as [col t|e t|]; [| |done]; destruct r as [[] [c [v2 arr2]]|e' [c [v2 arr2]]|]; try done; cbn [fst snd].
  - intros (Hh & _ & Htree & Hcol). split; [done|]. split; [by eapply batch_tree_put|]. exists v2. split; [|done].
    by eapply view_at_put.
  - intros (-> & Ho & Hh & Htree). split; [done|]. split; [done|]. split; [done|]. by eapply batch_tree_put.
  - intros (He & Hh & Htree). split; [done|]. split; [done|]. by eapply batch_tree_put.
Qed.
Lemma decode_entry_wp i body_size path n sub h :
  field_entry p i = Some (path, n) → view_at path (array_view p) = Some sub →
  (i = -1 → n = 0) → (i ≠ -1 → 0 <= i ∧ 1 <= n) → entry_column body d swap len nodes bufs i n sub ≠ UB →
  wp (ArrowIpcDecoderDecodeArrayView (MkView (Some body) body_size) i) (h, d)
    (λ path' st, path' = path ∧ st.1 = h ∧ ∃ p' v' col t,
       decoder_private st.2 = Some p' ∧ batch_tree (array_view p') (scratch_array p') ∧
       view_at path (array_view p') = Some v' ∧
       entry_column body d swap len nodes bufs i n sub = Ok col t ∧ column_view col v')
    (λ e st, st.1 = h ∧ (∃ p', decoder_private st.2 = Some p' ∧ batch_tree (array_view p') (scratch_array p')) ∧
       ((∃ t, entry_column body d swap len nodes bufs i n sub = Err e t) ∨ e = ENOMEM ∧ swap = true)).
Proof.
  intros Hentry Hsub Hroot Hfield Hspec. destruct Hready as [Hp Hm Hty Hlen (nl & Hnl & Hns) (bl & Hbl & Hbs) _ _ _ Htree _ _ Hbody Hby Hr].
  destruct (batch_tree_at _ _ _ _ Htree Hsub) as (arr & Harr & Hsubtree).
  set (setter := MkSetter m nl bl (body_size_bytes d) (codec d) swap
    (ArrowIpcBufferFactoryFromView (MkView (Some body) body_size))).
  set (walk := if i =? -1 then walk_at path (set_root setter (Some batch)) (array_view p) (scratch_array p) (MkCursor h 0 n)
    else walk_at path (ArrowIpcDecoderWalkSetArrayView setter) (array_view p) (scratch_array p) (MkCursor h i (n - 1))).
  assert (sim (swap = true) walk (entry_column body d swap len nodes bufs i n sub)
    (λ _ st col _, cursor_heap st.1 = h ∧ batch_tree st.2.1 st.2.2 ∧ ∃ v', view_at path st.2.1 = Some v' ∧ column_view col v')
    (λ st, cursor_heap st.1 = h ∧ batch_tree st.2.1 st.2.2)) as Hsim.
  { unfold walk, entry_column. destruct (Z.eqb_spec i (-1)) as [Hi|Hi]; rewrite (walk_at_eq _ _ _ _ _ _ _ Hsub Harr);
      apply (put_sim _ path (array_view p) (scratch_array p) sub arr h Htree Hsub Harr nodes bufs).
    - rewrite (Hroot Hi). assert (∃ a, arr = ArrayLive a) as [a ->] by (inversion Hsubtree; eauto).
      unfold set_root. cbn [setter setter_message]. rewrite Hlen.
      apply (walk_children_sim setter body nodes bufs sub a (MkCursor h 0 0)
        (MkWalk (MkCursor h 0 0) (set_extent (offset sub) len 0 sub) a) (nodes, bufs) (len, 0) []); [|done| |done|constructor].
      + intros cs _. apply Forall_forall. intros [c|] _; [|done]. by apply (walk_sim setter body body_size).
      + inversion Hsubtree; subst. by split.
    - destruct (Hfield Hi) as [Hi0 Hn1].
      apply (walk_sim setter body body_size nodes bufs eq_refl Hbody Hby Hns Hbs Hr sub arr (MkCursor h i (n - 1))); [done|].
      split; [done|]. split; [cbn; lia|done]. }
  unfold ArrowIpcDecoderDecodeArrayView, ArrowIpcDecoderDecodeArrayViewInternal, wp.
  rewrite Hp, Hm, Hty, Z.eqb_refl, Hentry, Hnl, Hbl. cbv zeta. fold setter. fold walk.
  unfold sim in Hsim. destruct (entry_column _ _ _ _ _ _ _ _ _) as [col t|e t|]; [| |done].
  - destruct walk as [[] [c' [v' a']]|e [c' [v' a']]|]; [| |done]; cbn [fst snd] in *.
    + destruct Hsim as (-> & Ht & v2 & Hv2 & Hcol). split; [done|]. split; [done|].
      eexists _, v2, col, t. split; [done|]. by split.
    + destruct Hsim as (-> & Ho & -> & Ht). split; [done|]. split; [by eexists|by right].
  - destruct walk as [[] [c' [v' a']]|e' [c' [v' a']]|]; [done| |done]; cbn [fst snd] in *.
    destruct Hsim as (He & -> & Ht). split; [done|]. split; [by eexists|]. destruct He as [->|?]; [left; by eexists|by right].
Qed.
End decode.

(** Decoding a record batch gives the columns the message describes: for the root
    and for every field, the view of its node and of all nodes below has the
    lengths and null counts of the nodes of the message, taken depth first, and
    its buffers have the bytes at the places the message gives, in the byte order
    of the system. *)
Lemma decode_array_view_wp (libc : Libc) (d : ArrowIpcDecoder) (p : ArrowIpcDecoderPrivate) (m : list Z)
    (batch len : Z) (body : list Z) (nodes bufs : list (Z * Z)) (body_size i : Z) (h : shared_heap)
    (Hready : batch_ready d p m batch len body nodes bufs) (Hi : -1 <= i < zlen nodes) :
  ∃ path n sub, field_entry p i = Some (path, n) ∧ view_at path (array_view p) = Some sub ∧
    wp (ArrowIpcDecoderDecodeArrayView (MkView (Some body) body_size) i) (h, d)
      (λ path' st, path' = path ∧ st.1 = h ∧ ∃ p' v' col t,
         decoder_private st.2 = Some p' ∧ batch_tree (array_view p') (scratch_array p') ∧
         view_at path (array_view p') = Some v' ∧
         entry_column body d (ArrowIpcDecoderNeedsSwapEndian p) len nodes bufs i n sub = Ok col t ∧ column_view col v')
      (λ e st, st.1 = h ∧ (∃ p', decoder_private st.2 = Some p' ∧ batch_tree (array_view p') (scratch_array p')) ∧
         ((∃ t, entry_column body d (ArrowIpcDecoderNeedsSwapEndian p) len nodes bufs i n sub = Err e t) ∨
          e = ENOMEM ∧ ArrowIpcDecoderNeedsSwapEndian p = true)).
Proof.
  destruct (entry_at d p m batch len body nodes bufs Hready i Hi) as (path & n & sub & He & Hs & Hroot & Hn & Hub).
  exists path, n, sub. split; [done|]. split; [done|].
  apply (decode_entry_wp d p m batch len body nodes bufs Hready); [done|done| | |done].
  - intros Hx. by apply Hroot.
  - intros Hx. split; [lia|by apply Hn].
Qed.
