(* ===== verification/IpcSession.v ===== *)
(** * A decoder from its schema on (nanoarrow_ipc.c)

    [ArrowIpcDecoderSetSchema] prepares a decoder, the headers of messages are
    verified and decoded, and record batches are decoded field by field.  The
    file joins the theorems on these functions: [batch_inv] is an invariant that
    setting a schema establishes and that every later call keeps, whether it
    succeeds or fails, and it is all that decoding a record batch needs of the
    decoder. *)

From stdpp Require Import base numbers list option strings gmap.
From S2P Require Import Prelude CInt CString Buffer Bitmap Types Metadata Schema SchemaView ArrayView ArrayViewSafety Array.
From S2P Require Import FlatBuffers Message IpcSchema IpcSchemaSpec IpcShared IpcDecoder IpcFields IpcBody IpcSwap IpcBatch.
#[local] Open Scope Z_scope.
#[local] Open Scope c_scope.
#[local] Set Warnings "-register-all".
#[local] Abbreviation length := Datatypes.length.

(** ** What a walk does not change *)

(** A view without the extents and the buffers of its nodes. *)
Fixpoint skeleton (v : ArrowArrayView) : ArrowArrayView :=
  match v with
  | MkArrayView _ _ _ st lay views nc ch d m =>
      MkArrayView 0 0 0 st lay ((λ _, MkView None 0) <$> views) nc (option_map (map (option_map skeleton)) ch) d m
  end.
Abbreviation skeletons := (map (option_map skeleton)).
Lemma lookup_skeletons l (i : nat) : skeletons l !! i = option_map skeleton <$> l !! i.
Proof. revert i. induction l as [|o l IH]; intros [|i]; cbn; auto. Qed.
Lemma length_skeletons l : length (skeletons l) = length l.
Proof. induction l; cbn; auto. Qed.

Lemma nodes_below_skeleton path l : ∀ i,
  Forall (λ o, match o with Some v => ∀ path, nodes_of path (skeleton v) = nodes_of path v | None => True end) l →
  nodes_below nodes_of path (skeletons l) i = nodes_below nodes_of path l i.
Proof.
  induction l as [|[v|] l IH]; intros i Hl; [done| |]; apply list.Forall_cons in Hl as [Hv Hl];
    cbn; [by rewrite Hv, IH|by apply IH].
Qed.
Lemma nodes_of_skeleton v : ∀ path, nodes_of path (skeleton v) = nodes_of path v.
Proof.
  induction v as [o l n st lay b nc ch d m IHch _] using ArrowArrayView_nested_ind. intros path.
  cbn [skeleton nodes_of]. f_equal. destruct ch as [cs|]; [|done]. by apply nodes_below_skeleton.
Qed.
Lemma view_wf_skeleton v : view_wf v → ∀ v', skeleton v' = skeleton v → view_wf v'.
Proof.
  induction v as [o l n st lay b nc ch d m IHch _] using ArrowArrayView_nested_ind.
  intros Hwf [o' l' n' st' lay' b' nc' ch' d' m'] Heq.
  inversion Hwf as [? ? ? ? ? ? ? cs ? ? Hlay Hb Hmax Hlen Hcs Hd]; subst. cbn [skeleton] in Heq.
  injection Heq as -> -> Hviews -> Hch -> ->. destruct ch' as [cs'|]; [|done]. cbn in Hch. injection Hch as Hch.
  apply (f_equal length) in Hviews. rewrite !length_fmap in Hviews.
  pose proof (f_equal length Hch) as Hl. rewrite !length_skeletons in Hl.
  constructor; [done|congruence|done|unfold zlen in *; lia| |done].
  rewrite Forall_lookup in IHch, Hcs |- *. intros i c' Hc'.
  destruct (lookup_lt_is_Some_2 cs i) as [c Hc]; [apply lookup_lt_Some in Hc'; lia|].
  destruct (Hcs i c Hc) as (v & -> & Hv). specialize (IHch i _ Hc). cbn in IHch.
  apply (f_equal (.!! i)) in Hch. rewrite !lookup_skeletons, Hc, Hc' in Hch. cbn in Hch.
  destruct c' as [v'|]; [|done]. cbn in Hch. exists v'. split; [done|]. apply IHch; [done|congruence].
Qed.

(** The end of an execution that is defined, whether it succeeds or fails. *)
Definition ends {S A} (r : outcome S A) (Q : S → Prop) : Prop :=
  match r with Ok _ s | Err _ s => Q s | UB => True end.
Lemma ends_mono {S A} (r : outcome S A) (Q Q' : S → Prop) : ends r Q → (∀ s, Q s → Q' s) → ends r Q'.
Proof. destruct r; cbn; auto. Qed.
Lemma wp_ends {S A} (m : M S A) s Q E Q' : wp m s Q E → (∀ x t, Q x t → Q' t) → (∀ e t, E e t → Q' t) → ends (m s) Q'.
Proof. unfold wp, ends. destruct (m s); eauto. Qed.
(** Operations that keep a property of the state. *)
Definition stable {S A} (I : S → Prop) (m : M S A) : Prop := ∀ s, I s → ends (m s) I.
Section stable.
Context {S : Type} (I : S → Prop).
Lemma stable_ret {A} (a : A) : stable I (mret_ a).
Proof. by intros s. Qed.
Lemma stable_get {A} (f : S → A) : stable I (mget f).
Proof. by intros s. Qed.
Lemma stable_deref {A} (o : option A) : stable I (deref o).
Proof. by intros s; destruct o. Qed.
Lemma stable_mod f : (∀ s, I s → I (f s)) → stable I (mmod f).
Proof. intros Hf s Hs. by apply Hf. Qed.
Lemma stable_bind {A B} (m : M S A) (k : A → M S B) : stable I m → (∀ x, stable I (k x)) → stable I (mbind_ m k).
Proof.
  intros Hm Hk s Hs. specialize (Hm s Hs). unfold mbind_. destruct (m s) as [x t|e t|]; [by apply Hk|done|done].
Qed.
End stable.
Create HintDb stable discriminated.
#[local] Hint Resolve stable_ret stable_get stable_deref stable_bind : stable.

Section walk.
Context `{!Libc}.
Variable setter : ArrowIpcArraySetter.
Definition keeps_view (sk : ArrowArrayView) (w : walk_state) : Prop := skeleton (walk_view w) = sk.

Lemma skeleton_views l v : length l = length (buffer_views v) → skeleton (set_buffer_views l v) = skeleton v.
Proof. destruct v. cbn. intros Hl. f_equal. rewrite !(const_fmap (λ _, MkView None 0) _ (MkView None 0)) by done. by rewrite Hl. Qed.
Lemma on_slot_stable sk i m : stable (keeps_view sk) (on_slot i m).
Proof.
  intros w Hw. unfold on_slot, ends. destruct (znth _ i) as [v|]; [|done].
  destruct (ArrowArrayBuffer i (mget id) (walk_array w)) as [b ?|? ?|]; [|done..].
  destruct (m _) as [x [h [v' b']]|e [h [v' b']]|]; [..|done];
    (destruct (ArrowArrayBuffer i _ (walk_array w)) as [? a'|? ?|]; [|done..]);
    (unfold keeps_view in *; cbn [walk_view]; by rewrite skeleton_views by apply length_insert).
Qed.
Lemma set_slots_stable sk idx : stable (keeps_view sk) (set_slots setter idx).
Proof.
  induction idx as [|i idx IH]; cbn [set_slots]; [apply stable_ret|].
  assert (stable (keeps_view sk) (set_slot setter i ;;; set_slots setter idx)) as Hslot.
  { apply stable_bind; [|done]. unfold set_slot, next_buffer.
    do 5 (apply stable_bind; [auto with stable|intros ?]). apply stable_bind; [by apply stable_mod|intros []].
    do 2 (apply stable_bind; [auto with stable|intros ?]). apply on_slot_stable. }
  do 2 (apply stable_bind; [auto with stable|intros ?]). case_match; (done || apply stable_ret).
Qed.
Lemma set_node_stable sk : stable (keeps_view sk) (set_node setter).
Proof.
  unfold set_node, next_field. do 4 (apply stable_bind; [auto with stable|intros ?]).
  apply stable_bind; [apply stable_mod; intros [c v a] <-; by destruct v|intros []].
  apply stable_bind; [by apply stable_mod|intros []]. apply set_slots_stable.
Qed.

Definition walk_keeps (v : ArrowArrayView) : Prop := ∀ arr c,
  ends (ArrowIpcDecoderWalkSetArrayView setter v arr c) (λ st, skeleton st.2.1 = skeleton v).
Lemma walk_list_keeps nc l : ∀ i c a,
  Forall (λ o, match o with Some v => walk_keeps v | None => True end) l →
  ends (walk_set_list (ArrowIpcDecoderWalkSetArrayView setter) nc l i c a) (λ st, skeletons st.2.1 = skeletons l).
Proof.
  induction l as [|o l IH]; intros i c a Hall; cbn [walk_set_list]; [by case_match|].
  apply list.Forall_cons in Hall as [Hv Hall]. destruct (i <? nc); [|done]. destruct o as [v|]; [|done].
  destruct (child_pointer _ i) as [arr|]; [|done]. specialize (Hv arr c). unfold ends in Hv.
  destruct (ArrowIpcDecoderWalkSetArrayView setter v arr c) as [[] [c' [v' arr']]|e [c' [v' arr']]|]; [| |done]; cbn in Hv.
  - specialize (IH (i + 1) c' (put_array_child i arr' a) Hall). unfold ends in IH |- *.
    destruct (walk_set_list _ nc l (i + 1) c' _) as [[] [c2 [l2 a2]]|e [c2 [l2 a2]]|]; [..|done];
      cbn in *; by rewrite Hv, IH.
  - cbn. by rewrite Hv.
Qed.
(** The children of a node whose skeleton is that of [v]. *)
Lemma walk_children_keeps v w :
  (∀ cs, view_children v = Some cs → Forall (λ o, match o with Some v => walk_keeps v | None => True end) cs) →
  keeps_view (skeleton v) w →
  ends (walk_set_children (ArrowIpcDecoderWalkSetArrayView setter) (view_n_children v) (view_children v) w)
    (λ st, skeleton st.2.1 = skeleton v).
Proof.
  intros Hall Hw. unfold walk_set_children. destruct v as [o l n st lay b nc ch d m]. cbn [view_children view_n_children] in *.
  destruct ch as [cs|]; [|by case_match]. specialize (Hall cs eq_refl).
  pose proof (walk_list_keeps nc cs 0 (walk_cursor w) (walk_array w) Hall) as Hl. unfold keeps_view in Hw.
  destruct (walk_view w) as [o' l' n' st' lay' b' nc' ch' d' m']. cbn [skeleton] in Hw. injection Hw as -> -> Hb -> _ -> ->.
  unfold ends in *. destruct (walk_set_list _ nc cs 0 _ _) as [[] [c2 [l2 a2]]|e [c2 [l2 a2]]|]; [..|done];
    cbn in *; by rewrite Hl, Hb.
Qed.
Lemma walk_keeps_all v : walk_keeps v.
Proof.
  induction v as [o l n st lay b nc ch d m IHch _] using ArrowArrayView_nested_ind. intros arr c.
  destruct arr as [|a]; [done|]. set (v := MkArrayView o l n st lay b nc ch d m) in *.
  change (ends (match set_node setter (MkWalk c v a) with
     | UB => UB
     | Err e w => Err e (walk_cursor w, (walk_view w, ArrayLive (walk_array w)))
     | Ok _ w => walk_set_children (ArrowIpcDecoderWalkSetArrayView setter) nc ch w
     end) (λ st, skeleton st.2.1 = skeleton v)).
  pose proof (set_node_stable (skeleton v) (MkWalk c v a) eq_refl) as Hnode. unfold ends in Hnode.
  destruct (set_node setter (MkWalk c v a)) as [[] w|e w|]; [|done|done].
  apply (walk_children_keeps v); [|done]. intros cs Hcs. cbn in Hcs. by rewrite Hcs in IHch.
Qed.
Lemma set_root_keeps batch v arr c :
  ends (set_root setter batch v arr c) (λ st, skeleton st.2.1 = skeleton v).
Proof.
  unfold set_root. destruct (RecordBatch_length _ batch) as [len|]; [|done]. destruct arr as [|a]; [done|].
  apply walk_children_keeps; [|by destruct v]. intros cs _. apply Forall_forall. intros [x|] _; [apply walk_keeps_all|done].
Qed.
End walk.

Lemma put_view_child_skeleton v i c c' :
  view_child v i = Some c → skeleton c' = skeleton c → skeleton (put_view_child i c' v) = skeleton v.
Proof.
  intros Hc Heq. unfold view_child, put_view_child in *. destruct v as [? ? ? ? ? ? ? [cs|]]; [|done]. cbn in *.
  do 2 f_equal. destruct (znth cs i) as [o|] eqn:Hi; [|done]. cbn in Hc. subst o. pose proof (znth_Some _ _ _ Hi).
  rewrite znth_lookup in Hi by lia. apply list_eq. intros j. rewrite !lookup_skeletons.
  destruct (decide (j = Z.to_nat i)) as [->|Hne].
  - rewrite Hi, list_lookup_insert_eq by (unfold zlen in *; lia). cbn. by rewrite Heq.
  - by rewrite list_lookup_insert_ne by done.
Qed.
Lemma walk_at_keeps f path : (∀ v arr c, ends (f v arr c) (λ st, skeleton st.2.1 = skeleton v)) →
  ∀ v arr c, ends (walk_at path f v arr c) (λ st, skeleton st.2.1 = skeleton v).
Proof.
  intros Hf. induction path as [|i path IH]; intros v arr c; cbn [walk_at]; [done|].
  destruct (view_child v i) as [v1|] eqn:Hv; [|done]. destruct arr as [|a]; [done|].
  destruct (child_pointer (ArrayLive a) i) as [arr1|]; [|done]. specialize (IH v1 arr1 c). unfold ends in *.
  destruct (walk_at path f v1 arr1 c) as [[] [c' [v2 arr2]]|e [c' [v2 arr2]]|]; [..|done];
    cbn in *; by apply (put_view_child_skeleton v i v1).
Qed.
(** Decoding a view changes the view and the scratch array of the decoder alone,
    and of the view the extents and the buffers alone. *)
Lemma decode_view_keeps `{!Libc} factory i h d p :
  decoder_private d = Some p →
  ends (ArrowIpcDecoderDecodeArrayViewInternal factory i (h, d))
    (λ st, ∃ v arr, st.2 = set_private (put_scratch arr (put_array_view v p)) d ∧ skeleton v = skeleton (array_view p)).
Proof.
  intros Hp. unfold ArrowIpcDecoderDecodeArrayViewInternal. rewrite Hp.
  assert (∃ v arr, d = set_private (put_scratch arr (put_array_view v p)) d ∧ skeleton v = skeleton (array_view p)) as Hsame.
  { exists (array_view p), (scratch_array p). split; [|done]. destruct d, p. cbn in *. by rewrite Hp. }
  destruct (last_message p) as [[m batch]|]; [|done]. destruct (_ =? _); [|done].
  destruct (field_entry p i) as [[path n]|]; [|done]. destruct (RecordBatch_nodes _ _) as [nodes|]; [|done].
  destruct (RecordBatch_buffers _ _) as [buffers|]; [|done]. cbv zeta. set (setter := MkSetter _ _ _ _ _ _ _).
  set (walk := if i =? -1 then _ else _).
  assert (ends walk (λ st, skeleton st.2.1 = skeleton (array_view p))) as Hwalk.
  { unfold walk. destruct (i =? -1); apply walk_at_keeps; intros; [apply set_root_keeps|apply walk_keeps_all]. }
  unfold ends in *. destruct walk as [[] [c [v arr]]|e [c [v arr]]|]; [..|done]; cbn in *; by exists v, arr.
Qed.

(** ** The invariant *)
Lemma shape_tree v : view_wf v → ∀ arr, array_shape v arr → batch_tree v arr.
Proof.
  induction v as [o l n st lay b nc ch d m IHch _] using ArrowArrayView_nested_ind. intros Hwf arr Hsh.
  inversion Hwf as [? ? ? ? ? ? ? cs ? ? [Hlay _] Hb Hmax Hlen Hcs Hd]; subst.
  inversion Hsh as [? ? ? ? ? ? ? ? ? ? a Hsc Hch _]; subst. constructor; [done|done| |done| |].
  - exists (replicate 3 ArrowBufferInit). split; [exact Hsc|]. split; [done|]. apply Forall_replicate, scratch_init_ok.
  - eapply Forall_impl; [|exact Hcs]. intros c (v & -> & _). by eexists.
  - intros i c Hc. pose proof (znth_Some _ _ _ Hc). destruct (Hch i c) as (cl & arr & Hcl & Harr & Hsub); [lia|done|].
    exists arr. cbn [child_pointer]. rewrite Hcl. cbn [mbind option_bind]. rewrite Harr. split; [done|].
    rewrite znth_lookup in Hc by lia. rewrite Forall_lookup in IHch, Hcs. destruct (Hcs _ _ Hc) as (v & [= <-] & Hv).
    by apply (IHch _ _ Hc).
Qed.

(** A record batch message that can be read and has the nodes and buffers of a
    schema with [nf] fields and [nb] buffers, the root included. *)
Definition batch_fits (m : list Z) (q nf nb : Z) : Prop :=
  RecordBatch_valid m q ∧ ∃ nodes buffers,
    RecordBatch_nodes m (Some q) = Some nodes ∧ FieldNode_vec_len m nodes = Some (nf - 1) ∧
    RecordBatch_buffers m (Some q) = Some buffers ∧ Buffer_vec_len m buffers = Some (nb - 1).
Record batch_inv (d : ArrowIpcDecoder) (p : ArrowIpcDecoderPrivate) : Prop := {
  inv_private : decoder_private d = Some p;
  inv_system : system_endianness p = NANOARROW_IPC_ENDIANNESS_LITTLE;
  inv_fields : fields p = FieldsAt (fields_of 0 (nodes_of [] (array_view p)));
  inv_view : view_wf (array_view p);
  inv_struct : view_storage_type (array_view p) = NANOARROW_TYPE_STRUCT;
  inv_tree : batch_tree (array_view p) (scratch_array p);
  inv_n_fields : n_fields p = view_count (array_view p);
  inv_n_buffers : batch_n_buffers p = buffers_of (nodes_of [] (array_view p));
  inv_message m q : last_message p = Some (m, q) → message_type d = NANOARROW_IPC_MESSAGE_TYPE_RECORD_BATCH →
    batch_fits m q (n_fields p) (batch_n_buffers p);
}.
(** Setting a schema, on a decoder that has no record batch pending. *)
Lemma set_schema_inv `{!Malloc} schema a d p a' d' :
  decoder_private d = Some p → system_endianness p = NANOARROW_IPC_ENDIANNESS_LITTLE → fields p ≠ FieldsFreed →
  (∀ q, last_message p = Some q → message_type d ≠ NANOARROW_IPC_MESSAGE_TYPE_RECORD_BATCH) →
  (∀ a1 v, ArrowArrayViewInitFromSchema schema (a, fresh_view) = Ok tt (a1, v) →
     view_count v * sizeof_ArrowIpcField <= INT64_MAX) →
  ArrowIpcDecoderSetSchema schema (a, d) = Ok tt (a', d') → ∃ p', batch_inv d' p'.
Proof.
  intros Hp Hsys Hfreed Hmsg Hmax Hrun.
  assert (ArrowArrayViewInitFromSchema schema (a, fresh_view) ≠ UB) as Hub.
  { intros Hub. clear -Hub Hrun Hp. unfold ArrowIpcDecoderSetSchema, mbind_, get, mget in Hrun. cbn in Hrun. rewrite Hp in Hrun.
    cbn in Hrun. destruct (fields p); [|done|]; cbn in Hrun;
      change (ArrowArrayViewReset (array_view p)) with fresh_view in Hrun; by rewrite Hub in Hrun. }
  pose proof (wp_Ok _ _ _ _ _ _ (set_schema_wp schema a d p Hp Hfreed Hub Hmax) Hrun) as (a1 & v & arr & Hv & Hst & Hsh & Hd').
  cbn [snd] in Hd'. destruct (init_from_schema_shaped schema a fresh_view tt _ Hv) as [Hwf _]. cbn [snd] in Hwf.
  eexists. rewrite Hd'. split; [done|done|done|done|done|by apply shape_tree|done|done|].
  intros m q Hq Hrb. by destruct (Hmsg (m, q)).
Qed.
(** What a header needs: it is in memory, its announced size does not overflow, and
    the header of a schema or record batch is not absent. *)
Record header_input (data : ArrowView) (m : list Z) : Prop := {
  input_data : view_data data = Some m;
  input_size : 0 <= view_size data <= zlen m;
  input_bytes : bytes_ok m;
  input_word w : load_i 4 m 4 = Some w → w <= INT32_MAX - 8;
  input_present : header_present (drop 8 m) = true;
}.
Lemma header_inv addr data m d p :
  header_input data m → batch_inv d p →
  wp (ArrowIpcDecoderVerifyHeader addr data ;;; ArrowIpcDecoderDecodeHeader data) d
    (λ _ d', ∃ p', batch_inv d' p') (λ _ d', ∃ p', batch_inv d' p').
Proof.
  intros [Hdata Hsize Hbytes Hword Hpres] [Hp Hsys Hf Hwf Hst Htree Hnf Hnb _].
  eapply wp_mono; [by apply (verify_decode_wp addr data m d p)| |].
  - intros [] d' (w & body & q & _ & Hdec). exists (set_last_message (Some (drop 8 m, q)) p).
    destruct Hdec as [Hp' _ _ Hhd]. split; try done. intros m' q' Hq Hrb. cbn in Hq. injection Hq as <- <-.
    destruct Hhd as [(Hs & _)|(_ & Hval & _ & Hn)]; [by rewrite Hrb in Hs|]. by split.
  - intros e d' [_ Hp']. exists (set_last_message None p). by split.
Qed.

(** ** The batch a message describes *)

(** The length of the batch, its nodes and its buffers. *)
Definition batch_described (m : list Z) (q len : Z) (nodes bufs : list (Z * Z)) : Prop :=
  RecordBatch_length m (Some q) = Some len ∧
  (∃ nl, RecordBatch_nodes m (Some q) = Some nl ∧ batch_nodes m nl = Some nodes) ∧
  (∃ bl, RecordBatch_buffers m (Some q) = Some bl ∧ batch_buffers m bl = Some bufs).
(** A vector of pairs of 64-bit integers that is inside of the message can be read. *)
Lemma pairs_read m vec n :
  __flatbuffers_vec_len m vec = Some n → 0 <= n → (∀ q, vec = Some q → 0 <= q ∧ q + 16 * n <= zlen m) →
  ∃ l, batch_nodes m vec = Some l ∧ zlen l = n.
Proof.
  intros Hn Hn0 Hvec. unfold batch_nodes, FieldNode_vec_len. rewrite Hn. cbn [mbind option_bind].
  assert (is_Some (mapM (λ i, f ← FieldNode_vec_at vec i; l ← FieldNode_length m f; k ← FieldNode_null_count m f;
    Some (l, k)) (zseq n))) as [l Hl].
  { apply mapM_is_Some_2, Forall_forall. intros i Hi%list_elem_of_In%elem_of_zseq.
    destruct vec as [v|]; [|cbn in Hn; injection Hn as <-; lia]. destruct (Hvec v eq_refl) as [Hv0 Hv].
    cbn. unfold FieldNode_length, FieldNode_null_count, __flatbuffers_struct_scalar_field. cbn [mbind option_bind].
    destruct (load_i_in 8 m (v + 16 * i + 0)) as [x ->]; [lia|lia|]. cbn [mbind option_bind].
    destruct (load_i_in 8 m (v + 16 * i + 8)) as [y ->]; [lia|lia|]. by eexists. }
  exists l. split; [exact Hl|]. apply mapM_Some, Forall2_length in Hl. rewrite <-(zlen_zseq n Hn0). unfold zlen. by rewrite Hl.
Qed.
Lemma fits_described m q nf nb :
  batch_fits m q nf nb →
  ∃ len nodes bufs, batch_described m q len nodes bufs ∧ zlen nodes = nf - 1 ∧ zlen bufs = nb - 1.
Proof.
  intros ((Hlen & (nv & nn & Hnv & Hnn & Hnn0 & Hnr) & (bv & bn & Hbv & Hbn & Hbn0 & Hbr) & _) & nl & bl & Hnl & Hnf & Hbl & Hnb).
  destruct (read_signed m 8 0 0 q ltac:(lia) Hlen) as (len & Hl & _).
  unfold RecordBatch_nodes, RecordBatch_buffers, FieldNode_vec_len, Buffer_vec_len in *.
  rewrite Hnv in Hnl. injection Hnl as <-. rewrite Hbv in Hbl. injection Hbl as <-.
  rewrite Hnn in Hnf. injection Hnf as ->. rewrite Hbn in Hnb. injection Hnb as ->.
  destruct (pairs_read m nv _ Hnn Hnn0 Hnr) as (nodes & Hnodes & Hzn).
  destruct (pairs_read m bv _ Hbn Hbn0 Hbr) as (bufs & Hbufs & Hzb).
  exists len, nodes, bufs. split; [|done]. split; [exact Hl|]. split; [by exists nv|]. exists bv. by split.
Qed.
(** What decoding field [i] needs: the body is in memory, and no buffer of the
    batch has a negative length or an end that overflows. *)
Record view_input (d : ArrowIpcDecoder) (p : ArrowIpcDecoderPrivate) (m : list Z) (q : Z) (body : list Z) (i : Z) : Prop := {
  input_body : body_size_bytes d <= zlen body <= 2 ^ 60;
  input_body_bytes : bytes_ok body;
  input_ranges bl bufs : RecordBatch_buffers m (Some q) = Some bl → batch_buffers m bl = Some bufs →
    Forall (λ b, 0 <= b.2 ∧ b.1 + b.2 <= INT64_MAX) bufs;
  input_field : -1 <= i < n_fields p - 1;
}.
Lemma inv_ready d p m q body i :
  batch_inv d p → last_message p = Some (m, q) → message_type d = NANOARROW_IPC_MESSAGE_TYPE_RECORD_BATCH →
  view_input d p m q body i →
  ∃ len nodes bufs, batch_described m q len nodes bufs ∧ batch_ready d p m q len body nodes bufs ∧ -1 <= i < zlen nodes.
Proof.
  intros [Hp Hsys Hf Hwf Hst Htree Hnf Hnb Hmsg] Hm Hty [Hbody Hby Hr Hi].
  destruct (fits_described _ _ _ _ (Hmsg _ _ Hm Hty)) as (len & nodes & bufs & Hdesc & Hzn & Hzb).
  exists len, nodes, bufs. split; [done|]. split; [|lia]. destruct Hdesc as (Hlen & Hnodes & bl & Hbl & Hbufs).
  split; try done; [by exists bl| |lia|lia|by apply (Hr bl)].
  destruct (array_view p). inversion Hwf as [? ? ? ? ? ? ? ? ? ? [_ Hlay]]; subst. cbn in Hst |- *. by rewrite (Hlay Hst).
Qed.
(** Decoding a view keeps the invariant, on an error as on success. *)
Lemma view_inv `{!Libc} body body_size i h d p :
  batch_inv d p →
  (∀ m q, last_message p = Some (m, q) → message_type d = NANOARROW_IPC_MESSAGE_TYPE_RECORD_BATCH →
     view_input d p m q body i) →
  ends (ArrowIpcDecoderDecodeArrayView (MkView (Some body) body_size) i (h, d)) (λ st, ∃ p', batch_inv st.2 p').
Proof.
  intros Hinv Hin. pose proof (inv_private _ _ Hinv) as Hp.
  assert (∀ m q, last_message p = Some (m, q) → message_type d = NANOARROW_IPC_MESSAGE_TYPE_RECORD_BATCH →
    ends (ArrowIpcDecoderDecodeArrayView (MkView (Some body) body_size) i (h, d))
      (λ st, ∃ p', decoder_private st.2 = Some p' ∧ batch_tree (array_view p') (scratch_array p'))) as Htree.
  { intros m q Hm Hty. destruct (inv_ready _ _ _ _ _ _ Hinv Hm Hty (Hin m q Hm Hty)) as (len & nodes & bufs & _ & Hready & Hi).
    destruct (decode_array_view_wp _ d p m q len body nodes bufs body_size i h Hready Hi) as (path & n & sub & _ & _ & Hwp).
    eapply wp_ends; [exact Hwp| |]; cbn; intros ? ?; [intros (_ & _ & p' & _ & _ & _ & ? & ? & _)|intros (_ & (p' & ? & ?) & _)]; eauto. }
  unfold ArrowIpcDecoderDecodeArrayView in *.
  pose proof (decode_view_keeps (ArrowIpcBufferFactoryFromView (MkView (Some body) body_size)) i h d p Hp) as Hkeeps.
  destruct (last_message p) as [[m q]|] eqn:Hm.
  2:{ unfold ArrowIpcDecoderDecodeArrayViewInternal. rewrite Hp, Hm. by exists p. }
  destruct (Z.eqb_spec (message_type d) NANOARROW_IPC_MESSAGE_TYPE_RECORD_BATCH) as [Hty|Hty].
  2:{ unfold ArrowIpcDecoderDecodeArrayViewInternal. rewrite Hp, Hm, (proj2 (Z.eqb_neq _ _) Hty). by exists p. }
  specialize (Htree m q eq_refl Hty). unfold ends in *.
  destruct (ArrowIpcDecoderDecodeArrayViewInternal _ i (h, d)) as [path [h' d']|e [h' d']|]; [..|done]; cbn [snd] in *;
    destruct Hkeeps as (v & arr & -> & Hsk), Htree as (p' & Hp' & Ht); cbn in Hp'; injection Hp' as <-;
    destruct Hinv as [_ Hsys Hf Hwf Hst _ Hnf Hnb Hmsg];
    assert (∀ path, nodes_of path v = nodes_of path (array_view p)) as Hnodes
      by (intros path'; by rewrite <-nodes_of_skeleton, Hsk, nodes_of_skeleton);
    eexists; (split; [done|done| | | |done| | |]); cbn; unfold view_count in *; rewrite ?Hnodes; try done;
    try (by eapply view_wf_skeleton); try (by intros ? ? [= <- <-] _; apply Hmsg);
    (rewrite <-Hst; by destruct v, (array_view p); injection Hsk).
Qed.

(** ** Sessions *)
Definition final {S A} (r : outcome S A) : option S := match r with Ok _ s | Err _ s => Some s | UB => None end.
Lemma ends_final {S A} (r : outcome S A) Q s : ends r Q → final r = Some s → Q s.
Proof. destruct r; cbn; intros HQ; [intros [= <-]; exact HQ..|done]. Qed.
Lemma set_endianness_inv e d p : batch_inv d p → ends (ArrowIpcDecoderSetEndianness e d) (λ d', ∃ p', batch_inv d' p').
Proof.
  intros Hinv. pose proof Hinv as [Hp Hsys Hf Hwf Hst Ht Hnf Hnb Hmsg].
  unfold ArrowIpcDecoderSetEndianness, get_decoder_private, mbind_, mget. cbn. rewrite Hp. cbn.
  repeat case_match; cbn; try (by exists p); eexists; (split; [done|..]; done).
Qed.

(** The states of a decoder from a schema on: the schema was set when no record
    batch was pending, and then messages are decoded, batches read and the byte
    order set, in any order; any of these calls may also have failed. *)
Inductive session : ArrowIpcDecoder → Prop :=
  | session_schema (malloc : Malloc) schema a d p a' d' :
      decoder_private d = Some p → system_endianness p = NANOARROW_IPC_ENDIANNESS_LITTLE → fields p ≠ FieldsFreed →
      (∀ q, last_message p = Some q → message_type d ≠ NANOARROW_IPC_MESSAGE_TYPE_RECORD_BATCH) →
      (∀ a1 v, ArrowArrayViewInitFromSchema schema (a, fresh_view) = Ok tt (a1, v) →
         view_count v * sizeof_ArrowIpcField <= INT64_MAX) →
      ArrowIpcDecoderSetSchema schema (a, d) = Ok tt (a', d') → session d'
  | session_header addr data m d d' :
      session d → header_input data m →
      final ((ArrowIpcDecoderVerifyHeader addr data ;;; ArrowIpcDecoderDecodeHeader data) d) = Some d' → session d'
  | session_view (libc : Libc) body body_size i h h' d d' :
      session d →
      (∀ p m q, decoder_private d = Some p → last_message p = Some (m, q) →
         message_type d = NANOARROW_IPC_MESSAGE_TYPE_RECORD_BATCH → view_input d p m q body i) →
      final (ArrowIpcDecoderDecodeArrayView (MkView (Some body) body_size) i (h, d)) = Some (h', d') → session d'
  | session_endianness e d d' :
      session d → final (ArrowIpcDecoderSetEndianness e d) = Some d' → session d'.
Lemma session_inv d : session d → ∃ p, batch_inv d p.
Proof.
  induction 1 as [malloc schema a d p a' d' Hp Hsys Hf Hmsg Hmax Hrun|addr data m d d' _ [p Hinv] Hin Hrun
    |libc body bs i h h' d d' _ [p Hinv] Hin Hrun|e d d' _ [p Hinv] Hrun].
  - by eapply set_schema_inv.
  - apply (ends_final _ (λ d', ∃ p, batch_inv d' p) _) in Hrun; [done|]. by eapply wp_ends; [eapply header_inv|..].
  - apply (ends_final _ (λ st, ∃ p, batch_inv st.2 p) _) in Hrun; [done|]. apply (view_inv body bs i h d p); [done|].
    intros m q. apply Hin, (inv_private _ _ Hinv).
  - apply (ends_final _ (λ d', ∃ p, batch_inv d' p) _) in Hrun; [done|]. by eapply set_endianness_inv.
Qed.

(** C36.  From the schema on, decoding is safe and gives what the messages describe.
    In every state a decoder can reach after a schema was set, however the calls
    before ended: decoding another header does not leave the memory; and when the
    last header was that of a record batch, the message describes a batch with as
    many nodes and buffers as the schema has, and decoding the root or any field
    gives its columns: every view below has the length and null count of its node
    and the bytes of its buffers at their places in the body, taken depth first, in
    the byte order of the system.  The only errors are those of the description,
    and [ENOMEM] when bytes are swapped.

    Every header, now and before, is as [header_input] says: in memory, with an announced
    size of at most [INT32_MAX - 8] (see [verify_header_overrun] for more), and not
    absent.  Every body is as [view_input] says: in memory, of at most 2^60 bytes, with no
    buffer of a negative length or an end that overflows (see [make_buffer_overflow]).
    The schema was set on a decoder that held no record batch and whose fields were not
    freed before (see [set_schema_double_free]). *)
Theorem session_batches (libc : Libc) (d : ArrowIpcDecoder) (Hsession : session d) :
  ∃ p, decoder_private d = Some p ∧
  (∀ addr data m, header_input data m →
     (ArrowIpcDecoderVerifyHeader addr data ;;; ArrowIpcDecoderDecodeHeader data) d ≠ UB) ∧
  ∀ m q body body_size i h, last_message p = Some (m, q) →
    message_type d = NANOARROW_IPC_MESSAGE_TYPE_RECORD_BATCH → view_input d p m q body i →
    ∃ len nodes bufs path n sub,
      batch_described m q len nodes bufs ∧ zlen nodes = n_fields p - 1 ∧ zlen bufs = batch_n_buffers p - 1 ∧
      field_entry p i = Some (path, n) ∧ view_at path (array_view p) = Some sub ∧
      let description := entry_column body d (ArrowIpcDecoderNeedsSwapEndian p) len nodes bufs i n sub in
      wp (ArrowIpcDecoderDecodeArrayView (MkView (Some body) body_size) i) (h, d)
        (λ path' st, path' = path ∧ st.1 = h ∧ ∃ p' v col t,
           decoder_private st.2 = Some p' ∧ view_at path (array_view p') = Some v ∧ description = Ok col t ∧ column_view col v)
        (λ e st, st.1 = h ∧ ((∃ t, description = Err e t) ∨ e = ENOMEM ∧ ArrowIpcDecoderNeedsSwapEndian p = true)).
Proof.
  destruct (session_inv d Hsession) as [p Hinv]. exists p. split; [apply (inv_private _ _ Hinv)|]. split.
  { intros addr data m Hin. eapply wp_not_UB. by eapply header_inv. }
  intros m q body body_size i h Hm Hty Hin.
  destruct (inv_ready _ _ _ _ _ _ Hinv Hm Hty Hin) as (len & nodes & bufs & Hdesc & Hready & Hi).
  destruct (decode_array_view_wp libc d p m q len body nodes bufs body_size i h Hready Hi) as (path & n & sub & He & Hs & Hwp).
  exists len, nodes, bufs, path, n, sub. split; [done|].
  split; [rewrite (ready_n_nodes _ _ _ _ _ _ _ _ Hready); by rewrite (inv_n_fields _ _ Hinv)|].
  split; [rewrite (ready_n_buffers _ _ _ _ _ _ _ _ Hready); by rewrite (inv_n_buffers _ _ Hinv)|].
  split; [done|]. split; [done|]. cbv zeta. eapply wp_mono; [exact Hwp| |].
  - intros path' st (-> & Hh & p' & v & col & t & Hp' & _ & Hv & Hcol & Hview). split; [done|]. split; [done|]. by exists p', v, col, t.
  - intros e st (Hh & _ & He'). by split.
Qed.

(** A message with a batch of one column of 32-bit integers, of 136 bytes. *)
Definition batch_message (rows body_length data_size : Z) : list Z :=
  [255; 255; 255; 255; 128; 0; 0; 0] ++
  [16; 0; 0; 0; 12; 0; 20; 0; 16; 0; 18; 0; 4; 0; 8; 0] ++
  [12; 0; 0; 0; 28; 0; 0; 0] ++ le_bytes 8 body_length ++ [4; 0; 3; 0] ++
  [10; 0; 20; 0; 8; 0; 4; 0; 16; 0; 0; 0] ++
  [12; 0; 0; 0; 16; 0; 0; 0] ++ le_bytes 8 rows ++ [28; 0; 0; 0] ++
  [1; 0; 0; 0] ++ le_bytes 8 rows ++ le_bytes 8 0 ++ [0; 0; 0; 0] ++
  [2; 0; 0; 0] ++ le_bytes 8 0 ++ le_bytes 8 0 ++ le_bytes 8 0 ++ le_bytes 8 data_size.
(** A decoder of such batches from a big-endian system, after the first message. *)
Definition one_column : ArrowSchema :=
  let field f n c := SchemaLive (MkMembers (Some f) (Some n) None 2 (zlen c) (Some (Some <$> c)) None) in
  field "+s"%string ""%string [field "i"%string "a"%string []].
Definition session_start : ArrowIpcDecoder :=
  default decoder_zero (snd <$> final (@ArrowIpcDecoderSetSchema malloc_budget one_column (40%nat, example_decoder))).
Definition session_big : ArrowIpcDecoder :=
  default decoder_zero (final (ArrowIpcDecoderSetEndianness NANOARROW_IPC_ENDIANNESS_BIG session_start)).
Definition first_message : ArrowView := MkView (Some (batch_message 2 8 8)) 136.
Definition session_first : ArrowIpcDecoder :=
  default decoder_zero (final ((ArrowIpcDecoderVerifyHeader 0 first_message ;;; ArrowIpcDecoderDecodeHeader first_message) session_big)).
Definition big_body : list Z := [0; 0; 0; 1; 0; 0; 0; 2].
Lemma session_first_reached : session session_first.
Proof.
  apply (session_header 0 first_message (batch_message 2 8 8) session_big); [| |vm_compute; reflexivity].
  - apply (session_endianness NANOARROW_IPC_ENDIANNESS_BIG session_start); [|vm_compute; reflexivity].
    apply (session_schema malloc_budget one_column 40%nat example_decoder (default private_zero (decoder_private example_decoder))
      (default 0%nat (fst <$> final (@ArrowIpcDecoderSetSchema malloc_budget one_column (40%nat, example_decoder)))));
      [done|done|vm_compute; discriminate|done| |vm_compute; reflexivity].
    intros a v Hv. vm_compute in Hv. injection Hv as <- <-. apply Z.leb_le. vm_compute. reflexivity.
  - split; [done|split; apply Z.leb_le; vm_compute; reflexivity|apply (bool_decide_unpack _); vm_compute; done| |vm_compute; reflexivity].
    intros w Hw. vm_compute in Hw. injection Hw as <-. apply Z.leb_le. vm_compute. reflexivity.
Qed.
Lemma session_batches_witness :
  ∃ st p' v, ArrowIpcDecoderDecodeArrayView (H := libc_limited 1000) (MkView (Some big_body) 8) (-1)
      (MkHeap ∅ [], session_first) = Ok [] st ∧
    decoder_private st.2 = Some p' ∧ view_at [] (array_view p') = Some v ∧
    column_view (Column 2 0 [] [Column 2 0 [(0, []); (8, [1; 0; 0; 0; 2; 0; 0; 0])] []]) v.
Proof.
  destruct (session_batches (libc_limited 1000) session_first session_first_reached) as (p & Hp & _ & Hview).
  vm_compute in Hp. injection Hp as <-.
  edestruct (Hview _ _ big_body 8 (-1) (MkHeap ∅ []) eq_refl eq_refl) as (len & nodes & bufs & path & n & sub & Hdesc & _ & _ & He & Hs & Hwp).
  { split; [split; apply Z.leb_le; vm_compute; reflexivity|apply (bool_decide_unpack _); vm_compute; done| |vm_compute; by split].
    intros bl bufs Hbl Hbufs. vm_compute in Hbl. injection Hbl as <-. vm_compute in Hbufs. injection Hbufs as <-.
    repeat (constructor; [split; apply Z.leb_le; vm_compute; reflexivity|]). constructor. }
  destruct Hdesc as (Hlen & (nl & Hnl & Hnodes) & bl & Hbl & Hbufs).
  vm_compute in Hlen, Hnl, Hbl. injection Hlen as <-. injection Hnl as <-. injection Hbl as <-.
  vm_compute in Hnodes, Hbufs. injection Hnodes as <-. injection Hbufs as <-.
  vm_compute in He. injection He as <- <-. injection Hs as <-.
  destruct (wp_run _ _ _ _ Hwp) as (path & st & Hrun & -> & _ & p' & v & col & t & Hp' & Hv & Hcol & Hcv); [vm_compute; reflexivity|].
  exists st, p', v. split; [exact Hrun|]. split; [exact Hp'|]. split; [exact Hv|].
  vm_compute in Hcol. injection Hcol as <- _. exact Hcv.
Defined.
