(* ===== verification/IpcStream.v ===== *)
(** * Streams of messages (nanoarrow_ipc.c)

    [ArrowIpcInputStream] with its two implementations, a buffer in memory and a
    file of the C library, and [ArrowIpcArrayStreamReader], which reads a schema
    message and then record batches from an input stream and presents them as an
    [ArrowArrayStream].

    A [FILE] is what is left to read, with what its next failures will be: a read
    that comes to the end of the data is the end of the file, or an error of the
    device; a file that was closed must not be used again.  The messages of
    [struct ArrowError] are not modelled. *)

From stdpp Require Import base numbers list option strings gmap.
From S2P Require Import Prelude CInt CString Buffer Bitmap Types Metadata Schema SchemaView ArrayView Array Stream.
From S2P Require Import FlatBuffers Message IpcShared IpcDecoder IpcBody IpcFields.
#[local] Open Scope Z_scope.
#[local] Open Scope c_scope.
#[local] Set Warnings "-register-all".

(** ** Input streams *)
Record FILE : Set := MkFile {
  file_rest : list Z;
  file_error : bool;
  file_close_fails : bool;
  file_open : bool;
}.
Inductive ArrowIpcInputStream : Set :=
  | InputReleased
  | InputBuffer (input : ArrowBuffer) (cursor_bytes : Z)
  | InputFile (file_ptr : option FILE) (stream_finished close_on_release : bool).
Definition ArrowIpcInputStreamMove (src : ArrowIpcInputStream) : ArrowIpcInputStream * ArrowIpcInputStream :=
  (src, InputReleased).

(** [read(stream, buf + off, n, &size_read, error)], with the memory of [buf]. *)
Abbreviation IM := (M (ArrowIpcInputStream * option (list Z))).
Definition ArrowIpcInputStreamBufferRead (off buf_size_bytes : Z) : IM Z := λ '(stream, buf),
  match stream with
  | InputBuffer input cursor_bytes =>
      if buf_size_bytes =? 0 then Ok 0 (stream, buf)
      else
        let bytes_remaining := i64 (size_bytes input - cursor_bytes) in
        let bytes_to_read := if buf_size_bytes <? bytes_remaining then buf_size_bytes else bytes_remaining in
        let advance buf' := Ok bytes_to_read (InputBuffer input (i64 (cursor_bytes + bytes_to_read)), buf') in
        if 0 <? bytes_to_read then
          match (m ← data input; d ← zslice m cursor_bytes bytes_to_read; b ← buf; zwrite b off d) with
          | Some b' => advance (Some b')
          | None => UB
          end
        else advance buf
  | _ => UB
  end.
(** [fclose(file)]: whether it succeeded. *)
Definition fclose (f : FILE) : option (bool * FILE) :=
  if file_open f then Some (negb (file_close_fails f), MkFile (file_rest f) (file_error f) (file_close_fails f) false)
  else None.
Definition ArrowIpcInputStreamFileRead (off buf_size_bytes : Z) : IM Z := λ '(stream, buf),
  match stream with
  | InputFile file_ptr stream_finished close_on_release =>
      if stream_finished then Ok 0 (stream, buf)
      else
        match file_ptr with
        | None => UB
        | Some f =>
            if file_open f then
              (* the size is converted to size_t *)
              let bytes_read := Z.min (u64 buf_size_bytes) (zlen (file_rest f)) in
              let written :=
                if 0 <? bytes_read then b ← buf; b' ← zwrite b off (take (Z.to_nat bytes_read) (file_rest f)); Some (Some b')
                else Some buf in
              let f' := MkFile (drop (Z.to_nat bytes_read) (file_rest f)) (file_error f) (file_close_fails f) true in
              match written with
              | None => UB
              | Some buf' =>
                  if bytes_read =? buf_size_bytes then
                    Ok bytes_read (InputFile (Some f') false close_on_release, buf')
                  else
                    let ptr :=
                      if close_on_release then
                        match fclose f' with Some (true, _) => None | Some (false, f'') => Some f'' | None => Some f' end
                      else Some f' in
                    if file_error f then Err EIO (InputFile ptr true close_on_release, buf')
                    else Ok bytes_read (InputFile ptr true close_on_release, buf')
              end
            else UB
        end
  | _ => UB
  end.
(** [stream->read] *)
Definition input_read (off n : Z) : IM Z := λ '(stream, buf),
  match stream with
  | InputReleased => UB
  | InputBuffer _ _ => ArrowIpcInputStreamBufferRead off n (stream, buf)
  | InputFile _ _ _ => ArrowIpcInputStreamFileRead off n (stream, buf)
  end.
Definition ArrowIpcInputStreamBufferRelease (input : ArrowBuffer) : M (shared_heap * ArrowIpcInputStream) unit :=
  on_heap (reset_buffer input) ;;; mmod (λ '(h, _), (h, InputReleased)).
Definition ArrowIpcInputStreamFileRelease (file_ptr : option FILE) (close_on_release : bool) :
    M (shared_heap * ArrowIpcInputStream) unit :=
  (match file_ptr with
   | Some f => if close_on_release then let* _ := deref (fclose f) in mret_ tt else mret_ tt
   | None => mret_ tt
   end) ;;;
  mmod (λ '(h, _), (h, InputReleased)).
Definition input_release : M (shared_heap * ArrowIpcInputStream) unit := λ s,
  match s.2 with
  | InputReleased => UB
  | InputBuffer input _ => ArrowIpcInputStreamBufferRelease input s
  | InputFile f _ close => ArrowIpcInputStreamFileRelease f close s
  end.

Definition sizeof_ArrowIpcInputStreamBufferPrivate : Z := 56.
Definition sizeof_ArrowIpcInputStreamFilePrivate : Z := 16.
Section init.
Context `{!Malloc}.
(** The state is the stream with the caller's buffer. *)
Definition ArrowIpcInputStreamInitBuffer : M (mstate * (ArrowIpcInputStream * ArrowBuffer)) unit :=
  let* ok := ArrowMalloc sizeof_ArrowIpcInputStreamBufferPrivate in
  if ok : bool then
    let* b := get snd in
    let '(input, src) := ArrowBufferMove b in
    modify (λ _, (InputBuffer input 0, src))
  else mfail ENOMEM.
Definition ArrowIpcInputStreamInitFile (file_ptr : option FILE) (close_on_release : bool) :
    M (mstate * ArrowIpcInputStream) unit :=
  let* ok := ArrowMalloc sizeof_ArrowIpcInputStreamFilePrivate in
  if ok : bool then modify (λ _, InputFile file_ptr false close_on_release) else mfail ENOMEM.
End init.

(** ** The reader *)
Record reader : Set := MkReader {
  input : ArrowIpcInputStream;
  decoder : ArrowIpcDecoder;
  use_shared_buffers : bool;
  out_schema : ArrowSchema;
  field_index : Z;
  header : ArrowBuffer;
  body : ArrowBuffer;
}.
Record ArrowIpcArrayStreamReaderOptions : Set := MkOptions { option_field_index : Z; option_shared : bool }.
Definition put_input (x : ArrowIpcInputStream) (r : reader) : reader :=
  MkReader x (decoder r) (use_shared_buffers r) (out_schema r) (field_index r) (header r) (body r).
Definition put_decoder (x : ArrowIpcDecoder) (r : reader) : reader :=
  MkReader (input r) x (use_shared_buffers r) (out_schema r) (field_index r) (header r) (body r).
Definition put_out_schema (x : ArrowSchema) (r : reader) : reader :=
  MkReader (input r) (decoder r) (use_shared_buffers r) x (field_index r) (header r) (body r).
Definition put_header (x : ArrowBuffer) (r : reader) : reader :=
  MkReader (input r) (decoder r) (use_shared_buffers r) (out_schema r) (field_index r) x (body r).
Definition put_body (x : ArrowBuffer) (r : reader) : reader :=
  MkReader (input r) (decoder r) (use_shared_buffers r) (out_schema r) (field_index r) (header r) x.

(** Reading [n] bytes into a buffer, [off] bytes after its start; the size of the
    buffer grows by what was read. *)
Definition read_into (get_buffer : reader → ArrowBuffer) (put_buffer : ArrowBuffer → reader → reader) (off n : Z) :
    M reader Z := λ r,
  let b := get_buffer r in
  let put s buf size := put_input s (put_buffer (MkBuffer buf size (capacity_bytes b) (allocator b)) r) in
  match input_read off n (input r, data b) with
  | Ok k (s, buf) => Ok k (put s buf (i64 (size_bytes b + k)))
  | Err e (s, buf) => Err e (put s buf (size_bytes b))
  | UB => UB
  end.
Definition sizeof_ArrowIpcArrayStreamReaderPrivate : Z := 1272.
(** The counts are atomic. *)
Definition ArrowIpcSharedBufferIsThreadSafe : bool := true.
Definition data_view (b : ArrowBuffer) : ArrowView := MkView (data b) (size_bytes b).

Section reader.
Context `{!Libc} `{!Malloc}.
(** The address of the memory of the header. *)
Variable header_addr : Z.

Definition on_header {A} (m : M ArrowBuffer A) : M reader A := zoom header put_header m.
Definition on_body {A} (m : M ArrowBuffer A) : M reader A := zoom body put_body m.
Definition on_decoder {A} (m : M ArrowIpcDecoder A) : M reader A := zoom decoder put_decoder m.

Definition ArrowIpcArrayStreamReaderNextHeader (type : Z) : M reader unit :=
  on_header (set_size_bytes 0) ;;;
  on_header (ArrowBufferReserve 8) ;;;
  let* bytes_read := read_into header put_header 0 8 in
  check (negb (bytes_read =? 0)) ENODATA ;;;
  check (bytes_read =? 8) EINVAL ;;;
  let* hb := mget header in
  on_decoder (ArrowIpcDecoderPeekHeader (data_view hb)) ;;;
  let* size := mget (λ r, header_size_bytes (decoder r)) in
  let expected_header_bytes := size - 8 in
  on_header (ArrowBufferReserve expected_header_bytes) ;;;
  let* bytes_read := read_into header put_header 8 expected_header_bytes in
  let* hb := mget header in
  on_decoder (ArrowIpcDecoderVerifyHeader header_addr (data_view hb)) ;;;
  let* t := mget (λ r, message_type (decoder r)) in
  if negb (t =? type) then mret_ tt
  else on_decoder (ArrowIpcDecoderDecodeHeader (data_view hb)).
Definition ArrowIpcArrayStreamReaderNextBody : M reader unit :=
  let* bytes_to_read := mget (λ r, body_size_bytes (decoder r)) in
  on_body (set_size_bytes 0) ;;;
  on_body (ArrowBufferReserve bytes_to_read) ;;;
  let* bytes_read := read_into body put_body 0 bytes_to_read in
  check (bytes_read =? bytes_to_read) ESPIPE.

(** An operation on the decoder that allocates. *)
Definition with_decoder (m : M (mstate * ArrowIpcDecoder) unit) : M (mstate * reader) unit :=
  zoom (λ s, (s.1, decoder s.2)) (λ t s, (t.1, put_decoder t.2 s.2)) m.
Definition on_reader {A} (m : M reader A) : M (mstate * reader) A := zoom snd (λ r s, (s.1, r)) m.
(** The local [tmp] is written by [ArrowIpcDecoderDecodeSchema] alone. *)
Definition decode_schema_tmp : M (mstate * reader) ArrowSchema := λ '(a, r),
  match ArrowIpcDecoderDecodeSchema (decoder r) (a, SchemaReleased) with
  | Ok _ (a', tmp) => Ok tmp (a', r)
  | Err e (a', _) => Err e (a', r)
  | UB => UB
  end.
Definition ArrowIpcArrayStreamReaderReadSchemaIfNeeded : M (mstate * reader) unit :=
  let* s := get out_schema in
  match s with
  | SchemaLive _ => mret_ tt
  | SchemaReleased =>
      on_reader (ArrowIpcArrayStreamReaderNextHeader NANOARROW_IPC_MESSAGE_TYPE_SCHEMA) ;;;
      let* d := get decoder in
      check (message_type d =? NANOARROW_IPC_MESSAGE_TYPE_SCHEMA) EINVAL ;;;
      check (Z.land (feature_flags d) NANOARROW_IPC_FEATURE_COMPRESSED_BODY =? 0) EINVAL ;;;
      check (Z.land (feature_flags d) NANOARROW_IPC_FEATURE_DICTIONARY_REPLACEMENT =? 0) EINVAL ;;;
      on_reader (on_decoder (ArrowIpcDecoderSetEndianness (endianness d))) ;;;
      let* tmp := decode_schema_tmp in
      let* i := get field_index in
      check (i =? -1) ENOTSUP ;;;
      with_decoder (ArrowIpcDecoderSetSchema tmp) ;;;
      modify (put_out_schema (ArrowSchemaMove tmp).1)
  end.
(** The state is the reader and [*out]. *)
Definition ArrowIpcArrayStreamReaderGetSchema : M (mstate * (reader * ArrowSchema)) unit := λ '(a, (r, out)),
  match ArrowIpcArrayStreamReaderReadSchemaIfNeeded (a, r) with
  | UB => UB
  | Err e (a', r') => Err e (a', (r', out))
  | Ok _ (a', r') =>
      match ArrowSchemaDeepCopy (out_schema r') (a', out) with
      | UB => UB
      | Err e (a2, out') => Err e (a2, (r', out'))
      | Ok _ (a2, out') => Ok tt (a2, (r', out'))
      end
  end.

(** Decoding the body that was read; the state has the blocks of shared buffers,
    the result is the local [tmp]. *)
Abbreviation state := (mstate * (shared_heap * reader))%type.
Definition decode_body : M state ArrowArray := λ '(a, (h, r)),
  let after d h' r' := (h', put_decoder d r') in
  if use_shared_buffers r then
    match ArrowIpcSharedBufferInit (a, (h, body r)) with
    | UB => UB
    | Err e (a1, (h1, b1)) => Err e (a1, (h1, put_body b1 r))
    | Ok shared (a1, (h1, b1)) =>
        match ArrowIpcDecoderDecodeArrayFromShared shared (field_index r) NANOARROW_VALIDATION_LEVEL_FULL
                (a1, (h1, (decoder r, ArrayReleased))) with
        | UB => UB
        | Err e (a2, (h2, (d, _))) =>
            match ArrowIpcSharedBufferReset shared h2 with
            | Ok _ h3 => Err e (a2, after d h3 (put_body b1 r))
            | _ => UB
            end
        | Ok _ (a2, (h2, (d, tmp))) =>
            match ArrowIpcSharedBufferReset shared h2 with
            | Ok _ h3 => Ok tmp (a2, after d h3 (put_body b1 r))
            | _ => UB
            end
        end
    end
  else
    match ArrowIpcDecoderDecodeArray (data_view (body r)) (field_index r) NANOARROW_VALIDATION_LEVEL_FULL
            (a, (h, (decoder r, ArrayReleased))) with
    | UB => UB
    | Err e (a2, (h2, (d, _))) => Err e (a2, after d h2 r)
    | Ok _ (a2, (h2, (d, tmp))) => Ok tmp (a2, after d h2 r)
    end.
Definition in_state {A} (m : M (mstate * reader) A) : M state A :=
  zoom (λ s, (s.1, s.2.2)) (λ t s, (t.1, (s.2.1, t.2))) m.
(** The part of the next function after the header was decoded. *)
Definition next_batch : M state ArrowArray :=
  let* t := in_state (get (λ r, message_type (decoder r))) in
  check (t =? NANOARROW_IPC_MESSAGE_TYPE_RECORD_BATCH) EINVAL ;;;
  in_state (on_reader ArrowIpcArrayStreamReaderNextBody) ;;;
  let* tmp := decode_body in
  mret_ (ArrowArrayMove tmp).1.
(** The result is [*out]; it is written only on success. *)
Definition ArrowIpcArrayStreamReaderGetNext : M state ArrowArray :=
  in_state ArrowIpcArrayStreamReaderReadSchemaIfNeeded ;;; λ s,
  match in_state (on_reader (ArrowIpcArrayStreamReaderNextHeader NANOARROW_IPC_MESSAGE_TYPE_RECORD_BATCH)) s with
  | UB => UB
  | Err ENODATA s' => Ok ArrayReleased s'
  | Err e s' => Err e s'
  | Ok _ s' => next_batch s'
  end.

(** The state is the stream ([None] once released), the caller's input stream and
    what happens to the blocks. *)
Definition ArrowIpcArrayStreamReaderInit (options : option ArrowIpcArrayStreamReaderOptions) :
    M (mstate * (option reader * ArrowIpcInputStream)) unit := λ '(a, (out, input_stream)),
  let '(ok, a1) := malloc_step sizeof_ArrowIpcArrayStreamReaderPrivate a in
  if ok : bool then
    match ArrowIpcDecoderInit (a1, decoder_zero) with
    | UB => UB
    | Err e (a2, _) => Err e (a2, (out, input_stream))
    | Ok _ (a2, d) =>
        let '(mine, theirs) := ArrowIpcInputStreamMove input_stream in
        let r field_index shared :=
          MkReader mine d shared SchemaReleased field_index ArrowBufferInit ArrowBufferInit in
        let r := match options with
                 | Some o => r (option_field_index o) (option_shared o)
                 | None => r (-1) ArrowIpcSharedBufferIsThreadSafe
                 end in
        Ok tt (a2, (Some r, theirs))
    end
  else Err ENOMEM (a1, (out, input_stream)).
(** The input is released when it is there, then the decoder, the schema and the
    buffers; the result says whether the schema's release was called. *)
Definition ArrowIpcArrayStreamReaderRelease : M (shared_heap * option reader) bool := λ '(h, stream),
  match stream with
  | None => UB
  | Some r =>
      match (match input r with InputReleased => Ok tt (h, InputReleased) | _ => input_release (h, input r) end) with
      | Ok _ (h1, _) =>
          match ArrowIpcDecoderReset (decoder r) with
          | Ok _ _ =>
              match (reset_buffer (header r) ;;; reset_buffer (body r)) h1 with
              | Ok _ h2 => Ok (match out_schema r with SchemaLive _ => true | SchemaReleased => false end) (h2, None)
              | _ => UB
              end
          | _ => UB
          end
      | _ => UB
      end
  end.
End reader.

(** ** What a call consumes *)
(** The size a header announces, as the prefix of a message has it. *)
Definition announced (p : ArrowIpcDecoderPrivate) (m : list Z) : option Z :=
  x ← load_i 4 (drop 4 m) 0;
  Some (if system_endianness p =? NANOARROW_IPC_ENDIANNESS_BIG then i32 (bswap32 (u32 x)) else x).

Lemma read_prefix_returns v d p :
  decoder_private d = Some p →
  returns (ArrowIpcDecoderReadHeaderPrefix v) d
    (λ rest d', ∃ m w, view_data v = Some m ∧ announced p m = Some w ∧ 1 <= w ∧ 8 <= view_size v ∧
       view_size rest = view_size v - 8 ∧ d' = set_header_size (i32 (w + 8)) d).
Proof.
  intros Hp. unfold ArrowIpcDecoderReadHeaderPrefix, get_decoder_private.
  apply returns_bind, returns_bind, returns_get. rewrite Hp. apply returns_ret, returns_bind, returns_check.
  intros Hsize. zbool. unfold kMessageHeaderPrefixSize in *. apply returns_bind, returns_deref. intros r Hr.
  apply returns_bind, returns_check. intros _. apply returns_bind, returns_deref. intros s Hs.
  apply returns_bind, returns_mod, returns_bind, returns_check. intros Hneg. apply returns_bind, returns_check. intros Hz.
  apply returns_ret. zbool. unfold ArrowIpcReadContinuationBytes in Hr. destruct (view_data v) as [m|] eqn:Hm; [|done].
  cbn [mbind option_bind] in Hr. destruct (load_u 4 m 0); [|done]. injection Hr as <-. cbn [snd] in Hs.
  unfold ArrowIpcReadInt32LE, advance in Hs. rewrite Hm in Hs. cbn [view_data view_size fmap option_fmap option_map] in Hs.
  cbn in Hs. unfold announced. exists m. change (Z.to_nat 4) with 4%nat in Hs.
  destruct (load_i 4 (drop 4 m) 0) as [x|]; [|done]. cbn in Hs. injection Hs as <-. cbn [fst snd view_size] in *.
  eexists. split; [done|]. split; [done|]. split; [lia|]. split; [lia|]. split; [lia|done].
Qed.
Lemma reset_header_returns d p (Q : unit → ArrowIpcDecoder → Prop) :
  decoder_private d = Some p →
  Q tt (MkDecoder 0 0 0 0 0 0 0 (Some (set_last_message None p))) → returns ArrowIpcDecoderResetHeaderInfo d Q.
Proof.
  intros Hp HQ. unfold ArrowIpcDecoderResetHeaderInfo, put_last_message, get_decoder_private.
  apply returns_bind, returns_mod, returns_bind, returns_bind, returns_get. cbn [decoder_private]. rewrite Hp.
  by apply returns_ret, returns_mod.
Qed.
Lemma peek_returns v d p :
  decoder_private d = Some p →
  returns (ArrowIpcDecoderPeekHeader v) d
    (λ _ d', ∃ m w, view_data v = Some m ∧ announced p m = Some w ∧ 1 <= w ∧ 8 <= view_size v ∧
       header_size_bytes d' = i32 (w + 8) ∧ decoder_private d' = Some (set_last_message None p)).
Proof.
  intros Hp. unfold ArrowIpcDecoderPeekHeader. apply returns_bind. eapply reset_header_returns; [done|].
  apply returns_bind. eapply returns_mono; [by apply read_prefix_returns|].
  intros rest d' (m & w & Hm & Hw & Hw1 & Hv & _ & ->). apply returns_ret. by exists m, w.
Qed.
(** What the size of a header that passed says of the size of the view. *)
Definition framed (p : ArrowIpcDecoderPrivate) (v : ArrowView) (d : ArrowIpcDecoder) : Prop :=
  ∃ m w, view_data v = Some m ∧ announced p m = Some w ∧ 1 <= w ∧ 8 <= view_size v ∧
    header_size_bytes d = i32 (w + 8) ∧ header_size_bytes d <= view_size v ∧
    INT64_MIN <= body_size_bytes d <= INT64_MAX ∧
    ∃ q, decoder_private d = Some (set_last_message q p).
Lemma read_header_returns v d p :
  decoder_private d = Some p → returns (read_header v) d (λ _ d', framed p v d').
Proof.
  intros Hp. unfold read_header. apply returns_bind. eapply reset_header_returns; [done|].
  apply returns_bind. eapply returns_mono; [by apply read_prefix_returns|].
  intros rest d' (m & w & Hm & Hw & Hw1 & Hv & Hrest & ->). apply returns_bind, returns_get.
  apply returns_bind, returns_check. cbn [header_size_bytes set_header_size]. unfold kMessageHeaderPrefixSize. intros Hs. zbool.
  apply returns_ret. exists m, w. do 5 (split; [done|]). cbn. split; [lia|]. split; [by split|by eexists].
Qed.
Lemma framed_message p v d t ver b :
  framed p v d → INT64_MIN <= b <= INT64_MAX → framed p v (set_message t ver b d).
Proof. intros (m & w & ? & ? & ? & ? & ? & ? & _ & ?) Hb. exists m, w. by do 6 (split; [done|]). Qed.
Lemma body_length_range buf t n : Message_bodyLength buf t = Some n → INT64_MIN <= n <= INT64_MAX.
Proof.
  unfold Message_bodyLength, __flatbuffers_scalar_field. intros Hn.
  assert (∀ l off x, load_i 8 l off = Some x → INT64_MIN <= x <= INT64_MAX) as Hload.
  { intros l off x Hx. unfold load_i in Hx. apply fmap_Some in Hx as (y & _ & ->).
    pose proof (swrap_range 64 y ltac:(lia)) as Hy. change (8 * Z.of_nat 8) with 64.
    change (2 ^ (64 - 1)) with 9223372036854775808 in Hy. unfold INT64_MIN, INT64_MAX. lia. }
  apply bind_Some in Hn as (o & _ & Hn). case_match; [by injection Hn as <-|].
  apply bind_Some in Hn as (q & _ & Hn). eauto.
Qed.
Lemma framed_private p v d q0 : framed p v d → framed p v (set_private (set_last_message q0 p) d).
Proof. intros (m & w & ? & ? & ? & ? & ? & ? & ? & _). exists m, w. do 7 (split; [done|]). by eexists. Qed.
Lemma put_message_returns p v d q0 :
  framed p v d → returns (put_last_message q0) d (λ _ d', framed p v d').
Proof.
  intros Hf. unfold put_last_message, get_decoder_private. apply returns_bind, returns_bind, returns_get.
  pose proof Hf as (m & w & _ & _ & _ & _ & _ & _ & _ & q & Hq). rewrite Hq. apply returns_ret, returns_mod.
  by apply (framed_private p v d q0).
Qed.
Lemma verify_returns addr v d p :
  decoder_private d = Some p → returns (ArrowIpcDecoderVerifyHeader addr v) d (λ _ d', framed p v d').
Proof.
  intros Hp. unfold ArrowIpcDecoderVerifyHeader. apply returns_bind.
  eapply returns_mono; [by apply read_header_returns|]. intros r d1 Hf. apply returns_bind, returns_deref. intros buf _.
  apply returns_bind, returns_deref. intros [e|x] _; [apply returns_fail|].
  do 3 (apply returns_bind, returns_deref; intros ? _). apply returns_bind, returns_deref. intros body Hbody%body_length_range.
  apply returns_bind, returns_mod, returns_bind, returns_deref.
  intros hd _. by apply put_message_returns, framed_message.
Qed.
Lemma decode_returns v d p :
  decoder_private d = Some p → returns (ArrowIpcDecoderDecodeHeader v) d (λ _ d', framed p v d').
Proof.
  intros Hp. unfold ArrowIpcDecoderDecodeHeader. apply returns_bind.
  eapply returns_mono; [by apply read_header_returns|]. intros r d1 Hf. apply returns_bind, returns_deref. intros buf _.
  do 3 (apply returns_bind, returns_deref; intros ? _). apply returns_bind, returns_mod, returns_bind, returns_deref.
  intros body Hbody%body_length_range. apply returns_bind, returns_mod, returns_bind, returns_get, returns_bind, returns_check. intros _.
  apply returns_bind, returns_deref. intros hd _. apply returns_bind.
  apply (returns_mono _ _ (λ _ d', framed p v d')); [|intros [] d2 Hf2; by apply put_message_returns].
  set (d2 := set_message _ _ _ _). assert (framed p v d2) as Hf2.
  { apply framed_message; [|done]. apply framed_message; [done|]. by destruct Hf as (? & ? & _ & _ & _ & _ & _ & _ & ? & _). }
  clearbody d2. clear Hf d1 Hp.
  assert (returns (ArrowIpcDecoderDecodeSchemaHeader buf hd) d2 (λ _ d', framed p v d')) as Hschema.
  { unfold ArrowIpcDecoderDecodeSchemaHeader. apply returns_bind, returns_deref. intros e _. apply returns_bind.
    apply (returns_mono _ _ (λ _ d', framed p v d')).
    - repeat case_match; try apply returns_fail; by apply returns_mod.
    - intros [] d3 Hf3. do 2 (apply returns_bind, returns_deref; intros ? _). apply returns_bind, returns_mod.
      apply (returns_for (λ _ d', framed p v d')); [done|]. intros ? i ? d4 _ Hf4. apply returns_bind, returns_deref.
      intros f _. repeat case_match; try apply returns_fail; by apply returns_mod. }
  assert (returns (ArrowIpcDecoderDecodeRecordBatchHeader buf hd) d2 (λ _ d', framed p v d')) as Hbatch.
  { unfold ArrowIpcDecoderDecodeRecordBatchHeader, get_decoder_private. apply returns_bind, returns_bind, returns_get, returns_deref.
    intros p' _. do 4 (apply returns_bind, returns_deref; intros ? _). do 2 (apply returns_bind, returns_check; intros _).
    apply returns_bind, returns_deref. intros [] _; [|by apply returns_mod].
    do 2 (apply returns_bind, returns_deref; intros ? _). repeat case_match; try apply returns_fail; by apply returns_mod. }
  repeat case_match; done || apply returns_fail.
Qed.

(** *** Reading *)
(** The first bytes of the memory of a buffer. *)
Definition keeps (n : nat) (b b' : ArrowBuffer) : Prop :=
  ∀ m, data b = Some m → (n <= List.length m)%nat → ∃ m', data b' = Some m' ∧ take n m' = take n m ∧ (n <= List.length m')%nat.
Lemma announced_keeps p b b' m m' w :
  keeps 8 b b' → data b = Some m → data b' = Some m' → announced p m = Some w → announced p m' = Some w.
Proof.
  intros Hk Hm Hm' Hw. unfold announced in *. destruct (load_i 4 (drop 4 m) 0) as [x|] eqn:Hx; [|done].
  pose proof (load_i_Some _ _ _ _ Hx) as [_ Hlen]. unfold zlen in Hlen. rewrite length_drop in Hlen.
  destruct (Hk m Hm) as (m1 & Hm1 & Htake & Hlen1); [lia|]. rewrite Hm' in Hm1. injection Hm1 as <-.
  assert (load_i 4 (drop 4 m') 0 = load_i 4 (drop 4 m) 0) as ->; [|by rewrite Hx].
  unfold load_i, load_u. do 2 f_equal. rewrite !zslice_in by (unfold zlen; rewrite ?length_drop; lia).
  change (Z.to_nat 0) with 0%nat. rewrite !drop_0. change (Z.to_nat (Z.of_nat 4)) with 4%nat.
  apply (f_equal (drop 4)) in Htake. rewrite !skipn_firstn_comm in Htake. f_equal. exact Htake.
Qed.

Section consume.
Context `{!Libc} `{!Malloc}.
Variables (addr : Z) (b : ArrowBuffer).
Hypothesis Hsmall : size_bytes b <= INT64_MAX.

Definition at_cursor (c : Z) (r : reader) : Prop := input r = InputBuffer b c ∧ 0 <= c <= size_bytes b.
(** Everything but the input and one buffer is as it was. *)
Lemma read_into_returns get_buffer put_buffer off n c r :
  at_cursor c r → 0 <= off → INT64_MIN <= n →
  returns (read_into get_buffer put_buffer off n) r
    (λ k r', k = Z.min n (size_bytes b - c) ∧ ∃ buf,
       r' = put_input (InputBuffer b (i64 (c + k)))
         (put_buffer (MkBuffer buf (i64 (size_bytes (get_buffer r) + k)) (capacity_bytes (get_buffer r))
           (allocator (get_buffer r))) r) ∧
       keeps (Z.to_nat off) (get_buffer r) (MkBuffer buf 0 0 (allocator b))).
Proof.
  intros [Hin Hc] Hoff Hn k r' Hrun. unfold read_into in Hrun. rewrite Hin in Hrun.
  cbn [input_read] in Hrun. unfold ArrowIpcInputStreamBufferRead in Hrun.
  assert (∀ x : ArrowBuffer, keeps (Z.to_nat off) x (MkBuffer (data x) 0 0 (allocator b))) as Hsame by (intros x m Hm Hl; exists m; by split).
  destruct (Z.eqb_spec n 0) as [->|Hne].
  { injection Hrun as <- <-. rewrite Z.min_l by lia. split; [done|]. exists (data (get_buffer r)).
    rewrite !Z.add_0_r. split; [|apply Hsame]. rewrite (i64_small c) by (unfold INT64_MIN; lia). done. }
  rewrite (i64_small (size_bytes b - c)) in Hrun by (unfold INT64_MIN; lia).
  set (k0 := if n <? size_bytes b - c then n else size_bytes b - c) in *.
  assert (k0 = Z.min n (size_bytes b - c)) as Hk0 by (unfold k0; destruct (Z.ltb_spec n (size_bytes b - c)); lia).
  destruct (Z.ltb_spec 0 k0).
  - destruct (data b) as [m|]; [|done]. cbn [mbind option_bind] in Hrun.
    destruct (zslice m c k0) as [d|]; [|done]. cbn [mbind option_bind] in Hrun.
    destruct (data (get_buffer r)) as [m0|] eqn:Hm0; [|done]. cbn [mbind option_bind] in Hrun.
    destruct (zwrite m0 off d) as [m1|] eqn:Hw; [|done]. injection Hrun as <- <-. split; [done|]. exists (Some m1). split; [done|].
    intros m' Hm' Hlen. rewrite Hm0 in Hm'. injection Hm' as <-. exists m1. split; [done|].
    pose proof (zwrite_zlen _ _ _ _ Hw) as Hz. unfold zwrite in Hw. case_match; [|done]. injection Hw as <-. unfold zlen in *.
    split; [|lia]. rewrite take_app_le by (rewrite length_take; lia). by rewrite take_take, Nat.min_id.
  - injection Hrun as <- <-. split; [done|]. exists (data (get_buffer r)). split; [done|apply Hsame].
Qed.
(** Making room keeps the bytes there are, and never makes the buffer longer. *)
Lemma reserve_returns k buf :
  0 <= size_bytes buf <= 2 ^ 32 → - 2 ^ 32 <= k <= 2 ^ 32 →
  returns (ArrowBufferReserve k) buf
    (λ _ buf', 0 <= size_bytes buf' <= size_bytes buf ∧
       (0 <= k → size_bytes buf' = size_bytes buf ∧
          (0 < size_bytes buf → keeps (Z.to_nat (size_bytes buf)) buf buf'))).
Proof.
  intros Hs Hk [] buf' Hrun. unfold ArrowBufferReserve in Hrun. rewrite i64_small in Hrun by (unfold INT64_MIN, INT64_MAX; lia).
  destruct (Z.leb_spec (size_bytes buf + k) (capacity_bytes buf)) as [|Hgt].
  { injection Hrun as <-. split; [lia|]. intros _. split; [done|]. intros _ m Hm Hl. exists m. by split. }
  pose proof (grow_lower (capacity_bytes buf) (size_bytes buf + k)) as Hg. set (cap := _ArrowGrowByFactor _ _) in *.
  unfold ArrowBufferResize in Hrun. destruct (Z.ltb_spec cap 0); [done|].
  destruct (Z.ltb_spec (capacity_bytes buf) cap) as [_|?]; [|lia]. cbn [orb] in Hrun.
  remember (call_reallocate (allocator buf) (data buf) (capacity_bytes buf) cap) as p eqn:Hp.
  assert (buf' = MkBuffer p (if cap <? size_bytes buf then cap else size_bytes buf) cap (allocator buf) ∧
    (p = None → cap = 0)) as [-> Hnone].
  { destruct p; [by injection Hrun as <-|]. destruct (Z.ltb_spec 0 cap); [done|]. injection Hrun as <-. split; [done|lia]. }
  cbn [size_bytes data]. split; [destruct (Z.ltb_spec cap (size_bytes buf)); lia|]. intros Hk0.
  destruct (Z.ltb_spec cap (size_bytes buf)); [lia|]. split; [done|]. intros Hpos m Hm Hl.
  destruct p as [m'|]; [|specialize (Hnone eq_refl); lia]. exists m'. split; [done|].
  unfold call_reallocate in Hp. destruct (reallocate (allocator buf)); [|done]. symmetry in Hp. rewrite Hm in Hp.
  pose proof (libc_realloc_zlen (Some m) cap m' ltac:(lia) Hp) as Hlen. apply libc_realloc_keep in Hp.
  unfold zlen in *. split; [|lia]. apply (f_equal (take (Z.to_nat (size_bytes buf)))) in Hp.
  rewrite !take_take, Nat.min_l in Hp by lia. done.
Qed.

(** Everything of a reader a message header does not change. *)
Definition same_setup (r r' : reader) : Prop :=
  use_shared_buffers r' = use_shared_buffers r ∧ out_schema r' = out_schema r ∧ field_index r' = field_index r.
(** The first part of the header: the prefix of eight bytes is there. *)
Lemma prefix_returns {A} (k : M reader A) Q c r :
  at_cursor c r →
  (∀ r', at_cursor (c + 8) r' → size_bytes (header r') = 8 → decoder r' = decoder r → same_setup r r' → returns k r' Q) →
  returns (on_header (set_size_bytes 0) ;;; on_header (ArrowBufferReserve 8) ;;;
    let* bytes_read := read_into header put_header 0 8 in
    check (negb (bytes_read =? 0)) ENODATA ;;; check (bytes_read =? 8) EINVAL ;;; k) r Q.
Proof.
  intros Hat Hk. apply returns_bind, returns_zoom, returns_mod, returns_bind, returns_zoom.
  eapply returns_mono; [apply reserve_returns; cbn; lia|]. cbn [size_bytes].
  intros [] b1 [_ Hb1]. destruct (Hb1 ltac:(lia)) as [Hs1 _]. set (r1 := put_header b1 _). apply returns_bind.
  eapply returns_mono; [apply (read_into_returns header put_header 0 8 c r1); [exact Hat|lia|unfold INT64_MIN; lia]|].
  intros k1 r2 (Hk1 & buf & Hr2 & _). apply returns_bind, returns_check. intros _. apply returns_bind, returns_check.
  intros Hk8%Z.eqb_eq. rewrite Hk8 in Hk1, Hr2. destruct Hat as [Hin Hc].
  rewrite (i64_small (c + 8)) in Hr2 by (unfold INT64_MIN; lia). change (size_bytes b1 = 0) in Hs1.
  cbn [header r1 put_header] in Hr2. rewrite Hs1 in Hr2. change (i64 (0 + 8)) with 8 in Hr2.
  apply Hk; rewrite Hr2; by try (split; [|lia]).
Qed.
(** The second part: [n] bytes behind the prefix, or what there is. *)
Lemma rest_returns n c r :
  at_cursor c r → size_bytes (header r) = 8 → - 2 ^ 32 <= n <= 2 ^ 32 →
  returns (on_header (ArrowBufferReserve n) ;;; read_into header put_header 8 n) r
    (λ k r', k <= n ∧ size_bytes (header r') <= 8 + k ∧ decoder r' = decoder r ∧ same_setup r r' ∧
       (0 <= n → at_cursor (c + k) r' ∧ keeps 8 (header r) (header r'))).
Proof.
  intros Hat Hs Hn. apply returns_bind, returns_zoom.
  eapply returns_mono; [apply reserve_returns; lia|]. intros [] b4 [Hs4 Hb4]. rewrite Hs in Hs4, Hb4.
  eapply returns_mono; [apply (read_into_returns header put_header 8 n c); [exact Hat|lia|unfold INT64_MIN; lia]|].
  intros k r' (Hk & buf & -> & Hkeep). destruct Hat as [_ Hc]. cbn [header put_header put_input size_bytes] in *.
  split; [lia|]. split; [rewrite i64_small by (unfold INT64_MIN, INT64_MAX; lia); lia|]. do 2 (split; [done|]). intros Hpos.
  split; [rewrite i64_small by (unfold INT64_MIN; lia); by split; [|lia]|]. intros x Hx Hl.
  destruct (Hb4 Hpos) as [_ Hk4]. destruct (Hk4 ltac:(lia) x Hx Hl) as (x4 & Hx4 & Ht4 & Hl4).
  destruct (Hkeep x4 Hx4 Hl4) as (x5 & Hx5 & Ht5 & Hl5). exists x5.
  change (Z.to_nat 8) with 8%nat in *. split; [exact Hx5|]. split; [congruence|done].
Qed.
(** A header framed by the bytes that were read has the size the prefix announced. *)
Lemma framed_size p hb hb' m w d :
  data hb = Some m → announced p m = Some w → (0 <= i32 (w + 8) - 8 → keeps 8 hb hb') →
  size_bytes hb' <= i32 (w + 8) → framed (set_last_message None p) (data_view hb') d →
  header_size_bytes d = i32 (w + 8) ∧ 8 <= i32 (w + 8) ∧ i32 (w + 8) <= size_bytes hb'.
Proof.
  intros Hm Hw Hkeep Hs (m5 & w5 & Hm5 & Hw5 & _ & Hv8 & Hh & Hle & _). cbn [data_view view_size view_data] in *.
  pose proof (announced_keeps p hb hb' m m5 w (Hkeep ltac:(lia)) Hm Hm5 Hw) as Heq.
  change (announced (set_last_message None p) m5) with (announced p m5) in Hw5. rewrite Heq in Hw5. injection Hw5 as <-. lia.
Qed.
Lemma next_header_returns type c r p :
  at_cursor c r → decoder_private (decoder r) = Some p →
  returns (ArrowIpcArrayStreamReaderNextHeader addr type) r
    (λ _ r', 8 <= header_size_bytes (decoder r') ∧ at_cursor (c + header_size_bytes (decoder r')) r' ∧ same_setup r r' ∧
       INT64_MIN <= body_size_bytes (decoder r') <= INT64_MAX ∧
       ∃ q, decoder_private (decoder r') = Some (set_last_message q p)).
Proof.
  intros Hat Hp. unfold ArrowIpcArrayStreamReaderNextHeader. eapply prefix_returns; [done|].
  clear Hat. intros r2 Hat Hs2 Hd2 Hsame. apply returns_bind, returns_get. set (hb := header r2) in *.
  apply returns_bind, returns_zoom. rewrite Hd2. eapply returns_mono; [by apply peek_returns|].
  intros [] d3 (m & w & Hm & Hw & Hw1 & _ & Hd3 & Hp3). cbn [view_data data_view] in Hm.
  apply returns_bind, returns_get. cbn [decoder put_decoder]. rewrite Hd3.
  pose proof (swrap_range 32 (w + 8) ltac:(lia)) as Hrange. fold (i32 (w + 8)) in Hrange.
  change (2 ^ (32 - 1)) with 2147483648 in Hrange. apply returns_assoc, returns_bind.
  eapply returns_mono; [apply (rest_returns (i32 (w + 8) - 8) (c + 8)); [exact Hat|exact Hs2|lia]|].
  intros k r5 (Hk & Hs5 & Hd5 & Hsame5 & Hpos). cbn [decoder header put_decoder] in *.
  assert (same_setup r r5) as Hsetup by (destruct Hsame as (? & ? & ?), Hsame5 as (? & ? & ?); cbn in *; split_and!; congruence).
  apply returns_bind, returns_get. set (hb5 := header r5) in *.
  assert (∀ d', framed (set_last_message None p) (data_view hb5) d' → 8 <= header_size_bytes d' ∧
    at_cursor (c + header_size_bytes d') (put_decoder d' r5) ∧ same_setup r (put_decoder d' r5) ∧
    INT64_MIN <= body_size_bytes d' <= INT64_MAX ∧ ∃ q, decoder_private d' = Some (set_last_message q p)) as Hdone.
  { intros d' Hf. destruct (framed_size p hb hb5 m w d') as (-> & H8 & Hle); [done|done|intros; by apply Hpos|lia|done|].
    split; [done|]. split; [replace (c + i32 (w + 8)) with (c + 8 + k) by lia; apply Hpos; lia|].
    split; [exact Hsetup|]. destruct Hf as (? & ? & _ & _ & _ & _ & _ & _ & Hr & q & ?). split; [exact Hr|by exists q]. }
  apply returns_bind, returns_zoom. rewrite Hd5. eapply returns_mono; [by apply verify_returns|].
  intros [] d6 Hf6. apply returns_bind, returns_get. apply returns_if; intros _; [apply returns_ret; by apply Hdone|].
  apply returns_zoom. cbn [decoder put_decoder]. pose proof Hf6 as (? & ? & _ & _ & _ & _ & _ & _ & _ & q & Hq).
  eapply returns_mono; [by apply (decode_returns _ _ _ Hq)|]. intros [] d7 Hf7. exact (Hdone d7 Hf7).
Qed.

Lemma next_body_returns c r :
  at_cursor c r → INT64_MIN <= body_size_bytes (decoder r) <= INT64_MAX →
  returns ArrowIpcArrayStreamReaderNextBody r
    (λ _ r', input r' = InputBuffer b (c + body_size_bytes (decoder r)) ∧ c + body_size_bytes (decoder r) <= size_bytes b ∧
       same_setup r r' ∧ decoder r' = decoder r).
Proof.
  intros Hat Hn. unfold ArrowIpcArrayStreamReaderNextBody. apply returns_bind, returns_get, returns_bind, returns_zoom, returns_mod.
  apply returns_bind, returns_zoom. intros [] b1 _. set (r1 := put_body b1 _). cbv beta. apply returns_bind.
  eapply returns_mono; [apply (read_into_returns body put_body 0 (body_size_bytes (decoder r)) c r1); [exact Hat|lia|lia]|].
  intros k r2 (Hk & buf & -> & _). apply returns_check. intros Heq%Z.eqb_eq. destruct Hat as [_ Hc].
  cbn [input put_input]. rewrite i64_small by (unfold INT64_MIN in *; lia). split; [by rewrite Heq|]. by split; [lia|].
Qed.
End consume.

Section decoder.
Context `{!Libc} `{!Malloc}.
(** Decoding an array changes the private data of the decoder alone. *)
Lemma decode_array_decoder f i level s h d out u s' h' d' out' :
  decode_array f i level (s, (h, (d, out))) = Ok u (s', (h', (d', out'))) → ∃ p, d' = set_private p d.
Proof.
  unfold decode_array. intros Hrun.
  assert (∀ r hd, ArrowIpcDecoderDecodeArrayViewInternal f i (h, d) = Ok r hd → ∃ p, hd.2 = set_private p d) as Hview.
  { unfold ArrowIpcDecoderDecodeArrayViewInternal. intros r hd. repeat case_match; intros; simplify_eq; by eexists. }
  destruct (ArrowIpcDecoderDecodeArrayViewInternal f i (h, d)) as [path [h1 d1]|e [h1 d1]|]; [|done|done].
  destruct (Hview _ _ eq_refl) as [p1 Hp1]. cbn [snd] in Hp1. subst d1. cbn [decoder_private set_private mbind option_bind] in Hrun.
  destruct (view_at path (array_view p1)) as [v|]; [|done]. cbn in Hrun.
  repeat case_match; simplify_eq; by eexists.
Qed.
Lemma decode_body_returns a h r :
  returns decode_body (a, (h, r)) (λ _ st, input st.2.2 = input r ∧ same_setup r st.2.2 ∧
    ∃ p, decoder st.2.2 = set_private p (decoder r)).
Proof.
  intros x [a' [h' r']] Hrun. unfold decode_body in Hrun. destruct (use_shared_buffers r) eqn:Hsh.
  - destruct (ArrowIpcSharedBufferInit _) as [sh [a1 [h1 b1]]|? [? []]|]; [|done|done].
    destruct (ArrowIpcDecoderDecodeArrayFromShared _ _ _ _) as [? [a2 [h2 [d tmp]]]|? [? [? []]]|] eqn:Hd; [|by case_match|done].
    apply decode_array_decoder in Hd as [p ->]. destruct (ArrowIpcSharedBufferReset _ _) as [? h3|? ?|]; [|done|done].
    injection Hrun as <- <- <- <-. split; [done|]. split; [done|by exists p].
  - destruct (ArrowIpcDecoderDecodeArray _ _ _ _) as [? [a2 [h2 [d tmp]]]|? [? [? []]]|] eqn:Hd; [|done|done].
    apply decode_array_decoder in Hd as [p ->]. injection Hrun as <- <- <- <-. split; [done|]. split; [done|by exists p].
Qed.
Lemma returns_in_state {A} (m : M (mstate * reader) A) a h r Q :
  returns m (a, r) (λ x t, Q x (t.1, (h, t.2))) → returns (in_state m) (a, (h, r)) Q.
Proof. intros Hm. by apply returns_zoom. Qed.

Lemma next_batch_returns b c a h r :
  size_bytes b <= INT64_MAX → at_cursor b c r → INT64_MIN <= body_size_bytes (decoder r) <= INT64_MAX →
  returns next_batch (a, (h, r)) (λ _ st,
    input st.2.2 = InputBuffer b (c + body_size_bytes (decoder r)) ∧ c + body_size_bytes (decoder r) <= size_bytes b ∧
    same_setup r st.2.2 ∧ ∃ p, decoder st.2.2 = set_private p (decoder r)).
Proof.
  intros Hsmall Hat Hbody. unfold next_batch. apply returns_bind, returns_in_state, returns_get. cbn [fst snd].
  apply returns_bind, returns_check. intros _. apply returns_bind, returns_in_state, returns_zoom. cbn [snd fst].
  eapply returns_mono; [by apply (next_body_returns b Hsmall _ r Hat)|]. intros [] r2 (Hin2 & Hle2 & Hsame2 & Hd2).
  cbn [fst snd]. apply returns_bind. eapply returns_mono; [apply decode_body_returns|].
  intros tmp st2 (Hin3 & Hsame3 & p & Hd3). apply returns_ret. rewrite Hin3, Hin2, Hd3, Hd2. split; [done|]. split; [done|].
  split; [|by exists p]. destruct Hsame2 as (? & ? & ?), Hsame3 as (? & ? & ?). split; [congruence|]. split; congruence.
Qed.
(** A call that gives an array, on a reader whose schema was read. *)
Lemma get_next_returns addr b c a h r p s out st :
  size_bytes b <= INT64_MAX → at_cursor b c r → decoder_private (decoder r) = Some p → out_schema r = SchemaLive s →
  ArrowIpcArrayStreamReaderGetNext addr (a, (h, r)) = Ok (ArrayLive out) st →
  8 <= header_size_bytes (decoder st.2.2) ∧
  input st.2.2 = InputBuffer b (c + header_size_bytes (decoder st.2.2) + body_size_bytes (decoder st.2.2)) ∧
  c + header_size_bytes (decoder st.2.2) + body_size_bytes (decoder st.2.2) <= size_bytes b ∧
  same_setup r st.2.2 ∧ is_Some (decoder_private (decoder st.2.2)).
Proof.
  intros Hsmall Hat Hp Hs Hrun. unfold ArrowIpcArrayStreamReaderGetNext, mbind_ at 1 in Hrun.
  assert (in_state (ArrowIpcArrayStreamReaderReadSchemaIfNeeded addr) (a, (h, r)) = Ok tt (a, (h, r))) as Hschema.
  { unfold in_state, zoom. cbn [fst snd]. unfold ArrowIpcArrayStreamReaderReadSchemaIfNeeded, mbind_, get, mget. by rewrite Hs. }
  rewrite Hschema in Hrun. clear Hschema.
  set (m := in_state (on_reader (ArrowIpcArrayStreamReaderNextHeader addr _))) in Hrun.
  assert (returns m (a, (h, r)) (λ _ st, 8 <= header_size_bytes (decoder st.2.2) ∧
    at_cursor b (c + header_size_bytes (decoder st.2.2)) st.2.2 ∧ same_setup r st.2.2 ∧
    INT64_MIN <= body_size_bytes (decoder st.2.2) <= INT64_MAX)) as Hheader.
  { apply returns_in_state, returns_zoom. cbn [snd]. eapply returns_mono; [by eapply (next_header_returns addr b Hsmall _ c r p)|].
    intros [] r1 (? & ? & ? & ? & _). done. }
  destruct (m (a, (h, r))) as [[] [a1 [h1 r1]]|e s1|] eqn:Hm; [|by destruct e|done].
  destruct (Hheader _ _ Hm) as (H8 & Hat1 & Hsame1 & Hbody). cbn [fst snd] in *.
  destruct (next_batch_returns b _ a1 h1 r1 Hsmall Hat1 Hbody _ _ Hrun) as (Hin & Hle & Hsame & p' & Hd).
  rewrite Hd. cbn [header_size_bytes body_size_bytes set_private decoder_private].
  split; [done|]. split; [done|]. split; [done|]. split; [|by eexists].
  destruct Hsame1 as (? & ? & ?), Hsame as (? & ? & ?). split; [congruence|]. split; congruence.
Qed.
End decoder.
