(* ===== verification/IpcReader.v ===== *)
(** * Reading a stream of record batches (nanoarrow_ipc.c)

    The properties of [ArrowIpcArrayStreamReaderGetNext] on a stream in memory:
    what a call consumes, that a stream ends, and the two ways in which it does
    not give what is in the stream. *)

From stdpp Require Import base numbers list option strings gmap.
From S2P Require Import Prelude CInt CString Buffer Bitmap Types Metadata Schema SchemaView ArrayView Array Stream.
From S2P Require Import IpcShared IpcDecoder IpcBody IpcFields IpcBatch IpcSession IpcStream.
#[local] Open Scope Z_scope.
#[local] Open Scope c_scope.
#[local] Set Warnings "-register-all".

(** ** Calls that give an array *)
Section calls.
Context `{!Libc} `{!Malloc}.
Variable addr : Z.
(** [k] calls of the next function that all gave an array: the state after them. *)
Fixpoint batches (k : nat) (st : mstate * (shared_heap * reader)) : option (mstate * (shared_heap * reader)) :=
  match k with
  | O => Some st
  | S k' =>
      match ArrowIpcArrayStreamReaderGetNext addr st with
      | Ok (ArrayLive _) st' => batches k' st'
      | _ => None
      end
  end.
(** A reader over the bytes of [b], at byte [c], whose schema was read. *)
Definition reads (b : ArrowBuffer) (c : Z) (r : reader) : Prop :=
  at_cursor b c r ∧ is_Some (decoder_private (decoder r)) ∧ ∃ s, out_schema r = SchemaLive s.

Lemma batches_none k st : batches k st = None → batches (S k) st = None.
Proof.
  revert st. induction k as [|k IH]; intros st Hk; [done|]. cbn [batches] in Hk.
  change (match ArrowIpcArrayStreamReaderGetNext addr st with Ok (ArrayLive _) st' => batches (S k) st' | _ => None end = None).
  destruct (ArrowIpcArrayStreamReaderGetNext addr st) as [[|x] st1|e st1|]; try done. by apply IH.
Qed.
Lemma batches_bound b k : ∀ c st st',
  size_bytes b <= INT64_MAX → reads b c st.2.2 → batches k st = Some st' →
  (∀ j stj, (0 < j <= k)%nat → batches j st = Some stj → 0 <= body_size_bytes (decoder stj.2.2)) →
  ∃ c', reads b c' st'.2.2 ∧ c + 8 * Z.of_nat k <= c'.
Proof.
  induction k as [|k IH]; intros c [a [h r]] st' Hsmall Hr Hk Hbody.
  { injection Hk as <-. exists c. split; [done|lia]. }
  cbn [batches] in Hk.
  destruct (ArrowIpcArrayStreamReaderGetNext addr (a, (h, r))) as [[|x] st1|e st1|] eqn:Hn; try done.
  destruct Hr as (Hat & [p Hp] & s & Hs). pose proof Hat as [_ Hc].
  destruct (get_next_returns addr b c a h r p s x st1 Hsmall Hat Hp Hs Hn) as (H8 & Hin & Hle & Hsame & Hp1).
  assert (0 <= body_size_bytes (decoder st1.2.2)) as Hb1.
  { apply (Hbody 1%nat st1); [lia|]. cbn [batches]. by rewrite Hn. }
  destruct (IH (c + header_size_bytes (decoder st1.2.2) + body_size_bytes (decoder st1.2.2)) st1 st' Hsmall) as (c' & Hr' & Hc').
  - split; [split; [done|lia]|]. split; [done|]. exists s. destruct Hsame as (_ & -> & _). done.
  - done.
  - intros j stj Hj Hjs. apply (Hbody (S j) stj); [lia|]. cbn [batches]. by rewrite Hn.
  - exists c'. split; [done|lia].
Qed.
Lemma first_none n st : batches n st = None → ∃ k st', (k < n)%nat ∧ batches k st = Some st' ∧ batches (S k) st = None.
Proof.
  induction n as [|n IH]; intros Hn; [done|]. destruct (batches n st) as [st'|] eqn:Hs.
  - exists n, st'. split; [lia|done].
  - destruct (IH eq_refl) as (k & st' & Hk & ? & ?). exists k, st'. split; [lia|done].
Qed.
End calls.

(** C38.  A call that gives an array, on a reader whose schema was read before, has read
    exactly one message (the first call reads that of the schema too): the input moved
    by the size of its header and of its body, as the decoder has them, and not
    past the end; the header is at least its prefix of 8 bytes. *)
Theorem get_next_consumes (libc : Libc) (malloc : Malloc) (addr : Z) (b : ArrowBuffer) (c : Z) (a : mstate)
    (h : shared_heap) (r : reader) (x : array) (st : mstate * (shared_heap * reader))
    (Hsmall : size_bytes b <= INT64_MAX) (Hr : reads b c r)
    (Hrun : ArrowIpcArrayStreamReaderGetNext addr (a, (h, r)) = Ok (ArrayLive x) st) :
  8 <= header_size_bytes (decoder st.2.2) ∧
  input st.2.2 = InputBuffer b (c + header_size_bytes (decoder st.2.2) + body_size_bytes (decoder st.2.2)) ∧
  c + header_size_bytes (decoder st.2.2) + body_size_bytes (decoder st.2.2) <= size_bytes b.
Proof.
  destruct Hr as (Hat & [p Hp] & s & Hs).
  by destruct (get_next_returns addr b c a h r p s x st Hsmall Hat Hp Hs Hrun) as (? & ? & ? & _).
Qed.

(** A stream of one batch with two rows. *)
Definition two_rows : list Z := batch_message 2 8 8 ++ [1; 0; 0; 0; 2; 0; 0; 0].
Definition end_of_stream : list Z := [255; 255; 255; 255; 0; 0; 0; 0].
Definition stream_buffer (l : list Z) : ArrowBuffer := MkBuffer (Some l) (zlen l) (zlen l) ArrowBufferAllocatorDefault.
(** The view and the array of a struct of one 32-bit integer. *)
Definition example_leaf : ArrowArrayView := set_view_children 0 (Some []) (ArrowArrayViewInitFromType NANOARROW_TYPE_INT32).
Definition example_root : ArrowArrayView :=
  set_view_children 1 (Some [Some example_leaf]) (ArrowArrayViewInitFromType NANOARROW_TYPE_STRUCT).
Definition example_array (nb n : Z) (ch : option (list (option ArrowArray))) : ArrowArray :=
  ArrayLive (put_n_buffers nb (put_children n ch (put_private (Some private_init) array_init))).
(** A reader of these bytes, after the schema was read. *)
Definition stream_reader (l : list Z) : reader :=
  MkReader (InputBuffer (stream_buffer l) 0)
    (set_private (MkDecoderPrivate NANOARROW_IPC_ENDIANNESS_LITTLE NANOARROW_IPC_ENDIANNESS_LITTLE example_root
       (example_array 1 1 (Some [Some (example_array 2 0 None)])) 2
       (FieldsAt (fields_of 0 (nodes_of [] example_root))) 3 None) decoder_zero)
    false (SchemaLive (MkMembers None None None 0 0 None None)) (-1) ArrowBufferInit ArrowBufferInit.
(** Allocations that always succeed. *)
Definition malloc_always : Malloc := {| mstate := unit; malloc_step _ s := (true, s) |}.
#[local] Abbreviation next limit := (@ArrowIpcArrayStreamReaderGetNext (libc_limited limit) malloc_always 0).
#[local] Abbreviation start l := (tt : @mstate malloc_always, (MkHeap ∅ [], stream_reader l)).
Lemma stream_reader_reads l : reads (stream_buffer l) 0 (stream_reader l).
Proof. pose proof (zlen_nonneg l). split; [by split; [|cbn; lia]|]. split; [by eexists|by eexists]. Qed.

(** The sizes of the message after a call that gave an array. *)
Definition message_sizes (o : outcome (@mstate malloc_always * (shared_heap * reader)) ArrowArray) : option (Z * Z) :=
  match o with
  | Ok (ArrayLive _) st => Some (header_size_bytes (decoder st.2.2), body_size_bytes (decoder st.2.2))
  | _ => None
  end.
Lemma get_next_consumes_witness :
  ∃ x st, next 1000 (start (two_rows ++ end_of_stream)) = Ok (ArrayLive x) st ∧
    input st.2.2 = InputBuffer (stream_buffer (two_rows ++ end_of_stream)) 144.
Proof.
  assert (message_sizes (next 1000 (start (two_rows ++ end_of_stream))) = Some (136, 8)) as Hsizes
    by (vm_compute; reflexivity).
  destruct (next 1000 (start (two_rows ++ end_of_stream))) as [[|x] st|e st|] eqn:Hx; try discriminate Hsizes.
  exists x, st. split; [reflexivity|]. cbn [message_sizes] in Hsizes. injection Hsizes as Hh Hb.
  destruct (get_next_consumes (libc_limited 1000) malloc_always 0 (stream_buffer (two_rows ++ end_of_stream)) 0 tt
    (MkHeap ∅ []) (stream_reader (two_rows ++ end_of_stream)) x st
    ltac:(apply Z.leb_le; vm_compute; reflexivity)
    (stream_reader_reads _) Hx) as (_ & Hin & _).
  refine (eq_trans Hin (f_equal (InputBuffer _) _)). exact (f_equal2 (λ x y, 0 + x + y) Hh Hb).
Defined.

(** C39.  A stream ends: if no message it gives has a negative body length, a reader
    whose schema was read gives at most one array for every 8 bytes that are left, and after some number
    of arrays the next call does not give another (the end, or an error). *)
Theorem stream_ends (libc : Libc) (malloc : Malloc) (addr : Z) (b : ArrowBuffer) (c : Z)
    (st : mstate * (shared_heap * reader)) (Hsmall : size_bytes b <= INT64_MAX) (Hr : reads b c st.2.2)
    (Hbody : ∀ j stj, (0 < j)%nat → batches addr j st = Some stj → 0 <= body_size_bytes (decoder stj.2.2)) :
  (∀ k st', batches addr k st = Some st' → 8 * Z.of_nat k <= size_bytes b - c) ∧
  ∃ k st', 8 * Z.of_nat k <= size_bytes b - c ∧ batches addr k st = Some st' ∧ batches addr (S k) st = None.
Proof.
  assert (∀ k st', batches addr k st = Some st' → 8 * Z.of_nat k <= size_bytes b - c) as Hbound.
  { intros k st' Hk. destruct (batches_bound addr b k c st st' Hsmall Hr Hk) as (c' & ((_ & Hc') & _) & Hle); [|lia].
    intros j stj [Hj _]. by apply Hbody. }
  split; [done|]. pose proof Hr as ((_ & Hc) & _).
  destruct (batches addr (S (Z.to_nat (size_bytes b - c))) st) as [st'|] eqn:Hn.
  { apply Hbound in Hn. lia. }
  destruct (first_none addr _ st Hn) as (k & st' & _ & Hk & Hend). exists k, st'. split; [by apply (Hbound k st')|done].
Qed.
Lemma stream_ends_witness :
  ∃ k st', @batches (libc_limited 1000) malloc_always 0 k (start (two_rows ++ end_of_stream)) = Some st' ∧
    @batches (libc_limited 1000) malloc_always 0 (S k) (start (two_rows ++ end_of_stream)) = None.
Proof.
  assert (∀ j stj, (0 < j)%nat →
    @batches (libc_limited 1000) malloc_always 0 j (start (two_rows ++ end_of_stream)) = Some stj →
    0 <= body_size_bytes (decoder stj.2.2)) as Hbody.
  { assert (@batches (libc_limited 1000) malloc_always 0 2 (start (two_rows ++ end_of_stream)) = None) as H2
      by (vm_compute; reflexivity).
    assert (match @batches (libc_limited 1000) malloc_always 0 1 (start (two_rows ++ end_of_stream)) with
            | Some stj => 0 <=? body_size_bytes (decoder stj.2.2) | None => true end = true) as H1 by (vm_compute; reflexivity).
    intros [|[|j]] stj Hj Hs; [lia| |].
    - rewrite Hs in H1. by apply Z.leb_le.
    - exfalso. clear H1 Hj. revert stj Hs. induction j as [|j IH]; intros stj Hs; [by rewrite H2 in Hs|].
      destruct (@batches (libc_limited 1000) malloc_always 0 (S (S j)) (start (two_rows ++ end_of_stream))) as [sj|] eqn:Hj;
        [by apply (IH sj)|]. apply batches_none in Hj. by rewrite Hj in Hs. }
  destruct (stream_ends (libc_limited 1000) malloc_always 0 (stream_buffer (two_rows ++ end_of_stream)) 0
    (start (two_rows ++ end_of_stream)) ltac:(apply Z.leb_le; vm_compute; reflexivity) (stream_reader_reads _) Hbody)
    as (_ & k & st' & _ & Hk & Hend).
  exists k, st'. split; [exact Hk|exact Hend].
Defined.

(** ** Streams that do not end *)
(** A message without rows that says its body has -136 bytes. *)
Definition rewinding : list Z := batch_message 0 (-136) 0.
Lemma rewinding_cycle :
  ∃ x y st, next 1000 (start rewinding) = Ok (ArrayLive x) st ∧ next 1000 st = Ok (ArrayLive y) st.
Proof. eexists _, _, _. split; [vm_compute; reflexivity|vm_compute; reflexivity]. Qed.
(** A body length is not checked to be positive: a message of 136 bytes whose
    body length is -136 moves the input back to its own start, so that these 136
    bytes are a stream that gives an array at every call and never ends. *)
Theorem stream_never_ends (k : nat) :
  is_Some (@batches (libc_limited 1000) malloc_always 0 k (start rewinding)).
Proof.
  destruct rewinding_cycle as (x & y & st & Hfirst & Hcycle).
  assert (∀ j, is_Some (@batches (libc_limited 1000) malloc_always 0 j st)) as Hj.
  { induction j as [|j IH]; [by eexists|]. cbn [batches]. by rewrite Hcycle. }
  destruct k as [|k]; [by eexists|]. cbn [batches]. by rewrite Hfirst.
Qed.

(** ** Batches that are lost *)
(** A reader whose own buffers have room for the message. *)
Definition warm (l : list Z) : reader :=
  let room := MkBuffer (Some (replicate 200 0)) 0 200 ArrowBufferAllocatorDefault in
  put_header room (put_body room (stream_reader l)).
(** A lack of memory looks like the end of the stream: when there is no memory
    for the buffers of an array, the call succeeds and gives a released array,
    which is how the end is reported, and the batch has been consumed; with enough
    memory the same call gives the array. *)
Theorem no_memory_is_end :
  let run limit := @ArrowIpcArrayStreamReaderGetNext (libc_limited limit) malloc_always 0
    (tt, (MkHeap ∅ [], warm (two_rows ++ end_of_stream))) in
  (∃ st, run 4 = Ok ArrayReleased st ∧ input st.2.2 = InputBuffer (stream_buffer (two_rows ++ end_of_stream)) 144) ∧
  ∃ x st, run 1000 = Ok (ArrayLive x) st ∧ array_length x = 2.
Proof.
  split.
  - eexists. split; [vm_compute; reflexivity|vm_compute; reflexivity].
  - eexists _, _. split; [vm_compute; reflexivity|reflexivity].
Qed.
