(* ===== verification/Loader.v ===== *)
(** * Reading the batches of a chunk (CArrowIterator.cpp)

    The constructor of the iterators: the bytes of a chunk are copied into a
    buffer, an IPC stream reader is made on it, and its schema and all its
    batches are read, each with a view of it.  The file composes the buffers, the
    stream reader, the array views and the iterators over tables and rows. *)

From stdpp Require Import base numbers list option strings gmap.
From S2P Require Import Prelude CInt CString Buffer Bitmap Types Metadata Schema SchemaView ArrayView Array Stream.
From S2P Require Import IpcShared IpcDecoder IpcBody IpcFields IpcBatch IpcSession IpcStream IpcReader.
From S2P Require Import Cpp.
#[local] Open Scope Z_scope.
#[local] Open Scope cpp_scope.

Section loader.
Context `{!Libc} `{!Malloc}.
Variable addr : Z.

(** The members of the iterator, and the local stream. *)
Record loader := MkLoader {
  load_mem : mstate;
  load_heap : shared_heap;
  load_stream : option reader;
  load_schema : ArrowSchema;
  load_arrays : list ArrowArray;
  load_views : list ArrowArrayView;
}.
Definition put_stream (a : mstate) (h : shared_heap) (s : option reader) (l : loader) : loader :=
  MkLoader a h s (load_schema l) (load_arrays l) (load_views l).
Definition put_array (x : ArrowArray) (l : loader) : loader :=
  MkLoader (load_mem l) (load_heap l) (load_stream l) (load_schema l) (load_arrays l ++ [x]) (load_views l).
Definition put_view (a : mstate) (v : ArrowArrayView) (l : loader) : loader :=
  MkLoader a (load_heap l) (load_stream l) (load_schema l) (load_arrays l) (load_views l ++ [v]).

(** [stream.release(&stream)] *)
Definition release_stream : CM loader unit := λ l,
  match ArrowIpcArrayStreamReaderRelease (load_heap l, load_stream l) with
  | Ok _ (h, s) => Done tt (put_stream (load_mem l) h s l)
  | _ => Undefined
  end.
(** [SF_CHECK_ARROW_RC_AND_RELEASE_ARROW_STREAM] with an error code *)
Definition fail_with (e : errno) {A} : CM loader A := release_stream ;;! creturn (ArrowRC e).

(** Up to the reader; when the reader could not be made its error text is asked
    of a stream that was never written. *)
Definition open_stream (arrow_bytes : list Z) : CM loader unit := λ l,
  match ArrowBufferAppend (Some arrow_bytes) (zlen arrow_bytes) ArrowBufferInit with
  | UB => Undefined
  | Err e _ => Return (ArrowRC e) l
  | Ok _ input_buffer =>
      match ArrowIpcInputStreamInitBuffer (load_mem l, (InputReleased, input_buffer)) with
      | UB => Undefined
      | Err e (a, _) => Return (ArrowRC e) (put_stream a (load_heap l) None l)
      | Ok _ (a, (input, _)) =>
          match ArrowIpcArrayStreamReaderInit None (a, (None, input)) with
          | Ok _ (a', (s, _)) => Done tt (put_stream a' (load_heap l) s l)
          | _ => Undefined
          end
      end
  end.
Definition read_schema : CM loader unit := λ l,
  match load_stream l with
  | None => Undefined
  | Some r =>
      match ArrowIpcArrayStreamReaderGetSchema addr (load_mem l, (r, load_schema l)) with
      | UB => Undefined
      | Err e (a, (r', s)) =>
          fail_with e (MkLoader a (load_heap l) (Some r') s (load_arrays l) (load_views l))
      | Ok _ (a, (r', s)) => Done tt (MkLoader a (load_heap l) (Some r') s (load_arrays l) (load_views l))
      end
  end.
(** The view of a batch.  The array was moved into the vector before; its members are
    still those of the local variable. *)
Definition view_batch (x : ArrowArray) : CM loader unit := λ l,
  match ArrowArrayViewInitFromSchema (load_schema l) (load_mem l, ArrowArrayViewInitFromType NANOARROW_TYPE_UNINITIALIZED) with
  | UB => Undefined
  | Err e (a, _) => fail_with e (put_stream a (load_heap l) (load_stream l) l)
  | Ok _ (a, v) =>
      match ArrowArrayViewSetArray v x with
      | UB => Undefined
      | Err e _ => fail_with e (put_stream a (load_heap l) (load_stream l) l)
      | Ok _ v' => Done tt (put_view a v' l)
      end
  end.
(** One turn of the loop: whether it goes on. *)
Definition load_step : CM loader bool := λ l,
  match load_stream l with
  | None => Undefined
  | Some r =>
      match ArrowIpcArrayStreamReaderGetNext addr (load_mem l, (load_heap l, r)) with
      | UB => Undefined
      | Err e (a, (h, r')) => fail_with e (put_stream a h (Some r') l)
      | Ok x (a, (h, r')) =>
          match x with
          | ArrayReleased => Done false (put_stream a h (Some r') l)
          | ArrayLive _ =>
              (cmod (put_array x) ;;! view_batch x ;;! cret true) (put_stream a h (Some r') l)
          end
      end
  end.
(** The loop, [None] when [fuel] turns are not enough. *)
Fixpoint load_loop (fuel : nat) (l : loader) : option (cpp loader unit) :=
  match fuel with
  | O => None
  | S fuel' =>
      match load_step l with
      | Done true l' => load_loop fuel' l'
      | Done false l' => Some (Done tt l')
      | Return p l' => Some (Return p l')
      | Throw x l' => Some (Throw x l')
      | Undefined => Some Undefined
      end
  end.
Definition CArrowIterator (fuel : nat) (arrow_bytes : list Z) (a : mstate) (h : shared_heap) :
    option (cpp loader unit) :=
  match (open_stream arrow_bytes ;;! read_schema) (MkLoader a h None SchemaReleased [] []) with
  | Done _ l =>
      match load_loop fuel l with
      | Some (Done _ l') => Some (release_stream l')
      | r => r
      end
  | r => Some r
  end.

(** ** The loop ends *)

(** [k] turns that all went on. *)
Fixpoint load_steps (k : nat) (l : loader) : option loader :=
  match k with
  | O => Some l
  | S k' => match load_step l with Done true l' => load_steps k' l' | _ => None end
  end.
Definition body_of (l : loader) : option Z := body_size_bytes ∘ decoder <$> load_stream l.
(** Every message read so far has a body of no negative length. *)
Definition bodies_ok (l : loader) : Prop :=
  ∀ k l' n, (0 < k)%nat → load_steps k l = Some l' → body_of l' = Some n → 0 <= n.

(** The view was set to the array and passed the default validation. *)
Definition views (x : ArrowArray) (v : ArrowArrayView) : Prop := ∃ v0, ArrowArrayViewSetArray v0 x = Ok tt v.

Lemma view_batch_done x l u l' :
  view_batch x l = Done u l' →
  load_stream l' = load_stream l ∧ load_arrays l' = load_arrays l ∧ ∃ v, load_views l' = load_views l ++ [v] ∧ views x v.
Proof.
  unfold view_batch, fail_with, cbind. destruct (ArrowArrayViewInitFromSchema _ _) as [? [a v]|e [a v]|]; [| |done].
  - destruct (ArrowArrayViewSetArray v x) as [[] v'|e v'|] eqn:Hset; [| |done].
    + intros [= _ <-]. split_and!; [done|done|]. exists v'. split; [done|]. by exists v.
    + by destruct (release_stream _).
  - by destruct (release_stream _).
Qed.
Lemma load_step_true l l' :
  load_step l = Done true l' →
  ∃ r a h x r', load_stream l = Some r ∧
    ArrowIpcArrayStreamReaderGetNext addr (load_mem l, (load_heap l, r)) = Ok (ArrayLive x) (a, (h, r')) ∧
    load_stream l' = Some r' ∧ load_arrays l' = load_arrays l ++ [ArrayLive x] ∧
    ∃ v, load_views l' = load_views l ++ [v] ∧ views (ArrayLive x) v.
Proof.
  unfold load_step, fail_with. destruct (load_stream l) as [r|] eqn:Hr; [|done].
  destruct (ArrowIpcArrayStreamReaderGetNext _ _) as [x [a [h r']]|e [a [h r']]|] eqn:Hn; [| |done].
  2:{ unfold cbind. by destruct (release_stream _). }
  destruct x as [|x]; [done|]. unfold cbind at 1, cmod. unfold cbind.
  destruct (view_batch _ _) as [u l1| | |] eqn:Hv; [|done..]. intros [= <-].
  apply view_batch_done in Hv as (Hs & Ha & v & Hv & Hset). exists r, a, h, x, r'. cbn in *. rewrite Hs, Ha, Hv. eauto 8.
Qed.
Lemma load_steps_bound b k : ∀ c l l' r,
  size_bytes b <= INT64_MAX → reads b c r → load_stream l = Some r → bodies_ok l → load_steps k l = Some l' →
  c + 8 * Z.of_nat k <= size_bytes b.
Proof.
  induction k as [|k IH]; intros c l l' r Hsmall Hr Hs Hbody Hk; [destruct Hr as [[_ Hc] _]; lia|].
  cbn [load_steps] in Hk. destruct (load_step l) as [[|] l1| | |] eqn:Hstep; try done.
  destruct (load_step_true _ _ Hstep) as (r0 & a & h & x & r1 & Hr0 & Hn & Hs1 & _).
  rewrite Hs in Hr0. injection Hr0 as <-. destruct Hr as (Hat & [p Hp] & s & Hout). pose proof Hat as [_ Hc].
  destruct (get_next_returns addr b c _ _ r p s x _ Hsmall Hat Hp Hout Hn) as (H8 & Hin & Hle & Hsame & Hp1). cbn [snd] in *.
  assert (0 <= body_size_bytes (decoder r1)) as Hb1.
  { apply (Hbody 1%nat l1); [lia|cbn [load_steps]; by rewrite Hstep|unfold body_of; by rewrite Hs1]. }
  assert (c + header_size_bytes (decoder r1) + body_size_bytes (decoder r1) + 8 * Z.of_nat k <= size_bytes b); [|lia].
  apply (IH _ l1 l' r1); [done| |done| |done].
  - split; [split; [done|lia]|]. split; [done|]. exists s. destruct Hsame as (_ & -> & _). done.
  - intros j lj n Hj Hlj. apply (Hbody (S j) lj n); [lia|]. cbn [load_steps]. by rewrite Hstep.
Qed.
Lemma load_loop_none k l : load_loop k l = None → is_Some (load_steps k l).
Proof.
  revert l. induction k as [|k IH]; intros l; [by eexists|]. cbn [load_loop load_steps].
  destruct (load_step l) as [[|] l1| | |]; try done. apply IH.
Qed.
Lemma load_loop_views k l l' u :
  Forall2 views (load_arrays l) (load_views l) → load_loop k l = Some (Done u l') →
  Forall2 views (load_arrays l') (load_views l').
Proof.
  revert l. induction k as [|k IH]; intros l Hl; [done|]. cbn [load_loop].
  destruct (load_step l) as [[|] l1| | |] eqn:Hstep; try done.
  - destruct (load_step_true _ _ Hstep) as (_ & _ & _ & x & _ & _ & _ & _ & Ha & v & Hv & Hset).
    apply IH. rewrite Ha, Hv. apply Forall2_app; [done|]. by repeat constructor.
  - intros [= _ <-]. revert Hstep. unfold load_step, fail_with. destruct (load_stream l) as [r|]; [|done].
    destruct (ArrowIpcArrayStreamReaderGetNext _ _) as [x [a [h r']]|e [a [h r']]|]; [| |done].
    + destruct x as [|x]; [by intros [= <-]|]. unfold cbind at 1, cmod. unfold cbind. by destruct (view_batch _ _).
    + unfold cbind. by destruct (release_stream _).
Qed.
Lemma load_loop_more k j l res : load_loop k l = Some res → load_loop (k + j) l = Some res.
Proof.
  revert l. induction k as [|k IH]; intros l; [done|]. cbn [load_loop Nat.add].
  destruct (load_step l) as [[|] l1| | |]; try done. apply IH.
Qed.
Lemma load_loop_ends b c l r :
  size_bytes b <= INT64_MAX → reads b c r → load_stream l = Some r → bodies_ok l →
  is_Some (load_loop (S (Z.to_nat ((size_bytes b - c) / 8))) l).
Proof.
  intros Hsmall Hr Hs Hbody. set (n := S _). destruct (load_loop n l) as [res|] eqn:Hloop; [done|].
  destruct (load_loop_none n l Hloop) as [l' Hk].
  pose proof (load_steps_bound b n c l l' r Hsmall Hr Hs Hbody Hk) as Hbound.
  destruct Hr as [[_ Hc] _]. unfold n in Hbound.
  pose proof (Z.div_pos (size_bytes b - c) 8 ltac:(lia) ltac:(lia)).
  pose proof (Z.mul_succ_div_gt (size_bytes b - c) 8 ltac:(lia)). lia.
Qed.

(** ** Up to the loop *)
Lemma returns_after {S A B} (m : M S A) (k : A → M S B) s Q :
  (∀ x s', returns (k x) s' Q) → returns (mbind_ m k) s Q.
Proof. intros Hk. apply returns_bind. intros x s' _. apply Hk. Qed.
Lemma set_schema_private schema st :
  returns (ArrowIpcDecoderSetSchema schema) st (λ _ st', is_Some (decoder_private st'.2)).
Proof.
  unfold ArrowIpcDecoderSetSchema. do 3 (apply returns_after; intros ? ?). cbv zeta.
  do 11 (apply returns_after; intros ? ?). apply returns_if; intros _.
  - apply returns_after. intros _ [a d]. destruct (ArrowIpcDecoderInitFields _ _ _ _) as [[] [[mem' ?] n]| |]; [|done..].
    apply returns_mod. by eexists.
  - apply returns_after. intros. apply returns_fail.
Qed.
Lemma read_schema_returns b c a r p :
  size_bytes b <= INT64_MAX → at_cursor b c r → decoder_private (decoder r) = Some p → out_schema r = SchemaReleased →
  returns (ArrowIpcArrayStreamReaderReadSchemaIfNeeded addr) (a, r) (λ _ st,
    ∃ c', 0 <= c' ∧ at_cursor b c' st.2 ∧ is_Some (decoder_private (decoder st.2))).
Proof.
  intros Hsmall Hat Hp Hs. unfold ArrowIpcArrayStreamReaderReadSchemaIfNeeded. apply returns_bind, returns_get. rewrite Hs.
  apply returns_bind, returns_zoom. cbn [snd fst].
  eapply returns_mono; [by eapply (next_header_returns addr b Hsmall _ c r p)|].
  intros [] r1 (_ & Hat1 & _ & _ & q & Hp1). apply returns_bind, returns_get.
  do 3 (apply returns_bind, returns_check; intros _). cbn [snd fst].
  apply returns_bind, returns_zoom, returns_zoom. cbn [snd fst].
  apply (returns_mono _ _ (λ _ _, True)); [done|]. intros [] d2 _. cbn [snd fst].
  apply returns_bind. intros tmp [a2 r2] Hdecode.
  assert (r2 = put_decoder d2 r1) as ->.
  { unfold decode_schema_tmp in Hdecode. destruct (ArrowIpcDecoderDecodeSchema _ _) as [? [? ?]|? [? ?]|]; [|done..].
    by injection Hdecode as _ _ <-. }
  apply returns_bind, returns_get, returns_bind, returns_check. intros _.
  apply returns_bind, returns_zoom. eapply returns_mono; [apply set_schema_private|].
  intros [] [a3 d3] Hd3. apply returns_mod. exists (c + header_size_bytes (decoder r1)).
  pose proof Hat1 as [_ ?]. split; [lia|]. split; [exact Hat1|exact Hd3].
Qed.

(** The reader of a chunk before its schema is read. *)
Lemma open_stream_done bytes l u l' :
  bytes_ok bytes → zlen bytes <= INT64_MAX → open_stream bytes l = Done u l' →
  ∃ b r p, size_bytes b = zlen bytes ∧ load_stream l' = Some r ∧ at_cursor b 0 r ∧
    decoder_private (decoder r) = Some p ∧ out_schema r = SchemaReleased ∧
    load_arrays l' = load_arrays l ∧ load_views l' = load_views l.
Proof.
  intros Hbytes Hsize. unfold open_stream.
  pose proof (append_bytes_wp ArrowBufferInit bytes buffer_wf_init ltac:(split; [done|cbn [ArrowBufferInit size_bytes]; lia]) Hbytes) as Happend.
  unfold wp in Happend. destruct (ArrowBufferAppend _ _ _) as [[] b|e b|]; [|done..].
  destruct Happend as (_ & _ & Hb & _). cbn [ArrowBufferInit size_bytes] in Hb. rewrite Z.add_0_l in Hb.
  unfold ArrowIpcInputStreamInitBuffer, mbind_, ArrowMalloc, get, mget, modify, mmod, mret_.
  destruct (malloc_step _ (load_mem l)) as [[|] a1]; [|done]. cbn [snd ArrowBufferMove].
  unfold ArrowIpcArrayStreamReaderInit. destruct (malloc_step _ a1) as [[|] a2]; [|done].
  unfold ArrowIpcDecoderInit, mbind_, ArrowMalloc, modify, mmod.
  destruct (malloc_step _ a2) as [[|] a3]; [|done]. intros [= _ <-].
  do 3 eexists. split; [exact Hb|]. split; [done|]. split; [split; [done|rewrite Hb; pose proof (zlen_nonneg bytes); lia]|]. done.
Qed.
(** After the schema was read. *)
Lemma read_schema_done b l r p u l' :
  size_bytes b <= INT64_MAX → load_stream l = Some r → at_cursor b 0 r → decoder_private (decoder r) = Some p →
  out_schema r = SchemaReleased → read_schema l = Done u l' →
  ∃ c r', load_stream l' = Some r' ∧ reads b c r' ∧ load_arrays l' = load_arrays l ∧ load_views l' = load_views l.
Proof.
  intros Hsmall Hr Hat Hp Hs. unfold read_schema. rewrite Hr. unfold ArrowIpcArrayStreamReaderGetSchema.
  pose proof (read_schema_returns b 0 (load_mem l) r p Hsmall Hat Hp Hs) as Hread.
  destruct (ArrowIpcArrayStreamReaderReadSchemaIfNeeded addr _) as [[] [a1 r1]|e [a1 r1]|] eqn:Hrun;
    [|unfold fail_with, cbind; by destruct (release_stream _)|done].
  destruct (Hread _ _ Hrun) as (c & Hc & Hat1 & Hd1). cbn [snd] in *.
  destruct (ArrowSchemaDeepCopy _ _) as [[] [a2 out]|e [a2 out]|] eqn:Hcopy;
    [|unfold fail_with, cbind; by destruct (release_stream _)|done].
  intros [= _ <-]. exists c, r1. split; [done|]. split; [|done]. split; [done|]. split; [done|].
  destruct (out_schema r1) as [|s1]; [done|by eexists].
Qed.
Lemma release_stream_done l u l' :
  release_stream l = Done u l' →
  load_arrays l' = load_arrays l ∧ load_views l' = load_views l ∧ load_stream l' = None.
Proof.
  unfold release_stream, ArrowIpcArrayStreamReaderRelease. destruct (load_stream l); [|done].
  destruct (match input _ with InputReleased => _ | _ => _ end) as [? [? ?]| |]; [|done..].
  destruct (ArrowIpcDecoderReset _); [|done..]. destruct ((_ ;;; _)%c _); [|done..]. by intros [= _ <-].
Qed.
(** The iterator before its constructor runs. *)
Definition fresh_loader (a : mstate) (h : shared_heap) : loader := MkLoader a h None SchemaReleased [] [].
Lemma opened_done bytes a h u l :
  bytes_ok bytes → zlen bytes <= INT64_MAX → (open_stream bytes ;;! read_schema) (fresh_loader a h) = Done u l →
  ∃ b c r, size_bytes b = zlen bytes ∧ load_stream l = Some r ∧ reads b c r ∧ load_arrays l = [] ∧ load_views l = [].
Proof.
  intros Hbytes Hsize. unfold cbind. destruct (open_stream bytes _) as [[] l1| | |] eqn:Hopen; [|done..].
  destruct (open_stream_done _ _ _ _ Hbytes Hsize Hopen) as (b & r & p & Hb & Hr & Hat & Hp & Hs & Ha & Hv).
  intros Hread. destruct (read_schema_done b l1 r p u l ltac:(lia) Hr Hat Hp Hs Hread) as (c & r' & Hr' & Hreads & Ha' & Hv').
  exists b, c, r'. rewrite Ha', Hv', Ha, Hv. done.
Qed.
End loader.

(** C37.  The constructor returns: on any bytes of a chunk in which no message has a
    body of negative length, as many turns of the loop as the chunk has words of 8
    bytes, and one more, are enough.  When it ends without an error the stream is
    released, and every array that was read has a view of it, in the same order,
    that passed the default validation. *)
Theorem load_terminates (libc : Libc) (malloc : Malloc) (addr : Z) (fuel : nat) (bytes : list Z) (a : mstate)
    (h : shared_heap) (Hbytes : bytes_ok bytes) (Hsize : zlen bytes <= INT64_MAX)
    (Hbody : ∀ l, (open_stream bytes ;;! read_schema addr) (fresh_loader a h) = Done tt l → bodies_ok addr l)
    (Hfuel : zlen bytes / 8 < Z.of_nat fuel) :
  ∃ res, CArrowIterator addr fuel bytes a h = Some res ∧
    ∀ u l, res = Done u l → load_stream l = None ∧ Forall2 views (load_arrays l) (load_views l).
Proof.
  unfold CArrowIterator. fold (fresh_loader a h).
  destruct ((open_stream bytes ;;! read_schema addr) (fresh_loader a h)) as [[] l|p l|x l|] eqn:Hopen;
    [|by eexists..].
  destruct (opened_done addr bytes a h tt l Hbytes Hsize Hopen) as (b & c & r & Hb & Hr & Hreads & Ha & Hv).
  destruct (load_loop_ends addr b c l r ltac:(lia) Hreads Hr (Hbody l eq_refl)) as [res Hres].
  set (n := S _) in Hres. assert (n <= fuel)%nat as Hn.
  { destruct Hreads as [[_ Hc] _]. pose proof (Z.div_le_mono (size_bytes b - c) (size_bytes b) 8 ltac:(lia) ltac:(lia)).
    pose proof (Z.div_pos (size_bytes b - c) 8 ltac:(lia) ltac:(lia)). unfold n. rewrite Hb in *. lia. }
  replace fuel with (n + (fuel - n))%nat by lia. rewrite (load_loop_more addr n (fuel - n) l res Hres).
  destruct res as [[] l1|p l1|x l1|]; [|by eexists..]. eexists. split; [done|].
  intros u l2 Hl2. apply release_stream_done in Hl2 as (Ha2 & Hv2 & Hs2). split; [done|]. rewrite Ha2, Hv2.
  eapply load_loop_views; [|exact Hres]. rewrite Ha, Hv. constructor.
Qed.

(** The header with a schema of one column [N] of type NUMBER(9, 0), and a chunk of
    one batch of two rows. *)
Definition number_schema : list Z :=
  [255; 255; 255; 255; 32; 1; 0; 0; 16; 0; 0; 0; 12; 0; 24; 0; 20; 0; 22; 0; 16; 0; 8; 0; 12; 0; 0; 0; 0; 0; 0; 0; 0; 0; 0; 0;
   0; 0; 0; 0; 16; 0; 0; 0; 4; 0; 1; 0; 8; 0; 8; 0; 0; 0; 4; 0; 8; 0; 0; 0; 4; 0; 0; 0; 1; 0; 0; 0; 24; 0; 0; 0; 0; 0; 18; 0;
   24; 0; 4; 0; 20; 0; 21; 0; 8; 0; 0; 0; 12; 0; 16; 0; 18; 0; 0; 0; 20; 0; 0; 0; 32; 0; 0; 0; 40; 0; 0; 0; 40; 0; 0; 0; 1; 2;
   0; 0; 1; 0; 0; 0; 78; 0; 0; 0; 8; 0; 12; 0; 4; 0; 8; 0; 8; 0; 0; 0; 32; 0; 0; 0; 1; 0; 0; 0; 0; 0; 0; 0; 3; 0; 0; 0; 20; 0;
   0; 0; 64; 0; 0; 0; 100; 0; 0; 0; 8; 0; 12; 0; 4; 0; 8; 0; 8; 0; 0; 0; 8; 0; 0; 0; 20; 0; 0; 0; 11; 0; 0; 0; 108; 111; 103;
   105; 99; 97; 108; 84; 121; 112; 101; 0; 5; 0; 0; 0; 70; 73; 88; 69; 68; 0; 0; 0; 8; 0; 12; 0; 4; 0; 8; 0; 8; 0; 0; 0; 8; 0;
   0; 0; 16; 0; 0; 0; 5; 0; 0; 0; 115; 99; 97; 108; 101; 0; 0; 0; 1; 0; 0; 0; 48; 0; 0; 0; 8; 0; 12; 0; 4; 0; 8; 0; 8; 0; 0; 0;
   8; 0; 0; 0; 20; 0; 0; 0; 9; 0; 0; 0; 112; 114; 101; 99; 105; 115; 105; 111; 110; 0; 0; 0; 1; 0; 0; 0; 57; 0; 0; 0].
Definition chunk : list Z := number_schema ++ two_rows ++ end_of_stream.
#[local] Abbreviation libc := (libc_limited 1000).
#[local] Abbreviation no_blocks := (MkHeap ∅ []).
(** The first turn reads a body of 8 bytes, the second is the last. *)
Lemma chunk_steps l k l' n :
  (@open_stream libc malloc_always chunk ;;! @read_schema libc malloc_always 0) (@fresh_loader malloc_always tt no_blocks) = Done tt l →
  (0 < k)%nat → @load_steps libc malloc_always 0 k l = Some l' → @body_of malloc_always l' = Some n → 0 <= n.
Proof.
  assert (match (@open_stream libc malloc_always chunk ;;! @read_schema libc malloc_always 0) (@fresh_loader malloc_always tt no_blocks) with
    | Done _ l => (@body_of malloc_always <$> @load_steps libc malloc_always 0 1 l, @load_steps libc malloc_always 0 2 l)
    | _ => (None, None) end = (Some (Some 8), None)) as Hrun by (vm_compute; reflexivity).
  intros Hl Hk Hs Hn. rewrite Hl in Hrun.
  pose proof (f_equal fst Hrun) as H1. pose proof (f_equal snd Hrun) as H2. cbn [fst snd] in H1, H2. destruct k as [|[|k]]; [lia| |].
  - rewrite Hs in H1. injection H1 as H1. rewrite Hn in H1. injection H1 as ->. lia.
  - exfalso. cbn [load_steps] in H2, Hs. destruct (load_step _ l) as [[|] l1| | |]; try discriminate Hs.
    destruct (load_step _ l1) as [[|] l2| | |]; discriminate.
Qed.
Lemma load_terminates_witness :
  ∃ res, @CArrowIterator libc malloc_always 0 60 chunk tt no_blocks = Some res ∧
    ∀ u l, res = Done u l → @load_stream malloc_always l = None ∧ Forall2 views (load_arrays l) (load_views l).
Proof.
  apply (load_terminates libc malloc_always 0 60 chunk tt no_blocks).
  - apply (bool_decide_unpack _). vm_compute. exact I.
  - vm_compute. discriminate.
  - intros l Hl k l' n. apply chunk_steps. exact Hl.
  - vm_compute. reflexivity.
Defined.
Example chunk_loaded :
  match @CArrowIterator libc malloc_always 0 60 chunk tt no_blocks with
  | Some (Done _ l) => (List.length (load_arrays l), List.length (load_views l)) = (1%nat, 1%nat)
  | _ => False
  end.
Proof. vm_compute. reflexivity. Qed.
(** Without memory for the reader, the error text is asked of a stream that was
    never written. *)
Theorem reader_error_undefined :
  @CArrowIterator (libc_limited 1000) malloc_budget 0 20 end_of_stream 1%nat (MkHeap ∅ []) = Some Undefined.
Proof. vm_compute. reflexivity. Qed.
