(* ===== verification/Iterators.v ===== *)
(** * The iterators on a chunk (CArrowTableIterator.cpp, CArrowChunkIterator.cpp)

    The constructors of the derived classes on top of the loader, the status
    that Python asks for afterwards, and the whole way from the bytes of a chunk
    to rows and to a table. *)

From stdpp Require Import base numbers list option strings gmap.
From S2P Require Import Prelude CInt CString Float Buffer Bitmap Types Metadata Schema SchemaView ArrayView Array.
From S2P Require Import IpcShared IpcStream IpcReader Cpp Convert PyConverters ChunkIterator Loader.
#[local] Open Scope Z_scope.
#[local] Open Scope cpp_scope.

Section iterators.
Context `{!Libc} `{!Malloc}.
Variable addr : Z.

(** The constructor of the base class, and [make] when it left no Python error. *)
Definition after_loading {A} (fuel : nat) (arrow_bytes : list Z) (a : mstate) (h : shared_heap)
    (make : loader → cpp loader A) : option (cpp loader A) :=
  match CArrowIterator addr fuel arrow_bytes a h with
  | None => None
  | Some (Done _ l) => Some (make l)
  | Some (Return p l) => Some (Return p l)
  | Some (Throw x l) => Some (Throw x l)
  | Some Undefined => Some Undefined
  end.

(** [timezone] is the attribute [_timezone] of the context, [None] when it is missing or
    not a string: then Python's error is set and the member is not. *)
Definition CArrowTableIterator (fuel : nat) (arrow_bytes : list Z) (number_to_decimal force_microsecond_precision : bool)
    (timezone : option string) (a : mstate) (h : shared_heap) : option (cpp loader table_iterator) :=
  after_loading fuel arrow_bytes a h (λ l,
    Done (MkTable (load_mem l) (match timezone with Some _ => None | None => Some Raised end)
            (load_schema l) (load_arrays l) (load_views l) [] false
            (MkSettings timezone number_to_decimal force_microsecond_precision)) l).

(** With [dict] the class is [DictCArrowChunkIterator]. *)
Definition CArrowChunkIterator (fuel : nat) (arrow_bytes : list Z) (use_numpy check_error_on_every_column dict : bool)
    (a : mstate) (h : shared_heap) : option (cpp loader (ChunkIterator.source * ChunkIterator.state)) :=
  after_loading fuel arrow_bytes a h (λ l,
    (let! s := live_schema (load_schema l) in
     cret (ChunkIterator.MkSource s (load_arrays l) (load_views l) use_numpy
             (check_error_on_every_column && negb dict) dict, ChunkIterator.init)) l).

(** [checkInitializationStatus], with the indicator before and after. *)
Definition checkInitializationStatus (p : option py_error) : ChunkIterator.ReturnVal * option py_error :=
  match p with
  | Some e => (ChunkIterator.MkReturn None (Some e), None)
  | None => (ChunkIterator.MkReturn None None, None)
  end.
End iterators.

(** ** From bytes to rows and to a table *)

#[local] Abbreviation libc := (libc_limited 1000).
#[local] Abbreviation no_blocks := (MkHeap ∅ []).
#[local] Instance example_python : Python :=
  {| call _ _ := Some (PyOther 0); valid_utf8 _ := true; set_item d k v := Some (d ++ [(k, v)]) |}.
(** Two batches of two rows. *)
Definition two_batches : list Z := number_schema ++ two_rows ++ two_rows ++ end_of_stream.

(** What the calls of [next] return on a chunk. *)
Definition rows_of_chunk (bytes : list Z) (dict : bool) (n : nat) : option (list ChunkIterator.ReturnVal) :=
  match @CArrowChunkIterator libc malloc_always 0 60 bytes false false dict tt no_blocks with
  | Some (Done (c, t) _) =>
      match ChunkIterator.calls c n t with Done l _ => Some l | _ => None end
  | _ => None
  end.
Example chunk_to_rows :
  rows_of_chunk two_batches false 6 =
    Some [ChunkIterator.row (inr (PyTuple [Some (PyLong 1)])); ChunkIterator.row (inr (PyTuple [Some (PyLong 2)]));
          ChunkIterator.row (inr (PyTuple [Some (PyLong 1)])); ChunkIterator.row (inr (PyTuple [Some (PyLong 2)]));
          ChunkIterator.row (inr PyNone); ChunkIterator.row (inr PyNone)].
Proof. vm_compute. reflexivity. Qed.
Example chunk_to_dicts :
  rows_of_chunk chunk true 3 =
    Some [ChunkIterator.row (inr (PyDict [(PyUnicode (bytes_of_string "N"), PyLong 1)]));
          ChunkIterator.row (inr (PyDict [(PyUnicode (bytes_of_string "N"), PyLong 2)])); ChunkIterator.row (inr PyNone)].
Proof. vm_compute. reflexivity. Qed.
(** A table: one call converts, the next one has nothing to do; every batch has a
    schema of its own. *)
Example chunk_to_table :
  match @CArrowTableIterator libc malloc_always 0 60 two_batches false false (Some "UTC"%string) tt no_blocks with
  | Some (Done t _) =>
      match @Convert.next libc malloc_always t with
      | Done first t' => match @Convert.next libc malloc_always t' with
          | Done second t'' => (first, second, List.length (getArrowArrayPtrs t''), List.length (getArrowSchemaPtrs t'')) =
              (true, false, 2%nat, 2%nat)
          | _ => False end
      | _ => False
      end
  | _ => False
  end.
Proof. vm_compute. reflexivity. Qed.
