(* ===== verification/Device.v ===== *)
(** * Device arrays (nanoarrow_device.c)

    Arrays with the device their buffers are on.  A device is a record of
    callbacks; the build knows the CPU alone, and a caller may bring devices of
    its own.  The callbacks of a device get the type and the identifier of the
    two devices of a call.  Buffers on a device are lists of bytes as in main memory. *)

From stdpp Require Import base numbers list option.
From S2P Require Import Prelude CInt Buffer Bitmap Types Schema SchemaView ArrayView ArrayViewSafety Array Stream.
From S2P Require Import IpcDecoder IpcFields IpcSwap IpcBatch.
#[local] Open Scope Z_scope.
#[local] Open Scope c_scope.

(** ** Data *)
Definition ARROW_DEVICE_CPU : Z := 1.
(** [sync_event] tells whether the pointer is set. *)
Record ArrowDeviceArray : Set := MkDeviceArray {
  held_array : ArrowArray;
  array_device_id : Z;
  array_device_type : Z;
  sync_event : bool;
}.
Definition device_array_zero : ArrowDeviceArray := MkDeviceArray ArrayReleased 0 0 false.
(** The type and the identifier of a device. *)
Record device_name : Set := MkName { name_type : Z; name_id : Z }.
#[global] Instance device_name_eq_dec : EqDecision device_name.
Proof. solve_decision. Defined.

(** The callbacks: [array_init] has the device array and the array as state,
    [array_move] source and destination, [buffer_init] the destination,
    [buffer_move] source and destination, [buffer_copy] the memory of the destination,
    with the number of bytes to copy. *)
Record ArrowDevice : Type := MkDevice {
  device : device_name;
  array_init : option (M (ArrowDeviceArray * ArrowArray) unit);
  array_move : option (device_name → device_name → M (ArrowDeviceArray * ArrowDeviceArray) unit);
  buffer_init : device_name → ArrowView → device_name → M ArrowBuffer unit;
  buffer_move : device_name → device_name → M (ArrowBuffer * ArrowBuffer) unit;
  buffer_copy : device_name → ArrowView → device_name → Z → M (list Z) unit;
  synchronize_event : bool → M unit unit;
  releasable : bool;      (* [release] is set *)
}.
Record ArrowDeviceArrayView : Type := MkDeviceView {
  view_device : option ArrowDevice;
  array_view : ArrowArrayView;
}.
(** [ArrowDeviceArrayMove(src, dst)]: (dst, src) afterwards. *)
Definition ArrowDeviceArrayMove (src : ArrowDeviceArray) : ArrowDeviceArray * ArrowDeviceArray :=
  (src, MkDeviceArray ArrayReleased (array_device_id src) (array_device_type src) (sync_event src)).

(** The state is the device array and the array. *)
Definition ArrowDeviceArrayInitDefault (d : device_name) : M (ArrowDeviceArray * ArrowArray) unit :=
  mmod (λ '(_, a), let '(dst, src) := ArrowArrayMove a in
                   (MkDeviceArray dst (name_id d) (name_type d) false, src)).
Definition ArrowDeviceArrayInit (d : ArrowDevice) : M (ArrowDeviceArray * ArrowArray) unit :=
  match array_init d with
  | Some f => f
  | None => ArrowDeviceArrayInitDefault (device d)
  end.

Section device.
Context `{!Libc} `{!Malloc}.

(** ** The CPU *)
Definition both_cpu {S} (device_src device_dst : device_name) : M S unit :=
  check ((name_type device_dst =? ARROW_DEVICE_CPU) && (name_type device_src =? ARROW_DEVICE_CPU)) ENOTSUP.
Definition ArrowDeviceCpuBufferInit (device_src : device_name) (src : ArrowView) (device_dst : device_name) :
    M ArrowBuffer unit :=
  both_cpu device_src device_dst ;;;
  mmod (λ _, ArrowBufferInit) ;;;
  ArrowBufferAppend (view_data src) (view_size src).
Definition ArrowDeviceCpuBufferMove (device_src device_dst : device_name) : M (ArrowBuffer * ArrowBuffer) unit :=
  both_cpu device_src device_dst ;;;
  mmod (λ '(src, _), let '(dst', src') := ArrowBufferMove src in (src', dst')).
Definition ArrowDeviceCpuBufferCopy (device_src : device_name) (src : ArrowView) (device_dst : device_name)
    (size_bytes : Z) : M (list Z) unit :=
  both_cpu device_src device_dst ;;;
  let* d := deref (l ← view_data src; zslice l 0 size_bytes) in
  let* dst := mget id in
  let* dst' := deref (zwrite dst 0 d) in
  mmod (λ _, dst').
(** [other] is the callback of the device itself. *)
Definition ArrowDeviceCpuSynchronize (d : device_name) (other : bool → M unit unit) (sync_event : bool) :
    M unit unit :=
  if name_type d =? ARROW_DEVICE_CPU then check (negb sync_event) EINVAL else other sync_event.

Definition cpu_name : device_name := MkName ARROW_DEVICE_CPU 0.
Definition ArrowDeviceCpuRelease (d : ArrowDevice) : ArrowDevice :=
  MkDevice (device d) (array_init d) (array_move d) (buffer_init d) (buffer_move d) (buffer_copy d)
    (synchronize_event d) false.
(** What is written to [*device].  The synchronisation of the CPU never asks for its
    own callback. *)
Definition ArrowDeviceInitCpu : ArrowDevice :=
  MkDevice cpu_name None None ArrowDeviceCpuBufferInit ArrowDeviceCpuBufferMove ArrowDeviceCpuBufferCopy
    (ArrowDeviceCpuSynchronize cpu_name (λ _, mundef)) true.
(** The state tells whether the static device was made; without memory for it NULL
    is initialised. *)
Definition sizeof_ArrowDevice : Z := 80.
Definition ArrowDeviceCpu : M (mstate * bool) ArrowDevice :=
  let* made := get id in
  if made : bool then mret_ ArrowDeviceInitCpu
  else
    let* ok := ArrowMalloc sizeof_ArrowDevice in
    if ok : bool then modify (λ _, true) ;;; mret_ ArrowDeviceInitCpu else mundef.
Definition ArrowDeviceResolve (device_type device_id : Z) : M (mstate * bool) (option ArrowDevice) :=
  if (device_type =? ARROW_DEVICE_CPU) && (device_id =? 0)
  then let* d := ArrowDeviceCpu in mret_ (Some d)
  else mret_ None.

(** ** Buffers: the destination is asked first, then the source *)
Definition or_source {S} (dst src : M S unit) : M S unit := λ s,
  match dst s with
  | Err ENOTSUP s' => src s'
  | r => r
  end.
Definition ArrowDeviceBufferInit (device_src : ArrowDevice) (src : ArrowView) (device_dst : ArrowDevice) :
    M ArrowBuffer unit :=
  or_source (buffer_init device_dst (device device_src) src (device device_dst))
    (buffer_init device_src (device device_src) src (device device_dst)).
Definition ArrowDeviceBufferMove (device_src device_dst : ArrowDevice) : M (ArrowBuffer * ArrowBuffer) unit :=
  or_source (buffer_move device_dst (device device_src) (device device_dst))
    (buffer_move device_src (device device_src) (device device_dst)).
Definition ArrowDeviceBufferCopy (device_src : ArrowDevice) (src : ArrowView) (device_dst : ArrowDevice)
    (size_bytes : Z) : M (list Z) unit :=
  or_source (buffer_copy device_dst (device device_src) src (device device_dst) size_bytes)
    (buffer_copy device_src (device device_src) src (device device_dst) size_bytes).

(** The integer of [w] bytes at index [i], through a local variable. *)
Definition buffer_get_int (w : nat) (d : ArrowDevice) (buffer_view : ArrowView) (i : Z) : M (mstate * bool) Z :=
  let* l := deref (view_data buffer_view) in
  let n := Z.of_nat w in
  (if (0 <=? n * i) && (n * i <=? zlen l) then mret_ tt else mundef) ;;;
  let* cpu := ArrowDeviceCpu in
  λ s, match ArrowDeviceBufferCopy d (MkView (Some (drop (Z.to_nat (n * i)) l)) n) cpu n (replicate w 0) with
       | Ok _ out => deref (load_i w out 0) s
       | Err e _ => Err e s
       | UB => UB
       end.
Definition ArrowDeviceBufferGetInt32 := buffer_get_int 4.
Definition ArrowDeviceBufferGetInt64 := buffer_get_int 8.

(** ** Views *)
Definition ArrowDeviceArrayViewInit : ArrowDeviceArrayView :=
  MkDeviceView None (MkArrayView 0 0 0 NANOARROW_TYPE_UNINITIALIZED
    (MkLayout (replicate 3 NANOARROW_BUFFER_TYPE_NONE) (replicate 3 NANOARROW_TYPE_UNINITIALIZED) (replicate 3 0) 0)
    (replicate 3 (MkView None 0)) 0 None None None).
Definition ArrowDeviceArrayViewReset (v : ArrowDeviceArrayView) : ArrowDeviceArrayView :=
  MkDeviceView None (ArrowArrayViewReset (array_view v)).

(** Sizes that need the last offset; the state has the view. *)
Abbreviation device_state := (mstate * bool)%type.
Definition resolve_data_size (w : nat) (d : ArrowDevice) (v : ArrowArrayView) : M device_state ArrowArrayView :=
  let* b1 := deref (buffer_views v !! 1%nat) in
  let* b2 := deref (buffer_views v !! 2%nat) in
  let sized n := set_buffer_views (<[2%nat := MkView (view_data b2) n]> (buffer_views v)) v in
  if view_size b1 =? 0 then mret_ (sized 0)
  else if view_size b2 =? -1 then
    let* last := buffer_get_int w d b1 (i64 (offset v + length v)) in
    mret_ (sized last)
  else mret_ v.
Definition resolve_node (d : ArrowDevice) (v : ArrowArrayView) : M device_state ArrowArrayView :=
  match view_storage_type v with
  | NANOARROW_TYPE_STRING | NANOARROW_TYPE_BINARY => resolve_data_size 4 d v
  | NANOARROW_TYPE_LARGE_STRING | NANOARROW_TYPE_LARGE_BINARY => resolve_data_size 8 d v
  | _ => mret_ v
  end.
(** The children are resolved in place; after an error those before it stay
    resolved. *)
Definition resolve_list (resolve : ArrowArrayView → M device_state (ArrowArrayView * option errno)) (n : Z) :
    list (option ArrowArrayView) → Z → M device_state (list (option ArrowArrayView) * option errno) :=
  fix go l i :=
    if i <? n then
      match l with
      | Some c :: l' =>
          let* r := resolve c in
          match r.2 with
          | Some e => mret_ (Some r.1 :: l', Some e)
          | None => let* rest := go l' (i + 1) in mret_ (Some r.1 :: rest.1, rest.2)
          end
      | _ => mundef
      end
    else mret_ (l, None).
(** The view as it is left, and the error. *)
Fixpoint resolve_sizes (d : ArrowDevice) (v : ArrowArrayView) : M device_state (ArrowArrayView * option errno) :=
  match v with
  | MkArrayView _ _ _ _ _ _ nc ch _ _ => λ s,
      match resolve_node d v s with
      | UB => UB
      | Err e s' => Ok (v, Some e) s'
      | Ok v' s' =>
          match ch with
          | None => if 0 <? nc then UB else Ok (v', None) s'
          | Some l =>
              (let* r := resolve_list (resolve_sizes d) nc l 0 in
               mret_ (set_view_children nc (Some r.1) v', r.2)) s'
          end
      end
  end.
Definition ArrowDeviceArrayViewResolveBufferSizes (d : ArrowDevice) : M (device_state * ArrowArrayView) unit :=
  λ '(s, v),
    match resolve_sizes d v s with
    | UB => UB
    | Err e s' => Err e (s', v)
    | Ok (v', None) s' => Ok tt (s', v')
    | Ok (v', Some e) s' => Err e (s', v')
    end.

(** The state is that of the CPU and the view of the device array. *)
Definition ArrowDeviceArrayViewSetArrayMinimal (a : ArrowDeviceArray) : M (device_state * ArrowDeviceArrayView) unit :=
  λ '(s, v),
    match ArrowDeviceResolve (array_device_type a) (array_device_id a) s with
    | UB => UB
    | Err e s' => Err e (s', v)
    | Ok None s' => Err EINVAL (s', v)
    | Ok (Some d) s' =>
        match ArrowArrayViewSetArrayMinimal (array_view v) (held_array a) with
        | UB => UB
        | Err e w => Err e (s', MkDeviceView (Some d) w)
        | Ok _ w => Ok tt (s', MkDeviceView (Some d) w)
        end
    end.
Definition ArrowDeviceArrayViewSetArray (a : ArrowDeviceArray) : M (device_state * ArrowDeviceArrayView) unit :=
  ArrowDeviceArrayViewSetArrayMinimal a ;;;
  let* v := mget snd in
  let* d := deref (view_device v) in
  λ '(s, v),
    match synchronize_event d (sync_event a) tt with
    | UB => UB
    | Err e _ => Err e (s, v)
    | Ok _ _ =>
        match ArrowDeviceArrayViewResolveBufferSizes d (s, array_view v) with
        | UB => UB
        | Err e (s', w) => Err e (s', MkDeviceView (Some d) w)
        | Ok _ (s', w) => Ok tt (s', MkDeviceView (Some d) w)
        end
    end.

(** ** Copies *)
Definition put_extent (len off nulls : Z) (a : array) : array :=
  MkArray len nulls off (n_buffers a) (array_n_children a) (array_buffers a) (array_children a)
    (array_dictionary a) (array_private a).
Fixpoint copy_buffers (device_src device_dst : ArrowDevice) (types : list ArrowBufferType) (views : list ArrowView)
    (i : Z) : M array unit :=
  match types, views with
  | [], _ | NANOARROW_BUFFER_TYPE_NONE :: _, _ => mret_ tt
  | _ :: types', v :: views' =>
      ArrowArrayBuffer i (ArrowDeviceBufferInit device_src v device_dst) ;;;
      copy_buffers device_src device_dst types' views' (i + 1)
  | _ :: _, [] => mundef
  end.
Definition copy_node (device_src device_dst : ArrowDevice) (src : ArrowArrayView) : M array unit :=
  mmod (put_extent (length src) (offset src) (view_null_count src)) ;;;
  copy_buffers device_src device_dst (buffer_type (view_layout src)) (buffer_views src) 0.
Definition copy_view_list (copy : ArrowArrayView → ArrowArray → outcome ArrowArray unit) (n : Z) :
    list (option ArrowArrayView) → list (option ArrowArray) → Z → outcome (list (option ArrowArray)) unit :=
  fix go l dst i :=
    if i <? n then
      match l, dst with
      | Some c :: l', Some x :: dst' =>
          match copy c x with
          | UB => UB
          | Err e x' => Err e (Some x' :: dst')
          | Ok _ x' =>
              match go l' dst' (i + 1) with
              | UB => UB
              | Err e r => Err e (Some x' :: r)
              | Ok _ r => Ok tt (Some x' :: r)
              end
          end
      | _, _ => UB
      end
    else Ok tt dst.
Fixpoint ArrowDeviceArrayViewCopyInternal (device_src device_dst : ArrowDevice) (src : ArrowArrayView)
    (dst : ArrowArray) : outcome ArrowArray unit :=
  match src, dst with
  | _, ArrayReleased => UB
  | MkArrayView _ _ _ _ _ _ nc ch d _, ArrayLive a =>
      let copy := ArrowDeviceArrayViewCopyInternal device_src device_dst in
      match copy_node device_src device_dst src a with
      | UB => UB
      | Err e a1 => Err e (ArrayLive a1)
      | Ok _ a1 =>
          match (if 0 <? nc then
                   match ch, array_children a1 with
                   | Some l, Some dst_children =>
                       match copy_view_list copy nc l dst_children 0 with
                       | UB => UB
                       | Err e r => Err e (Some r)
                       | Ok _ r => Ok tt (Some r)
                       end
                   | _, _ => UB
                   end
                 else Ok tt (array_children a1)) with
          | UB => UB
          | Err e r => Err e (ArrayLive (put_children (array_n_children a1) r a1))
          | Ok _ r =>
              let a2 := put_children (array_n_children a1) r a1 in
              match d with
              | None => Ok tt (ArrayLive a2)
              | Some c =>
                  match array_dictionary a2 with
                  | None => UB
                  | Some x =>
                      match copy c x with
                      | UB => UB
                      | Err e x' => Err e (ArrayLive (put_dictionary (Some x') a2))
                      | Ok _ x' => Ok tt (ArrayLive (put_dictionary (Some x') a2))
                      end
                  end
              end
          end
      end
  end.
(** The local [tmp]; when a step fails it is released and [*dst] is not written. *)
Definition ArrowDeviceArrayViewCopy (src : ArrowDeviceArrayView) (device_dst : ArrowDevice) :
    M (mstate * ArrowDeviceArray) unit := λ '(s, dst),
  match ArrowArrayInitFromArrayView (array_view src) (s, ArrayReleased) with
  | UB => UB
  | Err e (s1, _) => Err e (s1, dst)
  | Ok _ (s1, tmp) =>
      match view_device src with
      | None => UB
      | Some device_src =>
          match ArrowDeviceArrayViewCopyInternal device_src device_dst (array_view src) tmp with
          | UB => UB
          | Err e _ => Err e (s1, dst)
          | Ok _ tmp =>
              match ArrowArrayFinishBuilding NANOARROW_VALIDATION_LEVEL_MINIMAL (s1, tmp) with
              | UB => UB
              | Err e (s2, _) => Err e (s2, dst)
              | Ok _ (s2, tmp) =>
                  match ArrowDeviceArrayInit device_dst (dst, tmp) with
                  | UB => UB
                  | Err e (dst', ArrayReleased) => UB
                  | Err e (dst', _) => Err e (s2, dst')
                  | Ok _ (dst', _) => Ok tt (s2, dst')
                  end
              end
          end
      end
  end.

(** The state is the source and the destination.  After a move by the destination the
    result is [ENOTSUP] all the same. *)
Definition ArrowDeviceArrayMoveToDevice (device_dst : ArrowDevice) :
    M (device_state * (ArrowDeviceArray * ArrowDeviceArray)) unit := λ '(s, (src, dst)),
  if (array_device_type src =? name_type (device device_dst)) && (array_device_id src =? name_id (device device_dst))
  then let '(dst', src') := ArrowDeviceArrayMove src in Ok tt (s, (src', dst'))
  else
    match ArrowDeviceResolve (array_device_type src) (array_device_id src) s with
    | UB => UB
    | Err e s' => Err e (s', (src, dst))
    | Ok None s' => Err EINVAL (s', (src, dst))
    | Ok (Some device_src) s' =>
        let move (d : ArrowDevice) : M (ArrowDeviceArray * ArrowDeviceArray) unit :=
          match array_move d with
          | Some f => f (device device_src) (device device_dst)
          | None => mfail ENOTSUP
          end in
        match move device_src (src, dst) with
        | UB => UB
        | Err ENOTSUP p =>
            match move device_dst p with
            | UB => UB
            | Err e p' => Err e (s', p')
            | Ok _ p' => Err ENOTSUP (s', p')
            end
        | Err e p => Err e (s', p)
        | Ok _ p => Ok tt (s', p)
        end
    end.

(** ** Streams of device arrays *)

(** What the stream needs of the stream it takes its arrays from: its callbacks, and
    moving it, which leaves a released stream. *)
Class NaiveStream (T : Type) : Type := {
  naive_get_schema : T → M (mstate * ArrowSchema) unit;
  naive_get_next : M T ArrowArray;
  naive_get_last_error : T → option (list Z);
  naive_release : M T unit;
  naive_moved : T → T;
}.
Inductive ArrowDeviceArrayStream (T : Type) : Type :=
  | DeviceStreamReleased
  | DeviceStreamLive (stream_device_type : Z) (private_device : ArrowDevice) (naive_stream : T).
#[global] Arguments DeviceStreamReleased {T}.
#[global] Arguments DeviceStreamLive {T}.

Definition ArrowDeviceBasicArrayStreamGetSchema {T} `{!NaiveStream T} (stream : ArrowDeviceArrayStream T) :
    M (mstate * ArrowSchema) unit :=
  match stream with
  | DeviceStreamReleased => mundef
  | DeviceStreamLive _ _ naive => naive_get_schema naive
  end.
(** The state is the stream and the device array of the caller. *)
Definition ArrowDeviceBasicArrayStreamGetNext {T} `{!NaiveStream T} : M (ArrowDeviceArrayStream T * ArrowDeviceArray) unit :=
  λ '(stream, out),
    match stream with
    | DeviceStreamReleased => UB
    | DeviceStreamLive t d naive =>
        match naive_get_next naive with
        | UB => UB
        | Err e naive' => Err e (DeviceStreamLive t d naive', out)
        | Ok tmp naive' =>
            match ArrowDeviceArrayInit d (out, tmp) with
            | UB => UB
            | Err e (out', ArrayReleased) => UB
            | Err e (out', _) => Err e (DeviceStreamLive t d naive', out')
            | Ok _ (out', _) => Ok tt (DeviceStreamLive t d naive', out')
            end
        end
    end.
Definition ArrowDeviceBasicArrayStreamGetLastError {T} `{!NaiveStream T} (stream : ArrowDeviceArrayStream T) :
    option (option (list Z)) :=
  match stream with
  | DeviceStreamReleased => None
  | DeviceStreamLive _ _ naive => Some (naive_get_last_error naive)
  end.
(** The result is the naive stream after its release. *)
Definition ArrowDeviceBasicArrayStreamRelease {T} `{!NaiveStream T} : M (ArrowDeviceArrayStream T) T := λ stream,
  match stream with
  | DeviceStreamReleased => UB
  | DeviceStreamLive _ _ naive =>
      match naive_release naive with
      | Ok _ naive' => Ok naive' DeviceStreamReleased
      | _ => UB
      end
  end.
Definition sizeof_ArrowBasicDeviceArrayStreamPrivate : Z := 48.
(** The state is the device stream and the stream of the caller. *)
Definition ArrowDeviceBasicArrayStreamInit {T} `{!NaiveStream T} (d : ArrowDevice) :
    M (mstate * (ArrowDeviceArrayStream T * T)) unit :=
  let* ok := ArrowMalloc sizeof_ArrowBasicDeviceArrayStreamPrivate in
  if ok : bool
  then modify (λ '(_, naive), (DeviceStreamLive (name_type (device d)) d naive, naive_moved naive))
  else mfail ENOMEM.

(** The basic stream, with the log of its releases. *)
#[global] Instance basic_stream : NaiveStream (list (ArrowSchema + ArrowArray) * ArrowArrayStream) := {|
  naive_get_schema s := ArrowBasicArrayStreamGetSchema (Some s.2);
  naive_get_next := zoom snd (λ t s, (s.1, t)) ArrowBasicArrayStreamGetNext;
  naive_get_last_error s := ArrowBasicArrayStreamGetLastError s.2;
  naive_release := λ '(log, t),
    match ArrowBasicArrayStreamRelease (Some t) (log, Some t) with
    | Ok _ (log', Some t') => Ok tt (log', t')
    | _ => UB
    end;
  naive_moved s := ([], (ArrowArrayStreamMove s.2).2);
|}.

(** [k] calls of the next function, of the two streams. *)
Fixpoint naive_times {T} `{!NaiveStream T} (k : nat) (naive : T) : outcome T (list ArrowArray) :=
  match k with
  | O => Ok [] naive
  | Datatypes.S k' =>
      match naive_get_next naive with
      | UB => UB
      | Err e naive' => Err e naive'
      | Ok a naive' =>
          match naive_times k' naive' with
          | UB => UB
          | Err e naive'' => Err e naive''
          | Ok l naive'' => Ok (a :: l) naive''
          end
      end
  end.
Fixpoint device_times {T} `{!NaiveStream T} (k : nat) (stream : ArrowDeviceArrayStream T) (out : ArrowDeviceArray) :
    outcome (ArrowDeviceArrayStream T) (list ArrowDeviceArray) :=
  match k with
  | O => Ok [] stream
  | Datatypes.S k' =>
      match ArrowDeviceBasicArrayStreamGetNext (stream, out) with
      | UB => UB
      | Err e (stream', _) => Err e stream'
      | Ok _ (stream', out') =>
          match device_times k' stream' out' with
          | UB => UB
          | Err e stream'' => Err e stream''
          | Ok l stream'' => Ok (out' :: l) stream''
          end
      end
  end.
(** A stream of device arrays gives the arrays of the stream it was made of, with the
    device, whatever that stream is; its errors are the errors of that stream. *)
Theorem device_stream_arrays {T} `{!NaiveStream T} (t : Z) (d : ArrowDevice) (k : nat) (naive : T) (out : ArrowDeviceArray) :
  array_init d = None →
  device_times k (DeviceStreamLive t d naive) out =
    match naive_times k naive with
    | Ok l naive' => Ok ((λ a, MkDeviceArray a (name_id (device d)) (name_type (device d)) false) <$> l) (DeviceStreamLive t d naive')
    | Err e naive' => Err e (DeviceStreamLive t d naive')
    | UB => UB
    end.
Proof.
  intros Hd. revert naive out. induction k as [|k IH]; intros naive out; [done|]. cbn [device_times naive_times].
  unfold ArrowDeviceBasicArrayStreamGetNext. destruct (naive_get_next naive) as [a naive'|e naive'|]; [|done|done].
  unfold ArrowDeviceArrayInit. rewrite Hd. cbn. rewrite IH. by destruct (naive_times k naive').
Qed.

(** ** Copies on the CPU *)

(** A view of memory that is there. *)
Definition readable (v : ArrowView) : Prop :=
  view_size v <= INT64_MAX ∧
  match view_data v with
  | None => view_size v = 0
  | Some l => 0 <= view_size v <= zlen l ∧ bytes_ok l
  end.
Lemma readable_source v : readable v → source_of (view_data v) (view_size v) (view_bytes v) ∧ bytes_ok (view_bytes v) ∧ 0 <= view_size v.
Proof.
  unfold readable, view_bytes, source_of. intros [_ Hv]. destruct (view_data v) as [l|]; cbn [default].
  - destruct Hv as [Hv Hl]. split_and!; [|by apply Forall_take|lia].
    destruct (Z.eq_dec (view_size v) 0) as [->|]; [by left|]. right. split; [lia|]. exists l. split; [done|].
    by rewrite zslice_in, drop_0 by lia.
  - rewrite Hv. split_and!; [by left|constructor|lia].
Qed.
Lemma cpu_buffer_init_wp v b :
  readable v →
  wp (ArrowDeviceBufferInit ArrowDeviceInitCpu v ArrowDeviceInitCpu) b (λ _ b', contents b' = view_bytes v) (λ e _, e = ENOMEM).
Proof.
  intros Hv. destruct (readable_source v Hv) as (Hsrc & Hbytes & Hsize). destruct Hv as [Hmax _].
  assert (wp (ArrowDeviceCpuBufferInit cpu_name v cpu_name) b (λ _ b', contents b' = view_bytes v) (λ e _, e = ENOMEM)) as Hinit.
  { unfold ArrowDeviceCpuBufferInit, both_cpu. apply wp_bind, wp_check; [intros _|done]. apply wp_bind, wp_mod.
    eapply wp_mono; [apply (append_wp ArrowBufferInit _ _ (view_bytes v)); try done| |].
    - by intros [] b' (_ & -> & _).
    - by intros e b' [-> _]. }
  unfold ArrowDeviceBufferInit, or_source, wp in *. cbn [buffer_init ArrowDeviceInitCpu device].
  destruct (ArrowDeviceCpuBufferInit cpu_name v cpu_name b) as [[] b'|e b'|]; [done|by rewrite Hinit|done].
Qed.

(** Everything but the buffers is the same. *)
Definition same_rest (a a' : array) : Prop :=
  array_length a' = array_length a ∧ array_offset a' = array_offset a ∧ null_count a' = null_count a ∧
  array_n_children a' = array_n_children a ∧ array_children a' = array_children a ∧
  array_dictionary a' = array_dictionary a.
Lemma same_rest_trans a a' a'' : same_rest a a' → same_rest a' a'' → same_rest a a''.
Proof. unfold same_rest. intuition congruence. Qed.
Lemma wp_slot {A} i (m : M ArrowBuffer A) a l b Q E :
  array_scratch a = Some l → List.length l = 3%nat → 0 <= i < 3 → l !! Z.to_nat i = Some b →
  wp m b (λ x b', ∀ a', same_rest a a' → array_scratch a' = Some (<[Z.to_nat i := b']> l) → Q x a')
    (λ e b', ∀ a', E e a') →
  wp (ArrowArrayBuffer i m) a Q E.
Proof.
  intros Ha Hl Hi Hb. unfold array_scratch in Ha. destruct a as [? ? ? ? ? ? ? ? [[[b0 ?] bl ? ? ?]|]]; [|done].
  cbn in Ha. injection Ha as <-. destruct bl as [|b1 [|b2 [|]]]; try done.
  assert (i = 0 ∨ i = 1 ∨ i = 2) as [-> | [-> | ->]] by lia; cbn in Hb; injection Hb as <-; unfold wp; intros Hm;
    unfold ArrowArrayBuffer, ArrowArrayValidityBitmap, on_buffer, on_private, on_private_buffer, zoom; cbn;
    change (1 - 1) with 0; change (2 - 1) with 1; cbn;
    change (Z.to_nat 0) with 0%nat; change (Z.to_nat 1) with 1%nat; cbn; (destruct (m _) as [x b'|e b'|]; cbn; [by apply Hm|by apply Hm|done]).
Qed.
Fixpoint copied_buffers (types : list ArrowBufferType) (views : list ArrowView) (l : list ArrowBuffer) : Prop :=
  match types, views, l with
  | [], _, _ | NANOARROW_BUFFER_TYPE_NONE :: _, _, _ => True
  | _ :: types', v :: views', b :: l' => contents b = view_bytes v ∧ copied_buffers types' views' l'
  | _, _, _ => False
  end.
Lemma copy_buffers_wp types : ∀ views i a l,
  array_scratch a = Some l → List.length l = 3%nat → (Z.to_nat i + List.length types = 3)%nat → 0 <= i →
  List.length views = List.length types → Forall readable views →
  wp (copy_buffers ArrowDeviceInitCpu ArrowDeviceInitCpu types views i) a
    (λ _ a', same_rest a a' ∧ ∃ l', array_scratch a' = Some l' ∧ List.length l' = 3%nat ∧
       take (Z.to_nat i) l' = take (Z.to_nat i) l ∧ copied_buffers types views (drop (Z.to_nat i) l'))
    (λ e _, e = ENOMEM).
Proof.
  induction types as [|t types IH]; intros [|v views] i a l Ha Hl Hi Hpos Hlen Hviews; try done.
  { apply wp_ret. split; [done|]. by exists l. }
  inversion_clear Hviews as [|? ? Hv Hviews']. cbn [List.length] in *.
  assert (∃ b, l !! Z.to_nat i = Some b) as [b Hb] by (apply lookup_lt_is_Some_2; lia).
  destruct (decide (t = NANOARROW_BUFFER_TYPE_NONE)) as [->|Ht].
  { apply wp_ret. split; [done|]. by exists l. }
  assert (wp (ArrowArrayBuffer i (ArrowDeviceBufferInit ArrowDeviceInitCpu v ArrowDeviceInitCpu) ;;;
      copy_buffers ArrowDeviceInitCpu ArrowDeviceInitCpu types views (i + 1)) a
    (λ _ a', same_rest a a' ∧ ∃ l', array_scratch a' = Some l' ∧ List.length l' = 3%nat ∧
       take (Z.to_nat i) l' = take (Z.to_nat i) l ∧
       ∃ b' rest, drop (Z.to_nat i) l' = b' :: rest ∧ contents b' = view_bytes v ∧ copied_buffers types views rest)
    (λ e _, e = ENOMEM)) as Hstep.
  { apply wp_bind. apply (wp_slot i _ a l b); [done|done|lia|done|].
    eapply wp_mono; [by apply cpu_buffer_init_wp| |by intros e b' ->].
    intros [] b' Hcontents a1 Hsame Ha1. eapply wp_mono; [apply (IH views (i + 1) a1 _ Ha1); try done; rewrite ?length_insert; lia| |done].
    intros [] a2 (Hsame2 & l' & Ha2 & Hl' & Htake & Hcopied). split; [by eapply same_rest_trans|].
    exists l'. split; [done|]. split; [done|]. replace (Z.to_nat (i + 1)) with (S (Z.to_nat i)) in * by lia.
    assert (l' !! Z.to_nat i = Some b') as Hb'.
    { rewrite <-(lookup_take_lt _ (S (Z.to_nat i))), Htake, lookup_take_lt by lia. by rewrite list_lookup_insert_eq by lia. }
    split.
    - rewrite <-(Nat.min_l (Z.to_nat i) (S (Z.to_nat i))), <-!take_take by lia.
      rewrite Htake, !take_take, Nat.min_l by lia. by rewrite take_insert_ge by lia.
    - exists b', (drop (S (Z.to_nat i)) l'). split; [by apply drop_S|done]. }
  eapply wp_mono; [destruct t; [done|exact Hstep..]| |done].
  intros [] a' (Hsame & l' & Ha' & Hl' & Htake & b' & rest & Hdrop & Hc & Hr). split; [done|]. exists l'.
  do 3 (split; [done|]). rewrite Hdrop. destruct t; [done|by split..].
Qed.
(** A view whose buffers can be read, in the whole tree. *)
Inductive copyable : ArrowArrayView → Prop :=
  | copyable_intro o l n st lay b nc cs d m :
      type_layout st lay → List.length b = 3%nat → Forall readable b → nc * sizeof_pointer <= INT64_MAX →
      zlen cs = 0 `max` nc → Forall (λ c, ∃ v, c = Some v ∧ copyable v) cs →
      (∀ v, d = Some v → copyable v) →
      copyable (MkArrayView o l n st lay b nc (Some cs) d m).
(** An array with the bytes of the view in its own buffers. *)
Inductive copied : ArrowArrayView → ArrowArray → Prop :=
  | copied_intro o l n st lay b nc cs d m a bufs :
      array_length a = l → array_offset a = o → null_count a = n →
      array_scratch a = Some bufs → copied_buffers (buffer_type lay) b bufs →
      (∀ i v, znth cs i = Some (Some v) → ∃ arr, child_pointer (ArrayLive a) i = Some arr ∧ copied v arr) →
      (∀ v, d = Some v → ∃ arr, array_dictionary a = Some arr ∧ copied v arr) →
      copied (MkArrayView o l n st lay b nc (Some cs) d m) (ArrayLive a).

(** Every view has an array at its place, in a relation with it. *)
Definition at_places (R : ArrowArrayView → ArrowArray → Prop) (cs : list (option ArrowArrayView))
    (xs : list (option ArrowArray)) : Prop :=
  ∀ k c, cs !! k = Some c → ∃ v arr, c = Some v ∧ xs !! k = Some (Some arr) ∧ R v arr.
Lemma copy_list_spec nc cs : ∀ xs i,
  zlen cs = 0 `max` (nc - i) →
  at_places (λ v arr, match ArrowDeviceArrayViewCopyInternal ArrowDeviceInitCpu ArrowDeviceInitCpu v arr with
    | Ok _ arr' => copied v arr' | Err e _ => e = ENOMEM | UB => False end) cs xs →
  match copy_view_list (ArrowDeviceArrayViewCopyInternal ArrowDeviceInitCpu ArrowDeviceInitCpu) nc cs xs i with
  | Ok _ r => at_places copied cs r
  | Err e _ => e = ENOMEM
  | UB => False
  end.
Proof.
  induction cs as [|c cs IH]; intros xs i Hn Hall.
  - cbn [copy_view_list]. change (zlen (@nil (option ArrowArrayView))) with 0 in Hn. destruct (Z.ltb_spec i nc); [lia|]. by intros k c.
  - rewrite zlen_cons in Hn. pose proof (zlen_nonneg cs). destruct (Hall 0%nat c eq_refl) as (v & arr & -> & Hx & Hcopy).
    destruct xs as [|x xs]; [done|]. cbn in Hx. injection Hx as ->. cbn [copy_view_list]. destruct (Z.ltb_spec i nc); [|lia].
    destruct (ArrowDeviceArrayViewCopyInternal _ _ v arr) as [[] arr'|e arr'|]; [|done|done].
    specialize (IH xs (i + 1) ltac:(lia) (λ k, Hall (S k))).
    fold (copy_view_list (ArrowDeviceArrayViewCopyInternal ArrowDeviceInitCpu ArrowDeviceInitCpu) nc).
    destruct (copy_view_list _ nc cs xs (i + 1)) as [[] r|e r|]; [|done|done].
    intros [|k] c Hc; [injection Hc as <-; by exists v, arr'|by apply IH].
Qed.
(** The node, and then the children. *)
Lemma copy_node_spec o l n st lay b nc ch d m a :
  type_layout st lay → List.length b = 3%nat → Forall readable b → fresh_scratch a →
  match copy_node ArrowDeviceInitCpu ArrowDeviceInitCpu (MkArrayView o l n st lay b nc ch d m) a with
  | Ok _ a' => same_rest (put_extent l o n a) a' ∧ ∃ bufs, array_scratch a' = Some bufs ∧ copied_buffers (buffer_type lay) b bufs
  | Err e _ => e = ENOMEM
  | UB => False
  end.
Proof.
  intros [(Hlay & _) _] Hb Hread Hfresh.
  enough (wp (copy_node ArrowDeviceInitCpu ArrowDeviceInitCpu (MkArrayView o l n st lay b nc ch d m)) a
    (λ _ a', same_rest (put_extent l o n a) a' ∧ ∃ bufs, array_scratch a' = Some bufs ∧ copied_buffers (buffer_type lay) b bufs)
    (λ e _, e = ENOMEM)) as Hnode by exact Hnode.
  unfold copy_node. apply wp_bind, wp_mod.
  eapply wp_mono; [apply (copy_buffers_wp _ _ 0 _ (replicate 3 ArrowBufferInit)); try done|..].
  - exact (eq_trans Hb (eq_sym Hlay)).
  - intros [] a' (Hsame & bufs & Ha' & _ & _ & Hc). split; [exact Hsame|]. by exists bufs.
  - done.
Qed.
Definition copies v : Prop := ∀ arr, array_shape v arr →
  match ArrowDeviceArrayViewCopyInternal ArrowDeviceInitCpu ArrowDeviceInitCpu v arr with
  | Ok _ arr' => copied v arr'
  | Err e _ => e = ENOMEM
  | UB => False
  end.
Lemma copy_children_spec nc cs a :
  zlen cs = 0 `max` nc → Forall (λ c, ∃ v, c = Some v ∧ copies v) cs →
  (∀ i c, 0 <= i < nc → znth cs i = Some (Some c) →
    ∃ l arr, array_children a = Some l ∧ znth l i = Some (Some arr) ∧ array_shape c arr) →
  0 < nc → ∃ xs, array_children a = Some xs ∧
    match copy_view_list (ArrowDeviceArrayViewCopyInternal ArrowDeviceInitCpu ArrowDeviceInitCpu) nc cs xs 0 with
    | Ok _ r => at_places copied cs r
    | Err e _ => e = ENOMEM
    | UB => False
    end.
Proof.
  intros Hlen Hcs Hchildren Hpos.
  assert (∃ xs, array_children a = Some xs) as [xs Hxs].
  { destruct cs as [|c cs']; [change (zlen (@nil (option ArrowArrayView))) with 0 in Hlen; lia|].
    pose proof (Forall_inv Hcs) as (w & -> & _). destruct (Hchildren 0 w ltac:(lia) eq_refl) as (xs & _ & Hxs & _). by exists xs. }
  exists xs. split; [done|]. apply copy_list_spec; [lia|]. intros k c Hk.
  destruct (Forall_lookup_1 _ _ _ _ Hcs Hk) as (w & -> & Hw). pose proof (lookup_lt_Some _ _ _ Hk) as Hlt. unfold zlen in Hlen.
  destruct (Hchildren (Z.of_nat k) w) as (xs' & arr & Hxs' & Harr & Hsh); [lia|by rewrite znth_of_nat|].
  rewrite Hxs in Hxs'. injection Hxs' as <-. rewrite znth_of_nat in Harr. exists w, arr. do 2 (split; [done|]). by apply Hw.
Qed.
Lemma copy_internal_spec v : copyable v → copies v.
Proof.
  induction v as [o l n st lay b nc ch d m IHch IHd] using ArrowArrayView_nested_ind. intros Hv arr Harr.
  inversion Hv as [? ? ? ? ? ? ? cs ? ? Hlay Hb Hread _ Hlen Hcs Hdv]; subst.
  inversion Harr as [? ? ? ? ? ? ? ? ? ? a Hfresh Hchildren Hda]; subst.
  cbn [ArrowDeviceArrayViewCopyInternal].
  pose proof (copy_node_spec o l n st lay b nc (Some cs) d m a Hlay Hb Hread Hfresh) as Hnode.
  destruct (copy_node _ _ _ a) as [[] a1|e a1|]; [|done|done].
  destruct Hnode as ((Hl & Ho & Hn & Hnc & Hch & Hd) & bufs & Hbufs & Hcopied). cbn in Hl, Ho, Hn, Hnc, Hch, Hd.
  set (part := if 0 <? nc then _ else _).
  assert (match part with
    | Ok _ r => ∀ i w, znth cs i = Some (Some w) → ∃ arr, (r ≫= λ xs, znth xs i) = Some (Some arr) ∧ copied w arr
    | Err e _ => e = ENOMEM
    | UB => False
    end) as Hpart.
  { unfold part. destruct (Z.ltb_spec 0 nc) as [Hpos|Hpos].
    - assert (Forall (λ c, ∃ v, c = Some v ∧ copies v) cs) as Hcopies.
      { rewrite Forall_lookup in IHch, Hcs |- *. intros k c Hk. destruct (Hcs k c Hk) as (w & -> & Hw). exists w.
        split; [done|]. by apply (IHch k (Some w) Hk). }
      destruct (copy_children_spec nc cs a Hlen Hcopies Hchildren Hpos) as (xs & Hxs & Hlist). rewrite Hch, Hxs.
      destruct (copy_view_list _ nc cs xs 0) as [[] r|e r|]; [|done|done]. intros i w Hi.
      pose proof (znth_Some _ _ _ Hi) as [Hi0 _]. rewrite znth_lookup in Hi by lia.
      destruct (Hlist _ _ Hi) as (w' & arr & [= <-] & Hr & Hc). exists arr. split; [|done]. cbn. by rewrite znth_lookup by lia.
    - intros i w Hi. pose proof (znth_Some _ _ _ Hi). lia. }
  destruct part as [[] r|e r|]; [|done|done].
  assert (∀ x, (∀ v, d = Some v → ∃ arr, x = Some arr ∧ copied v arr) →
    copied (MkArrayView o l n st lay b nc (Some cs) d m) (ArrayLive (put_dictionary x (put_children (array_n_children a1) r a1)))) as Hdone.
  { intros x Hx. apply (copied_intro _ _ _ _ _ _ _ _ _ _ _ bufs); try done. intros i w Hi. destruct (Hpart i w Hi) as (arr & Harr' & Hc).
    exists arr. split; [|done]. unfold child_pointer. cbn [array_children put_children put_dictionary]. destruct r as [xs|]; [|done].
    cbn in Harr' |- *. by rewrite Harr'. }
  destruct d as [c|]; cbn [mbind option_bind].
  - destruct (Hda c eq_refl) as (x & Hx & Hsh). cbn [array_dictionary put_children]. rewrite Hd, Hx.
    specialize (IHd (Hdv c eq_refl) x Hsh). destruct (ArrowDeviceArrayViewCopyInternal _ _ c x) as [[] x'|e x'|]; [|done|done].
    apply Hdone. intros ? [= <-]. by exists x'.
  - specialize (Hdone (array_dictionary a1) ltac:(done)). destruct a1. exact Hdone.
Qed.
Lemma copyable_wf v : copyable v → view_wf v.
Proof.
  induction v as [o l n st lay b nc ch d m IHch IHd] using ArrowArrayView_nested_ind. intros Hv.
  inversion Hv as [? ? ? ? ? ? ? cs ? ? Hlay Hb _ Hmax Hlen Hcs Hdv]; subst. constructor; try done.
  2:{ intros c ->. by apply IHd, Hdv. }
  rewrite Forall_lookup in IHch, Hcs |- *. intros i c Hi. destruct (Hcs i c Hi) as (w & -> & Hw).
  exists w. split; [done|]. by apply (IHch i (Some w) Hi).
Qed.

(** The last steps of a copy keep what was copied. *)
Lemma walk_list_ok {V} (f : Z → V → outcome V unit) n l : ∀ i l',
  walk_list f n l i = Ok tt l' →
  ∀ k c, l !! k = Some (Some c) → ∃ c', l' !! k = Some (Some c') ∧ (c' = c ∨ ∃ j, f j c = Ok tt c').
Proof.
  induction l as [|[c|] l IH]; intros i l'; cbn [walk_list]; destruct (i <? n); try done.
  - fold (walk_list f n). destruct (f i c) as [[] c'|e c'|] eqn:Hf; [|done|done].
    destruct (walk_list f n l (i + 1)) as [[] r|e r|] eqn:Hr; [|done|done]. intros [= <-] [|k] x Hx.
    + injection Hx as <-. exists c'. split; [done|]. right. by exists i.
    + by apply (IH _ _ Hr).
  - intros [= <-] k x Hx. exists x. split; [done|by left].
  - intros [= <-] k x Hx. exists x. split; [done|by left].
Qed.
Lemma flush_copied v : ∀ arr arr',
  copied v arr → ArrowArrayFlushInternalPointers arr = Ok tt arr' → copied v arr'.
Proof.
  induction v as [o l n st lay b nc ch d m IHch IHd] using ArrowArrayView_nested_ind. intros arr arr' Hc.
  inversion Hc as [? ? ? ? ? ? ? cs ? ? a bufs Hl Ho Hn Hb Hbufs Hch Hdv]; subst.
  destruct a as [alen anull aoff anb anc abufs ach ad ap]. unfold ArrowArrayFlushInternalPointers. cbn [each_array].
  destruct ap as [p|]; [|done]. unfold mbind_ at 1, get_private, mbind_, mget, deref, mmod. cbn -[walk_children each_array].
  destruct (walk_children _ anc ach) as [[] ch'|e ch'|] eqn:Hw; [|done|done].
  destruct (walk_pointer _ ad) as [[] d'|e d'|] eqn:Hwd; [|done|done]. intros [= <-].
  apply (copied_intro _ _ _ _ _ _ _ _ _ _ _ bufs); try done.
  2:{ intros c ->. destruct (Hdv c eq_refl) as (x & Hx & Hcx). cbn in Hx. subst ad. cbn [walk_pointer] in Hwd.
      destruct (each_array _ x) as [[] x'|e x'|] eqn:Hx; [|done|done].
      injection Hwd as <-. exists x'. split; [done|]. exact (IHd x x' Hcx Hx). }
  intros i w Hi.
  destruct (Hch i w Hi) as (arr & Harr & Hcop). unfold child_pointer in *. cbn in Harr |- *.
  destruct ach as [xs|]; [|done]. unfold walk_children in Hw. destruct (walk_list _ anc xs 0) as [[] r|e r|] eqn:Hr; [|done|done].
  injection Hw as <-. pose proof (znth_Some _ _ _ Hi) as [Hi0 _]. cbn in Harr |- *.
  rewrite znth_lookup in Hi by lia. rewrite znth_lookup in Harr by lia. rewrite znth_lookup by lia.
  destruct (xs !! Z.to_nat i) as [[x|]|] eqn:Hx; try done. cbn in Harr. injection Harr as ->.
  destruct (walk_list_ok _ _ _ _ _ Hr _ _ Hx) as (x & Hx' & Hor). rewrite Hx'. exists x. split; [done|].
  destruct Hor as [->|[j Hj]]; [done|]. rewrite Forall_lookup in IHch. by apply (IHch _ (Some w) Hi arr).
Qed.
Lemma finish_copied v s arr s' arr' :
  copied v arr → ArrowArrayFinishBuilding NANOARROW_VALIDATION_LEVEL_MINIMAL (s, arr) = Ok tt (s', arr') → copied v arr'.
Proof.
  intros Hc. unfold ArrowArrayFinishBuilding, mbind_, mret_, on_tree at 1.
  destruct (ArrowArrayFlushInternalPointers arr) as [[] arr1|e arr1|] eqn:Hf; [|done|done].
  pose proof (flush_copied v _ _ Hc Hf) as Hc1. unfold with_local_view.
  destruct (ArrowArrayViewInitFromArray arr1 _) as [[] [s1 w]|e [s1 w]|]; [|done|done]. unfold on_tree.
  destruct (ArrowArrayViewValidate _ w); [|done|done]. by intros [= <- <-].
Qed.
End device.

(** A destination that takes the array: it has moved, and the result is [ENOTSUP]. *)
Definition taking_device : ArrowDevice :=
  MkDevice (MkName 2 0) None (Some (λ _ _, mmod (λ '(src, _), let '(dst, src') := ArrowDeviceArrayMove src in (src', dst))))
    (λ _ _ _, mfail ENOTSUP) (λ _ _, mfail ENOTSUP) (λ _ _ _ _, mfail ENOTSUP) (λ _, mret_ tt) true.
Theorem moved_not_supported (libc : Libc) (malloc : Malloc) (s : mstate) (a : ArrowArray) :
  ArrowDeviceArrayMoveToDevice taking_device ((s, true), (MkDeviceArray a 0 ARROW_DEVICE_CPU false, device_array_zero)) =
    Err ENOTSUP ((s, true), (MkDeviceArray ArrayReleased 0 ARROW_DEVICE_CPU false, MkDeviceArray a 0 ARROW_DEVICE_CPU false)).
Proof. reflexivity. Qed.

(** C40.  Copying an array on the CPU: in the new array that [ArrowArrayInitFromArrayView]
    makes after the view, [ArrowDeviceArrayViewCopyInternal] puts the length, the
    offset, the count of nulls and the bytes of every buffer the layout has, in buffers
    of its own, for the whole tree, the children and the dictionaries of all nodes
    included; the only error of this copy is [ENOMEM], and no
    memory is left.  When [ArrowDeviceArrayViewCopy] succeeds the destination is such
    an array on the CPU, and when it fails the destination was not written. *)
Theorem device_copy (libc : Libc) (malloc : Malloc) (v : ArrowArrayView) (s : mstate) (dst : ArrowDeviceArray)
    (Hv : copyable v) :
  wp (ArrowArrayInitFromArrayView v) (s, ArrayReleased)
    (λ _ p, match ArrowDeviceArrayViewCopyInternal ArrowDeviceInitCpu ArrowDeviceInitCpu v p.2 with
            | Ok _ arr => copied v arr
            | Err e _ => e = ENOMEM
            | UB => False
            end) (λ _ _, True) ∧
  (∀ s' d, ArrowDeviceArrayViewCopy (MkDeviceView (Some ArrowDeviceInitCpu) v) ArrowDeviceInitCpu (s, dst) = Ok tt (s', d) →
     copied v (held_array d) ∧ d = MkDeviceArray (held_array d) 0 ARROW_DEVICE_CPU false) ∧
  (∀ s' d e, ArrowDeviceArrayViewCopy (MkDeviceView (Some ArrowDeviceInitCpu) v) ArrowDeviceInitCpu (s, dst) = Err e (s', d) →
     d = dst).
Proof.
  assert (wp (ArrowArrayInitFromArrayView v) (s, ArrayReleased)
    (λ _ p, match ArrowDeviceArrayViewCopyInternal ArrowDeviceInitCpu ArrowDeviceInitCpu v p.2 with
            | Ok _ arr => copied v arr | Err e _ => e = ENOMEM | UB => False end) (λ _ _, True)) as Hinit.
  { eapply wp_mono; [by apply array_from_view_wp, copyable_wf| |done].
    intros [] p Hp. by apply copy_internal_spec. }
  split; [done|]. unfold ArrowDeviceArrayViewCopy. cbn [array_view view_device]. unfold wp in Hinit.
  destruct (ArrowArrayInitFromArrayView v _) as [[] [s1 tmp]|e [s1 tmp]|]; [|split; [done|by intros s' d e' [= _ _ <-]]|done].
  cbn [snd] in Hinit.
  destruct (ArrowDeviceArrayViewCopyInternal _ _ v tmp) as [[] tmp1|e tmp1|]; [|split; [done|by intros s' d e' [= _ _ <-]]|done].
  destruct (ArrowArrayFinishBuilding _ (s1, tmp1)) as [[] [s2 tmp2]|e [s2 tmp2]|] eqn:Hfin;
    [|split; [done|by intros s' d e' [= _ _ <-]]|done].
  split; [|done]. intros s' d [= _ <-]. split; [|done]. by apply (finish_copied v s1 tmp1 s2).
Qed.

(** A view of a struct of two columns: the strings ["ab"] and ["c"], and the indices 1
    and 0 into a dictionary with these strings. *)
Definition strings : ArrowArrayView :=
  MkArrayView 0 2 0 NANOARROW_TYPE_STRING (ArrowLayoutInit NANOARROW_TYPE_STRING)
    [MkView None 0; MkView (Some [0; 0; 0; 0; 2; 0; 0; 0; 3; 0; 0; 0]) 12; MkView (Some [97; 98; 99]) 3] 0 (Some []) None None.
Definition indices : ArrowArrayView :=
  MkArrayView 0 2 0 NANOARROW_TYPE_INT32 (ArrowLayoutInit NANOARROW_TYPE_INT32)
    [MkView None 0; MkView (Some [1; 0; 0; 0; 0; 0; 0; 0]) 8; MkView None 0] 0 (Some []) (Some strings) None.
Definition two_columns : ArrowArrayView :=
  MkArrayView 0 2 0 NANOARROW_TYPE_STRUCT (ArrowLayoutInit NANOARROW_TYPE_STRUCT) (replicate 3 (MkView None 0)) 2
    (Some [Some strings; Some indices]) None None.
Lemma readable_bytes l : bytes_ok l → zlen l <= INT64_MAX → readable (MkView (Some l) (zlen l)).
Proof.
  intros Hl Hmax. split; [done|]. cbn [view_data view_size]. pose proof (zlen_nonneg l). split; [lia|done].
Qed.
Lemma readable_nothing : readable (MkView None 0).
Proof. split; [by vm_compute|done]. Qed.
#[local] Hint Extern 1 (readable (MkView (Some _) _)) =>
  apply readable_bytes; [apply (bool_decide_unpack _); vm_compute; exact I|by vm_compute] : core.
#[local] Hint Resolve readable_nothing : core.
Lemma strings_copyable : copyable strings.
Proof. constructor; try done; [split; [apply layout_init_ready|done]|]. by repeat constructor; auto. Qed.
Lemma two_columns_copyable : copyable two_columns.
Proof.
  constructor; try done; [split; [apply layout_init_ready|done]|by repeat constructor; auto|].
  constructor; [|constructor; [|constructor]]; (eexists; split; [reflexivity|]); [exact strings_copyable|].
  constructor; try done; [split; [apply layout_init_ready|done]|by repeat constructor; auto|].
  intros v [= <-]. exact strings_copyable.
Qed.
Lemma device_copy_witness :
  copyable two_columns ∧
  ∃ s' d, @ArrowDeviceArrayViewCopy (libc_limited 1000) malloc_budget (MkDeviceView (Some (@ArrowDeviceInitCpu (libc_limited 1000))) two_columns)
    (@ArrowDeviceInitCpu (libc_limited 1000)) (40%nat, device_array_zero) = Ok tt (s', d) ∧ copied two_columns (held_array d).
Proof.
  split; [exact two_columns_copyable|].
  destruct (device_copy (libc_limited 1000) malloc_budget two_columns 40%nat device_array_zero two_columns_copyable) as (_ & Hok & _).
  do 2 eexists. split; [vm_compute; reflexivity|]. eapply Hok. vm_compute. reflexivity.
Defined.
