(* ===== verification/Unique.v ===== *)
(** * Owners of C structures in C++ (nanoarrow.hpp)

    [nanoarrow::internal::Unique<T>] owns a structure of the C library: it is moved
    and never copied, and its destructor releases what it holds.  The overloads of
    [init_pointer], [move_pointer] and [release_pointer] are the instances of a class;
    the six structures are instances.  A program that uses owners is a sequence of
    operations on objects, some of which are owners and some structures of a caller.
    [EmptyArrayStream] and [VectorArrayStream] are array streams as C++ classes; the
    library's own basic stream gives the same arrays. *)

From stdpp Require Import base numbers list option.
From S2P Require Import Prelude CInt Buffer Bitmap Types Schema SchemaView ArrayView Array Stream Cpp Device.
#[local] Open Scope Z_scope.
#[local] Open Scope c_scope.

(** ** The structures

    [move_pointer(src, dst)] gives the destination and the source afterwards.
    [release_pointer] gives the resources whose release it runs, none when the object
    was never written. *)
Class Managed (T R : Type) : Type := {
  init_pointer : T;
  move_pointer : T → T * T;
  release_pointer : T → option (list R * T);
}.
(** What an object holds, and which objects can be released. *)
Class Holds (T R : Type) `{!Managed T R} : Type := {
  held : T → list R;
  valid : T → Prop;
  init_valid : valid init_pointer;
  init_held : held init_pointer = [];
  move_dst a : (move_pointer a).1 = a;
  move_src a : valid a → valid (move_pointer a).2;
  move_held a : held (move_pointer a).2 = [];
  release_held a : valid a → ∃ b, release_pointer a = Some (held a, b) ∧ valid b ∧ held b = [];
}.

#[global] Instance managed_schema : Managed ArrowSchema ArrowSchema := {|
  init_pointer := SchemaReleased;
  move_pointer := ArrowSchemaMove;
  release_pointer s := Some (match s with SchemaReleased => [] | _ => [s] end, SchemaReleased);
|}.
#[global] Instance managed_array : Managed ArrowArray ArrowArray := {|
  init_pointer := ArrayReleased;
  move_pointer := ArrowArrayMove;
  release_pointer a := Some (match a with ArrayReleased => [] | _ => [a] end, ArrayReleased);
|}.
#[global] Instance managed_stream : Managed ArrowArrayStream (ArrowSchema + ArrowArray) := {|
  init_pointer := StreamReleased;
  move_pointer := ArrowArrayStreamMove;
  release_pointer s :=
    match s with
    | StreamReleased => Some ([], StreamReleased)
    | _ => match ArrowBasicArrayStreamRelease (Some s) ([], Some s) with
           | Ok _ (log, Some s') => Some (log, s')
           | _ => None
           end
    end;
|}.
#[global] Instance managed_buffer : Managed ArrowBuffer (free_fn * Z) := {|
  init_pointer := ArrowBufferInit;
  move_pointer := ArrowBufferMove;
  release_pointer b := Some (option_list (ArrowBufferReset_frees b), ArrowBufferReset b);
|}.
#[global] Instance managed_bitmap : Managed ArrowBitmap (free_fn * Z) := {|
  init_pointer := ArrowBitmapInit;
  move_pointer := ArrowBitmapMove;
  release_pointer b := Some (option_list (ArrowBufferReset_frees (buffer b)), ArrowBitmapReset b);
|}.
(** The blocks of a view are those of its children, of its dictionary and of its map
    of type ids. *)
Definition view_blocks (v : ArrowArrayView) : list ArrowArrayView :=
  match view_children v, view_dictionary v, union_type_id_map v with
  | None, None, None => []
  | _, _, _ => [v]
  end.
#[global] Instance managed_view : Managed ArrowArrayView ArrowArrayView := {|
  init_pointer := ArrowArrayViewInitFromType NANOARROW_TYPE_UNINITIALIZED;
  move_pointer := ArrowArrayViewMove;
  release_pointer v := Some (view_blocks v, ArrowArrayViewReset v);
|}.

#[global] Instance holds_schema : Holds ArrowSchema ArrowSchema.
Proof.
  refine {| held s := match s with SchemaReleased => [] | _ => [s] end; valid _ := True |}; try done.
  intros a _. by eexists.
Defined.
#[global] Instance holds_array : Holds ArrowArray ArrowArray.
Proof.
  refine {| held a := match a with ArrayReleased => [] | _ => [a] end; valid _ := True |}; try done.
  intros a _. by eexists.
Defined.
#[global] Instance holds_buffer : Holds ArrowBuffer (free_fn * Z).
Proof.
  refine {| held b := option_list (ArrowBufferReset_frees b); valid _ := True |}; try done.
  intros a _. by eexists.
Defined.
#[global] Instance holds_bitmap : Holds ArrowBitmap (free_fn * Z).
Proof.
  refine {| held b := option_list (ArrowBufferReset_frees (buffer b)); valid _ := True |}; try done.
  - by intros [].
  - intros a _. by eexists.
Defined.
#[global] Instance holds_view : Holds ArrowArrayView ArrowArrayView.
Proof.
  refine {| held := view_blocks; valid _ := True |}; try done. intros a _. by eexists.
Defined.
(** What a basic stream holds: its schema and the arrays not given away.  One can be
    released when it has the arrays it counts. *)
Definition stream_blocks (p : BasicArrayStreamPrivate) : option (list ArrowArray) :=
  if 0 <? n_arrays p then l ← arrays p; zslice l 0 (n_arrays p) else Some [].
Definition stream_held (s : ArrowArrayStream) : list (ArrowSchema + ArrowArray) :=
  match s with
  | StreamLive p => log_schema (stream_schema p) ++ concat (log_array <$> default [] (stream_blocks p))
  | _ => []
  end.
#[global] Instance holds_stream : Holds ArrowArrayStream (ArrowSchema + ArrowArray).
Proof.
  refine {| held := stream_held;
    valid s := match s with
               | StreamUninitialized => False
               | StreamReleased => True
               | StreamLive p => is_Some (stream_blocks p)
               end |}; try done.
  intros [| |p] Hv; [done|by eexists|]. destruct Hv as [l Hl]. exists StreamReleased. split; [|done].
  cbn. rewrite Hl. unfold stream_blocks in Hl. by rewrite Hl.
Defined.

(** ** Programs with owners

    An object is [Unique<T>] or a structure of the caller ([is_unique] false); a
    destroyed one is [None].  The state has all the objects and what was released. *)
Section owners.
Context {T R : Type} `{!Managed T R}.

Record cell := MkCell { is_unique : bool; object : T }.
Record store := MkStore { cells : list (option cell); released : list R }.

(** [Unique()], [Unique(T* data)] (and [Unique(Unique&& rhs)], which is it on
    [rhs.get()]), [reset()], [reset(T* data)], [move(T* out)], [~Unique()]. *)
Inductive unique_op : Type :=
  | UniqueDefault
  | UniqueFrom (data : nat)
  | UniqueReset (u : nat)
  | UniqueResetTo (u data : nat)
  | UniqueMove (u out : nat)
  | UniqueDestroy (u : nat).

Definition cell_at (i : nat) : M store cell := λ s,
  match cells s !! i with Some (Some c) => Ok c s | _ => UB end.
Definition unique_at (i : nat) : M store T :=
  let* c := cell_at i in if is_unique c then mret_ (object c) else mundef.
Definition put_object (i : nat) (a : T) : M store unit :=
  let* c := cell_at i in
  mmod (λ s, MkStore (<[i := Some (MkCell (is_unique c) a)]> (cells s)) (released s)).
Definition new_unique (a : T) : M store unit :=
  mmod (λ s, MkStore (cells s ++ [Some (MkCell true a)]) (released s)).

(** [move_pointer(src, dst)] on two objects, which may be the same. *)
Definition move_object (src dst : nat) : M store unit :=
  let* c := cell_at src in
  let '(d, s) := move_pointer (object c) in
  put_object dst d ;;; put_object src s.
Definition unique_reset (u : nat) : M store unit :=
  let* a := unique_at u in
  let* r := deref (release_pointer a) in
  mmod (λ s, MkStore (cells s) (released s ++ r.1)) ;;; put_object u r.2.

Definition run_unique (op : unique_op) : M store unit :=
  match op with
  | UniqueDefault => new_unique init_pointer
  | UniqueFrom data =>
      let* c := cell_at data in
      let '(d, s) := move_pointer (object c) in
      put_object data s ;;; new_unique d
  | UniqueReset u => unique_reset u
  | UniqueResetTo u data => unique_reset u ;;; move_object data u
  | UniqueMove u out => unique_at u ;;; move_object u out
  | UniqueDestroy u =>
      unique_reset u ;;; mmod (λ s, MkStore (<[u := None]> (cells s)) (released s))
  end.
Definition run_ops (ops : list unique_op) : M store unit := mfor ops run_unique.

(** The destructors of the owners that are left at the end of their scope, the last
    made first. *)
Definition owners (l : list (option cell)) : list nat :=
  filter (λ i, Is_true (match l !! i with Some (Some c) => is_unique c | _ => false end)) (seq 0 (List.length l)).
Definition unwind : M store unit := λ s,
  run_ops (UniqueDestroy <$> reverse (owners (cells s))) s.
End owners.

(** ** Nothing is lost and nothing is released twice *)
Section conservation.
Context {T R : Type} `{!Managed T R} `{!Holds T R}.
Implicit Types (s : @store T R) (l : list (option (@cell T))).

Definition cell_held (c : option (@cell T)) : list R := default [] ((λ c, held (object c)) <$> c).
Definition all_held s : list R := concat (cell_held <$> cells s).
Definition object_held s (i : nat) : list R := default [] (cell_held <$> cells s !! i).
(** What [move(T* out)] writes over: whatever the target holds, or everything when an
    owner is moved into itself. *)
Definition lost (op : unique_op) s : list R :=
  match op with UniqueMove _ out => object_held s out | _ => [] end.
Fixpoint all_lost (ops : list unique_op) s : list R :=
  match ops with
  | [] => []
  | op :: ops' =>
      lost op s ++ match run_unique op s with Ok _ s' => all_lost ops' s' | _ => [] end
  end.

Definition is_cell s (i : nat) : Prop := ∃ c, cells s !! i = Some (Some c).
Definition is_owner s (i : nat) : Prop := ∃ a, cells s !! i = Some (Some (MkCell true a)).
(** The objects an operation names exist, and it is called on owners. *)
Definition live (op : unique_op) s : Prop :=
  match op with
  | UniqueDefault => True
  | UniqueFrom data => is_cell s data
  | UniqueReset u | UniqueDestroy u => is_owner s u
  | UniqueResetTo u x | UniqueMove u x => is_owner s u ∧ is_cell s x
  end.
Definition store_ok s : Prop := ∀ i c, cells s !! i = Some (Some c) → valid (object c).

Lemma held_insert l i c c' :
  l !! i = Some c → concat (cell_held <$> <[i := c']> l) ++ cell_held c ≡ₚ concat (cell_held <$> l) ++ cell_held c'.
Proof.
  intros Hi. pose proof (lookup_lt_Some _ _ _ Hi). rewrite <-(take_drop_middle _ _ _ Hi) at 2.
  rewrite insert_take_drop by done. rewrite !fmap_app, !fmap_cons, !concat_app. cbn [concat]. solve_Permutation.
Qed.
Lemma held_insert_all s i c c' :
  cells s !! i = Some c →
  all_held (MkStore (<[i := c']> (cells s)) (released s)) ++ cell_held c ≡ₚ all_held s ++ cell_held c'.
Proof. apply held_insert. Qed.
Lemma store_ok_insert s i r c :
  store_ok s → valid (object c) → store_ok (MkStore (<[i := Some c]> (cells s)) r).
Proof.
  intros Hs Hc j c'. cbn. intros [(<- & [= <-] & _)|[_ Hj]]%list_lookup_insert_Some; [done|by eapply Hs].
Qed.

Lemma put_object_eq s i c a :
  cells s !! i = Some (Some c) →
  put_object i a s = Ok tt (MkStore (<[i := Some (MkCell (is_unique c) a)]> (cells s)) (released s)).
Proof. intros Hi. unfold put_object, mbind_, cell_at. by rewrite Hi. Qed.
Lemma unique_reset_eq s u a :
  store_ok s → cells s !! u = Some (Some (MkCell true a)) →
  ∃ b, unique_reset u s = Ok tt (MkStore (<[u := Some (MkCell true b)]> (cells s)) (released s ++ held a)) ∧
    valid b ∧ held b = [].
Proof.
  intros Hs Hu. destruct (release_held a) as (b & Hb & Hv & Hh); [by apply (Hs _ _ Hu)|]. exists b.
  split; [|done]. unfold unique_reset, unique_at, cell_at, mbind_. rewrite Hu. cbn. rewrite Hb. cbn.
  by erewrite put_object_eq by done.
Qed.
Lemma move_object_eq s i j c c' :
  cells s !! i = Some (Some c) → cells s !! j = Some (Some c') →
  move_object i j s = Ok tt (MkStore (<[i := Some (MkCell (is_unique c) (move_pointer (object c)).2)]>
    (<[j := Some (MkCell (is_unique c') (object c))]> (cells s))) (released s)).
Proof.
  intros Hi Hj. unfold move_object, mbind_, cell_at. rewrite Hi. pose proof (move_dst (object c)) as Hd.
  destruct (move_pointer (object c)) as [d x]. cbn in Hd. subst d. cbn. erewrite put_object_eq by done.
  destruct (decide (i = j)) as [->|Hij].
  - rewrite Hi in Hj. simplify_eq. erewrite put_object_eq; [done|].
    cbn [cells]. rewrite list_lookup_insert_eq by (by eapply lookup_lt_Some). by destruct c'.
  - erewrite put_object_eq; [done|]. cbn [cells]. by rewrite list_lookup_insert_ne by done.
Qed.

(** What an operation does when the objects it names are there. *)
Definition conserves s (x : list R) (o : outcome (@store T R) unit) : Prop :=
  ∃ s', o = Ok tt s' ∧ store_ok s' ∧ released s' ++ all_held s' ++ x ≡ₚ released s ++ all_held s.

Lemma reset_conserves s u : store_ok s → is_owner s u → conserves s [] (unique_reset u s).
Proof.
  intros Hs [a Hu]. destruct (unique_reset_eq s u a Hs Hu) as (b & -> & Hv & Hh). eexists. split; [done|].
  split; [by apply store_ok_insert|]. cbn [released].
  pose proof (held_insert_all s u _ (Some (MkCell true b)) Hu) as Hp. cbn in Hp. rewrite Hh, app_nil_r in Hp.
  rewrite <-Hp. unfold all_held. cbn. solve_Permutation.
Qed.
Lemma move_conserves s i j :
  store_ok s → is_cell s i → is_cell s j → conserves s (object_held s j) (move_object i j s).
Proof.
  intros Hs [c Hi] [c' Hj]. erewrite move_object_eq by done. eexists. split; [done|].
  pose proof (Hs _ _ Hi) as Hv. split.
  { apply (store_ok_insert (MkStore (<[j := _]> (cells s)) (released s))); [|by apply move_src].
    by apply store_ok_insert. }
  cbn [released]. set (s1 := MkStore (<[j := Some (MkCell (is_unique c') (object c))]> (cells s)) (released s)).
  pose proof (held_insert_all s j _ (Some (MkCell (is_unique c') (object c))) Hj) as Hp1.
  assert (∃ c1, cells s1 !! i = Some (Some c1) ∧ held (object c1) = held (object c)) as (c1 & Hi1 & Hc1).
  { destruct (decide (i = j)) as [->|Hij].
    - exists (MkCell (is_unique c') (object c)). split; [|done]. unfold s1. cbn [cells].
      by rewrite list_lookup_insert_eq by (by eapply lookup_lt_Some).
    - exists c. split; [|done]. unfold s1. cbn [cells]. by rewrite list_lookup_insert_ne by done. }
  pose proof (held_insert_all s1 i _ (Some (MkCell (is_unique c) (move_pointer (object c)).2)) Hi1) as Hp2.
  cbn in Hp1, Hp2. rewrite move_held, Hc1, app_nil_r in Hp2. fold s1 in Hp1.
  unfold object_held. rewrite Hj. cbn. apply Permutation_app_head.
  apply (Permutation_app_inv_r (held (object c))). rewrite <-Hp1, <-Hp2. unfold all_held. cbn [cells]. solve_Permutation.
Qed.
Lemma new_conserves s a :
  store_ok s → valid a →
  ∃ s', new_unique a s = Ok tt s' ∧ store_ok s' ∧ released s' ++ all_held s' ≡ₚ (released s ++ all_held s) ++ held a.
Proof.
  intros Hs Ha. eexists. split; [done|]. split.
  - intros i c. cbn [cells]. intros [Hi|[_ Hi]]%lookup_app_Some; [by eapply Hs|].
    apply list_lookup_singleton_Some in Hi as [_ [= <-]]. done.
  - unfold all_held. cbn [cells released]. rewrite fmap_app, concat_app. cbn. rewrite app_nil_r. solve_Permutation.
Qed.

Lemma run_unique_conserves s op : store_ok s → live op s → conserves s (lost op s) (run_unique op s).
Proof.
  intros Hs Hl. destruct op as [|i|u|u i|u i|u]; cbn [run_unique lost].
  - destruct (new_conserves s init_pointer) as (s' & -> & Hok & Hp); [done|apply init_valid|].
    exists s'. split; [done|]. split; [done|]. by rewrite app_nil_r, Hp, init_held, app_nil_r.
  - destruct Hl as [c Hi]. unfold mbind_ at 1, cell_at. rewrite Hi. pose proof (move_dst (object c)) as Hd.
    pose proof (move_src (object c) (Hs _ _ Hi)) as Hv. pose proof (move_held (object c)) as Hm.
    destruct (move_pointer (object c)) as [d x]. cbn in Hd, Hv, Hm. subst d. unfold mbind_.
    rewrite (put_object_eq _ _ _ _ Hi). pose proof (held_insert_all s i _ (Some (MkCell (is_unique c) x)) Hi) as Hp.
    edestruct new_conserves as (s' & -> & Hok & Hp'); [by apply store_ok_insert|by apply (Hs _ _ Hi)|].
    exists s'. split; [done|]. split; [done|]. cbn in Hp. rewrite Hm, app_nil_r in Hp.
    by rewrite app_nil_r, Hp', <-Hp, app_assoc.
  - by apply reset_conserves.
  - destruct Hl as [[a Hu] [c Hi]]. destruct (unique_reset_eq s u a Hs Hu) as (b & Hr & Hv & Hh).
    pose proof (reset_conserves s u Hs ltac:(by exists a)) as (s1 & Hr' & Hs1 & Hp). rewrite Hr in Hr'. simplify_eq.
    unfold mbind_. rewrite Hr. set (s1 := MkStore _ _) in *.
    assert (cells s1 !! u = Some (Some (MkCell true b))) as Hu1.
    { unfold s1. cbn [cells]. by rewrite list_lookup_insert_eq by (by eapply lookup_lt_Some). }
    assert (is_cell s1 i) as Hi1.
    { destruct (decide (u = i)) as [<-|Hui]; [by eexists|]. exists c. unfold s1. cbn [cells].
      by rewrite list_lookup_insert_ne. }
    destruct (move_conserves s1 i u Hs1 Hi1 ltac:(by eexists)) as (s2 & -> & Hs2 & Hp2). exists s2.
    split; [done|]. split; [done|]. rewrite app_nil_r, <-Hp, app_nil_r, <-Hp2. unfold object_held. rewrite Hu1. cbn.
    by rewrite Hh, app_nil_r.
  - destruct Hl as [[a Hu] Hi]. unfold unique_at, mbind_, cell_at. rewrite Hu. cbn -[move_object].
    apply move_conserves; [done|by eexists|done].
  - destruct Hl as [a Hu]. destruct (unique_reset_eq s u a Hs Hu) as (b & Hr & Hv & Hh).
    pose proof (reset_conserves s u Hs ltac:(by exists a)) as (s1 & Hr' & Hs1 & Hp). rewrite Hr in Hr'. simplify_eq.
    unfold mbind_. rewrite Hr. eexists. split; [done|]. set (s1 := MkStore _ _) in *.
    assert (cells s1 !! u = Some (Some (MkCell true b))) as Hu1.
    { unfold s1. cbn [cells]. by rewrite list_lookup_insert_eq by (by eapply lookup_lt_Some). }
    split.
    + intros j c. cbn [cells]. intros [(_ & ? & _)|[_ Hj]]%list_lookup_insert_Some; [done|by eapply Hs1].
    + rewrite app_nil_r in Hp |- *. rewrite <-Hp. pose proof (held_insert_all s1 u _ None Hu1) as Hp1.
      cbn in Hp1. rewrite Hh, !app_nil_r in Hp1. by apply Permutation_app_head.
Qed.
Lemma live_or_undefined s op : store_ok s → live op s ∨ run_unique op s = UB.
Proof.
  intros Hs.
  assert (∀ i, is_cell s i ∨ cell_at i s = UB) as Hcell.
  { intros i. unfold is_cell, cell_at. destruct (cells s !! i) as [[c|]|]; eauto. }
  assert (∀ u, is_owner s u ∨ unique_at u s = UB) as Hown.
  { intros u. unfold is_owner, unique_at, cell_at, mbind_.
    destruct (cells s !! u) as [[[[] a]|]|]; cbn; eauto. }
  assert (∀ u, is_owner s u ∨ unique_reset u s = UB) as Hres.
  { intros u. destruct (Hown u) as [?|Hu]; [by left|right]. unfold unique_reset, mbind_ at 1. by rewrite Hu. }
  destruct op as [|i|u|u i|u i|u]; cbn [run_unique live].
  - by left.
  - destruct (Hcell i) as [?|Hi]; [by left|right]. unfold mbind_ at 1. by rewrite Hi.
  - apply Hres.
  - destruct (Hres u) as [Hu|Hu]; [|right; unfold mbind_ at 1; by rewrite Hu].
    destruct (Hcell i) as [Hi|Hi]; [by left|right]. destruct Hu as [a Hu].
    destruct (unique_reset_eq s u a Hs Hu) as (b & Hr & _). unfold mbind_ at 1. rewrite Hr.
    unfold move_object, cell_at in Hi |- *. unfold mbind_ at 1. cbn [cells].
    rewrite list_lookup_insert_ne by (intros ->; by rewrite Hu in Hi). by destruct (cells s !! i) as [[]|].
  - destruct (Hown u) as [Hu|Hu]; [|right; unfold mbind_; by rewrite Hu].
    destruct (Hcell i) as [Hi|Hi]; [by left|right]. destruct Hu as [a Hu].
    unfold unique_at, mbind_, cell_at in Hi |- *. rewrite Hu. cbn -[move_object]. unfold move_object, mbind_, cell_at.
    rewrite Hu. destruct (move_pointer _) as [d x]. unfold put_object, mbind_, cell_at.
    by destruct (cells s !! i) as [[]|].
  - destruct (Hres u) as [Hu|Hu]; [by left|right; unfold mbind_ at 1; by rewrite Hu].
Qed.

Lemma run_ops_conserves ops : ∀ s,
  store_ok s →
  match run_ops ops s with
  | Ok _ s' => store_ok s' ∧ released s' ++ all_held s' ++ all_lost ops s ≡ₚ released s ++ all_held s
  | Err _ _ => False
  | UB => ∃ pre op post s', ops = pre ++ op :: post ∧ run_ops pre s = Ok tt s' ∧ ¬ live op s'
  end.
Proof.
  induction ops as [|op ops IH]; intros s Hs; [cbn; by rewrite app_nil_r|].
  cbn [run_ops mfor all_lost]. change (mfor ops run_unique) with (run_ops (T:=T) (R:=R) ops). unfold mbind_.
  destruct (live_or_undefined s op Hs) as [Hl|Hu].
  - destruct (run_unique_conserves s op Hs Hl) as (s1 & Hr & Hs1 & Hp). rewrite Hr. specialize (IH s1 Hs1).
    destruct (run_ops ops s1) as [[] s2|e s2|]; [|done|].
    + destruct IH as [Hs2 Hp2]. split; [done|]. rewrite <-Hp, (app_assoc (released s1)), <-Hp2. solve_Permutation.
    + destruct IH as (pre & op' & post & s' & -> & Hpre & Hn). exists (op :: pre), op', post, s'.
      split; [done|]. split; [|done]. cbn. unfold mbind_. by rewrite Hr.
  - rewrite Hu. exists [], op, ops, s. split; [done|]. split; [done|]. intros Hl.
    by destruct (run_unique_conserves s op Hs Hl) as (? & ? & _); congruence.
Qed.

Lemma destroy_eq s u : store_ok s → is_owner s u →
  ∃ s', run_unique (UniqueDestroy u) s = Ok tt s' ∧ store_ok s' ∧ cells s' = <[u := None]> (cells s) ∧
    released s' ++ all_held s' ≡ₚ released s ++ all_held s.
Proof.
  intros Hs Hu. destruct (run_unique_conserves s (UniqueDestroy u) Hs Hu) as (s' & Hr & Hs' & Hp). exists s'.
  split; [done|]. split; [done|]. cbn [lost] in Hp. rewrite app_nil_r in Hp. split; [|done].
  destruct Hu as [a Hu]. destruct (unique_reset_eq s u a Hs Hu) as (b & Hb & _). cbn [run_unique] in Hr.
  unfold mbind_ in Hr. rewrite Hb in Hr. unfold mmod in Hr. simplify_eq. cbn [cells]. by rewrite list_insert_insert_eq.
Qed.
Lemma destroy_all us : ∀ s,
  NoDup us → (∀ u, u ∈ us → is_owner s u) → store_ok s →
  ∃ s', run_ops (UniqueDestroy <$> us) s = Ok tt s' ∧ released s' ++ all_held s' ≡ₚ released s ++ all_held s ∧
    (∀ i, is_owner s' i → (i ∉ us) ∧ is_owner s i).
Proof.
  induction us as [|u us IH]; intros s Hnd Hus Hs.
  { exists s. split; [done|]. split; [done|]. intros i Hi. split; [by intros ?%elem_of_nil|done]. }
  inversion Hnd as [|? ? Hni Hnd']; subst; clear Hnd; rename Hnd' into Hnd. destruct (destroy_eq s u Hs) as (s1 & Hr & Hs1 & Hc & Hp); [apply Hus; by left|].
  assert (∀ i, is_owner s1 i ↔ u ≠ i ∧ is_owner s i) as Hiff.
  { intros i. unfold is_owner. rewrite Hc. split.
    - intros [a [(_ & ? & _)|[? Hi]]%list_lookup_insert_Some]; [done|]. split; [done|by exists a].
    - intros [? [a Hi]]. exists a. by rewrite list_lookup_insert_ne. }
  destruct (IH s1 Hnd) as (s2 & Hr2 & Hp2 & Ho2); [|done|exists s2].
  { intros i Hi. apply Hiff. split; [by intros ->|]. apply Hus. by right. }
  split; [unfold run_ops in *; cbn [fmap list_fmap mfor]; unfold mbind_; by rewrite Hr|].
  split; [by rewrite Hp2|]. intros i Hi. destruct (Ho2 i Hi) as [Hni' Hi1]. apply Hiff in Hi1 as [Hui Hi1].
  split; [|done]. by intros [->|?]%elem_of_cons.
Qed.

Lemma owners_spec s u : u ∈ owners (cells s) ↔ is_owner s u.
Proof.
  unfold owners, is_owner. rewrite list_elem_of_filter, elem_of_seq. split.
  - intros [Hu _]. destruct (cells s !! u) as [[[b a]|]|]; [|done|done]. destruct b; [|done]. by exists a.
  - intros [a Hu]. pose proof (lookup_lt_Some _ _ _ Hu). rewrite Hu. split; [done|lia].
Qed.
Lemma unwind_spec s : store_ok s →
  ∃ s', unwind s = Ok tt s' ∧ released s' ++ all_held s' ≡ₚ released s ++ all_held s ∧ (∀ i, ¬ is_owner s' i).
Proof.
  intros Hs. unfold unwind.
  destruct (destroy_all (reverse (owners (cells s))) s) as (s' & Hr & Hp & Ho); [|by intros u; rewrite elem_of_reverse, owners_spec|done|].
  { rewrite reverse_Permutation. apply list.NoDup_filter, list.NoDup_seq. }
  exists s'. split; [done|]. split; [done|]. intros i Hi. destruct (Ho i Hi) as [Hni Hi'].
  by rewrite elem_of_reverse, owners_spec in Hni.
Qed.
End conservation.

(** A scope: objects of the caller, and no owner. *)
Definition scope_of {T R} (l : list T) : @store T R := MkStore ((λ a, Some (MkCell false a)) <$> l) [].

(** C16.  Owners release what they are given exactly once.  However a scope that starts
    with objects of the caller makes owners, moves and resets them and destroys them,
    when it ends and the owners left are destroyed, then what was released, what the
    objects of the caller still hold and what [move(T* out)] wrote over are together
    what the objects held at the start, each resource as often as it was there.  Only
    an operation on an object that does not exist is undefined. *)
Theorem owners_release_once {T R} `{!Managed T R} `{!Holds T R} (l : list T) (ops : list unique_op)
    (Hl : Forall valid l) :
  match run_ops ops (scope_of l) with
  | Ok _ s =>
      ∃ s', unwind s = Ok tt s' ∧ (∀ i, ¬ is_owner s' i) ∧
        released s' ++ all_held s' ++ all_lost ops (scope_of l) ≡ₚ concat (held <$> l)
  | Err _ _ => False
  | UB => ∃ pre op post s, ops = pre ++ op :: post ∧ run_ops pre (scope_of l) = Ok tt s ∧ ¬ live op s
  end.
Proof.
  assert (store_ok (scope_of l)) as Hok.
  { intros i c. unfold scope_of. cbn [cells]. rewrite list_lookup_fmap. rewrite Forall_lookup in Hl.
    destruct (l !! i) eqn:Hi; [|done]. intros [= <-]. by apply (Hl i). }
  pose proof (run_ops_conserves ops _ Hok) as H. destruct (run_ops ops (scope_of l)) as [[] s|e s|]; [|done..].
  destruct H as [Hs Hp]. destruct (unwind_spec s Hs) as (s' & Hu & Hp' & Ho). exists s'.
  split; [done|]. split; [done|]. rewrite app_assoc, Hp', <-app_assoc, Hp. unfold scope_of, all_held. cbn.
  by rewrite <-list_fmap_compose.
Qed.
(** Three arrays of the caller: the first is moved into an owner, which is then moved
    to another one and reset to the second array; the owner of the third is moved over
    the second owner, which loses the first array. *)
Lemma owners_release_once_witness :
  let a n := ArrayLive (MkArray n 0 0 0 0 [] None None None) in
  ∃ s s', run_ops [UniqueFrom 0; UniqueFrom 3; UniqueResetTo 3 1; UniqueFrom 2; UniqueMove 5 4]
            (scope_of [a 1; a 2; a 3]) = Ok tt s ∧
    unwind s = Ok tt s' ∧ released s' = [a 3; a 2] ∧
    released s' ++ all_held s' ++ [a 1] ≡ₚ concat (held <$> [a 1; a 2; a 3]).
Proof.
  pose proof (owners_release_once (R := ArrowArray) [ArrayLive (MkArray 1 0 0 0 0 [] None None None);
    ArrayLive (MkArray 2 0 0 0 0 [] None None None); ArrayLive (MkArray 3 0 0 0 0 [] None None None)]
    [UniqueFrom 0; UniqueFrom 3; UniqueResetTo 3 1; UniqueFrom 2; UniqueMove 5 4]
    ltac:(repeat constructor)) as H.
  vm_compute in H. destruct H as (s' & Hu & _ & Hp). eexists _, s'. split; [reflexivity|].
  vm_compute in Hu. split; [exact Hu|]. split; [by injection Hu as <-|]. exact Hp.
Defined.

(** ** Array streams as classes

    The two classes; the derived one has the base as its first member, and the virtual
    functions dispatch on which of them the object is. *)
Record EmptyArrayStream := MkEmptyStream {
  schema_ : ArrowSchema;
  error_ : list Z;         (* up to its zero byte *)
}.
Record VectorArrayStream := MkVectorStream {
  vector_base : EmptyArrayStream;
  arrays_ : list ArrowArray;
  offset_ : Z;
}.
Inductive stream_object :=
  | IsEmptyArrayStream (e : EmptyArrayStream)
  | IsVectorArrayStream (v : VectorArrayStream).
Definition base_of (o : stream_object) : EmptyArrayStream :=
  match o with IsEmptyArrayStream e => e | IsVectorArrayStream v => vector_base v end.

(** An [ArrowArrayStream] that [MakeStream] filled, with its object as private data;
    or a released one. *)
Inductive object_stream :=
  | ObjectStreamReleased
  | ObjectStream (o : stream_object).
Definition ObjectStreamMove (src : object_stream) : object_stream * object_stream := (src, ObjectStreamReleased).

(** The wrappers.  A stream that was released has no object. *)
Definition get_schema_wrapper `{!Malloc} (stream : object_stream) : M (mstate * ArrowSchema) unit :=
  match stream with
  | ObjectStreamReleased => mundef
  | ObjectStream o => ArrowSchemaDeepCopy (schema_ (base_of o))
  end.
Definition VectorArrayStream_get_next : M VectorArrayStream ArrowArray := λ v,
  if offset_ v <? zlen (arrays_ v) then
    match znth (arrays_ v) (offset_ v) with
    | None => UB
    | Some a =>
        let '(array, src) := ArrowArrayMove a in
        Ok array (MkVectorStream (vector_base v) (<[Z.to_nat (offset_ v) := src]> (arrays_ v)) (i64 (offset_ v + 1)))
    end
  else Ok ArrayReleased v.
Definition get_next_wrapper : M object_stream ArrowArray := λ stream,
  match stream with
  | ObjectStreamReleased => UB
  | ObjectStream (IsEmptyArrayStream e) => Ok ArrayReleased stream
  | ObjectStream (IsVectorArrayStream v) =>
      match VectorArrayStream_get_next v with
      | Ok a v' => Ok a (ObjectStream (IsVectorArrayStream v'))
      | Err e v' => Err e (ObjectStream (IsVectorArrayStream v'))
      | UB => UB
      end
  end.
Definition get_last_error_wrapper (stream : object_stream) : option (list Z) :=
  match stream with ObjectStreamReleased => None | ObjectStream o => Some (error_ (base_of o)) end.
(** [delete]: the members are destroyed, the last declared first. *)
Definition release_wrapper : M (list (ArrowSchema + ArrowArray) * object_stream) unit := λ '(log, stream),
  match stream with
  | ObjectStreamReleased => Ok tt (log, ObjectStreamReleased)
  | ObjectStream o =>
      let arrays := match o with IsEmptyArrayStream _ => [] | IsVectorArrayStream v => arrays_ v end in
      Ok tt (log ++ concat (log_array <$> arrays) ++ log_schema (schema_ (base_of o)), ObjectStreamReleased)
  end.

(** [MakeUnique]: the result is the stream that the owner holds, the state the objects
    of the caller whose resources it takes. *)
Section make_unique.
Context `{!Malloc}.
#[local] Open Scope cpp_scope.

(** [operator new] *)
Definition cnew {S} (n : Z) : CM (mstate * S) unit := λ s,
  match ArrowMalloc n s with
  | Ok true s' => Done tt s'
  | Ok false s' => Throw bad_alloc s'
  | _ => Undefined
  end.
Definition sizeof_EmptyArrayStream : Z := 1104.
Definition sizeof_VectorArrayStream : Z := 1136.
(** The constructor [EmptyArrayStream(schema)], and the schema of the caller after it. *)
Definition new_EmptyArrayStream (schema : ArrowSchema) : EmptyArrayStream * ArrowSchema :=
  let '(data_, src) := ArrowSchemaMove schema in (MkEmptyStream data_ [], src).
Definition EmptyArrayStream_MakeUnique : CM (mstate * ArrowSchema) object_stream :=
  cnew sizeof_EmptyArrayStream ;;!
  (λ '(a, schema), let '(e, src) := new_EmptyArrayStream schema in
     Done (ObjectStreamMove (ObjectStream (IsEmptyArrayStream e))).1 (a, src)).
(** The arrays are an argument by value: they are in the object, or destroyed when the
    function throws.  The state has what was released and the schema. *)
Definition VectorArrayStream_MakeUnique_arrays (arrays : list ArrowArray) :
    CM (mstate * (list (ArrowSchema + ArrowArray) * ArrowSchema)) object_stream := λ s,
  match cnew sizeof_VectorArrayStream s with
  | Done _ (a, (log, schema)) =>
      let '(e, src) := new_EmptyArrayStream schema in
      Done (ObjectStreamMove (ObjectStream (IsVectorArrayStream (MkVectorStream e arrays 0)))).1 (a, (log, src))
  | Throw x (a, (log, schema)) => Throw x (a, (log ++ concat (log_array <$> arrays), schema))
  | Return p s' => Return p s'
  | Undefined => Undefined
  end.
(** With one array: the state has the array of the caller too. *)
Definition VectorArrayStream_MakeUnique :
    CM (mstate * (list (ArrowSchema + ArrowArray) * ArrowSchema * ArrowArray)) object_stream := λ s,
  match cnew sizeof_ArrowArray s with
  | Done _ (a, (log, schema, array)) =>
      let '(data_, src) := ArrowArrayMove array in
      match VectorArrayStream_MakeUnique_arrays [data_] (a, (log, schema)) with
      | Done o (a', (log', schema')) => Done o (a', (log', schema', src))
      | Throw x (a', (log', schema')) => Throw x (a', (log', schema', src))
      | Return p (a', (log', schema')) => Return p (a', (log', schema', src))
      | Undefined => Undefined
      end
  | Return p s' => Return p s'
  | Throw x s' => Throw x s'
  | Undefined => Undefined
  end.
End make_unique.

(** ** The same arrays as the stream of the library *)

Section same_arrays.
Context `{!Malloc}.

#[global] Instance object_naive_stream : NaiveStream (list (ArrowSchema + ArrowArray) * object_stream) := {|
  naive_get_schema s := get_schema_wrapper s.2;
  naive_get_next := zoom snd (λ t s, (s.1, t)) get_next_wrapper;
  naive_get_last_error s := get_last_error_wrapper s.2;
  naive_release := release_wrapper;
  naive_moved s := ([], (ObjectStreamMove s.2).2);
|}.

(** Two streams are simulated by a relation when related streams give the same array
    and stay related, have the same schema, and release the same objects. *)
Record simulates {T U} `{!NaiveStream T} `{!NaiveStream U} (P : T → U → Prop)
    (logs : T → list (ArrowSchema + ArrowArray)) (logs' : U → list (ArrowSchema + ArrowArray)) : Prop := {
  sim_next t u : P t u →
    ∃ a t' u', naive_get_next t = Ok a t' ∧ naive_get_next u = Ok a u' ∧ P t' u';
  sim_schema t u : P t u → naive_get_schema t = naive_get_schema u;
  sim_release t u : P t u →
    ∃ t' u', naive_release t = Ok tt t' ∧ naive_release u = Ok tt u' ∧ logs t' ≡ₚ logs' u';
}.
Lemma simulates_times {T U} `{!NaiveStream T} `{!NaiveStream U} (P : T → U → Prop) logs logs' k :
  simulates P logs logs' → ∀ t u, P t u →
  ∃ l t' u', naive_times k t = Ok l t' ∧ naive_times k u = Ok l u' ∧ P t' u'.
Proof.
  intros HP. induction k as [|k IH]; intros t u Htu; [by exists [], t, u|].
  destruct (sim_next _ _ _ HP t u Htu) as (a & t1 & u1 & Ht & Hu & H1).
  destruct (IH t1 u1 H1) as (l & t2 & u2 & Ht2 & Hu2 & H2). exists (a :: l), t2, u2.
  cbn [naive_times]. by rewrite Ht, Hu, Ht2, Hu2.
Qed.

(** A vector stream once the first [i] of the arrays were given away. *)
Definition vector_after (schema : ArrowSchema) (error : list Z) (l : list ArrowArray) (i : nat) : object_stream :=
  ObjectStream (IsVectorArrayStream (MkVectorStream (MkEmptyStream schema error)
    (replicate i ArrayReleased ++ drop i l) (Z.of_nat i))).
Lemma given_away_length (l : list ArrowArray) i :
  (i <= List.length l)%nat → zlen (replicate i ArrayReleased ++ drop i l) = zlen l.
Proof. intros Hi. rewrite zlen_app. unfold zlen. rewrite length_replicate, length_drop. lia. Qed.
Lemma vector_step schema error l i a :
  l !! i = Some a → zlen l <= INT64_MAX →
  get_next_wrapper (vector_after schema error l i) = Ok a (vector_after schema error l (S i)).
Proof.
  intros Hi Hmax. pose proof (lookup_lt_Some _ _ _ Hi) as Hlt.
  unfold get_next_wrapper, VectorArrayStream_get_next, vector_after. cbn [arrays_ offset_ vector_base].
  rewrite given_away_length by lia. rewrite (proj2 (Z.ltb_lt _ _)) by (unfold zlen; lia).
  rewrite znth_lookup, Nat2Z.id by lia. rewrite lookup_app_r, length_replicate by (rewrite length_replicate; lia).
  rewrite lookup_drop, Nat.sub_diag, Nat.add_0_r, Hi. cbn. do 4 f_equal.
  - rewrite insert_app_r_alt, length_replicate, Nat.sub_diag by (rewrite length_replicate; lia).
    rewrite (drop_S _ _ _ Hi), app_comm_cons, replicate_cons_app, <-app_assoc. done.
  - unfold zlen in Hmax. rewrite i64_small by width. lia.
Qed.
Lemma vector_end schema error l :
  get_next_wrapper (vector_after schema error l (List.length l)) =
    Ok ArrayReleased (vector_after schema error l (List.length l)).
Proof.
  unfold get_next_wrapper, VectorArrayStream_get_next, vector_after. cbn [arrays_ offset_].
  rewrite given_away_length by lia. by rewrite (proj2 (Z.ltb_ge _ _)) by (unfold zlen; lia).
Qed.

Definition same_arrays (t u : list (ArrowSchema + ArrowArray) * _) : Prop :=
  ∃ schema error l i, (i <= List.length l)%nat ∧ zlen l <= INT64_MAX ∧
    t = ([], stream_after schema l i) ∧ u = ([], vector_after schema error l i).
Lemma vector_simulates : simulates same_arrays fst fst.
Proof.
  split; intros t u (schema & error & l & i & Hi & Hmax & -> & ->).
  - destruct (l !! i) as [a|] eqn:Ha.
    + exists a, ([], stream_after schema l (S i)), ([], vector_after schema error l (S i)).
      split; [|split].
      * cbn. unfold zoom. cbn [snd fst]. by rewrite (get_next_step schema l i a).
      * cbn. unfold zoom. cbn [snd fst]. by rewrite (vector_step schema error l i a).
      * pose proof (lookup_lt_Some _ _ _ Ha). exists schema, error, l, (S i). split; [lia|done].
    + apply lookup_ge_None in Ha. assert (i = List.length l) as -> by lia. eexists ArrayReleased, _, _.
      split; [cbn; unfold zoom; cbn [snd fst]; by rewrite get_next_end|].
      split; [cbn; unfold zoom; cbn [snd fst]; by rewrite vector_end|]. by exists schema, error, l, (List.length l).
  - done.
  - eexists _, _. split; [|split].
    + cbn [naive_release basic_stream]. rewrite release_after by done. reflexivity.
    + reflexivity.
    + cbn. rewrite fmap_app, concat_app.
      assert (∀ j, concat (log_array <$> replicate j ArrayReleased) = []) as Hrep.
      { induction j as [|j IH]; [done|]. by rewrite replicate_S, fmap_cons. }
      rewrite Hrep. cbn. solve_Permutation.
Qed.

(** The stream that [MakeUnique] gives, when there is memory: from then on any number of
    calls give the arrays that the basic stream over the same schema and arrays gives;
    its schema is the same, and so is what is released at the end. *)
Theorem vector_stream_is_basic (schema : ArrowSchema) (l : list ArrowArray) (a : mstate) (k : nat)
    (Hmax : zlen l <= INT64_MAX) :
  match VectorArrayStream_MakeUnique_arrays l (a, ([], schema)) with
  | Done o (a', (log, src)) =>
      log = [] ∧ src = SchemaReleased ∧
      ∃ given t u t' u',
        naive_times k (([], stream_after schema l 0) : list (ArrowSchema + ArrowArray) * ArrowArrayStream) = Ok given t ∧
        naive_times k (([], o) : list (ArrowSchema + ArrowArray) * object_stream) = Ok given u ∧
        (∀ s, naive_get_schema t s = naive_get_schema u s) ∧
        naive_release t = Ok tt t' ∧ naive_release u = Ok tt u' ∧ t'.1 ≡ₚ u'.1
  | Throw x (a', (log, src)) => x = bad_alloc ∧ log = concat (log_array <$> l) ∧ src = schema
  | Return _ _ | Undefined => False
  end.
Proof.
  unfold VectorArrayStream_MakeUnique_arrays, cnew, ArrowMalloc. destruct (malloc_step _ a) as [[] a']; [|done].
  split; [done|]. split; [done|].
  destruct (simulates_times same_arrays fst fst k vector_simulates ([], stream_after schema l 0)
    ([], vector_after schema [] l 0)) as (given & t & u & Ht & Hu & Hsim).
  { exists schema, [], l, 0%nat. split; [lia|done]. }
  destruct (sim_release _ _ _ vector_simulates t u Hsim) as (t' & u' & Hrt & Hru & Hp).
  exists given, t, u, t', u'. split; [done|]. split; [by rewrite <-Hu; unfold vector_after; cbn; rewrite drop_0|].
  split; [by intros s; rewrite (sim_schema _ _ _ vector_simulates t u Hsim)|done].
Qed.
(** The empty stream has the schema and no array. *)
Theorem empty_stream_is_empty (schema : ArrowSchema) (a : mstate) (k : nat) :
  match EmptyArrayStream_MakeUnique (a, schema) with
  | Done o (a', src) =>
      src = SchemaReleased ∧
      naive_times k (([], o) : list (ArrowSchema + ArrowArray) * object_stream) = Ok (replicate k ArrayReleased) ([], o) ∧
      naive_release (([], o) : list (ArrowSchema + ArrowArray) * object_stream) = Ok tt (log_schema schema, ObjectStreamReleased)
  | Throw x (a', src) => x = bad_alloc ∧ src = schema
  | Return _ _ | Undefined => False
  end.
Proof.
  unfold EmptyArrayStream_MakeUnique, cnew, ArrowMalloc, cbind. destruct (malloc_step _ a) as [[] a']; [|done].
  split; [done|]. split; [|done]. induction k as [|k IH]; [done|]. cbn [naive_times]. cbn in IH |- *. by rewrite IH.
Qed.
End same_arrays.

(** The stream of the library and the vector stream with three arrays, both asked four
    times, over a device. *)
Example device_over_vector :
  let a n := ArrayLive (MkArray n 0 0 0 0 [] None None None) in
  let o := vector_after SchemaReleased [] [a 1; a 2; a 3] 0 in
  match @device_times malloc_budget _ (@object_naive_stream malloc_budget) 4
          (DeviceStreamLive 1 (@ArrowDeviceInitCpu (libc_limited 0)) ([], o)) device_array_zero with
  | Ok l _ => held_array <$> l
  | _ => []
  end = [a 1; a 2; a 3; ArrayReleased].
Proof. reflexivity. Qed.
