(* ===== verification/ErrorText.v ===== *)
(** * Error messages (nanoarrow.c)

    [ArrowErrorSet] formats a message into the 1024 bytes of an [ArrowError].  The file
    has the messages of [ArrowSchemaViewInit], which [SchemaView] leaves out and a
    printed schema contains, and shows that they are set exactly when it fails. *)

From Stdlib Require Import Ascii.
From stdpp Require Import base numbers list option strings.
From S2P Require Import Prelude CInt CString Buffer Types Metadata Schema SchemaView.
#[local] Open Scope Z_scope.
#[local] Open Scope c_scope.

(** ** Messages *)

(** [error->message], up to its zero byte; [None]: [error] is NULL.  [text] is what the
    format and its arguments make. *)
Definition ArrowErrorSet (text : list Z) : M (option (list Z)) unit := λ error,
  match error with
  | None => Ok tt None
  | Some _ =>
      let message := take 1023 text in
      if INT32_MAX <? zlen text then Err EINVAL (Some message)
      else if 1024 <=? zlen text then Err ERANGE (Some message)
      else Ok tt (Some message)
  end.
Definition ArrowErrorInit (error : option (list Z)) : option (list Z) := (λ _, []) <$> error.
Definition ArrowErrorMessage (error : option (list Z)) : list Z := default [] error.
(** The message after a call whose result is dropped. *)
Definition message_set (text : list Z) : list Z :=
  match ArrowErrorSet text (Some []) with
  | Ok _ e | Err _ e => ArrowErrorMessage e
  | UB => []
  end.

(** The conversions: ["%s"] and the literal parts, ["%d"] with a cast to [int], ["%ld"]. *)
Definition bs (s : string) : list Z := bytes_of_string s.
Definition dec (z : Z) : list Z := bs (print_int (i32 z)).
Definition ldec (z : Z) : list Z := bs (print_int (i64 z)).
Definition quoted (s : string) : list Z := bs "'" ++ bs s ++ bs "'".

(** Each of the following is the message a part of the parser sets when it fails. *)
Definition decimal_message (r : string) : option (list Z) :=
  match r with
  | String ":" (String _ _ as start) =>
      let '(_, rest) := strtol start in
      match bool_decide (rest = start), rest with
      | false, String "," start =>
          let '(_, rest) := strtol start in
          if bool_decide (rest = start) then Some (bs "Expected 'scale[,bitwidth]' following 'd:precision,'")
          else
            match rest with
            | String "," start =>
                let '(v, rest) := strtol start in
                if bool_decide (rest = start) then Some (bs "Expected precision following 'd:precision,scale,'")
                else if ((i32 v =? 128) || (i32 v =? 256))%Z then None
                else Some (bs "Expected decimal bitwidth of 128 or 256 but found " ++ dec (i32 v))
            | _ => None
            end
      | _, _ => Some (bs "Expected 'precision,scale[,bitwidth]' following 'd:'")
      end
  | _ => Some (bs "Expected ':precision,scale[,bitwidth]' following 'd'")
  end%char.
Definition union_format_message (format : string) : list Z :=
  bs "Expected union format string +us:<type_ids> or +ud:<type_ids> but found " ++ quoted format.
Definition union_message (n_children : Z) (format r : string) : option (list Z) :=
  match r with
  | String ":" ids =>
      '(n_type_ids, _) ← _ArrowParseUnionTypeIds ids None;
      if (n_type_ids =? n_children)%Z then None
      else Some (bs "Expected union type_ids parameter to be a comma-separated list of " ++ ldec n_children ++
                 bs " values between 0 and 127 but found " ++ quoted ids)
  | _ => Some (union_format_message format)
  end%char.
Definition nested_message (n_children : Z) (format r : string) : option (list Z) :=
  match r with
  | String "l" _ | String "L" _ | String "s" _ | String "m" _ => None
  | String "w" (String ":" (String _ _)) => None
  | String "w" _ => Some (bs "Expected ':<width>' following '+w'")
  | String "u" (String "d" r') | String "u" (String "s" r') => union_message n_children format r'
  | String "u" _ => Some (union_format_message format)
  | _ => Some (bs "Expected nested type format string but found " ++ quoted format)
  end%char.
Definition unit_message (letters : string) (c : ascii) (rest : string) : option (list Z) :=
  match parse_unit c with
  | Some _ => None
  | None => Some (bs letters ++ quoted rest)
  end.
Definition datetime_message (format r : string) : option (list Z) :=
  match r with
  | String "d" (String "D" _) | String "d" (String "m" _) => None
  | String "d" r' => Some (bs "Expected 'D' or 'm' following 'td' but found " ++ quoted r')
  | String "t" (String c _ as r') => unit_message "Expected 's', 'm', 'u', or 'n' following 'tt' but found " c r'
  | String "t" r' => Some (bs "Expected 's', 'm', 'u', or 'n' following 'tt' but found " ++ quoted r')
  | String "s" (String c r'' as r') =>
      match unit_message "Expected 's', 'm', 'u', or 'n' following 'ts' but found " c r' with
      | Some m => Some m
      | None =>
          match r'' with
          | String ":" _ => None
          | _ => Some (bs "Expected ':' following '" ++ take 3 (bs format) ++ bs "' but found " ++ quoted r'')
          end
      end
  | String "s" r' => Some (bs "Expected 's', 'm', 'u', or 'n' following 'ts' but found " ++ quoted r')
  | String "D" (String c _ as r') => unit_message "Expected 's', 'm', u', or 'n' following 'tD' but found " c r'
  | String "D" r' => Some (bs "Expected 's', 'm', u', or 'n' following 'tD' but found " ++ quoted r')
  | String "i" (String "M" _) | String "i" (String "D" _) | String "i" (String "n" _) => None
  | String "i" r' => Some (bs "Expected 'M', 'D', or 'n' following 'ti' but found " ++ quoted r')
  | _ => Some (bs "Expected 'd', 't', 's', 'D', or 'i' following 't' but found " ++ quoted r)
  end%char.
Definition parse_message (n_children : Z) (format : string) : option (list Z) :=
  match format with
  | String "d" r => decimal_message r
  | String "w" (String ":" (String _ _)) => None
  | String "w" _ => Some (bs "Expected ':<width>' following 'w'")
  | String "+" r => nested_message n_children format r
  | String "t" r => datetime_message format r
  | String c _ =>
      match parse_letter c with
      | Some _ => None
      | None => Some (bs "Unknown format: " ++ quoted format)
      end
  | EmptyString => Some (bs "Unknown format: " ++ quoted format)
  end%char.

(** [ArrowSchemaViewValidateNChildren]: the first child that is missing; the index has
    64 bits where the conversion reads an [int]. *)
Definition child_message (s : members) (i : Z) : option (list Z) :=
  match l ← children s; znth l i with
  | Some None => Some (bs "Expected valid schema at schema->children[" ++ dec i ++ bs "] but found NULL")
  | Some (Some SchemaReleased) =>
      Some (bs "Expected valid schema at schema->children[" ++ dec i ++ bs "] but found a released schema")
  | _ => None
  end.
Fixpoint first_told {I} (f : I → option (list Z)) (l : list I) : option (list Z) :=
  match l with
  | [] => None
  | i :: l' => match f i with Some m => Some m | None => first_told f l' end
  end.
Definition children_message (s : members) (n : Z) : option (list Z) :=
  if negb (n =? -1) && negb (n_children s =? n) then
    Some (bs "Expected schema with " ++ dec n ++ bs " children but found " ++ dec (n_children s) ++ bs " children")
  else first_told (child_message s) (zseq (n_children s)).
Definition map_message (s : members) : option (list Z) :=
  match children_message s 1 with
  | Some m => Some m
  | None =>
      entries ← child_members s 0;
      if negb (n_children entries =? 2) then
        Some (bs "Expected child of map type to have 2 children but found " ++ dec (n_children entries))
      else
        f ← format entries;
        if negb (bool_decide (f = "+s"%string)) then
          Some (bs "Expected format of child of map type to be '+s' but found " ++ quoted f)
        else if negb (Z.land (flags entries) ARROW_FLAG_NULLABLE =? 0) then
          Some (bs "Expected child of map type to be non-nullable but was nullable")
        else
          key ← child_members entries 0;
          if negb (Z.land (flags key) ARROW_FLAG_NULLABLE =? 0) then
            Some (bs "Expected key of map type to be non-nullable but was nullable")
          else None
  end.
(** [dict]: the message of the view of the dictionary.  The last case is not reached:
    the parser never makes these types. *)
Definition validate_message (s : members) (dict : option (list Z)) (v : ArrowSchemaView) (type : ArrowType) :
    option (list Z) :=
  match type with
  | NANOARROW_TYPE_FIXED_SIZE_BINARY =>
      if negb (0 <? fixed_size v) then
        Some (bs "Expected size > 0 for fixed size binary but found size " ++ dec (fixed_size v))
      else children_message s 0
  | NANOARROW_TYPE_LIST | NANOARROW_TYPE_LARGE_LIST | NANOARROW_TYPE_FIXED_SIZE_LIST => children_message s 1
  | NANOARROW_TYPE_STRUCT | NANOARROW_TYPE_SPARSE_UNION | NANOARROW_TYPE_DENSE_UNION => children_message s (-1)
  | NANOARROW_TYPE_MAP => map_message s
  | NANOARROW_TYPE_DICTIONARY =>
      match storage_type v with
      | NANOARROW_TYPE_UINT8 | NANOARROW_TYPE_INT8 | NANOARROW_TYPE_UINT16 | NANOARROW_TYPE_INT16
      | NANOARROW_TYPE_UINT32 | NANOARROW_TYPE_INT32 | NANOARROW_TYPE_UINT64 | NANOARROW_TYPE_INT64 => dict
      | _ => Some (bs "Expected dictionary schema index type to be an integral type but found " ++
                   quoted (default "" (format s)))
      end
  | NANOARROW_TYPE_UNINITIALIZED | NANOARROW_TYPE_EXTENSION =>
      Some (bs "Expected a valid enum ArrowType value but found " ++
            dec (match view_type v with NANOARROW_TYPE_EXTENSION => 32 | _ => 0 end))
  | _ => children_message s 0
  end.

(** [ArrowSchemaViewInit] on a view that was not initialised: the message that [error]
    has when it fails. *)
Definition members_message (s : members) (dict : option (list Z)) (parsed : outcome ArrowSchemaView string) :
    option (list Z) :=
  match format s with
  | None =>
      Some (message_set (bs "Error parsing schema->format: Expected a null-terminated string but found NULL"))
  | Some EmptyString =>
      Some (message_set (bs "Error parsing schema->format: Expected a string with size > 0"))
  | Some f =>
      match parsed with
      | UB => None
      | Err _ _ =>
          m ← parse_message (n_children s) f;
          Some (message_set (bs "Error parsing schema->format: " ++ message_set m))
      | Ok format_end v =>
          if negb (bool_decide (format_end = ""%string)) then
            Some (message_set (bs "Error parsing schema->format " ++ quoted f ++ bs ": parsed " ++
              dec (zstrlen f - zstrlen format_end) ++ bs "/" ++ dec (zstrlen f) ++ bs " characters"))
          else
            let w := match dictionary s with
                     | Some _ => set_types NANOARROW_TYPE_DICTIONARY (storage_type v) v
                     | None => v
                     end in
            match validate_message s dict w (storage_type w) with
            | Some m => Some (message_set m)
            | None =>
                if decide (storage_type w = view_type w) then None
                else message_set <$> validate_message s dict w (view_type w)
            end
      end
  end.
Fixpoint view_message (schema : ArrowSchema) : option (list Z) :=
  match schema with
  | SchemaReleased => Some (message_set (bs "Expected non-released schema"))
  | SchemaLive (MkMembers f n m fl nc ch d as s) =>
      members_message s (match d with None => Some (message_set (bs "Expected non-NULL schema")) | Some c => view_message c end)
        (match f with Some f => ArrowSchemaViewParse nc f view_uninit | None => UB end)
  end.

(** ** A message is set exactly when the initialisation fails *)

Definition told {A} (o : outcome ArrowSchemaView A) (m : option (list Z)) : Prop :=
  match o with
  | Ok _ _ => m = None
  | Err e _ => e = EINVAL ∧ is_Some m
  | UB => True
  end.

Lemma letter_told c r v :
  told (match parse_letter c with Some t => ArrowSchemaViewSetPrimitive t ;;; mret_ r | None => mfail EINVAL end v)
    (match parse_letter c with Some _ => None | None => Some (bs "Unknown format: " ++ quoted (String c r)) end).
Proof. by destruct (parse_letter c). Qed.
Lemma datetime_told f r v : told (parse_datetime r v) (datetime_message f r).
Proof.
  unfold parse_datetime, datetime_message, unit_message. destruct r as [|c [|c' r']]; repeat (case_match; try done); done.
Qed.
Lemma union_told n f r v : told (parse_union n r v) (union_message n f r).
Proof.
  unfold parse_union, union_message. repeat (case_match; try done). subst. unfold mbind_, deref, mmod. cbn.
  destruct (_ArrowParseUnionTypeIds _ None) as [[k o]|]; [|done]. cbn. by destruct (k =? n).
Qed.
Lemma nested_told n f r v : told (parse_nested n r v) (nested_message n f r).
Proof.
  unfold parse_nested, nested_message. destruct r as [|c [|c' [|c'' r']]];
    repeat (case_match; try done; try apply union_told); done.
Qed.
Lemma decimal_told r v : told (parse_decimal r v) (decimal_message r).
Proof.
  unfold parse_decimal, decimal_message, mbind_, mmod, mret_, mget, mfail, ArrowSchemaViewSetPrimitive.
  repeat (case_match; cbn in *; simplify_eq/=; try done); zbool; done.
Qed.
Lemma parse_told n f v : told (ArrowSchemaViewParse n f v) (parse_message n f).
Proof.
  unfold ArrowSchemaViewParse, parse_message, parse_fixed_size_binary. destruct f as [|c r]; [done|].
  destruct c as [[] [] [] [] [] [] [] []];
    first [done|apply decimal_told|apply nested_told|apply datetime_told|repeat (case_match; try done)].
Qed.

Lemma first_is_told {I} (body : I → M ArrowSchemaView unit) (f : I → option (list Z)) l v :
  (∀ i v, told (body i v) (f i)) → (∀ i v v', body i v = Ok tt v' → v' = v) →
  told (mfor l body v) (first_told f l).
Proof.
  intros Hf Hv. induction l as [|i l IH]; [done|]. cbn [mfor first_told]. unfold mbind_.
  specialize (Hf i v). destruct (body i v) as [[] v'|e v'|] eqn:Hb; [|by destruct Hf as [-> [m ->]]|done].
  cbn in Hf. rewrite Hf. by apply Hv in Hb as ->.
Qed.
Lemma children_told s n v : told (ArrowSchemaViewValidateNChildren s n v) (children_message s n).
Proof.
  unfold ArrowSchemaViewValidateNChildren, children_message. case_match; [done|].
  apply first_is_told; intros i w; unfold mbind_, deref, child_message.
  - destruct (children s) as [l|]; [|done]. cbn. by destruct (znth l i) as [[[|]|]|].
  - intros w'. destruct (children s) as [l|]; [|done]. cbn. destruct (znth l i) as [[[|]|]|]; try done. by intros [= ->].
Qed.
Lemma children_keeps s n v v' : ArrowSchemaViewValidateNChildren s n v = Ok tt v' → v' = v.
Proof.
  unfold ArrowSchemaViewValidateNChildren. case_match; [done|].
  assert (∀ l, mfor l (λ i, let* l := deref (children s) in let* child := deref (znth l i) in
    match child with None => mfail EINVAL | Some SchemaReleased => mfail EINVAL | Some (SchemaLive _) => mret_ tt end) v
    = Ok tt v' → v' = v) as Hl; [|apply Hl]. induction l as [|i l IH]; cbn; [by intros [= ->]|].
  unfold mbind_, deref. destruct (children s) as [cs|]; [|done]. cbn. destruct (znth cs i) as [[[|]|]|]; done.
Qed.
Lemma map_told s v : told (ArrowSchemaViewValidateMap s v) (map_message s).
Proof.
  unfold ArrowSchemaViewValidateMap, map_message, check, deref, mbind_. pose proof (children_told s 1 v) as Hc.
  destruct (ArrowSchemaViewValidateNChildren s 1 v) as [[] v'|e v'|]; [|by destruct Hc as [-> [m ->]]|done].
  cbn in Hc. rewrite Hc. destruct (child_members s 0) as [entries|]; [|done]. cbn.
  destruct (_ =? 2); [|done]. cbn. destruct (format entries) as [f|]; [|done]. cbn.
  destruct (bool_decide _); [|done]. cbn. destruct (_ =? 0); [|done]. cbn.
  destruct (child_members entries 0) as [key|]; [|done]. cbn. by destruct (_ =? 0).
Qed.
Lemma map_keeps s v v' : ArrowSchemaViewValidateMap s v = Ok tt v' → v' = v.
Proof.
  unfold ArrowSchemaViewValidateMap, check, deref, mbind_, mret_, mfail, mundef.
  destruct (ArrowSchemaViewValidateNChildren s 1 v) as [[] w|e w|] eqn:Hw; [|done|done].
  apply children_keeps in Hw as ->. intros Hv. by repeat (case_match; simplify_eq/=).
Qed.

Lemma validate_told s dict dict_m t v :
  told (dict v) dict_m → told (ArrowSchemaViewValidate s dict t v) (validate_message s dict_m v t).
Proof.
  intros Hd. destruct t; cbn [ArrowSchemaViewValidate validate_message]; try done; try apply children_told;
    [| |apply map_told].
  - unfold mbind_, mget, check. destruct (0 <? fixed_size v); [apply children_told|done].
  - unfold ArrowSchemaViewValidateDictionary, mbind_, mget. destruct (storage_type v); done.
Qed.
Lemma validate_keeps s dict t v v' :
  (∀ w, dict v = Ok tt w → w = v) → ArrowSchemaViewValidate s dict t v = Ok tt v' → v' = v.
Proof.
  intros Hd. destruct t; cbn [ArrowSchemaViewValidate]; try done; try apply children_keeps; [| |apply map_keeps].
  - unfold mbind_, mget, check. destruct (0 <? fixed_size v); [apply children_keeps|done].
  - unfold ArrowSchemaViewValidateDictionary, mbind_, mget. destruct (storage_type v); try done; apply Hd.
Qed.

Lemma finish_told m v : told ((init_layout ;;; init_extension m) v) None.
Proof.
  unfold init_layout, init_extension, mbind_, mget, deref, mmod, mundef. destruct (storage_type v);
    repeat (case_match; simplify_eq/=; try done).
Qed.
Lemma members_told s dict dict_m f :
  format s = Some f → (∀ v, told (dict v) dict_m) → (∀ v w, dict v = Ok tt w → w = v) →
  told (view_init_members s dict view_uninit) (members_message s dict_m (ArrowSchemaViewParse (n_children s) f view_uninit)).
Proof.
  intros Hf Hd Hk. unfold view_init_members, members_message. rewrite Hf. destruct f as [|c f]; [done|].
  set (f0 := String c f). unfold mbind_ at 1. pose proof (parse_told (n_children s) f0 view_uninit) as Hp.
  destruct (ArrowSchemaViewParse _ f0 view_uninit) as [r v|e v|]; [|by destruct Hp as [-> [m ->]]|done].
  unfold check. unfold mbind_ at 1. destruct (bool_decide _); [|done]. cbn [negb mret_].
  set (w := match dictionary s with Some _ => set_types _ _ v | None => v end).
  unfold mbind_ at 1. assert ((match dictionary s with Some _ => mmod (λ v, set_types NANOARROW_TYPE_DICTIONARY (storage_type v) v)
    | None => mret_ tt end) v = Ok tt w) as -> by (unfold w; by destruct (dictionary s)).
  unfold mbind_ at 1, mget at 1. unfold mbind_ at 1. pose proof (validate_told s dict dict_m (storage_type w) w (Hd w)) as Hv.
  destruct (ArrowSchemaViewValidate s dict (storage_type w) w) as [[] w'|e w'|] eqn:Hw; [|by destruct Hv as [-> [m ->]]|done].
  cbn in Hv. rewrite Hv. apply validate_keeps in Hw as ->; [|apply Hk]. unfold mbind_ at 1, mget at 1.
  unfold mbind_ at 1. destruct (decide (storage_type w = view_type w)); [apply finish_told|].
  pose proof (validate_told s dict dict_m (view_type w) w (Hd w)) as Hv'.
  destruct (ArrowSchemaViewValidate s dict (view_type w) w) as [[] w'|e w'|] eqn:Hw'; [|by destruct Hv' as [-> [m ->]]|done].
  cbn in Hv'. rewrite Hv'. apply finish_told.
Qed.
(** The message is set exactly when the initialisation fails. *)
Theorem message_told (schema : ArrowSchema) :
  told (ArrowSchemaViewInit (Some schema) view_uninit) (view_message schema).
Proof.
  induction schema as [|f n m fl nc ch d _ Hd] using ArrowSchema_nested_ind; [done|]. cbn [ArrowSchemaViewInit view_init view_message].
  destruct f as [f|]; [|done]. apply (members_told (MkMembers (Some f) n m fl nc ch d)); [done| |].
  - intros v. destruct d as [c|]; [|done]. unfold on_local_view. cbn in Hd.
    by destruct (view_init c view_uninit) as [[] w|e w|].
  - intros v w. destruct d as [c|]; [|done]. unfold on_local_view. destruct (view_init c view_uninit); [by intros [= ->]|done..].
Qed.
