(* ===== verification/SchemaString.v ===== *)
(** * Printed schemas (nanoarrow.c)

    [ArrowSchemaToString] prints a schema into the memory of the caller with several
    calls of [snprintf].  The calls together do what one call with the whole text
    does: the text is cut at the end of the memory, and the length of the whole text
    is returned. *)

From Stdlib Require Import Ascii.
From stdpp Require Import base numbers list option strings.
From S2P Require Import Prelude CInt CString Buffer Types Metadata Schema SchemaView ErrorText.
#[local] Open Scope Z_scope.
#[local] Open Scope c_scope.

(** ** Printing *)

(** [snprintf(out, n, ...)] where the format and the arguments make [text]: the memory
    of the caller is the state, [out] a position in it.  At most [n - 1] bytes and a
    zero byte are written; the result is the length of the text, which an [int] must
    hold. *)
Definition snprintf (out : option Z) (n : Z) (text : list Z) : M (list Z) Z := λ mem,
  if INT32_MAX <? zlen text then UB
  else if u64 n =? 0 then Ok (zlen text) mem
  else
    match p ← out; zwrite mem p (take (Z.to_nat (u64 n - 1)) text ++ [0]) with
    | Some mem' => Ok (zlen text) mem'
    | None => UB
    end.
(** ["%.*s"] *)
Fixpoint upto_zero (n : nat) (l : list Z) : option (list Z) :=
  match n with
  | O => Some []
  | S n' =>
      match l with
      | [] => None
      | b :: l' => if b =? 0 then Some [] else r ← upto_zero n' l'; Some (b :: r)
      end
  end.
Definition view_text (v : ArrowView) : option (list Z) :=
  d ← view_data v; upto_zero (Z.to_nat (i32 (view_size v))) d.

Definition type_string (t : ArrowType) : option (list Z) := bs <$> ArrowTypeString t.
Definition type_text (v : ArrowSchemaView) : option (list Z) :=
  type_string ← type_string (view_type v);
  Some match view_type v with
  | NANOARROW_TYPE_DECIMAL128 | NANOARROW_TYPE_DECIMAL256 =>
      type_string ++ bs "(" ++ dec (decimal_precision v) ++ bs ", " ++ dec (decimal_scale v) ++ bs ")"
  | NANOARROW_TYPE_TIMESTAMP =>
      type_string ++ bs "(" ++ quoted (ArrowTimeUnitString (time_unit v)) ++ bs ", " ++ quoted (timezone v) ++ bs ")"
  | NANOARROW_TYPE_TIME32 | NANOARROW_TYPE_TIME64 | NANOARROW_TYPE_DURATION =>
      type_string ++ bs "(" ++ quoted (ArrowTimeUnitString (time_unit v)) ++ bs ")"
  | NANOARROW_TYPE_FIXED_SIZE_BINARY | NANOARROW_TYPE_FIXED_SIZE_LIST =>
      type_string ++ bs "(" ++ ldec (fixed_size v) ++ bs ")"
  | NANOARROW_TYPE_SPARSE_UNION | NANOARROW_TYPE_DENSE_UNION =>
      type_string ++ bs "([" ++ bs (union_type_ids v) ++ bs "])"
  | _ => type_string
  end.
Definition ArrowSchemaTypeToStringInternal (v : ArrowSchemaView) (out : option Z) (n : Z) : M (list Z) Z :=
  let* text := deref (type_text v) in snprintf out n text.

(** The variables [out], [n] and [n_chars]. *)
Record print_state := MkCursor { at_out : option Z; at_n : Z; n_chars : Z }.
Definition ArrowToStringLogChars (n_chars_last : Z) (c : print_state) : print_state :=
  let n_remaining := i64 (at_n c - n_chars_last) in
  MkCursor ((λ out, out + n_chars_last) <$> at_out c) (if n_remaining <? 0 then 0 else n_remaining)
    (i64 (n_chars c + n_chars_last)).
(** One call of [snprintf], or of a function like it, and the bookkeeping. *)
Definition put_with (print : option Z → Z → M (list Z) Z) (c : print_state) : M (list Z) print_state :=
  let* n_chars_last := print (at_out c) (at_n c) in
  mret_ (ArrowToStringLogChars n_chars_last c).
Definition put (text : list Z) : print_state → M (list Z) print_state := put_with (λ out n, snprintf out n text).

(** What precedes the type: the name of the extension, the index type of the
    dictionary; and what follows it.  [None]: nothing is printed. *)
Definition opening (v : ArrowSchemaView) (is_extension is_dictionary : bool) : option (option (list Z)) :=
  match is_extension, is_dictionary with
  | true, true =>
      e ← view_text (extension_name v); t ← type_string (storage_type v);
      Some (Some (e ++ bs "{dictionary(" ++ t ++ bs ")<"))
  | true, false => e ← view_text (extension_name v); Some (Some (e ++ bs "{"))
  | false, true => t ← type_string (storage_type v); Some (Some (bs "dictionary(" ++ t ++ bs ")<"))
  | false, false => Some None
  end.
Definition closing (is_extension is_dictionary : bool) : option (list Z) :=
  match is_extension, is_dictionary with
  | true, true => Some (bs ">}")
  | true, false => Some (bs "}")
  | false, true => Some (bs ">")
  | false, false => None
  end.
Definition put_option (text : option (list Z)) (c : print_state) : M (list Z) print_state :=
  match text with Some t => put t c | None => mret_ (ArrowToStringLogChars 0 c) end.

(** The name of a child, printed before it. *)
Definition child_name (c : option ArrowSchema) : option (list Z) :=
  match c with Some (SchemaLive m) => n ← name m; Some (bs n ++ bs ": ") | _ => None end.
Definition put_child (print : option ArrowSchema → option Z → Z → M (list Z) Z) (i : Z) (c : option ArrowSchema)
    (cur : print_state) : M (list Z) print_state :=
  let* cur := (if 0 <? i then put (bs ", ") cur else mret_ cur) in
  let* cur := match child_name c with Some t => put t cur | None => mret_ cur end in
  put_with (print c) cur.
Definition put_child_list (print : option ArrowSchema → option Z → Z → M (list Z) Z) (n_children : Z) :
    list (option ArrowSchema) → Z → print_state → M (list Z) print_state :=
  fix go l i cur :=
    if i <? n_children then
      match l with
      | [] => mundef
      | c :: l' => let* cur := put_child print i c cur in go l' (i + 1) cur
      end
    else mret_ cur.
Definition put_nested (print : option ArrowSchema → option Z → Z → M (list Z) Z) (n_children : Z)
    (children : option (list (option ArrowSchema))) (cur : print_state) : M (list Z) print_state :=
  let* cur := put (bs "<") cur in
  let* cur :=
    (if 0 <? n_children then
       match children with Some l => put_child_list print n_children l 0 cur | None => mundef end
     else mret_ cur) in
  put (bs ">") cur.
(** The last call has no bookkeeping. *)
Definition finish (cl : option (list Z)) (c : print_state) : M (list Z) Z :=
  match cl with
  | Some t => let* last := snprintf (at_out c) (at_n c) t in mret_ (i64 (n_chars c + last))
  | None => mret_ (n_chars c)
  end.
Definition is_nested (format : option string) : bool :=
  match format with Some (String "+"%char _) => true | _ => false end.

Definition print_null (out : option Z) (n : Z) : M (list Z) Z := snprintf out n (bs "[invalid: pointer is null]").
Fixpoint schema_to_string (recursive : bool) (schema : ArrowSchema) (out : option Z) (n : Z) {struct schema} : M (list Z) Z :=
  match schema with
  | SchemaReleased => snprintf out n (bs "[invalid: schema is released]")
  | SchemaLive (MkMembers f _ _ _ nc ch d) =>
      let print c := match c with Some c => schema_to_string recursive c | None => print_null end in
      match ArrowSchemaViewInit (Some schema) view_uninit with
      | UB => mundef
      | Err _ _ =>
          let* message := deref (view_message schema) in
          snprintf out n (bs "[invalid: " ++ message ++ bs "]")
      | Ok _ v =>
          let is_extension := 0 <? view_size (extension_name v) in
          let is_dictionary := match d with Some _ => true | None => false end in
          let* o := deref (opening v is_extension is_dictionary) in
          let* cur := put_option o (MkCursor out n 0) in
          let* cur :=
            match d with
            | None => put_with (ArrowSchemaTypeToStringInternal v) cur
            | Some c => put_with (schema_to_string recursive c) cur
            end in
          let* cur := (if recursive && is_nested f then put_nested print nc ch cur else mret_ cur) in
          finish (closing is_extension is_dictionary) cur
      end
  end.
Definition ArrowSchemaToString (schema : option ArrowSchema) (out : option Z) (n : Z) (recursive : bool) : M (list Z) Z :=
  match schema with
  | None => print_null out n
  | Some s => schema_to_string recursive s out n
  end.

(** ** The text of a schema *)

Definition render_children (render : option ArrowSchema → option (list Z)) (n_children : Z) :
    list (option ArrowSchema) → Z → option (list Z) :=
  fix go l i :=
    if i <? n_children then
      match l with
      | [] => None
      | c :: l' =>
          t ← render c; r ← go l' (i + 1);
          Some ((if 0 <? i then bs ", " else []) ++ default [] (child_name c) ++ t ++ r)
      end
    else Some [].
Definition render_nested (render : option ArrowSchema → option (list Z)) (n_children : Z)
    (children : option (list (option ArrowSchema))) : option (list Z) :=
  r ← (if 0 <? n_children then match children with Some l => render_children render n_children l 0 | None => None end
       else Some []);
  Some (bs "<" ++ r ++ bs ">").
Fixpoint render_schema (recursive : bool) (schema : ArrowSchema) {struct schema} : option (list Z) :=
  match schema with
  | SchemaReleased => Some (bs "[invalid: schema is released]")
  | SchemaLive (MkMembers f _ _ _ nc ch d) =>
      let render c :=
        match c with Some c => render_schema recursive c | None => Some (bs "[invalid: pointer is null]") end in
      match ArrowSchemaViewInit (Some schema) view_uninit with
      | UB => None
      | Err _ _ => message ← view_message schema; Some (bs "[invalid: " ++ message ++ bs "]")
      | Ok _ v =>
          let is_extension := 0 <? view_size (extension_name v) in
          let is_dictionary := match d with Some _ => true | None => false end in
          o ← opening v is_extension is_dictionary;
          t ← match d with None => type_text v | Some c => render_schema recursive c end;
          cs ← (if recursive && is_nested f then render_nested render nc ch else Some []);
          Some (default [] o ++ t ++ cs ++ default [] (closing is_extension is_dictionary))
      end
  end.

(** ** Cutting a text off at the end of the room *)

(** [n] bytes of room at [out]. *)
Definition room (out : option Z) (n : Z) (mem : list Z) : Prop :=
  0 <= n <= INT64_MAX ∧ (n = 0 ∨ ∃ p, out = Some p ∧ 0 <= p ∧ p + n <= zlen mem).
(** The memory after a text that is not empty was printed to it. *)
Definition written (out : option Z) (n : Z) (t mem : list Z) : list Z :=
  match out with
  | Some p =>
      if (0 <? n) && (0 <? zlen t) then
        take (Z.to_nat p) mem ++ take (Z.to_nat (n - 1)) t ++ [0] ++
        drop (Z.to_nat (p + Z.min (zlen t) (n - 1) + 1)) mem
      else mem
  | None => mem
  end.

Lemma zlen_cut (n : Z) (t : list Z) : 0 <= n → zlen (take (Z.to_nat n) t) = Z.min (zlen t) n.
Proof. intros Hn. unfold zlen. rewrite length_take. lia. Qed.
Lemma written_zlen out n t mem : room out n mem → zlen (written out n t mem) = zlen mem.
Proof.
  intros [Hn Hr]. unfold written. destruct out as [p|]; [|done].
  destruct (Z.ltb_spec 0 n); [|done]. destruct (Z.ltb_spec 0 (zlen t)); [|done]. cbn [andb].
  destruct Hr as [?|(p' & [= <-] & Hp & Hm)]; [lia|].
  rewrite !zlen_app, (zlen_take p), (zlen_cut (n - 1)), zlen_drop by lia. change (zlen [0]) with 1. lia.
Qed.
Lemma written_znth p n t mem i :
  0 <= p → 0 < n → p + n <= zlen mem → 0 < zlen t → 0 <= i →
  znth (written (Some p) n t mem) i =
    if (p <=? i) && (i <? p + Z.min (zlen t) (n - 1)) then znth t (i - p)
    else if i =? p + Z.min (zlen t) (n - 1) then Some 0 else znth mem i.
Proof.
  intros Hp Hn Hm Ht Hi. unfold written. rewrite (proj2 (Z.ltb_lt 0 n)), (proj2 (Z.ltb_lt 0 (zlen t))) by lia. cbn [andb].
  rewrite znth_app, zlen_take by lia. destruct (Z.ltb_spec i p); [|rewrite znth_app, zlen_cut by lia].
  { rewrite znth_take, (proj2 (Z.leb_gt p i)) by lia. cbn [andb]. case_match; [zbool; lia|done]. }
  rewrite (proj2 (Z.leb_le p i)) by lia. cbn [andb].
  destruct (Z.ltb_spec (i - p) (Z.min (zlen t) (n - 1))), (Z.ltb_spec i (p + Z.min (zlen t) (n - 1))); try lia.
  { by rewrite znth_take by lia. }
  rewrite znth_app by lia. change (zlen [0]) with 1.
  destruct (Z.ltb_spec (i - p - Z.min (zlen t) (n - 1)) 1), (Z.eqb_spec i (p + Z.min (zlen t) (n - 1))); try lia.
  { by replace (i - p - Z.min (zlen t) (n - 1)) with 0 by lia. }
  rewrite znth_drop by lia. f_equal. lia.
Qed.

(** Printing the second text where the first one ended is printing both. *)
Definition advance (t : list Z) (out : option Z) : option Z := (λ p, p + zlen t) <$> out.
Definition remaining (t : list Z) (n : Z) : Z := Z.max 0 (n - zlen t).
Lemma room_after out n t mem t' :
  room out n mem → room (advance t out) (remaining t n) (written out n t' mem).
Proof.
  intros Hr. pose proof (zlen_nonneg t). unfold room. rewrite written_zlen by done. destruct Hr as [Hn Hr].
  unfold remaining. split; [lia|]. destruct Hr as [->|(p & -> & Hp & Hm)]; [left; lia|].
  destruct (Z.le_gt_cases n (zlen t)); [left; lia|right]. exists (p + zlen t). split; [done|]. lia.
Qed.
Lemma written_app out n t1 t2 mem :
  room out n mem → written (advance t1 out) (remaining t1 n) t2 (written out n t1 mem) = written out n (t1 ++ t2) mem.
Proof.
  intros Hr. pose proof (zlen_nonneg t1). pose proof (zlen_nonneg t2).
  destruct out as [p|]; [|done]. destruct (decide (0 < n)) as [Hn|Hn].
  2:{ unfold written, remaining. cbn. rewrite (proj2 (Z.ltb_ge 0 n)), (proj2 (Z.ltb_ge 0 (Z.max _ _))) by lia. done. }
  assert (0 <= p ∧ p + n <= zlen mem) as [Hp Hm].
  { destruct Hr as [_ [?|(? & [= <-] & ? & ?)]]; lia. }
  destruct (decide (zlen t2 = 0)) as [H2|H2].
  { apply Nat2Z.inj with (m := 0%nat), nil_length_inv in H2 as ->. rewrite app_nil_r. unfold written at 1. cbn.
    by rewrite andb_false_r. }
  destruct (decide (zlen t1 = 0)) as [H1|H1].
  { apply Nat2Z.inj with (m := 0%nat), nil_length_inv in H1 as ->. unfold advance, remaining. cbn -[written].
    change (zlen []) with 0. rewrite Z.add_0_r, Z.sub_0_r, Z.max_r by lia. unfold written at 2. cbn. by rewrite andb_false_r. }
  apply znth_ext; [by rewrite !written_zlen by eauto using room_after|]. intros i [Hi _].
  rewrite (written_znth p n (t1 ++ t2)) by (rewrite ?zlen_app; lia). rewrite zlen_app.
  destruct (Z.le_gt_cases n (zlen t1)) as [Hcut|Hcut].
  - unfold written at 1, remaining. cbn [advance fmap option_fmap option_map]. rewrite (proj2 (Z.ltb_ge 0 (Z.max _ _))) by lia.
    cbn [andb]. rewrite written_znth by lia. rewrite !Z.min_r by lia. case_match; zbool; [|done].
    rewrite znth_app by lia. case_match; zbool; [done|lia].
  - unfold remaining. rewrite Z.max_r by lia. cbn [advance fmap option_fmap option_map].
    rewrite (written_znth (p + zlen t1) (n - zlen t1)); [|lia|lia|rewrite written_zlen by done; lia|lia|lia].
    rewrite (written_znth p n t1) by lia. rewrite (Z.min_l (zlen t1)) by lia.
    replace (p + zlen t1 + Z.min (zlen t2) (n - zlen t1 - 1)) with (p + Z.min (zlen t1 + zlen t2) (n - 1)) by lia.
    destruct (Z.leb_spec p i), (Z.leb_spec (p + zlen t1) i), (Z.ltb_spec i (p + Z.min (zlen t1 + zlen t2) (n - 1))),
      (Z.ltb_spec i (p + zlen t1)), (Z.eqb_spec i (p + Z.min (zlen t1 + zlen t2) (n - 1))), (Z.eqb_spec i (p + zlen t1));
      cbn [andb]; try lia; try done.
    all: rewrite znth_app by lia; case_match; zbool; try lia; try done; f_equal; lia.
Qed.

(** [print] prints the text, which is not empty. *)
Definition prints (print : option Z → Z → M (list Z) Z) (t : list Z) : Prop :=
  0 < zlen t ∧
  ∀ out n mem, room out n mem → zlen t <= INT32_MAX → print out n mem = Ok (zlen t) (written out n t mem).
(** [step] prints the text, which may be empty, and moves the cursor behind it. *)
Definition after (t : list Z) (c : print_state) : print_state :=
  MkCursor (advance t (at_out c)) (remaining t (at_n c)) (n_chars c + zlen t).
Definition emits (step : print_state → M (list Z) print_state) (t : list Z) : Prop :=
  ∀ c mem, room (at_out c) (at_n c) mem → 0 <= n_chars c → n_chars c + zlen t <= INT32_MAX →
  step c mem = Ok (after t c) (written (at_out c) (at_n c) t mem).

Lemma snprintf_prints t : 0 < zlen t → prints (λ out n, snprintf out n t) t.
Proof.
  intros Ht. split; [done|]. intros out n mem [Hn Hr] Hmax. unfold snprintf.
  rewrite (proj2 (Z.ltb_ge INT32_MAX _)) by lia. assert (u64 n = n) as -> by (apply uwrap_small; width).
  unfold written. destruct (Z.eqb_spec n 0) as [->|Hn0]; [by destruct out|].
  destruct Hr as [?|(p & -> & Hp & Hm)]; [lia|]. cbn.
  rewrite (proj2 (Z.ltb_lt 0 n)), (proj2 (Z.ltb_lt 0 (zlen t))) by lia. cbn [andb].
  rewrite zwrite_in by (rewrite ?zlen_app, ?zlen_cut by lia; change (zlen [0]) with 1; lia).
  f_equal. rewrite <-app_assoc. do 4 f_equal. rewrite length_app, length_take. cbn. unfold zlen. lia.
Qed.
Lemma log_after (t : list Z) out n mem c :
  room out n mem → 0 <= c → c + zlen t <= INT32_MAX →
  ArrowToStringLogChars (zlen t) (MkCursor out n c) = after t (MkCursor out n c).
Proof.
  intros [Hn _] Hc Hm. pose proof (zlen_nonneg t). unfold ArrowToStringLogChars, after. cbn.
  rewrite !i64_small by width. unfold remaining. f_equal. destruct (Z.ltb_spec (n - zlen t) 0); lia.
Qed.
Lemma put_with_emits f t : prints f t → emits (put_with f) t.
Proof.
  intros [Ht Hf] [out n c] mem Hr Hc Hm. cbn in *. unfold put_with, mbind_. cbn. rewrite Hf by (done || lia).
  unfold mret_. f_equal. by eapply log_after.
Qed.
Lemma put_emits t : 0 < zlen t → emits (put t) t.
Proof. intros Ht. by apply put_with_emits, snprintf_prints. Qed.
Lemma mret_emits : emits mret_ [].
Proof.
  intros [out n c] mem [Hn Hr] _ _. cbn in Hn. unfold mret_, after, advance, remaining, written. cbn. change (zlen []) with 0.
  rewrite andb_false_r, !Z.add_0_r, Z.sub_0_r, Z.max_r by lia. destruct out as [p|]; [|done]. cbn. by rewrite Z.add_0_r.
Qed.
Lemma emits_app s1 s2 t1 t2 :
  emits s1 t1 → emits s2 t2 → emits (λ c, let* c' := s1 c in s2 c') (t1 ++ t2).
Proof.
  intros H1 H2 c mem Hr Hc Hm. pose proof (zlen_nonneg t1). pose proof (zlen_nonneg t2). rewrite zlen_app in Hm.
  unfold mbind_. rewrite H1 by (done || lia). rewrite H2; [|by apply room_after|cbn; lia|cbn; lia]. cbn [at_out at_n after].
  rewrite written_app by done. f_equal. unfold after. cbn. rewrite zlen_app. f_equal; [| |lia].
  - unfold advance. rewrite zlen_app. destruct (at_out c); cbn; [f_equal; lia|done].
  - unfold remaining. rewrite zlen_app. lia.
Qed.

Lemma type_string_pos ty t : type_string ty = Some t → 0 < zlen t.
Proof. by destruct ty; intros [= <-]. Qed.
Lemma type_text_prints v t : type_text v = Some t → prints (ArrowSchemaTypeToStringInternal v) t.
Proof.
  intros Ht. assert (0 < zlen t) as Hpos.
  { unfold type_text in Ht. destruct (type_string (view_type v)) as [s|] eqn:Hs; [|done]. apply type_string_pos in Hs.
    cbn in Ht. injection Ht as <-. destruct (view_type v); rewrite ?zlen_app; pose proof zlen_nonneg (A := Z); try done; 
    match goal with |- 0 < zlen s + ?x => assert (0 <= x) by (rewrite <-?zlen_app; apply zlen_nonneg); lia end. }
  split; [done|]. intros out n mem Hr Hm. unfold ArrowSchemaTypeToStringInternal, mbind_. rewrite Ht.
  by apply (snprintf_prints t Hpos).
Qed.
Lemma put_option_emits o : (∀ t, o = Some t → 0 < zlen t) → emits (put_option o) (default [] o).
Proof.
  intros Ho. destruct o as [t|]; [by apply put_emits, Ho|]. cbn [default put_option].
  intros c mem Hr Hc Hm. pose proof (mret_emits c mem Hr Hc Hm) as He. injection He as _ Hw. rewrite <-Hw.
  change (put_option None c mem) with (Ok (ArrowToStringLogChars 0 c) mem). f_equal.
  destruct c as [out n c]. by eapply (log_after []).
Qed.
Lemma child_name_pos c t : child_name c = Some t → 0 < zlen t.
Proof.
  destruct c as [[|m]|]; [done| |done]. unfold child_name. destruct (name m) as [s|]; [|done]. intros Ht.
  assert (t = bs s ++ bs ": ") as -> by (by injection Ht).
  rewrite zlen_app. change (zlen (bs ": ")) with 2. pose proof (zlen_nonneg (bs s)). lia.
Qed.
Lemma put_child_emits print i c t :
  prints (print c) t →
  emits (put_child print i c) ((if 0 <? i then bs ", " else []) ++ default [] (child_name c) ++ t).
Proof.
  intros Ht. unfold put_child. apply emits_app; [|apply emits_app; [|by apply put_with_emits]].
  - destruct (0 <? i); [by apply put_emits|apply mret_emits].
  - pose proof (child_name_pos c). destruct (child_name c) as [s|]; [by apply put_emits; auto|apply mret_emits].
Qed.
Lemma put_children_emits print render nc l :
  Forall (λ c, ∀ t, render c = Some t → prints (print c) t) l → ∀ i t,
  render_children render nc l i = Some t → emits (put_child_list print nc l i) t.
Proof.
  induction 1 as [|c l Hc _ IH]; intros i t; cbn; case_match; try done; try (intros [= <-]; apply mret_emits).
  destruct (render c) as [tc|] eqn:Hrc; [|done]. cbn. destruct (render_children render nc l (i + 1)) as [r|] eqn:Hr; [|done].
  intros Ht. assert (t = ((if 0 <? i then bs ", " else []) ++ default [] (child_name c) ++ tc) ++ r) as ->
    by (rewrite <-!app_assoc; by injection Ht). apply emits_app; [by apply put_child_emits, Hc|by apply IH].
Qed.

Lemma finish_prints step pre cl out n mem :
  emits step pre → (∀ t, cl = Some t → 0 < zlen t) → room out n mem → zlen (pre ++ default [] cl) <= INT32_MAX →
  (let* c := step (MkCursor out n 0) in finish cl c) mem =
    Ok (zlen (pre ++ default [] cl)) (written out n (pre ++ default [] cl) mem).
Proof.
  intros Hs Hcl Hr Hm. rewrite zlen_app in Hm. pose proof (zlen_nonneg pre). pose proof (zlen_nonneg (default [] cl)).
  unfold mbind_. rewrite Hs by (done || (cbn; lia)). cbn [at_out at_n].
  destruct cl as [t|]; [change (default [] (Some t)) with t in *; cbn [finish]|by rewrite app_nil_r].
  unfold mbind_. destruct (snprintf_prints t) as [_ Hp]; [by apply Hcl|]. cbn [after at_out at_n].
  rewrite Hp; [|by apply room_after|lia]. unfold mret_. cbn [n_chars after]. rewrite written_app, zlen_app by done.
  rewrite i64_small by width. by f_equal.
Qed.

Lemma put_nested_emits print render nc ch t :
  match ch with Some l => Forall (λ c, ∀ t, render c = Some t → prints (print c) t) l | None => True end →
  render_nested render nc ch = Some t → emits (put_nested print nc ch) t.
Proof.
  intros Hch Ht. unfold render_nested in Ht.
  destruct (if 0 <? nc then _ else _) as [r|] eqn:Hr; [|done].
  assert (t = bs "<" ++ r ++ bs ">") as -> by (by injection Ht).
  apply emits_app; [by apply put_emits|]. apply emits_app; [|by apply put_emits]. destruct (0 <? nc).
  - destruct ch as [l|]; [|done]. by eapply put_children_emits.
  - injection Hr as <-. apply mret_emits.
Qed.
Lemma opening_pos v e d o t : opening v e d = Some o → o = Some t → 0 < zlen t.
Proof.
  intros Ho ->. unfold opening in Ho.
  assert (∀ a b : list Z, 0 < zlen b → 0 < zlen (a ++ b)) as Happ.
  { intros a b Hb. rewrite zlen_app. pose proof (zlen_nonneg a). lia. }
  assert (∀ a b : list Z, 0 < zlen a → 0 < zlen (a ++ b)) as Happ'.
  { intros a b Hb. rewrite zlen_app. pose proof (zlen_nonneg b). lia. }
  destruct (view_text (extension_name v)) as [x|], (type_string (storage_type v)) as [y|], e, d;
    cbn [mbind option_bind] in Ho; try discriminate Ho.
  all: match type of Ho with Some (Some ?u) = _ => assert (t = u) as -> by congruence end.
  all: first [by apply Happ'|by apply Happ, Happ'|by apply Happ].
Qed.

Lemma schema_prints recursive schema t :
  render_schema recursive schema = Some t → prints (schema_to_string recursive schema) t.
Proof.
  revert t. induction schema as [|f nm md fl nc ch d Hch Hd] using ArrowSchema_nested_ind; intros t Ht.
  { cbn [render_schema] in Ht. assert (t = bs "[invalid: schema is released]") as -> by (by injection Ht).
    by apply snprintf_prints. }
  cbn [render_schema schema_to_string] in *.
  destruct (ArrowSchemaViewInit _ view_uninit) as [[] v|e v|]; [|destruct (view_message _) as [m|]; [|done]|done].
  2:{ assert (t = bs "[invalid: " ++ m ++ bs "]") as -> by (by injection Ht).
      assert (0 < zlen (bs "[invalid: " ++ m ++ bs "]")) as Hpos.
      { rewrite zlen_app. pose proof (zlen_nonneg (m ++ bs "]")). assert (zlen (bs "[invalid: ") = 10) by done. lia. }
      by apply (snprintf_prints _ Hpos). }
  set (is_extension := 0 <? view_size (extension_name v)) in *.
  set (is_dictionary := match d with Some _ => true | None => false end) in *.
  destruct (opening v is_extension is_dictionary) as [o|] eqn:Ho; [|done].
  destruct (match d with None => type_text v | Some c => render_schema recursive c end) as [ty|] eqn:Hty; [|done].
  match type of Ht with context [if recursive && is_nested f then ?x else _] => set (inner := x) in * end.
  destruct (if recursive && is_nested f then inner else Some []) as [cs|] eqn:Hcs; [|done].
  assert (t = (default [] o ++ ty ++ cs) ++ default [] (closing is_extension is_dictionary)) as ->
    by (rewrite <-!app_assoc; by injection Ht).
  set (put_type := match d with
                   | None => put_with (ArrowSchemaTypeToStringInternal v)
                   | Some c => put_with (schema_to_string recursive c)
                   end).
  assert (0 < zlen ty ∧ emits put_type ty) as [Hpos Htype].
  { unfold put_type. destruct d as [c|]; [apply Hd in Hty|apply type_text_prints in Hty];
      (split; [apply Hty|by apply put_with_emits]). }
  set (put_rest := λ cur, if recursive && is_nested f
    then put_nested (λ c, match c with Some c => schema_to_string recursive c | None => print_null end) nc ch cur
    else mret_ cur).
  assert (emits put_rest cs) as Hrest.
  { unfold put_rest. destruct (recursive && is_nested f); [|injection Hcs as <-; apply mret_emits].
    eapply put_nested_emits; [|exact Hcs].
    destruct ch as [l|]; [|done]. revert Hch. apply Forall_impl.
    intros [c|] Hc u Hu; [by apply Hc|]. assert (u = bs "[invalid: pointer is null]") as -> by (by injection Hu).
    by apply snprintf_prints. }
  pose proof (emits_app _ _ _ _ (put_option_emits o (λ t, opening_pos v _ _ o t Ho)) (emits_app _ _ _ _ Htype Hrest)) as He.
  split.
  { rewrite !zlen_app. pose proof (zlen_nonneg (default [] o)). pose proof (zlen_nonneg cs).
    pose proof (zlen_nonneg (default [] (closing is_extension is_dictionary))). lia. }
  intros out n mem Hr Hm.
  pose proof (finish_prints _ _ (closing is_extension is_dictionary) out n mem He
    ltac:(intros u; by destruct is_extension, is_dictionary; intros [= <-]) Hr Hm) as Hf.
  rewrite <-Hf. unfold mbind_ at 1, deref. cbn [mret_]. unfold mbind_.
  destruct (put_option o (MkCursor out n 0) mem) as [c1 m1|e m1|]; [|done|done].
  unfold put_type. destruct d as [c|].
  - destruct (put_with (schema_to_string recursive c) c1 m1) as [c2 m2|e m2|]; done.
  - destruct (put_with (ArrowSchemaTypeToStringInternal v) c1 m1) as [c2 m2|e m2|]; done.
Qed.

(** [space] with the text in it: its first bytes and a zero byte, or the whole text, a
    zero byte and what was there. *)
Definition cut (t space : list Z) : list Z :=
  match space with
  | [] => []
  | _ :: space' => take (List.length space') t ++ [0] ++ drop (List.length t) space'
  end.
Lemma written_cut t pre space post :
  0 < zlen t → written (Some (zlen pre)) (zlen space) t (pre ++ space ++ post) = pre ++ cut t space ++ post.
Proof.
  intros Ht. unfold written. rewrite (proj2 (Z.ltb_lt 0 (zlen t))) by done. destruct space as [|b space]; [done|].
  rewrite zlen_cons. pose proof (zlen_nonneg space). rewrite (proj2 (Z.ltb_lt 0 _)) by lia. cbn [andb cut].
  replace (1 + zlen space - 1) with (zlen space) by lia. unfold zlen. rewrite !Nat2Z.id, take_app_length. f_equal.
  rewrite <-!app_assoc. do 2 f_equal. cbn [app]. f_equal.
  replace (Z.to_nat _) with (List.length pre + S (List.length t `min` List.length space))%nat by lia.
  rewrite <-drop_drop, drop_app_length. cbn [app drop]. rewrite drop_app.
  rewrite (proj2 (Nat.sub_0_le _ _)) by lia. rewrite drop_0. f_equal.
  destruct (Nat.le_ge_cases (List.length t) (List.length space)).
  - by rewrite Nat.min_l.
  - rewrite Nat.min_r by done. by rewrite !drop_ge.
Qed.

(** C26.  [ArrowSchemaToString] is [snprintf]: however many calls it makes for the types,
    the names, the children and the dictionaries of a schema, the result is the length
    of the whole text; of it, the memory at [out] gets what fits before a zero byte,
    and no other byte changes.  With no room, the pointer may be NULL. *)
Theorem schema_to_string_bounded (recursive : bool) (schema : ArrowSchema) (t pre space post : list Z)
    (Ht : render_schema recursive schema = Some t) (Hlen : zlen t <= INT32_MAX) (Hspace : zlen space <= INT64_MAX) :
  ArrowSchemaToString (Some schema) (Some (zlen pre)) (zlen space) recursive (pre ++ space ++ post) =
    Ok (zlen t) (pre ++ cut t space ++ post) ∧
  ArrowSchemaToString (Some schema) None 0 recursive post = Ok (zlen t) post.
Proof.
  destruct (schema_prints recursive schema t Ht) as [Hpos Hp]. unfold ArrowSchemaToString. split.
  - rewrite Hp, written_cut; [done|done| |done]. pose proof (zlen_nonneg space). split; [lia|right].
    exists (zlen pre). rewrite !zlen_app. pose proof (zlen_nonneg pre). pose proof (zlen_nonneg post). split; [done|lia].
  - rewrite Hp; [done| |done]. split; [done|by left].
Qed.

(** A struct of an integer, a timestamp and a list whose child was released. *)
Definition example_field (f n : string) (ch : list (option ArrowSchema)) : ArrowSchema :=
  SchemaLive (MkMembers (Some f) (Some n) None ARROW_FLAG_NULLABLE (zlen ch)
    (match ch with [] => None | _ => Some ch end) None).
Definition example_struct : ArrowSchema :=
  example_field "+s" "" [Some (example_field "i" "a" []); Some (example_field "tsu:UTC" "b" []);
    Some (example_field "+l" "c" [Some SchemaReleased])].
Definition example_text : string :=
  "struct<a: int32, b: timestamp('us', 'UTC'), c: [invalid: Expected valid schema at schema->children[0] but found a released schema]>".
Lemma schema_to_string_bounded_witness :
  ArrowSchemaToString (Some example_struct) (Some 2) 16 true ([7; 7] ++ replicate 16 1 ++ [7]) =
    Ok (zstrlen example_text) ([7; 7] ++ (bs "struct<a: int32" ++ [0]) ++ [7]).
Proof.
  exact (proj1 (schema_to_string_bounded true example_struct (bs example_text) [7; 7] (replicate 16 1) [7]
    ltac:(vm_compute; reflexivity) ltac:(vm_compute; discriminate) ltac:(vm_compute; discriminate))).
Defined.

(** A type with parameters, an extension type, a dictionary, and NULL. *)
Example decimal_text : render_schema true (example_field "d:10,2" "" []) = Some (bs "decimal128(10, 2)").
Proof. reflexivity. Qed.
Example dictionary_text :
  render_schema true (SchemaLive (MkMembers (Some "i"%string) None None 0 0 None (Some (example_field "u" "" [])))) =
    Some (bs "dictionary(int32)<string>").
Proof. vm_compute. reflexivity. Qed.
Example unknown_text : render_schema true (example_field "q" "" []) =
  Some (bs "[invalid: Error parsing schema->format: Unknown format: 'q']").
Proof. vm_compute. reflexivity. Qed.
